(* ===== verification/_CoqProject ===== *)
-Q . S2P
Prelude.v
CMem.v
CText.v
Digits.v
Coap.v
CoapParse.v
CoapCodec.v
CoapDispatch.v
CoapApp.v
DateTime.v
Plic.v
Platform.v
TimeApps.v
Nga.v
NgaSpec.v
BinnFormat.v
BinnItem.v
BinnRead.v
BinnApi.v
BinnCodec.v
BinnStore.v
BinnSpec.v
BinnId.v
BinnKeyed.v
BinnConvert.v
BinnText.v
BinnTheorems.v
JlHeap.v
JlEval.v
JlParse.v
JlLogic.v
JlScopes.v
JlTree.v
JlRef.v
JlRepr.v
JlPrint.v
JlFuncSpec.v
JlCallSpec.v
JlSpec.v
JlSession.v
JlReader.v
JlProgram.v
JlDefine.v
JlConsole.v
JlAnswers.v
JlPool.v
JlTheorems.v
JlFindings.v
Kforth.v
KforthCompile.v
KforthRef.v
KforthRun.v
KforthCode.v
KforthExec.v
KforthRead.v
KforthDict.v
KforthStore.v
KforthSession.v
KforthSee.v
KforthTheorems.v
KforthFindings.v
PusApi.v
PusApiSpec.v
Threads.v
App501.v
App501Spec.v
App500.v
App500Spec.v
Primet.v
Matrixmul.v
Netsrv.v
