(* ===== verification/Prelude.v ===== *)
(** * A verification library for PusOS

    PusOS is the part of a RISC-V operating system that sits on the LittleKernel
    kernel ("lk"): drivers for the QEMU [virt] board under
    src/platform/qemu-virt-riscv-rtc, libraries under src/pus/lib, commands and
    services under src/pus/app and experiments under src/pus/exp.  lk itself
    (threads, the console, minip, block devices, [malloc]) is not in the
    repository.  The program's own core is modelled here in the groups below.


    ** The parts, and where they are

    - _Shared_.  This file has C integers (a C integer is a [Z]; every conversion
      is one of the wraps [u8] .. [s64]), byte lists, array access, the proof
      automation and the lemmas on lists.  CMem.v has the byte memory of the
      CoAP buffers (a finite map, so that two pointers may alias) and
      little-endian numbers; CText.v texts in C buffers; Digits.v numbers as
      [sprintf] writes them; Threads.v the kernel's mutexes and semaphores as an
      interface, and the runs of a program of several threads under a schedule.
    - _CoAP_ (src/pus/lib/coap, src/pus/app/coapsrv, src/pus/app/coapcli).
      Coap.v is coap.c function by function; CoapParse.v, CoapCodec.v and
      CoapDispatch.v hold its theorems; CoapApp.v has the server (which owns an
      endpoint table and the static buffers and calls [coap_parse],
      [coap_handle_req] and [coap_build] from its UDP callback) and the client.
    - _JL_, the lisp interpreter (src/pus/app/lisp, with src/pus/lib/stringx).
      JlHeap.v: the pool of nodes, reference counts and scopes (jl-value.c,
      jl-scope.c, jl-context.c).  JlEval.v: [JLEvaluate], every function of
      jl-func.c, the printer.  JlParse.v: [strtod] and [strcspn], the reader, the
      console with its line editor (main.c).  JlRef.v is a reference interpreter
      on immutable values.  Between them, in the order in which they build on
      one another: JlLogic.v (weakest preconditions for the interpreter's
      monad), JlScopes.v and JlTree.v (binding trees), JlRepr.v (how expressions
      and values lie in the heap), JlPrint.v, JlFuncSpec.v, JlCallSpec.v,
      JlSpec.v (the evaluator refines the reference), JlSession.v, JlReader.v
      (the grammar of the texts), JlProgram.v, JlDefine.v, JlConsole.v,
      JlAnswers.v (lines that are typed), JlPool.v (what holds of every program).
      JlTheorems.v has the results, JlFindings.v runs of what the code does on
      programs it does not mean to run.
    - _kforth_ (src/pus/exp/kforth).  Kforth.v: the machine, the dictionary, the 43
      primitives, [see].  KforthCompile.v: tokens, the compiler, [store_word],
      the console.  KforthRef.v: a reference semantics of structured programs.
      KforthRun.v (primitives), KforthCode.v (the code of a program),
      KforthExec.v (that code run), KforthRead.v (the compiler makes that code),
      KforthDict.v and KforthStore.v (definitions and redefinitions),
      KforthSession.v and KforthSee.v are the lemmas, KforthTheorems.v and
      KforthFindings.v the results and the runs.
    - _Threads at work_ (src/pus/exp).  App501.v and App500.v are the two commands of
      src/pus/exp/app500 with a producer and consumers, App501Spec.v and
      App500Spec.v their theorems.  Primet.v is the prime printer of
      src/pus/exp/primet, Matrixmul.v the multiplication of
      src/pus/exp/matrixmul.
    - _The HTTP and TCP services_ (src/pus/app/pusapi, src/pus/app/netsrv).
      PusApi.v: the worker, the parser's callbacks and the page of sensor data;
      PusApiSpec.v: a reader of HTTP responses and the theorems.  Netsrv.v: the
      echo and text workers.
    - _Binn_ (src/pus/lib/binn).  BinnFormat.v: type codes, the walk over a
      stored value, ids, keys, the header.  BinnItem.v: the [binn] structure,
      creation, growth, the raw additions to lists, objects and maps, the
      header written back, validation, release.  BinnRead.v: reading by
      position, key and id, pairs, iterators.  BinnApi.v: the typed functions,
      their conversions and the inline wrappers of binn.h.  BinnCodec.v,
      BinnStore.v, BinnSpec.v, BinnId.v, BinnKeyed.v and BinnConvert.v are the
      lemmas in the order in which the code stacks them, BinnTheorems.v the
      results.  BinnText.v: values read in another type, strings among them.
    - _The board and the time_ (src/platform/qemu-virt-riscv-rtc,
      src/pus/lib/datetime, src/pus/app/systime, src/pus/app/ntptime).  Plic.v:
      device registers and the interrupt controller with its handler table.
      Platform.v: the clock, which registers a handler with the controller and
      gives its time to the calendar; the serial port; start-up and shutdown;
      the systime command.  DateTime.v: the calendar, used by systime and
      ntptime.  TimeApps.v: ntptime.
    - _RETRO_ (src/pus/exp/retro/retro.c).  Nga.v: the virtual machine, its 30
      instructions, [evaluate], the embedded image's loader and the line editor
      that feeds it.  NgaSpec.v: an abstract stack machine and the refinement.

    The names of the definitions are those of the C functions, except that a
    loop of a function [f] is [f_loop] (or says what it does: [advance_n],
    [coap_match_path]) and that a name Rocq already uses is changed a little.


    ** How code becomes definitions

    A function with effects takes the state it reads and returns the state it
    leaves; JL ([JlHeap.M]) and kforth ([Kforth.F]) have a state monad each.
    [None] is undefined behaviour of the C code (an access outside an
    object, signed overflow, an uninitialised read, an over-wide shift), never
    an ordinary error; an error the code reports is a value inside: an error
    code of [coap_error_t], [false] for FALSE, an inner [None] for NULL, the
    error flag of the JL context.  So
    "the result is [Some _]" in a theorem says that the code is free of
    undefined behaviour there, and a theorem "[f _ = None]" that it is not.

    A command of several threads is a step function on the shared variables and
    the places of the threads; [Threads.run] takes the threads in the order of a
    schedule, and theorems are about every schedule, or every one that is long
    enough or lets each thread move.

    Code outside the repository is a parameter, with what is relied on as the
    laws of a class or as a named hypothesis, and with an instance that
    satisfies them for the witnesses:
    - [Plic.Mmio] is a device with registers; [Plic.Storage] are registers that
      keep what is written to them; [Platform.GoldfishClock] and
      [Platform.Uart16550] say what the data sheets say of the clock and of the
      serial port.  Instances: [plic_dev], [goldfish], [serial].
    - [BinnFormat.BinnLib] are the allocators given to
      [binn_set_alloc_functions] and the kernel's [strnicmp];
      [BinnFormat.BinnLibOk] says that a block has the size asked for, that
      [realloc] keeps the contents, and that [strnicmp] is zero exactly on
      prefixes that agree up to letter case.  Instance: [BinnTheorems.demo_lib].
      [BinnApi.Stack] is what an uninitialised local holds;
      [BinnText.BinnTextLib] are [atof], [atoi], [%g] and [strdup].
    - [JLLib] is the kernel's [atof]: on the text of a number it gives that number
      and looks no further than the character after it.
    - [Kforth.KforthLib] are [malloc], the addresses of the constant entries and
      what a fresh block holds where [word_fn] will be; [KforthDict.KforthLibOk]
      says that entries and blocks are distinct, and nothing of whether there is
      memory or what it holds.  The code relies on both: [KforthDict.served] says
      when a block serves, and the theorems say what happens when one does not.
    - [Threads.KernelSync] with [KernelSyncOk]: a mutex is held by one thread, a
      semaphore counts, a wait with a limit may end by it at any time.
      [App500.LfsLib] with [LfsLibOk]: what littlefs promises of one file.
    - [PusApi.HttpLib] is llhttp and the printing of a [float];
      [PusApiSpec.HttpLibOk] says that a span is a part of the request.
      [Matrixmul.DoubleOps] the arithmetic of doubles.
    - the character buffer lib/cbuf, the handler functions that are registered,
      [rand], [current_time], [udp_open] and the flattened device tree are
      plain arguments; kernel calls made only for their effect are recorded in
      the result, and so is what is printed.


    ** Loops and their bounds

    Loops that C bounds by a counter recur on that counter: the options of a
    packet ([MAXOPT] when parsing, the packet's count when building), the
    elements of a path, the items a container announces (never more than the
    number in its header), the bytes of a string.  The others have fuel:
    - [JLEvaluate] and the loops over lists: fuel bounds the nesting and the
      length; the refinement holds for every fuel above what the reference
      needs, and [JLEvaluate] itself refuses expressions nested beyond its
      limit.  A line is below 128 characters, in a buffer of 200.
    - kforth: [execute_word] by the depth of calls and loops; the theorems give
      enough fuel for every program on which the reference has a result.  A
      definition has at most [MAX_COMPILE_WORDS] (100) items, the stacks have
      1000 and 100 places, a line 64 characters, the editor's buffer 200; the
      sessions of the theorems begin a line with at most 900 numbers.
    - schedules of threads: app501 returns after at most 1205 moves, primet after
      54 moves for each thread and three more; app500 has no bound.
    - [CalcAllocation_loop] has 32: thirty-two doublings pass every [int], and
      the shift is undefined before that; BinnStore.v proves the bound it needs.
    - [uart_irq_loop] and [uart_putc] wait for the device; Platform.v proves that
      a fuel above the number of waiting bytes (above the longest busy time of
      the [Uart16550]) gives the result.
    - [Nga.execute_loop] runs a program that need not end: its fuel is the
      number of instruction words to run.  The refinement holds for every fuel,
      the same on both sides, so it speaks of every point of a run.
    - [Nga.buffer_string] looks for a terminator in an array of known size.
    - the client's loop sends forever: [coapcli_loop] runs one iteration per
      pair of random numbers in a list of any length.  The workers of the
      services run until the list of what is read ends.


    ** What the theorems show

    The comment in front of each theorem states it in words, with its number.
    Where the code does what it means only under a condition, the theorem has the
    condition or says what happens without it.
    - _CoAP, C1 to C5, and its server, C33._  [coap_parse] terminates on every
      datagram and touches nothing outside it; it inverts the RFC 7252 encoding;
      [coap_build] writes that encoding for option values of up to 268 bytes, and
      with longer ones a text of the same length with wrong length bytes; parsing
      after building gives the message back; requests go to the first endpoint
      whose method and path match; the server answers a request of up to 255
      bytes (its length is a [uint8_t]) with its text.  CoapDispatch.v goes on
      with the edges: the bytes of a long option, options that do not
      fit, the endpoint table without terminator.  The abstract messages are
      [CoapCodec.coap_msg], their encoding [enc_msg], what is written
      [built_msg], and [pkt_repr] relates a packet in memory to its message.
    - _JL, C6 to C11._  The evaluator gives what the reference gives and takes and
      returns every reference to a node; a session of expressions and
      definitions, from the typed characters on, prints what the reference
      prints and leaves the pool as it was but for the definitions; what the
      reader reads is what the grammar says; a scope finds what it binds and
      leaves nothing behind; errors are reported exactly when they happen.  The
      grammar is [JlReader.written] for expressions and
      [JlProgram.program_written] for lines: blanks and comments anywhere they may
      stand, numbers with sign and period, strings without quotes and escapes,
      names that begin neither like a number nor with a sign (the code reads -foo
      as 0foo), + and - excepted.
    - _kforth, C12 to C16 and C37._  Typed lines are answered as the reference
      says, up to the first definition whose block does not serve; the compiler
      makes the code of the structured program; words defined again change in
      every word that uses them; a listing gives the definition back; a primitive
      does what its reference does; the line editor stays in its buffer from every
      position a first session reaches, and where it leaves it from the others.
    - _Threads, C17 to C20._  app501 delivers, while no wait ends by its limit, the
      items of the slots its indices stand for, in order when they start equal; it
      returns under every schedule when its addresses fit an [int], and never when
      they do not; app500 shows at most one item, and with its file there from the
      start never returns; primet prints each number of its ranges that its test
      accepts, once, with up to five threads, and goes wrong with more.
      _Matrices, C21._  The product.
    - _pusapi, C22 and C23._  A connection is answered as a reference on URLs and
      texts says, and goes wrong exactly where that does; the page of readings
      announces its length, and overflows when its lines do not fit.
    - _Binn, C24 to C32._  The abstract view of a list is a list of typed
      values, of an object or map a list of keyed values ([BinnSpec.rep] and the
      definitions after it).  Adding appends, up to integer compression, or is
      refused with the item unchanged in what it represents, which happens only
      where there is no room ([BinnStore.lacks_room]); reading finds the
      entry; keys are compared up to letter case; ids survive their variable
      length.  Conversion keeps numbers exactly and fails exactly out of range,
      through text too.  The walk over a value stays below its limit.
    - _Calendar and time, C34 and C35._  The conversion agrees with a calendar that
      counts days one at a time, for every time whose year fits sixteen bits;
      ntptime prints that date.
    - _Board, C36._  An interrupt is claimed, handled and completed once; Platform.v
      has the serial port, the memory arena and the clock's registration with a
      register address in place of an interrupt number.
    - _RETRO, C38 to C40._  The arrays and the sentinel cell implement an abstract
      machine with two stacks; the line editor stays in its buffers exactly from
      the positions up to 62; what the right shift computes.


    ** Not modelled

    - The threads of RETRO: each line starts a detached thread on the shared
      machine, while [retro_code] points to a local array of [process_buffer];
      [retro_app] gives the arrays in order, [retro_processor] what a thread can
      read of one before and after that call returns (nothing), and [evaluate]
      what the machine does when it runs alone.
    - Accepting connections, creating the services' threads, mounting file
      systems and other calls of the kernel in a row (heartbeat, datastore, the
      commands that print).
    - app503 and the programs built on mu; the printing of matrices; the
      functions for sensor data that app500 does not call.
    - Third-party and generated code: littlefs, nanopb, llhttp, the FAT file
      systems, the *.pb.c files and the services that only fill and send their
      messages, and the ports under src/pus/exp of languages by other authors.
    - jli.c, which the build replaces by main.c.


    ** Plan

    What is left, in this order: the interleavings of RETRO's threads on their
    shared machine, with Threads.v; myforth and tyforth, two more machines of
    the same kind; a traversal theorem for Binn's iterators over the
    abstract lists. *)
From stdpp Require Export base list gmap option numbers.
From Stdlib Require Export ZArith Lia.

#[global] Open Scope Z_scope.

(** [lia] understands [/], [mod], [quot] and [rem] by constants. *)
Ltac Zify.zify_post_hook ::= Z.to_euclidean_division_equations.

(** * C integer arithmetic

    A C integer of width [w] is a [Z]; every conversion the source makes to a
    narrower or unsigned type is written out with one of these wraps. *)

Definition u8 (z : Z) : Z := z mod 256.
Definition u16 (z : Z) : Z := z mod 65536.
Definition u32 (z : Z) : Z := z mod 4294967296.
Definition u64 (z : Z) : Z := z mod 18446744073709551616.

(** Two's complement reading of the low bits. *)
Definition s8 (z : Z) : Z := (z + 128) mod 256 - 128.
Definition s16 (z : Z) : Z := (z + 32768) mod 65536 - 32768.
Definition s32 (z : Z) : Z := (z + 2147483648) mod 4294967296 - 2147483648.
Definition s64 (z : Z) : Z :=
  (z + 9223372036854775808) mod 18446744073709551616 - 9223372036854775808.

Declare Scope c_scope.
Delimit Scope c_scope with C.
Notation "x .& y" := (Z.land x y) (at level 40, left associativity) : c_scope.
Notation "x .| y" := (Z.lor x y) (at level 50, left associativity) : c_scope.
Notation "x .^ y" := (Z.lxor x y) (at level 50, left associativity) : c_scope.
Notation "x .<< n" := (Z.shiftl x n) (at level 38, left associativity) : c_scope.
Notation "x .>> n" := (Z.shiftr x n) (at level 38, left associativity) : c_scope.
Notation ".~ x" := (Z.lnot x) (at level 35, right associativity) : c_scope.
#[global] Open Scope c_scope.

(** A byte is a [Z] in [0, 256). *)
Definition is_byte (b : Z) : Prop := 0 <= b < 256.
Abbreviation bytes := (list Z) (only parsing).

#[export] Instance is_byte_dec b : Decision (is_byte b).
Proof. unfold is_byte. apply _. Defined.

(** The length of a byte string, in [Z]. *)
Definition zlen {A} (l : list A) : Z := Z.of_nat (length l).

(** Array access at a C index: out of range is undefined behaviour, [None]. *)
Definition znth {A} (l : list A) (i : Z) : option A :=
  if i <? 0 then None else l !! Z.to_nat i.
Definition zupd {A} (l : list A) (i : Z) (x : A) : option (list A) :=
  if (i <? 0) || (zlen l <=? i) then None else Some (<[Z.to_nat i := x]> l).

(** * Automation *)

Create HintDb cint.
Create HintDb zlist.
Create Rewrite HintDb cint.
Create Rewrite HintDb zlist.

Lemma u8_range z : 0 <= u8 z < 256.
Proof. unfold u8. lia. Qed.
Lemma u16_range z : 0 <= u16 z < 65536.
Proof. unfold u16. lia. Qed.
Lemma u32_range z : 0 <= u32 z < 4294967296.
Proof. unfold u32. lia. Qed.
Lemma u64_range z : 0 <= u64 z < 18446744073709551616.
Proof. unfold u64. lia. Qed.
Lemma u8_id z : 0 <= z < 256 -> u8 z = z.
Proof. unfold u8. lia. Qed.
Lemma u16_id z : 0 <= z < 65536 -> u16 z = z.
Proof. unfold u16. lia. Qed.
Lemma u32_id z : 0 <= z < 4294967296 -> u32 z = z.
Proof. unfold u32. lia. Qed.
Lemma u64_id z : 0 <= z < 18446744073709551616 -> u64 z = z.
Proof. unfold u64. lia. Qed.
Lemma s32_id z : -2147483648 <= z < 2147483648 -> s32 z = z.
Proof. unfold s32. lia. Qed.
Lemma s64_id z : -9223372036854775808 <= z < 9223372036854775808 -> s64 z = z.
Proof. unfold s64. lia. Qed.

#[export] Hint Resolve u8_range u16_range u32_range u64_range : cint.
#[export] Hint Rewrite u8_id u16_id u32_id u64_id s32_id s64_id using lia : cint.

(** Closes side goals about widths after unfolding the wraps. *)
Ltac cint := unfold u8, u16, u32, u64, s8, s16, s32, s64, is_byte in *; lia.

(** Case analysis on every [if] over a decidable [Z] test, turning the tests
    into (in)equations. *)
Ltac zbool :=
  repeat match goal with
  | H : (_ =? _) = true |- _ => apply Z.eqb_eq in H
  | H : (_ =? _) = false |- _ => apply Z.eqb_neq in H
  | H : (_ <? _) = true |- _ => apply Z.ltb_lt in H
  | H : (_ <? _) = false |- _ => apply Z.ltb_ge in H
  | H : (_ <=? _) = true |- _ => apply Z.leb_le in H
  | H : (_ <=? _) = false |- _ => apply Z.leb_gt in H
  | H : (_ >? _) = _ |- _ => rewrite Z.gtb_ltb in H
  | H : (_ >=? _) = _ |- _ => rewrite Z.geb_leb in H
  | H : (_ && _) = true |- _ => apply andb_true_iff in H as [? ?]
  | H : (_ && _) = false |- _ => apply andb_false_iff in H
  | H : (_ || _) = true |- _ => apply orb_true_iff in H
  | H : (_ || _) = false |- _ => apply orb_false_iff in H as [? ?]
  | H : negb _ = true |- _ => apply negb_true_iff in H
  | H : negb _ = false |- _ => apply negb_false_iff in H
  end.
Ltac zif :=
  match goal with
  | |- context [if ?b then _ else _] => destruct b eqn:?; zbool; try lia
  end.
Ltac zifs := repeat zif.
(** Decide the first [if] of the goal from the context, by [lia]. *)
Ltac zif_true :=
  match goal with
  | |- context [if ?b then _ else _] =>
      replace b with true by (symmetry; rewrite ?andb_true_iff, ?orb_true_iff; lia)
  end.
Ltac zif_false :=
  match goal with
  | |- context [if ?b then _ else _] => replace b with false by (symmetry; lia)
  end.

(** Run the binds of the goal, nothing else. *)
Ltac cbind := cbn [mbind option_bind fst snd].

(** Equality of two terms of the same shape, up to arithmetic at the leaves. *)
Ltac feq := solve [repeat first [reflexivity | lia | progress f_equal]].

(** * Lists indexed by [Z] *)

Section zlist.
Context {A : Type}.
Implicit Types l : list A.

Lemma zlen_nonneg l : 0 <= zlen l.
Proof. unfold zlen. lia. Qed.

Lemma zlen_nil : zlen (@nil A) = 0.
Proof. done. Qed.

Lemma zlen_cons x l : zlen (x :: l) = 1 + zlen l.
Proof. unfold zlen. cbn [length]. lia. Qed.

Lemma zlen_app l1 l2 : zlen (l1 ++ l2) = zlen l1 + zlen l2.
Proof. unfold zlen. rewrite length_app. lia. Qed.

Lemma znth_Some l i x : znth l i = Some x <-> 0 <= i /\ l !! Z.to_nat i = Some x.
Proof. unfold znth. zifs; intuition (done || lia). Qed.

Lemma znth_in_range l i : 0 <= i < zlen l -> exists x, znth l i = Some x.
Proof.
  intros Hi. unfold znth, zlen in *. zif_false.
  destruct (l !! Z.to_nat i) eqn:E; [eauto|].
  apply lookup_ge_None in E. lia.
Qed.

Lemma znth_Some_range l i x : znth l i = Some x -> 0 <= i < zlen l.
Proof.
  intros [? H]%znth_Some. apply lookup_lt_Some in H. unfold zlen. lia.
Qed.

Lemma znth_app_l l1 l2 i : i < zlen l1 -> znth (l1 ++ l2) i = znth l1 i.
Proof.
  intros. unfold znth, zlen in *. zif; [done|]. rewrite lookup_app_l by lia. done.
Qed.

Lemma znth_app_r l1 l2 i : zlen l1 <= i -> znth (l1 ++ l2) i = znth l2 (i - zlen l1).
Proof.
  intros. unfold znth, zlen in *. zifs.
  rewrite lookup_app_r by lia. f_equal. lia.
Qed.

Lemma zupd_in_range l i x : 0 <= i < zlen l -> zupd l i x = Some (<[Z.to_nat i := x]> l).
Proof. intros. unfold zupd. zif_false. done. Qed.

Lemma drop_head l i x rest :
  drop (Z.to_nat i) l = x :: rest -> 0 <= i ->
  znth l i = Some x /\ drop (Z.to_nat (i + 1)) l = rest.
Proof.
  intros E Hi. assert (Hl : l !! Z.to_nat i = Some x).
  { rewrite <- (Nat.add_0_r (Z.to_nat i)), <- lookup_drop, E. done. }
  split; [unfold znth; by zif_false|].
  replace (Z.to_nat (i + 1)) with (S (Z.to_nat i)) by lia.
  rewrite (drop_S _ _ _ Hl) in E. by injection E.
Qed.
End zlist.

(** What is stored is found, and nothing else changes. *)
Lemma znth_zupd_eq {A} (l l' : list A) i x :
  zupd l i x = Some l' -> znth l' i = Some x.
Proof.
  unfold zupd. destruct ((i <? 0) || (zlen l <=? i)) eqn:E; zbool; [done|].
  intros [= <-]. unfold znth, zlen in *. zif_false. apply list_lookup_insert_eq. lia.
Qed.

Lemma znth_zupd_ne {A} (l l' : list A) i j x :
  zupd l i x = Some l' -> i <> j -> znth l' j = znth l j.
Proof.
  unfold zupd. destruct ((i <? 0) || (zlen l <=? i)) eqn:E; zbool; [done|].
  intros [= <-] ?. unfold znth, zlen in *. zif; [done|].
  apply list_lookup_insert_ne. lia.
Qed.

Lemma zupd_zlen {A} (l l' : list A) i x : zupd l i x = Some l' -> zlen l' = zlen l.
Proof.
  unfold zupd. destruct ((i <? 0) || (zlen l <=? i)) eqn:E; zbool; [done|].
  intros [= <-]. unfold zlen. by rewrite length_insert.
Qed.

#[export] Hint Rewrite @zlen_nil @zlen_cons @zlen_app : zlist.
#[export] Hint Resolve zlen_nonneg : zlist.

(** * Bit operations as arithmetic *)

Lemma land_shiftl_small a b n : 0 <= n -> 0 <= b < 2 ^ n -> (a .<< n) .& b = 0.
Proof.
  intros Hn Hb. apply Z.bits_inj'. intros i Hi.
  rewrite Z.land_spec, Z.bits_0.
  destruct (decide (i < n)).
  - rewrite Z.shiftl_spec_low by lia. done.
  - destruct (decide (b = 0)) as [->|]; [by rewrite Z.bits_0, andb_false_r|].
    rewrite (Z.bits_above_log2 b i), andb_false_r; [done|lia|].
    apply Z.log2_lt_pow2; [lia|].
    pose proof (Z.pow_le_mono_r 2 n i). lia.
Qed.

Lemma lor_shiftl a b n : 0 <= n -> 0 <= b < 2 ^ n -> (a .<< n) .| b = a * 2 ^ n + b.
Proof.
  intros. rewrite <- Z.shiftl_mul_pow2 by lia.
  pose proof (Z.add_lor_land (a .<< n) b). rewrite land_shiftl_small in * by lia. lia.
Qed.

Lemma land_ones_mod a n : 0 <= n -> a .& (2 ^ n - 1) = a mod 2 ^ n.
Proof.
  intros. rewrite <- Z.land_ones by lia. f_equal. rewrite Z.ones_equiv. lia.
Qed.

(** A field of [k] bits at offset [n], extracted by a mask and a shift. *)
Lemma shiftr_field a n k :
  0 <= n -> 0 <= k -> (a .& ((2 ^ k - 1) .<< n)) .>> n = (a / 2 ^ n) mod 2 ^ k.
Proof.
  intros. rewrite Z.shiftr_land, Z.shiftr_shiftl_l by lia.
  replace (n - n) with 0 by lia. rewrite Z.shiftl_0_r, land_ones_mod by lia.
  by rewrite Z.shiftr_div_pow2 by lia.
Qed.

Lemma land_0xF a : a .& 0xF = a mod 16.
Proof. apply (land_ones_mod a 4). lia. Qed.
Lemma land_0x3 a : a .& 0x3 = a mod 4.
Proof. apply (land_ones_mod a 2). lia. Qed.
Lemma land_0xFF a : a .& 0xFF = a mod 256.
Proof. apply (land_ones_mod a 8). lia. Qed.
Lemma land_0xFF_l a : 0xFF .& a = a mod 256.
Proof. by rewrite Z.land_comm, land_0xFF. Qed.
Lemma land_0xF0 a : (a .& 0xF0) .>> 4 = (a / 16) mod 16.
Proof. apply (shiftr_field a 4 4); lia. Qed.
Lemma land_0x30 a : (a .& 0x30) .>> 4 = (a / 16) mod 4.
Proof. apply (shiftr_field a 4 2); lia. Qed.
Lemma land_0xC0 a : (a .& 0xC0) .>> 6 = (a / 64) mod 4.
Proof. apply (shiftr_field a 6 2); lia. Qed.
Lemma shiftr_8 a : a .>> 8 = a / 256.
Proof. apply (Z.shiftr_div_pow2 a 8). lia. Qed.
Lemma lor_shiftl_8 a b : 0 <= b < 256 -> (a .<< 8) .| b = a * 256 + b.
Proof. apply (lor_shiftl a b 8). lia. Qed.
Lemma lor_shiftl_4 a b : 0 <= b < 16 -> (a .<< 4) .| b = a * 16 + b.
Proof. apply (lor_shiftl a b 4). lia. Qed.
Lemma lor_shiftl_6 a b : 0 <= b < 64 -> (a .<< 6) .| b = a * 64 + b.
Proof. apply (lor_shiftl a b 6). lia. Qed.

Create Rewrite HintDb cbits.
#[export] Hint Rewrite land_0xF land_0x3 land_0xFF land_0xFF_l land_0xF0 land_0x30 land_0xC0
  shiftr_8 : cbits.
