(* ===== verification/CMem.v ===== *)
(** The byte memory the buffer code runs on: a finite map from addresses to
    bytes.  A load or store outside the mapped addresses is undefined
    behaviour and yields [None]. *)
From S2P Require Import Prelude.

Abbreviation mem := (gmap Z Z).

(** * Accesses *)

Definition load (m : mem) (a : Z) : option Z := m !! a.

Definition store (m : mem) (a : Z) (v : Z) : option mem :=
  match m !! a with
  | Some _ => Some (<[a := u8 v]> m)
  | None => None
  end.

Fixpoint load_n (m : mem) (a : Z) (n : nat) : option bytes :=
  match n with
  | O => Some []
  | S n' =>
      b ← load m a;
      bs ← load_n m (a + 1) n';
      Some (b :: bs)
  end.
Definition load_bytes (m : mem) (a : Z) (n : Z) : option bytes := load_n m a (Z.to_nat n).

Fixpoint store_bytes (m : mem) (a : Z) (bs : bytes) : option mem :=
  match bs with
  | [] => Some m
  | b :: bs' => m' ← store m a b; store_bytes m' (a + 1) bs'
  end.

(** The C library's [memcpy]: undefined when the two regions overlap. *)
Definition memcpy (m : mem) (dst src n : Z) : option mem :=
  if (n <=? 0) then Some m
  else if (dst <? src + n) && (src <? dst + n) then None
  else bs ← load_bytes m src n; store_bytes m dst bs.

Definition memset (m : mem) (dst v n : Z) : option mem :=
  store_bytes m dst (replicate (Z.to_nat n) v).

(** * Regions *)

Definition mapped (m : mem) (a n : Z) : Prop :=
  forall i, a <= i < a + n -> is_Some (m !! i).

(** Overwrite a region, whatever it held. *)
Fixpoint wr (m : mem) (a : Z) (bs : bytes) : mem :=
  match bs with
  | [] => m
  | b :: bs' => wr (<[a := b]> m) (a + 1) bs'
  end.

Definition all_bytes (bs : bytes) : Prop := Forall is_byte bs.
Definition mem_bytes (m : mem) : Prop := forall a v, m !! a = Some v -> is_byte v.

Definition disjoint (a n b k : Z) : Prop := a + n <= b \/ b + k <= a \/ n <= 0 \/ k <= 0.

(** [bs] is what the [zlen bs] addresses from [a] hold. *)
Definition bytes_at (m : mem) (a : Z) (bs : bytes) : Prop :=
  load_bytes m a (zlen bs) = Some bs.

(** * Lemmas *)

Lemma wr_lookup m a bs i :
  wr m a bs !! i = if (a <=? i) && (i <? a + zlen bs) then znth bs (i - a) else m !! i.
Proof.
  revert m a. induction bs as [|b bs IH]; intros m a; simpl.
  - rewrite zlen_nil. zifs. done.
  - rewrite IH, zlen_cons. pose proof (zlen_nonneg bs).
    destruct (decide (i = a)) as [->|].
    + zifs; rewrite ?lookup_insert_eq; unfold znth; zifs;
        replace (Z.to_nat (a - a)) with O by lia; done.
    + destruct ((a + 1 <=? i) && (i <? a + 1 + zlen bs)) eqn:E; zbool.
      * zif_true. unfold znth. zifs.
        replace (Z.to_nat (i - a)) with (S (Z.to_nat (i - (a + 1)))) by lia. done.
      * rewrite lookup_insert_ne by lia. zif; done.
Qed.

Lemma wr_app m a bs1 bs2 : wr m a (bs1 ++ bs2) = wr (wr m a bs1) (a + zlen bs1) bs2.
Proof.
  revert m a. induction bs1 as [|b bs IH]; intros m a; simpl.
  - f_equal. rewrite zlen_nil. lia.
  - rewrite IH, zlen_cons. f_equal. lia.
Qed.

Lemma wr_outside m a bs i : i < a \/ a + zlen bs <= i -> wr m a bs !! i = m !! i.
Proof. intros. rewrite wr_lookup. zif. done. Qed.

Lemma mapped_wr m a bs b n : mapped m b n -> mapped (wr m a bs) b n.
Proof.
  intros H i Hi. rewrite wr_lookup. zif; [|auto].
  destruct (znth_in_range bs (i - a)) as [x ->]; [lia|eauto].
Qed.

Lemma mapped_sub m a n b k : mapped m a n -> a <= b -> b + k <= a + n -> mapped m b k.
Proof. intros H ?? i ?. apply H. lia. Qed.

Lemma store_mapped m a v : is_Some (m !! a) -> store m a v = Some (wr m a [u8 v]).
Proof. intros [x Hx]. unfold store. by rewrite Hx. Qed.

Lemma all_bytes_u8 bs : all_bytes bs -> map u8 bs = bs.
Proof.
  induction 1 as [|b bs Hb _ IH]; [done|]. simpl. rewrite IH. f_equal. cint.
Qed.

Lemma store_bytes_mapped m a bs :
  mapped m a (zlen bs) -> store_bytes m a bs = Some (wr m a (map u8 bs)).
Proof.
  revert m a. induction bs as [|b bs IH]; intros m a Hm; simpl; [done|].
  rewrite zlen_cons in Hm. pose proof (zlen_nonneg bs).
  rewrite store_mapped by (apply Hm; lia). simpl. apply IH.
  apply (mapped_wr m a [u8 b]). eapply mapped_sub; [done|lia|lia].
Qed.

Lemma load_n_mapped m a n : mapped m a (Z.of_nat n) -> exists bs, load_n m a n = Some bs.
Proof.
  revert a. induction n as [|n IH]; intros a Hm; simpl; [eauto|].
  destruct (Hm a) as [b Hb]; [lia|]. unfold load. rewrite Hb. simpl.
  destruct (IH (a + 1)) as [bs ->]; [|eauto].
  eapply mapped_sub; [done|lia|lia].
Qed.

Lemma load_bytes_mapped m a n :
  mapped m a n -> exists bs, load_bytes m a n = Some bs.
Proof.
  intros. apply load_n_mapped. destruct (decide (0 <= n)).
  - by rewrite Z2Nat.id by lia.
  - intros i ?. lia.
Qed.

Lemma load_n_length m a n bs : load_n m a n = Some bs -> length bs = n.
Proof.
  revert a bs. induction n as [|n IH]; intros a bs; simpl; [by intros [= <-]|].
  destruct (load m a); simpl; [|done].
  destruct (load_n m (a + 1) n) eqn:E; simpl; [|done].
  intros [= <-]. simpl. by erewrite IH.
Qed.

Lemma load_bytes_zlen m a n bs : 0 <= n -> load_bytes m a n = Some bs -> zlen bs = n.
Proof. intros ? H%load_n_length. unfold zlen. lia. Qed.

Lemma load_n_ext m m' a n :
  (forall i, a <= i < a + Z.of_nat n -> m' !! i = m !! i) -> load_n m' a n = load_n m a n.
Proof.
  revert a. induction n as [|n IH]; intros a H; simpl; [done|].
  unfold load. rewrite H by lia. destruct (m !! a); simpl; [|done].
  rewrite IH; [done|]. intros. apply H. lia.
Qed.

Lemma load_bytes_ext m m' a n :
  (forall i, a <= i < a + n -> m' !! i = m !! i) -> load_bytes m' a n = load_bytes m a n.
Proof. intros H. apply load_n_ext. intros. apply H. lia. Qed.

Lemma load_bytes_wr_disjoint m a bs b n :
  disjoint a (zlen bs) b n -> load_bytes (wr m a bs) b n = load_bytes m b n.
Proof.
  intros H. apply load_bytes_ext. intros i ?. apply wr_outside.
  pose proof (zlen_nonneg bs). unfold disjoint in H. lia.
Qed.

Lemma load_n_lookup m a n bs i :
  load_n m a n = Some bs -> 0 <= i < Z.of_nat n -> m !! (a + i) = znth bs i.
Proof.
  revert a bs i. induction n as [|n IH]; intros a bs i; simpl; [lia|].
  unfold load. destruct (m !! a) eqn:Ea; simpl; [|done].
  destruct (load_n m (a + 1) n) eqn:E; simpl; [|done].
  intros [= <-] Hi. unfold znth. zif_false.
  destruct (decide (i = 0)) as [->|].
  - by rewrite Z.add_0_r.
  - replace (a + i) with (a + 1 + (i - 1)) by lia. rewrite (IH _ _ (i - 1) E) by lia.
    unfold znth. zif_false.
    replace (Z.to_nat i) with (S (Z.to_nat (i - 1))) by lia. done.
Qed.

Lemma bytes_at_lookup m a bs i :
  bytes_at m a bs -> 0 <= i < zlen bs -> m !! (a + i) = znth bs i.
Proof. intros H Hi. eapply load_n_lookup; [exact H|lia]. Qed.

Lemma bytes_at_mapped m a bs : bytes_at m a bs -> mapped m a (zlen bs).
Proof.
  intros H i Hi. replace i with (a + (i - a)) by lia.
  rewrite (bytes_at_lookup _ _ _ _ H) by lia.
  destruct (znth_in_range bs (i - a)) as [x ->]; [lia|eauto].
Qed.

Lemma bytes_at_eq m a a' bs : bytes_at m a bs -> a = a' -> bytes_at m a' bs.
Proof. by intros ? <-. Qed.

Lemma bytes_at_nil m a : bytes_at m a [].
Proof. done. Qed.

Lemma bytes_at_cons m a b bs :
  bytes_at m a (b :: bs) <-> m !! a = Some b /\ bytes_at m (a + 1) bs.
Proof.
  unfold bytes_at, load_bytes, zlen. rewrite !Nat2Z.id. simpl. unfold load.
  destruct (m !! a) as [x|]; simpl; [|intuition done].
  destruct (load_n m (a + 1) (length bs)); simpl; [|intuition done].
  split; [intros [= -> ->]; done | intros [[= ->] [= ->]]; done].
Qed.

Lemma bytes_at_app m a bs1 bs2 :
  bytes_at m a (bs1 ++ bs2) <-> bytes_at m a bs1 /\ bytes_at m (a + zlen bs1) bs2.
Proof.
  revert a. induction bs1 as [|b bs IH]; intros a; simpl.
  - rewrite zlen_nil, Z.add_0_r. split; [|intros [_ ?]; done].
    intros; split; [apply bytes_at_nil|done].
  - rewrite !bytes_at_cons, IH, zlen_cons.
    replace (a + (1 + zlen bs)) with (a + 1 + zlen bs) by lia. intuition done.
Qed.

Lemma bytes_at_wr m a bs : bytes_at (wr m a bs) a bs.
Proof.
  revert m a. induction bs as [|b bs IH]; intros m a; [apply bytes_at_nil|].
  rewrite bytes_at_cons. simpl. split; [|apply IH].
  rewrite wr_outside by lia. apply lookup_insert_eq.
Qed.

Lemma memcpy_wr m dst src n bs :
  mapped m dst n -> load_bytes m src n = Some bs -> all_bytes bs -> 0 <= n ->
  disjoint dst n src n -> memcpy m dst src n = Some (wr m dst bs).
Proof.
  intros Hm Hl Hb Hn Hd. pose proof (load_bytes_zlen _ _ _ _ Hn Hl) as Hlen.
  unfold memcpy. zif.
  - destruct bs; [done|]. rewrite zlen_cons in Hlen. pose proof (zlen_nonneg bs). lia.
  - unfold disjoint in Hd. zif_false. rewrite Hl. simpl.
    rewrite store_bytes_mapped by (by rewrite Hlen).
    by rewrite all_bytes_u8.
Qed.

Lemma load_bytes_all_bytes m a n bs : mem_bytes m -> load_bytes m a n = Some bs -> all_bytes bs.
Proof.
  intros Hm. unfold load_bytes. generalize (Z.to_nat n). intros k.
  revert a bs. induction k as [|k IH]; intros a bs; simpl; [intros [= <-]; constructor|].
  unfold load. destruct (m !! a) eqn:E; simpl; [|done].
  destruct (load_n m (a + 1) k) eqn:E'; simpl; [|done].
  intros [= <-]. constructor; [by eapply Hm|by eapply IH].
Qed.

Lemma mem_bytes_wr m a bs : mem_bytes m -> all_bytes bs -> mem_bytes (wr m a bs).
Proof.
  intros Hm Hb i v. rewrite wr_lookup. zif; [|apply Hm].
  intros [_ Hl]%znth_Some. by eapply Forall_lookup_1 in Hl.
Qed.

Create HintDb cmem.
#[export] Hint Resolve bytes_at_nil bytes_at_wr mapped_wr : cmem.
#[global] Arguments wr : simpl never.

(** * Little-endian words *)

Fixpoint le_bytes (n : nat) (v : Z) : bytes :=
  match n with
  | O => []
  | S n' => v mod 256 :: le_bytes n' (v / 256)
  end.

Fixpoint le_val (bs : bytes) : Z :=
  match bs with
  | [] => 0
  | b :: bs' => b + 256 * le_val bs'
  end.

(** Big-endian, the network order. *)
Definition be_bytes (n : nat) (v : Z) : bytes := rev (le_bytes n v).
Definition be_val (bs : bytes) : Z := le_val (rev bs).

Definition load_le (m : mem) (a : Z) (n : nat) : option Z :=
  bs ← load_n m a n; Some (le_val bs).
Definition store_le (m : mem) (a : Z) (n : nat) (v : Z) : option mem :=
  store_bytes m a (le_bytes n v).

Lemma le_bytes_length n v : length (le_bytes n v) = n.
Proof. revert v. induction n as [|n IH]; intros v; simpl; [done|]. by rewrite IH. Qed.

Lemma le_bytes_all n v : all_bytes (le_bytes n v).
Proof.
  revert v. induction n as [|n IH]; intros v; simpl; constructor; [unfold is_byte; lia|apply IH].
Qed.

Lemma le_val_bytes n v : le_val (le_bytes n v) = v mod 256 ^ Z.of_nat n.
Proof.
  revert v. induction n as [|n IH]; intros v; simpl le_bytes; simpl le_val.
  - change (Z.of_nat 0) with 0. by rewrite Z.pow_0_r, Z.mod_1_r.
  - rewrite IH, Nat2Z.inj_succ, Z.pow_succ_r by lia.
    pose proof (Z.pow_pos_nonneg 256 (Z.of_nat n) ltac:(lia) ltac:(lia)).
    rewrite Z.rem_mul_r by lia. lia.
Qed.

Lemma le_bytes_val bs : all_bytes bs -> le_bytes (length bs) (le_val bs) = bs.
Proof.
  induction 1 as [|b bs Hb _ IH]; simpl; [done|]. unfold is_byte in Hb.
  replace ((b + 256 * le_val bs) mod 256) with b by lia.
  replace ((b + 256 * le_val bs) / 256) with (le_val bs) by lia. by rewrite IH.
Qed.

Lemma le_val_range bs : all_bytes bs -> 0 <= le_val bs < 256 ^ zlen bs.
Proof.
  induction 1 as [|b bs Hb _ IH]; [done|]. unfold is_byte in Hb. simpl le_val.
  rewrite zlen_cons. rewrite Z.pow_add_r by (try lia; apply zlen_nonneg).
  change (256 ^ 1) with 256. lia.
Qed.

Lemma be_bytes_length n v : length (be_bytes n v) = n.
Proof. unfold be_bytes. by rewrite length_rev, le_bytes_length. Qed.

Lemma be_val_bytes n v : be_val (be_bytes n v) = v mod 256 ^ Z.of_nat n.
Proof. unfold be_val, be_bytes. by rewrite rev_involutive, le_val_bytes. Qed.
