(* ===== verification/CText.v ===== *)
(** Texts in C buffers: a buffer is its bytes, the terminating zero and whatever
    follows it; strings, comparison and scanning, and what a buffer holds from a
    position on. *)
From Stdlib Require Import Ascii String.
From S2P Require Import Prelude.

(** * Functions *)

Definition isdigit (c : Z) : bool := (48 <=? c) && (c <=? 57).

(** A string literal. *)
Definition str_of (s : String.string) : bytes :=
  map (fun a => Z.of_N (Ascii.N_of_ascii a)) (String.list_ascii_of_string s).

Fixpoint strcmp (a b : bytes) : Z :=
  match a, b with
  | [], [] => 0
  | [], _ :: _ => -1
  | _ :: _, [] => 1
  | x :: a', y :: b' => if x =? y then strcmp a' b' else if x <? y then -1 else 1
  end.

(** The string at a position of the buffer. *)
Fixpoint c_string_loop (fuel : nat) (txt : bytes) (i : Z) : option bytes :=
  match fuel with
  | O => None
  | S fuel' =>
      c ← znth txt i;
      if c =? 0 then Some [] else s ← c_string_loop fuel' txt (i + 1); Some (c :: s)
  end.
Definition c_string (txt : bytes) (i : Z) : option bytes := c_string_loop (S (length txt)) txt i.

(** [while (f( *p)) ++p] *)
Fixpoint skip_while (f : Z -> bool) (fuel : nat) (txt : bytes) (i : Z) : option Z :=
  match fuel with
  | O => None
  | S fuel' => c ← znth txt i; if f c then skip_while f fuel' txt (i + 1) else Some i
  end.

Definition text_fuel (txt : bytes) : nat := S (length txt).
Definition skip (f : Z -> bool) (txt : bytes) (i : Z) : option Z := skip_while f (text_fuel txt) txt i.

Lemma strcmp_eq a b : strcmp a b = 0 <-> a = b.
Proof.
  revert b. induction a as [|x a IH]; intros [|y b]; simpl; try done.
  destruct (x =? y) eqn:E; zbool; [subst; rewrite IH; split; [by intros ->|by intros [= ->]]|].
  destruct (x <? y); split; try lia; intros [= -> ->]; lia.
Qed.

(** * A position in a text *)

(** [s] is what follows position [p]. *)
Definition at_text (txt : bytes) (p : Z) (s : bytes) : Prop := 0 <= p /\ drop (Z.to_nat p) txt = s.

Lemma at_head txt p c s : at_text txt p (c :: s) -> znth txt p = Some c.
Proof.
  intros [Hp Hd]. unfold znth. zif_false. rewrite <- (Nat.add_0_r (Z.to_nat p)), <- lookup_drop.
  by rewrite Hd.
Qed.

Lemma at_app txt p s s' : at_text txt p (s ++ s') -> at_text txt (p + zlen s) s'.
Proof.
  intros [Hp Hd]. unfold zlen. split; [lia|].
  rewrite Z2Nat.inj_add, Nat2Z.id by lia. by rewrite <- drop_drop, Hd, drop_app_length.
Qed.

Lemma at_tail txt p c s : at_text txt p (c :: s) -> at_text txt (p + 1) s.
Proof. apply (at_app txt p [c] s). Qed.

Lemma at_length txt p s : at_text txt p s -> (length s <= length txt)%nat.
Proof. intros [_ <-]. rewrite length_drop. lia. Qed.

Lemma at_take txt p s s' : at_text txt p (s ++ s') -> take (Z.to_nat (zlen s)) (drop (Z.to_nat p) txt) = s.
Proof. intros [_ ->]. unfold zlen. rewrite Nat2Z.id. apply take_app_length. Qed.

(** A store at the position. *)
Lemma at_upd txt p c s x : at_text txt p (c :: s) ->
  exists txt', zupd txt p x = Some txt' /\ at_text txt' p (x :: s) /\ length txt' = length txt.
Proof.
  intros Ha. pose proof (znth_Some_range _ _ _ (at_head _ _ _ _ Ha)) as Hr. unfold zlen in Hr.
  exists (<[Z.to_nat p := x]> txt). split; [by apply zupd_in_range|]. split; [|by rewrite length_insert].
  split; [lia|]. apply at_tail in Ha as [_ <-].
  rewrite insert_take_drop by lia. rewrite drop_app_ge by (rewrite length_take; lia).
  rewrite length_take. replace (Z.to_nat p - _)%nat with 0%nat by lia. cbn. by rewrite Z2Nat.inj_add by lia; rewrite Nat.add_1_r.
Qed.

(** [skip] stops at the first character that [f] refuses. *)
Lemma skip_spec f txt s : forall p c rest, at_text txt p (s ++ c :: rest) ->
  Forall (fun c => f c = true) s -> f c = false -> skip f txt p = Some (p + zlen s).
Proof.
  assert (H : forall fuel p c rest, at_text txt p (s ++ c :: rest) -> (length s < fuel)%nat ->
    Forall (fun c => f c = true) s -> f c = false -> skip_while f fuel txt p = Some (p + zlen s)).
  { induction s as [|x s IH]; intros fuel p c rest Ha Hf Hs Hc; (destruct fuel; [simpl in Hf; lia|]);
      cbn [skip_while]; rewrite (at_head _ _ _ _ Ha); cbn [mbind option_bind].
    - rewrite Hc, zlen_nil. by rewrite Z.add_0_r.
    - apply Forall_cons_1 in Hs as [Hx Hs]. rewrite Hx. rewrite (IH fuel (p + 1) c rest); [|by eapply at_tail|simpl in Hf; lia|done|done].
      rewrite zlen_cons. f_equal. lia. }
  intros p c rest Ha Hs Hc. eapply H; [done| |done|done].
  apply at_length in Ha. rewrite length_app in Ha. simpl in Ha. unfold text_fuel. lia.
Qed.

(** The string up to the zero. *)
Fixpoint until_zero (s : bytes) : bytes :=
  match s with [] => [] | c :: s' => if c =? 0 then [] else c :: until_zero s' end.

Lemma c_string_spec txt p s : at_text txt p s -> 0 ∈ s -> c_string txt p = Some (until_zero s).
Proof.
  intros Ha Hz. unfold c_string. assert (Hf : (length s < S (length txt))%nat) by (apply at_length in Ha; lia).
  revert p Ha Hz Hf. generalize (S (length txt)) as fuel. induction s as [|c s IH]; intros fuel p Ha Hz Hf.
  - by apply elem_of_nil in Hz.
  - destruct fuel as [|fuel]; [simpl in Hf; lia|]. cbn [c_string_loop]. rewrite (at_head _ _ _ _ Ha). cbn.
    destruct (c =? 0) eqn:Ec; [done|]. apply elem_of_cons in Hz as [<-|Hz]; [done|].
    rewrite (IH fuel (p + 1)); [done|by eapply at_tail|done|simpl in Hf; lia].
Qed.

(** * Typed lines *)

(** A character that is neither an end of line, a backspace nor an escape. *)
Definition ordinary (c : Z) : bool := (1 <=? c) && (c <=? 255) && negb (existsb (Z.eqb c) [8; 10; 13; 27; 127]).

Lemma ordinary_switch c : ordinary c = true -> 0 <= c <= 255 /\ (c =? 13) || (c =? 10) = false /\
  (c =? 127) || (c =? 8) = false /\ (c =? 27) = false /\ c <> 0.
Proof. unfold ordinary. cbn [existsb]. intros H'. zbool. lia. Qed.
