(* ===== verification/Digits.v ===== *)
(** Numbers as [sprintf] writes them, and what their digits stand for. *)
From S2P Require Import Prelude.

Fixpoint digits_of (base : Z) (fuel : nat) (n : Z) : bytes :=
  match fuel with
  | O => []
  | S fuel' =>
      let d := n mod base in
      (if n <? base then [] else digits_of base fuel' (n / base)) ++ [if d <? 10 then 48 + d else 87 + d]
  end.
(** [%d], [%x] and [%02x] of numbers that are not negative, below [2^32]. *)
Definition show_d (n : Z) : bytes := digits_of 10 10 n.
Definition show_x (n : Z) : bytes := digits_of 16 8 n.
Definition show_02x (n : Z) : bytes := let s := show_x n in if zlen s <? 2 then 48 :: s else s.
(** [%lli] of an [int64]: at most nineteen digits. *)
Definition show_lli (n : Z) : bytes := if n <? 0 then 45 :: digits_of 10 19 (- n) else digits_of 10 19 n.

(** * Their values *)

Definition digit (c : Z) : Prop := 48 <= c <= 57.
Definition digits_value (s : bytes) : Z := foldl (fun a c => a * 10 + (c - 48)) 0 s.

Lemma digits_10 n : forall fuel, 0 <= n < 10 ^ Z.of_nat fuel -> Forall digit (digits_of 10 fuel n) /\ digits_value (digits_of 10 fuel n) = n.
Proof.
  intros fuel. revert n. induction fuel as [|fuel IH]; intros n Hn; [cbn in *; split; [constructor|lia]|]. cbn [digits_of].
  pose proof (Z.mod_pos_bound n 10). replace (n mod 10 <? 10) with true by lia.
  assert (Hd : Forall digit [48 + n mod 10]) by (repeat constructor; lia).
  destruct (n <? 10) eqn:E.
  - split; [done|]. cbn. rewrite Z.mod_small by lia. lia.
  - assert (Hq : 0 <= n / 10 < 10 ^ Z.of_nat fuel).
    { rewrite Nat2Z.inj_succ, Z.pow_succ_r in Hn by lia. split; [apply Z.div_pos; lia|]. apply Z.div_lt_upper_bound; lia. }
    destruct (IH _ Hq) as [H1 H2]. split; [by apply Forall_app|].
    unfold digits_value in *. rewrite foldl_app, H2. cbn. pose proof (Z.div_mod n 10). lia.
Qed.

Lemma digits_length base fuel : forall n, 1 < base -> (length (digits_of base fuel n) <= fuel)%nat.
Proof.
  induction fuel as [|fuel IH]; intros n Hb; [done|]. cbn [digits_of]. rewrite length_app. cbn [length].
  specialize (IH (n / base) Hb). destruct (n <? base); cbn [length]; lia.
Qed.
Lemma digits_small base k : forall n fuel, 1 < base -> 0 <= n < base ^ Z.of_nat k -> (k <= fuel)%nat -> (1 <= k)%nat ->
  (length (digits_of base fuel n) <= k)%nat.
Proof.
  induction k as [|k IH]; intros n fuel Hb Hn Hf Hk; [lia|]. destruct fuel as [|fuel]; [lia|]. cbn [digits_of]. rewrite length_app. cbn [length].
  destruct (n <? base) eqn:E; [cbn; lia|]. destruct k as [|k]; [cbn in Hn; lia|].
  assert (Hq : 0 <= n / base < base ^ Z.of_nat (S k)).
  { rewrite Nat2Z.inj_succ, Z.pow_succ_r in Hn by lia. split; [apply Z.div_pos; lia|]. apply Z.div_lt_upper_bound; lia. }
  specialize (IH (n / base) fuel Hb Hq). lia.
Qed.
Lemma digits_nonempty base fuel n : (1 <= fuel)%nat -> digits_of base fuel n <> [].
Proof. destruct fuel; [lia|]. intros _ E. by apply app_eq_nil in E as [_ E]. Qed.
