(* ===== verification/Coap.v ===== *)
(** The CoAP message library, src/pus/lib/coap/coap.c with its header
    include/lib/coap.h.

    Packets, options and endpoints are the C structs; a [coap_buffer_t] is an
    address and a length in the byte memory of [CMem], so the aliasing the code
    relies on (parsed options point into the received datagram, the response
    option points into the scratch buffer that is written after the pointer is
    taken) is the model's too.  A function that fills an out-structure takes the
    structure's previous contents and returns the updated one.  The result is
    [None] when the C code has undefined behaviour: an access outside the mapped
    memory or outside an array, an overlapping [memcpy], or a read of an
    uninitialised variable.  Console output ([printf], [LTRACEF]) is left out,
    and with it what a [%s] conversion reads beyond the buffer it is given. *)
From S2P Require Import Prelude CMem.

(** * coap.h: data *)

Definition MAXOPT : Z := 16.
Definition MAX_SEGMENTS : Z := 2.

Record coap_header_t := mk_header {
  hdr_ver : Z; hdr_t : Z; hdr_tkl : Z; hdr_code : Z; hdr_id0 : Z; hdr_id1 : Z }.

Record coap_buffer_t := mk_buffer { buf_p : Z; buf_len : Z }.

Record coap_rw_buffer_t := mk_rw_buffer { rw_p : Z; rw_len : Z }.

Record coap_option_t := mk_option { opt_num : Z; opt_buf : coap_buffer_t }.

Record coap_packet_t := mk_packet {
  pkt_hdr : coap_header_t; pkt_tok : coap_buffer_t; pkt_numopts : Z;
  pkt_opts : list coap_option_t; pkt_payload : coap_buffer_t }.

Definition NULL : Z := 0.

Definition COAP_OPTION_IF_MATCH : Z := 1.
Definition COAP_OPTION_URI_HOST : Z := 3.
Definition COAP_OPTION_ETAG : Z := 4.
Definition COAP_OPTION_IF_NONE_MATCH : Z := 5.
Definition COAP_OPTION_OBSERVE : Z := 6.
Definition COAP_OPTION_URI_PORT : Z := 7.
Definition COAP_OPTION_LOCATION_PATH : Z := 8.
Definition COAP_OPTION_URI_PATH : Z := 11.
Definition COAP_OPTION_CONTENT_FORMAT : Z := 12.
Definition COAP_OPTION_MAX_AGE : Z := 14.
Definition COAP_OPTION_URI_QUERY : Z := 15.
Definition COAP_OPTION_ACCEPT : Z := 17.
Definition COAP_OPTION_LOCATION_QUERY : Z := 20.
Definition COAP_OPTION_PROXY_URI : Z := 35.
Definition COAP_OPTION_PROXY_SCHEME : Z := 39.

Definition COAP_METHOD_GET : Z := 1.
Definition COAP_METHOD_POST : Z := 2.
Definition COAP_METHOD_PUT : Z := 3.
Definition COAP_METHOD_DELETE : Z := 4.

Definition COAP_TYPE_CON : Z := 0.
Definition COAP_TYPE_NONCON : Z := 1.
Definition COAP_TYPE_ACK : Z := 2.
Definition COAP_TYPE_RESET : Z := 3.

Definition MAKE_RSPCODE (clas det : Z) : Z := (clas .<< 5) .| det.
Definition COAP_RSPCODE_CONTENT : Z := MAKE_RSPCODE 2 5.
Definition COAP_RSPCODE_NOT_FOUND : Z := MAKE_RSPCODE 4 4.
Definition COAP_RSPCODE_BAD_REQUEST : Z := MAKE_RSPCODE 4 0.
Definition COAP_RSPCODE_CHANGED : Z := MAKE_RSPCODE 2 4.

Definition COAP_CONTENTTYPE_NONE : Z := -1.
Definition COAP_CONTENTTYPE_TEXT_PLAIN : Z := 0.
Definition COAP_CONTENTTYPE_APPLICATION_LINKFORMAT : Z := 40.
Definition COAP_CONTENTTYPE_APPLICATION_XML : Z := 41.
Definition COAP_CONTENTTYPE_APPLICATION_OCTECT_STREAM : Z := 42.
Definition COAP_CONTENTTYPE_APPLICATION_EXI : Z := 47.
Definition COAP_CONTENTTYPE_APPLICATION_JSON : Z := 50.

Inductive coap_error_t :=
  | COAP_ERR_NONE
  | COAP_ERR_HEADER_TOO_SHORT
  | COAP_ERR_VERSION_NOT_1
  | COAP_ERR_TOKEN_TOO_SHORT
  | COAP_ERR_OPTION_TOO_SHORT_FOR_HEADER
  | COAP_ERR_OPTION_TOO_SHORT
  | COAP_ERR_OPTION_OVERRUNS_PACKET
  | COAP_ERR_OPTION_TOO_BIG
  | COAP_ERR_OPTION_LEN_INVALID
  | COAP_ERR_BUFFER_TOO_SMALL
  | COAP_ERR_UNSUPPORTED
  | COAP_ERR_OPTION_DELTA_INVALID.

#[export] Instance coap_error_eq_dec : EqDecision coap_error_t.
Proof. solve_decision. Defined.

(** The C test [0 != rc]. *)
Definition is_err (rc : coap_error_t) : bool :=
  match rc with COAP_ERR_NONE => false | _ => true end.

(** * Parsing *)

Definition coap_parseHeader (m : mem) (hdr : coap_header_t) (buf buflen : Z)
  : option (coap_error_t * coap_header_t) :=
  if buflen <? 4 then Some (COAP_ERR_HEADER_TOO_SHORT, hdr)
  else
    b0 ← load m buf;
    let ver := (b0 .& 0xC0) .>> 6 in
    let hdr := mk_header ver (hdr_t hdr) (hdr_tkl hdr) (hdr_code hdr) (hdr_id0 hdr) (hdr_id1 hdr) in
    if negb (ver =? 1) then Some (COAP_ERR_VERSION_NOT_1, hdr)
    else
      b1 ← load m (buf + 1);
      b2 ← load m (buf + 2);
      b3 ← load m (buf + 3);
      Some (COAP_ERR_NONE, mk_header ver ((b0 .& 0x30) .>> 4) (b0 .& 0x0F) b1 b2 b3).

Definition coap_parseToken (tokbuf : coap_buffer_t) (hdr : coap_header_t) (buf buflen : Z)
  : coap_error_t * coap_buffer_t :=
  if hdr_tkl hdr =? 0 then (COAP_ERR_NONE, mk_buffer NULL 0)
  else if hdr_tkl hdr <=? 8 then
    if 4 + hdr_tkl hdr >? buflen then (COAP_ERR_TOKEN_TOO_SHORT, tokbuf)
    else (COAP_ERR_NONE, mk_buffer (buf + 4) (hdr_tkl hdr))
  else (COAP_ERR_TOKEN_TOO_SHORT, tokbuf).

(** The extended form of an option's delta or length: [v] is the nibble, [p]
    the cursor and [headlen] the header bytes counted so far; [too_big] is the
    error of the reserved nibble 15.  The C function writes these lines out
    twice, for the delta and then for the length. *)
Definition coap_parse_ext (m : mem) (invalid : coap_error_t) (v p headlen buflen : Z)
  : option (coap_error_t + (Z * Z * Z)) :=
  if v =? 13 then
    let headlen := headlen + 1 in
    if buflen <? headlen then Some (inl COAP_ERR_OPTION_TOO_SHORT_FOR_HEADER)
    else
      b ← load m (p + 1);
      Some (inr (u16 (b + 13), p + 1, headlen))
  else if v =? 14 then
    let headlen := headlen + 2 in
    if buflen <? headlen then Some (inl COAP_ERR_OPTION_TOO_SHORT_FOR_HEADER)
    else
      b1 ← load m (p + 1);
      b2 ← load m (p + 2);
      Some (inr (u16 (((b1 .<< 8) .| b2) + 269), p + 2, headlen))
  else if v =? 15 then Some (inl invalid)
  else Some (inr (v, p, headlen)).

(** Returns the option slot, the running delta and the advanced cursor. *)
Definition coap_parseOption (m : mem) (slot : coap_option_t) (running_delta buf buflen : Z)
  : option (coap_error_t * coap_option_t * Z * Z) :=
  let headlen := 1 in
  if buflen <? headlen then
    Some (COAP_ERR_OPTION_TOO_SHORT_FOR_HEADER, slot, running_delta, buf)
  else
    b0 ← load m buf;
    d ← coap_parse_ext m COAP_ERR_OPTION_DELTA_INVALID ((b0 .& 0xF0) .>> 4) buf headlen buflen;
    match d with
    | inl e => Some (e, slot, running_delta, buf)
    | inr (delta, p, headlen) =>
        l ← coap_parse_ext m COAP_ERR_OPTION_LEN_INVALID (b0 .& 0x0F) p headlen buflen;
        match l with
        | inl e => Some (e, slot, running_delta, buf)
        | inr (len, p, _) =>
            if p + 1 + len >? buf + buflen
            then Some (COAP_ERR_OPTION_TOO_BIG, slot, running_delta, buf)
            else Some (COAP_ERR_NONE,
                       mk_option (u8 (delta + running_delta)) (mk_buffer (p + 1) len),
                       u16 (running_delta + delta), p + 1 + len)
        end
    end.

(** The option loop: [fuel] is [*numOptions - optionIndex], so it runs out
    exactly when the loop's first test fails. *)
Fixpoint coap_parse_options (m : mem) (fuel : nat) (options : list coap_option_t)
    (optionIndex delta p endp : Z) : option (coap_error_t * list coap_option_t * Z * Z) :=
  match fuel with
  | O => Some (COAP_ERR_NONE, options, optionIndex, p)
  | S fuel' =>
      if p <? endp then
        b ← load m p;
        if b =? 0xFF then Some (COAP_ERR_NONE, options, optionIndex, p)
        else
          slot ← znth options optionIndex;
          r ← coap_parseOption m slot delta p (endp - p);
          let '(rc, slot', delta', p') := r in
          options' ← zupd options optionIndex slot';
          if is_err rc then Some (rc, options', optionIndex, p')
          else coap_parse_options m fuel' options' (optionIndex + 1) delta' p' endp
      else Some (COAP_ERR_NONE, options, optionIndex, p)
  end.

Definition coap_parseOptionsAndPayload (m : mem) (options : list coap_option_t)
    (numOptions : Z) (payload : coap_buffer_t) (hdr : coap_header_t) (buf buflen : Z)
  : option (coap_error_t * list coap_option_t * Z * coap_buffer_t) :=
  let p := buf + 4 + hdr_tkl hdr in
  let endp := buf + buflen in
  if p >? endp then Some (COAP_ERR_OPTION_OVERRUNS_PACKET, options, numOptions, payload)
  else
    r ← coap_parse_options m (Z.to_nat numOptions) options 0 0 p endp;
    let '(rc, options', optionIndex, p) := r in
    if is_err rc then Some (rc, options', numOptions, payload)
    else if p + 1 <? endp then
      b ← load m p;
      if b =? 0xFF
      then Some (COAP_ERR_NONE, options', optionIndex, mk_buffer (p + 1) (endp - (p + 1)))
      else Some (COAP_ERR_NONE, options', optionIndex, mk_buffer NULL 0)
    else Some (COAP_ERR_NONE, options', optionIndex, mk_buffer NULL 0).

Definition coap_parse (m : mem) (pkt : coap_packet_t) (buf buflen : Z)
  : option (coap_error_t * coap_packet_t) :=
  h ← coap_parseHeader m (pkt_hdr pkt) buf buflen;
  let '(rc, hdr) := h in
  let pkt := mk_packet hdr (pkt_tok pkt) (pkt_numopts pkt) (pkt_opts pkt) (pkt_payload pkt) in
  if is_err rc then Some (rc, pkt)
  else
    let '(rc, tok) := coap_parseToken (pkt_tok pkt) hdr buf buflen in
    let pkt := mk_packet hdr tok (pkt_numopts pkt) (pkt_opts pkt) (pkt_payload pkt) in
    if is_err rc then Some (rc, pkt)
    else
      r ← coap_parseOptionsAndPayload m (pkt_opts pkt) MAXOPT (pkt_payload pkt) hdr buf buflen;
      let '(rc, opts, numopts, payload) := r in
      Some (rc, mk_packet hdr tok numopts opts payload).

(** * Looking options up *)

(** The loop of [coap_findOptions] from index [i] with [fuel = numopts - i];
    [first] is the index of the option the C pointer refers to. *)
Fixpoint coap_findOptions_loop (fuel : nat) (opts : list coap_option_t) (num i : Z)
    (first : option Z) (count : Z) : option (option Z * Z) :=
  match fuel with
  | O => Some (first, count)
  | S fuel' =>
      o ← znth opts i;
      if opt_num o =? num then
        coap_findOptions_loop fuel' opts num (i + 1)
          (match first with None => Some i | Some _ => first end) (u8 (count + 1))
      else
        match first with
        | Some _ => Some (first, count)
        | None => coap_findOptions_loop fuel' opts num (i + 1) first count
        end
  end.

Definition coap_findOptions (pkt : coap_packet_t) (num : Z) : option (option Z * Z) :=
  coap_findOptions_loop (Z.to_nat (pkt_numopts pkt)) (pkt_opts pkt) num 0 None 0.

Definition coap_buffer_to_string (m : mem) (strbuf strbuflen : Z) (buf : coap_buffer_t)
  : option (coap_error_t * mem) :=
  if buf_len buf + 1 >? strbuflen then Some (COAP_ERR_BUFFER_TOO_SMALL, m)
  else
    m ← memcpy m strbuf (buf_p buf) (buf_len buf);
    m ← store m (strbuf + buf_len buf) 0;
    Some (COAP_ERR_NONE, m).

(** * Building *)

(** [nibble] is the out-parameter: [None] while it is uninitialised. *)
Definition coap_option_nibble (value : Z) (nibble : option Z) : option Z :=
  if value <? 13 then Some (0xFF .& value)
  else if value <=? 0xFF + 13 then Some 13
  else if value <=? 0xFFFF + 269 then Some 14
  else nibble.

(** [*p++ = v]. *)
Definition put (m : mem) (p v : Z) : option (mem * Z) :=
  m ← store m p v; Some (m, p + 1).

Definition coap_build_option (m : mem) (o : coap_option_t) (running_delta p : Z)
  : option (mem * Z) :=
  let optDelta := u32 (opt_num o - running_delta) in
  let olen := buf_len (opt_buf o) in
  delta ← coap_option_nibble optDelta (Some 0);
  len ← coap_option_nibble (u32 olen) None;
  '(m, p) ← put m p (0xFF .& ((delta .<< 4) .| len));
  '(m, p) ← (if delta =? 13 then put m p (u32 (optDelta - 13))
             else if delta =? 14 then
               '(m, p) ← put m p (u32 (optDelta - 269) .>> 8);
               put m p (0xFF .& u32 (optDelta - 269))
             else Some (m, p));
  '(m, p) ← (if len =? 13 then put m p (u64 (olen - 13))
             else if len =? 14 then
               '(m, p) ← put m p (olen .>> 8);
               put m p (0xFF .& u64 (olen - 269))
             else Some (m, p));
  m ← memcpy m p (buf_p (opt_buf o)) olen;
  Some (m, p + olen).

(** The option loop from index [i] with [fuel = numopts - i]. *)
Fixpoint coap_build_options (m : mem) (fuel : nat) (opts : list coap_option_t)
    (i running_delta buf buflen p : Z) : option (coap_error_t * mem * Z) :=
  match fuel with
  | O => Some (COAP_ERR_NONE, m, p)
  | S fuel' =>
      if p - buf >? buflen then Some (COAP_ERR_BUFFER_TOO_SMALL, m, p)
      else
        o ← znth opts i;
        '(m, p) ← coap_build_option m o running_delta p;
        coap_build_options m fuel' opts (i + 1) (opt_num o) buf buflen p
  end.

(** Returns the error, the memory and the final [*buflen]. *)
Definition coap_build (m : mem) (buf buflen : Z) (pkt : coap_packet_t)
  : option (coap_error_t * mem * Z) :=
  let hdr := pkt_hdr pkt in
  if buflen <? 4 + hdr_tkl hdr then Some (COAP_ERR_BUFFER_TOO_SMALL, m, buflen)
  else
    m ← store m buf ((hdr_ver hdr .& 0x03) .<< 6);
    b0 ← load m buf;
    m ← store m buf (b0 .| ((hdr_t hdr .& 0x03) .<< 4));
    b0 ← load m buf;
    m ← store m buf (b0 .| (hdr_tkl hdr .& 0x0F));
    m ← store m (buf + 1) (hdr_code hdr);
    m ← store m (buf + 2) (hdr_id0 hdr);
    m ← store m (buf + 3) (hdr_id1 hdr);
    let p := buf + 4 in
    if (0 <? hdr_tkl hdr) && negb (hdr_tkl hdr =? buf_len (pkt_tok pkt))
    then Some (COAP_ERR_UNSUPPORTED, m, buflen)
    else
      m ← (if 0 <? hdr_tkl hdr then memcpy m p (buf_p (pkt_tok pkt)) (hdr_tkl hdr) else Some m);
      let p := p + hdr_tkl hdr in
      r ← coap_build_options m (Z.to_nat (pkt_numopts pkt)) (pkt_opts pkt) 0 0 buf buflen p;
      let '(rc, m, p) := r in
      if is_err rc then Some (rc, m, buflen)
      else
        let opts_len := p - buf - 4 in
        let plen := buf_len (pkt_payload pkt) in
        if 0 <? plen then
          if buflen <? 4 + 1 + plen + opts_len
          then Some (COAP_ERR_BUFFER_TOO_SMALL, m, buflen)
          else
            m ← store m (buf + (4 + opts_len)) 0xFF;
            m ← memcpy m (buf + 5 + opts_len) (buf_p (pkt_payload pkt)) plen;
            Some (COAP_ERR_NONE, m, opts_len + 5 + plen)
        else Some (COAP_ERR_NONE, m, opts_len + 4).

(** * Responding *)

(** The trace at the end dumps the content byte by byte, which reads it: an
    [int] counter runs down from its length. *)
Definition coap_make_response (m : mem) (scratch : coap_rw_buffer_t) (pkt : coap_packet_t)
    (content content_len msgid_hi msgid_lo : Z) (tok : option coap_buffer_t)
    (rspcode content_type : Z) : option (coap_error_t * mem * coap_packet_t) :=
  let tkl := match tok with Some t => u8 (buf_len t) | None => 0 end in
  let hdr := mk_header 0x01 COAP_TYPE_ACK tkl (u8 rspcode) msgid_hi msgid_lo in
  let tokb := match tok with Some t => t | None => pkt_tok pkt end in
  o0 ← znth (pkt_opts pkt) 0;
  opts ← zupd (pkt_opts pkt) 0
           (mk_option COAP_OPTION_CONTENT_FORMAT (mk_buffer (rw_p scratch) (buf_len (opt_buf o0))));
  if rw_len scratch <? 2 then
    Some (COAP_ERR_BUFFER_TOO_SMALL, m, mk_packet hdr tokb 1 opts (pkt_payload pkt))
  else
    m ← store m (rw_p scratch) ((u16 content_type .& 0xFF00) .>> 8);
    m ← store m (rw_p scratch + 1) (u16 content_type .& 0x00FF);
    opts ← zupd opts 0 (mk_option COAP_OPTION_CONTENT_FORMAT (mk_buffer (rw_p scratch) 2));
    _ ← (if s32 content_len <? 0 then None else load_bytes m content (s32 content_len));
    Some (COAP_ERR_NONE, m, mk_packet hdr tokb 1 opts (mk_buffer content content_len)).

(** An endpoint's handler: memory, scratch, request, response, message id. *)
Definition coap_endpoint_func : Type :=
  mem -> coap_rw_buffer_t -> coap_packet_t -> coap_packet_t -> Z -> Z ->
  option (coap_error_t * mem * coap_packet_t).

Record coap_endpoint_path_t := mk_path { path_count : Z; path_elems : list bytes }.

Record coap_endpoint_t := mk_endpoint {
  ep_method : Z; ep_handler : option coap_endpoint_func; ep_path : coap_endpoint_path_t;
  ep_core_attr : option bytes }.

(** The segment loop of [coap_handle_req]: segments [i .. i + fuel) of the path
    against the options from [opt0 + i]; [false] is the [goto next]. *)
Fixpoint coap_match_path (m : mem) (fuel : nat) (elems : list bytes)
    (opts : list coap_option_t) (opt0 i : Z) : option bool :=
  match fuel with
  | O => Some true
  | S fuel' =>
      o ← znth opts (opt0 + i);
      e ← znth elems i;
      if negb (buf_len (opt_buf o) =? zlen e) then Some false
      else
        bs ← load_bytes m (buf_p (opt_buf o)) (buf_len (opt_buf o));
        if decide (bs = e)
        then coap_match_path m fuel' elems opts opt0 (i + 1)
        else Some false
  end.

(** Whether [ep] takes the request: same method, a Uri-Path of the same number
    of segments, each segment equal. *)
Definition coap_endpoint_matches (m : mem) (inpkt : coap_packet_t) (ep : coap_endpoint_t)
  : option bool :=
  if negb (ep_method ep =? hdr_code (pkt_hdr inpkt)) then Some false
  else
    r ← coap_findOptions inpkt COAP_OPTION_URI_PATH;
    match r with
    | (None, _) => Some false
    | (Some opt, count) =>
        if negb (count =? path_count (ep_path ep)) then Some false
        else coap_match_path m (Z.to_nat count) (path_elems (ep_path ep)) (pkt_opts inpkt) opt 0
    end.

(** The endpoint loop walks the array until a NULL handler; running off the end
    of the array is an out-of-bounds read. *)
Fixpoint coap_handle_req (m : mem) (scratch : coap_rw_buffer_t) (inpkt outpkt : coap_packet_t)
    (eps : list coap_endpoint_t) : option (coap_error_t * mem * coap_packet_t) :=
  match eps with
  | [] => None
  | ep :: eps' =>
      match ep_handler ep with
      | None =>
          r ← coap_make_response m scratch outpkt NULL 0
                (hdr_id0 (pkt_hdr inpkt)) (hdr_id1 (pkt_hdr inpkt)) (Some (pkt_tok inpkt))
                COAP_RSPCODE_NOT_FOUND COAP_CONTENTTYPE_NONE;
          let '(_, m, outpkt) := r in
          Some (COAP_ERR_NONE, m, outpkt)
      | Some handler =>
          b ← coap_endpoint_matches m inpkt ep;
          if (b : bool)
          then handler m scratch inpkt outpkt (hdr_id0 (pkt_hdr inpkt)) (hdr_id1 (pkt_hdr inpkt))
          else coap_handle_req m scratch inpkt outpkt eps'
      end
  end.

#[global] Arguments coap_parse_options : simpl never.
#[global] Arguments coap_findOptions_loop : simpl never.
#[global] Arguments coap_build_options : simpl never.
