(* ===== verification/CoapCodec.v ===== *)
(** The RFC 7252 message format as a specification, and what [coap_parse] and
    [coap_build] do with respect to it: the parser inverts the encoding; the
    builder writes it, as long as no option value is longer than 268 bytes, and
    nothing else; then the two compose to the identity. *)
From S2P Require Import Prelude CMem Coap CoapParse.

(** * The message format *)

(** A message in the abstract: options are (number, value) pairs. *)
Record coap_msg := mk_msg {
  m_t : Z; m_code : Z; m_id0 : Z; m_id1 : Z;
  m_token : bytes; m_opts : list (Z * bytes); m_payload : bytes }.

Definition enc_nibble (v : Z) : Z := if v <? 13 then v else if v <? 269 then 13 else 14.
Definition enc_ext (v : Z) : bytes :=
  if v <? 13 then [] else if v <? 269 then [v - 13] else [(v - 269) / 256; (v - 269) mod 256].

Definition enc_opt (delta : Z) (val : bytes) : bytes :=
  (enc_nibble delta * 16 + enc_nibble (zlen val)) :: enc_ext delta ++ enc_ext (zlen val) ++ val.

Fixpoint enc_opts (prev : Z) (opts : list (Z * bytes)) : bytes :=
  match opts with
  | [] => []
  | (n, val) :: opts' => enc_opt (n - prev) val ++ enc_opts n opts'
  end.

Definition enc_payload (pl : bytes) : bytes := match pl with [] => [] | _ => 0xFF :: pl end.

Definition enc_head (msg : coap_msg) : bytes :=
  [64 + m_t msg * 16 + zlen (m_token msg); m_code msg; m_id0 msg; m_id1 msg].

Definition enc_msg (msg : coap_msg) : bytes :=
  enc_head msg ++ m_token msg ++ enc_opts 0 (m_opts msg) ++ enc_payload (m_payload msg).

(** Option numbers in order from [prev], each in the byte the struct keeps,
    each value at most [maxlen] bytes. *)
Fixpoint wf_opts (maxlen prev : Z) (opts : list (Z * bytes)) : Prop :=
  match opts with
  | [] => True
  | (n, val) :: opts' =>
      prev <= n < 256 /\ zlen val <= maxlen /\ all_bytes val /\ wf_opts maxlen n opts'
  end.

Record wf_msg (maxlen : Z) (msg : coap_msg) : Prop := {
  wf_t : 0 <= m_t msg < 4;
  wf_code : is_byte (m_code msg);
  wf_id0 : is_byte (m_id0 msg);
  wf_id1 : is_byte (m_id1 msg);
  wf_token : zlen (m_token msg) <= 8 /\ all_bytes (m_token msg);
  wf_mopts : wf_opts maxlen 0 (m_opts msg) /\ zlen (m_opts msg) <= MAXOPT;
  wf_payload : all_bytes (m_payload msg) }.

#[export] Instance wf_opts_dec maxlen prev opts : Decision (wf_opts maxlen prev opts).
Proof.
  revert prev. induction opts as [|[n val] opts IH]; intros prev; simpl; [apply _|].
  unfold all_bytes. apply _.
Defined.

(** * Packets that denote a message *)

Definition opt_repr (m : mem) (o : coap_option_t) (a : Z * bytes) : Prop :=
  opt_num o = a.1 /\ buf_len (opt_buf o) = zlen a.2 /\ bytes_at m (buf_p (opt_buf o)) a.2.

Record pkt_repr (m : mem) (pkt : coap_packet_t) (msg : coap_msg) : Prop := {
  pr_ver : hdr_ver (pkt_hdr pkt) = 1;
  pr_t : hdr_t (pkt_hdr pkt) = m_t msg;
  pr_tkl : hdr_tkl (pkt_hdr pkt) = zlen (m_token msg);
  pr_code : hdr_code (pkt_hdr pkt) = m_code msg;
  pr_id0 : hdr_id0 (pkt_hdr pkt) = m_id0 msg;
  pr_id1 : hdr_id1 (pkt_hdr pkt) = m_id1 msg;
  pr_tok : buf_len (pkt_tok pkt) = zlen (m_token msg) /\
           bytes_at m (buf_p (pkt_tok pkt)) (m_token msg);
  pr_numopts : pkt_numopts pkt = zlen (m_opts msg);
  pr_opts : Forall2 (opt_repr m) (take (length (m_opts msg)) (pkt_opts pkt)) (m_opts msg);
  pr_payload : buf_len (pkt_payload pkt) = zlen (m_payload msg) /\
               bytes_at m (buf_p (pkt_payload pkt)) (m_payload msg) }.

#[global] Arguments enc_opt : simpl never.

(** * Lemmas on the encoding *)

Lemma enc_nibble_range v : 0 <= v -> 0 <= enc_nibble v <= 14.
Proof. unfold enc_nibble. intros. zifs; lia. Qed.

Lemma enc_opt_first delta val :
  0 <= delta -> exists b bs, enc_opt delta val = b :: bs /\
    b / 16 mod 16 = enc_nibble delta /\ b mod 16 = enc_nibble (zlen val) /\ 0 <= b < 255.
Proof.
  intros. pose proof (enc_nibble_range delta ltac:(done)).
  pose proof (enc_nibble_range (zlen val) (zlen_nonneg val)).
  do 2 eexists. split; [done|]. lia.
Qed.

Lemma zlen_enc_ext v : 0 <= v ->
  zlen (enc_ext v) = if v <? 13 then 0 else if v <? 269 then 1 else 2.
Proof. unfold enc_ext. intros. zifs; done. Qed.

(** Reading an extended field back. *)
Lemma parse_ext_enc m e v p headlen buflen :
  0 <= v < 65536 -> bytes_at m (p + 1) (enc_ext v) -> headlen + zlen (enc_ext v) <= buflen ->
  coap_parse_ext m e (enc_nibble v) p headlen buflen =
    Some (inr (v, p + zlen (enc_ext v), headlen + zlen (enc_ext v))).
Proof.
  intros Hv Hb Hl. unfold coap_parse_ext, enc_nibble, enc_ext in *.
  destruct (v <? 13) eqn:E1; zbool; [|destruct (v <? 269) eqn:E2; zbool].
  - zifs. rewrite zlen_nil. do 4 f_equal; lia.
  - simpl. rewrite zlen_cons, zlen_nil in *. zif_false.
    apply bytes_at_cons in Hb as [Hb _]. unfold load. rewrite Hb. simpl.
    do 4 f_equal; cint.
  - simpl. rewrite !zlen_cons, zlen_nil in *. zif_false.
    apply bytes_at_cons in Hb as [Hb1 [Hb2 _]%bytes_at_cons]. unfold load. rewrite Hb1. simpl.
    replace (p + 2) with (p + 1 + 1) by lia. rewrite Hb2. simpl.
    rewrite lor_shiftl_8 by lia. do 4 f_equal; cint.
Qed.

Lemma parseOption_enc m slot rd delta val p n :
  0 <= delta < 256 -> 0 <= rd -> rd + delta < 256 -> zlen val < 65536 ->
  bytes_at m p (enc_opt delta val) -> zlen (enc_opt delta val) <= n ->
  coap_parseOption m slot rd p n =
    Some (COAP_ERR_NONE,
          mk_option (delta + rd) (mk_buffer (p + zlen (enc_opt delta val) - zlen val) (zlen val)),
          rd + delta, p + zlen (enc_opt delta val)).
Proof.
  intros Hd Hrd Hs Hv Hb Hn. pose proof (zlen_nonneg val).
  destruct (enc_opt_first delta val) as (b & bs & He & Hdn & Hln & _); [lia|].
  assert (Hlen : zlen (enc_opt delta val) =
    1 + zlen (enc_ext delta) + zlen (enc_ext (zlen val)) + zlen val).
  { unfold enc_opt. autorewrite with zlist. lia. }
  pose proof (zlen_nonneg (enc_ext delta)). pose proof (zlen_nonneg (enc_ext (zlen val))).
  unfold coap_parseOption. zif_false.
  assert (Hp : m !! p = Some b) by (rewrite He in Hb; by apply bytes_at_cons in Hb as [? _]).
  unfold load at 1. rewrite Hp. simpl. autorewrite with cbits. rewrite Hdn, Hln.
  unfold enc_opt in Hb.
  apply bytes_at_cons in Hb as [_ [Hb1 [Hb2 _]%bytes_at_app]%bytes_at_app].
  rewrite parse_ext_enc by (done || lia). simpl.
  rewrite parse_ext_enc; [|lia|by replace (p + zlen (enc_ext delta) + 1)
    with (p + 1 + zlen (enc_ext delta)) by lia|lia]. simpl.
  rewrite Z.gtb_ltb. zif_false. unfold u8, u16. feq.
Qed.

Lemma parse_options_enc m opts : forall fuel (slots : list coap_option_t) oi prev p endp,
  wf_opts 65535 prev opts -> 0 <= prev -> 0 <= oi ->
  (length opts <= fuel)%nat -> oi + zlen opts <= zlen slots ->
  bytes_at m p (enc_opts prev opts) -> p + zlen (enc_opts prev opts) <= endp ->
  ((length opts < fuel)%nat -> p + zlen (enc_opts prev opts) < endp ->
     m !! (p + zlen (enc_opts prev opts)) = Some 0xFF) ->
  exists slots', coap_parse_options m fuel slots oi prev p endp =
      Some (COAP_ERR_NONE, slots', oi + zlen opts, p + zlen (enc_opts prev opts)) /\
    zlen slots' = zlen slots /\
    take (Z.to_nat oi) slots' = take (Z.to_nat oi) slots /\
    Forall2 (opt_repr m) (take (length opts) (drop (Z.to_nat oi) slots')) opts.
Proof.
  induction opts as [|[n val] opts IH]; intros fuel slots oi prev p endp Hwf Hprev Hoi Hfuel Hsl Hb Hend Hff.
  - simpl in *. rewrite zlen_nil, !Z.add_0_r in *. exists slots. simpl.
    split; [|done]. destruct fuel; [done|].
    unfold coap_parse_options. zif; [|done].
    unfold load. rewrite Hff by lia. simpl. done.
  - destruct fuel as [|fuel]; [simpl in Hfuel; lia|].
    cbn [wf_opts] in Hwf. destruct Hwf as (Hn & Hv & Hval & Hwf).
    cbn [enc_opts] in *. rewrite zlen_app in *. rewrite zlen_cons in Hsl. rewrite zlen_cons.
    pose proof (zlen_nonneg opts). pose proof (zlen_nonneg (enc_opts n opts)).
    apply bytes_at_app in Hb as [Hb1 Hb2].
    unfold coap_parse_options; fold coap_parse_options.
    destruct (enc_opt_first (n - prev) val) as (b & bs & He & _ & _ & Hbr); [lia|].
    assert (Hlt : 1 <= zlen (enc_opt (n - prev) val)).
    { rewrite He, zlen_cons. pose proof (zlen_nonneg bs). lia. }
    assert (Hp : m !! p = Some b) by (rewrite He in Hb1; by apply bytes_at_cons in Hb1 as [? _]).
    zif_true. unfold load. rewrite Hp. simpl. zif_false.
    destruct (znth_in_range slots oi) as [slot Hs]; [lia|]. rewrite Hs. simpl.
    rewrite (parseOption_enc m slot prev (n - prev) val p (endp - p)) by (done || lia). simpl.
    set (o := mk_option _ _).
    pose proof (zupd_in_range slots oi o ltac:(lia)) as Hu. rewrite Hu. simpl.
    pose proof (zupd_zlen _ _ _ _ Hu) as Hul.
    destruct (IH fuel (<[Z.to_nat oi:=o]> slots) (oi + 1) n (p + zlen (enc_opt (n - prev) val)) endp)
      as (slots' & Heq & Hlen & Htake & HF); try (done || lia); [simpl in Hfuel; lia| |].
    { intros ??. rewrite <- Z.add_assoc. apply Hff; simpl; lia. }
    exists slots'. split; [|split; [|split]].
    + replace (prev + (n - prev)) with n by lia. rewrite Heq. feq.
    + lia.
    + apply (f_equal (take (Z.to_nat oi))) in Htake. rewrite !take_take in Htake.
      replace (Z.to_nat oi `min` Z.to_nat (oi + 1))%nat with (Z.to_nat oi) in Htake by lia.
      rewrite Htake. by rewrite take_insert_ge by lia.
    + replace (Z.to_nat (oi + 1)) with (S (Z.to_nat oi)) in * by lia.
      assert (Hlk : slots' !! Z.to_nat oi = Some o).
      { rewrite <- (lookup_take_lt slots' (S (Z.to_nat oi))) by lia. rewrite Htake.
        rewrite lookup_take_lt by lia. apply list_lookup_insert_eq. unfold zlen in *. lia. }
      rewrite (drop_S _ _ _ Hlk). simpl. constructor; [|done].
      subst o. unfold opt_repr. simpl. split; [lia|]. split; [done|].
      unfold enc_opt in Hb1 |- *. autorewrite with zlist.
      apply bytes_at_cons in Hb1 as [_ [_ [_ Hb1]%bytes_at_app]%bytes_at_app].
      eapply bytes_at_eq; [exact Hb1|lia].
Qed.

(** The parser inverts the RFC 7252 encoding. *)
Lemma parse_reads_enc m pkt msg buf :
  wf_msg 65535 msg -> zlen (pkt_opts pkt) = MAXOPT -> bytes_at m buf (enc_msg msg) ->
  exists pkt', coap_parse m pkt buf (zlen (enc_msg msg)) = Some (COAP_ERR_NONE, pkt') /\
    zlen (pkt_opts pkt') = MAXOPT /\ pkt_repr m pkt' msg /\
    (m_payload msg <> [] ->
     buf_p (pkt_payload pkt') + buf_len (pkt_payload pkt') = buf + zlen (enc_msg msg)).
Proof.
  intros Hwf Hslots Hb. destruct Hwf as [Ht _ _ _ [Htl _] [Hwo Hol] _].
  pose proof (zlen_nonneg (m_token msg)). pose proof (zlen_nonneg (enc_opts 0 (m_opts msg))).
  pose proof (zlen_nonneg (enc_payload (m_payload msg))).
  assert (Hlen : zlen (enc_msg msg) = 4 + zlen (m_token msg) + zlen (enc_opts 0 (m_opts msg))
     + zlen (enc_payload (m_payload msg))).
  { unfold enc_msg, enc_head. autorewrite with zlist. lia. }
  unfold enc_msg, enc_head in Hb.
  apply bytes_at_app in Hb as [Hh [Htk [Hop Hpl]%bytes_at_app]%bytes_at_app].
  repeat rewrite bytes_at_cons in Hh. destruct Hh as (Hm0 & Hm1 & Hm2 & Hm3 & _).
  rewrite !zlen_cons, zlen_nil in Htk, Hop, Hpl.
  unfold coap_parse, coap_parseHeader. zif_false.
  unfold load. rewrite Hm0, Hm1. replace (buf + 2) with (buf + 1 + 1) by lia. rewrite Hm2.
  replace (buf + 3) with (buf + 1 + 1 + 1) by lia. rewrite Hm3. simpl. autorewrite with cbits.
  set (b0 := 64 + _ + _). replace (b0 / 64 mod 4) with 1 by lia. simpl.
  replace (b0 / 16 mod 4) with (m_t msg) by lia.
  replace (b0 mod 16) with (zlen (m_token msg)) by lia.
  unfold coap_parseToken. simpl.
  set (tok := if zlen (m_token msg) =? 0 then mk_buffer NULL 0 else mk_buffer (buf + 4) (zlen (m_token msg))).
  assert (Htok : (if zlen (m_token msg) =? 0 then (COAP_ERR_NONE, mk_buffer NULL 0)
     else if zlen (m_token msg) <=? 8
          then if 4 + zlen (m_token msg) >? zlen (enc_msg msg)
               then (COAP_ERR_TOKEN_TOO_SHORT, pkt_tok pkt)
               else (COAP_ERR_NONE, mk_buffer (buf + 4) (zlen (m_token msg)))
          else (COAP_ERR_TOKEN_TOO_SHORT, pkt_tok pkt)) = (COAP_ERR_NONE, tok)).
  { subst tok. rewrite Z.gtb_ltb. zifs; done. }
  rewrite Htok. simpl. unfold coap_parseOptionsAndPayload. simpl. rewrite Z.gtb_ltb. zif_false.
  destruct (parse_options_enc m (m_opts msg) (Z.to_nat MAXOPT) (pkt_opts pkt) 0 0
    (buf + 4 + zlen (m_token msg)) (buf + zlen (enc_msg msg)))
    as (slots' & -> & Hsl' & _ & HF);
    [done|lia|lia|unfold MAXOPT, zlen in *; lia|lia|eapply bytes_at_eq; [exact Hop|lia]|lia| |].
  { intros _ Hlt. destruct (m_payload msg) as [|b bs]; simpl in *; [change (zlen (@nil Z)) with 0 in *; lia|].
    apply bytes_at_cons in Hpl as [Hpl _]. rewrite <- Hpl. f_equal; lia. }
  simpl. set (p := _ + zlen (enc_opts 0 _)).
  assert (Hpay : exists pl,
    (if p + 1 <? buf + zlen (enc_msg msg)
     then b ← m !! p;
          if b =? 255
          then Some (COAP_ERR_NONE, slots', 0 + zlen (m_opts msg),
                     mk_buffer (p + 1) (buf + zlen (enc_msg msg) - (p + 1)))
          else Some (COAP_ERR_NONE, slots', 0 + zlen (m_opts msg), mk_buffer NULL 0)
     else Some (COAP_ERR_NONE, slots', 0 + zlen (m_opts msg), mk_buffer NULL 0))
     = Some (COAP_ERR_NONE, slots', 0 + zlen (m_opts msg), pl) /\
     buf_len pl = zlen (m_payload msg) /\ bytes_at m (buf_p pl) (m_payload msg) /\
     (m_payload msg <> [] -> buf_p pl + buf_len pl = buf + zlen (enc_msg msg))).
  { destruct (m_payload msg) as [|b bs] eqn:Epl; simpl in *; change (zlen (@nil Z)) with 0 in *.
    - zif_false. eexists. split; [done|]. done.
    - apply bytes_at_cons in Hpl as [Hpl1 Hpl2]. rewrite !zlen_cons in *.
      pose proof (zlen_nonneg bs). zif_true.
      replace (m !! p) with (Some 255) by (rewrite <- Hpl1; f_equal; lia). simpl.
      eexists. split; [done|]. simpl. split; [lia|]. split; [|lia]. eapply bytes_at_eq; [exact Hpl2|lia]. }
  destruct Hpay as (pl & Heq & Hpl1 & Hpl2 & Hpl3). unfold load. rewrite Heq. simpl.
  eexists. split; [done|]. split; [simpl; lia|]. split; [|exact Hpl3].
  constructor; simpl; try done; try lia.
  subst tok. zif; simpl; (split; [lia|]).
  - destruct (m_token msg); [done|]. rewrite zlen_cons in *. pose proof (zlen_nonneg l). lia.
  - eapply bytes_at_eq; [exact Htk|lia].
Qed.

(** * Building *)

Lemma put_wr m a bs v :
  mapped m a (zlen bs + 1) -> put (wr m a bs) (a + zlen bs) v =
    Some (wr m a (bs ++ [u8 v]), a + zlen (bs ++ [u8 v])).
Proof.
  intros Hm. pose proof (zlen_nonneg bs). unfold put.
  rewrite store_mapped by (apply (mapped_wr _ _ _ _ _ Hm); lia).
  simpl. rewrite <- wr_app, zlen_app. do 2 f_equal. unfold zlen. simpl. lia.
Qed.

Lemma memcpy_app m a bs src val :
  mapped m a (zlen bs + zlen val) -> bytes_at m src val -> all_bytes val ->
  disjoint a (zlen bs + zlen val) src (zlen val) ->
  memcpy (wr m a bs) (a + zlen bs) src (zlen val) = Some (wr m a (bs ++ val)).
Proof.
  intros Hm Hb Hv Hd. pose proof (zlen_nonneg bs). pose proof (zlen_nonneg val).
  rewrite wr_app. apply memcpy_wr; try done.
  - apply mapped_wr. eapply mapped_sub; [done|lia|lia].
  - rewrite load_bytes_wr_disjoint; [done|]. unfold disjoint in *. lia.
  - unfold disjoint in *. lia.
Qed.

Definition src_disjoint (buf n : Z) (b : coap_buffer_t) : Prop :=
  disjoint buf n (buf_p b) (buf_len b).

Lemma src_disjoint_le buf n n' b : src_disjoint buf n' b -> n <= n' -> src_disjoint buf n b.
Proof. unfold src_disjoint, disjoint. lia. Qed.

Lemma nibble_enc v d : 0 <= v < 65536 + 269 -> coap_option_nibble v d = Some (enc_nibble v).
Proof.
  intros. unfold coap_option_nibble, enc_nibble. rewrite land_0xFF_l. zifs; feq.
Qed.

(** The extended-field stores for a value below 269; [X] is the two-byte case. *)
Lemma build_ext_enc m buf bs v w X :
  0 <= v <= 268 -> mapped m buf (zlen bs + zlen (enc_ext v)) -> u8 w = u8 (v - 13) ->
  (if enc_nibble v =? 13 then put (wr m buf bs) (buf + zlen bs) w
   else if enc_nibble v =? 14 then X else Some (wr m buf bs, buf + zlen bs)) =
  Some (wr m buf (bs ++ enc_ext v), buf + zlen (bs ++ enc_ext v)).
Proof.
  intros Hv Hm Hw. unfold enc_nibble, enc_ext in *. destruct (v <? 13) eqn:E1; zbool.
  - zifs. by rewrite app_nil_r.
  - destruct (v <? 269) eqn:E2; zbool; [|lia]. simpl. rewrite put_wr by done.
    by rewrite Hw, (u8_id (v - 13)) by lia.
Qed.

(** The length of an option as the builder writes it: from 269 on, the high byte is not
    reduced by 269. *)
Definition built_ext (v : Z) : bytes :=
  if v <? 13 then [] else if v <? 269 then [v - 13] else [v / 256; (v - 269) mod 256].
Definition built_opt (delta : Z) (val : bytes) : bytes :=
  (enc_nibble delta * 16 + enc_nibble (zlen val)) :: enc_ext delta ++ built_ext (zlen val) ++ val.
Fixpoint built_opts (prev : Z) (opts : list (Z * bytes)) : bytes :=
  match opts with
  | [] => []
  | (n, val) :: opts' => built_opt (n - prev) val ++ built_opts n opts'
  end.
Definition built_msg (msg : coap_msg) : bytes :=
  enc_head msg ++ m_token msg ++ built_opts 0 (m_opts msg) ++ enc_payload (m_payload msg).

Lemma built_opt_len delta val : zlen (built_opt delta val) = zlen (enc_opt delta val).
Proof.
  unfold built_opt, enc_opt. rewrite !zlen_cons, !zlen_app.
  assert (zlen (built_ext (zlen val)) = zlen (enc_ext (zlen val))); [|lia].
  unfold built_ext, enc_ext. by repeat case_match.
Qed.
Lemma built_opts_len opts : forall prev, zlen (built_opts prev opts) = zlen (enc_opts prev opts).
Proof.
  induction opts as [|[n val] opts IH]; intros prev; [done|]. cbn [built_opts enc_opts].
  by rewrite !zlen_app, built_opt_len, IH.
Qed.
Lemma built_msg_len msg : zlen (built_msg msg) = zlen (enc_msg msg).
Proof. unfold built_msg, enc_msg. by rewrite !zlen_app, built_opts_len. Qed.

(** The two agree on a length exactly when it is below 269. *)
Lemma built_ext_enc v : 0 <= v < 65536 -> built_ext v = enc_ext v <-> v <= 268.
Proof.
  intros Hv. unfold built_ext, enc_ext. destruct (v <? 13) eqn:E1; zbool; [split; [lia|done]|].
  destruct (v <? 269) eqn:E2; zbool; [split; [lia|done]|]. split; [|lia]. intros [= E]. lia.
Qed.
Lemma built_opts_enc opts : forall prev, wf_opts 65535 prev opts ->
  built_opts prev opts = enc_opts prev opts <-> wf_opts 268 prev opts.
Proof.
  induction opts as [|[n val] opts IH]; intros prev; [done|]. cbn [built_opts enc_opts wf_opts].
  intros (Hn & Hl & Hb & Hw). rewrite <- (IH _ Hw). pose proof (zlen_nonneg val).
  rewrite <- (built_ext_enc (zlen val)) by lia. split.
  - intros E. apply app_inj_1 in E as [E1 E2]; [|pose proof (built_opt_len (n - prev) val); unfold zlen in *; lia].
    unfold built_opt, enc_opt in E1. injection E1 as E1. apply app_inv_head, app_inv_tail in E1. done.
  - intros (_ & E & _ & ->). unfold built_opt, enc_opt. by rewrite E.
Qed.
Lemma wf_opts_268 opts : forall prev, wf_opts 65535 prev opts ->
  wf_opts 268 prev opts <-> Forall (fun o => zlen o.2 <= 268) opts.
Proof.
  induction opts as [|[n val] opts IH]; intros prev; cbn [wf_opts]; [intros _; split; intros _; constructor|].
  intros (Hn & Hl & Hb & Hw). specialize (IH _ Hw). rewrite list.Forall_cons. cbn [snd]. tauto.
Qed.
Lemma built_msg_enc msg : wf_msg 65535 msg ->
  built_msg msg = enc_msg msg <-> Forall (fun o => zlen o.2 <= 268) (m_opts msg).
Proof.
  intros [_ _ _ _ _ [Hw _] _]. rewrite <- (wf_opts_268 _ 0), <- built_opts_enc by done.
  unfold built_msg, enc_msg. split; [|by intros ->]. intros E.
  by apply app_inv_head, app_inv_head, app_inv_tail in E.
Qed.

Lemma build_len_enc m buf bs v :
  0 <= v < 65536 -> mapped m buf (zlen bs + zlen (built_ext v)) ->
  (if enc_nibble v =? 13 then put (wr m buf bs) (buf + zlen bs) (u64 (v - 13))
   else if enc_nibble v =? 14 then
     '(m, p) ← put (wr m buf bs) (buf + zlen bs) (v .>> 8); put m p (0xFF .& u64 (v - 269))
   else Some (wr m buf bs, buf + zlen bs)) =
  Some (wr m buf (bs ++ built_ext v), buf + zlen (bs ++ built_ext v)).
Proof.
  intros Hv Hm. pose proof (zlen_nonneg bs). unfold enc_nibble, built_ext in *. destruct (v <? 13) eqn:E1; zbool.
  - zifs. by rewrite app_nil_r.
  - destruct (v <? 269) eqn:E2; zbool.
    + change (13 =? 13) with true. cbv iota. rewrite put_wr by done.
      replace (u8 (u64 (v - 13))) with (v - 13) by (unfold u8, u64; lia). done.
    + change (14 =? 13) with false. change (14 =? 14) with true. cbv iota.
      change (zlen [v / 256; (v - 269) mod 256]) with 2 in Hm.
      rewrite put_wr by (eapply mapped_sub; [done|lia|lia]). cbind.
      rewrite put_wr by (rewrite zlen_app; change (zlen [_]) with 1; eapply mapped_sub; [done|lia|lia]).
      rewrite <- app_assoc. cbn [app]. rewrite shiftr_8, land_0xFF_l.
      replace (u8 (v / 256)) with (v / 256) by (unfold u8; lia).
      replace (u8 (u64 (v - 269) mod 256)) with ((v - 269) mod 256); [done|].
      unfold u8, u64. replace ((v - 269) mod 18446744073709551616) with (v - 269) by lia. lia.
Qed.

Lemma build_option_enc m buf bs o rd num val :
  opt_repr m o (num, val) -> 0 <= rd <= num -> num < 256 -> zlen val < 65536 -> all_bytes val ->
  mapped m buf (zlen bs + zlen (built_opt (num - rd) val)) ->
  src_disjoint buf (zlen bs + zlen (built_opt (num - rd) val)) (opt_buf o) ->
  coap_build_option (wr m buf bs) o rd (buf + zlen bs) =
    Some (wr m buf (bs ++ built_opt (num - rd) val), buf + zlen (bs ++ built_opt (num - rd) val)).
Proof.
  intros (Hnum & Hlen & Hat) Hrd Hn Hv Hval. simpl in *. pose proof (zlen_nonneg val).
  pose proof (zlen_nonneg bs).
  unfold coap_build_option. rewrite Hnum, Hlen.
  rewrite (u32_id (num - rd)), (u32_id (zlen val)) by lia.
  rewrite !nibble_enc by lia. simpl.
  set (d := num - rd). assert (Hd : 0 <= d < 256) by lia. clearbody d.
  pose proof (enc_nibble_range d ltac:(lia)) as Hr1.
  pose proof (enc_nibble_range (zlen val) ltac:(lia)) as Hr2.
  assert (Hhdr : u8 (0xFF .& ((enc_nibble d .<< 4) .| enc_nibble (zlen val))) =
                 enc_nibble d * 16 + enc_nibble (zlen val)).
  { rewrite lor_shiftl_4, land_0xFF_l by lia. cint. }
  unfold built_opt. intros Hm Hdis. rewrite zlen_cons, !zlen_app in Hm, Hdis.
  pose proof (zlen_nonneg (enc_ext d)). pose proof (zlen_nonneg (built_ext (zlen val))).
  rewrite put_wr by (eapply mapped_sub; [done|lia|lia]).
  rewrite Hhdr. simpl. set (h := enc_nibble d * 16 + _).
  replace (bs ++ h :: enc_ext d ++ built_ext (zlen val) ++ val)
    with (((bs ++ [h]) ++ enc_ext d) ++ built_ext (zlen val) ++ val) by (by rewrite <- !app_assoc).
  assert (Hh : zlen (bs ++ [h]) = zlen bs + 1) by (rewrite zlen_app; done).
  set (bs1 := bs ++ [h]) in *.
  rewrite build_ext_enc; [|lia|eapply mapped_sub; [done|lia|lia]|cint].
  simpl. set (bs2 := bs1 ++ enc_ext d) in *.
  assert (Hb2 : zlen bs2 = zlen bs1 + zlen (enc_ext d)) by apply zlen_app.
  rewrite build_len_enc; [|lia|eapply mapped_sub; [done|lia|lia]].
  simpl. set (bs3 := bs2 ++ built_ext (zlen val)) in *.
  assert (Hb3 : zlen bs3 = zlen bs2 + zlen (built_ext (zlen val))) by apply zlen_app.
  rewrite memcpy_app; try done.
  - simpl. subst bs3. rewrite <- !app_assoc, !zlen_app in *. feq.
  - eapply mapped_sub; [done|lia|lia].
  - unfold src_disjoint, disjoint in *. rewrite Hlen in Hdis. lia.
Qed.

(** The only length test the option loop makes: each option starts within
    [buflen] of the buffer ([pos] is where the first one starts). *)
Fixpoint starts_fit (buflen pos rd : Z) (opts : list (Z * bytes)) : Prop :=
  match opts with
  | [] => True
  | (n, val) :: opts' =>
      pos <= buflen /\ starts_fit buflen (pos + zlen (enc_opt (n - rd) val)) n opts'
  end.

Lemma starts_fit_total buflen opts : forall pos rd,
  pos + zlen (enc_opts rd opts) <= buflen -> starts_fit buflen pos rd opts.
Proof.
  induction opts as [|[n val] opts IH]; intros pos rd; [done|]. cbn [enc_opts starts_fit].
  rewrite zlen_app. pose proof (zlen_nonneg (enc_opt (n - rd) val)).
  pose proof (zlen_nonneg (enc_opts n opts)). intros. split; [lia|]. apply IH. lia.
Qed.

Lemma build_options_enc m buf buflen opts : forall bs (slots : list coap_option_t) i rd,
  wf_opts 65535 rd opts -> 0 <= rd -> 0 <= i ->
  Forall2 (opt_repr m) (take (length opts) (drop (Z.to_nat i) slots)) opts ->
  starts_fit buflen (zlen bs) rd opts -> mapped m buf (zlen bs + zlen (built_opts rd opts)) ->
  Forall (fun o => src_disjoint buf (zlen bs + zlen (built_opts rd opts)) (opt_buf o))
    (take (length opts) (drop (Z.to_nat i) slots)) ->
  coap_build_options (wr m buf bs) (length opts) slots i rd buf buflen (buf + zlen bs) =
    Some (COAP_ERR_NONE, wr m buf (bs ++ built_opts rd opts), buf + zlen (bs ++ built_opts rd opts)).
Proof.
  induction opts as [|[n val] opts IH]; intros bs slots i rd Hwf Hrd Hi HF Hfit Hm Hd.
  { simpl. rewrite app_nil_r. done. }
  cbn [wf_opts] in Hwf. destruct Hwf as (Hn & Hv & Hval & Hwf). cbn [built_opts length take starts_fit] in *.
  destruct Hfit as [Hfit0 Hfit]. destruct (drop (Z.to_nat i) slots) as [|o rest] eqn:Edrop; cbn [take] in *; [inversion HF|].
  inversion HF as [|? ? ? ? Ho HF' EA EB]; subst. inversion Hd as [|? ? Hdo Hd']; subst.
  destruct (drop_head _ _ _ _ Edrop Hi) as [Hlk Hrest].
  rewrite zlen_app in *. pose proof (zlen_nonneg (built_opts n opts)). pose proof (zlen_nonneg bs).
  unfold coap_build_options; fold coap_build_options.
  pose proof (zlen_nonneg (built_opt (n - rd) val)).
  rewrite Z.gtb_ltb. zif_false. rewrite Hlk. cbind.
  rewrite (build_option_enc m buf bs o rd n val); try done; try lia.
  - cbind. destruct Ho as (Hnum & _). simpl in Hnum. rewrite Hnum.
    rewrite IH; try done; try lia.
    + rewrite <- !app_assoc. rewrite !zlen_app. feq.
    + by rewrite Hrest.
    + by rewrite zlen_app, built_opt_len.
    + rewrite zlen_app. by rewrite <- Z.add_assoc.
    + rewrite Hrest, zlen_app. eapply Forall_impl; [|exact Hd']. intros ? Ha.
      cbv beta in Ha. eapply src_disjoint_le; [exact Ha|lia].
  - eapply mapped_sub; [done|lia|lia].
  - eapply src_disjoint_le; [done|lia].
Qed.

(** When the builder accepts a message: the tests it makes on [buflen], and the
    memory it needs. *)
Record build_pre (m : mem) (buf buflen : Z) (pkt : coap_packet_t) (msg : coap_msg) : Prop := {
  bp_repr : pkt_repr m pkt msg;
  bp_head : 4 + zlen (m_token msg) <= buflen;
  bp_starts : starts_fit buflen (4 + zlen (m_token msg)) 0 (m_opts msg);
  bp_fits : m_payload msg <> [] -> zlen (enc_msg msg) <= buflen;
  bp_mapped : mapped m buf (zlen (enc_msg msg));
  bp_tok : src_disjoint buf (zlen (enc_msg msg)) (pkt_tok pkt);
  bp_opts : Forall (fun o => src_disjoint buf (zlen (enc_msg msg)) (opt_buf o))
              (take (length (m_opts msg)) (pkt_opts pkt));
  bp_payload : src_disjoint buf (zlen (enc_msg msg)) (pkt_payload pkt) }.

Lemma store_insert m a v : is_Some (m !! a) -> store m a v = Some (<[a := u8 v]> m).
Proof. apply store_mapped. Qed.

Lemma byte0_enc t tkl :
  0 <= t < 4 -> 0 <= tkl <= 8 ->
  u8 (u8 (u8 64 .| ((t mod 4) .<< 4)) .| (tkl mod 16)) = 64 + t * 16 + tkl.
Proof.
  intros Ht Htkl. change (u8 64) with (4 .<< 4).
  replace (u8 ((4 .<< 4) .| ((t mod 4) .<< 4))) with ((4 + t) .<< 4).
  - rewrite lor_shiftl_4 by lia. rewrite (Z.mod_small tkl) by lia. cint.
  - rewrite (Z.mod_small t) by lia. rewrite <- Z.shiftl_lor.
    pose proof (lor_shiftl 1 t 2 ltac:(lia) ltac:(lia)) as E. change (1 .<< 2) with 4 in E. rewrite E.
    rewrite !Z.shiftl_mul_pow2 by lia. change (2 ^ 4) with 16. change (2 ^ 2) with 4. cint.
Qed.

(** The three read-modify-write stores of the first byte and the next three. *)
Lemma build_header_enc {B} m buf h (K : mem -> option B) :
  mapped m buf 4 -> hdr_ver h = 1 -> 0 <= hdr_t h < 4 -> 0 <= hdr_tkl h <= 8 ->
  is_byte (hdr_code h) -> is_byte (hdr_id0 h) -> is_byte (hdr_id1 h) ->
  (m ← store m buf ((hdr_ver h .& 0x03) .<< 6);
   b0 ← load m buf; m ← store m buf (b0 .| ((hdr_t h .& 0x03) .<< 4));
   b0 ← load m buf; m ← store m buf (b0 .| (hdr_tkl h .& 0x0F));
   m ← store m (buf + 1) (hdr_code h);
   m ← store m (buf + 2) (hdr_id0 h);
   m ← store m (buf + 3) (hdr_id1 h);
   K m) =
  K (wr m buf [64 + hdr_t h * 16 + hdr_tkl h; hdr_code h; hdr_id0 h; hdr_id1 h]).
Proof.
  intros Hm Hver Ht Htkl Hc Hi0 Hi1. rewrite Hver.
  change ((1 .& 3) .<< 6) with 64. autorewrite with cbits.
  assert (H0 : is_Some (m !! buf)) by (apply Hm; lia).
  assert (H1 : is_Some (m !! (buf + 1))) by (apply Hm; lia).
  assert (H2 : is_Some (m !! (buf + 2))) by (apply Hm; lia).
  assert (H3 : is_Some (m !! (buf + 3))) by (apply Hm; lia).
  rewrite store_insert by done. simpl. unfold load.
  rewrite lookup_insert_eq. simpl.
  rewrite store_insert by (rewrite lookup_insert_eq; eauto). simpl.
  rewrite lookup_insert_eq, insert_insert_eq. simpl.
  rewrite store_insert by (rewrite lookup_insert_eq; eauto). simpl. rewrite insert_insert_eq.
  rewrite store_insert by (rewrite lookup_insert_ne by lia; done). simpl.
  rewrite store_insert by (rewrite !lookup_insert_ne by lia; done). simpl.
  rewrite store_insert by (rewrite !lookup_insert_ne by lia; done). simpl.
  rewrite (u8_id (hdr_code h)), (u8_id (hdr_id0 h)), (u8_id (hdr_id1 h)) by (unfold is_byte in *; lia).
  rewrite byte0_enc by lia. unfold wr.
  replace (buf + 1 + 1) with (buf + 2) by lia. replace (buf + 2 + 1) with (buf + 3) by lia. done.
Qed.

Lemma build_token_enc m buf bs src val :
  all_bytes val -> bytes_at m src val -> mapped m buf (zlen bs + zlen val) ->
  disjoint buf (zlen bs + zlen val) src (zlen val) ->
  (if 0 <? zlen val then memcpy (wr m buf bs) (buf + zlen bs) src (zlen val)
   else Some (wr m buf bs)) = Some (wr m buf (bs ++ val)).
Proof.
  intros. zif; [by apply memcpy_app|].
  destruct val; [by rewrite app_nil_r|]. rewrite zlen_cons in *. pose proof (zlen_nonneg val). lia.
Qed.

Lemma build_payload_enc m buf buflen bs src pl :
  all_bytes pl -> bytes_at m src pl -> mapped m buf (zlen (bs ++ enc_payload pl)) ->
  disjoint buf (zlen (bs ++ enc_payload pl)) src (zlen pl) ->
  (pl <> [] -> zlen (bs ++ enc_payload pl) <= buflen) -> 4 <= zlen bs ->
  (if 0 <? zlen pl then
     if buflen <? 4 + 1 + zlen pl + (buf + zlen bs - buf - 4)
     then Some (COAP_ERR_BUFFER_TOO_SMALL, wr m buf bs, buflen)
     else
       m1 ← store (wr m buf bs) (buf + (4 + (buf + zlen bs - buf - 4))) 0xFF;
       m2 ← memcpy m1 (buf + 5 + (buf + zlen bs - buf - 4)) src (zlen pl);
       Some (COAP_ERR_NONE, m2, buf + zlen bs - buf - 4 + 5 + zlen pl)
   else Some (COAP_ERR_NONE, wr m buf bs, buf + zlen bs - buf - 4 + 4)) =
  Some (COAP_ERR_NONE, wr m buf (bs ++ enc_payload pl), zlen (bs ++ enc_payload pl)).
Proof.
  intros Hb Hat Hm Hd Hfit H4. rewrite zlen_app in *. unfold enc_payload in *.
  destruct pl as [|b pl].
  { change (zlen (@nil Z)) with 0. rewrite app_nil_r. zif_false. feq. }
  rewrite (zlen_cons 0xFF) in *. specialize (Hfit ltac:(done)). assert (0 < zlen (b :: pl)) by (rewrite zlen_cons; pose proof (zlen_nonneg pl); lia).
  zif_true. zif_false. change (0xFF :: b :: pl) with ([0xFF] ++ (b :: pl)). rewrite app_assoc.
  replace (buf + (4 + (buf + zlen bs - buf - 4))) with (buf + zlen bs) by lia.
  rewrite store_mapped by (apply (mapped_wr _ _ _ _ _ Hm); lia).
  cbind. change (u8 255) with 255. rewrite <- wr_app.
  replace (buf + 5 + (buf + zlen bs - buf - 4)) with (buf + zlen (bs ++ [255]))
    by (rewrite zlen_app; change (zlen [255]) with 1; lia).
  assert (E : zlen (bs ++ [255]) = zlen bs + 1) by (rewrite zlen_app; done).
  rewrite memcpy_app; try done.
  - cbind. feq.
  - eapply mapped_sub; [exact Hm|lia|lia].
  - unfold disjoint in *. lia.
Qed.

(** On a message whose encoding fits, the builder writes these bytes, nothing else,
    and reports their length. *)
Lemma build_writes m buf buflen pkt msg :
  wf_msg 65535 msg -> build_pre m buf buflen pkt msg ->
  coap_build m buf buflen pkt =
    Some (COAP_ERR_NONE, wr m buf (built_msg msg), zlen (built_msg msg)).
Proof.
  intros Hwf [Hrep Hhead Hst Hfit Hmap Hdt Hdo Hdp]. rewrite <- built_msg_len in *.
  destruct Hwf as [Ht Hc Hi0 Hi1 [Htl Htb] [Hwo Hol] Hpb].
  destruct Hrep as [Rv Rt Rtkl Rc Ri0 Ri1 [Rtl Rtb] Rn Ro [Rpl Rpb]].
  pose proof (zlen_nonneg (m_token msg)). pose proof (zlen_nonneg (built_opts 0 (m_opts msg))).
  pose proof (zlen_nonneg (m_payload msg)).
  pose proof (zlen_nonneg (enc_payload (m_payload msg))).
  assert (Hlen : zlen (built_msg msg) = 4 + zlen (m_token msg) + zlen (built_opts 0 (m_opts msg))
     + zlen (enc_payload (m_payload msg))).
  { unfold built_msg, enc_head. autorewrite with zlist. lia. }
  unfold coap_build. rewrite Rtkl. zif_false.
  assert (Hsub : forall n, n <= zlen (built_msg msg) -> mapped m buf n).
  { intros. eapply mapped_sub; [exact Hmap|lia|lia]. }
  etransitivity; [rewrite <- Rtkl; apply build_header_enc; try congruence; try lia; apply Hsub; lia|].
  rewrite Rt, Rtkl, Rc, Ri0, Ri1, Rtl. fold (enc_head msg).
  rewrite Z.eqb_refl, andb_false_r.
  rewrite (build_token_enc m buf (enc_head msg)); [|done| |apply Hsub; change (zlen (enc_head msg)) with 4; lia|].
  2: { eapply bytes_at_eq; done. }
  2: { unfold src_disjoint in Hdt. rewrite Rtl in Hdt. change (zlen (enc_head msg)) with 4.
       unfold disjoint in *. lia. }
  cbind. rewrite Rn. replace (Z.to_nat (zlen (m_opts msg))) with (length (m_opts msg))
    by (unfold zlen; lia).
  assert (Hht : zlen (enc_head msg ++ m_token msg) = 4 + zlen (m_token msg))
    by (rewrite zlen_app; unfold enc_head; rewrite !zlen_cons, zlen_nil; lia).
  replace (buf + 4 + zlen (m_token msg)) with (buf + zlen (enc_head msg ++ m_token msg)) by lia.
  rewrite build_options_enc; try done; try lia.
  2: { by rewrite Hht. }
  2: { apply Hsub. lia. }
  2: { eapply Forall_impl; [|exact Hdo]. intros o Ho. cbv beta in Ho.
       eapply src_disjoint_le; [exact Ho|lia]. }
  cbind. set (bs := (_ ++ _) ++ built_opts 0 _). cbn [is_err].
  assert (Hbs : zlen bs = 4 + zlen (m_token msg) + zlen (built_opts 0 (m_opts msg)))
    by (subst bs; rewrite zlen_app; lia).
  assert (Henc : built_msg msg = bs ++ enc_payload (m_payload msg))
    by (subst bs; unfold built_msg; by rewrite <- !app_assoc).
  rewrite Rpl, Henc. rewrite Henc in Hsub, Hdp. unfold src_disjoint in Hdp. rewrite Rpl in Hdp.
  rewrite Henc in Hfit.
  apply build_payload_enc; first [done | lia | apply Hsub; lia].
Qed.

Lemma wf_opts_weaken k k' : k <= k' -> forall opts prev, wf_opts k prev opts -> wf_opts k' prev opts.
Proof.
  intros Hk. induction opts as [|[n val] opts IH]; intros prev; simpl; [done|].
  intros (?&?&?&?). repeat split; try done; try lia. auto.
Qed.

Lemma wf_msg_weaken k k' msg : k <= k' -> wf_msg k msg -> wf_msg k' msg.
Proof.
  intros ? [? ? ? ? ? [? ?] ?]. split; try done. split; [|done]. by eapply wf_opts_weaken.
Qed.

(** With option values of at most 268 bytes these bytes are the encoding. *)
Lemma build_writes_enc m buf buflen pkt msg :
  wf_msg 268 msg -> build_pre m buf buflen pkt msg ->
  coap_build m buf buflen pkt =
    Some (COAP_ERR_NONE, wr m buf (enc_msg msg), zlen (enc_msg msg)).
Proof.
  intros Hwf Hpre. pose proof (wf_msg_weaken 268 65535 msg ltac:(lia) Hwf) as Hw.
  rewrite (build_writes _ _ _ _ _ Hw Hpre), built_msg_len. destruct Hwf as [_ _ _ _ _ [H268 _] _], Hw as [_ _ _ _ _ [Hwo _] _].
  apply built_opts_enc in H268; [|done]. unfold built_msg, enc_msg. by rewrite H268.
Qed.

(** * Properties *)

(** C4: on every well-formed RFC 7252 message (version 1, token of at most 8
    bytes, at most MAXOPT options with ascending numbers below 256, values of
    at most 65535 bytes) [coap_parse] succeeds and the packet it fills denotes
    that message: header fields, token, options in order, payload. *)
Theorem coap_parse_enc m pkt msg buf :
  wf_msg 65535 msg -> zlen (pkt_opts pkt) = MAXOPT -> bytes_at m buf (enc_msg msg) ->
  exists pkt', coap_parse m pkt buf (zlen (enc_msg msg)) = Some (COAP_ERR_NONE, pkt') /\
    zlen (pkt_opts pkt') = MAXOPT /\ pkt_repr m pkt' msg.
Proof.
  intros Hwf Ho Hb. destruct (parse_reads_enc m pkt msg buf Hwf Ho Hb) as (pkt' & ? & ? & ? & _).
  eauto.
Qed.

(** C3: given a packet that denotes a well-formed message (option values of at most
    65535 bytes), an output buffer that passes the builder's own length tests and is
    mapped for the encoding, and source buffers outside it, [coap_build] writes
    [built_msg], no byte elsewhere, and sets the length to the encoding's.  [built_msg]
    has the length of the RFC 7252 encoding, and it is that encoding exactly when no
    option value is longer than 268 bytes; it differs in the high byte of the length of
    every longer one. *)
Theorem coap_build_enc m buf buflen pkt msg :
  wf_msg 65535 msg -> build_pre m buf buflen pkt msg ->
  coap_build m buf buflen pkt =
    Some (COAP_ERR_NONE, wr m buf (built_msg msg), zlen (enc_msg msg)) /\
  zlen (built_msg msg) = zlen (enc_msg msg) /\
  (built_msg msg = enc_msg msg <-> Forall (fun o => zlen o.2 <= 268) (m_opts msg)).
Proof.
  intros Hwf Hpre. rewrite (build_writes _ _ _ _ _ Hwf Hpre), built_msg_len.
  split; [done|]. split; [done|]. by apply built_msg_enc.
Qed.

(** C2: for a message whose option values have at most 268 bytes, in a buffer that
    passes the builder's length tests, parsing what [coap_build] wrote, with the length
    it returned, gives a packet that denotes the message the built packet denoted. *)
Theorem coap_roundtrip m buf buflen pkt pkt0 msg :
  wf_msg 268 msg -> build_pre m buf buflen pkt msg -> zlen (pkt_opts pkt0) = MAXOPT ->
  exists m' n pkt', coap_build m buf buflen pkt = Some (COAP_ERR_NONE, m', n) /\
    coap_parse m' pkt0 buf n = Some (COAP_ERR_NONE, pkt') /\ pkt_repr m' pkt' msg.
Proof.
  intros Hwf Hpre H0. rewrite (build_writes_enc _ _ _ _ _ Hwf Hpre).
  destruct (parse_reads_enc (wr m buf (enc_msg msg)) pkt0 msg buf) as (pkt' & Hp & _ & Hr & _);
    [by apply (wf_msg_weaken 268)|done|apply bytes_at_wr|eauto 6].
Qed.

(** * A concrete message *)

(** GET /hi with token AA and payload "x". *)
Definition ex_msg : coap_msg := mk_msg 0 1 0x12 0x34 [0xAA] [(11, [104; 105])] [120].

(** The source bytes at 100, the output buffer at 200. *)
Definition ex_mem : mem := wr (wr ∅ 100 [0xAA; 104; 105; 120]) 200 (replicate 32 0).

Definition ex_pkt : coap_packet_t :=
  mk_packet (mk_header 1 0 1 1 0x12 0x34) (mk_buffer 100 1) 1
    (mk_option 11 (mk_buffer 101 2) :: replicate 15 (mk_option 0 (mk_buffer 0 0)))
    (mk_buffer 103 1).

Definition ex_blank : coap_packet_t :=
  mk_packet (mk_header 0 0 0 0 0 0) (mk_buffer 0 0) 0
    (replicate 16 (mk_option 0 (mk_buffer 0 0))) (mk_buffer 0 0).

Lemma ex_msg_wf k : 268 <= k -> wf_msg k ex_msg.
Proof.
  intros. apply (wf_msg_weaken 268); [done|].
  split; try (unfold is_byte; simpl; lia); simpl; unfold all_bytes;
    repeat first [split | constructor | done | (unfold is_byte; lia)].
Qed.

Lemma ex_mapped : mapped ex_mem 200 32.
Proof.
  intros i Hi. unfold ex_mem. rewrite wr_lookup. change (zlen (replicate 32 0)) with 32.
  zif_true. apply znth_in_range. change (zlen (replicate 32 0)) with 32. lia.
Qed.

Lemma ex_build_pre : build_pre ex_mem 200 32 ex_pkt ex_msg.
Proof.
  split; try (unfold src_disjoint, disjoint; vm_compute; intuition done).
  - split; try (vm_compute; done). repeat constructor.
  - apply (mapped_sub ex_mem 200 32 200); [apply ex_mapped|done|vm_compute; done].
  - apply Forall_singleton. unfold src_disjoint, disjoint. vm_compute. intuition done.
Qed.

Lemma coap_parse_enc_witness :
  exists pkt', coap_parse (wr ∅ 500 (enc_msg ex_msg)) ex_blank 500 (zlen (enc_msg ex_msg))
      = Some (COAP_ERR_NONE, pkt') /\
    zlen (pkt_opts pkt') = MAXOPT /\ pkt_repr (wr ∅ 500 (enc_msg ex_msg)) pkt' ex_msg.
Proof.
  apply coap_parse_enc; [apply ex_msg_wf; lia|reflexivity|apply bytes_at_wr].
Defined.

Lemma coap_build_enc_witness :
  coap_build ex_mem 200 32 ex_pkt =
    Some (COAP_ERR_NONE, wr ex_mem 200 (built_msg ex_msg), zlen (enc_msg ex_msg)) /\
  zlen (built_msg ex_msg) = zlen (enc_msg ex_msg) /\
  (built_msg ex_msg = enc_msg ex_msg <-> Forall (fun o => zlen o.2 <= 268) (m_opts ex_msg)).
Proof. apply coap_build_enc; [apply ex_msg_wf; lia|apply ex_build_pre]. Defined.

Lemma coap_roundtrip_witness :
  exists m' n pkt', coap_build ex_mem 200 32 ex_pkt = Some (COAP_ERR_NONE, m', n) /\
    coap_parse m' ex_blank 200 n = Some (COAP_ERR_NONE, pkt') /\ pkt_repr m' pkt' ex_msg.
Proof. apply coap_roundtrip; [apply ex_msg_wf; lia|apply ex_build_pre|reflexivity]. Defined.

Example ex_enc : enc_msg ex_msg = [0x41; 1; 0x12; 0x34; 0xAA; 0xB2; 104; 105; 0xFF; 120].
Proof. reflexivity. Qed.
