(* ===== verification/CoapDispatch.v ===== *)
(** Request dispatch: what [coap_findOptions] finds, which endpoint
    [coap_handle_req] hands a request to, and the response
    [coap_make_response] prepares; and the two places where the builder leaves
    the RFC 7252 format, option values of 269 bytes and more and option numbers
    of 256 and more. *)
From S2P Require Import Prelude CMem Coap CoapParse CoapCodec.

(** * Finding options *)

(** The length of the run of options numbered [num] at the head of a list. *)
Fixpoint run_len (num : Z) (os : list coap_option_t) : Z :=
  match os with
  | [] => 0
  | o :: os' => if opt_num o =? num then 1 + run_len num os' else 0
  end.

(** The index (from [i]) and length of the first run. *)
Fixpoint first_run (num i : Z) (os : list coap_option_t) : option Z * Z :=
  match os with
  | [] => (None, 0)
  | o :: os' => if opt_num o =? num then (Some i, run_len num os) else first_run num (i + 1) os'
  end.

Lemma run_len_range num os : 0 <= run_len num os <= zlen os.
Proof.
  induction os as [|o os IH]; simpl; [done|]. rewrite zlen_cons. pose proof (zlen_nonneg os).
  zifs; lia.
Qed.

Section find.
Context (opts : list coap_option_t) (num : Z).

Lemma findOptions_run os : forall i f c,
take (length os) (drop (Z.to_nat i) opts) = os -> 0 <= i -> 0 <= c -> c + zlen os < 256 ->
coap_findOptions_loop (length os) opts num i (Some f) c = Some (Some f, c + run_len num os).
Proof.
induction os as [|o os IH]; intros i f c Ht Hi Hc Hlt.
{ simpl. by rewrite Z.add_0_r. }
cbn [length take] in Ht. destruct (drop (Z.to_nat i) opts) as [|o' rest] eqn:E; [done|].
injection Ht as -> Ht. pose proof (drop_head _ _ _ _ E Hi) as [Hl Hr].
rewrite zlen_cons in Hlt. pose proof (zlen_nonneg os).
simpl length. unfold coap_findOptions_loop; fold coap_findOptions_loop.
rewrite Hl. cbind. simpl run_len. zif.
- rewrite u8_id by lia. rewrite IH; [feq| |lia|lia|lia]. by rewrite Hr.
- feq.
Qed.

Lemma findOptions_first os : forall i,
take (length os) (drop (Z.to_nat i) opts) = os -> 0 <= i -> zlen os < 256 ->
coap_findOptions_loop (length os) opts num i None 0 = Some (first_run num i os).
Proof.
induction os as [|o os IH]; intros i Ht Hi Hlt; [done|].
cbn [length take] in Ht. destruct (drop (Z.to_nat i) opts) as [|o' rest] eqn:E; [done|].
injection Ht as -> Ht. pose proof (drop_head _ _ _ _ E Hi) as [Hl Hr].
rewrite zlen_cons in Hlt. pose proof (zlen_nonneg os).
simpl length. unfold coap_findOptions_loop; fold coap_findOptions_loop.
rewrite Hl. cbind. simpl first_run. zif.
- change (u8 (0 + 1)) with 1. rewrite findOptions_run; [done|by rewrite Hr|lia|lia|lia].
- apply IH; [by rewrite Hr|lia|lia].
Qed.
End find.

Lemma findOptions_spec pkt num os :
  take (length os) (pkt_opts pkt) = os -> pkt_numopts pkt = zlen os -> zlen os < 256 ->
  coap_findOptions pkt num = Some (first_run num 0 os).
Proof.
  intros Ht Hn Hlt. unfold coap_findOptions. rewrite Hn.
  replace (Z.to_nat (zlen os)) with (length os) by (unfold zlen; lia).
  apply findOptions_first; [done|lia|done].
Qed.

(** * Uri-Path in the abstract *)

Definition uri_path (opts : list (Z * bytes)) : list bytes :=
  omap (fun a => if a.1 =? COAP_OPTION_URI_PATH then Some a.2 else None) opts.

Lemma uri_path_beyond k prev opts :
  wf_opts k prev opts -> COAP_OPTION_URI_PATH < prev -> uri_path opts = [].
Proof.
  revert prev. induction opts as [|[n v] opts IH]; intros prev; [done|].
  cbn [wf_opts]. intros (Hn & _ & _ & Hwf) Hp. unfold uri_path. simpl. zif_false. eapply IH; [done|lia].
Qed.

Section abs_path.
Context (m : mem) (k : Z).
Implicit Types (os : list coap_option_t) (aopts : list (Z * bytes)).

(** In an ascending list the run that starts at number 11 is the whole path. *)
Lemma uri_path_run os aopts prev :
Forall2 (opt_repr m) os aopts -> wf_opts k prev aopts -> COAP_OPTION_URI_PATH <= prev ->
run_len COAP_OPTION_URI_PATH os = zlen (uri_path aopts) /\
Forall2 (opt_repr m) (take (length (uri_path aopts)) os)
  (map (pair COAP_OPTION_URI_PATH) (uri_path aopts)).
Proof.
intros HF. revert prev. induction HF as [|o [n v] os aopts Ho HF IH]; intros prev; [done|].
cbn [wf_opts]. intros (Hn & _ & _ & Hwf) Hp. destruct Ho as (Hnum & Hl & Hb). simpl in Hnum.
simpl run_len. rewrite Hnum. unfold uri_path. simpl. destruct (n =? COAP_OPTION_URI_PATH) eqn:E; zbool.
- destruct (IH n Hwf ltac:(lia)) as [IH1 IH2]. fold (uri_path aopts). rewrite zlen_cons. simpl.
  split; [by rewrite IH1|]. constructor; [|done]. subst n. by repeat split.
- fold (uri_path aopts). rewrite (uri_path_beyond k n) by (done || lia). done.
Qed.

Lemma uri_path_first os aopts : forall prev i,
Forall2 (opt_repr m) os aopts -> wf_opts k prev aopts ->
match first_run COAP_OPTION_URI_PATH i os with
| (None, n) => uri_path aopts = []
| (Some j, n) =>
    n = zlen (uri_path aopts) /\ uri_path aopts <> [] /\ i <= j /\
    Forall2 (opt_repr m) (take (length (uri_path aopts)) (drop (Z.to_nat (j - i)) os))
      (map (pair COAP_OPTION_URI_PATH) (uri_path aopts))
end.
Proof.
intros prev i HF. revert prev i.
induction HF as [|o [n v] os aopts Ho HF IH]; intros prev i Hwf; [done|].
pose proof Hwf as (Hn & _ & _ & Hwf'). simpl first_run.
pose proof Ho as (Hnum & _). simpl in Hnum.
destruct (opt_num o =? COAP_OPTION_URI_PATH) eqn:E; zbool.
- destruct (uri_path_run (o :: os) ((n, v) :: aopts) COAP_OPTION_URI_PATH) as [H1 H2];
    [by constructor| |done|].
  { cbn [wf_opts]. destruct Hwf as (? & ? & ? & ?). repeat split; try done; lia. }
  cbn [run_len] in H1. rewrite (proj2 (Z.eqb_eq _ _) E) in H1. split; [done|]. split; [|split; [lia|]].
  + unfold uri_path. simpl. rewrite <- Hnum, (proj2 (Z.eqb_eq _ _) E). done.
  + replace (i - i) with 0 by lia. exact H2.
- specialize (IH n (i + 1) Hwf').
  assert (Hu : uri_path ((n, v) :: aopts) = uri_path aopts).
  { unfold uri_path. simpl. zif. done. }
  rewrite Hu. destruct (first_run _ (i + 1) os) as [[j|] c]; [|done].
  destruct IH as (? & ? & ? & HF'). split; [done|]. split; [done|]. split; [lia|].
  replace (Z.to_nat (j - i)) with (S (Z.to_nat (j - (i + 1)))) by lia. done.
Qed.

Lemma match_path_spec opts elems : forall segs i opt0 es,
Forall2 (opt_repr m) (take (length segs) (drop (Z.to_nat (opt0 + i)) opts))
  (map (pair COAP_OPTION_URI_PATH) segs) ->
take (length segs) (drop (Z.to_nat i) elems) = es -> length es = length segs ->
0 <= i -> 0 <= opt0 ->
coap_match_path m (length segs) elems opts opt0 i = Some (bool_decide (segs = es)).
Proof.
induction segs as [|s segs IH]; intros i opt0 es HF He Hlen Hi H0.
{ by destruct es. }
cbn [length take] in *. destruct (drop (Z.to_nat i) elems) as [|e rest] eqn:Ee; [by subst es|].
destruct (drop (Z.to_nat (opt0 + i)) opts) as [|o orest] eqn:Eo; [inversion HF|].
pose proof (drop_head _ _ _ _ Ee Hi) as [Hel Her].
pose proof (drop_head _ _ _ _ Eo ltac:(lia)) as [Hol Hor].
cbn [map] in HF. apply Forall2_cons_1 in HF as [(_ & Hl & Hb) HF']. subst es. simpl in Hl, Hb.
simpl coap_match_path. rewrite Hol. cbind. rewrite Hel. cbind. rewrite Hl.
destruct (zlen s =? zlen e) eqn:E; zbool; simpl.
- rewrite Hb. cbind. case_decide as Hd.
  + subst e. erewrite IH; [|by rewrite Z.add_assoc, Hor|reflexivity| |lia|lia].
    * rewrite Her. f_equal. apply bool_decide_ext. split; [by intros <-|by intros [= <-]].
    * rewrite Her. simpl in Hlen. lia.
  + f_equal. symmetry. apply bool_decide_eq_false. by intros [= ? ?].
- f_equal. symmetry. apply bool_decide_eq_false. intros [= -> ?]. congruence.
Qed.
End abs_path.

(** * Choosing the endpoint *)

Definition ep_segments (ep : coap_endpoint_t) : list bytes :=
  take (Z.to_nat (path_count (ep_path ep))) (path_elems (ep_path ep)).

(** The path array holds at least the segments it counts. *)
Definition wf_ep (ep : coap_endpoint_t) : Prop :=
  0 <= path_count (ep_path ep) <= zlen (path_elems (ep_path ep)).

(** What it means for an endpoint to serve a message. *)
Definition serves (msg : coap_msg) (ep : coap_endpoint_t) : bool :=
  bool_decide (ep_method ep = m_code msg /\ uri_path (m_opts msg) <> [] /\
               uri_path (m_opts msg) = ep_segments ep).

Lemma ep_segments_length ep : wf_ep ep -> zlen (ep_segments ep) = path_count (ep_path ep).
Proof. unfold wf_ep, ep_segments, zlen. rewrite length_take. lia. Qed.

Lemma endpoint_matches_spec m pkt msg ep k :
  pkt_repr m pkt msg -> wf_msg k msg -> wf_ep ep ->
  coap_endpoint_matches m pkt ep = Some (serves msg ep).
Proof.
  intros Hr Hwf Hep. destruct (wf_mopts _ _ Hwf) as [Hwo Hol]. unfold MAXOPT in Hol.
  pose proof (pr_opts _ _ _ Hr) as HF.
  assert (Hlen : length (take (length (m_opts msg)) (pkt_opts pkt)) = length (m_opts msg))
    by (eapply Forall2_length; exact HF).
  unfold coap_endpoint_matches, serves. rewrite (pr_code _ _ _ Hr).
  destruct (ep_method ep =? m_code msg) eqn:E; zbool; simpl.
  2: { rewrite bool_decide_eq_false_2; [done|]. by intros [? _]. }
  rewrite (findOptions_spec pkt _ (take (length (m_opts msg)) (pkt_opts pkt)));
    [|by rewrite Hlen|rewrite (pr_numopts _ _ _ Hr); unfold zlen; lia|unfold zlen in *; lia].
  cbind. pose proof (uri_path_first m k _ _ 0 0 HF Hwo) as Hf.
  destruct (first_run _ 0 _) as [[j|] c].
  2: { rewrite bool_decide_eq_false_2; [done|]. rewrite Hf. by intros (_ & ? & _). }
  destruct Hf as (-> & Hne & Hj & HF'). rewrite <- (ep_segments_length ep Hep).
  destruct (zlen (uri_path (m_opts msg)) =? zlen (ep_segments ep)) eqn:E2; zbool; simpl.
  2: { rewrite bool_decide_eq_false_2; [done|]. intros (_ & _ & Hp). by rewrite Hp in E2. }
  replace (Z.to_nat (zlen (uri_path (m_opts msg)))) with (length (uri_path (m_opts msg)))
    by (unfold zlen; lia).
  assert (Hseg : take (length (uri_path (m_opts msg))) (path_elems (ep_path ep)) = ep_segments ep).
  { unfold ep_segments. f_equal. pose proof (ep_segments_length ep Hep). unfold zlen in *. lia. }
  rewrite (match_path_spec m _ _ _ 0 j (ep_segments ep)); [| |done| |lia|lia].
  - f_equal. apply bool_decide_ext. intuition done.
  - rewrite Z.sub_0_r in HF'. rewrite Z.add_0_r. rewrite skipn_firstn_comm in HF'.
    rewrite take_take in HF'. replace (_ `min` _)%nat with (length (uri_path (m_opts msg))) in HF'; [done|].
    apply Forall2_length in HF'. rewrite length_map, length_take, length_drop in HF'. lia.
  - unfold zlen in E2. lia.
Qed.

(** The response to a request no endpoint serves. *)
Definition not_found_response (m : mem) (scratch : coap_rw_buffer_t) (inpkt outpkt : coap_packet_t)
  : option (coap_error_t * mem * coap_packet_t) :=
  r ← coap_make_response m scratch outpkt NULL 0
        (hdr_id0 (pkt_hdr inpkt)) (hdr_id1 (pkt_hdr inpkt)) (Some (pkt_tok inpkt))
        COAP_RSPCODE_NOT_FOUND COAP_CONTENTTYPE_NONE;
  let '(_, m, outpkt) := r in
  Some (COAP_ERR_NONE, m, outpkt).

(** The first endpoint that serves the message, and its handler. *)
Definition route (msg : coap_msg) (eps : list coap_endpoint_t) : option coap_endpoint_func :=
  match List.find (serves msg) eps with Some ep => ep_handler ep | None => None end.

Lemma handle_req_route m scratch inpkt outpkt msg eps sentinel rest k :
  pkt_repr m inpkt msg -> wf_msg k msg ->
  Forall (fun ep => wf_ep ep /\ is_Some (ep_handler ep)) eps -> ep_handler sentinel = None ->
  coap_handle_req m scratch inpkt outpkt (eps ++ sentinel :: rest) =
    match route msg eps with
    | Some handler => handler m scratch inpkt outpkt (m_id0 msg) (m_id1 msg)
    | None => not_found_response m scratch inpkt outpkt
    end.
Proof.
  intros Hr Hwf Heps Hs. induction Heps as [|ep eps [Hep [h Hh]] _ IH]; simpl.
  - by rewrite Hs.
  - rewrite Hh, (endpoint_matches_spec m inpkt msg ep k Hr Hwf Hep). cbind.
    unfold route in *. simpl. destruct (serves msg ep); [|exact IH].
    by rewrite Hh, (pr_id0 _ _ _ Hr), (pr_id1 _ _ _ Hr).
Qed.

(** C5: [coap_handle_req] hands a parsed request to the first endpoint whose
    method is the message's code and whose path is exactly the message's
    Uri-Path options, passing the message id on; when none matches before the
    table's NULL handler it prepares the 4.04 response. *)
Theorem coap_handle_req_routes m scratch inpkt outpkt msg eps sentinel rest :
  pkt_repr m inpkt msg -> wf_msg 65535 msg ->
  Forall (fun ep => wf_ep ep /\ is_Some (ep_handler ep)) eps -> ep_handler sentinel = None ->
  coap_handle_req m scratch inpkt outpkt (eps ++ sentinel :: rest) =
    match route msg eps with
    | Some handler => handler m scratch inpkt outpkt (m_id0 msg) (m_id1 msg)
    | None => not_found_response m scratch inpkt outpkt
    end.
Proof. apply handle_req_route. Qed.

Lemma handle_req_found m scratch inpkt outpkt msg eps handler k :
  pkt_repr m inpkt msg -> wf_msg k msg ->
  Forall (fun ep => wf_ep ep /\ is_Some (ep_handler ep)) eps -> route msg eps = Some handler ->
  coap_handle_req m scratch inpkt outpkt eps = handler m scratch inpkt outpkt (m_id0 msg) (m_id1 msg).
Proof.
  intros Hr Hwf Heps. unfold route. induction Heps as [|ep eps [Hep [h Hh]] _ IH]; simpl; [done|].
  rewrite Hh, (endpoint_matches_spec m inpkt msg ep k Hr Hwf Hep). cbind.
  destruct (serves msg ep); [|exact IH]. rewrite Hh. intros [= ->].
  by rewrite (pr_id0 _ _ _ Hr), (pr_id1 _ _ _ Hr).
Qed.

Lemma handle_req_unserved m scratch inpkt outpkt msg eps k :
  pkt_repr m inpkt msg -> wf_msg k msg ->
  Forall (fun ep => wf_ep ep /\ is_Some (ep_handler ep)) eps ->
  route msg eps = None -> coap_handle_req m scratch inpkt outpkt eps = None.
Proof.
  intros Hr Hwf Heps. induction Heps as [|ep eps [Hep [h Hh]] _ IH]; [done|].
  unfold route in *. simpl. rewrite Hh, (endpoint_matches_spec m inpkt msg ep _ Hr Hwf Hep). cbind.
  destruct (serves msg ep); [|exact IH]. by rewrite Hh.
Qed.

(** Walking a table with no NULL handler runs off its end, which is
    undefined behaviour, for every request none of its endpoints serves. *)
Theorem coap_handle_req_no_sentinel m scratch inpkt outpkt msg eps :
  pkt_repr m inpkt msg -> wf_msg 65535 msg ->
  Forall (fun ep => wf_ep ep /\ is_Some (ep_handler ep)) eps ->
  route msg eps = None -> coap_handle_req m scratch inpkt outpkt eps = None.
Proof. apply handle_req_unserved. Qed.

(** * The response *)

(** The two stores of a 16-bit value, high byte first. *)
Lemma store_word {B} m p v (K : mem -> option B) :
  mapped m p 2 ->
  (m ← store m p ((u16 v .& 0xFF00) .>> 8); m ← store m (p + 1) (u16 v .& 0x00FF); K m) =
  K (wr m p [u16 v / 256; u8 v]).
Proof.
  intros Hm. rewrite store_mapped by (apply Hm; lia). cbind. rewrite store_mapped.
  2: { destruct (mapped_wr m p [u8 ((u16 v .& 0xFF00) .>> 8)] _ _ Hm (p + 1)); [lia|eauto]. }
  cbind. change (0xFF00) with ((2 ^ 8 - 1) .<< 8). rewrite shiftr_field by lia.
  change 0x00FF with 0xFF. rewrite land_0xFF. change (2 ^ 8) with 256.
  replace (u8 ((u16 v / 256) mod 256)) with (u16 v / 256) by cint.
  replace (u8 (u16 v mod 256)) with (u8 v) by cint. done.
Qed.

Definition response_packet (scratch : coap_rw_buffer_t) (pkt : coap_packet_t)
    (content len hi lo code : Z) (tok : coap_buffer_t) : coap_packet_t :=
  mk_packet (mk_header 1 COAP_TYPE_ACK (buf_len tok) code hi lo) tok 1
    (mk_option COAP_OPTION_CONTENT_FORMAT (mk_buffer (rw_p scratch) 2) :: tail (pkt_opts pkt))
    (mk_buffer content len).

Definition response_msg (code ctype hi lo : Z) (tbytes cbytes : bytes) : coap_msg :=
  mk_msg COAP_TYPE_ACK code hi lo tbytes
    [(COAP_OPTION_CONTENT_FORMAT, [u16 ctype / 256; u8 ctype])] cbytes.

Section response.
Context (m : mem) (scratch : coap_rw_buffer_t) (pkt : coap_packet_t).
Context (content : Z) (cbytes : bytes) (tok : coap_buffer_t) (tbytes : bytes).
Context (hi lo code ctype : Z).
Context (Hslots : zlen (pkt_opts pkt) = MAXOPT) (Hs : 2 <= rw_len scratch)
(Hm : mapped m (rw_p scratch) 2) (Hcode : is_byte code)
(Hc : bytes_at m content cbytes) (Hcd : disjoint (rw_p scratch) 2 content (zlen cbytes))
(Hcl : zlen cbytes < 2147483648)
(Htl : buf_len tok = zlen tbytes) (Ht8 : zlen tbytes <= 8)
(Htb : bytes_at m (buf_p tok) tbytes)
(Htd : disjoint (rw_p scratch) 2 (buf_p tok) (zlen tbytes)).

Let m' := wr m (rw_p scratch) [u16 ctype / 256; u8 ctype].

Lemma response_unchanged a bs :
bytes_at m a bs -> disjoint (rw_p scratch) 2 a (zlen bs) -> bytes_at m' a bs.
Proof. intros Hb Hd. unfold bytes_at, m'. by rewrite load_bytes_wr_disjoint. Qed.

Lemma make_response_spec :
coap_make_response m scratch pkt content (zlen cbytes) hi lo (Some tok) code ctype =
  Some (COAP_ERR_NONE, m', response_packet scratch pkt content (zlen cbytes) hi lo code tok).
Proof.
pose proof (zlen_nonneg tbytes). pose proof (zlen_nonneg cbytes).
unfold coap_make_response, response_packet. destruct (pkt_opts pkt) as [|o0 os] eqn:Eo; [done|].
assert (Hos : zlen os = 15) by (rewrite zlen_cons in Hslots; unfold MAXOPT in Hslots; lia).
change (znth (o0 :: os) 0) with (Some o0). cbind.
rewrite zupd_in_range by (rewrite zlen_cons; lia). cbind.
change (<[Z.to_nat 0 := ?x]> (o0 :: os)) with (x :: os). zif_false.
rewrite store_word by done. cbind.
rewrite zupd_in_range by (rewrite zlen_cons; lia). cbind. simpl insert.
rewrite s32_id by lia. zif_false.
pose proof (response_unchanged _ _ Hc Hcd) as E. unfold bytes_at, m' in E. rewrite E. cbind.
rewrite Htl, (u8_id (zlen tbytes)), (u8_id code) by (unfold is_byte in *; lia). done.
Qed.

Lemma response_repr :
pkt_repr m' (response_packet scratch pkt content (zlen cbytes) hi lo code tok)
  (response_msg code ctype hi lo tbytes cbytes).
Proof.
constructor; simpl; try done.
- split; [done|]. by apply response_unchanged.
- constructor; [|done]. repeat split. apply bytes_at_wr.
- split; [done|]. by apply response_unchanged.
Qed.
End response.

(** a response prepared in a scratch buffer of at least two bytes denotes
    the message with type ACK, the request's id and token, the given code, the
    Content-Format option with the two bytes of the content type, and the given
    payload. *)
Theorem coap_make_response_denotes m scratch pkt content cbytes tok tbytes hi lo code ctype :
  zlen (pkt_opts pkt) = MAXOPT -> 2 <= rw_len scratch -> mapped m (rw_p scratch) 2 ->
  is_byte code -> bytes_at m content cbytes -> disjoint (rw_p scratch) 2 content (zlen cbytes) ->
  zlen cbytes < 2147483648 -> buf_len tok = zlen tbytes -> zlen tbytes <= 8 -> bytes_at m (buf_p tok) tbytes ->
  disjoint (rw_p scratch) 2 (buf_p tok) (zlen tbytes) ->
  exists m' pkt',
    coap_make_response m scratch pkt content (zlen cbytes) hi lo (Some tok) code ctype =
      Some (COAP_ERR_NONE, m', pkt') /\
    m' = wr m (rw_p scratch) [u16 ctype / 256; u8 ctype] /\ zlen (pkt_opts pkt') = MAXOPT /\
    pkt_repr m' pkt' (response_msg code ctype hi lo tbytes cbytes).
Proof.
  intros Hslots ? ? ? ? ? ? ? ? ? ?. do 2 eexists. split; [by eapply make_response_spec|].
  split; [done|]. split; [|by eapply response_repr].
  simpl. destruct (pkt_opts pkt); [done|]. simpl. by rewrite zlen_cons in *.
Qed.

(** * Where the builder leaves the format *)

(** an option value of 269 bytes or more is written with the wrong extended
    length: the first of the two length bytes is [len >> 8] instead of
    [(len - 269) >> 8], so the parser reads a length 256 or 512 too big. *)
Theorem coap_build_long_option m o rd p val :
  opt_num o = rd -> 0 <= rd < 256 -> buf_len (opt_buf o) = zlen val -> 269 <= zlen val < 65000 ->
  bytes_at m (buf_p (opt_buf o)) val -> all_bytes val -> mapped m p (3 + zlen val) ->
  disjoint p (3 + zlen val) (buf_p (opt_buf o)) (zlen val) ->
  exists m' len', coap_build_option m o rd p = Some (m', p + 3 + zlen val) /\
    (forall slot n, 3 + len' <= n ->
       coap_parseOption m' slot rd p n =
         Some (COAP_ERR_NONE, mk_option rd (mk_buffer (p + 3) len'), rd, p + 3 + len')) /\
    (len' = zlen val + 256 \/ len' = zlen val + 512).
Proof.
  intros Hnum Hrd Hl Hv Hb Hval Hm Hd.
  set (L := zlen val) in *. set (hd := [14; L / 256; (L - 269) mod 256]).
  exists (wr m p (hd ++ val)), (L / 256 * 256 + (L - 269) mod 256 + 269).
  assert (Hput : forall bs v, zlen bs < 3 -> put (wr m p bs) (p + zlen bs) v =
    Some (wr m p (bs ++ [u8 v]), p + zlen (bs ++ [u8 v]))).
  { intros bs v Hbs. apply put_wr. eapply mapped_sub; [exact Hm|lia|lia]. }
  split; [|split].
  - unfold coap_build_option. rewrite Hnum, Hl, Z.sub_diag.
    rewrite (u32_id L), (u32_id 0) by lia. change (coap_option_nibble 0 (Some 0)) with (Some 0).
    unfold coap_option_nibble. zif_false. zif_false. zif_true. cbind. zif_false. zif_false.
    change (0xFF .& ((0 .<< 4) .| 14)) with 14. change (14 =? 13) with false.
    change (14 =? 14) with true. cbn iota.
    pose proof (Hput [] 14 ltac:(done)) as E1. rewrite zlen_nil, Z.add_0_r in E1. cbn [app] in E1.
    change (wr m p []) with m in E1. rewrite E1. cbind. change (0 =? 14) with false. cbind.
    rewrite (Hput [u8 14]) by done. cbind. cbn [app]. rewrite (Hput [u8 14; _]) by done. cbind. cbn [app].
    replace [u8 14; u8 (L .>> 8); u8 (0xFF .& u64 (L - 269))] with hd.
    2: { subst hd. rewrite shiftr_8, land_0xFF_l. unfold u64, u8. clear -Hv.
         replace ((L - 269) mod 18446744073709551616) with (L - 269) by lia.
         replace (L / 256 mod 256) with (L / 256) by lia.
         by replace ((L - 269) mod 256 mod 256) with ((L - 269) mod 256) by lia. }
    subst L. rewrite memcpy_app; try done.
  - intros slot n Hn. unfold coap_parseOption. zif_false.
    assert (Hlk : forall i x, znth (hd ++ val) i = Some x -> wr m p (hd ++ val) !! (p + i) = Some x).
    { intros i x Hx. pose proof (znth_Some_range _ _ _ Hx).
      rewrite wr_lookup. zif_true. by replace (p + i - p) with i by lia. }
    unfold load. rewrite <- (Z.add_0_r p) at 1. rewrite (Hlk 0 14) by done. cbind.
    change ((14 .& 0xF0) .>> 4) with 0. change (14 .& 0x0F) with 14.
    unfold coap_parse_ext.
    change (0 =? 13) with false. change (0 =? 14) with false. change (0 =? 15) with false. cbind.
    change (14 =? 13) with false. change (14 =? 14) with true. cbn iota. zif_false. unfold load. rewrite (Hlk 1 (L / 256)), (Hlk 2 ((L - 269) mod 256)) by done. cbind.
    rewrite lor_shiftl_8 by lia. rewrite u16_id by lia. rewrite Z.gtb_ltb. zif_false.
    rewrite u8_id, u16_id by lia. feq.
  - lia.
Qed.

(** The option loop tests the buffer length only before an option, so a
    message without payload whose last option starts inside the buffer is
    written in full past the buffer's end and reported as success, with a length
    greater than the buffer's. *)
Theorem coap_build_overruns m buf buflen pkt msg :
  wf_msg 268 msg -> build_pre m buf buflen pkt msg -> buflen < zlen (enc_msg msg) ->
  exists m' n, coap_build m buf buflen pkt = Some (COAP_ERR_NONE, m', n) /\ buflen < n /\
    bytes_at m' (buf + buflen) (drop (Z.to_nat buflen) (enc_msg msg)) /\ m_payload msg = [].
Proof.
  intros Hwf Hpre Hlt. exists (wr m buf (enc_msg msg)), (zlen (enc_msg msg)).
  rewrite (build_writes_enc _ _ _ _ _ Hwf Hpre). split; [done|]. split; [done|]. split.
  - pose proof (bytes_at_wr m buf (enc_msg msg)) as Hb.
    pose proof (bp_head _ _ _ _ _ Hpre). pose proof (zlen_nonneg (m_token msg)).
    rewrite <- (take_drop (Z.to_nat buflen) (enc_msg msg)) in Hb at 2.
    apply bytes_at_app in Hb as [_ Hb]. eapply bytes_at_eq; [exact Hb|].
    unfold zlen in *. rewrite length_take. lia.
  - destruct (m_payload msg) eqn:E; [done|].
    pose proof (bp_fits _ _ _ _ _ Hpre). rewrite E in *. specialize (H ltac:(done)). lia.
Qed.

(** * Witnesses *)

Definition ex_handler : coap_endpoint_func := fun m _ _ outpkt _ _ => Some (COAP_ERR_NONE, m, outpkt).
Definition ex_ep : coap_endpoint_t := mk_endpoint COAP_METHOD_GET (Some ex_handler) (mk_path 1 [[104; 105]]) None.
Definition ex_other : coap_endpoint_t := mk_endpoint COAP_METHOD_PUT (Some ex_handler) (mk_path 1 [[104; 105]]) None.
Definition ex_end : coap_endpoint_t := mk_endpoint 0 None (mk_path 0 []) None.

Lemma ex_eps_wf eps : Forall (fun ep => ep = ex_ep \/ ep = ex_other) eps ->
  Forall (fun ep => wf_ep ep /\ is_Some (ep_handler ep)) eps.
Proof.
  apply Forall_impl. intros ep [-> | ->]; (split; [split; vm_compute; done|eauto]).
Qed.

Lemma coap_handle_req_routes_witness :
  coap_handle_req ex_mem (mk_rw_buffer 210 8) ex_pkt ex_blank ([ex_other; ex_ep] ++ ex_end :: []) =
    ex_handler ex_mem (mk_rw_buffer 210 8) ex_pkt ex_blank 0x12 0x34.
Proof.
  rewrite (coap_handle_req_routes _ _ _ _ ex_msg);
    [reflexivity|apply (bp_repr _ _ _ _ _ ex_build_pre)|apply ex_msg_wf; lia| |reflexivity].
  apply ex_eps_wf. eauto 9 using Forall_cons_2, Forall_nil_2.
Defined.

Lemma coap_handle_req_no_sentinel_witness :
  coap_handle_req ex_mem (mk_rw_buffer 210 8) ex_pkt ex_blank [ex_other] = None.
Proof.
  apply (coap_handle_req_no_sentinel _ _ _ _ ex_msg);
    [apply (bp_repr _ _ _ _ _ ex_build_pre)|apply ex_msg_wf; lia| |reflexivity].
  apply ex_eps_wf. eauto 9 using Forall_cons_2, Forall_nil_2.
Defined.

Lemma coap_make_response_denotes_witness :
  exists m' pkt',
    coap_make_response ex_mem (mk_rw_buffer 210 8) ex_blank 103 (zlen [120]) 1 2
      (Some (mk_buffer 100 1)) COAP_RSPCODE_CONTENT COAP_CONTENTTYPE_APPLICATION_JSON =
      Some (COAP_ERR_NONE, m', pkt') /\
    m' = wr ex_mem 210 [u16 50 / 256; u8 50] /\ zlen (pkt_opts pkt') = MAXOPT /\
    pkt_repr m' pkt' (response_msg COAP_RSPCODE_CONTENT 50 1 2 [0xAA] [120]).
Proof.
  apply (coap_make_response_denotes ex_mem (mk_rw_buffer 210 8) ex_blank 103 [120] (mk_buffer 100 1));
    try (unfold disjoint; vm_compute; intuition done).
  apply (mapped_sub ex_mem 200 32); [apply ex_mapped|done|done].
Defined.

Definition ex_long_mem : mem := wr (wr ∅ 1000 (replicate 300 7)) 2000 (replicate 400 0).

Lemma coap_build_long_option_witness :
  exists m' len', coap_build_option ex_long_mem (mk_option 11 (mk_buffer 1000 300)) 11 2000
      = Some (m', 2000 + 3 + zlen (replicate 300 7)) /\
    (forall slot n, 3 + len' <= n ->
       coap_parseOption m' slot 11 2000 n =
         Some (COAP_ERR_NONE, mk_option 11 (mk_buffer (2000 + 3) len'), 11, 2000 + 3 + len')) /\
    (len' = zlen (replicate 300 7) + 256 \/ len' = zlen (replicate 300 7) + 512).
Proof.
  apply coap_build_long_option; try (unfold disjoint; vm_compute; intuition done).
  - apply Forall_replicate. done.
  - intros i Hi. change (zlen (replicate 300 7)) with 300 in Hi. unfold ex_long_mem.
    rewrite wr_lookup. change (zlen (replicate 400 0)) with 400. zif_true.
    apply znth_in_range. change (zlen (replicate 400 0)) with 400. lia.
Defined.

(** The same request without payload, into a buffer of six bytes. *)
Definition ex_short : coap_msg := mk_msg 0 1 0x12 0x34 [0xAA] [(11, [104; 105])] [].
Definition ex_short_pkt : coap_packet_t :=
  mk_packet (pkt_hdr ex_pkt) (pkt_tok ex_pkt) 1 (pkt_opts ex_pkt) (mk_buffer 103 0).

Lemma coap_build_overruns_witness :
  exists m' n, coap_build ex_mem 200 6 ex_short_pkt = Some (COAP_ERR_NONE, m', n) /\ 6 < n /\
    bytes_at m' (200 + 6) (drop (Z.to_nat 6) (enc_msg ex_short)) /\ m_payload ex_short = [].
Proof.
  apply coap_build_overruns; [| |vm_compute; done].
  - destruct (ex_msg_wf 268 ltac:(lia)). split; try done. constructor.
  - destruct ex_build_pre as [[] ? ? ? Hmap ? ? ?].
    split; try (unfold src_disjoint, disjoint; vm_compute; intuition done).
    + apply (mapped_sub ex_mem 200 _ 200 _ Hmap); [done|vm_compute; done].
    + apply Forall_singleton. unfold src_disjoint, disjoint. vm_compute. intuition done.
Defined.
