(* ===== verification/CoapApp.v ===== *)
(** The CoAP applications: the server of src/pus/app/coapsrv/coapsrv.c and the
    client of src/pus/app/coapcli/coapcli.c (coapcli_.c is its older copy with
    the same packet code).  A UDP send is the byte string sent; whether
    [udp_open] succeeds, the addresses of the static buffers and the values
    [rand] and [current_time] return are arguments. *)
From S2P Require Import Prelude CMem Coap CoapParse CoapCodec CoapDispatch.

(** * The server *)

(** The static buffers of coapsrv.c and what [udp_send] puts on the wire. *)
Record coapsrv_env := mk_env { packetbuf : Z; scratch_raw : Z; hello : Z }.

(** "Hello from PusOS Coap Server!" *)
Definition hello_bytes : bytes :=
  [72; 101; 108; 108; 111; 32; 102; 114; 111; 109; 32; 80; 117; 115; 79; 83; 32;
   67; 111; 97; 112; 32; 83; 101; 114; 118; 101; 114; 33].

Definition scratch_buf (e : coapsrv_env) : coap_rw_buffer_t := mk_rw_buffer (scratch_raw e) 64.

(** {1, {"hello"}} *)
Definition path_hello : coap_endpoint_path_t := mk_path 1 [[104; 101; 108; 108; 111]].

Definition handle_get_hello (e : coapsrv_env) : coap_endpoint_func :=
  fun m scratch inpkt outpkt id_hi id_lo =>
    coap_make_response m scratch outpkt (hello e) (zlen hello_bytes) id_hi id_lo
      (Some (pkt_tok inpkt)) COAP_RSPCODE_CONTENT COAP_CONTENTTYPE_TEXT_PLAIN.

(** The core attribute is "ct=0". *)
Definition endpoints (e : coapsrv_env) : list coap_endpoint_t :=
  [mk_endpoint COAP_METHOD_GET (Some (handle_get_hello e)) path_hello (Some [99; 116; 61; 48])].

(** [cpacket] and [rsppkt] are the uninitialised locals.  The parser's result is
    overwritten before it is looked at, as in the source.  [packetlen] is an [uint8_t]:
    of the length [len] of the datagram the low eight bits are left. *)
Definition coap_svc_callback (e : coapsrv_env) (m : mem) (cpacket rsppkt : coap_packet_t)
    (data len : Z) (udp_open_ok : bool) : option (mem * option bytes) :=
  let packetlen := u8 len in
  '(_, cpacket) ← coap_parse m cpacket data packetlen;
  if negb udp_open_ok then Some (m, None)
  else
    '(_, m, rsppkt) ← coap_handle_req m (scratch_buf e) cpacket rsppkt (endpoints e);
    '(rc, m, rsplen) ← coap_build m (packetbuf e) 64 rsppkt;
    if is_err rc then Some (m, None)
    else
      sent ← load_bytes m (packetbuf e) rsplen;
      Some (m, Some sent).

(** The memory the server starts a request with. *)
Record srv_pre (e : coapsrv_env) (m : mem) (data len : Z) : Prop := {
  sp_packetbuf : mapped m (packetbuf e) 64;
  sp_scratch : mapped m (scratch_raw e) 64;
  sp_hello : bytes_at m (hello e) hello_bytes;
  sp_pb_sc : disjoint (packetbuf e) 64 (scratch_raw e) 64;
  sp_pb_he : disjoint (packetbuf e) 64 (hello e) 29;
  sp_sc_he : disjoint (scratch_raw e) 64 (hello e) 29;
  sp_pb_da : disjoint (packetbuf e) 64 data len;
  sp_sc_da : disjoint (scratch_raw e) 64 data len }.

(** The message the server answers GET /hello with. *)
Definition hello_response (msg : coap_msg) : coap_msg :=
  response_msg COAP_RSPCODE_CONTENT COAP_CONTENTTYPE_TEXT_PLAIN (m_id0 msg) (m_id1 msg)
    (m_token msg) hello_bytes.

Lemma hello_response_len msg :
  zlen (enc_msg (hello_response msg)) = 37 + zlen (m_token msg).
Proof.
  unfold enc_msg, hello_response, enc_head, response_msg. simpl m_token. simpl m_opts. simpl m_payload.
  rewrite !zlen_app. change (zlen (enc_opts 0 _)) with 3. change (zlen (enc_payload _)) with 30.
  rewrite !zlen_cons, zlen_nil. lia.
Qed.

Lemma hello_response_wf msg k :
  wf_msg k msg -> wf_msg 268 (hello_response msg).
Proof.
  intros []. unfold hello_response, response_msg. constructor; simpl; try done.
  - split; [|done]. split; [done|]. split; [done|]. split; [|done].
    by apply (bool_decide_unpack (Forall is_byte _)).
  - by apply (bool_decide_unpack (Forall is_byte _)).
Qed.

Lemma endpoints_wf e : Forall (fun ep => wf_ep ep /\ is_Some (ep_handler ep)) (endpoints e).
Proof. apply Forall_singleton. split; [split; vm_compute; done|eauto]. Qed.

Definition is_get_hello (msg : coap_msg) : bool :=
  bool_decide (m_code msg = COAP_METHOD_GET /\ uri_path (m_opts msg) = [[104; 101; 108; 108; 111]]).

Lemma route_endpoints e msg :
  route msg (endpoints e) = if is_get_hello msg then Some (handle_get_hello e) else None.
Proof.
  unfold route, endpoints, is_get_hello. simpl.
  replace (serves msg _) with
    (bool_decide (m_code msg = COAP_METHOD_GET /\ uri_path (m_opts msg) = [[104; 101; 108; 108; 111]]));
    [by case_bool_decide|].
  unfold serves. apply bool_decide_ext. simpl. unfold ep_segments. simpl.
  split; [intros [-> Hu]; rewrite Hu; split_and!; done|intros (-> & _ & Hu); split; done].
Qed.

Section server.
Context (e : coapsrv_env) (m : mem) (data : Z) (msg : coap_msg).
Context (cpacket rsppkt : coap_packet_t).
Context (Hpre : srv_pre e m data (zlen (enc_msg msg))) (Hwf : wf_msg 65535 msg).
Context (Hc : zlen (pkt_opts cpacket) = MAXOPT) (Hr : zlen (pkt_opts rsppkt) = MAXOPT).
Context (Hdata : bytes_at m data (enc_msg msg)) (Hlen : zlen (enc_msg msg) <= 255).

Lemma srv_len : u8 (zlen (enc_msg msg)) = zlen (enc_msg msg).
Proof. apply u8_id. pose proof (zlen_nonneg (enc_msg msg)). lia. Qed.

(** The received packet denotes the message, and its token is in the datagram. *)
Lemma srv_parse :
exists pkt, coap_parse m cpacket data (zlen (enc_msg msg)) = Some (COAP_ERR_NONE, pkt) /\
  pkt_repr m pkt msg /\ in_packet data (zlen (enc_msg msg)) (pkt_tok pkt).
Proof.
destruct (parse_reads_enc m cpacket msg data Hwf Hc Hdata) as (pkt & Hp & _ & Hrep & _).
destruct (parse_safe m cpacket data (zlen (enc_msg msg))) as (rc & pkt' & Hp' & _ & Hok);
  [by apply bytes_at_mapped|done|].
rewrite Hp in Hp'. injection Hp' as <- <-. exists pkt. repeat split; try apply Hrep; try done.
apply (Hok eq_refl).
Qed.

Lemma in_packet_disjoint a n b :
disjoint a n data (zlen (enc_msg msg)) -> in_packet data (zlen (enc_msg msg)) b ->
disjoint a n (buf_p b) (buf_len b).
Proof. unfold in_packet, disjoint. lia. Qed.

Lemma srv_hello :
is_get_hello msg = true ->
exists m', coap_svc_callback e m cpacket rsppkt data (zlen (enc_msg msg)) true =
  Some (m', Some (enc_msg (hello_response msg))).
Proof.
intros Hget. destruct Hpre, srv_parse as (pkt & Hp & Hrep & Htok).
destruct (pr_tok _ _ _ Hrep) as [Htl Htb]. destruct (wf_token _ _ Hwf) as [Ht8 _].
unfold coap_svc_callback. rewrite srv_len, Hp. cbind. cbn [negb].
rewrite (handle_req_found m (scratch_buf e) pkt rsppkt msg (endpoints e) (handle_get_hello e) 65535);
  [|done|done|apply endpoints_wf|by rewrite route_endpoints, Hget].
pose proof (in_packet_disjoint (scratch_raw e) 64 _ sp_sc_da0 Htok) as Hd1.
pose proof (in_packet_disjoint (packetbuf e) 64 _ sp_pb_da0 Htok) as Hd2.
rewrite Htl in Hd1, Hd2. pose proof (hello_response_len msg) as Hrl.
assert (Hs : mapped m (scratch_raw e) 2) by (eapply mapped_sub; [exact sp_scratch0|lia|lia]).
assert (Hd3 : disjoint (scratch_raw e) 2 (buf_p (pkt_tok pkt)) (zlen (m_token msg)))
  by (unfold disjoint in *; lia).
assert (Hd4 : disjoint (scratch_raw e) 2 (hello e) (zlen hello_bytes))
  by (change (zlen hello_bytes) with 29; unfold disjoint in *; lia).
unfold handle_get_hello.
rewrite (make_response_spec m (scratch_buf e) rsppkt (hello e) hello_bytes (pkt_tok pkt) (m_token msg));
  try done.
cbind. set (m1 := wr m _ _).
assert (Hrep' := response_repr m (scratch_buf e) rsppkt (hello e) hello_bytes (pkt_tok pkt)
  (m_token msg) (m_id0 msg) (m_id1 msg) COAP_RSPCODE_CONTENT COAP_CONTENTTYPE_TEXT_PLAIN
  sp_hello0 Hd4 Htl Htb Hd3).
rewrite (build_writes_enc m1 (packetbuf e) 64 _ (hello_response msg)
  (hello_response_wf _ _ Hwf)).
- cbind. cbn [is_err]. rewrite bytes_at_wr. cbind. eauto.
- constructor; rewrite ?Hrl; simpl; try lia; try done.
  + apply mapped_wr. eapply mapped_sub; [exact sp_packetbuf0|lia|lia].
  + unfold src_disjoint. rewrite Htl. unfold disjoint in *. lia.
  + constructor; [|constructor]. unfold src_disjoint. simpl. unfold disjoint in *. lia.
  + unfold src_disjoint. simpl. change (zlen hello_bytes) with 29. unfold disjoint in *. lia.
Qed.

Lemma srv_other :
is_get_hello msg = false ->
coap_svc_callback e m cpacket rsppkt data (zlen (enc_msg msg)) true = None.
Proof.
intros Hget. destruct srv_parse as (pkt & Hp & Hrep & Htok).
unfold coap_svc_callback. rewrite srv_len, Hp. cbind. cbn [negb].
by rewrite (handle_req_unserved m (scratch_buf e) pkt rsppkt msg (endpoints e) 65535)
  by (done || apply endpoints_wf || by rewrite route_endpoints, Hget).
Qed.
End server.

(** C33: a well-formed GET /hello datagram of at most 255 bytes (the callback sees its
    length modulo 256) is answered with exactly the RFC 7252
    encoding of the 2.05 response: type ACK, the request's message id and token,
    content format text/plain and the greeting as payload. *)
Theorem coap_svc_callback_hello e m data msg cpacket rsppkt :
  srv_pre e m data (zlen (enc_msg msg)) -> wf_msg 65535 msg ->
  zlen (pkt_opts cpacket) = MAXOPT -> zlen (pkt_opts rsppkt) = MAXOPT ->
  bytes_at m data (enc_msg msg) -> zlen (enc_msg msg) <= 255 -> is_get_hello msg = true ->
  exists m', coap_svc_callback e m cpacket rsppkt data (zlen (enc_msg msg)) true =
    Some (m', Some (enc_msg (hello_response msg))).
Proof. apply srv_hello. Qed.

(** Any other well-formed request of at most 255 bytes runs the endpoint loop past the end of
    [endpoints], which has no NULL handler: the callback has no defined
    behaviour on it (the 4.04 branch is not reached). *)
Theorem coap_svc_callback_unserved e m data msg cpacket rsppkt :
  wf_msg 65535 msg -> zlen (pkt_opts cpacket) = MAXOPT ->
  bytes_at m data (enc_msg msg) -> zlen (enc_msg msg) <= 255 -> is_get_hello msg = false ->
  coap_svc_callback e m cpacket rsppkt data (zlen (enc_msg msg)) true = None.
Proof. apply srv_other. Qed.

(** * The client *)

Record sensor_data_t := mk_sensor { message_id : Z; sd_type : Z; sd_value : bytes; c_time : Z }.

(** The [float] value is kept as its four bytes.  Returns the reading the
    response line prints, if the packet is one.  [packetlen] is an [uint8_t]. *)
Definition coap_response_cb (m : mem) (cpacket : coap_packet_t) (data len now : Z)
  : option (option sensor_data_t) :=
  let packetlen := u8 len in
  '(rc, cpacket) ← coap_parse m cpacket data packetlen;
  if negb (is_err rc) && (0 <? buf_len (pkt_payload cpacket)) then
    value ← load_bytes m (buf_p (pkt_payload cpacket)) 4;
    Some (Some (mk_sensor
      (u16 (hdr_id1 (pkt_hdr cpacket) + (hdr_id0 (pkt_hdr cpacket) .<< 8))) 0x0a value (u64 now)))
  else Some None.

(** The static parts of [coapcli_worker]'s request; [mytoken] and [temp] are the
    addresses of its token byte and of the string "temp". *)
Definition coapcli_request (pkt : coap_packet_t) (mytoken temp : Z) : option coap_packet_t :=
  opts ← zupd (pkt_opts pkt) 0 (mk_option COAP_OPTION_URI_PATH (mk_buffer temp 4));
  Some (mk_packet
    (mk_header 1 COAP_TYPE_CON 1 COAP_METHOD_GET (hdr_id0 (pkt_hdr pkt)) (hdr_id1 (pkt_hdr pkt)))
    (mk_buffer mytoken 1) 1 opts (mk_buffer (buf_p (pkt_payload pkt)) 0)).

Definition set_id (pkt : coap_packet_t) (id0 id1 : Z) : coap_packet_t :=
  mk_packet
    (mk_header (hdr_ver (pkt_hdr pkt)) (hdr_t (pkt_hdr pkt)) (hdr_tkl (pkt_hdr pkt))
       (hdr_code (pkt_hdr pkt)) (u8 id0) (u8 id1))
    (pkt_tok pkt) (pkt_numopts pkt) (pkt_opts pkt) (pkt_payload pkt).

(** The request loop; [rands] are the pairs [rand] returns, one per iteration,
    and [rsplen] is carried from one build to the next as in the source. *)
Fixpoint coapcli_loop (m : mem) (packetbuf rsplen : Z) (pkt : coap_packet_t)
    (rands : list (Z * Z)) : option (mem * list bytes) :=
  match rands with
  | [] => Some (m, [])
  | (r0, r1) :: rands' =>
      let pkt := set_id pkt r0 r1 in
      '(rc, m, rsplen) ← coap_build m packetbuf rsplen pkt;
      if is_err rc then coapcli_loop m packetbuf rsplen pkt rands'
      else
        sent ← load_bytes m packetbuf rsplen;
        '(m, out) ← coapcli_loop m packetbuf rsplen pkt rands';
        Some (m, sent :: out)
  end.

Definition coapcli_worker (m : mem) (packetbuf mytoken temp : Z) (pkt : coap_packet_t)
    (rands : list (Z * Z)) : option (mem * list bytes) :=
  m ← store m mytoken 0x01;
  pkt ← coapcli_request pkt mytoken temp;
  coapcli_loop m packetbuf 32 pkt rands.

(** "temp" *)
Definition temp_bytes : bytes := [116; 101; 109; 112].

(** The confirmable GET /temp with token 01 and the given message id. *)
Definition temp_request (r : Z * Z) : coap_msg :=
  mk_msg COAP_TYPE_CON COAP_METHOD_GET (u8 r.1) (u8 r.2) [1] [(COAP_OPTION_URI_PATH, temp_bytes)] [].

Lemma temp_request_wf r : wf_msg 268 (temp_request r).
Proof.
  constructor; simpl; try done; unfold is_byte; try apply u8_range.
  - split; [done|]. repeat constructor; unfold is_byte; lia.
  - split; [|done]. split; [done|]. split; [done|]. split; [|done].
    by apply (bool_decide_unpack (Forall is_byte _)).
  - constructor.
Qed.

Lemma temp_request_len r : zlen (enc_msg (temp_request r)) = 10.
Proof. done. Qed.

Section client.
Context (packetbuf mytoken temp : Z).
Context (Htok : disjoint packetbuf 32 mytoken 1) (Htemp : disjoint packetbuf 32 temp 4).

Lemma coapcli_loop_sends rands : forall m rsplen pkt id0 id1 p opts,
mapped m packetbuf 32 -> bytes_at m mytoken [1] -> bytes_at m temp temp_bytes ->
10 <= rsplen <= 32 ->
pkt = mk_packet (mk_header 1 COAP_TYPE_CON 1 COAP_METHOD_GET id0 id1) (mk_buffer mytoken 1) 1
        (mk_option COAP_OPTION_URI_PATH (mk_buffer temp 4) :: opts) (mk_buffer p 0) ->
exists m', coapcli_loop m packetbuf rsplen pkt rands =
  Some (m', map (fun r => enc_msg (temp_request r)) rands).
Proof.
induction rands as [|[r0 r1] rands IH]; intros m rsplen pkt id0 id1 p opts Hm Ht Hp Hl ->;
  simpl; [eauto|].
set (r := (r0, r1)).
rewrite (build_writes_enc m packetbuf rsplen _ (temp_request r) (temp_request_wf r)).
2: { constructor; rewrite ?temp_request_len; try (simpl; lia); try done.
     - constructor; try done. simpl. constructor; [|done]. by repeat split.
     - simpl. change (zlen [1]) with 1. lia.
     - simpl. change (zlen [1]) with 1. split; [lia|done].
     - eapply mapped_sub; [exact Hm|lia|lia].
     - unfold src_disjoint. simpl. unfold disjoint in *. lia.
     - simpl. constructor; [|constructor]. unfold src_disjoint. simpl. unfold disjoint in *. lia.
     - unfold src_disjoint, disjoint. simpl. lia. }
cbind. cbn [is_err]. rewrite bytes_at_wr. cbind. rewrite temp_request_len.
assert (Hother : forall a bs, bytes_at m a bs -> disjoint packetbuf 32 a (zlen bs) ->
  bytes_at (wr m packetbuf (enc_msg (temp_request r))) a bs).
{ intros a bs Hb Hd. unfold bytes_at. rewrite load_bytes_wr_disjoint; [done|].
  rewrite temp_request_len. unfold disjoint in *. lia. }
edestruct (IH (wr m packetbuf (enc_msg (temp_request r))) 10) as [m' ->];
  [by apply mapped_wr|by apply Hother|by apply Hother|lia|done|]. cbind. eauto.
Qed.
End client.

(** the client sends one request per iteration, each the encoding of GET
    /temp with that iteration's message id, although the buffer length it passes
    to [coap_build] is the previous message's length from the second iteration
    on. *)
Theorem coapcli_worker_sends m packetbuf mytoken temp pkt rands :
  mapped m packetbuf 32 -> is_Some (m !! mytoken) -> bytes_at m temp temp_bytes ->
  disjoint packetbuf 32 mytoken 1 -> disjoint packetbuf 32 temp 4 -> disjoint mytoken 1 temp 4 ->
  zlen (pkt_opts pkt) = MAXOPT ->
  exists m', coapcli_worker m packetbuf mytoken temp pkt rands =
    Some (m', map (fun r => enc_msg (temp_request r)) rands).
Proof.
  intros Hm Ht Hp Hd1 Hd2 Hd3 Ho. unfold coapcli_worker, coapcli_request.
  rewrite store_mapped by done. cbind. destruct (pkt_opts pkt) as [|o opts]; [done|].
  rewrite zupd_in_range by (rewrite Ho; done). cbind. simpl insert.
  eapply coapcli_loop_sends; try done.
  - by apply mapped_wr.
  - apply bytes_at_wr.
  - unfold bytes_at. by rewrite load_bytes_wr_disjoint.
Qed.

(** The response callback reads four payload bytes whatever the payload's
    length: on a datagram whose payload has one to three bytes and ends the
    mapped memory its behaviour is undefined, and on one with four or more it
    records the message id and the first four bytes. *)
Theorem coap_response_cb_payload m cpacket data now msg :
  wf_msg 65535 msg -> zlen (pkt_opts cpacket) = MAXOPT -> bytes_at m data (enc_msg msg) ->
  zlen (enc_msg msg) <= 255 -> (forall i, data + zlen (enc_msg msg) <= i -> m !! i = None) -> m_payload msg <> [] ->
  coap_response_cb m cpacket data (zlen (enc_msg msg)) now =
    if zlen (m_payload msg) <? 4 then None
    else Some (Some (mk_sensor (m_id0 msg * 256 + m_id1 msg) 0x0a (take 4 (m_payload msg)) (u64 now))).
Proof.
  intros Hwf Ho Hb H255 Hend Hne.
  destruct (parse_reads_enc m cpacket msg data Hwf Ho Hb) as (pkt & Hp & _ & Hrep & Hpe).
  destruct (pr_payload _ _ _ Hrep) as [Hl Hat]. specialize (Hpe Hne).
  unfold coap_response_cb. rewrite u8_id by (pose proof (zlen_nonneg (enc_msg msg)); lia). rewrite Hp. cbind. cbn [is_err negb andb].
  rewrite Hl. assert (0 < zlen (m_payload msg)).
  { destruct (m_payload msg) as [|b l]; [done|]. rewrite zlen_cons. pose proof (zlen_nonneg l). lia. }
  zif_true. zif.
  - destruct (load_bytes m (buf_p (pkt_payload pkt)) 4) as [bs|] eqn:E; [|done].
    pose proof (load_bytes_zlen _ _ 4 _ ltac:(lia) E).
    pose proof (load_n_lookup m (buf_p (pkt_payload pkt)) (Z.to_nat 4) bs 3 E ltac:(lia)) as Hlk.
    destruct (znth_in_range bs 3) as [x Hx]; [lia|]. rewrite Hx, Hend in Hlk by lia. done.
  - rewrite <- (take_drop 4 (m_payload msg)) in Hat. apply bytes_at_app in Hat as [Hat _].
    unfold bytes_at in Hat. replace (zlen (take 4 (m_payload msg))) with 4 in Hat
      by (unfold zlen in *; rewrite length_take; lia).
    rewrite Hat. cbind. rewrite (pr_id0 _ _ _ Hrep), (pr_id1 _ _ _ Hrep).
    pose proof (wf_id0 _ _ Hwf). pose proof (wf_id1 _ _ Hwf). unfold is_byte in *.
    rewrite Z.shiftl_mul_pow2 by lia. rewrite u16_id by lia. do 3 f_equal; lia.
Qed.

(** * Witnesses *)

(** GET /hello, message id 1234, token AA. *)
Definition ex_hello : coap_msg :=
  mk_msg 0 1 0x12 0x34 [0xAA] [(11, [104; 101; 108; 108; 111])] [].
Definition ex_env : coapsrv_env := mk_env 1000 1100 1200.
Definition ex_srv_mem : mem :=
  wr (wr (wr (wr ∅ 1000 (replicate 64 0)) 1100 (replicate 64 0)) 1200 hello_bytes)
    1300 (enc_msg ex_hello).

Lemma ex_hello_wf opts : opts = [(11, [104; 101; 108; 108; 111])] \/ opts = [] ->
  wf_msg 65535 (mk_msg 0 1 0x12 0x34 [0xAA] opts []).
Proof.
  intros [-> | ->]; constructor; simpl; unfold is_byte, all_bytes; try done;
    repeat first [split | constructor | done | (unfold is_byte; lia)].
Qed.

Lemma mapped_wr_zeros m a n : mapped (wr m a (replicate n 0)) a (Z.of_nat n).
Proof.
  pose proof (bytes_at_mapped _ _ _ (bytes_at_wr m a (replicate n 0))) as H.
  unfold zlen in H. by rewrite length_replicate in H.
Qed.

Lemma ex_srv_pre : srv_pre ex_env ex_srv_mem 1300 (zlen (enc_msg ex_hello)).
Proof.
  constructor; try (unfold disjoint; vm_compute; intuition done).
  - apply mapped_wr, mapped_wr, mapped_wr, (mapped_wr_zeros ∅ 1000 64).
  - apply mapped_wr, mapped_wr, (mapped_wr_zeros _ 1100 64).
Qed.

Lemma coap_svc_callback_hello_witness :
  exists m', coap_svc_callback ex_env ex_srv_mem ex_blank ex_blank 1300 (zlen (enc_msg ex_hello)) true =
    Some (m', Some (enc_msg (hello_response ex_hello))).
Proof.
  apply coap_svc_callback_hello;
    [apply ex_srv_pre|apply ex_hello_wf; by left|reflexivity|reflexivity|apply bytes_at_wr|vm_compute; discriminate|reflexivity].
Defined.

Lemma coap_svc_callback_unserved_witness :
  coap_svc_callback ex_env (wr ∅ 1300 (enc_msg (mk_msg 0 1 0x12 0x34 [0xAA] [] []))) ex_blank ex_blank 1300
    (zlen (enc_msg (mk_msg 0 1 0x12 0x34 [0xAA] [] []))) true = None.
Proof.
  apply (coap_svc_callback_unserved _ _ _ (mk_msg 0 1 0x12 0x34 [0xAA] [] []));
    [apply ex_hello_wf; by right|reflexivity|apply bytes_at_wr|vm_compute; discriminate|reflexivity].
Defined.

Lemma coapcli_worker_sends_witness :
  exists m', coapcli_worker (wr (wr (wr ∅ 10 [9]) 20 temp_bytes) 100 (replicate 32 0)) 100 10 20 ex_blank
      [(1, 2); (259, 4)] =
    Some (m', [[0x41; 1; 1; 2; 1; 0xB4; 116; 101; 109; 112]; [0x41; 1; 3; 4; 1; 0xB4; 116; 101; 109; 112]]).
Proof.
  apply (coapcli_worker_sends _ 100 10 20 ex_blank [(1, 2); (259, 4)]);
    try (unfold disjoint; vm_compute; intuition done).
  - apply (mapped_wr_zeros _ 100 32).
  - vm_compute. eauto.
Defined.

Lemma coap_response_cb_payload_witness :
  coap_response_cb (wr ∅ 300 (enc_msg ex_msg)) ex_blank 300 (zlen (enc_msg ex_msg)) 77 = None.
Proof.
  apply (coap_response_cb_payload _ _ _ 77 ex_msg);
    [apply ex_msg_wf; lia|reflexivity|apply bytes_at_wr|vm_compute; discriminate| |discriminate].
  intros i Hi. rewrite wr_outside by lia. apply lookup_empty.
Defined.
