(* ===== verification/DateTime.v ===== *)
(** Calendar conversion, src/pus/lib/datetime/datetime.c: the C functions with
    their unsigned arithmetic, a Gregorian calendar as a specification (days
    counted one by one from 1970-01-01), and their agreement. *)
From S2P Require Import Prelude.

(** * The C functions *)

Record DateTime := mk_datetime {
  year : Z; month : Z; day : Z; dayOfWeek : Z;
  hours : Z; minutes : Z; seconds : Z; milliseconds : Z }.

Definition computeDayOfWeek (y m d : Z) : Z :=
  let '(m, y) := if m <=? 2 then (u8 (m + 12), u16 (y - 1)) else (m, y) in
  let j := u8 (y / 100) in
  let k := u8 (y mod 100) in
  let h := u8 (d + 26 * (m + 1) / 10 + k + k / 4 + 5 * j + j / 4) in
  u8 ((h + 5) mod 7 + 1).

Definition convertUnixTimeToDate (t : Z) : DateTime :=
  let t := if t <? 1 then 0 else t in
  let seconds := t mod 60 in
  let t := t / 60 in
  let minutes := t mod 60 in
  let t := t / 60 in
  let hours := t mod 24 in
  let t := t / 24 in
  let a := u32 (u64 (u64 (4 * t + 102032) / 146097 + 15)) in
  let b := u32 (u64 (t + 2442113 + a - a / 4)) in
  let c := u32 (u32 (20 * b) - 2442) / 7305 in
  let d := u32 (u32 (b - u32 (365 * c)) - c / 4) in
  let e := u32 (d * 1000) / 30601 in
  let f := u32 (u32 (d - u32 (e * 30)) - u32 (e * 601) / 1000) in
  let '(c, e) := if e <=? 13 then (u32 (c - 4716), u32 (e - 1))
                 else (u32 (c - 4715), u32 (e - 13)) in
  mk_datetime (u16 c) (u8 e) (u8 f) (computeDayOfWeek (u16 c) (u8 e) (u8 f))
    (u8 hours) (u8 minutes) (u8 seconds) 0.

(** * The calendar *)

Definition is_leap (y : Z) : bool :=
  (y mod 4 =? 0) && (negb (y mod 100 =? 0) || (y mod 400 =? 0)).

Definition month_len (y m : Z) : Z :=
  if m =? 2 then (if is_leap y then 29 else 28)
  else if (m =? 4) || (m =? 6) || (m =? 9) || (m =? 11) then 30 else 31.

Definition date := (Z * Z * Z)%type.

Definition valid_date (x : date) : Prop :=
  let '(y, m, d) := x in 1970 <= y /\ 1 <= m <= 12 /\ 1 <= d <= month_len y m.

Definition next_day (x : date) : date :=
  let '(y, m, d) := x in
  if d <? month_len y m then (y, m, d + 1)
  else if m <? 12 then (y, m + 1, 1)
  else (y + 1, 1, 1).

(** The date [n] days after 1970-01-01. *)
Definition civil (n : nat) : date := Nat.iter n next_day (1970, 1, 1).

(** 1970-01-01 is a Thursday; Monday is 1. *)
Definition weekday (n : Z) : Z := (n + 3) mod 7 + 1.

(** * Counting days in closed form *)

Definition before_month (m : Z) : Z :=
  if m =? 1 then 0 else if m =? 2 then 31 else if m =? 3 then 59 else if m =? 4 then 90
  else if m =? 5 then 120 else if m =? 6 then 151 else if m =? 7 then 181 else if m =? 8 then 212
  else if m =? 9 then 243 else if m =? 10 then 273 else if m =? 11 then 304 else 334.

Definition before_year (y : Z) : Z :=
  365 * (y - 1970) + (y - 1) / 4 - (y - 1) / 100 + (y - 1) / 400 - 477.

Definition day_number (x : date) : Z :=
  let '(y, m, d) := x in
  before_year y + before_month m + (if (2 <? m) && is_leap y then 1 else 0) + (d - 1).

Lemma is_leap_spec y :
  is_leap y = true /\ y mod 4 = 0 /\ (y mod 100 <> 0 \/ y mod 400 = 0) \/
  is_leap y = false /\ (y mod 4 <> 0 \/ y mod 100 = 0 /\ y mod 400 <> 0).
Proof. unfold is_leap. lia. Qed.

Lemma before_year_succ y : before_year (y + 1) = before_year y + (if is_leap y then 366 else 365).
Proof. unfold before_year. destruct (is_leap_spec y) as [[-> ?]|[-> ?]]; lia. Qed.

Ltac months m :=
  let H := fresh in
  assert (H : m = 1 \/ m = 2 \/ m = 3 \/ m = 4 \/ m = 5 \/ m = 6 \/ m = 7 \/ m = 8 \/ m = 9 \/
              m = 10 \/ m = 11 \/ m = 12) by lia;
  repeat (destruct H as [H|H]; [rewrite H in *|]); [..|rewrite H in *].

Lemma before_month_succ y m : 1 <= m < 12 ->
  before_month (m + 1) + (if (2 <? m + 1) && is_leap y then 1 else 0) =
  before_month m + (if (2 <? m) && is_leap y then 1 else 0) + month_len y m.
Proof.
  intros Hm. unfold month_len. destruct (is_leap y); months m; try lia; reflexivity.
Qed.

Lemma month_len_range y m : 28 <= month_len y m <= 31.
Proof. unfold month_len. zifs; lia. Qed.

Lemma next_day_valid x : valid_date x -> valid_date (next_day x).
Proof.
  destruct x as [[y m] d]. simpl. intros (Hy & Hm & Hd). pose proof (month_len_range y (m + 1)).
  pose proof (month_len_range (y + 1) 1). zifs; simpl; lia.
Qed.

Lemma next_day_number x : valid_date x -> day_number (next_day x) = day_number x + 1.
Proof.
  destruct x as [[y m] d]. simpl. intros (Hy & Hm & Hd).
  destruct (d <? month_len y m) eqn:E; zbool; [simpl; lia|].
  destruct (m <? 12) eqn:E2; zbool; simpl.
  - pose proof (before_month_succ y m ltac:(lia)). lia.
  - assert (m = 12) as -> by lia. rewrite before_year_succ.
    replace (month_len y 12) with 31 in * by done.
    change (before_month 12) with 334. change (before_month 1) with 0.
    change (2 <? 1) with false. change (2 <? 12) with true. simpl. destruct (is_leap y); lia.
Qed.

Lemma civil_spec n : valid_date (civil n) /\ day_number (civil n) = Z.of_nat n.
Proof.
  unfold civil. induction n as [|n [IH1 IH2]]; simpl.
  - split; [unfold month_len; simpl; lia|reflexivity].
  - split; [by apply next_day_valid|]. rewrite next_day_number by done. lia.
Qed.

Lemma before_year_mono y y' : y < y' -> before_year (y + 1) <= before_year y'.
Proof. unfold before_year. lia. Qed.

Definition in_year (y m d : Z) : Z :=
  before_month m + (if (2 <? m) && is_leap y then 1 else 0) + (d - 1).

Lemma in_year_range y m d : 1 <= m <= 12 -> 1 <= d <= month_len y m ->
  0 <= in_year y m d < (if is_leap y then 366 else 365).
Proof.
  intros Hm. unfold in_year, month_len. destruct (is_leap y); months m; cbn; lia.
Qed.

Lemma in_year_inj y m d m' d' :
  1 <= m <= 12 -> 1 <= d <= month_len y m -> 1 <= m' <= 12 -> 1 <= d' <= month_len y m' ->
  in_year y m d = in_year y m' d' -> m = m' /\ d = d'.
Proof.
  assert (Hlt : forall a b da db, 1 <= a < b -> b <= 12 -> 1 <= da <= month_len y a ->
    1 <= db <= month_len y b -> in_year y a da < in_year y b db).
  { intros a b da db Ha Hb Hda Hdb.
    assert (Hstart : in_year y (a + 1) 1 <= in_year y b 1).
    { clear Hda Hdb. unfold in_year.
      destruct (is_leap y); months a; months b; first [lia | by vm_compute]. }
    unfold in_year in *. pose proof (before_month_succ y a ltac:(lia)). lia. }
  intros Hm Hd Hm' Hd' He. destruct (Z.lt_trichotomy m m') as [?|[<-|?]].
  - pose proof (Hlt m m' d d' ltac:(lia) ltac:(lia) Hd Hd'). lia.
  - unfold in_year in He. lia.
  - pose proof (Hlt m' m d' d ltac:(lia) ltac:(lia) Hd' Hd). lia.
Qed.

Lemma day_number_in_year y m d : day_number (y, m, d) = before_year y + in_year y m d.
Proof. unfold day_number, in_year. lia. Qed.

Lemma day_number_inj x x' : valid_date x -> valid_date x' -> day_number x = day_number x' -> x = x'.
Proof.
  destruct x as [[y m] d], x' as [[y' m'] d']. intros (_ & Hm & Hd) (_ & Hm' & Hd').
  rewrite !day_number_in_year. intros He.
  pose proof (in_year_range y m d Hm Hd). pose proof (in_year_range y' m' d' Hm' Hd').
  pose proof (before_year_succ y). pose proof (before_year_succ y').
  destruct (Z.lt_trichotomy y y') as [Hlt|[<-|Hlt]].
  - pose proof (before_year_mono y y' Hlt). lia.
  - destruct (in_year_inj y m d m' d') as [-> ->]; (done || lia).
  - pose proof (before_year_mono y' y Hlt). lia.
Qed.

(** * The conversion *)

(** The days that the C function's year fits in 16 bits for: up to 65535-12-31. *)
Definition max_days : Z := 23217004.

(** The conversion without the wraps, from the day number on. *)
Definition date_of_days (t : Z) : date :=
  let a := (4 * t + 102032) / 146097 + 15 in
  let b := t + 2442113 + a - a / 4 in
  let c := (20 * b - 2442) / 7305 in
  let d := b - 365 * c - c / 4 in
  let e := d * 1000 / 30601 in
  let f := d - e * 30 - e * 601 / 1000 in
  if e <=? 13 then (c - 4716, e - 1, f) else (c - 4715, e - 13, f).

(** The century, the March-based year [c - 4716] and the day [d - 123] in it. *)
Lemma century t a b c : 0 <= t < 23217004 ->
  a = (4 * t + 102032) / 146097 + 15 ->
  b = t + 2442113 + a - a / 4 ->
  c = (20 * b - 2442) / 7305 ->
  a + 4 = (c - 4716) / 100.
Proof.
  intros Ht Ha Hb Hc.
  assert (146097 * (a - 15) <= 4 * t + 102032 < 146097 * (a - 15 + 1)) by lia.
  assert (7305 * c <= 20 * b - 2442 < 7305 * (c + 1)) by lia.
  clear Ha Hc. 
  assert (100 * (a + 4) <= c - 4716 < 100 * (a + 5)); [|lia].
  assert (4 * (a / 4) <= a < 4 * (a/4) + 4) by lia.
  lia.
Qed.
Lemma march_year t a b c d : 0 <= t < 23217004 ->
  a = (4 * t + 102032) / 146097 + 15 ->
  b = t + 2442113 + a - a / 4 ->
  c = (20 * b - 2442) / 7305 ->
  d = b - 365 * c - c / 4 ->
  t = before_year (c - 4715) - 306 + (d - 123) /\ 123 <= d <= 488 /\
  (d = 488 -> is_leap (c - 4715) = true) /\ 1969 <= c - 4716 < 65536.
Proof.
  intros Ht Ha Hb Hc Hd. pose proof (century t a b c Ht Ha Hb Hc) as Hcent.
  assert (Hq : 146097 * (a - 15) <= 4 * t + 102032 < 146097 * (a - 15 + 1)) by lia.
  assert (Hc' : 7305 * c <= 20 * b - 2442 < 7305 * (c + 1)) by lia.
  assert (H4 : (c - 4716) / 4 = c / 4 - 1179) by lia.
  assert (H400 : (c - 4716) / 400 = a / 4 + 1) by lia.
  clear Ha Hc. split; [|split; [|split]].
  - unfold before_year. replace (c - 4715 - 1) with (c - 4716) by lia. lia.
  - assert (4 * (c / 4) <= c < 4 * (c / 4) + 4) by lia. lia.
  - intros H488. destruct (is_leap_spec (c - 4715)) as [[-> ?]|[-> Hl]]; [done|exfalso].
    assert (4 * (a / 4) <= a < 4 * (a/4) + 4) by lia.
    assert (c mod 4 = 3) by lia.
    assert ((c - 4715) mod 4 = 0) by lia. destruct Hl as [?|[Hl1 Hl2]]; [lia|].
    assert (c - 4715 = 100 * (a + 5)) by lia.
    assert (a mod 4 <> 3) by lia. lia.
  - lia.
Qed.

(** Evaluate the constant subtractions and comparisons of the goal. *)
Ltac zconst :=
  repeat match goal with |- context [Zpos ?p - Zpos ?q] =>
    let v := eval vm_compute in (Zpos p - Zpos q) in change (Zpos p - Zpos q) with v end;
  cbn [Z.eqb Z.ltb Z.compare Pos.eqb Pos.compare Pos.compare_cont andb orb].

Lemma date_of_days_spec t : 0 <= t < max_days ->
  valid_date (date_of_days t) /\ day_number (date_of_days t) = t.
Proof.
  unfold max_days. intros Ht. unfold date_of_days.
  set (a := (4 * t + 102032) / 146097 + 15). set (b := t + 2442113 + a - a / 4).
  set (c := (20 * b - 2442) / 7305). set (d := b - 365 * c - c / 4).
  destruct (march_year t a b c d Ht eq_refl eq_refl eq_refl eq_refl) as (He & Hd & Hl & Hy).
  clearbody d. clearbody c. clear a b.
  set (e := d * 1000 / 30601).
  pose proof (before_year_succ (c - 4716)) as Hs. replace (c - 4716 + 1) with (c - 4715) in Hs by lia.
  assert (Hcase : e = 4 \/ e = 5 \/ e = 6 \/ e = 7 \/ e = 8 \/ e = 9 \/ e = 10 \/ e = 11 \/
    e = 12 \/ e = 13 \/ e = 14 \/ e = 15) by lia.
  assert (Hde : 30601 * e <= d * 1000 < 30601 * (e + 1)) by lia. clearbody e.
  unfold valid_date, day_number.
  assert (Hfirst : c - 4716 = 1969 -> before_year (c - 4715) = 0).
  { intros E. by replace (c - 4715) with 1970 by lia. }
  repeat (destruct Hcase as [->|Hcase]); [..|subst e];
    (match goal with |- context [?e <=? 13] =>
       first [change (e <=? 13) with true | change (e <=? 13) with false] end);
    cbv iota beta zeta; unfold month_len, before_month;
    zconst; (destruct (is_leap (c - 4716)), (is_leap (c - 4715)); lia).
Qed.

Lemma date_of_days_civil t : 0 <= t < max_days -> date_of_days t = civil (Z.to_nat t).
Proof.
  intros Ht. destruct (date_of_days_spec t Ht) as [Hv Hn].
  destruct (civil_spec (Z.to_nat t)) as [Hv' Hn']. apply day_number_inj; try done. lia.
Qed.

Lemma date_of_days_year t y m d : 0 <= t < max_days -> date_of_days t = (y, m, d) -> y < 65536.
Proof.
  intros Ht He. destruct (date_of_days_spec t Ht) as [Hv Hn]. rewrite He in Hv, Hn.
  destruct Hv as (Hy & Hm & Hd). rewrite day_number_in_year in Hn.
  pose proof (in_year_range y m d Hm Hd). unfold max_days in Ht.
  assert (before_year y < 23217004) by lia. unfold before_year in *. lia.
Qed.

(** The wraps of the C arithmetic are not reached. *)
Lemma convert_unwrapped t : 0 <= t < 86400 * max_days ->
  convertUnixTimeToDate t =
    let '(y, m, d) := date_of_days (t / 86400) in
    mk_datetime y m d (computeDayOfWeek y m d) (t / 3600 mod 24) (t / 60 mod 60) (t mod 60) 0.
Proof.
  intros Ht. unfold convertUnixTimeToDate, date_of_days.
  replace (if t <? 1 then 0 else t) with t by (zif; lia).
  replace (t / 60 / 60 / 24) with (t / 86400) by lia. replace (t / 60 / 60) with (t / 3600) by lia.
  assert (HD : 0 <= t / 86400 < max_days) by (unfold max_days in *; lia).
  pose proof (date_of_days_spec _ HD) as [Hv _]. pose proof (date_of_days_year (t / 86400)) as Hyr.
  unfold date_of_days in Hv, Hyr.
  set (D := t / 86400) in *. clearbody D. unfold max_days in HD.
  rewrite (u64_id (4 * D + 102032)) by lia. set (a := (4 * D + 102032) / 146097 + 15) in *.
  assert (Ha : 0 <= a < 1000) by lia.
  rewrite (u64_id a), (u32_id a) by lia.
  pose proof (march_year D a) as Hm.
  set (b := D + 2442113 + a - a / 4) in *. assert (Hb : 2442113 <= b < 30000000) by lia.
  rewrite (u64_id b), (u32_id b) by lia. rewrite (u32_id (20 * b)), (u32_id (20 * b - 2442)) by lia.
  set (c := (20 * b - 2442) / 7305) in *.
  destruct (Hm b c _ HD eq_refl eq_refl eq_refl eq_refl) as (_ & Hd & _ & Hy). clear Hm.
  rewrite (u32_id (365 * c)), (u32_id (b - 365 * c)), (u32_id (b - 365 * c - c / 4)) by lia.
  set (d := b - 365 * c - c / 4) in *. clearbody d. clearbody c. clear a Ha b Hb.
  rewrite (u32_id (d * 1000)) by lia. set (e := d * 1000 / 30601) in *.
  assert (He : 4 <= e <= 15) by lia.
  assert (Hf : 0 <= d - e * 30 - e * 601 / 1000 <= 31).
  { destruct (e <=? 13); destruct Hv as (_ & Hm & Hdd);
      [pose proof (month_len_range (c - 4716) (e - 1))
      |pose proof (month_len_range (c - 4715) (e - 13))]; lia. }
  clearbody e.
  rewrite (u32_id (e * 30)), (u32_id (e * 601)), (u32_id (d - e * 30)) by lia.
  rewrite (u32_id (d - e * 30 - e * 601 / 1000)) by lia.
  destruct (e <=? 13) eqn:E; zbool; cbv iota beta zeta in *;
    specialize (Hyr _ _ _ HD eq_refl).
  - rewrite (u32_id (c - 4716)), (u32_id (e - 1)), (u16_id (c - 4716)), (u8_id (e - 1)),
      (u8_id (d - _ - _)), !u8_id by lia. done.
  - rewrite (u32_id (c - 4715)), (u32_id (e - 13)), (u16_id (c - 4715)), (u8_id (e - 13)),
      (u8_id (d - _ - _)), !u8_id by lia. done.
Qed.

Lemma convert_civil t : 0 <= t < 86400 * max_days ->
  convertUnixTimeToDate t =
    let '(y, m, d) := civil (Z.to_nat (t / 86400)) in
    mk_datetime y m d (computeDayOfWeek y m d) (t / 3600 mod 24) (t / 60 mod 60) (t mod 60) 0.
Proof.
  intros Ht. rewrite convert_unwrapped by done. rewrite date_of_days_civil; [done|].
  unfold max_days in *. lia.
Qed.

(** * Day of the week *)

(** Zeller's sum without the truncation to eight bits. *)
Definition zeller_sum (y m d : Z) : Z :=
  let '(m, y) := if m <=? 2 then (m + 12, y - 1) else (m, y) in
  d + 26 * (m + 1) / 10 + y mod 100 + y mod 100 / 4 + 5 * (y / 100) + y / 100 / 4.

Lemma zeller_sum_weekday y m d : valid_date (y, m, d) ->
  (zeller_sum y m d + 5) mod 7 + 1 = weekday (day_number (y, m, d)).
Proof.
  intros (Hy & Hm & Hd). unfold zeller_sum, weekday, day_number, before_year.
  clear Hd.
  assert (Hc : forall x, x mod 100 / 4 = x / 4 - 25 * (x / 100) /\ x / 100 / 4 = x / 400) by lia.
  destruct (is_leap_spec y) as [[-> Hl]|[-> Hl]]; months m; unfold before_month; zconst;
    (match goal with |- context [?e <=? 2] =>
       first [change (e <=? 2) with true | change (e <=? 2) with false] end); cbv iota beta;
    rewrite !(proj1 (Hc _)), !(proj2 (Hc _)); clear Hc; f_equal; lia.
Qed.

Lemma computeDayOfWeek_sum y m d : valid_date (y, m, d) -> y < 10000 ->
  computeDayOfWeek y m d = (zeller_sum y m d mod 256 + 5) mod 7 + 1 /\ 0 <= zeller_sum y m d < 1024.
Proof.
  intros (Hy & Hm & Hd) Hlt. pose proof (month_len_range y m).
  unfold computeDayOfWeek, zeller_sum.
  destruct (m <=? 2) eqn:E; zbool; cbv zeta.
  - rewrite (u16_id (y - 1)), (u8_id (m + 12)), (u8_id ((y - 1) / 100)), (u8_id ((y - 1) mod 100)) by lia.
    unfold u8 at 2. rewrite u8_id by lia. lia.
  - rewrite (u8_id (y / 100)), (u8_id (y mod 100)) by lia.
    unfold u8 at 2. rewrite u8_id by lia. lia.
Qed.

Lemma zeller_sum_2000 y m d : valid_date (y, m, d) ->
  11017 <= day_number (y, m, d) < 35853 -> zeller_sum y m d < 256.
Proof.
  intros (Hy & Hm & Hd) Hr. rewrite day_number_in_year in Hr.
  pose proof (in_year_range y m d Hm Hd) as Hiy. pose proof (month_len_range y m) as Hml.
  assert (H0 : before_year 2000 = 10957) by done. assert (H1 : before_year 2068 = 35794) by done.
  assert (H2 : before_year 2069 = 36160) by done.
  assert (Hlo : 2000 <= y) by (destruct (is_leap y); unfold before_year in Hr; lia).
  assert (Hhi : y <= 2068) by (unfold before_year in Hr; lia).
  unfold zeller_sum. destruct (m <=? 2) eqn:E; zbool; [|lia].
  assert (y <> 2000).
  { intros ->. unfold in_year, before_month, month_len in *. assert (m = 1 \/ m = 2) as [-> | ->] by lia;
      simpl in *; lia. }
  destruct (decide (y = 2068)) as [->|].
  - unfold in_year, before_month, month_len in *. assert (m = 1 \/ m = 2) as [-> | ->] by lia; simpl in *; lia.
  - unfold month_len in Hd. assert (m = 1 \/ m = 2) as [-> | ->] by lia; simpl in Hd;
      [lia|destruct (is_leap y); lia].
Qed.

(** * Properties *)

(** C34: for every Unix time before the year 65536 the conversion returns the
    Gregorian date that is [t / 86400] days after 1970-01-01, counting day by
    day with leap years, and the time of day; none of the 32-bit intermediate
    results wraps. *)
Theorem convertUnixTimeToDate_civil t : 0 <= t < 86400 * max_days ->
  let x := convertUnixTimeToDate t in
  (year x, month x, day x) = civil (Z.to_nat (t / 86400)) /\
  hours x = t / 3600 mod 24 /\ minutes x = t / 60 mod 60 /\ seconds x = t mod 60 /\
  milliseconds x = 0.
Proof.
  intros Ht. rewrite (convert_civil t Ht). destruct (civil _) as [[y m] d]. done.
Qed.

(** up to the year 9999 the day of week is right exactly when Zeller's sum
    fits in the eight bits of [h]; when it does not the reduction by 256 changes
    the residue modulo 7. *)
Theorem computeDayOfWeek_correct_iff n y m d :
  civil n = (y, m, d) -> y < 10000 ->
  (computeDayOfWeek y m d = weekday (Z.of_nat n) <-> zeller_sum y m d < 256).
Proof.
  intros Hc Hlt. destruct (civil_spec n) as [Hv Hn]. rewrite Hc in Hv, Hn.
  destruct (computeDayOfWeek_sum y m d Hv Hlt) as [-> Hr].
  pose proof (zeller_sum_weekday y m d Hv) as Hz. rewrite Hn in Hz. rewrite <- Hz. lia.
Qed.

(** From 2000-03-01 to 2068-02-28 the conversion's day of week is right. *)
Theorem convertUnixTimeToDate_weekday t :
  86400 * 11017 <= t < 86400 * 35853 ->
  dayOfWeek (convertUnixTimeToDate t) = weekday (t / 86400).
Proof.
  intros Ht. rewrite convert_civil by (unfold max_days; lia).
  destruct (civil_spec (Z.to_nat (t / 86400))) as [Hv Hn].
  destruct (civil _) as [[y m] d]. simpl dayOfWeek. rewrite Z2Nat.id in Hn by lia.
  pose proof (zeller_sum_2000 y m d Hv ltac:(lia)) as Hz.
  destruct (computeDayOfWeek_sum y m d Hv) as [-> ?].
  { pose proof (zeller_sum_2000 y m d Hv ltac:(lia)). destruct Hv as (Hy & Hm & Hd).
    rewrite day_number_in_year in Hn. pose proof (in_year_range y m d Hm Hd).
    unfold before_year in Hn. lia. }
  rewrite <- Hn, <- (zeller_sum_weekday y m d Hv). lia.
Qed.

(** 1973-02-28 and 2068-02-29 are Wednesdays. *)
Example weekday_1973 :
  dayOfWeek (convertUnixTimeToDate (86400 * 1154)) = 6 /\ weekday 1154 = 3.
Proof. split; reflexivity. Qed.

Example weekday_2068 :
  dayOfWeek (convertUnixTimeToDate (86400 * 35853)) = 6 /\ weekday 35853 = 3.
Proof. split; reflexivity. Qed.

(** 2023-11-14 22:13:20 UTC, a Tuesday. *)
Example convert_2023 :
  convertUnixTimeToDate 1700000000 = mk_datetime 2023 11 14 2 22 13 20 0.
Proof. reflexivity. Qed.

(** * Witnesses *)

Lemma convertUnixTimeToDate_civil_witness :
  let x := convertUnixTimeToDate 86401 in
  (year x, month x, day x) = civil (Z.to_nat (86401 / 86400)) /\
  hours x = 86401 / 3600 mod 24 /\ minutes x = 86401 / 60 mod 60 /\ seconds x = 86401 mod 60 /\
  milliseconds x = 0.
Proof. apply (convertUnixTimeToDate_civil 86401). unfold max_days. lia. Defined.

Lemma computeDayOfWeek_correct_iff_witness :
  computeDayOfWeek 1970 2 1 = weekday (Z.of_nat 31) <-> zeller_sum 1970 2 1 < 256.
Proof. apply (computeDayOfWeek_correct_iff 31); [reflexivity|lia]. Defined.

Lemma convertUnixTimeToDate_weekday_witness :
  dayOfWeek (convertUnixTimeToDate 1700000000) = weekday (1700000000 / 86400).
Proof. apply convertUnixTimeToDate_weekday. lia. Defined.
