(* ===== verification/Plic.v ===== *)
(** The interrupt controller of src/platform/qemu-virt-riscv-rtc/plic.c and the
    interface to memory-mapped devices the platform files share.

    A device is a state with 32-bit register reads and writes at an address; a
    read may change the state (the claim register does).  The hardware is not in
    the repository, so it is a parameter: the class [Mmio] is what the drivers
    call, [Storage] what the data sheet says of plain registers. *)
From S2P Require Import Prelude.

(** * Devices *)

Class Mmio (dev : Type) := {
  reg_read : dev -> Z -> Z * dev;
  reg_write : dev -> Z -> Z -> dev }.

(** The registers at the addresses [plain] keep what is written to them. *)
Class Storage (dev : Type) `{Mmio dev} (plain : Z -> Prop) := {
  value : dev -> Z -> Z;
  read_plain : forall d a, plain a -> reg_read d a = (value d a, d);
  write_plain : forall d a b v, plain a -> plain b ->
    value (reg_write d a v) b = if decide (a = b) then u32 v else value d b;
  value_range : forall d a, 0 <= value d a < 4294967296 }.

Inductive handler_return := INT_NO_RESCHEDULE | INT_RESCHEDULE.

(** * virt.h *)

Definition IRQ_VIRTIO_BASE : Z := 1.
Definition IRQ_UART0 : Z := 10.
Definition IRQ_RTC : Z := 11.
Definition NUM_IRQS : Z := 127.
Definition PLIC_BASE : Z := 0x0c000000.
Definition RTC_BASE : Z := 0x101000.

Section plic.
Context {dev : Type} `{Mmio dev}.
(** [PERIPHERAL_BASE_VIRT], and [PLIC_HART_IDX] of the current hart. *)
Context (periph_base : Z) (hart_idx : Z).

Definition PLIC_BASE_VIRT : Z := periph_base + PLIC_BASE.
Definition RTC_BASE_VIRT : Z := periph_base + RTC_BASE.

Definition PLIC_PRIORITY (irq : Z) : Z := PLIC_BASE_VIRT + 4 + 4 * irq.
Definition PLIC_ENABLE (irq : Z) : Z := PLIC_BASE_VIRT + 0x2000 + 0x80 * hart_idx + 4 * (irq / 32).
Definition PLIC_THRESHOLD : Z := PLIC_BASE_VIRT + 0x200000 + 0x1000 * hart_idx.
Definition PLIC_COMPLETE : Z := PLIC_BASE_VIRT + 0x200004 + 0x1000 * hart_idx.
Definition PLIC_CLAIM : Z := PLIC_COMPLETE.

(** A handler acts on the device state and says whether to reschedule. *)
Definition int_handler : Type := dev -> option (handler_return * dev).

(** The table [handlers]: NUM_IRQS entries. *)
Definition handler_table : Type := list (option int_handler).

(** [*REG32(PLIC_ENABLE(vector)) &= ~(1 << (vector % 32))] *)
Definition mask_interrupt (d : dev) (vector : Z) : dev :=
let '(v, d) := reg_read d (PLIC_ENABLE vector) in
reg_write d (PLIC_ENABLE vector) (v .& .~ (1 .<< (vector mod 32))).

Definition unmask_interrupt (d : dev) (vector : Z) : dev :=
let '(v, d) := reg_read d (PLIC_ENABLE vector) in
reg_write d (PLIC_ENABLE vector) (v .| (1 .<< (vector mod 32))).

(** The body of the loop, for the vectors [i .. i + n). *)
Fixpoint plic_early_init_loop (d : dev) (i : Z) (n : nat) : dev :=
match n with
| O => d
| S n' =>
    let d := mask_interrupt d i in
    let d := reg_write d (PLIC_PRIORITY i) 1 in
    plic_early_init_loop d (i + 1) n'
end.

Definition plic_early_init (d : dev) : dev :=
let d := plic_early_init_loop d 1 (Z.to_nat (NUM_IRQS - 1)) in
reg_write d PLIC_THRESHOLD 0.

(** Without the debug assertion: a vector past the table is out of bounds. *)
Definition register_int_handler (t : handler_table) (vector : Z) (h : option int_handler)
: option handler_table := zupd t vector h.

Definition riscv_platform_irq (t : handler_table) (d : dev) : option (handler_return * dev) :=
let '(vector, d) := reg_read d PLIC_CLAIM in
if vector =? 0 then Some (INT_NO_RESCHEDULE, d)
else
  h ← znth t vector;
  '(ret, d) ← (match h with Some handler => handler d | None => Some (INT_NO_RESCHEDULE, d) end);
  Some (ret, reg_write d PLIC_COMPLETE vector).

(** The rest of the interrupt interface. *)
Definition platform_pci_int_to_vector (pci_int : Z) : Z := pci_int.

(** * Enable words *)

(** The plain registers: priorities, the enable words of the hart, threshold. *)
Definition plic_plain (a : Z) : Prop :=
PLIC_BASE_VIRT <= a < PLIC_BASE_VIRT + 4 * 1024 \/
PLIC_BASE_VIRT + 0x2000 + 0x80 * hart_idx <= a < PLIC_BASE_VIRT + 0x2000 + 0x80 * hart_idx + 0x80 \/
a = PLIC_THRESHOLD.

Context `{!Storage dev plic_plain} (Hhart : 0 <= hart_idx < 1000).

Definition enabled (d : dev) (vector : Z) : bool :=
Z.testbit (value d (PLIC_ENABLE vector)) (vector mod 32).

Lemma enable_plain v : 0 <= v < 1024 -> plic_plain (PLIC_ENABLE v).
Proof. unfold plic_plain, PLIC_ENABLE. lia. Qed.

Lemma priority_plain v : 0 <= v < 1023 -> plic_plain (PLIC_PRIORITY v).
Proof. unfold plic_plain, PLIC_PRIORITY. lia. Qed.

Lemma testbit_u32 z i : 0 <= i < 32 -> Z.testbit (u32 z) i = Z.testbit z i.
Proof. intros. unfold u32. change 4294967296 with (2 ^ 32). by rewrite Z.mod_pow2_bits_low by lia. Qed.

Lemma testbit_one k i : 0 <= k -> Z.testbit (1 .<< k) i = bool_decide (k = i).
Proof.
intros Hk. rewrite Z.shiftl_1_l. case_bool_decide as Hd.
- subst. by apply Z.pow2_bits_true.
- by apply Z.pow2_bits_false.
Qed.

Lemma plain_enable_eq u v : PLIC_ENABLE u = PLIC_ENABLE v <-> u / 32 = v / 32.
Proof. unfold PLIC_ENABLE. lia. Qed.

Lemma mask_enabled d u v : 0 <= u < 1024 -> 0 <= v < 1024 ->
enabled (mask_interrupt d u) v = if decide (u = v) then false else enabled d v.
Proof.
intros Hu Hv. unfold mask_interrupt, enabled. rewrite read_plain by (by apply enable_plain).
rewrite write_plain by (by apply enable_plain). case_decide as He.
- apply plain_enable_eq in He as Heq. rewrite testbit_u32 by lia.
  rewrite Z.land_spec, Z.lnot_spec, testbit_one by lia.
  rewrite He. case_decide; case_bool_decide; try lia; simpl; by rewrite ?andb_false_r, ?andb_true_r.
- case_decide; [subst; done|done].
Qed.

Lemma unmask_enabled d u v : 0 <= u < 1024 -> 0 <= v < 1024 ->
enabled (unmask_interrupt d u) v = if decide (u = v) then true else enabled d v.
Proof.
intros Hu Hv. unfold unmask_interrupt, enabled. rewrite read_plain by (by apply enable_plain).
rewrite write_plain by (by apply enable_plain). case_decide as He.
- apply plain_enable_eq in He as Heq. rewrite testbit_u32 by lia.
  rewrite Z.lor_spec, testbit_one by lia.
  rewrite He. case_decide; case_bool_decide; try lia; by rewrite ?orb_false_r, ?orb_true_r.
- case_decide; [subst; done|done].
Qed.
Lemma mask_value d u a : 0 <= u < 1024 -> plic_plain a -> a <> PLIC_ENABLE u ->
value (mask_interrupt d u) a = value d a.
Proof.
intros Hu Ha Hne. unfold mask_interrupt. rewrite read_plain by (by apply enable_plain).
rewrite write_plain by (done || by apply enable_plain). by rewrite decide_False by congruence.
Qed.

Lemma enable_not_priority u v : 0 <= u < 1024 -> 0 <= v < 1023 -> PLIC_ENABLE u <> PLIC_PRIORITY v.
Proof. unfold PLIC_ENABLE, PLIC_PRIORITY. lia. Qed.

Lemma enable_not_threshold u : 0 <= u < 1024 -> PLIC_ENABLE u <> PLIC_THRESHOLD.
Proof. unfold PLIC_ENABLE, PLIC_THRESHOLD. lia. Qed.

Lemma write_enabled d a x v : plic_plain a -> 0 <= v < 1024 -> a <> PLIC_ENABLE v ->
enabled (reg_write d a x) v = enabled d v.
Proof.
intros Ha Hv Hne. unfold enabled. rewrite write_plain by (done || by apply enable_plain).
by rewrite decide_False.
Qed.

Lemma early_init_loop_spec n : forall d i,
1 <= i -> i + Z.of_nat n <= 1023 ->
(forall v, 0 <= v < 1023 -> enabled (plic_early_init_loop d i n) v =
   if decide (i <= v < i + Z.of_nat n) then false else enabled d v) /\
(forall v, -1 <= v < 1023 -> value (plic_early_init_loop d i n) (PLIC_PRIORITY v) =
   if decide (i <= v < i + Z.of_nat n) then 1 else value d (PLIC_PRIORITY v)).
Proof.
assert (Hpp : forall v, -1 <= v < 1023 -> plic_plain (PLIC_PRIORITY v))
  by (intros; unfold plic_plain, PLIC_PRIORITY; lia).
assert (Hep : forall u v, 0 <= u < 1024 -> -1 <= v < 1023 -> PLIC_ENABLE u <> PLIC_PRIORITY v)
  by (intros; unfold PLIC_ENABLE, PLIC_PRIORITY; lia).
induction n as [|n IH]; intros d i Hi Hn; simpl plic_early_init_loop.
{ split; intros; by rewrite decide_False by lia. }
destruct (IH (reg_write (mask_interrupt d i) (PLIC_PRIORITY i) 1) (i + 1)) as [IH1 IH2]; [lia..|].
split; intros v Hv.
- rewrite IH1 by done. rewrite write_enabled; [|apply Hpp; lia|lia|apply not_eq_sym, Hep; lia].
  rewrite mask_enabled by lia. repeat case_decide; done || lia.
- rewrite IH2 by done. rewrite write_plain by (apply Hpp; lia).
  rewrite mask_value; [|lia|apply Hpp; lia|apply not_eq_sym, Hep; lia].
  unfold PLIC_PRIORITY. repeat case_decide; done || lia.
Qed.

(** [plic_early_init] masks every vector of the table, gives it priority 1
  and opens the threshold; the priority word of interrupt source 1 (the first
  after the reserved one) keeps its old value, because [PLIC_PRIORITY] is one
  word too high. *)
Theorem plic_early_init_masks d :
(forall v, 1 <= v < NUM_IRQS -> enabled (plic_early_init d) v = false /\
   value (plic_early_init d) (PLIC_PRIORITY v) = 1) /\
value (plic_early_init d) PLIC_THRESHOLD = 0 /\
value (plic_early_init d) (PLIC_BASE_VIRT + 4 * 1) = value d (PLIC_BASE_VIRT + 4 * 1).
Proof.
unfold plic_early_init, NUM_IRQS.
destruct (early_init_loop_spec (Z.to_nat (127 - 1)) d 1) as [H1 H2]; [lia..|].
set (d' := plic_early_init_loop d 1 _) in *.
assert (Ht : plic_plain PLIC_THRESHOLD) by (unfold plic_plain; auto).
assert (Hpt : forall v, -1 <= v < 1023 -> PLIC_THRESHOLD <> PLIC_PRIORITY v)
  by (intros; unfold PLIC_THRESHOLD, PLIC_PRIORITY; lia).
assert (Hpp : forall v, -1 <= v < 1023 -> plic_plain (PLIC_PRIORITY v))
  by (intros; unfold plic_plain, PLIC_PRIORITY; lia).
split; [|split].
- intros v Hv. split.
  + rewrite write_enabled; [|done|lia|apply not_eq_sym, enable_not_threshold; lia].
    rewrite H1 by lia. by rewrite decide_True by lia.
  + rewrite write_plain by (done || apply Hpp; lia). rewrite decide_False by (apply Hpt; lia).
    rewrite H2 by lia. by rewrite decide_True by lia.
- rewrite write_plain by done. by rewrite decide_True.
- replace (PLIC_BASE_VIRT + 4 * 1) with (PLIC_PRIORITY 0) by (unfold PLIC_PRIORITY; lia).
  rewrite write_plain by (done || apply Hpp; lia). rewrite decide_False by (apply Hpt; lia).
  rewrite H2 by lia. by rewrite decide_False by lia.
Qed.

(** [unmask_interrupt] and [mask_interrupt] set and clear the enable bit of
  their vector and of no other. *)
Theorem mask_unmask_exact d u v : 0 <= u < 1024 -> 0 <= v < 1024 ->
enabled (unmask_interrupt d u) v = (if decide (u = v) then true else enabled d v) /\
enabled (mask_interrupt d u) v = (if decide (u = v) then false else enabled d v).
Proof. intros. split; [by apply unmask_enabled|by apply mask_enabled]. Qed.
End plic.

Section dispatch.
Context {dev : Type} `{Mmio dev}.
Context (periph_base hart_idx : Z).
Implicit Types (t : @handler_table dev) (d : dev).

Lemma register_lookup t v h t' u :
register_int_handler t v h = Some t' -> znth t' u = if decide (u = v) then Some h else znth t u.
Proof.
unfold register_int_handler, zupd. destruct ((v <? 0) || (zlen t <=? v)) eqn:E; [done|].
intros [= <-]. zbool. unfold znth. case_decide as Hd.
- subst. zif_false. apply list_lookup_insert_eq. unfold zlen in *. lia.
- zif; [done|]. apply list_lookup_insert_ne. lia.
Qed.

(** C36: a claimed vector runs the handler registered last for it, once, and is
  then completed; a vector without handler is completed, vector 0 does
  nothing, and a vector past the table is an out-of-bounds access. *)
Theorem riscv_platform_irq_dispatch t t' v h d vector d' :
zlen t = NUM_IRQS -> register_int_handler t v (Some h) = Some t' ->
reg_read d (PLIC_CLAIM periph_base hart_idx) = (vector, d') -> 0 <= vector ->
riscv_platform_irq periph_base hart_idx t' d =
  if vector =? 0 then Some (INT_NO_RESCHEDULE, d')
  else if vector =? v then
    match h d' with
    | Some (ret, d2) => Some (ret, reg_write d2 (PLIC_COMPLETE periph_base hart_idx) v)
    | None => None
    end
  else if vector <? NUM_IRQS then
    match znth t vector with
    | Some (Some g) =>
        match g d' with
        | Some (ret, d2) => Some (ret, reg_write d2 (PLIC_COMPLETE periph_base hart_idx) vector)
        | None => None
        end
    | _ => Some (INT_NO_RESCHEDULE, reg_write d' (PLIC_COMPLETE periph_base hart_idx) vector)
    end
  else None.
Proof.
intros Hlen Hr Hc Hv. unfold riscv_platform_irq. rewrite Hc.
destruct (vector =? 0); [done|]. rewrite (register_lookup _ _ _ _ vector Hr).
case_decide as Hd; [subst; rewrite Z.eqb_refl|zif_false].
- cbind. by destruct (h d') as [[ret d2]|].
- destruct (vector <? NUM_IRQS) eqn:E; zbool.
  + destruct (znth_in_range t vector) as [x Hx]; [lia|]. rewrite Hx. cbind.
    destruct x as [g|]; [by destruct (g d') as [[ret d2]|]|done].
  + destruct (znth t vector) eqn:Ez; [|done]. apply znth_Some_range in Ez. lia.
Qed.
End dispatch.

(** * A register file *)

(** Registers that keep their values, with the peripherals at 0 and hart index
    1; the claim register reads [pd_claimed]. *)
Record plic_dev := mk_plic_dev { pd_claimed : Z; pd_words : gmap Z Z }.

#[export] Instance plic_dev_mmio : Mmio plic_dev := {
  reg_read d a :=
    (if a =? PLIC_CLAIM 0 1 then pd_claimed d else u32 (default 0 (pd_words d !! a)), d);
  reg_write d a v := mk_plic_dev (pd_claimed d) (<[a := u32 v]> (pd_words d)) }.

#[export] Instance plic_dev_storage : Storage plic_dev (plic_plain 0 1).
Proof.
  refine {| value d a := u32 (default 0 (pd_words d !! a)) |}.
  - intros d a Ha. simpl.
    assert (a <> PLIC_CLAIM 0 1).
    { cbv [plic_plain PLIC_BASE_VIRT PLIC_THRESHOLD PLIC_CLAIM PLIC_COMPLETE PLIC_BASE] in *. lia. }
    by zif_false.
  - intros d a b v _ _. simpl. case_decide as Hd.
    + subst. rewrite lookup_insert_eq. simpl. by rewrite u32_id by apply u32_range.
    + by rewrite lookup_insert_ne.
  - intros. apply u32_range.
Defined.

(** * Witnesses *)

Lemma plic_early_init_masks_witness :
  let d := mk_plic_dev 0 (<[PLIC_BASE + 4 := 0]> ∅) in
  (forall v, 1 <= v < NUM_IRQS -> enabled 0 1 (plic_early_init 0 1 d) v = false /\
     value (plic_early_init 0 1 d) (PLIC_PRIORITY 0 v) = 1) /\
  value (plic_early_init 0 1 d) (PLIC_THRESHOLD 0 1) = 0 /\
  value (plic_early_init 0 1 d) (PLIC_BASE_VIRT 0 + 4 * 1) = value d (PLIC_BASE_VIRT 0 + 4 * 1).
Proof. apply plic_early_init_masks. lia. Defined.

Lemma mask_unmask_exact_witness :
  let d := mk_plic_dev 0 ∅ in
  enabled 0 1 (unmask_interrupt 0 1 d 10) 10 = (if decide (10 = 10) then true else enabled 0 1 d 10) /\
  enabled 0 1 (mask_interrupt 0 1 d 10) 10 = (if decide (10 = 10) then false else enabled 0 1 d 10).
Proof. apply mask_unmask_exact; lia. Defined.

Definition ex_int_handler : @int_handler plic_dev := fun d => Some (INT_RESCHEDULE, d).

Lemma riscv_platform_irq_dispatch_witness :
  riscv_platform_irq 0 1 (<[10%nat := Some ex_int_handler]> (replicate 127 None)) (mk_plic_dev 10 ∅) =
    Some (INT_RESCHEDULE, reg_write (mk_plic_dev 10 ∅) (PLIC_COMPLETE 0 1) 10).
Proof.
  apply (riscv_platform_irq_dispatch 0 1 (replicate 127 None) _ 10 ex_int_handler _ 10 (mk_plic_dev 10 ∅));
    [reflexivity|reflexivity|reflexivity|lia].
Defined.
