(* ===== verification/Platform.v ===== *)
(** The rest of src/platform/qemu-virt-riscv-rtc: the Goldfish real-time clock
    (goldfish_rtc.c), the 16550 serial port (uart.c) and the board start-up and
    shutdown (platform.c), with the two commands that print the time
    (src/pus/app/systime, src/pus/app/ntptime).

    The devices are [Mmio] parameters; what the drivers rely on of the clock and
    of the serial port is stated as the classes [GoldfishClock] and [Uart16550],
    each with an instance that models the device. *)
From S2P Require Import Prelude CMem Plic DateTime.

(** * The real-time clock *)

Definition RTC_TIME_LOW : Z := 0x00.
Definition RTC_TIME_HIGH : Z := 0x04.
Definition RTC_ALARM_LOW : Z := 0x08.
Definition RTC_ALARM_HIGH : Z := 0x0c.
Definition RTC_IRQ_ENABLED : Z := 0x10.
Definition RTC_CLEAR_ALARM : Z := 0x14.
Definition RTC_ALARM_STATUS : Z := 0x18.
Definition RTC_CLEAR_INTERRUPT : Z := 0x1c.

(** Reading the low word latches the high word of the same instant. *)
Class GoldfishClock (dev : Type) `{Mmio dev} (base : Z) := {
  clock : dev -> Z;
  clock_range : forall d, 0 <= clock d < 18446744073709551616;
  clock_low : forall d, (reg_read d (base + RTC_TIME_LOW)).1 = clock d mod 4294967296;
  clock_high : forall d,
    (reg_read (reg_read d (base + RTC_TIME_LOW)).2 (base + RTC_TIME_HIGH)).1 = clock d / 4294967296 }.

Section rtc.
Context {dev : Type} `{Mmio dev}.
(** [RTC_BASE_VIRT], the base of the clock's registers. *)
Context (base : Z).

(** A timer callback: argument, time, device state. *)
Definition platform_timer_callback : Type := Z -> Z -> dev -> option (handler_return * dev).

Record rtc_state := mk_rtc {
system_boot_offset : Z; t_callback : option platform_timer_callback; t_arg : Z }.

Definition write_reg (d : dev) (reg v : Z) : dev := reg_write d (base + 4 * (reg / 4)) (u32 v).

Definition read_reg (d : dev) (reg : Z) : Z * dev := reg_read d (base + 4 * (reg / 4)).

Definition read_raw_time (d : dev) : Z * dev :=
let '(low, d) := read_reg d RTC_TIME_LOW in
let '(high, d) := read_reg d RTC_TIME_HIGH in
((high .<< 32) .| low, d).

(** [lk_time_t] is 32 bits wide. *)
Definition rtc_current_time (st : rtc_state) (d : dev) : Z * dev :=
let '(raw, d) := read_raw_time d in
let t := u64 (raw - system_boot_offset st) in
(u32 (t / 1000000000), d).

Definition rtc_current_time_hires (st : rtc_state) (d : dev) : Z * dev :=
let '(raw, d) := read_raw_time d in
let t := u64 (raw - system_boot_offset st) in
(t / 1000, d).

Definition rtc_irq (st : rtc_state) (d : dev) : option (handler_return * dev) :=
let d := write_reg d RTC_CLEAR_ALARM 1 in
let d := write_reg d RTC_CLEAR_INTERRUPT 1 in
match t_callback st with
| Some cb => let '(now, d) := rtc_current_time st d in cb (t_arg st) now d
| None => Some (INT_NO_RESCHEDULE, d)
end.

Definition rtc_platform_stop_timer (d : dev) : dev :=
let d := write_reg d RTC_CLEAR_ALARM 1 in
write_reg d RTC_CLEAR_INTERRUPT 1.

(** The vector passed is [RTC_BASE_VIRT], the register base. *)
Definition goldfish_rtc_early_init (hart_idx periph_base : Z) (st : rtc_state)
  (t : @handler_table dev) (d : dev) : option (rtc_state * @handler_table dev * dev) :=
let '(raw, d) := read_raw_time d in
let st := mk_rtc raw (t_callback st) (t_arg st) in
let d := rtc_platform_stop_timer d in
t ← register_int_handler t (u32 base) (Some (rtc_irq st));
let d := unmask_interrupt periph_base hart_idx d (u32 base) in
Some (st, t, write_reg d RTC_IRQ_ENABLED 1).

Definition rtc_platform_set_oneshot_timer (st : rtc_state) (d : dev)
  (callback : option platform_timer_callback) (arg interval : Z) : rtc_state * dev :=
let st := mk_rtc (system_boot_offset st) callback arg in
let '(raw, d) := read_raw_time d in
let delta := u64 (raw + u64 (interval * 1000000)) in
let d := write_reg d RTC_ALARM_HIGH (delta .>> 32) in
(st, write_reg d RTC_ALARM_LOW (delta .& 0xffffffff)).

(** datetime.c and the systime command on this clock. *)
Definition getCurrentDate (st : rtc_state) (d : dev) : DateTime * dev :=
let '(time, d) := rtc_current_time st d in
(convertUnixTimeToDate time, d).

(** Returns the epoch and the date the command prints. *)
Definition systime (st : rtc_state) (d : dev) : Z * DateTime * dev :=
let '(time_rtc, d) := rtc_current_time st d in
let '(cur_date, d) := getCurrentDate st d in
(time_rtc, cur_date, d).

Context `{!GoldfishClock dev base}.

Lemma read_raw_time_clock d : (read_raw_time d).1 = clock d.
Proof.
unfold read_raw_time, read_reg. change (4 * (RTC_TIME_LOW / 4)) with RTC_TIME_LOW.
change (4 * (RTC_TIME_HIGH / 4)) with RTC_TIME_HIGH.
pose proof (clock_low d) as Hl. pose proof (clock_high d) as Hh.
destruct (reg_read d _) as [low d1]. simpl in *. destruct (reg_read d1 _) as [high d2].
simpl in *. subst. rewrite (lor_shiftl _ _ 32) by lia. lia.
Qed.

Lemma rtc_current_time_clock st d :
(rtc_current_time st d).1 = u32 (u64 (clock d - system_boot_offset st) / 1000000000).
Proof.
unfold rtc_current_time. rewrite <- (read_raw_time_clock d). by destruct (read_raw_time d).
Qed.

(** with the boot offset at its initial zero (nothing calls
  [goldfish_rtc_early_init]) [getCurrentDate] returns the UTC calendar date
  and time of the clock's nanoseconds since 1970, as long as the seconds fit
  [lk_time_t]. *)
Theorem getCurrentDate_utc st d :
system_boot_offset st = 0 -> clock d < 4294967296 * 1000000000 ->
let s := clock d / 1000000000 in
let x := (getCurrentDate st d).1 in
(year x, month x, day x) = civil (Z.to_nat (s / 86400)) /\
hours x = s / 3600 mod 24 /\ minutes x = s / 60 mod 60 /\ seconds x = s mod 60.
Proof.
intros H0 Hlt s. unfold getCurrentDate. pose proof (rtc_current_time_clock st d) as Ht.
destruct (rtc_current_time st d) as [time d1]. simpl in *. rewrite H0, Z.sub_0_r in Ht.
pose proof (clock_range d) as Hc. rewrite u64_id, u32_id in Ht by lia. fold s in Ht. subst time.
rewrite convert_civil by (unfold max_days; subst s; lia). by destruct (civil _) as [[y m] dd].
Qed.

(** The early initialisation registers its handler under the register base
  instead of the interrupt number, which is past the handler table: it has no
  defined behaviour. *)
Theorem goldfish_rtc_early_init_oob hart_idx periph_base st t d :
zlen t = NUM_IRQS -> NUM_IRQS <= u32 base ->
goldfish_rtc_early_init hart_idx periph_base st t d = None.
Proof.
intros Hl Hb. unfold goldfish_rtc_early_init, register_int_handler, zupd.
destruct (read_raw_time d). rewrite Hl.
replace (_ || _) with true by (symmetry; rewrite orb_true_iff; lia). done.
Qed.
End rtc.

(** A clock stopped at [gc_now], with its high-word latch. *)
Record goldfish := mk_goldfish { gc_now : Z; gc_latch : Z }.

#[export] Instance goldfish_mmio : Mmio goldfish := {
  reg_read d a :=
    if a =? RTC_BASE + RTC_TIME_LOW
    then (u64 (gc_now d) mod 4294967296, mk_goldfish (gc_now d) (u64 (gc_now d) / 4294967296))
    else if a =? RTC_BASE + RTC_TIME_HIGH then (gc_latch d, d) else (0, d);
  reg_write d a v := d }.

#[export] Instance goldfish_clock : GoldfishClock goldfish RTC_BASE.
Proof.
  refine {| clock d := u64 (gc_now d) |}; [intros; apply u64_range|done|done].
Defined.

(** * The serial port *)

Definition UART0_BASE : Z := 0x10000000.
Definition RXBUF_SIZE : Z := 128.

Section uart.
Context {dev cbuf : Type} `{Mmio dev}.
Context (base : Z).
(** lib/cbuf: write a character (dropped when full); read one if there is any. *)
Context (cbuf_write_char : cbuf -> Z -> cbuf) (cbuf_read_char : cbuf -> option (Z * cbuf)).

Definition uart_read_8 (d : dev) (offset : Z) : Z * dev :=
let '(v, d) := reg_read d (base + offset) in (u8 v, d).

Definition uart_write_8 (d : dev) (offset v : Z) : dev := reg_write d (base + offset) (u8 v).

(** [fuel] bounds the number of iterations; [None] when it runs out. *)
Fixpoint uart_irq_loop (fuel : nat) (d : dev) (buf : cbuf) (resched : bool)
: option (bool * cbuf * dev) :=
match fuel with
| O => None
| S fuel' =>
    let '(lsr, d) := uart_read_8 d 5 in
    if lsr .& (1 .<< 0) =? 0 then Some (resched, buf, d)
    else
      let '(c, d) := uart_read_8 d 0 in
      uart_irq_loop fuel' d (cbuf_write_char buf c) true
end.

Definition uart_irq_handler (fuel : nat) (d : dev) (buf : cbuf)
: option (handler_return * cbuf * dev) :=
'(resched, buf, d) ← uart_irq_loop fuel d buf false;
Some (if (resched : bool) then INT_RESCHEDULE else INT_NO_RESCHEDULE, buf, d).

(** The wait loop of [uart_putc]. *)
Fixpoint uart_putc (fuel : nat) (d : dev) (c : Z) : option dev :=
match fuel with
| O => None
| S fuel' =>
    let '(lsr, d) := uart_read_8 d 5 in
    if lsr .& (1 .<< 6) =? 0 then uart_putc fuel' d c else Some (uart_write_8 d 0 c)
end.

(** Returns -1 when there is nothing to read. *)
Definition uart_getc (buf : cbuf) : Z * option Z * cbuf :=
match cbuf_read_char buf with Some (c, buf) => (1, Some c, buf) | None => (-1, None, buf) end.

Definition platform_dputc (fuel : nat) (d : dev) (c : Z) : option dev :=
d ← (if c =? 10 then uart_putc fuel d 13 else Some d);
uart_putc fuel d c.

Definition platform_dgetc (buf : cbuf) : Z * option Z * cbuf := uart_getc buf.

Definition platform_pgetc (d : dev) : Z * option Z * dev :=
let '(lsr, d) := uart_read_8 d 5 in
if lsr .& (1 .<< 0) =? 0 then (-1, None, d)
else let '(c, d) := uart_read_8 d 0 in (0, Some c, d).

(** [irq] is [uart_irq_handler] on the receive buffer [cbuf_initialize_etc] sets up. *)
Definition uart_init (periph_base hart_idx : Z) (irq : int_handler) (t : @handler_table dev) (d : dev)
: option (@handler_table dev * dev) :=
t ← register_int_handler t IRQ_UART0 (Some irq);
let d := uart_write_8 d 1 0x1 in
Some (t, unmask_interrupt periph_base hart_idx d IRQ_UART0).

(** Printing a string character by character. *)
Fixpoint dputs (fuel : nat) (d : dev) (s : bytes) : option dev :=
match s with
| [] => Some d
| c :: s' => d ← platform_dputc fuel d c; dputs fuel d s'
end.
End uart.

(** What the driver relies on of the 16550: the line status register says
    whether a received byte waits and whether the transmitter is free (it is
    within [max_busy] polls), reading the data register takes the oldest byte,
    writing it appends to the line. *)
Class Uart16550 (dev : Type) `{Mmio dev} (base : Z) := {
  rx : dev -> bytes;
  tx : dev -> bytes;
  busy : dev -> nat;
  max_busy : nat;
  rx_bytes : forall d, all_bytes (rx d);
  busy_bound : forall d, (busy d <= max_busy)%nat;
  lsr_read : forall d, exists v d', reg_read d (base + 5) = (v, d') /\
    Z.testbit v 0 = negb (bool_decide (rx d = [])) /\
    Z.testbit v 6 = bool_decide (busy d = 0%nat) /\
    rx d' = rx d /\ tx d' = tx d /\ busy d' = pred (busy d);
  data_read : forall d b bs, rx d = b :: bs -> exists d', reg_read d (base + 0) = (b, d') /\
    rx d' = bs /\ tx d' = tx d;
  data_write : forall d v, rx (reg_write d (base + 0) v) = rx d /\
    tx (reg_write d (base + 0) v) = tx d ++ [u8 v] }.

(** Line ends are sent as carriage return, line feed. *)
Definition crlf (s : bytes) : bytes := c ← s; if c =? 10 then [13; 10] else [u8 c].

Section uart_facts.
Context {dev : Type} `{Uart16550 dev base}.

Lemma land_bit v n : 0 <= n -> (v .& (1 .<< n) =? 0) = negb (Z.testbit v n).
Proof.
intros Hn. destruct (Z.testbit v n) eqn:E; simpl.
- apply Z.eqb_neq. intros Hz.
  assert (Hb : Z.testbit (v .& (1 .<< n)) n = false) by (rewrite Hz; apply Z.bits_0).
  rewrite Z.land_spec, E, testbit_one in Hb by done. by rewrite bool_decide_true in Hb.
- apply Z.eqb_eq. apply Z.bits_inj'. intros i Hi.
  rewrite Z.land_spec, testbit_one, Z.bits_0 by done. case_bool_decide; [subst; by rewrite E|].
  apply andb_false_r.
Qed.

Lemma u8_bit v n : 0 <= n < 8 -> Z.testbit (u8 v) n = Z.testbit v n.
Proof. intros. unfold u8. change 256 with (2 ^ 8). by rewrite Z.mod_pow2_bits_low by lia. Qed.

Lemma lsr_read8 d : exists v d', uart_read_8 base d 5 = (v, d') /\
(v .& (1 .<< 0) =? 0) = bool_decide (rx d = []) /\
(v .& (1 .<< 6) =? 0) = negb (bool_decide (busy d = 0%nat)) /\
rx d' = rx d /\ tx d' = tx d /\ busy d' = pred (busy d).
Proof.
destruct (lsr_read d) as (v & d' & Hr & Hb0 & Hb6 & Hrest). exists (u8 v), d'.
unfold uart_read_8. rewrite Hr. split; [done|].
rewrite !land_bit, !u8_bit, Hb0, Hb6 by lia. rewrite negb_involutive. done.
Qed.

Lemma uart_irq_loop_spec {cbuf} (cbuf_write_char : cbuf -> Z -> cbuf) bs : forall fuel d buf r,
rx d = bs -> (length bs < fuel)%nat ->
exists d', uart_irq_loop base cbuf_write_char fuel d buf r =
  Some (r || negb (bool_decide (bs = [])), foldl cbuf_write_char buf bs, d') /\
  rx d' = [] /\ tx d' = tx d.
Proof.
induction bs as [|b bs IH]; intros fuel d buf r Hrx Hf; (destruct fuel as [|fuel]; [lia|]); simpl;
  destruct (lsr_read8 d) as (v & d1 & -> & -> & _ & H1 & H2 & _); rewrite Hrx in *.
- rewrite bool_decide_true by done. exists d1. by rewrite orb_false_r.
- rewrite bool_decide_false by done.
  destruct (data_read d1 b bs H1) as (d2 & Hr & H3 & H4). unfold uart_read_8 at 1.
  rewrite Hr. pose proof (rx_bytes d1) as Hb. rewrite H1 in Hb.
  rewrite (u8_id b) by (by apply Forall_cons_1 in Hb as [? _]).
  destruct (IH fuel d2 (cbuf_write_char buf b) true H3) as (d' & -> & ? & ?); [simpl in Hf; lia|].
  exists d'. rewrite orb_true_r. split; [done|]. split; [done|congruence].
Qed.

Lemma uart_putc_spec n : forall fuel d c, busy d = n -> (n < fuel)%nat ->
exists d', uart_putc base fuel d c = Some d' /\ rx d' = rx d /\ tx d' = tx d ++ [u8 c].
Proof.
induction n as [|n IH]; intros fuel d c Hb Hf; (destruct fuel as [|fuel]; [lia|]); simpl;
  destruct (lsr_read8 d) as (v & d1 & -> & _ & -> & H1 & H2 & H3); rewrite Hb in *.
- rewrite bool_decide_true by done. simpl. eexists. split; [done|]. unfold uart_write_8.
  destruct (data_write d1 (u8 c)) as [-> ->]. rewrite H1, H2. split; [done|].
  by rewrite (u8_id (u8 c)) by apply u8_range.
- rewrite bool_decide_false by done. simpl.
  destruct (IH fuel d1 c) as (d' & -> & H4 & H5); [done|lia|]. exists d'. by rewrite H4, H5, H1, H2.
Qed.

Lemma dputs_spec fuel s : forall d, (max_busy < fuel)%nat ->
exists d', dputs base fuel d s = Some d' /\ rx d' = rx d /\ tx d' = tx d ++ crlf s.
Proof.
assert (Hput : forall d c, (max_busy < fuel)%nat ->
  exists d', uart_putc base fuel d c = Some d' /\ rx d' = rx d /\ tx d' = tx d ++ [u8 c]).
{ intros d c Hf. pose proof (busy_bound d). eapply uart_putc_spec; [done|lia]. }
induction s as [|c s IH]; intros d Hf; simpl; [exists d; by rewrite app_nil_r|].
unfold platform_dputc, crlf. simpl. fold (crlf s). destruct (c =? 10) eqn:E; zbool.
- subst c. destruct (Hput d 13 Hf) as (d1 & -> & H1 & H2). cbind.
  destruct (Hput d1 10 Hf) as (d2 & -> & H3 & H4). cbind.
  destruct (IH d2 Hf) as (d' & -> & H5 & H6). exists d'. rewrite H6, H4, H2, H5, H3, H1.
  split; [done|]. split; [done|]. by rewrite <- !app_assoc.
- cbind. destruct (Hput d c Hf) as (d2 & -> & H3 & H4). cbind.
  destruct (IH d2 Hf) as (d' & -> & H5 & H6). exists d'. rewrite H6, H4, H5, H3.
  split; [done|]. split; [done|]. by rewrite <- !app_assoc.
Qed.

(** given more fuel than received bytes, the receive interrupt returns,
  moves every waiting byte to the receive buffer in order, sends nothing, and
  asks to reschedule exactly when there was a byte. *)
Theorem uart_irq_handler_drains {cbuf} (cbuf_write_char : cbuf -> Z -> cbuf) fuel d buf :
(length (rx d) < fuel)%nat ->
exists d', uart_irq_handler base cbuf_write_char fuel d buf =
  Some (if decide (rx d = []) then INT_NO_RESCHEDULE else INT_RESCHEDULE,
        foldl cbuf_write_char buf (rx d), d') /\
  rx d' = [] /\ tx d' = tx d.
Proof.
intros Hf. unfold uart_irq_handler.
destruct (uart_irq_loop_spec cbuf_write_char (rx d) fuel d buf false eq_refl Hf) as (d' & -> & ? & ?). cbind.
exists d'. split; [|done]. simpl. by destruct (rx d).
Qed.

(** A string put out character by character arrives on the line in order
  with every line feed preceded by a carriage return; each character waits for
  the transmitter at most [max_busy] polls. *)
Theorem dputs_crlf fuel s d : (max_busy < fuel)%nat ->
exists d', dputs base fuel d s = Some d' /\ rx d' = rx d /\ tx d' = tx d ++ crlf s.
Proof. intros. by apply dputs_spec. Qed.
End uart_facts.

(** A serial port: received bytes, sent bytes, polls until the transmitter is
    free (five after each write, at most). *)
Record serial := mk_serial { s_rx : bytes; s_tx : bytes; s_busy : nat }.

#[export] Instance serial_mmio : Mmio serial := {
  reg_read d a :=
    if a =? UART0_BASE + 5
    then ((if bool_decide (s_rx d = []) then 0 else 1) + (if bool_decide (s_busy d `min` 5 = 0)%nat then 64 else 0),
          mk_serial (s_rx d) (s_tx d) (pred (s_busy d `min` 5)))
    else match s_rx d with
         | b :: bs => (u8 b, mk_serial bs (s_tx d) (s_busy d))
         | [] => (0, d)
         end;
  reg_write d a v :=
    if a =? UART0_BASE + 0 then mk_serial (s_rx d) (s_tx d ++ [u8 v]) 5 else d }.

#[export] Instance serial_uart : Uart16550 serial UART0_BASE.
Proof.
  refine {| rx d := map u8 (s_rx d); tx d := s_tx d; busy d := (s_busy d `min` 5)%nat; max_busy := 5 |}.
  - intros d. unfold all_bytes. induction (s_rx d); constructor; [apply u8_range|done].
  - intros d. lia.
  - intros d. do 2 eexists. split; [done|].
    split; [|split; [|split; [|split]]]; simpl; try done; try lia;
      destruct (s_rx d); simpl; by case_bool_decide.
  - intros d b bs. simpl. destruct (s_rx d) as [|x l]; [done|]. intros [= <- <-]. by eexists.
  - intros d v. simpl. done.
Defined.

(** * Start-up and shutdown *)

Definition MEMORY_BASE_PHYS : Z := 0x80000000.
Definition NUM_VIRTIO_TRANSPORTS : Z := 8.
Definition VIRTIO_STRIDE : Z := 0x1000.
Definition VIRTIO_BASE : Z := 0x10001000.

(** The fields of [struct fdt_walk_pcie_info] the platform uses. *)
Record pcie_info := mk_pcie {
  ecam_base : Z; ecam_len : Z; bus_start : Z; bus_end : Z;
  io_base : Z; io_len : Z; mmio_base : Z; mmio_len : Z; mmio64_base : Z; mmio64_len : Z }.

(** The callbacks [fdt_walk] makes, in order. *)
Inductive fdt_event :=
  | FdtMem (base len : Z)
  | FdtCpu (id : Z)
  | FdtPcie (info : pcie_info).

(** What the callbacks update: the cookies, the PCIe state, and the memory
    arenas handed to the kernel. *)
Record early_state := mk_early {
  found_mem : bool; cpu_count : Z; pcie_state : pcie_info; arenas : list (Z * Z) }.

Definition memcallback (base len : Z) (st : early_state) : early_state :=
  if negb (found_mem st)
  then mk_early true (cpu_count st) (pcie_state st) (arenas st ++ [(base, len)])
  else st.

Definition cpucallback (id : Z) (st : early_state) : early_state :=
  mk_early (found_mem st) (cpu_count st + 1) (pcie_state st) (arenas st).

Definition pciecallback (info : pcie_info) (st : early_state) : early_state :=
  mk_early (found_mem st) (cpu_count st) info (arenas st).

Definition fdt_callback (st : early_state) (e : fdt_event) : early_state :=
  match e with
  | FdtMem base len => memcallback base len st
  | FdtCpu id => cpucallback id st
  | FdtPcie info => pciecallback info st
  end.

Definition no_pcie : pcie_info := mk_pcie 0 0 0 0 0 0 0 0 0 0.

(** Returns the state, and the argument of [riscv_set_secondary_count] if it is
    called.  [memsize] is the build's MEMSIZE. *)
Definition platform_early_init {dev} `{Mmio dev} (periph_base hart_idx memsize : Z) (d : dev)
    (events : list fdt_event) : early_state * option Z * dev :=
  let d := plic_early_init periph_base hart_idx d in
  let st := foldl fdt_callback (mk_early false 0 no_pcie []) events in
  let st := if negb (found_mem st)
            then mk_early false (cpu_count st) (pcie_state st) (arenas st ++ [(MEMORY_BASE_PHYS, memsize)])
            else st in
  (st, if 0 <? cpu_count st then Some (cpu_count st - 1) else None, d).

(** The calls [platform_init] makes into the kernel, in order. *)
Inductive init_call :=
  | UartInit
  | PciInitEcam (base len bus_start bus_end : Z)
  | PciAddIoRange (base len : Z)
  | PciAddMmioRange (base len : Z)
  | PciAddMmio64Range (base len : Z)
  | PciBusMgrInit
  | PciAssignResources
  | VirtioDetect (base count : Z) (irqs : list Z) (stride : Z)
  | MinipSetEth
  | VirtioNetStart
  | MinipStartDhcp.

(** [ecam_ok] is whether [pci_init_ecam] succeeds, [net_found] what
    [virtio_net_found] returns after detection. *)
Definition platform_init (periph_base : Z) (info : pcie_info) (ecam_ok : bool) (net_found : Z)
  : list init_call :=
  [UartInit] ++
  (if 0 <? ecam_len info then
     PciInitEcam (ecam_base info) (ecam_len info) (bus_start info) (bus_end info) ::
     (if ecam_ok then
        (if 0 <? io_len info then [PciAddIoRange (io_base info) (io_len info)] else []) ++
        (if 0 <? mmio_len info then [PciAddMmioRange (mmio_base info) (mmio_len info)] else []) ++
        (if 0 <? mmio64_len info then [PciAddMmio64Range (mmio64_base info) (mmio64_len info)] else []) ++
        [PciBusMgrInit; PciAssignResources]
      else [])
   else []) ++
  [VirtioDetect (periph_base + VIRTIO_BASE) NUM_VIRTIO_TRANSPORTS
     (map (fun i => IRQ_VIRTIO_BASE + Z.of_nat i) (seq 0 (Z.to_nat NUM_VIRTIO_TRANSPORTS)))
     VIRTIO_STRIDE] ++
  (if 0 <? net_found then [MinipSetEth; VirtioNetStart; MinipStartDhcp] else []).

Inductive halt_action := HALT_ACTION_HALT | HALT_ACTION_REBOOT | HALT_ACTION_SHUTDOWN.

(** The effects of [platform_halt]; the last one never ends. *)
Inductive halt_step :=
  | SbiShutdown | SbiColdReboot | WritePowerReset (v : Z) | PanicShell | DisableInts | IdleForever.

(** [s_mode] and [panic_shell] are the build options, [sw_panic] whether the
    reason is a software panic. *)
Definition platform_halt (s_mode panic_shell : bool) (action : halt_action) (sw_panic : bool)
  : list halt_step :=
  match action with
  | HALT_ACTION_SHUTDOWN => (if s_mode then [SbiShutdown] else []) ++ [WritePowerReset 0x5555]
  | HALT_ACTION_REBOOT => (if s_mode then [SbiColdReboot] else []) ++ [WritePowerReset 0x7777]
  | HALT_ACTION_HALT => if panic_shell && sw_panic then [DisableInts; PanicShell] else []
  end ++ [DisableInts; IdleForever].

Definition mem_ranges (events : list fdt_event) : list (Z * Z) :=
  omap (fun e => match e with FdtMem b l => Some (b, l) | _ => None end) events.
Definition cpu_ids (events : list fdt_event) : list Z :=
  omap (fun e => match e with FdtCpu id => Some id | _ => None end) events.

Lemma fdt_fold events : forall st,
  found_mem (foldl fdt_callback st events) = found_mem st || negb (bool_decide (mem_ranges events = [])) /\
  arenas (foldl fdt_callback st events) =
    arenas st ++ (if found_mem st then [] else take 1 (mem_ranges events)) /\
  cpu_count (foldl fdt_callback st events) = cpu_count st + zlen (cpu_ids events).
Proof.
  induction events as [|e events IH]; intros st; simpl.
  - rewrite orb_false_r, zlen_nil, Z.add_0_r. destruct (found_mem st); by rewrite app_nil_r.
  - destruct (IH (fdt_callback st e)) as (-> & -> & ->). destruct e as [b l|id|info]; simpl.
    + unfold memcallback, mem_ranges, cpu_ids. destruct (found_mem st) eqn:E; simpl; rewrite ?E; simpl;
        by rewrite ?app_nil_r.
    + unfold cpu_ids, mem_ranges. simpl. rewrite zlen_cons. split; [done|]. split; [done|]. lia.
    + done.
Qed.

(** Whatever the device tree reports, start-up hands exactly one memory
    arena to the kernel: the first range found, or the built-in one; and it
    starts one hart less than the tree lists. *)
Theorem platform_early_init_memory {dev} `{Mmio dev} periph_base hart_idx memsize (d : dev) events :
  let '(st, secondary, _) := platform_early_init periph_base hart_idx memsize d events in
  arenas st = (match mem_ranges events with r :: _ => [r] | [] => [(MEMORY_BASE_PHYS, memsize)] end) /\
  secondary = (if decide (cpu_ids events = []) then None else Some (zlen (cpu_ids events) - 1)).
Proof.
  unfold platform_early_init.
  destruct (fdt_fold events (mk_early false 0 no_pcie [])) as (Hf & Ha & Hc). simpl in Hf, Ha, Hc.
  set (st := foldl _ _ _) in *. clearbody st.
  assert (Hcpu : (0 <? cpu_count st) = negb (bool_decide (cpu_ids events = []))).
  { rewrite Hc. destruct (cpu_ids events) as [|x l]; [done|]. rewrite zlen_cons.
    pose proof (zlen_nonneg l). rewrite bool_decide_false by done. simpl. lia. }
  rewrite Hf. destruct (mem_ranges events) as [|r rs]; simpl in *; rewrite ?Ha, Hcpu, ?Hc;
    (split; [done|]); by destruct (cpu_ids events).
Qed.

(** * Witnesses *)

Lemma getCurrentDate_utc_witness :
  let d := mk_goldfish 1700000000123456789 0 in
  let st := mk_rtc 0 None 0 in
  let s := clock d / 1000000000 in
  let x := (getCurrentDate RTC_BASE st d).1 in
  (year x, month x, day x) = civil (Z.to_nat (s / 86400)) /\
  hours x = s / 3600 mod 24 /\ minutes x = s / 60 mod 60 /\ seconds x = s mod 60.
Proof. apply getCurrentDate_utc; [reflexivity|vm_compute; reflexivity]. Defined.

Lemma goldfish_rtc_early_init_oob_witness :
  goldfish_rtc_early_init RTC_BASE 1 0 (mk_rtc 0 None 0) (replicate 127 None) (mk_goldfish 5 0) = None.
Proof. apply goldfish_rtc_early_init_oob; [reflexivity|vm_compute; discriminate]. Defined.

Lemma uart_irq_handler_drains_witness :
  exists d', uart_irq_handler UART0_BASE (fun buf c => buf ++ [c]) 3 (mk_serial [104; 105] [] 0) [] =
    Some (if decide (rx (mk_serial [104; 105] [] 0) = []) then INT_NO_RESCHEDULE else INT_RESCHEDULE,
          foldl (fun buf c => buf ++ [c]) [] (rx (mk_serial [104; 105] [] 0)), d') /\
    rx d' = [] /\ tx d' = tx (mk_serial [104; 105] [] 0).
Proof. apply uart_irq_handler_drains. vm_compute. lia. Defined.

Lemma dputs_crlf_witness :
  exists d', dputs UART0_BASE 6 (mk_serial [] [] 0) [104; 10] = Some d' /\
    rx d' = rx (mk_serial [] [] 0) /\ tx d' = tx (mk_serial [] [] 0) ++ crlf [104; 10].
Proof. apply dputs_crlf. vm_compute. lia. Defined.

Example platform_init_irqs info :
  ecam_len info = 0 ->
  platform_init 0 info true 0 = [UartInit; VirtioDetect 0x10001000 8 [1; 2; 3; 4; 5; 6; 7; 8] 0x1000].
Proof. intros H. unfold platform_init. by rewrite H. Qed.
