(* ===== verification/TimeApps.v ===== *)
(** The ntptime command, src/pus/app/ntptime/ntptime.c: the request it sends and
    the date it prints from a response. *)
From S2P Require Import Prelude CMem DateTime.

Definition NTP_TIMESTAMP_DELTA : Z := 2208988800.

(** The offsets in the 48-byte [ntp_packet] of the fields the code touches. *)
Definition ntp_packet_size : Z := 48.
Definition off_txTm_s : Z := 40.
Definition off_txTm_f : Z := 44.

Definition LI (li_vn_mode : Z) : Z := (li_vn_mode .& 0xC0) .>> 6.
Definition VN (li_vn_mode : Z) : Z := (li_vn_mode .& 0x38) .>> 3.
Definition MODE (li_vn_mode : Z) : Z := (li_vn_mode .& 0x07) .>> 0.

(** On the little-endian target. *)
Definition ntohl (v : Z) : Z := be_val (le_bytes 4 v).

(** [p->field = ntohl(p->field)] on the received packet in place. *)
Definition swap_field (m : mem) (a : Z) : option (Z * mem) :=
  v ← load_le m a 4;
  m ← store_le m a 4 (ntohl v);
  v ← load_le m a 4;
  Some (v, m).

(** Returns the date the response line prints; [packetlen] is not looked at. *)
Definition ntp_response_cb (m : mem) (data packetlen : Z) : option (DateTime * mem) :=
  '(txTm_s, m) ← swap_field m (data + off_txTm_s);
  '(_, m) ← swap_field m (data + off_txTm_f);
  let txTm := u32 (txTm_s - NTP_TIMESTAMP_DELTA) in
  Some (convertUnixTimeToDate txTm, m).

(** The packet [ntptime] sends: zeros, then the first byte. *)
Definition ntp_request : bytes := <[0%nat := 0x1b]> (replicate (Z.to_nat ntp_packet_size) 0).

(** ** Facts *)

Lemma load_le_at m a n bs : bytes_at m a bs -> length bs = n -> load_le m a n = Some (le_val bs).
Proof.
  intros Hb <-. unfold load_le. unfold bytes_at, load_bytes, zlen in Hb. rewrite Nat2Z.id in Hb.
  by rewrite Hb.
Qed.

Lemma store_le_mapped m a n v : mapped m a (Z.of_nat n) ->
  store_le m a n v = Some (wr m a (le_bytes n v)).
Proof.
  intros Hm. unfold store_le. rewrite store_bytes_mapped.
  - by rewrite all_bytes_u8 by apply le_bytes_all.
  - unfold zlen. by rewrite le_bytes_length.
Qed.

Lemma swap_field_be m a v : 0 <= v < 4294967296 -> bytes_at m a (be_bytes 4 v) ->
  swap_field m a = Some (v, wr m a (le_bytes 4 v)).
Proof.
  intros Hv Hb. unfold swap_field.
  rewrite (load_le_at m a 4 _ Hb) by apply be_bytes_length. cbind.
  assert (E : ntohl (le_val (be_bytes 4 v)) = v).
  { unfold ntohl. rewrite <- (be_bytes_length 4 v) at 1. rewrite le_bytes_val.
    - rewrite be_val_bytes. change (256 ^ Z.of_nat 4) with 4294967296. lia.
    - unfold be_bytes, all_bytes. apply Forall_rev, le_bytes_all. }
  rewrite E, store_le_mapped.
  2: { pose proof (bytes_at_mapped _ _ _ Hb) as Hm. unfold zlen in Hm. by rewrite be_bytes_length in Hm. }
  cbind. rewrite (load_le_at _ a 4 (le_bytes 4 v)); [|apply bytes_at_wr|apply le_bytes_length].
  cbind. rewrite le_val_bytes. change (256 ^ Z.of_nat 4) with 4294967296. by rewrite Z.mod_small.
Qed.

(** C35: a response whose transmit seconds are the big-endian NTP time (modulo
    2^32) of a Unix time prints that time's UTC date, for every Unix time up to
    2106, across the NTP era change of 2036. *)
Theorem ntp_response_cb_date m data packetlen u frac :
  0 <= u < 4294967296 -> 0 <= frac < 4294967296 ->
  bytes_at m (data + off_txTm_s)
    (be_bytes 4 ((u + NTP_TIMESTAMP_DELTA) mod 4294967296) ++ be_bytes 4 frac) ->
  exists x m', ntp_response_cb m data packetlen = Some (x, m') /\
    (year x, month x, day x) = civil (Z.to_nat (u / 86400)) /\
    hours x = u / 3600 mod 24 /\ minutes x = u / 60 mod 60 /\ seconds x = u mod 60.
Proof.
  intros Hu Hf Hb. apply bytes_at_app in Hb as [Hs Hfr].
  unfold zlen in Hfr. rewrite be_bytes_length in Hfr. change (Z.of_nat 4) with 4 in Hfr.
  unfold ntp_response_cb. rewrite (swap_field_be _ _ ((u + NTP_TIMESTAMP_DELTA) mod 4294967296) ltac:(lia) Hs). cbind.
  rewrite (swap_field_be _ _ frac Hf).
  2: { eapply bytes_at_eq; [|exact (eq_refl : data + off_txTm_f = _)].
       unfold bytes_at. rewrite load_bytes_wr_disjoint.
       - eapply bytes_at_eq; [exact Hfr|unfold off_txTm_f, off_txTm_s; lia].
       - unfold disjoint, zlen. rewrite le_bytes_length. unfold off_txTm_f, off_txTm_s. lia. }
  cbind. do 2 eexists. split; [done|].
  replace (u32 _) with u by (unfold NTP_TIMESTAMP_DELTA in *; cint).
  rewrite convert_civil by (unfold max_days; lia). by destruct (civil _) as [[y mo] d].
Qed.

(** The callback reads up to byte 47 of the packet without looking at its
    length: on a datagram shorter than 44 bytes at the end of the mapped memory
    it has no defined behaviour. *)
Theorem ntp_response_cb_short m data packetlen :
  packetlen < 44 -> (forall i, data + packetlen <= i -> m !! i = None) ->
  ntp_response_cb m data packetlen = None.
Proof.
  intros Hl Hend. unfold ntp_response_cb, swap_field, load_le.
  destruct (load_n m (data + off_txTm_s) 4) as [bs|] eqn:E; [|done].
  pose proof (load_n_length _ _ _ _ E) as Hlen.
  pose proof (load_n_lookup _ _ _ _ 3 E ltac:(lia)) as Hk.
  rewrite Hend in Hk by (unfold off_txTm_s; lia).
  destruct (znth_in_range bs 3) as [x Hx]; [unfold zlen; lia|]. congruence.
Qed.

Example ntp_request_head :
  LI 0x1b = 0 /\ VN 0x1b = 3 /\ MODE 0x1b = 3 /\ take 2 ntp_request = [0x1b; 0] /\ zlen ntp_request = 48.
Proof. repeat split. Qed.

Lemma ntp_response_cb_date_witness :
  exists x m', ntp_response_cb (wr ∅ 40 (be_bytes 4 ((1700000000 + NTP_TIMESTAMP_DELTA) mod 4294967296)
      ++ be_bytes 4 7)) 0 48 = Some (x, m') /\
    (year x, month x, day x) = civil (Z.to_nat (1700000000 / 86400)) /\
    hours x = 1700000000 / 3600 mod 24 /\ minutes x = 1700000000 / 60 mod 60 /\
    seconds x = 1700000000 mod 60.
Proof.
  apply (ntp_response_cb_date _ 0 48 1700000000 7); [lia|lia|apply bytes_at_wr].
Defined.

Lemma ntp_response_cb_short_witness : ntp_response_cb (wr ∅ 0 [1; 2; 3]) 0 3 = None.
Proof.
  apply ntp_response_cb_short; [lia|]. intros i Hi. rewrite wr_outside by (change (zlen [1; 2; 3]) with 3; lia).
  apply lookup_empty.
Defined.
