(* ===== verification/Nga.v ===== *)
(** The RETRO virtual machine, src/pus/exp/retro/retro.c.

    The stacks and the image are arrays with the bounds of the source (an access
    outside is undefined, [None]); cells are 64-bit, with the undefined cases of
    signed C arithmetic (overflow, division by zero, over-wide shifts) as [None].
    [retro_code] is the bytes that can be read through the pointer of that name, and
    output is the characters put. *)
From S2P Require Import Prelude.

Definition IMAGE_SIZE : Z := 524288.
Definition ADDRESSES : Z := 256.
Definition STACK_DEPTH : Z := 256.
Definition LLONG_MIN : Z := -9223372036854775808.
Definition LLONG_MAX : Z := 9223372036854775807.
Definition CELL_MIN : Z := LLONG_MIN + 1.
Definition CELL_MAX : Z := LLONG_MAX - 1.

Record vm := mk_vm {
  sp : Z; rp : Z; ip : Z;
  data : gmap Z Z; address : gmap Z Z; memory : gmap Z Z;
  retro_code : bytes; out : bytes }.

(** * Array accesses; unwritten cells hold zero. *)

Definition arr_get (n : Z) (a : gmap Z Z) (i : Z) : option Z :=
  if (0 <=? i) && (i <? n) then Some (default 0 (a !! i)) else None.
Definition arr_set (n : Z) (a : gmap Z Z) (i v : Z) : option (gmap Z Z) :=
  if (0 <=? i) && (i <? n) then Some (<[i := v]> a) else None.

Definition set_ip (st : vm) (v : Z) : vm :=
  mk_vm (sp st) (rp st) v (data st) (address st) (memory st) (retro_code st) (out st).
Definition set_sp (st : vm) (v : Z) : vm :=
  mk_vm v (rp st) (ip st) (data st) (address st) (memory st) (retro_code st) (out st).
Definition set_rp (st : vm) (v : Z) : vm :=
  mk_vm (sp st) v (ip st) (data st) (address st) (memory st) (retro_code st) (out st).

Definition get_data (st : vm) (i : Z) : option Z := arr_get STACK_DEPTH (data st) i.
Definition put_data (st : vm) (i v : Z) : option vm :=
  d ← arr_set STACK_DEPTH (data st) i v;
  Some (mk_vm (sp st) (rp st) (ip st) d (address st) (memory st) (retro_code st) (out st)).
Definition get_mem (st : vm) (i : Z) : option Z := arr_get (IMAGE_SIZE + 1) (memory st) i.
Definition put_mem (st : vm) (i v : Z) : option vm :=
  m ← arr_set (IMAGE_SIZE + 1) (memory st) i v;
  Some (mk_vm (sp st) (rp st) (ip st) (data st) (address st) m (retro_code st) (out st)).

Definition TOS (st : vm) : option Z := get_data st (sp st).
Definition NOS (st : vm) : option Z := get_data st (sp st - 1).
Definition TORS (st : vm) : option Z := arr_get ADDRESSES (address st) (rp st).
Definition set_TOS (st : vm) (v : Z) : option vm := put_data st (sp st) v.
Definition set_NOS (st : vm) (v : Z) : option vm := put_data st (sp st - 1) v.
Definition set_TORS (st : vm) (v : Z) : option vm :=
  a ← arr_set ADDRESSES (address st) (rp st) v;
  Some (mk_vm (sp st) (rp st) (ip st) (data st) a (memory st) (retro_code st) (out st)).

(** Signed 64-bit results: out of range is undefined. *)
Definition cell (z : Z) : option Z :=
  if (LLONG_MIN <=? z) && (z <=? LLONG_MAX) then Some z else None.

(** * Primitives *)

Definition stack_pop (st : vm) : option (Z * vm) :=
  let st := set_sp st (sp st - 1) in
  v ← get_data st (sp st + 1);
  Some (v, st).

Definition stack_push (st : vm) (value : Z) : option vm :=
  let st := set_sp st (sp st + 1) in
  put_data st (sp st) value.

Definition inst_no (st : vm) : option vm := Some st.

Definition inst_li (st : vm) : option vm :=
  let st := set_ip st (ip st + 1) in
  v ← get_mem st (ip st);
  stack_push st v.

Definition inst_du (st : vm) : option vm := v ← TOS st; stack_push st v.

Definition inst_dr (st : vm) : option vm :=
  st ← put_data st (sp st) 0;
  let st := set_sp st (sp st - 1) in
  Some (if sp st <? 0 then set_ip st IMAGE_SIZE else st).

Definition inst_sw (st : vm) : option vm :=
  a ← TOS st;
  b ← NOS st;
  st ← set_TOS st b;
  set_NOS st a.

Definition inst_pu (st : vm) : option vm :=
  let st := set_rp st (rp st + 1) in
  v ← TOS st;
  st ← set_TORS st v;
  inst_dr st.

Definition inst_po (st : vm) : option vm :=
  v ← TORS st;
  st ← stack_push st v;
  Some (set_rp st (rp st - 1)).

Definition inst_ju (st : vm) : option vm :=
  v ← TOS st;
  t ← cell (v - 1);
  inst_dr (set_ip st t).

Definition inst_ca (st : vm) : option vm :=
  let st := set_rp st (rp st + 1) in
  st ← set_TORS st (ip st);
  v ← TOS st;
  t ← cell (v - 1);
  inst_dr (set_ip st t).

Definition inst_cc (st : vm) : option vm :=
  a ← TOS st;
  st ← inst_dr st;
  b ← TOS st;
  st ← inst_dr st;
  if negb (b =? 0) then
    let st := set_rp st (rp st + 1) in
    st ← set_TORS st (ip st);
    t ← cell (a - 1);
    Some (set_ip st t)
  else Some st.

Definition inst_re (st : vm) : option vm :=
  v ← TORS st;
  Some (set_rp (set_ip st v) (rp st - 1)).

(** The binary operators: [NOS = f NOS TOS; inst_dr()]. *)
Definition binary (f : Z -> Z -> option Z) (st : vm) : option vm :=
  b ← TOS st;
  a ← NOS st;
  v ← f a b;
  st ← set_NOS st v;
  inst_dr st.

Definition flag (b : bool) : Z := if b then -1 else 0.

Definition inst_eq : vm -> option vm := binary (fun a b => Some (flag (a =? b))).
Definition inst_ne : vm -> option vm := binary (fun a b => Some (flag (negb (a =? b)))).
Definition inst_lt : vm -> option vm := binary (fun a b => Some (flag (a <? b))).
Definition inst_gt : vm -> option vm := binary (fun a b => Some (flag (a >? b))).

Definition inst_fe (st : vm) : option vm :=
  t ← TOS st;
  v ← (if t =? -1 then Some (sp st - 1)
       else if t =? -2 then Some (rp st)
       else if t =? -3 then Some IMAGE_SIZE
       else if t =? -4 then Some CELL_MIN
       else if t =? -5 then Some CELL_MAX
       else get_mem st t);
  set_TOS st v.

Definition inst_st (st : vm) : option vm :=
  t ← TOS st;
  if (t <=? IMAGE_SIZE) && (t >=? 0) then
    n ← NOS st;
    st ← put_mem st t n;
    st ← inst_dr st;
    inst_dr st
  else Some (set_ip st IMAGE_SIZE).

Definition inst_ad : vm -> option vm := binary (fun a b => cell (a + b)).
Definition inst_su : vm -> option vm := binary (fun a b => cell (a - b)).
Definition inst_mu : vm -> option vm := binary (fun a b => cell (a * b)).

Definition inst_di (st : vm) : option vm :=
  a ← TOS st;
  b ← NOS st;
  if a =? 0 then None
  else
    q ← cell (Z.quot b a);
    st ← set_TOS st q;
    set_NOS st (Z.rem b a).

Definition inst_an : vm -> option vm := binary (fun a b => Some (b .& a)).
Definition inst_or : vm -> option vm := binary (fun a b => Some (b .| a)).
Definition inst_xo : vm -> option vm := binary (fun a b => Some (b .^ a)).

(** [~(~0U >> y)] is a 32-bit mask, zero-extended by the conversion to CELL. *)
Definition shift (x y : Z) : option Z :=
  if y <? 0 then
    if (x <? 0) || (63 <? 0 - y) then None else cell (x .<< (0 - y))
  else if (x <? 0) && (0 <? y) then
    if 31 <? y then None
    else Some ((x .>> y) .| u32 (.~ (0xFFFFFFFF .>> y)))
  else if 63 <? y then None
  else Some (x .>> y).

Definition inst_sh : vm -> option vm := binary shift.

Definition inst_zr (st : vm) : option vm :=
  t ← TOS st;
  if t =? 0 then
    st ← inst_dr st;
    v ← TORS st;
    Some (set_rp (set_ip st v) (rp st - 1))
  else Some st.

Definition inst_ha (st : vm) : option vm := Some (set_ip st IMAGE_SIZE).

Definition inst_ie (st : vm) : option vm := stack_push st 2.

Definition inst_iq (st : vm) : option vm :=
  t ← TOS st;
  if t =? 0 then
    st ← inst_dr st; st ← stack_push st 0; stack_push st 0
  else if t =? 1 then
    st ← inst_dr st; st ← stack_push st 1; stack_push st 1
  else Some st.

(** A machine step: the machine goes on, or its thread has exited. *)
Inductive outcome := Running (st : vm) | Exited (st : vm).

(** Plain [char] is unsigned on the target; reading past the last byte of the
    text is undefined. *)
Definition inst_ii (st : vm) : option outcome :=
  t ← TOS st;
  if t =? 0 then
    st ← inst_dr st;
    '(c, st) ← stack_pop st;
    Some (Running (mk_vm (sp st) (rp st) (ip st) (data st) (address st) (memory st) (retro_code st)
                     (out st ++ [u8 c])))
  else if t =? 1 then
    match retro_code st with
    | [] => None
    | c :: rest =>
        if c <=? 0 then Some (Exited st)
        else
          st ← inst_dr st;
          st ← stack_push st c;
          Some (Running (mk_vm (sp st) (rp st) (ip st) (data st) (address st) (memory st) rest (out st)))
    end
  else st ← inst_dr st; Some (Running st).

Definition run1 (f : vm -> option vm) (st : vm) : option outcome :=
  st ← f st; Some (Running st).

Definition instructions : list (vm -> option outcome) :=
  [run1 inst_no; run1 inst_li; run1 inst_du; run1 inst_dr; run1 inst_sw; run1 inst_pu; run1 inst_po;
   run1 inst_ju; run1 inst_ca; run1 inst_cc; run1 inst_re; run1 inst_eq; run1 inst_ne; run1 inst_lt;
   run1 inst_gt; run1 inst_fe; run1 inst_st; run1 inst_ad; run1 inst_su; run1 inst_mu; run1 inst_di;
   run1 inst_an; run1 inst_or; run1 inst_xo; run1 inst_sh; run1 inst_zr; run1 inst_ha; run1 inst_ie;
   run1 inst_iq; inst_ii].

(** Call the instruction of an opcode byte; an index past the table is out of
    bounds. *)
Definition dispatch (op : Z) (o : outcome) : option outcome :=
  match o with
  | Exited st => Some (Exited st)
  | Running st => f ← znth instructions op; f st
  end.

Definition process_opcode_bundle (st : vm) (opcode : Z) : option outcome :=
  o ← dispatch (opcode .& 0xFF) (Running st);
  o ← dispatch ((opcode .>> 8) .& 0xFF) o;
  o ← dispatch ((opcode .>> 16) .& 0xFF) o;
  dispatch ((opcode .>> 24) .& 0xFF) o.

(** One iteration of the loop of [execute]. *)
Definition execute_step (st : vm) : option outcome :=
  opcode ← get_mem st (ip st);
  o ← process_opcode_bundle st opcode;
  match o with
  | Exited st => Some (Exited st)
  | Running st =>
      let st := set_ip st (ip st + 1) in
      Some (Running (if rp st =? 0 then set_ip st IMAGE_SIZE else st))
  end.

(** [fuel] bounds the iterations: [Running] with [ip < IMAGE_SIZE] means it ran
    out. *)
Fixpoint execute_loop (fuel : nat) (st : vm) : option outcome :=
  if ip st <? IMAGE_SIZE then
    match fuel with
    | O => Some (Running st)
    | S fuel' =>
        o ← execute_step st;
        match o with
        | Exited st => Some (Exited st)
        | Running st => execute_loop fuel' st
        end
    end
  else Some (Running st).

Definition execute (fuel : nat) (st : vm) (c : Z) : option outcome :=
  execute_loop fuel (set_ip (set_rp st 1) c).

(** The injection of a string: each character and a trailing zero. *)
Fixpoint string_inject_loop (st : vm) (buffer : Z) (str : bytes) : option vm :=
  match str with
  | [] => Some st
  | c :: str' =>
      st ← put_mem st buffer c;
      st ← put_mem st (buffer + 1) 0;
      string_inject_loop st (buffer + 1) str'
  end.

Definition string_inject (st : vm) (str : option bytes) (buffer : Z) : option (Z * vm) :=
  match str with
  | None => st ← put_mem st buffer 0; Some (0, st)
  | Some s => st ← string_inject_loop st buffer s; Some (buffer, st)
  end.

Definition evaluate (fuel : nat) (st : vm) (s : bytes) : option outcome :=
  if zlen s =? 0 then Some (Running st)
  else
    '(_, st) ← string_inject st (Some s) 120;
    st ← stack_push st 120;
    execute fuel st 0.

(** The image is generated data: its cells are an argument, [i] the index. *)
Fixpoint load_embedded_image (st : vm) (i : Z) (ngaImage : list Z) : option vm :=
  match ngaImage with
  | [] => Some st
  | c :: cells => st ← put_mem st i c; load_embedded_image st (i + 1) cells
  end.

(** * The line editor of [retro_app] *)

Definition LINE_LEN : Z := 64.

(** [pos] is static, so it outlives a session; [buffer] is the session's local
    array of 200 characters. *)
Record editor := mk_editor { pos : Z; escape_level : Z; buffer : gmap Z Z }.

Definition put_buffer (e : editor) (c : Z) : option editor :=
  b ← arr_set 200 (buffer e) (pos e) (u8 c);
  Some (mk_editor (pos e + 1) (escape_level e) b).

Definition set_pos (e : editor) (p : Z) : editor := mk_editor p (escape_level e) (buffer e).
Definition set_escape (e : editor) (l : Z) : editor := mk_editor (pos e) l (buffer e).

(** [strlen] and [memcpy] of the buffer: the characters up to the first zero;
    [fuel] is the array's size. *)
Fixpoint buffer_string (fuel : nat) (b : gmap Z Z) (i : Z) : option bytes :=
  match fuel with
  | O => None
  | S fuel' =>
      c ← arr_get 200 b i;
      if c =? 0 then Some [] else s ← buffer_string fuel' b (i + 1); Some (c :: s)
  end.

(** "bye" *)
Definition bye : bytes := [98; 121; 101].

(** What a line does: end the session, or create a thread of the machine while
    [retro_code] points to the local array [ret] of 100 characters. *)
Inductive line_result := LineBye | LineRun (ret : bytes).

(** [frame] is what the stack held in the place of [ret]: [memcpy] copies the
    characters, and no zero behind them. *)
Definition process_buffer (frame : bytes) (e : editor) : option (line_result * editor) :=
  s ← buffer_string 200 (buffer e) 0;
  if decide (s = bye) then Some (LineBye, e)
  else if zlen frame <? zlen s then None
  else Some (LineRun (s ++ drop (length s) frame), set_pos e 0).

(** The machine of the thread that was created: up to the return of [process_buffer]
    [retro_code] points to [ret]; with the return the array's life is over, and nothing
    can be read through the pointer. *)
Definition set_retro_code (st : vm) (code : bytes) : vm :=
  mk_vm (sp st) (rp st) (ip st) (data st) (address st) (memory st) code (out st).
Definition retro_processor (returned : bool) (ret : bytes) (st : vm) : vm :=
  set_retro_code st (if returned then [] else ret).

(** One character; returns the array [ret] of the thread that was created, if one
    was, and whether the session is over. *)
Definition erase (e : editor) : editor := if 0 <? pos e then set_pos e (pos e - 1) else e.

Definition check_length (e : editor) (run : option bytes) : editor * option bytes * bool :=
  if pos e =? LINE_LEN - 1 then (set_pos e 0, run, true) else (e, run, false).

Definition retro_app_char (frame : bytes) (e : editor) (c : Z) : option (editor * option bytes * bool) :=
  if c <? 0 then Some (e, None, false)
  else if escape_level e =? 0 then
    if (c =? 13) || (c =? 10) then
      e ← put_buffer e 0;
      '(r, e) ← process_buffer frame e;
      match r with
      | LineBye => Some (e, None, true)
      | LineRun s => Some (check_length (erase e) (Some s))
      end
    else if (c =? 0x7f) || (c =? 0x8) then Some (check_length (erase e) None)
    else if c =? 0x1b then Some (check_length (set_escape e (escape_level e + 1)) None)
    else e ← put_buffer e c; Some (check_length e None)
  else if escape_level e =? 1 then
    Some (check_length (set_escape e (if c =? 91 then escape_level e + 1 else 0)) None)
  else
    e ← (if c =? 67 then put_buffer e 32 else if c =? 68 then Some (erase e) else Some e);
    Some (check_length (set_escape e 0) None).

(** A session over a list of characters, from a static [pos] and an unwritten
    buffer; returns the arrays of the threads.  [frame n] is what the stack holds when
    [n] characters are still to come. *)
Fixpoint retro_app_loop (frame : nat -> bytes) (e : editor) (cs : list Z) : option (editor * list bytes * bool) :=
  match cs with
  | [] => Some (e, [], false)
  | c :: cs' =>
      '(e, run, over) ← retro_app_char (frame (length cs')) e c;
      let lines := match run with Some ret => [ret] | None => [] end in
      if (over : bool) then Some (e, lines, true)
      else '(e, rest, over) ← retro_app_loop frame e cs'; Some (e, lines ++ rest, over)
  end.

Definition retro_app (frame : nat -> bytes) (p : Z) (b : gmap Z Z) (cs : list Z) : option (editor * list bytes * bool) :=
  retro_app_loop frame (mk_editor p 0 b) cs.
