(* ===== verification/NgaSpec.v ===== *)
(** An abstract stack machine for RETRO and the refinement: where the abstract
    machine steps, the arrays of [Nga] simulate it.  Its stacks are lists with the
    top first, limited to the 255 cells the arrays offer above the sentinel. *)
From S2P Require Import Prelude Nga.

Record am := mk_am {
  ds : list Z; rs : list Z; pc : Z; amem : gmap Z Z; inp : bytes; outp : bytes }.

Definition DEPTH : Z := 255.

Definition apush (a : am) (v : Z) : option am :=
  if zlen (ds a) <? DEPTH
  then Some (mk_am (v :: ds a) (rs a) (pc a) (amem a) (inp a) (outp a)) else None.

Definition arpush (a : am) (v : Z) : option am :=
  if zlen (rs a) <? DEPTH
  then Some (mk_am (ds a) (v :: rs a) (pc a) (amem a) (inp a) (outp a)) else None.

Definition with_ds (a : am) (l : list Z) : am := mk_am l (rs a) (pc a) (amem a) (inp a) (outp a).
Definition with_pc (a : am) (p : Z) : am := mk_am (ds a) (rs a) p (amem a) (inp a) (outp a).

Definition areturn (a : am) : option am :=
  match rs a with
  | r :: rs' => Some (mk_am (ds a) rs' r (amem a) (inp a) (outp a))
  | [] => None
  end.

Definition amem_get (a : am) (i : Z) : option Z := arr_get (IMAGE_SIZE + 1) (amem a) i.

Definition abin (f : Z -> Z -> option Z) (a : am) : option am :=
  match ds a with
  | y :: x :: l => v ← f x y; Some (with_ds a (v :: l))
  | _ => None
  end.

(** The instructions on lists, by opcode. *)
Definition astep (op : Z) (a : am) : option am :=
  match op, ds a with
  | 0, _ => Some a
  | 1, _ => v ← amem_get a (pc a + 1); apush (with_pc a (pc a + 1)) v
  | 2, x :: _ => apush a x
  | 3, x :: l => Some (with_ds a l)
  | 4, y :: x :: l => Some (with_ds a (x :: y :: l))
  | 5, x :: l => arpush (with_ds a l) x
  | 6, _ => match rs a with
            | r :: rs' => apush (mk_am (ds a) rs' (pc a) (amem a) (inp a) (outp a)) r
            | [] => None
            end
  | 7, x :: l => t ← cell (x - 1); Some (with_pc (with_ds a l) t)
  | 8, x :: l => t ← cell (x - 1); a ← arpush (with_ds a l) (pc a); Some (with_pc a t)
  | 9, x :: b :: l =>
      if b =? 0 then Some (with_ds a l)
      else t ← cell (x - 1); a ← arpush (with_ds a l) (pc a); Some (with_pc a t)
  | 10, _ => areturn a
  | 11, _ => abin (fun x y => Some (flag (x =? y))) a
  | 12, _ => abin (fun x y => Some (flag (negb (x =? y)))) a
  | 13, _ => abin (fun x y => Some (flag (x <? y))) a
  | 14, _ => abin (fun x y => Some (flag (x >? y))) a
  | 15, x :: l =>
      v ← (if x =? -1 then Some (zlen (ds a) - 1) else if x =? -2 then Some (zlen (rs a))
           else if x =? -3 then Some IMAGE_SIZE else if x =? -4 then Some CELL_MIN
           else if x =? -5 then Some CELL_MAX else amem_get a x);
      Some (with_ds a (v :: l))
  | 16, t :: v :: l =>
      if (0 <=? t) && (t <=? IMAGE_SIZE)
      then Some (mk_am l (rs a) (pc a) (<[t := v]> (amem a)) (inp a) (outp a)) else None
  | 17, _ => abin (fun x y => cell (x + y)) a
  | 18, _ => abin (fun x y => cell (x - y)) a
  | 19, _ => abin (fun x y => cell (x * y)) a
  | 20, y :: x :: l =>
      if y =? 0 then None else q ← cell (Z.quot x y); Some (with_ds a (q :: Z.rem x y :: l))
  | 21, _ => abin (fun x y => Some (y .& x)) a
  | 22, _ => abin (fun x y => Some (y .| x)) a
  | 23, _ => abin (fun x y => Some (y .^ x)) a
  | 24, _ => abin shift a
  | 25, x :: l => if x =? 0 then areturn (with_ds a l) else Some a
  | 26, _ => Some (with_pc a IMAGE_SIZE)
  | 27, _ => apush a 2
  | 28, x :: l =>
      if x =? 0 then a ← apush (with_ds a l) 0; apush a 0
      else if x =? 1 then a ← apush (with_ds a l) 1; apush a 1
      else Some a
  | 29, 0 :: c :: l => Some (mk_am l (rs a) (pc a) (amem a) (inp a) (outp a ++ [u8 c]))
  | 29, 1 :: l =>
      match inp a with
      | c :: inp' => if c <=? 0 then None
                     else Some (mk_am (c :: l) (rs a) (pc a) (amem a) inp' (outp a))
      | [] => None
      end
  | _, _ => None
  end.

(** A cell of four instructions, one step of the machine, and its runs. *)
Definition abundle (a : am) (opcode : Z) : option am :=
  a ← astep (opcode .& 0xFF) a;
  a ← astep ((opcode .>> 8) .& 0xFF) a;
  a ← astep ((opcode .>> 16) .& 0xFF) a;
  astep ((opcode .>> 24) .& 0xFF) a.

Definition aexec_step (a : am) : option am :=
  opcode ← amem_get a (pc a);
  a ← abundle a opcode;
  Some (match rs a with [] => with_pc a IMAGE_SIZE | _ => with_pc a (pc a + 1) end).

Fixpoint aexec (fuel : nat) (a : am) : option am :=
  if pc a <? IMAGE_SIZE then
    match fuel with
    | O => Some a
    | S fuel' => a ← aexec_step a; aexec fuel' a
    end
  else Some a.

(** * The refinement relation *)

Definition stack_rel (n : Z) (arr : gmap Z Z) (top : Z) (l : list Z) : Prop :=
  top = zlen l /\ zlen l <= DEPTH /\
  forall k v, l !! k = Some v -> default 0 (arr !! (top - Z.of_nat k)) = v.

Record R (st : vm) (a : am) : Prop := {
  R_ds : stack_rel STACK_DEPTH (data st) (sp st) (ds a);
  R_rs : stack_rel ADDRESSES (address st) (rp st) (rs a);
  R_pc : ip st = pc a;
  R_mem : memory st = amem a;
  R_inp : retro_code st = inp a;
  R_out : out st = outp a }.

(** * Lemmas on the array stacks *)

Section stacks.
Context (n : Z) (Hn : n = 256).
Implicit Types (arr : gmap Z Z) (l : list Z).

Lemma sr_get arr top l k v :
stack_rel n arr top l -> l !! k = Some v -> arr_get n arr (top - Z.of_nat k) = Some v.
Proof.
intros (Ht & Hl & Hk) Hv. pose proof (lookup_lt_Some _ _ _ Hv). unfold zlen, DEPTH in *.
unfold arr_get. zif_true. f_equal. by apply Hk.
Qed.

Lemma sr_put arr top l k v :
stack_rel n arr top l -> (k < length l)%nat ->
exists arr', arr_set n arr (top - Z.of_nat k) v = Some arr' /\ stack_rel n arr' top (<[k := v]> l).
Proof.
intros (Ht & Hl & Hk) Hlt. unfold zlen, DEPTH in *. unfold arr_set. zif_true.
eexists. split; [done|]. split; [unfold zlen; by rewrite length_insert|].
split; [unfold zlen; by rewrite length_insert|]. intros j w Hj.
destruct (decide (j = k)) as [->|Hne].
- rewrite list_lookup_insert_eq in Hj by done. rewrite lookup_insert_eq. by injection Hj.
- rewrite list_lookup_insert_ne in Hj by done. rewrite lookup_insert_ne by lia. by apply Hk.
Qed.

Lemma sr_tail arr top x l : stack_rel n arr top (x :: l) -> stack_rel n arr (top - 1) l.
Proof.
intros (Ht & Hl & Hk). rewrite zlen_cons in *. split; [lia|]. split; [lia|].
intros k v Hv. rewrite <- (Hk (S k) v Hv). do 2 f_equal. lia.
Qed.

Lemma sr_tail_clear arr top x l w :
stack_rel n arr top (x :: l) -> exists arr', arr_set n arr top w = Some arr' /\
  stack_rel n arr' (top - 1) l /\ 0 <= top - 1.
Proof.
intros H. destruct (sr_put arr top (x :: l) 0 w H) as (arr' & Hs & Hr); [simpl; lia|].
rewrite Z.sub_0_r in Hs. exists arr'. split; [done|]. simpl in Hr. split; [by eapply sr_tail|].
destruct H as (Ht & _). rewrite zlen_cons in Ht. pose proof (zlen_nonneg l). lia.
Qed.

Lemma sr_push arr top l v :
stack_rel n arr top l -> zlen l < DEPTH ->
exists arr', arr_set n arr (top + 1) v = Some arr' /\ stack_rel n arr' (top + 1) (v :: l).
Proof.
intros (Ht & Hl & Hk) Hlt. unfold DEPTH in *. pose proof (zlen_nonneg l). unfold arr_set. zif_true.
eexists. split; [done|]. split; [rewrite zlen_cons; lia|]. split; [rewrite zlen_cons; unfold DEPTH; lia|].
intros [|k] w Hw.
- rewrite Z.sub_0_r, lookup_insert_eq. by injection Hw.
- pose proof (lookup_lt_Some _ _ _ Hw). simpl in *. rewrite lookup_insert_ne by lia.
  rewrite <- (Hk k w Hw). do 2 f_equal. lia.
Qed.
End stacks.

(** * The machine operations *)

Lemma R_TOS st a x l : R st a -> ds a = x :: l -> TOS st = Some x.
Proof.
  intros [Hd] E. rewrite E in Hd. rewrite <- (sr_get STACK_DEPTH eq_refl _ _ _ 0 x Hd eq_refl).
  unfold TOS, get_data. f_equal. lia.
Qed.

Lemma R_NOS st a y x l : R st a -> ds a = y :: x :: l -> NOS st = Some x.
Proof.
  intros [Hd] E. rewrite E in Hd. apply (sr_get STACK_DEPTH eq_refl _ _ _ 1 x Hd eq_refl).
Qed.

Lemma R_TORS st a x l : R st a -> rs a = x :: l -> TORS st = Some x.
Proof.
  intros [_ Hr] E. rewrite E in Hr. rewrite <- (sr_get ADDRESSES eq_refl _ _ _ 0 x Hr eq_refl).
  unfold TORS. f_equal. lia.
Qed.

Lemma R_dr st a x l : R st a -> ds a = x :: l ->
  exists st', inst_dr st = Some st' /\ R st' (with_ds a l).
Proof.
  intros [Hd ?????] E. rewrite E in Hd.
  destruct (sr_tail_clear STACK_DEPTH eq_refl _ _ _ _ 0 Hd) as (arr & Hs & Hr & Hp).
  unfold inst_dr, put_data. rewrite Hs. cbind. cbn [set_sp sp]. zif_false. eexists. split; [done|].
  by split.
Qed.

Lemma R_push st a v a' : R st a -> apush a v = Some a' ->
  exists st', stack_push st v = Some st' /\ R st' a'.
Proof.
  intros [Hd ?????]. unfold apush. destruct (zlen (ds a) <? DEPTH) eqn:E; [|done]. zbool.
  intros [= <-]. destruct (sr_push STACK_DEPTH eq_refl _ _ _ v Hd E) as (arr & Hs & Hr).
  unfold stack_push, put_data. cbn [set_sp sp data]. rewrite Hs. cbind. eexists. split; [done|]. by split.
Qed.

Lemma R_set_TOS st a x l v : R st a -> ds a = x :: l ->
  exists st', set_TOS st v = Some st' /\ R st' (with_ds a (v :: l)).
Proof.
  intros [Hd ?????] E. rewrite E in Hd.
  destruct (sr_put STACK_DEPTH eq_refl _ _ _ 0 v Hd) as (arr & Hs & Hr); [simpl; lia|].
  rewrite Z.sub_0_r in Hs. unfold set_TOS, put_data. rewrite Hs. cbind. eexists. split; [done|]. by split.
Qed.

Lemma R_set_NOS st a y x l v : R st a -> ds a = y :: x :: l ->
  exists st', set_NOS st v = Some st' /\ R st' (with_ds a (y :: v :: l)).
Proof.
  intros [Hd ?????] E. rewrite E in Hd.
  destruct (sr_put STACK_DEPTH eq_refl _ _ _ 1 v Hd) as (arr & Hs & Hr); [simpl; lia|].
  change (Z.of_nat 1) with 1 in Hs.
  unfold set_NOS, put_data. rewrite Hs. cbind. eexists. split; [done|]. by split.
Qed.

Lemma R_rpush st a v a' : R st a -> arpush a v = Some a' ->
  exists st', set_TORS (set_rp st (rp st + 1)) v = Some st' /\ R st' a'.
Proof.
  intros [? Hr ????]. unfold arpush. destruct (zlen (rs a) <? DEPTH) eqn:E; [|done]. zbool.
  intros [= <-]. destruct (sr_push ADDRESSES eq_refl _ _ _ v Hr E) as (arr & Hs & Hr').
  unfold set_TORS. cbn [set_rp rp address]. rewrite Hs. cbind. eexists. split; [done|]. by split.
Qed.

Lemma R_set_ip st a p : R st a -> R (set_ip st p) (with_pc a p).
Proof. intros []. by split. Qed.

Lemma R_return st a a' : R st a -> areturn a = Some a' ->
  exists v, TORS st = Some v /\ R (set_rp (set_ip st v) (rp st - 1)) a'.
Proof.
  intros HR. unfold areturn. destruct (rs a) as [|r l] eqn:E; [done|]. intros [= <-].
  exists r. split; [by eapply R_TORS|]. destruct HR as [? Hr ????]. rewrite E in Hr.
  split; try done. eapply sr_tail; exact Hr.
Qed.

Lemma R_mem_get st a i : R st a -> get_mem st i = amem_get a i.
Proof. intros []. unfold get_mem, amem_get. congruence. Qed.

Lemma R_binary f st a a' : R st a -> abin f a = Some a' ->
  exists st', binary f st = Some st' /\ R st' a'.
Proof.
  intros HR. unfold abin. destruct (ds a) as [|y [|x l]] eqn:E; try done.
  destruct (f x y) as [v|] eqn:Ef; cbind; [|done]. intros [= <-].
  unfold binary. rewrite (R_TOS _ _ _ _ HR E). cbind. rewrite (R_NOS _ _ _ _ _ HR E). cbind.
  rewrite Ef. cbind. destruct (R_set_NOS _ _ _ _ _ v HR E) as (st1 & -> & HR1). cbind.
  apply (R_dr _ _ _ _ HR1 eq_refl).
Qed.

(** * Each instruction *)

Definition simulates (f : vm -> option outcome) (st : vm) (a' : am) : Prop :=
  exists st', f st = Some (Running st') /\ R st' a'.

Lemma sim_run1 f st a' : (exists st', f st = Some st' /\ R st' a') -> simulates (run1 f) st a'.
Proof. intros (st' & E & HR). exists st'. unfold run1. by rewrite E. Qed.

Lemma sim_li st a a' : R st a -> astep 1 a = Some a' -> exists st', inst_li st = Some st' /\ R st' a'.
Proof.
  intros HR. simpl. unfold inst_li. cbn [set_ip ip].
  pose proof (R_set_ip _ _ (pc a + 1) HR) as HR1.
  rewrite (R_pc _ _ HR). rewrite (R_mem_get _ _ _ HR1). change (amem_get (with_pc a (pc a + 1))) with (amem_get a).
  destruct (amem_get a (pc a + 1)) as [v|]; cbind; [|done]. intros H. by eapply R_push.
Qed.

Lemma sim_sw st a y x l : R st a -> ds a = y :: x :: l ->
  exists st', inst_sw st = Some st' /\ R st' (with_ds a (x :: y :: l)).
Proof.
  intros HR E. unfold inst_sw. rewrite (R_TOS _ _ _ _ HR E). cbind. rewrite (R_NOS _ _ _ _ _ HR E). cbind.
  destruct (R_set_TOS _ _ _ _ x HR E) as (st1 & -> & HR1). cbind.
  apply (R_set_NOS _ _ _ _ _ y HR1 eq_refl).
Qed.

Lemma R_rp_ds st a x l v a' : R st a -> ds a = x :: l -> arpush (with_ds a l) v = Some a' ->
  exists st', set_TORS (set_rp st (rp st + 1)) v = Some st' /\ R st' (with_ds a' (x :: l)) /\
    ds a' = l /\ with_ds (with_ds a' (x :: l)) l = a'.
Proof.
  intros HR E Hp. assert (Hp' : arpush a v = Some (with_ds a' (x :: l))).
  { unfold arpush in *. cbn [with_ds rs] in Hp. destruct (zlen (rs a) <? DEPTH); [|done].
    injection Hp as <-. unfold with_ds. simpl. by rewrite E. }
  destruct (R_rpush _ _ _ _ HR Hp') as (st' & -> & HR'). exists st'. split; [done|]. split; [done|].
  unfold arpush in Hp. destruct (_ <? _); [|done]. injection Hp as <-. done.
Qed.

Lemma sim_pu st a x l a' : R st a -> ds a = x :: l -> arpush (with_ds a l) x = Some a' ->
  exists st', inst_pu st = Some st' /\ R st' a'.
Proof.
  intros HR E Hp. destruct (R_rp_ds _ _ _ _ _ _ HR E Hp) as (st1 & Hs & HR1 & _ & Hw).
  unfold inst_pu. change (TOS (set_rp st (rp st + 1))) with (TOS st).
  rewrite (R_TOS _ _ _ _ HR E). cbind. rewrite Hs. cbind.
  destruct (R_dr _ _ x l HR1 eq_refl) as (st' & -> & HR'). exists st'. by rewrite Hw in HR'.
Qed.

Lemma sim_po st a r l a' : R st a -> rs a = r :: l ->
  apush (mk_am (ds a) l (pc a) (amem a) (inp a) (outp a)) r = Some a' ->
  exists st', inst_po st = Some st' /\ R st' a'.
Proof.
  intros HR E Hp. unfold inst_po. rewrite (R_TORS _ _ _ _ HR E). cbind.
  unfold apush in Hp. cbn [ds] in Hp. destruct (zlen (ds a) <? DEPTH) eqn:El; [|done]. injection Hp as <-.
  destruct (R_push st a r (mk_am (r :: ds a) (rs a) (pc a) (amem a) (inp a) (outp a)) HR) as (st1 & -> & HR1).
  { unfold apush. by rewrite El. }
  cbind. eexists. split; [done|]. destruct HR1 as [? Hr ????]. cbn in Hr. rewrite E in Hr.
  split; try done. eapply sr_tail; exact Hr.
Qed.

Lemma sim_ju st a x l t : R st a -> ds a = x :: l -> cell (x - 1) = Some t ->
  exists st', inst_ju st = Some st' /\ R st' (with_pc (with_ds a l) t).
Proof.
  intros HR E Ht. unfold inst_ju. rewrite (R_TOS _ _ _ _ HR E). cbind. rewrite Ht. cbind.
  apply (R_dr _ _ _ _ (R_set_ip _ _ t HR) E).
Qed.

Lemma sim_ca st a x l t a' : R st a -> ds a = x :: l -> cell (x - 1) = Some t ->
  arpush (with_ds a l) (pc a) = Some a' ->
  exists st', inst_ca st = Some st' /\ R st' (with_pc a' t).
Proof.
  intros HR E Ht Hp. destruct (R_rp_ds _ _ _ _ _ _ HR E Hp) as (st1 & Hs & HR1 & _ & Hw).
  unfold inst_ca. change (ip (set_rp st (rp st + 1))) with (ip st). rewrite (R_pc _ _ HR), Hs. cbind.
  rewrite (R_TOS _ _ x l HR1 eq_refl). cbind. rewrite Ht. cbind.
  destruct (R_dr _ _ x l (R_set_ip _ _ t HR1) eq_refl) as (st' & -> & HR'). exists st'. split; [done|].
  rewrite <- Hw. exact HR'.
Qed.

Lemma sim_cc st a x b l a' : R st a -> ds a = x :: b :: l -> astep 9 a = Some a' ->
  exists st', inst_cc st = Some st' /\ R st' a'.
Proof.
  intros HR E. simpl. rewrite E. unfold inst_cc. rewrite (R_TOS _ _ _ _ HR E). cbind.
  destruct (R_dr _ _ _ _ HR E) as (st1 & -> & HR1). cbind.
  rewrite (R_TOS _ _ b l HR1 eq_refl). cbind.
  destruct (R_dr _ _ b l HR1 eq_refl) as (st2 & -> & HR2). cbind.
  destruct (b =? 0); simpl; [intros [= <-]; eauto|].
  destruct (cell (x - 1)) as [t|]; cbind; [|done].
  destruct (arpush (with_ds a l) (pc a)) as [a1|] eqn:Hp; cbind; [|done]. intros [= <-].
  destruct (R_rpush _ _ _ _ HR2 Hp) as (st3 & Hs & HR3).
  change (ip (set_rp st2 (rp st2 + 1))) with (ip st2). rewrite (R_pc _ _ HR2).
  change (pc (with_ds (with_ds a (b :: l)) l)) with (pc a). rewrite Hs. cbind.
  eexists. split; [done|]. by apply R_set_ip.
Qed.

Lemma sim_re st a a' : R st a -> areturn a = Some a' ->
  exists st', inst_re st = Some st' /\ R st' a'.
Proof.
  intros HR Ha. destruct (R_return _ _ _ HR Ha) as (v & E & HR'). unfold inst_re. rewrite E. cbind. eauto.
Qed.

Lemma sim_fe st a x l a' : R st a -> ds a = x :: l -> astep 15 a = Some a' ->
  exists st', inst_fe st = Some st' /\ R st' a'.
Proof.
  intros HR E. simpl. rewrite E. unfold inst_fe. rewrite (R_TOS _ _ _ _ HR E). cbind.
  destruct (R_ds _ _ HR) as [Hsp _]. destruct (R_rs _ _ HR) as [Hrp _]. rewrite E in Hsp.
  rewrite Hsp, Hrp, (R_mem_get _ _ _ HR).
  match goal with |- (mbind _ ?e = _) -> _ => destruct e as [v|]; cbind; [|done] end.
  intros [= <-]. by eapply R_set_TOS.
Qed.

Lemma sim_st st a t v l a' : R st a -> ds a = t :: v :: l -> astep 16 a = Some a' ->
  exists st', inst_st st = Some st' /\ R st' a'.
Proof.
  intros HR E. simpl. rewrite E. destruct ((0 <=? t) && (t <=? IMAGE_SIZE)) eqn:Et; [|done]. zbool.
  intros [= <-]. unfold inst_st. rewrite (R_TOS _ _ _ _ HR E). cbind. rewrite Z.geb_leb. zif_true.
  rewrite (R_NOS _ _ _ _ _ HR E). cbind. unfold put_mem, arr_set. zif_true. cbind.
  set (st1 := mk_vm _ _ _ _ _ _ _ _).
  assert (HR1 : R st1 (mk_am (t :: v :: l) (rs a) (pc a) (<[t:=v]> (amem a)) (inp a) (outp a))).
  { destruct HR as [Hd ? ? Hm ? ?]. rewrite E in Hd. subst st1. split; simpl; try done. by rewrite Hm. }
  destruct (R_dr _ _ t (v :: l) HR1 eq_refl) as (st2 & -> & HR2). cbind.
  apply (R_dr _ _ v l HR2 eq_refl).
Qed.

Lemma sim_di st a y x l a' : R st a -> ds a = y :: x :: l -> astep 20 a = Some a' ->
  exists st', inst_di st = Some st' /\ R st' a'.
Proof.
  intros HR E. simpl. rewrite E. unfold inst_di. rewrite (R_TOS _ _ _ _ HR E). cbind.
  rewrite (R_NOS _ _ _ _ _ HR E). cbind. destruct (y =? 0); [done|].
  destruct (cell (Z.quot x y)) as [q|]; cbind; [|done]. intros [= <-].
  destruct (R_set_TOS _ _ _ _ q HR E) as (st1 & -> & HR1). cbind.
  apply (R_set_NOS _ _ _ _ _ (Z.rem x y) HR1 eq_refl).
Qed.

Lemma sim_zr st a x l a' : R st a -> ds a = x :: l -> astep 25 a = Some a' ->
  exists st', inst_zr st = Some st' /\ R st' a'.
Proof.
  intros HR E. simpl. rewrite E. unfold inst_zr. rewrite (R_TOS _ _ _ _ HR E). cbind.
  destruct (x =? 0); [|intros [= <-]; eauto].
  destruct (R_dr _ _ _ _ HR E) as (st1 & -> & HR1). cbind. intros Ha.
  destruct (R_return _ _ _ HR1 Ha) as (v & -> & HR'). cbind. eauto.
Qed.

Lemma sim_push2 st a x l v a1 a' : R st a -> ds a = x :: l ->
  apush (with_ds a l) v = Some a1 -> apush a1 v = Some a' ->
  exists st', (st ← inst_dr st; st ← stack_push st v; stack_push st v) = Some st' /\ R st' a'.
Proof.
  intros HR E H1 H2. destruct (R_dr _ _ _ _ HR E) as (st1 & -> & HR1). cbind.
  destruct (R_push _ _ _ _ HR1 H1) as (st2 & -> & HR2). cbind. by eapply R_push.
Qed.

Lemma sim_iq st a x l a' : R st a -> ds a = x :: l -> astep 28 a = Some a' ->
  exists st', inst_iq st = Some st' /\ R st' a'.
Proof.
  intros HR E. simpl. rewrite E. unfold inst_iq. rewrite (R_TOS _ _ _ _ HR E). cbind.
  destruct (x =? 0); [|destruct (x =? 1); [|intros [= <-]; eauto]].
  - destruct (apush (with_ds a l) 0) eqn:H1; cbind; [|done]. by eapply sim_push2.
  - destruct (apush (with_ds a l) 1) eqn:H1; cbind; [|done]. by eapply sim_push2.
Qed.

Lemma sim_ii_put st a c l : R st a -> ds a = 0 :: c :: l ->
  simulates inst_ii st (mk_am l (rs a) (pc a) (amem a) (inp a) (outp a ++ [u8 c])).
Proof.
  intros HR E. unfold simulates, inst_ii. rewrite (R_TOS _ _ _ _ HR E). cbind. simpl Z.eqb. cbv iota.
  destruct (R_dr _ _ _ _ HR E) as (st1 & -> & HR1). cbind.
  unfold stack_pop, get_data. cbn [set_sp sp data].
  replace (sp st1 - 1 + 1) with (sp st1) by lia.
  pose proof (R_TOS _ _ c l HR1 eq_refl) as Ht. unfold TOS, get_data in Ht. rewrite Ht. cbind.
  eexists. split; [done|]. destruct HR1 as [Hd ? ? ? ? Ho]. cbn in Hd. split; try done.
  - eapply sr_tail; exact Hd.
  - simpl. by rewrite Ho.
Qed.

Lemma sim_ii_get st a l c rest : R st a -> ds a = 1 :: l -> inp a = c :: rest -> (c <=? 0) = false ->
  simulates inst_ii st (mk_am (c :: l) (rs a) (pc a) (amem a) rest (outp a)).
Proof.
  intros HR E Ei Hc. unfold simulates, inst_ii. rewrite (R_TOS _ _ _ _ HR E). cbind. simpl Z.eqb. cbv iota.
  rewrite (R_inp _ _ HR), Ei, Hc.
  destruct (R_dr _ _ _ _ HR E) as (st1 & -> & HR1). cbind.
  destruct (R_push st1 (with_ds a l) c (with_ds a (c :: l)) HR1) as (st2 & -> & HR2).
  { unfold apush. simpl. destruct (R_ds _ _ HR) as (_ & Hl & _). rewrite E, zlen_cons in Hl. by zif_true. }
  cbind. eexists. split; [done|]. destruct HR2. by split.
Qed.

Lemma astep_range op a a' : astep op a = Some a' -> 0 <= op < 30.
Proof.
  intros H. destruct op as [|p|p]; [lia| |done].
  do 5 (destruct p as [p|p|]; try lia); done.
Qed.

Ltac nat_cases n k :=
  lazymatch k with
  | O => idtac
  | S ?k' => destruct n as [|n]; [|nat_cases n k']
  end.

(** The table entry of the opcode exists and performs the abstract step. *)
Lemma instr_simulates op st a a' :
  R st a -> astep op a = Some a' -> exists f, znth instructions op = Some f /\ simulates f st a'.
Proof.
  intros HR H. pose proof (astep_range _ _ _ H) as Hop.
  destruct (znth_in_range instructions op) as [f Hf]; [exact Hop|]. exists f. split; [done|].
  assert (Hc : exists n, op = Z.of_nat n /\ (n < 30)%nat) by (exists (Z.to_nat op); lia).
  destruct Hc as (n & -> & Hn). clear Hop.
  nat_cases n 30%nat; [..|lia]; cbn in Hf; injection Hf as <-; clear Hn.
  all: try (apply sim_run1).
  - simpl in H. injection H as <-. by exists st.
  - by eapply sim_li.
  - simpl in H. destruct (ds a) as [|x l] eqn:E; [done|]. unfold inst_du.
    rewrite (R_TOS _ _ _ _ HR E). by eapply R_push.
  - simpl in H. destruct (ds a) as [|x l] eqn:E; [done|]. injection H as <-. by eapply R_dr.
  - simpl in H. destruct (ds a) as [|y [|x l]] eqn:E; try done. injection H as <-. by eapply sim_sw.
  - simpl in H. destruct (ds a) as [|x l] eqn:E; [done|]. by eapply sim_pu.
  - simpl in H. destruct (rs a) as [|x l] eqn:E; [done|]. by eapply sim_po.
  - simpl in H. destruct (ds a) as [|x l] eqn:E; [done|].
    destruct (cell (x - 1)) as [t|] eqn:Et; [|done]. injection H as <-. by eapply sim_ju.
  - simpl in H. destruct (ds a) as [|x l] eqn:E; [done|].
    destruct (cell (x - 1)) as [t|] eqn:Et; [|done]. cbn in H.
    destruct (arpush _ _) as [a1|] eqn:Hp; [|done]. injection H as <-. by eapply sim_ca.
  - pose proof H as H'. simpl in H'. destruct (ds a) as [|x [|b l]] eqn:E; try done. by eapply sim_cc.
  - by eapply sim_re.
  - by eapply R_binary.
  - by eapply R_binary.
  - by eapply R_binary.
  - by eapply R_binary.
  - pose proof H as H'. simpl in H'. destruct (ds a) as [|x l] eqn:E; [done|]. by eapply sim_fe.
  - pose proof H as H'. simpl in H'. destruct (ds a) as [|t [|v l]] eqn:E; try done. by eapply sim_st.
  - by eapply R_binary.
  - by eapply R_binary.
  - by eapply R_binary.
  - pose proof H as H'. simpl in H'. destruct (ds a) as [|y [|x l]] eqn:E; try done. by eapply sim_di.
  - by eapply R_binary.
  - by eapply R_binary.
  - by eapply R_binary.
  - by eapply R_binary.
  - pose proof H as H'. simpl in H'. destruct (ds a) as [|x l] eqn:E; [done|]. by eapply sim_zr.
  - simpl in H. injection H as <-. eexists. split; [done|]. by apply R_set_ip.
  - by eapply R_push.
  - pose proof H as H'. simpl in H'. destruct (ds a) as [|x l] eqn:E; [done|]. by eapply sim_iq.
  - simpl in H. destruct (ds a) as [|[|[p|p|]|p] l] eqn:E; try done.
    + destruct l as [|c l]; [done|]. injection H as <-. by eapply sim_ii_put.
    + destruct (inp a) as [|c rest] eqn:Ei; [done|]. destruct (c <=? 0) eqn:Ec; [done|].
      injection H as <-. by eapply sim_ii_get.
Qed.

Lemma dispatch_simulates op st a a' : R st a -> astep op a = Some a' ->
  exists st', dispatch op (Running st) = Some (Running st') /\ R st' a'.
Proof.
  intros HR H. destruct (instr_simulates op st a a' HR H) as (f & Hf & st' & E & HR').
  exists st'. unfold dispatch. rewrite Hf. cbind. done.
Qed.

Lemma bundle_simulates st a a' opcode : R st a -> abundle a opcode = Some a' ->
  exists st', process_opcode_bundle st opcode = Some (Running st') /\ R st' a'.
Proof.
  intros HR. unfold abundle, process_opcode_bundle.
  destruct (astep (opcode .& 0xFF) a) as [a1|] eqn:E1; cbind; [|done].
  destruct (dispatch_simulates _ _ _ _ HR E1) as (st1 & -> & HR1). cbind.
  destruct (astep ((opcode .>> 8) .& 0xFF) a1) as [a2|] eqn:E2; cbind; [|done].
  destruct (dispatch_simulates _ _ _ _ HR1 E2) as (st2 & -> & HR2). cbind.
  destruct (astep ((opcode .>> 16) .& 0xFF) a2) as [a3|] eqn:E3; cbind; [|done].
  destruct (dispatch_simulates _ _ _ _ HR2 E3) as (st3 & -> & HR3). cbind.
  intros E4. by eapply dispatch_simulates.
Qed.

Lemma execute_step_simulates st a a' : R st a -> aexec_step a = Some a' ->
  exists st', execute_step st = Some (Running st') /\ R st' a'.
Proof.
  intros HR. unfold aexec_step, execute_step. rewrite (R_mem_get _ _ _ HR), (R_pc _ _ HR).
  destruct (amem_get a (pc a)) as [opcode|]; cbind; [|done].
  destruct (abundle a opcode) as [a1|] eqn:E; cbind; [|done].
  destruct (bundle_simulates _ _ _ _ HR E) as (st1 & -> & HR1). cbind. intros [= <-].
  eexists. split; [done|]. cbn [set_ip rp].
  destruct (R_rs _ _ HR1) as [Hrp _]. rewrite Hrp, (R_pc _ _ HR1).
  destruct (rs a1) as [|r l] eqn:Er.
  - destruct HR1. split; try done.
  - rewrite zlen_cons. pose proof (zlen_nonneg l). zif_false. by apply R_set_ip.
Qed.

Lemma execute_loop_simulates fuel : forall st a a', R st a -> aexec fuel a = Some a' ->
  exists st', execute_loop fuel st = Some (Running st') /\ R st' a'.
Proof.
  induction fuel as [|fuel IH]; intros st a a' HR; simpl; rewrite (R_pc _ _ HR);
    (destruct (pc a <? IMAGE_SIZE); [|intros [= <-]; eauto]).
  - intros [= <-]. eauto.
  - destruct (aexec_step a) as [a1|] eqn:E; cbind; [|done].
    destruct (execute_step_simulates _ _ _ HR E) as (st1 & -> & HR1). cbind. by apply IH.
Qed.

(** * Properties *)

(** Every opcode the abstract machine can step has a table entry, and the C
    function behind it performs that step on the arrays: operands and results at
    the right cells, stacks within their bounds, no undefined arithmetic. *)
Theorem nga_instruction_refines op st a a' :
  R st a -> astep op a = Some a' ->
  exists f st', znth instructions op = Some f /\ f st = Some (Running st') /\ R st' a'.
Proof. intros HR H. destruct (instr_simulates op st a a' HR H) as (f & ? & st' & ? & ?). eauto. Qed.

(** C38: a run of the abstract machine is a run of [execute]: same bundles, same
    control flow through the address stack, ending with the same stacks, image,
    remaining input and output. *)
Theorem nga_execute_refines fuel st a a' :
  R st a -> rs a = [0] -> aexec fuel (with_pc a 0) = Some a' ->
  exists st', execute fuel st 0 = Some (Running st') /\ R st' a'.
Proof.
  intros HR Hrs Ha. unfold execute. eapply execute_loop_simulates; [|exact Ha].
  destruct HR as [? Hr ? ? ? ?]. split; try done. simpl. rewrite Hrs in *.
  destruct Hr as (Hrp & ? & Hk). change (zlen [0]) with 1 in Hrp. rewrite Hrp in Hk.
  split; [done|]. split; [done|exact Hk].
Qed.

(** After popping the last data cell (an underflow) the machine stops: the
    instruction pointer is past the image. *)
Theorem nga_underflow_halts st :
  sp st = 0 -> exists st', inst_dr st = Some st' /\ ip st' = IMAGE_SIZE /\ sp st' = -1.
Proof.
  intros Hs. unfold inst_dr, put_data, arr_set. rewrite Hs. cbn. eauto.
Qed.

(** * The shift instruction *)

Lemma ones_tail y i : 0 < y <= 31 ->
  Z.testbit (u32 (.~ (0xFFFFFFFF .>> y))) i = (32 - y <=? i) && (i <? 32).
Proof.
  intros Hy. unfold u32. change 4294967296 with (2 ^ 32). destruct (decide (i < 0)).
  { rewrite Z.testbit_neg_r by done. destruct (32 - y <=? i) eqn:E; zbool; [lia|done]. }
  destruct (decide (32 <= i)) as [?|Hi].
  { rewrite Z.mod_pow2_bits_high by lia. destruct (i <? 32) eqn:E; zbool; [lia|by rewrite andb_false_r]. }
  rewrite Z.mod_pow2_bits_low by lia. rewrite Z.lnot_spec, Z.shiftr_spec by lia.
  change 0xFFFFFFFF with (Z.ones 32). rewrite Z.testbit_ones by lia.
  destruct (32 - y <=? i) eqn:E1, (i <? 32) eqn:E2, (0 <=? i + y) eqn:E3, (i + y <? 32) eqn:E4;
    zbool; simpl; done || lia.
Qed.

(** C40: the right shift of a negative cell is the arithmetic shift exactly when
    the bits that the 32-bit mask sets were set already; for values that fit 32
    bits they always are. *)
Theorem nga_shift_arithmetic x y :
  x < 0 -> 0 < y <= 31 ->
  (shift x y = Some (x .>> y) <->
   forall i, 32 - y <= i < 32 -> Z.testbit x (i + y) = true) /\
  (-2147483648 <= x -> shift x y = Some (x .>> y)).
Proof.
  intros Hx Hy. assert (Hs : shift x y = Some ((x .>> y) .| u32 (.~ (0xFFFFFFFF .>> y)))).
  { unfold shift. zif_false. replace ((x <? 0) && (0 <? y)) with true by lia. by zif_false. }
  assert (Hiff : shift x y = Some (x .>> y) <->
     forall i, 32 - y <= i < 32 -> Z.testbit x (i + y) = true).
  { rewrite Hs. split.
    - intros [= He] i Hi. apply (f_equal (fun z => Z.testbit z i)) in He.
      rewrite Z.lor_spec, ones_tail, Z.shiftr_spec in He by lia.
      replace ((32 - y <=? i) && (i <? 32)) with true in He by lia. by rewrite orb_true_r in He.
    - intros Hb. f_equal. apply Z.bits_inj'. intros i Hi. rewrite Z.lor_spec, ones_tail by done.
      destruct ((32 - y <=? i) && (i <? 32)) eqn:E; [|by rewrite orb_false_r].
      rewrite orb_true_r, Z.shiftr_spec by done. symmetry. apply Hb. zbool. lia. }
  split; [done|]. intros Hlo. apply Hiff. intros i Hi.
  assert (Hq : x / 2 ^ (i + y) = -1).
  { assert (H32 : 2 ^ 32 <= 2 ^ (i + y)) by (apply Z.pow_le_mono_r; lia). change (2 ^ 32) with 4294967296 in H32.
    symmetry. apply (Z.div_unique x (2 ^ (i + y)) (-1) (x + 2 ^ (i + y))); lia. }
  rewrite Z.testbit_odd, Z.shiftr_div_pow2, Hq by lia. done.
Qed.

(** The last shift is the arithmetic one; the machine computes the one before. *)
Example shift_wrong : shift (-4294967296) 1 = Some (-2147483648) /\ shift (-8589934592) 1 = Some (-2147483648)
  /\ (-8589934592) .>> 1 = -4294967296.
Proof. repeat split. Qed.

(** * The line editor *)

Lemma arr_get_some n a i : 0 <= i < n -> arr_get n a i = Some (default 0 (a !! i)).
Proof. intros. unfold arr_get. by zif_true. Qed.

Lemma put_buffer_some e c : 0 <= pos e < 200 ->
  put_buffer e c = Some (mk_editor (pos e + 1) (escape_level e) (<[pos e := u8 c]> (buffer e))).
Proof. intros. unfold put_buffer, arr_set. by zif_true. Qed.

(** The string read from index [i] when the cells hold [s] and then zero. *)
Lemma buffer_string_spec s : forall fuel b i,
  (length s < fuel)%nat -> 0 <= i -> i + zlen s < 200 ->
  (forall k c, s !! k = Some c -> default 0 (b !! (i + Z.of_nat k)) = c /\ c <> 0) ->
  default 0 (b !! (i + zlen s)) = 0 -> buffer_string fuel b i = Some s.
Proof.
  induction s as [|c s IH]; intros fuel b i Hf Hi Hl Hk Hz; (destruct fuel as [|fuel]; [simpl in Hf; lia|]);
    simpl; rewrite arr_get_some by (rewrite ?zlen_cons in Hl; try pose proof (zlen_nonneg s); unfold zlen in *; simpl in *; lia); cbind.
  - change (zlen (@nil Z)) with 0 in Hz. rewrite Z.add_0_r in Hz. by rewrite Hz.
  - destruct (Hk O c eq_refl) as [Hc Hne]. rewrite Z.add_0_r in Hc. rewrite Hc. zif_false.
    rewrite zlen_cons in *. rewrite (IH fuel b (i + 1)); [done|simpl in Hf; lia|lia|lia| |].
    + intros k c' Hk'. destruct (Hk (S k) c' Hk') as [H1 H2]. split; [|done].
      rewrite <- H1. do 2 f_equal. lia.
    + etransitivity; [|exact Hz]. do 2 f_equal. lia.
Qed.

(** Some string is read when some cell at or after [i] holds zero. *)
Lemma buffer_string_bound b j : forall fuel i,
  0 <= i <= j -> j < 200 -> default 0 (b !! j) = 0 -> j - i < Z.of_nat fuel ->
  exists s, buffer_string fuel b i = Some s /\ zlen s <= j - i.
Proof.
  induction fuel as [|fuel IH]; intros i Hi Hj Hz Hf; [lia|]. simpl.
  rewrite arr_get_some by lia. cbind. destruct (default 0 (b !! i) =? 0) eqn:E; zbool.
  - exists []. split; [done|]. rewrite zlen_nil. lia.
  - destruct (decide (i = j)) as [->|]; [done|].
    destruct (IH (i + 1)) as (s & -> & Hs); [lia..|]. cbind. eexists. split; [done|]. rewrite zlen_cons. lia.
Qed.

Definition editor_ok (e : editor) : Prop := 0 <= pos e <= 62 /\ 0 <= escape_level e <= 2.

Lemma erase_ok e : editor_ok e -> editor_ok (erase e).
Proof. unfold editor_ok, erase. intros. zif; simpl; lia. Qed.

Lemma check_length_ok e run :
  0 <= pos e <= 63 -> 0 <= escape_level e <= 2 ->
  exists e' over, check_length e run = (e', run, over) /\ editor_ok e'.
Proof.
  intros. unfold check_length, editor_ok, LINE_LEN. zif; do 2 eexists; (split; [done|]); simpl; lia.
Qed.

(** A session goes on below the line length, and leaves the position below it too, or
    at it after [bye]. *)
Lemma retro_app_char_ok frame e c : zlen frame = 100 -> editor_ok e ->
  exists e' run over, retro_app_char frame e c = Some (e', run, over) /\
    (over = false -> editor_ok e') /\ 0 <= pos e' <= 63.
Proof.
  intros Hfr Hok. pose proof Hok as [Hp He]. unfold retro_app_char.
  assert (Hchk : forall e0 run, 0 <= pos e0 <= 63 -> 0 <= escape_level e0 <= 2 ->
    exists e' run' over, Some (check_length e0 run) = Some (e', run', over) /\
      (over = false -> editor_ok e') /\ 0 <= pos e' <= 63).
  { intros e0 run H1 H2. destruct (check_length_ok e0 run H1 H2) as (e' & over & -> & ?).
    do 3 eexists. split; [done|]. split; [done|]. unfold editor_ok in *. lia. }
  pose proof (erase_ok e Hok) as [Hep Hee].
  zif; [do 3 eexists; split; [done|]; split; [done|lia]|]. destruct (escape_level e =? 0) eqn:E0; zbool.
  - destruct ((c =? 13) || (c =? 10)).
    + rewrite put_buffer_some by lia. cbind. unfold process_buffer. cbn [buffer set_pos pos escape_level].
      destruct (buffer_string_bound (<[pos e := u8 0]> (buffer e)) (pos e) 200 0) as (s & -> & Hs);
        [lia|lia|by rewrite lookup_insert_eq|lia|]. cbind.
      case_decide; cbind; [do 3 eexists; split; [done|]; split; [done|simpl; lia]|].
      zif_false. cbind. apply Hchk; unfold erase; simpl; lia.
    + destruct ((c =? 0x7f) || (c =? 0x8)); [apply Hchk; lia|].
      destruct (c =? 0x1b); [apply Hchk; simpl; lia|].
      rewrite put_buffer_some by lia. cbind. apply Hchk; simpl; lia.
  - destruct (escape_level e =? 1) eqn:E1; zbool.
    + apply Hchk; simpl; [lia|]. zif; lia.
    + destruct (c =? 67); [rewrite put_buffer_some by lia; cbind; apply Hchk; simpl; lia|].
      destruct (c =? 68); cbind; apply Hchk; simpl; lia.
Qed.

Lemma retro_app_loop_ok frame cs : (forall n, zlen (frame n) = 100) -> forall e, editor_ok e ->
  exists e' rets over, retro_app_loop frame e cs = Some (e', rets, over) /\ 0 <= pos e' <= 63.
Proof.
  intros Hfr. induction cs as [|c cs IH]; intros e Hok; simpl.
  { do 3 eexists. split; [done|]. unfold editor_ok in Hok. lia. }
  destruct (retro_app_char_ok (frame (length cs)) e c (Hfr _) Hok) as (e' & run & over & -> & Hok' & Hp). cbind.
  destruct over; [by do 3 eexists|]. destruct (IH e' (Hok' eq_refl)) as (e2 & rest & o & -> & ?). cbind. by do 3 eexists.
Qed.

(** At 63 or above the length is not looked at again, and the buffer ends. *)
Lemma retro_app_loop_over frame n : forall e, escape_level e = 0 -> 63 <= pos e <= 200 -> pos e + Z.of_nat n = 201 ->
  retro_app_loop frame e (repeat 65 n) = None.
Proof.
  induction n as [|n IH]; intros e He Hp Hn; cbn [repeat retro_app_loop]; [lia|].
  assert (Hc : forall f, retro_app_char f e 65 = e ← put_buffer e 65; Some (check_length e None)).
  { intros f. unfold retro_app_char. by rewrite He. }
  rewrite Hc. destruct (decide (pos e = 200)) as [E|E].
  - unfold put_buffer, arr_set. rewrite E. by zif_false.
  - rewrite put_buffer_some by lia. cbind. unfold check_length, LINE_LEN. cbn [pos]. zif_false. cbn iota beta.
    by rewrite IH by (cbn [pos escape_level]; lia || done).
Qed.

(** C39: the line editor stays inside its buffers for every input (escape sequences,
    backspaces, zeros, long lines), exactly when the session starts with the static
    position at 62 or below; it leaves the position at 63 or below.  The first session
    starts at 0; a session that [bye] ends can leave 63, and then the test for equality
    with 63 does not stop the next one. *)
Theorem retro_app_safe frame p b : (forall n, zlen (frame n) = 100) -> 0 <= p <= 200 ->
  ((forall cs, is_Some (retro_app frame p b cs)) <-> p <= 62) /\
  (p <= 62 -> forall cs e' rets over, retro_app frame p b cs = Some (e', rets, over) -> 0 <= pos e' <= 63).
Proof.
  intros Hfr Hp. split; [split|].
  - intros Hall. destruct (decide (p <= 62)); [done|]. exfalso.
    destruct (Hall (repeat 65 (Z.to_nat (201 - p)))) as [x Hx]. unfold retro_app in Hx.
    by rewrite retro_app_loop_over in Hx by (cbn [pos escape_level]; lia || done).
  - intros Hle cs. destruct (retro_app_loop_ok frame cs Hfr (mk_editor p 0 b)) as (e' & rets & over & E & _); [split; simpl; lia|].
    unfold retro_app. by rewrite E.
  - intros Hle cs e' rets over E. destruct (retro_app_loop_ok frame cs Hfr (mk_editor p 0 b)) as (e2 & r2 & o2 & E2 & ?);
      [split; simpl; lia|]. unfold retro_app in E. by simplify_eq.
Qed.

(** A character that is stored. *)
Definition printable (c : Z) : bool := (32 <=? c) && (c <? 127).

Lemma type_char frame e c : printable c = true -> escape_level e = 0 -> 0 <= pos e < 62 ->
  retro_app_char frame e c =
    Some (mk_editor (pos e + 1) 0 (<[pos e := c]> (buffer e)), None, false).
Proof.
  unfold printable. intros Hc He Hp. unfold retro_app_char. rewrite He.
  zif_false. change (0 =? 0) with true. cbv iota.
  replace ((c =? 13) || (c =? 10)) with false by lia.
  replace ((c =? 0x7f) || (c =? 0x8)) with false by lia. zif_false.
  rewrite put_buffer_some by lia. cbind. unfold check_length, LINE_LEN. cbn [pos]. zif_false.
  rewrite He, u8_id by lia. done.
Qed.

(** Typing stores the characters and moves on. *)
Lemma type_line frame s : forall e rest,
  forallb printable s = true -> escape_level e = 0 -> 0 <= pos e -> pos e + zlen s <= 62 ->
  exists b', retro_app_loop frame e (s ++ rest) = retro_app_loop frame (mk_editor (pos e + zlen s) 0 b') rest /\
    (forall k c, s !! k = Some c -> default 0 (b' !! (pos e + Z.of_nat k)) = c) /\
    (forall i, i < pos e -> b' !! i = buffer e !! i).
Proof.
  induction s as [|c s IH]; intros e rest Hs He Hp Hl.
  - exists (buffer e). change (zlen (@nil Z)) with 0. rewrite Z.add_0_r, <- He. by destruct e.
  - simpl in Hs. apply andb_true_iff in Hs as [Hc Hs]. rewrite zlen_cons in *. pose proof (zlen_nonneg s).
    simpl app. simpl retro_app_loop. rewrite type_char by (done || lia). cbind.
    destruct (IH (mk_editor (pos e + 1) 0 (<[pos e := c]> (buffer e))) rest) as (b' & Hr & Hk & Hi);
      [done|done|simpl; lia|simpl; lia|]. simpl in *. exists b'. rewrite Hr. split; [|split].
    + replace (pos e + 1 + zlen s) with (pos e + (1 + zlen s)) by lia.
      by destruct (retro_app_loop frame (mk_editor (pos e + (1 + zlen s)) 0 b') rest) as [[[e2 l] o]|].
    + intros [|k] c' Hc'.
      * injection Hc' as <-. rewrite Z.add_0_r, Hi, lookup_insert_eq by lia. done.
      * rewrite <- (Hk k c' Hc'). do 2 f_equal. lia.
    + intros i Hlt. rewrite Hi, lookup_insert_ne by lia. done.
Qed.

(** A printable line of at most 62 characters typed from position [p] and ended by
    return creates a thread: while [process_buffer] runs, [retro_code] points to an array
    that holds what the buffer held below [p], the line, and then what the stack held
    there: no zero ends it. *)
Lemma retro_app_line frame p g b s : zlen (frame O) = 100 ->
  zlen g = p -> p + zlen s <= 62 -> forallb printable s = true -> g ++ s <> bye ->
  (forall k c, g !! k = Some c -> default 0 (b !! Z.of_nat k) = c /\ c <> 0) ->
  exists e', retro_app frame p b (s ++ [10]) = Some (e', [(g ++ s) ++ drop (length (g ++ s)) (frame O)], false) /\ pos e' = 0.
Proof.
  intros Hfr Hg Hl Hs Hbye Hcells. pose proof (zlen_nonneg g). pose proof (zlen_nonneg s). unfold retro_app.
  destruct (type_line frame s (mk_editor p 0 b) [10]) as (b' & -> & Hk & Hi); [done..|simpl; lia|done|]. simpl in Hk, Hi.
  simpl retro_app_loop. unfold retro_app_char. cbn [escape_level pos].
  change (10 <? 0) with false. change (0 =? 0) with true. change ((10 =? 13) || (10 =? 10)) with true. cbv iota.
  rewrite put_buffer_some by (simpl; lia). cbind. unfold process_buffer. cbn [buffer pos escape_level].
  rewrite (buffer_string_spec (g ++ s)).
  - cbind. rewrite decide_False by done. cbn [length]. rewrite Hfr, zlen_app. zif_false. cbind. eexists. split; [done|]. done.
  - rewrite length_app. unfold zlen in *. lia.
  - lia.
  - rewrite zlen_app. lia.
  - intros k c Hc. pose proof (lookup_lt_Some _ _ _ Hc) as Hlt. rewrite length_app in Hlt.
    rewrite lookup_insert_ne by (unfold zlen in *; lia).
    destruct (decide (k < length g)%nat).
    + rewrite lookup_app_l in Hc by done. rewrite Z.add_0_l, Hi by (unfold zlen in *; lia). by apply Hcells.
    + rewrite lookup_app_r in Hc by lia. split.
      * rewrite <- (Hk _ _ Hc). do 2 f_equal. unfold zlen in *. lia.
      * pose proof (proj1 (forallb_forall printable s) Hs c) as Hpr.
        assert (In c s) by (apply list_elem_of_In; eapply list_elem_of_lookup_2; exact Hc).
        specialize (Hpr H1). unfold printable in Hpr. lia.
  - rewrite zlen_app, Z.add_0_l, Hg, lookup_insert_eq. done.
Qed.

(** The line "bye" ends the session and leaves the static position at 4, so
    the next session's first line starts behind four cells of its own,
    uninitialised buffer. *)
Theorem retro_app_bye frame b :
  exists e', retro_app frame 0 b (bye ++ [13]) = Some (e', [], true) /\ pos e' = 4.
Proof.
  destruct (type_line frame bye (mk_editor 0 0 b) [13]) as (b' & Hr & Hk & _); [done..|by vm_compute|].
  unfold retro_app. rewrite Hr. simpl retro_app_loop. unfold retro_app_char. cbn [escape_level pos].
  change (13 <? 0) with false. change (0 =? 0) with true. change ((13 =? 13) || (13 =? 10)) with true. cbv iota.
  rewrite put_buffer_some by (by vm_compute). cbind. unfold process_buffer. cbn [buffer].
  rewrite (buffer_string_spec bye); [|cbn; lia|lia|by vm_compute| |].
  - cbind. rewrite decide_True by done. cbind. eexists. split; [done|]. done.
  - intros k c Hc. pose proof (lookup_lt_Some _ _ _ Hc). change (length bye) with 3%nat in *.
    simpl pos. change (zlen bye) with 3. rewrite lookup_insert_ne by lia. split; [by apply Hk|].
    destruct k as [|[|[|k]]]; simpl in Hc; congruence || lia.
  - simpl pos. change (zlen bye) with 3. by rewrite lookup_insert_eq.
Qed.

(** The array is gone when the thread reads after the return: a read through
    [retro_code] is undefined. *)
Theorem retro_code_dangles st ret : TOS st = Some 1 -> inst_ii (retro_processor true ret st) = None.
Proof. intros E. unfold inst_ii. change (TOS (retro_processor true ret st)) with (TOS st). by rewrite E. Qed.

(** A zero inside the line hides the rest from the comparison with "bye": the position
    is left at 63, and the next session writes behind its buffer. *)
Example bye_at_63 : let stack := fun _ : nat => repeat 0 100 in
  (exists e' , retro_app stack 0 ∅ (bye ++ [0] ++ repeat 65 58 ++ [13]) = Some (e', [], true) /\ pos e' = 63) /\
  retro_app stack 63 ∅ (repeat 65 138) = None.
Proof. split; [eexists; split; [vm_compute; reflexivity|reflexivity]|vm_compute; reflexivity]. Qed.

(** Before the return the thread reads the line, and then what the stack held. *)
Example ret_not_ended : let stack := fun _ : nat => repeat 88 100 in
  option_map (fun x => map (take 4) x.1.2) (retro_app stack 0 ∅ [49; 50; 10]) = Some [[49; 50; 88; 88]].
Proof. vm_compute. reflexivity. Qed.

(** * Witnesses *)

(** lit 2, lit 3, add, halt. *)
Definition ex_prog : gmap Z Z := <[0 := 1 + 1 * 256 + 17 * 65536 + 26 * 16777216]> (<[1 := 2]> (<[2 := 3]> ∅)).
Definition ex_vm : vm := mk_vm 0 1 0 ∅ ∅ ex_prog [] [].
Definition ex_am : am := mk_am [] [0] 0 ex_prog [] [].

Lemma ex_R : R ex_vm ex_am.
Proof.
  split; try done; split; try done; (split; [done|]); intros [|k] v; simpl; try done.
  intros [= <-]. done.
Qed.

Lemma nga_instruction_refines_witness :
  exists f st', znth instructions 27 = Some f /\ f ex_vm = Some (Running st') /\
    R st' (mk_am [2] [0] 0 ex_prog [] []).
Proof. apply (nga_instruction_refines 27 ex_vm ex_am); [apply ex_R|reflexivity]. Defined.

Lemma nga_execute_refines_witness :
  exists st', execute 2 ex_vm 0 = Some (Running st') /\ R st' (mk_am [5] [0] 524289 ex_prog [] []).
Proof. apply (nga_execute_refines 2 ex_vm ex_am); [apply ex_R|reflexivity|reflexivity]. Defined.

Lemma nga_underflow_halts_witness :
  exists st', inst_dr ex_vm = Some st' /\ ip st' = IMAGE_SIZE /\ sp st' = -1.
Proof. apply nga_underflow_halts. reflexivity. Defined.

Lemma nga_shift_arithmetic_witness :
  (shift (-5) 1 = Some ((-5) .>> 1) <->
   forall i, 32 - 1 <= i < 32 -> Z.testbit (-5) (i + 1) = true) /\
  (-2147483648 <= -5 -> shift (-5) 1 = Some ((-5) .>> 1)).
Proof. apply nga_shift_arithmetic; lia. Defined.

Lemma retro_app_safe_witness : let stack := fun _ : nat => repeat 0 100 in
  is_Some (retro_app stack 4 ∅ [27; 91; 67; 8; 65; 10]) /\ ~ forall cs, is_Some (retro_app stack 63 ∅ cs).
Proof.
  intros stack. split.
  - apply (retro_app_safe stack 4 ∅); [intros n; reflexivity|lia..].
  - intros H. assert (Hle : 63 <= 62); [|lia]. apply (retro_app_safe stack 63 ∅); [intros n; reflexivity|lia|exact H].
Defined.
