(* ===== verification/BinnFormat.v ===== *)
(** The Binn container format, as src/pus/lib/binn/binn.c reads and writes it:
    type codes, the big-endian copies, the walk over a stored value, map ids,
    the header, the searches by id and by key, and integer compression.

    A C buffer is the list of its bytes and a pointer into it an offset; a read
    outside the buffer is undefined behaviour, [None].  Where the C function
    returns a pointer that may be NULL the result is an inner option, so
    [Some None] is NULL and [Some (Some p)] the offset [p].  The build is
    little-endian and without BINN_EXTENDED.

    A [char *] key is the list of the characters before its terminating zero. *)
From S2P Require Import Prelude CMem.

(** * Constants *)

Definition BINN_MAGIC : Z := 0x1F22B11F.
Definition MAX_BINN_HEADER : Z := 9.
Definition MIN_BINN_SIZE : Z := 3.
Definition CHUNK_SIZE : Z := 256.
Definition BINN_STRUCT : Z := 1.
Definition BINN_BUFFER : Z := 2.
Definition INVALID_BINN : Z := 0.

Definition BINN_STORAGE_NOBYTES : Z := 0x00.
Definition BINN_STORAGE_BYTE : Z := 0x20.
Definition BINN_STORAGE_WORD : Z := 0x40.
Definition BINN_STORAGE_DWORD : Z := 0x60.
Definition BINN_STORAGE_QWORD : Z := 0x80.
Definition BINN_STORAGE_STRING : Z := 0xA0.
Definition BINN_STORAGE_BLOB : Z := 0xC0.
Definition BINN_STORAGE_CONTAINER : Z := 0xE0.
Definition BINN_STORAGE_VIRTUAL : Z := 0x80000.
Definition BINN_STORAGE_MIN : Z := BINN_STORAGE_NOBYTES.
Definition BINN_STORAGE_MAX : Z := BINN_STORAGE_CONTAINER.
Definition BINN_STORAGE_MASK : Z := 0xE0.
Definition BINN_STORAGE_MASK16 : Z := 0xE000.
Definition BINN_STORAGE_HAS_MORE : Z := 0x10.
Definition BINN_TYPE_MASK : Z := 0x0F.
Definition BINN_TYPE_MASK16 : Z := 0x0FFF.

Definition BINN_LIST : Z := 0xE0.
Definition BINN_MAP : Z := 0xE1.
Definition BINN_OBJECT : Z := 0xE2.
Definition BINN_NULL : Z := 0x00.
Definition BINN_TRUE : Z := 0x01.
Definition BINN_FALSE : Z := 0x02.
Definition BINN_UINT8 : Z := 0x20.
Definition BINN_INT8 : Z := 0x21.
Definition BINN_UINT16 : Z := 0x40.
Definition BINN_INT16 : Z := 0x41.
Definition BINN_UINT32 : Z := 0x60.
Definition BINN_INT32 : Z := 0x61.
Definition BINN_UINT64 : Z := 0x80.
Definition BINN_INT64 : Z := 0x81.
Definition BINN_STRING : Z := 0xA0.
Definition BINN_DATETIME : Z := 0xA1.
Definition BINN_DATE : Z := 0xA2.
Definition BINN_TIME : Z := 0xA3.
Definition BINN_DECIMAL : Z := 0xA4.
Definition BINN_CURRENCYSTR : Z := 0xA5.
Definition BINN_SINGLE_STR : Z := 0xA6.
Definition BINN_DOUBLE_STR : Z := 0xA7.
Definition BINN_FLOAT32 : Z := 0x62.
Definition BINN_FLOAT64 : Z := 0x82.
Definition BINN_CURRENCY : Z := 0x83.
Definition BINN_BLOB : Z := 0xC0.
Definition BINN_BOOL : Z := 0x80061.
Definition BINN_HTML : Z := 0xB001.
Definition BINN_XML : Z := 0xB002.
Definition BINN_JSON : Z := 0xB003.
Definition BINN_JAVASCRIPT : Z := 0xB004.
Definition BINN_CSS : Z := 0xB005.
Definition BINN_JPEG : Z := 0xD001.
Definition BINN_GIF : Z := 0xD002.
Definition BINN_PNG : Z := 0xD003.
Definition BINN_BMP : Z := 0xD004.

Definition BINN_FAMILY_NONE : Z := 0x00.
Definition BINN_FAMILY_NULL : Z := 0xf1.
Definition BINN_FAMILY_INT : Z := 0xf2.
Definition BINN_FAMILY_FLOAT : Z := 0xf3.
Definition BINN_FAMILY_STRING : Z := 0xf4.
Definition BINN_FAMILY_BLOB : Z := 0xf5.
Definition BINN_FAMILY_BOOL : Z := 0xf6.
Definition BINN_FAMILY_BINN : Z := 0xf7.
Definition BINN_SIGNED_INT : Z := 11.
Definition BINN_UNSIGNED_INT : Z := 22.

(** * Byte ranges of a buffer *)

Definition slice (l : bytes) (i n : Z) : option bytes :=
  if (i <? 0) || (n <? 0) || (zlen l <? i + n) then None
  else Some (take (Z.to_nat n) (drop (Z.to_nat i) l)).

Definition splice (l : bytes) (i : Z) (bs : bytes) : option bytes :=
  if (i <? 0) || (zlen l <? i + zlen bs) then None
  else Some (take (Z.to_nat i) l ++ bs ++ drop (Z.to_nat (i + zlen bs)) l).

(** Signed [int] arithmetic: an overflow is undefined. *)
Definition int_ok (z : Z) : bool := (-2147483648 <=? z) && (z <? 2147483648).
Definition add32 (a b : Z) : option Z := if int_ok (a + b) then Some (a + b) else None.
Definition neg32 (a : Z) : option Z := if int_ok (- a) then Some (- a) else None.

(** A little-endian load of [n] bytes, as the processor does it. *)
Definition rd_le (l : bytes) (i n : Z) : option Z := bs ← slice l i n; Some (le_val bs).

(** [strlen] on a buffer that must hold a terminating zero. *)
Fixpoint strlen (s : bytes) : option Z :=
  match s with
  | [] => None
  | c :: s' => if c =? 0 then Some 0 else n ← strlen s'; Some (1 + n)
  end.

Definition strlen2 (str : option bytes) : option Z :=
  match str with
  | None => Some 0
  | Some s => strlen s
  end.

(** * Big-endian copies *)

Definition copy_be16 (source : bytes) : option bytes :=
  b1 ← znth source 1; b0 ← znth source 0; Some [b1; b0].

Definition copy_be32 (source : bytes) : option bytes :=
  b3 ← znth source 3; b2 ← znth source 2; b1 ← znth source 1; b0 ← znth source 0;
  Some [b3; b2; b1; b0].

Fixpoint copy_be64_loop (n : nat) (i : Z) (source : bytes) : option bytes :=
  match n with
  | O => Some []
  | S n' => b ← znth source (7 - i); bs ← copy_be64_loop n' (i + 1) source; Some (b :: bs)
  end.
Definition copy_be64 (source : bytes) : option bytes := copy_be64_loop 8 0 source.

(** [copy_be32((u32 * )&x, (u32 * )p)] into an [int]. *)
Definition rd_be32 (buf : bytes) (p : Z) : option Z :=
  s ← slice buf p 4; d ← copy_be32 s; Some (s32 (le_val d)).

(** The bytes [copy_be32] writes for the [int] [x]. *)
Definition wr_be32 (x : Z) : option bytes := copy_be32 (le_bytes 4 x).

(** * Types *)

Definition binn_create_type (storage_type data_type_index : Z) : Z :=
  if data_type_index <? 0 then -1
  else if (storage_type <? BINN_STORAGE_MIN) || (BINN_STORAGE_MAX <? storage_type) then -1
  else if data_type_index <? 16 then storage_type .| data_type_index
  else if data_type_index <? 4096 then
    let storage_type := storage_type .| BINN_STORAGE_HAS_MORE in
    let storage_type := storage_type .<< 8 in
    let data_type_index := data_type_index .>> 4 in
    storage_type .| data_type_index
  else -1.

(** One pass of the [again] loop; a virtual type goes round once more. *)
Definition type_info_narrow (long_type : Z) : Z * Z * bool :=
  if long_type <? 0 then (-1, -1, false)
  else if long_type <=? 0xff then
    (long_type .& BINN_STORAGE_MASK, long_type .& BINN_TYPE_MASK, true)
  else if long_type <=? 0xffff then
    ((long_type .& BINN_STORAGE_MASK16) .>> 8, (long_type .& BINN_TYPE_MASK16) .>> 4, true)
  else (-1, -1, false).

Definition binn_get_type_info (long_type : Z) : Z * Z * bool :=
  if (0xffff <? long_type) && negb (long_type .& BINN_STORAGE_VIRTUAL =? 0)
  then type_info_narrow (long_type .& 0xffff)
  else type_info_narrow long_type.

Definition storage_of (type : Z) : Z := fst (fst (binn_get_type_info type)).

Definition binn_get_write_storage (type : Z) : Z :=
  if (type =? BINN_SINGLE_STR) || (type =? BINN_DOUBLE_STR) then BINN_STORAGE_STRING
  else if type =? BINN_BOOL then BINN_STORAGE_NOBYTES
  else storage_of type.

Definition binn_get_read_storage (type : Z) : Z :=
  if (type =? BINN_BOOL) || (type =? BINN_TRUE) || (type =? BINN_FALSE)
  then BINN_STORAGE_DWORD
  else storage_of type.

(** [switch] labels that share a body. *)
Definition isin (x : Z) (labels : list Z) : bool := existsb (Z.eqb x) labels.

Definition type_family (type : Z) : Z :=
  if isin type [BINN_LIST; BINN_MAP; BINN_OBJECT] then BINN_FAMILY_BINN
  else if isin type [BINN_INT8; BINN_INT16; BINN_INT32; BINN_INT64;
                     BINN_UINT8; BINN_UINT16; BINN_UINT32; BINN_UINT64] then BINN_FAMILY_INT
  else if isin type [BINN_FLOAT32; BINN_FLOAT64; BINN_SINGLE_STR; BINN_DOUBLE_STR]
  then BINN_FAMILY_FLOAT
  else if isin type [BINN_STRING; BINN_HTML; BINN_CSS; BINN_XML; BINN_JSON; BINN_JAVASCRIPT]
  then BINN_FAMILY_STRING
  else if isin type [BINN_BLOB; BINN_JPEG; BINN_GIF; BINN_PNG; BINN_BMP] then BINN_FAMILY_BLOB
  else if isin type [BINN_DECIMAL; BINN_CURRENCY; BINN_DATE; BINN_TIME; BINN_DATETIME]
  then BINN_FAMILY_STRING
  else if type =? BINN_BOOL then BINN_FAMILY_BOOL
  else if type =? BINN_NULL then BINN_FAMILY_NULL
  else BINN_FAMILY_NONE.

Definition int_type (type : Z) : Z :=
  if isin type [BINN_INT8; BINN_INT16; BINN_INT32; BINN_INT64] then BINN_SIGNED_INT
  else if isin type [BINN_UINT8; BINN_UINT16; BINN_UINT32; BINN_UINT64] then BINN_UNSIGNED_INT
  else 0.

(** * Walking over a value *)

(** The length field at [p]: one byte, or four when its top bit is set; the
    result is the length and the width of the field. *)
Definition data_size (buf : bytes) (p plimit : Z) : option (option (Z * Z)) :=
  if plimit <? p then Some None
  else
    DataSize ← znth buf p;
    if DataSize .& 0x80 =? 0 then Some (Some (DataSize, 1))
    else if plimit <? p + 4 - 1 then Some None
    else
      DataSize ← rd_be32 buf p;
      Some (Some (DataSize .& 0x7FFFFFFF, 4)).

Definition AdvanceDataPos (buf : bytes) (p plimit : Z) : option (option Z) :=
  if plimit <? p then Some None
  else
    byte ← znth buf p;
    let p := p + 1 in
    let storage_type := byte .& BINN_STORAGE_MASK in
    let p := if byte .& BINN_STORAGE_HAS_MORE =? 0 then p else p + 1 in
    q ← (if storage_type =? BINN_STORAGE_NOBYTES then Some (Some p)
         else if storage_type =? BINN_STORAGE_BYTE then Some (Some (p + 1))
         else if storage_type =? BINN_STORAGE_WORD then Some (Some (p + 2))
         else if storage_type =? BINN_STORAGE_DWORD then Some (Some (p + 4))
         else if storage_type =? BINN_STORAGE_QWORD then Some (Some (p + 8))
         else if (storage_type =? BINN_STORAGE_BLOB) || (storage_type =? BINN_STORAGE_STRING) then
           s ← data_size buf p plimit;
           match s with
           | None => Some None
           | Some (DataSize, w) =>
               let p := p + w + DataSize in
               Some (Some (if storage_type =? BINN_STORAGE_STRING then p + 1 else p))
           end
         else if storage_type =? BINN_STORAGE_CONTAINER then
           s ← data_size buf p plimit;
           match s with
           | None => Some None
           | Some (DataSize, _) => Some (Some (p + (DataSize - 1)))
           end
         else Some None);
    match q with
    | None => Some None
    | Some p => if plimit <? p then Some None else Some (Some p)
    end.

(** * Map ids *)

(** The id at [p] and the position after it. *)
Definition read_map_id (buf : bytes) (p plimit : Z) : option (Z * Z) :=
  c ← znth buf p;
  let p := p + 1 in
  let extra_bytes := ((c .& 0x60) .>> 5) + 1 in
  if negb (c .& 0x80 =? 0) && (plimit <? p + extra_bytes) then Some (0, p + extra_bytes)
  else
    let type := c .& 0xE0 in
    let sign := c .& 0x10 in
    r ← (if c .& 0x80 =? 0 then Some (c .& 0x40, c .& 0x3F, p)
         else if type =? 0x80 then
           b1 ← znth buf p;
           Some (sign, ((c .& 0x0F) .<< 8) .| b1, p + 1)
         else if type =? 0xA0 then
           b1 ← znth buf p; b2 ← znth buf (p + 1);
           Some (sign, ((((c .& 0x0F) .<< 8) .| b1) .<< 8) .| b2, p + 2)
         else if type =? 0xC0 then
           b1 ← znth buf p; b2 ← znth buf (p + 1); b3 ← znth buf (p + 2);
           Some (sign, ((((((c .& 0x0F) .<< 8) .| b1) .<< 8) .| b2) .<< 8) .| b3, p + 3)
         else if type =? 0xE0 then
           id ← rd_be32 buf p;
           Some (sign, id, p + 4)
         else Some (0, 0, plimit + 2));
    let '(sign, id, p) := r in
    id ← (if sign =? 0 then Some id else neg32 id);
    Some (id, p).

(** The bytes [binn_map_set_raw] stores for an id. *)
Definition write_map_id (id : Z) : option bytes :=
  let sign := if id <? 0 then 1 else 0 in
  id ← (if sign =? 0 then Some id else neg32 id);
  if id <=? 0x3F then Some [u8 ((sign .<< 6) .| id)]
  else if id <=? 0xFFF then
    Some [u8 (0x80 .| (sign .<< 4) .| ((id .& 0xF00) .>> 8)); u8 (id .& 0xFF)]
  else if id <=? 0xFFFFF then
    Some [u8 (0xA0 .| (sign .<< 4) .| ((id .& 0xF0000) .>> 16));
          u8 ((id .& 0xFF00) .>> 8); u8 (id .& 0xFF)]
  else if id <=? 0xFFFFFFF then
    Some [u8 (0xC0 .| (sign .<< 4) .| ((id .& 0xF000000) .>> 24));
          u8 ((id .& 0xFF0000) .>> 16); u8 ((id .& 0xFF00) .>> 8); u8 (id .& 0xFF)]
  else
    id ← (if sign =? 0 then Some id else neg32 id);
    bs ← wr_be32 id;
    Some (0xE0 :: bs).

(** * Searches *)

(** What binn.c needs from outside the repository: the allocators set by
    [binn_set_alloc_functions] (the contents of the block they return, or
    NULL), and the kernel library's [strnicmp]. *)
Class BinnLib := {
  malloc_fn : Z -> option bytes;
  realloc_fn : bytes -> Z -> option bytes;
  strnicmp : bytes -> bytes -> Z -> Z;
}.

Definition tolower (c : Z) : Z := if (65 <=? c) && (c <=? 90) then c + 32 else c.

(** Equality of two strings up to letter case and up to their first zero. *)
Fixpoint ci_eq (a b : bytes) : bool :=
  match a, b with
  | [], [] => true
  | [], y :: _ => y =? 0
  | x :: _, [] => x =? 0
  | x :: a', y :: b' =>
      if (x =? 0) || (y =? 0) then (x =? 0) && (y =? 0)
      else (tolower x =? tolower y) && ci_eq a' b'
  end.

(** Their documented behaviour: a block has the size asked for, [realloc]
    keeps the contents, and [strnicmp] is zero on equal prefixes. *)
Class BinnLibOk (L : BinnLib) : Prop := {
  malloc_len : forall n b, 0 <= n -> malloc_fn n = Some b -> zlen b = n;
  realloc_len : forall old n b, 0 <= n -> realloc_fn old n = Some b -> zlen b = n;
  realloc_keeps : forall old n b, zlen old <= n -> realloc_fn old n = Some b ->
    take (length old) b = old;
  strnicmp_zero : forall a b n, 0 <= n ->
    (strnicmp a b n =? 0) = ci_eq (take (Z.to_nat n) a) (take (Z.to_nat n) b);
}.

Fixpoint SearchForID_loop (n : nat) (buf : bytes) (base plimit p id : Z) : option (option Z) :=
  match n with
  | O => Some None
  | S n' =>
      '(int32, p) ← read_map_id buf p plimit;
      if plimit <? p then Some None
      else if int32 =? id then Some (Some p)
      else
        q ← AdvanceDataPos buf p plimit;
        match q with
        | None => Some None
        | Some p => if p <? base then Some None else SearchForID_loop n' buf base plimit p id
        end
  end.

Definition SearchForID (buf : bytes) (p header_size size numitems id : Z) : option (option Z) :=
  SearchForID_loop (Z.to_nat numitems) buf p (p + size - 1) (p + header_size) id.

Fixpoint SearchForKey_loop `{BinnLib} (n : nat) (buf : bytes) (base plimit p : Z)
    (key : bytes) (keylen : Z) : option (option Z) :=
  match n with
  | O => Some None
  | S n' =>
      let advance p :=
        q ← AdvanceDataPos buf p plimit;
        match q with
        | None => Some None
        | Some p =>
            if p <? base then Some None else SearchForKey_loop n' buf base plimit p key keylen
        end in
      len ← znth buf p;
      let p := p + 1 in
      if plimit <? p then Some None
      else if 0 <? len then
        stored ← slice buf p len;
        if (strnicmp stored key len =? 0) && (keylen =? len) then Some (Some (p + len))
        else
          let p := p + len in
          if plimit <? p then Some None else advance p
      else if len =? keylen then Some (Some p)
      else advance p
  end.

Definition SearchForKey `{BinnLib} (buf : bytes) (p header_size size numitems : Z)
    (key : bytes) : option (option Z) :=
  SearchForKey_loop (Z.to_nat numitems) buf p (p + size - 1) (p + header_size) key (zlen key).

(** * Integer compression *)

(** The storage and the type a value is written with; on a little-endian
    machine the bytes it is read from do not move. *)
Definition compress_int (storage_type type : Z) (psource : bytes) : option (Z * Z) :=
  if storage_type =? BINN_STORAGE_BYTE then Some (storage_type, type)
  else
    let positive (vuint : Z) : Z :=
      if vuint <=? 255 then BINN_UINT8
      else if vuint <=? 65535 then BINN_UINT16
      else if vuint <=? 4294967295 then BINN_UINT32
      else 0 in
    let signed (vint : Z) : Z :=
      if 0 <=? vint then positive vint
      else if -128 <=? vint then BINN_INT8
      else if -32768 <=? vint then BINN_INT16
      else if -2147483648 <=? vint then BINN_INT32
      else 0 in
    type2 ← (if type =? BINN_INT64 then v ← rd_le psource 0 8; Some (signed (s64 v))
             else if type =? BINN_INT32 then v ← rd_le psource 0 4; Some (signed (s32 v))
             else if type =? BINN_INT16 then v ← rd_le psource 0 2; Some (signed (s16 v))
             else if type =? BINN_UINT64 then v ← rd_le psource 0 8; Some (positive v)
             else if type =? BINN_UINT32 then v ← rd_le psource 0 4; Some (positive v)
             else if type =? BINN_UINT16 then v ← rd_le psource 0 2; Some (positive v)
             else Some (signed 0));
    if negb (type2 =? 0) && negb (type2 =? type)
    then Some (binn_get_write_storage type2, type2)
    else Some (storage_type, type).

(** * The header *)

(** A pointer into some buffer, or NULL. *)
Definition bview : Type := option (bytes * Z).

Record hdr := Hdr { h_type : Z; h_count : Z; h_size : option Z; h_headersize : Z }.

(** [plimit && q > plimit] *)
Definition beyond (plimit : option Z) (q : Z) : bool :=
  match plimit with
  | None => false
  | Some l => l <? q
  end.

(** A size or count field: [None] inside when it would pass [plimit]. *)
Definition header_field (buf : bytes) (p : Z) (plimit : option Z) : option (option (Z * Z)) :=
  if beyond plimit p then Some None
  else
    int32 ← znth buf p;
    if int32 .& 0x80 =? 0 then Some (Some (int32, p + 1))
    else if beyond plimit (p + 4 - 1) then Some None
    else int32 ← rd_be32 buf p; Some (Some (int32 .& 0x7FFFFFFF, p + 4)).

Definition IsValidBinnHeader (pbuf : bview) (psize : option Z) : option (option hdr) :=
  match pbuf with
  | None => Some None
  | Some (buf, p0) =>
      let plimit := match psize with
                    | Some s => if 0 <? s then Some (p0 + s - 1) else None
                    | None => None
                    end in
      byte ← znth buf p0;
      let p := p0 + 1 in
      if negb (byte .& BINN_STORAGE_MASK =? BINN_STORAGE_CONTAINER) then Some None
      else if negb (byte .& BINN_STORAGE_HAS_MORE =? 0) then Some None
      else if negb (isin byte [BINN_LIST; BINN_MAP; BINN_OBJECT]) then Some None
      else
        fs ← header_field buf p plimit;
        match fs with
        | None => Some None
        | Some (size, p) =>
            fc ← header_field buf p plimit;
            match fc with
            | None => Some None
            | Some (count, p) =>
                if (size <? MIN_BINN_SIZE) || (count <? 0) then Some None
                else
                  let psize := match psize with
                               | Some s => Some (if s =? 0 then size else s)
                               | None => None
                               end in
                  Some (Some (Hdr byte count psize (p - p0)))
            end
        end
  end.

Definition binn_buf_type (pbuf : bview) : option Z :=
  h ← IsValidBinnHeader pbuf None;
  Some (match h with None => INVALID_BINN | Some h => h_type h end).

Definition binn_buf_count (pbuf : bview) : option Z :=
  h ← IsValidBinnHeader pbuf None;
  Some (match h with None => 0 | Some h => h_count h end).

Definition binn_buf_size (pbuf : bview) : option Z :=
  h ← IsValidBinnHeader pbuf (Some 0);
  Some (match h with
        | Some (Hdr _ _ (Some size) _) => size
        | _ => 0
        end).
