(* ===== verification/BinnItem.v ===== *)
(** The Binn container item of src/pus/lib/binn/binn.c: the structure, its
    creation, the raw additions to a list, a map or an object, the header
    written back, and release.

    [bptr] is what a [void *] of the structure can point to: nothing, the
    item's own buffer, another buffer (with its contents), or the value union
    inside the structure.  An [arg] is what the API's [void *ptr] parameters
    accept: NULL, a structure or a raw buffer. *)
From S2P Require Import Prelude CMem BinnFormat.

(** * The structure *)

Inductive bptr := PNull | POwn (off : Z) | PBuf (buf : bytes) (off : Z) | PSelf.

Inductive freefn_t := FnNone | FnFree | FnUser | FnTransient.

Record binn := Binn {
  header : Z; allocated : bool; writable : bool; dirty : bool;
  pbuf : option bytes; pre_allocated : bool; alloc_size : Z; used_size : Z;
  type : Z; ptr : bptr; size : Z; count : Z;
  freefn : freefn_t;
  vunion : bytes;
  disable_int_compression : bool;
}.

Definition sizeof_binn : Z := 80.

(** [memset(item, 0, sizeof(binn))] *)
Definition zero_binn : binn :=
  Binn 0 false false false None false 0 0 0 PNull 0 0 FnNone (replicate 8 0) false.

Definition with_header (x : Z) (b : binn) : binn :=
  Binn x (allocated b) (writable b) (dirty b) (pbuf b) (pre_allocated b) (alloc_size b)
    (used_size b) (type b) (ptr b) (size b) (count b) (freefn b) (vunion b)
    (disable_int_compression b).
Definition with_allocated (x : bool) (b : binn) : binn :=
  Binn (header b) x (writable b) (dirty b) (pbuf b) (pre_allocated b) (alloc_size b)
    (used_size b) (type b) (ptr b) (size b) (count b) (freefn b) (vunion b)
    (disable_int_compression b).
Definition with_writable (x : bool) (b : binn) : binn :=
  Binn (header b) (allocated b) x (dirty b) (pbuf b) (pre_allocated b) (alloc_size b)
    (used_size b) (type b) (ptr b) (size b) (count b) (freefn b) (vunion b)
    (disable_int_compression b).
Definition with_dirty (x : bool) (b : binn) : binn :=
  Binn (header b) (allocated b) (writable b) x (pbuf b) (pre_allocated b) (alloc_size b)
    (used_size b) (type b) (ptr b) (size b) (count b) (freefn b) (vunion b)
    (disable_int_compression b).
Definition with_pbuf (x : option bytes) (b : binn) : binn :=
  Binn (header b) (allocated b) (writable b) (dirty b) x (pre_allocated b) (alloc_size b)
    (used_size b) (type b) (ptr b) (size b) (count b) (freefn b) (vunion b)
    (disable_int_compression b).
Definition with_pre_allocated (x : bool) (b : binn) : binn :=
  Binn (header b) (allocated b) (writable b) (dirty b) (pbuf b) x (alloc_size b)
    (used_size b) (type b) (ptr b) (size b) (count b) (freefn b) (vunion b)
    (disable_int_compression b).
Definition with_alloc_size (x : Z) (b : binn) : binn :=
  Binn (header b) (allocated b) (writable b) (dirty b) (pbuf b) (pre_allocated b) x
    (used_size b) (type b) (ptr b) (size b) (count b) (freefn b) (vunion b)
    (disable_int_compression b).
Definition with_used_size (x : Z) (b : binn) : binn :=
  Binn (header b) (allocated b) (writable b) (dirty b) (pbuf b) (pre_allocated b)
    (alloc_size b) x (type b) (ptr b) (size b) (count b) (freefn b) (vunion b)
    (disable_int_compression b).
Definition with_type (x : Z) (b : binn) : binn :=
  Binn (header b) (allocated b) (writable b) (dirty b) (pbuf b) (pre_allocated b)
    (alloc_size b) (used_size b) x (ptr b) (size b) (count b) (freefn b) (vunion b)
    (disable_int_compression b).
Definition with_ptr (x : bptr) (b : binn) : binn :=
  Binn (header b) (allocated b) (writable b) (dirty b) (pbuf b) (pre_allocated b)
    (alloc_size b) (used_size b) (type b) x (size b) (count b) (freefn b) (vunion b)
    (disable_int_compression b).
Definition with_size (x : Z) (b : binn) : binn :=
  Binn (header b) (allocated b) (writable b) (dirty b) (pbuf b) (pre_allocated b)
    (alloc_size b) (used_size b) (type b) (ptr b) x (count b) (freefn b) (vunion b)
    (disable_int_compression b).
Definition with_count (x : Z) (b : binn) : binn :=
  Binn (header b) (allocated b) (writable b) (dirty b) (pbuf b) (pre_allocated b)
    (alloc_size b) (used_size b) (type b) (ptr b) (size b) x (freefn b) (vunion b)
    (disable_int_compression b).
Definition with_freefn (x : freefn_t) (b : binn) : binn :=
  Binn (header b) (allocated b) (writable b) (dirty b) (pbuf b) (pre_allocated b)
    (alloc_size b) (used_size b) (type b) (ptr b) (size b) (count b) x (vunion b)
    (disable_int_compression b).
(** A store to the front of the value union. *)
Definition with_vunion (x : bytes) (b : binn) : binn :=
  Binn (header b) (allocated b) (writable b) (dirty b) (pbuf b) (pre_allocated b)
    (alloc_size b) (used_size b) (type b) (ptr b) (size b) (count b) (freefn b)
    (x ++ drop (length x) (vunion b)) (disable_int_compression b).

(** The bytes a pointer of the structure reaches, and where in them. *)
Definition deref (b : binn) (p : bptr) : bview :=
  match p with
  | PNull => None
  | POwn off => match pbuf b with Some buf => Some (buf, off) | None => None end
  | PBuf buf off => Some (buf, off)
  | PSelf => Some (vunion b, 0)
  end.

Inductive arg := ANull | AStruct (b : binn) | ABuffer (buf : bytes) (off : Z).

(** * Creation *)

Section create.
Context `{L : BinnLib}.

Definition binn_malloc (size : Z) : option bytes := malloc_fn size.

(** The block [binn_malloc(sizeof(binn))] returns, seen as a structure; what
    it holds is never read before a [memset], so it is left zeroed here. *)
Definition binn_malloc_item : option binn :=
  match binn_malloc sizeof_binn with
  | Some _ => Some zero_binn
  | None => None
  end.

Definition binn_memdup (src : option bytes) (size : Z) : option (option bytes) :=
  match src with
  | None => Some None
  | Some s =>
      if size <=? 0 then Some None
      else
        match binn_malloc size with
        | None => Some None
        | Some dest => bs ← slice s 0 size; d ← splice dest 0 bs; Some (Some d)
        end
  end.

(** TRUE with the structure filled in, or FALSE. *)
Definition binn_create (item : option binn) (ty sz : Z) (pointer : option bytes)
    : bool * option binn :=
  if negb (isin ty [BINN_LIST; BINN_MAP; BINN_OBJECT]) then (false, item)
  else
    match item with
    | None => (false, item)
    | Some _ =>
        if sz <? 0 then (false, item)
        else if (sz <? MIN_BINN_SIZE) && bool_decide (is_Some pointer) then (false, item)
        else
          let sz := if sz <? MIN_BINN_SIZE then 0 else sz in
          let item := zero_binn in
          let finish item :=
            (true, Some (with_dirty true (with_type ty (with_used_size MAX_BINN_HEADER
                    (with_writable true (with_header BINN_MAGIC item)))))) in
          match pointer with
          | Some _ => finish (with_alloc_size sz (with_pbuf pointer (with_pre_allocated true item)))
          | None =>
              let sz := if sz =? 0 then CHUNK_SIZE else sz in
              match binn_malloc sz with
              | None => (false, Some item)
              | Some p => finish (with_alloc_size sz (with_pbuf (Some p) item))
              end
          end
    end.

Definition binn_new (ty sz : Z) (pointer : option bytes) : option binn :=
  match binn_create binn_malloc_item ty sz pointer with
  | (true, Some item) => Some (with_allocated true item)
  | _ => None
  end.

Definition binn_create_list (list : option binn) := binn_create list BINN_LIST 0 None.
Definition binn_create_map (map : option binn) := binn_create map BINN_MAP 0 None.
Definition binn_create_object (object : option binn) := binn_create object BINN_OBJECT 0 None.
Definition binn_list : option binn := binn_new BINN_LIST 0 None.
Definition binn_map : option binn := binn_new BINN_MAP 0 None.
Definition binn_object : option binn := binn_new BINN_OBJECT 0 None.

(** * Growing the buffer *)

(** [while (calc_size < needed_size) calc_size <<= 1], the shift undefined on
    overflow: thirty-two doublings pass any [int]. *)
Fixpoint CalcAllocation_loop (fuel : nat) (needed_size calc_size : Z) : option Z :=
  if calc_size <? needed_size then
    match fuel with
    | O => None
    | S fuel' => c ← add32 calc_size calc_size; CalcAllocation_loop fuel' needed_size c
    end
  else Some calc_size.
Definition CalcAllocation (needed_size alloc_size : Z) : option Z :=
  CalcAllocation_loop 32 needed_size alloc_size.

Definition CheckAllocation (item : binn) (add_size : Z) : option (bool * binn) :=
  needed ← add32 (used_size item) add_size;
  if alloc_size item <? needed then
    if pre_allocated item then Some (false, item)
    else
      asize ← CalcAllocation needed (alloc_size item);
      buf ← pbuf item;
      match realloc_fn buf asize with
      | None => Some (false, item)
      | Some p => Some (true, with_alloc_size asize (with_pbuf (Some p) item))
      end
  else Some (true, item).

(** A store of [bs] at offset [p] of the item's buffer. *)
Definition poke (p : Z) (bs : bytes) (item : binn) : option binn :=
  buf ← pbuf item; buf' ← splice buf p bs; Some (with_pbuf (Some buf') item).

Definition add_used (n : Z) (item : binn) : option binn :=
  u ← add32 (used_size item) n; Some (with_used_size u item).

(** * Adding a value *)

(** The storage class's size and the bytes to have room for; [None] inside is
    [return FALSE]. *)
Definition value_size (storage_type : Z) (pvalue : option bytes) (size : Z)
    : option (option (Z * Z)) :=
  if storage_type =? BINN_STORAGE_NOBYTES then Some (Some (0, 0))
  else if storage_type =? BINN_STORAGE_BYTE then Some (Some (1, 1))
  else if storage_type =? BINN_STORAGE_WORD then Some (Some (2, 2))
  else if storage_type =? BINN_STORAGE_DWORD then Some (Some (4, 4))
  else if storage_type =? BINN_STORAGE_QWORD then Some (Some (8, 8))
  else if storage_type =? BINN_STORAGE_BLOB then
    if size <? 0 then Some None
    else a ← add32 size 4; Some (Some (size, a))
  else if storage_type =? BINN_STORAGE_STRING then
    if size <? 0 then Some None
    else
      size ← (if size =? 0 then strlen2 pvalue else Some size);
      a ← add32 size 5; Some (Some (size, a))
  else if storage_type =? BINN_STORAGE_CONTAINER then
    if size <=? 0 then Some None else Some (Some (size, size))
  else Some None.

(** The length field of a blob or a string. *)
Definition length_field (size : Z) : option bytes :=
  if 127 <? size then wr_be32 (s32 (size .| 0x80000000)) else Some [u8 size].

(** The payload written for a value of [size] bytes at [pvalue]. *)
Definition payload (storage_type : Z) (pvalue : option bytes) (size : Z) : option bytes :=
  if storage_type =? BINN_STORAGE_NOBYTES then Some []
  else if storage_type =? BINN_STORAGE_BYTE then v ← pvalue; slice v 0 1
  else if storage_type =? BINN_STORAGE_WORD then v ← pvalue; copy_be16 v
  else if storage_type =? BINN_STORAGE_DWORD then v ← pvalue; copy_be32 v
  else if storage_type =? BINN_STORAGE_QWORD then v ← pvalue; copy_be64 v
  else if (storage_type =? BINN_STORAGE_BLOB) || (storage_type =? BINN_STORAGE_STRING) then
    l ← length_field size;
    d ← (if size =? 0 then Some [] else v ← pvalue; slice v 0 size);
    Some (l ++ d ++ if storage_type =? BINN_STORAGE_STRING then [0] else [])
  else if storage_type =? BINN_STORAGE_CONTAINER then v ← pvalue; slice v 0 size
  else Some [].

Definition AddValue (item : binn) (ty : Z) (pvalue : option bytes) (size : Z)
    : option (bool * binn) :=
  let storage_type := storage_of ty in
  let null_ok :=
    match pvalue with
    | Some _ => true
    | None =>
        if storage_type =? BINN_STORAGE_NOBYTES then true
        else if (storage_type =? BINN_STORAGE_BLOB) || (storage_type =? BINN_STORAGE_STRING)
        then size =? 0
        else false
    end in
  if negb null_ok then Some (false, item)
  else
    '(storage_type, ty) ←
      (if (type_family ty =? BINN_FAMILY_INT) && negb (disable_int_compression item)
       then v ← pvalue; compress_int storage_type ty v
       else Some (storage_type, ty));
    vs ← value_size storage_type pvalue size;
    match vs with
    | None => Some (false, item)
    | Some (size, ArgSize) =>
        ArgSize ← add32 ArgSize 2;
        '(ok, item) ← CheckAllocation item ArgSize;
        if negb ok then Some (false, item)
        else
          let p := used_size item in
          item ← (if negb (storage_type =? BINN_STORAGE_CONTAINER) then
                    tb ← (if 255 <? ty then copy_be16 (le_bytes 2 (u16 ty)) else Some [u8 ty]);
                    item ← poke p tb item; add_used (zlen tb) item
                  else Some item);
          let p := used_size item in
          bs ← payload storage_type pvalue size;
          item ← poke p bs item;
          item ← add_used (zlen bs) item;
          Some (true, with_dirty true item)
    end.

(** * The three containers *)

Definition binn_list_add_raw (item : option binn) (ty : Z) (pvalue : option bytes) (size : Z)
    : option (bool * option binn) :=
  match item with
  | None => Some (false, item)
  | Some b =>
      if negb (type b =? BINN_LIST) || negb (writable b) then Some (false, item)
      else
        '(ok, b) ← AddValue b ty pvalue size;
        if negb ok then Some (false, Some b)
        else c ← add32 (count b) 1; Some (true, Some (with_count c b))
  end.

(** The tail the map and the object share: the value after its id or key, both
    given up when the value is refused. *)
Definition add_after_key (b : binn) (keysize ty : Z) (pvalue : option bytes) (size : Z)
    : option (bool * option binn) :=
  '(ok, b) ← AddValue b ty pvalue size;
  if negb ok then u ← add32 (used_size b) (- keysize); Some (false, Some (with_used_size u b))
  else c ← add32 (count b) 1; Some (true, Some (with_count c b)).

Definition binn_object_set_raw (item : option binn) (key : option bytes) (ty : Z)
    (pvalue : option bytes) (size : Z) : option (bool * option binn) :=
  match item with
  | None => Some (false, item)
  | Some b =>
      if negb (type b =? BINN_OBJECT) || negb (writable b) then Some (false, item)
      else
        match key with
        | None => Some (false, item)
        | Some key =>
            let int32 := zlen key in
            if 255 <? int32 then Some (false, item)
            else
              buf ← pbuf b;
              p ← SearchForKey buf 0 MAX_BINN_HEADER (used_size b) (count b) key;
              match p with
              | Some _ => Some (false, item)
              | None =>
                  '(ok, b) ← CheckAllocation b (1 + int32);
                  if negb ok then Some (false, Some b)
                  else
                    b ← poke (used_size b) (u8 int32 :: key) b;
                    b ← add_used (1 + int32) b;
                    add_after_key b (1 + int32) ty pvalue size
              end
        end
  end.

Definition binn_map_set_raw (item : option binn) (id ty : Z) (pvalue : option bytes) (size : Z)
    : option (bool * option binn) :=
  match item with
  | None => Some (false, item)
  | Some b =>
      if negb (type b =? BINN_MAP) || negb (writable b) then Some (false, item)
      else
        buf ← pbuf b;
        p ← SearchForID buf 0 MAX_BINN_HEADER (used_size b) (count b) id;
        match p with
        | Some _ => Some (false, item)
        | None =>
            '(ok, b) ← CheckAllocation b 5;
            if negb ok then Some (false, Some b)
            else
              bs ← write_map_id id;
              b ← poke (used_size b) bs b;
              b ← add_used (zlen bs) b;
              add_after_key b (zlen bs) ty pvalue size
        end
  end.

End create.

(** * Writing the header *)

(** The count or size field that ends at [p]: its bytes. *)
Definition back_field (n : Z) : option bytes :=
  if 127 <? n then wr_be32 (s32 (n .| 0x80000000)) else Some [u8 n].

Definition binn_save_header (item : option binn) : option (bool * option binn) :=
  match item with
  | None => Some (false, None)
  | Some b =>
      let p := MAX_BINN_HEADER in
      size ← add32 (used_size b - MAX_BINN_HEADER) 3;
      cb ← back_field (count b);
      let p := p - zlen cb in
      size ← (if 127 <? count b then add32 size 3 else Some size);
      b ← poke p cb b;
      '(sb, grown) ← (if 127 <? size then
                        g ← add32 size 3; bs ← wr_be32 (s32 (g .| 0x80000000)); Some (bs, g)
                      else Some ([u8 size], size));
      let p := p - zlen sb in
      b ← poke p sb b;
      let p := p - 1 in
      b ← poke p [u8 (type b)] b;
      Some (true, Some (with_dirty false (with_size grown (with_ptr (POwn p) b))))
  end.

(** * Releasing *)

Inductive freed := FreedBuffer | FreedPtr (fn : freefn_t) (p : bptr) | FreedItem.

(** What is left of the structure: nothing when it was allocated. *)
Definition dispose (b : binn) : list freed * option binn :=
  if allocated b then ([FreedItem], None)
  else ([], Some (with_header BINN_MAGIC zero_binn)).

Definition binn_free (item : option binn) : list freed * option binn :=
  match item with
  | None => ([], None)
  | Some b =>
      let e1 := if writable b && negb (pre_allocated b) then [FreedBuffer] else [] in
      let e2 := match freefn b with FnNone => [] | fn => [FreedPtr fn (ptr b)] end in
      let '(e3, item) := dispose b in
      (e1 ++ e2 ++ e3, item)
  end.

(** * Access through a structure or a raw buffer *)

Definition binn_get_ptr_type (p : arg) : option Z :=
  match p with
  | ANull => Some 0
  | AStruct b => Some (if header b =? BINN_MAGIC then BINN_STRUCT else BINN_BUFFER)
  | ABuffer buf off =>
      w ← rd_le buf off 4; Some (if w =? BINN_MAGIC then BINN_STRUCT else BINN_BUFFER)
  end.

Definition binn_is_struct (p : arg) : option bool :=
  match p with
  | ANull => Some false
  | AStruct b => Some (header b =? BINN_MAGIC)
  | ABuffer buf off => w ← rd_le buf off 4; Some (w =? BINN_MAGIC)
  end.

(** [if (item->writable && item->dirty) binn_save_header(item);] *)
Definition flush (b : binn) : option binn :=
  if writable b && dirty b then
    '(_, item) ← binn_save_header (Some b); item
  else Some b.

(** The argument after the call and the pointer returned.  A structure
    without the magic number, or a buffer with it, is garbage: undefined. *)
Definition binn_ptr (p : arg) : option (arg * bview) :=
  t ← binn_get_ptr_type p;
  match p with
  | ANull => Some (ANull, None)
  | AStruct b =>
      if t =? BINN_STRUCT then b ← flush b; Some (AStruct b, deref b (ptr b)) else None
  | ABuffer buf off =>
      if t =? BINN_STRUCT then None else Some (p, Some (buf, off))
  end.

Definition binn_size (p : arg) : option (arg * Z) :=
  t ← binn_get_ptr_type p;
  match p with
  | ANull => Some (ANull, 0)
  | AStruct b => if t =? BINN_STRUCT then b ← flush b; Some (AStruct b, size b) else None
  | ABuffer buf off =>
      if t =? BINN_STRUCT then None else n ← binn_buf_size (Some (buf, off)); Some (p, n)
  end.

Definition binn_type (p : arg) : option Z :=
  t ← binn_get_ptr_type p;
  match p with
  | ANull => Some (-1)
  | AStruct b => if t =? BINN_STRUCT then Some (type b) else None
  | ABuffer buf off => if t =? BINN_STRUCT then None else binn_buf_type (Some (buf, off))
  end.

Definition binn_count (p : arg) : option Z :=
  t ← binn_get_ptr_type p;
  match p with
  | ANull => Some (-1)
  | AStruct b => if t =? BINN_STRUCT then Some (count b) else None
  | ABuffer buf off => if t =? BINN_STRUCT then None else binn_buf_count (Some (buf, off))
  end.

Definition binn_is_container (item : option binn) : bool :=
  match item with
  | None => false
  | Some b => isin (type b) [BINN_LIST; BINN_MAP; BINN_OBJECT]
  end.

(** The buffer handed out, what was freed, and what is left of the structure.
    Moving to a NULL [pbuf], as for an item opened read-only, is undefined. *)
Definition binn_release (item : option binn) : option (bview * list freed * option binn) :=
  match item with
  | None => Some (None, [], None)
  | Some b =>
      '(a, _) ← binn_ptr (AStruct b);
      match a with
      | AStruct b =>
          let '(e, rest) := dispose b in
          match ptr b with
          | PNull => Some (None, e, rest)
          | POwn off =>
              buf ← pbuf b;
              if 0 <? off then
                data ← slice buf off (size b);
                buf ← splice buf 0 data;
                Some (Some (buf, 0), e, rest)
              else Some (Some (buf, off), e, rest)
          | PBuf _ _ | PSelf => None
          end
      | _ => None
      end
  end.

(** * Validation *)

Fixpoint is_valid_loop (n : nat) (ty : Z) (buf : bytes) (base plimit p : Z) : option bool :=
  match n with
  | O => Some true
  | S n' =>
      p ← (if ty =? BINN_OBJECT then len ← znth buf p; Some (p + 1 + len)
           else if ty =? BINN_MAP then '(_, p) ← read_map_id buf p plimit; Some p
           else Some p);
      q ← AdvanceDataPos buf p plimit;
      match q with
      | None => Some false
      | Some p => if p <? base then Some false else is_valid_loop n' ty buf base plimit p
      end
  end.

(** The three in-out parameters. *)
Record info := Info { i_type : option Z; i_count : option Z; i_size : option Z }.

(** [pinfo && *pinfo > 0 && have != *pinfo] *)
Definition contradicts (told : option Z) (have : Z) : bool :=
  match told with
  | Some t => (0 <? t) && negb (have =? t)
  | None => false
  end.
(** [if (pinfo && *pinfo==0) *pinfo = v;] *)
Definition fill (told : option Z) (v : Z) : option Z :=
  match told with
  | Some t => Some (if t =? 0 then v else t)
  | None => None
  end.

Definition binn_is_valid_ex (p : arg) (i : info) : option (arg * bool * info) :=
  '(p, pbuf) ← binn_ptr p;
  match pbuf with
  | None => Some (p, false, i)
  | Some (buf, base) =>
      let size := match i_size i with
                  | Some s => if 0 <? s then s else 0
                  | None => 0
                  end in
      h ← IsValidBinnHeader pbuf (Some size);
      match h with
      | None => Some (p, false, i)
      | Some (Hdr ty count size hs) =>
          let size := default 0 size in
          if contradicts (i_size i) size then Some (p, false, i)
          else if contradicts (i_count i) count then Some (p, false, i)
          else if match i_type i with
                  | Some t => negb (t =? 0) && negb (ty =? t)
                  | None => false
                  end then Some (p, false, i)
          else
            ok ← is_valid_loop (Z.to_nat count) ty buf base (base + size) (base + hs);
            if negb ok then Some (p, false, i)
            else Some (p, true, Info (fill (i_type i) ty) (fill (i_count i) count)
                                     (fill (i_size i) size))
      end
  end.

Definition binn_is_valid (p : arg) (i : info) : option (arg * bool * info) :=
  let reset (o : option Z) := match o with Some _ => Some 0 | None => None end in
  binn_is_valid_ex p (Info (reset (i_type i)) (reset (i_count i)) (reset (i_size i))).

(** * Loading and copying *)

(** [value] is the structure to fill; only its presence matters. *)
Definition binn_load (data : arg) (value : option binn) : option (bool * option binn) :=
  match data, value with
  | ANull, _ => Some (false, value)
  | _, None => Some (false, value)
  | _, Some _ =>
      let v := with_header BINN_MAGIC zero_binn in
      '(data, ok, i) ← binn_is_valid data (Info (Some 0) (Some 0) (Some 0));
      let v := with_type (default 0 (i_type i)) (with_count (default 0 (i_count i))
                 (with_size (default 0 (i_size i)) v)) in
      if negb ok then Some (false, Some v)
      else
        match data with
        | ABuffer buf off => Some (true, Some (with_ptr (PBuf buf off) v))
        | _ => None   (* [data] is documented as a buffer; a structure is not one *)
        end
  end.

Section copy.
Context `{L : BinnLib}.

Definition binn_open (data : arg) : option (option binn) :=
  '(ok, item) ← binn_load data binn_malloc_item;
  Some (if ok : bool then match item with
                   | Some b => Some (with_allocated true b)
                   | None => None
                   end
        else None).

Definition binn_copy (old : arg) : option (arg * option binn) :=
  '(old, old_ptr) ← binn_ptr old;
  h ← IsValidBinnHeader old_ptr (Some 0);
  match h, old_ptr with
  | Some (Hdr ty count size header_size), Some (buf, o) =>
      let size := default 0 size in
      n ← add32 (size - header_size) MAX_BINN_HEADER;
      match binn_new ty n None with
      | None => Some (old, None)
      | Some item =>
          data ← slice buf (o + header_size) (size - header_size);
          item ← poke MAX_BINN_HEADER data item;
          Some (old, Some (with_count count
                            (with_used_size (MAX_BINN_HEADER + size - header_size) item)))
      end
  | _, _ => Some (old, None)
  end.
End copy.
