(* ===== verification/BinnRead.v ===== *)
(** Reading a Binn container, src/pus/lib/binn/binn.c: one value, by position,
    id or key, pairs by position, and the sequential iterators.

    The [binn *value] the C functions fill is a result here: [None] inside is
    FALSE (the structure is then not to be read).  The [bool] parameter
    [value] says whether that pointer is non-NULL. *)
From S2P Require Import Prelude CMem BinnFormat BinnItem.

(** * One value *)

Definition GetValue (buf : bytes) (p : Z) (value : bool) : option (option binn) :=
  if negb value then Some None
  else
    let v := with_header BINN_MAGIC zero_binn in
    let p2 := p in
    byte ← znth buf p;
    let p := p + 1 in
    let storage_type := byte .& BINN_STORAGE_MASK in
    '(data_type, p) ← (if byte .& BINN_STORAGE_HAS_MORE =? 0 then Some (byte, p)
                       else b ← znth buf p; Some ((byte .<< 8) .| b, p + 1));
    let v := with_type data_type v in
    v ← (if storage_type =? BINN_STORAGE_NOBYTES then Some (Some v)
         else if storage_type =? BINN_STORAGE_BYTE then
           b ← znth buf p; Some (Some (with_ptr (PBuf buf p) (with_vunion [b] v)))
         else if storage_type =? BINN_STORAGE_WORD then
           s ← slice buf p 2; d ← copy_be16 s; Some (Some (with_ptr PSelf (with_vunion d v)))
         else if storage_type =? BINN_STORAGE_DWORD then
           s ← slice buf p 4; d ← copy_be32 s; Some (Some (with_ptr PSelf (with_vunion d v)))
         else if storage_type =? BINN_STORAGE_QWORD then
           s ← slice buf p 8; d ← copy_be64 s; Some (Some (with_ptr PSelf (with_vunion d v)))
         else if (storage_type =? BINN_STORAGE_BLOB) || (storage_type =? BINN_STORAGE_STRING) then
           DataSize ← znth buf p;
           '(DataSize, p) ← (if DataSize .& 0x80 =? 0 then Some (DataSize, p + 1)
                             else d ← rd_be32 buf p; Some (d .& 0x7FFFFFFF, p + 4));
           Some (Some (with_ptr (PBuf buf p) (with_size DataSize v)))
         else if storage_type =? BINN_STORAGE_CONTAINER then
           h ← IsValidBinnHeader (Some (buf, p2)) (Some 0);
           match h with
           | None => Some None
           | Some (Hdr _ count size _) =>
               Some (Some (with_ptr (PBuf buf p2)
                             (with_count count (with_size (default 0 size) v))))
           end
         else Some None);
    match v with
    | None => Some None
    | Some v =>
        if type v =? BINN_TRUE then
          Some (Some (with_ptr PSelf (with_vunion (le_bytes 4 1) (with_type BINN_BOOL v))))
        else if type v =? BINN_FALSE then
          Some (Some (with_ptr PSelf (with_vunion (le_bytes 4 0) (with_type BINN_BOOL v))))
        else Some (Some v)
    end.

(** The pointer the [_read] functions return: the copy's value union (in the
    static [local_value]) or where the value points; [None] inside is NULL.
    The second component is [local_value]. *)
Definition store_value (value : binn) : bview * binn :=
  let local_value := value in
  let storage := binn_get_read_storage (type value) in
  if isin storage [BINN_STORAGE_NOBYTES; BINN_STORAGE_WORD; BINN_STORAGE_DWORD;
                   BINN_STORAGE_QWORD]
  then (Some (vunion local_value, 0), local_value)
  else (deref value (ptr value), local_value).

(** * By key, id and position *)

Section read.
Context `{L : BinnLib}.

Definition binn_object_get_value (p : arg) (key : option bytes) (value : bool)
    : option (arg * option binn) :=
  '(a, v) ← binn_ptr p;
  match v, key with
  | Some (buf, o), Some key =>
      if negb value then Some (a, None)
      else
        h ← IsValidBinnHeader v (Some 0);
        match h with
        | None => Some (a, None)
        | Some (Hdr ty count size header_size) =>
            if negb (ty =? BINN_OBJECT) then Some (a, None)
            else if count =? 0 then Some (a, None)
            else
              q ← SearchForKey buf o header_size (default 0 size) count key;
              match q with
              | None => Some (a, None)
              | Some p => r ← GetValue buf p value; Some (a, r)
              end
        end
  | _, _ => Some (a, None)
  end.

Definition binn_map_get_value (p : arg) (id : Z) (value : bool) : option (arg * option binn) :=
  '(a, v) ← binn_ptr p;
  match v with
  | Some (buf, o) =>
      if negb value then Some (a, None)
      else
        h ← IsValidBinnHeader v (Some 0);
        match h with
        | None => Some (a, None)
        | Some (Hdr ty count size header_size) =>
            if negb (ty =? BINN_MAP) then Some (a, None)
            else if count =? 0 then Some (a, None)
            else
              q ← SearchForID buf o header_size (default 0 size) count id;
              match q with
              | None => Some (a, None)
              | Some p => r ← GetValue buf p value; Some (a, r)
              end
        end
  | None => Some (a, None)
  end.

(** [for (i = 0; i < pos; i++)]: the position of element [n], or NULL. *)
Fixpoint advance_n (n : nat) (buf : bytes) (base plimit p : Z) : option (option Z) :=
  match n with
  | O => Some (Some p)
  | S n' =>
      q ← AdvanceDataPos buf p plimit;
      match q with
      | None => Some None
      | Some p => if p <? base then Some None else advance_n n' buf base plimit p
      end
  end.

Definition binn_list_get_value (p : arg) (pos : Z) (value : bool) : option (arg * option binn) :=
  '(a, v) ← binn_ptr p;
  match v with
  | Some (buf, o) =>
      if negb value then Some (a, None)
      else
        h ← IsValidBinnHeader v (Some 0);
        match h with
        | None => Some (a, None)
        | Some (Hdr ty count size header_size) =>
            if negb (ty =? BINN_LIST) then Some (a, None)
            else if count =? 0 then Some (a, None)
            else if (pos <=? 0) || (count <? pos) then Some (a, None)
            else
              let pos := pos - 1 in
              q ← advance_n (Z.to_nat pos) buf o (o + default 0 size) (o + header_size);
              match q with
              | None => Some (a, None)
              | Some p => r ← GetValue buf p value; Some (a, r)
              end
        end
  | None => Some (a, None)
  end.

(** * Pairs by position *)

(** What a pair reader hands out: the id, the key (both only where the caller
    passed a pointer for it) and the value. *)
Record pair := Pair { o_id : option Z; o_key : option bytes; o_val : option binn }.
Definition no_pair : pair := Pair None None None.

(** The loop up to the label [found]: the position of the value, with the id
    and the key (offset and length) just read. *)
Fixpoint read_pair_loop (n : nat) (ty : Z) (buf : bytes) (base plimit p : Z)
    (id : Z) (key : Z * Z) (counter pos : Z) : option (option (Z * Z * (Z * Z))) :=
  match n with
  | O => Some None
  | S n' =>
      r ← (if ty =? BINN_MAP then
             '(int32, p) ← read_map_id buf p plimit;
             if plimit <? p then Some None else Some (Some (p, int32, key))
           else if ty =? BINN_OBJECT then
             len ← znth buf p;
             let p := p + 1 in
             if plimit <? p then Some None
             else
               let key := (p, len) in
               let p := p + len in
               if plimit <? p then Some None else Some (Some (p, id, key))
           else Some (Some (p, id, key)));
      match r with
      | None => Some None
      | Some (p, id, key) =>
          let counter := counter + 1 in
          if counter =? pos then Some (Some (p, id, key))
          else
            q ← AdvanceDataPos buf p plimit;
            match q with
            | None => Some None
            | Some p =>
                if p <? base then Some None
                else read_pair_loop n' ty buf base plimit p id key counter pos
            end
      end
  end.

Definition binn_read_pair (expected_type : Z) (p : arg) (pos : Z) (pid pkey value : bool)
    : option (arg * pair) :=
  '(a, v) ← binn_ptr p;
  h ← IsValidBinnHeader v (Some 0);
  match h, v with
  | Some (Hdr ty count size header_size), Some (buf, o) =>
      if negb (ty =? expected_type) || (count =? 0) || (pos <? 1) || (count <? pos)
      then Some (a, no_pair)
      else
        f ← read_pair_loop (Z.to_nat count) ty buf o (o + default 0 size - 1) (o + header_size)
              0 (0, 0) 0 pos;
        match f with
        | None => Some (a, no_pair)
        | Some (p, id, (kp, klen)) =>
            let oid := if (ty =? BINN_MAP) && pid then Some id else None in
            okey ← (if (ty =? BINN_OBJECT) && pkey then k ← slice buf kp klen; Some (Some k)
                    else Some None);
            r ← GetValue buf p value;
            Some (a, Pair oid okey r)
        end
  | _, _ => Some (a, no_pair)
  end.

Definition binn_map_get_pair (p : arg) (pos : Z) (pid value : bool) :=
  binn_read_pair BINN_MAP p pos pid false value.
Definition binn_object_get_pair (p : arg) (pos : Z) (pkey value : bool) :=
  binn_read_pair BINN_OBJECT p pos false pkey value.

(** [binn_malloc], one of the readers, and [free_fn] when it says FALSE. *)
Definition is_allocated (item : option binn) : bool := bool_decide (is_Some item).
Definition keep (v : option binn) : option binn :=
  match v with
  | Some b => Some (with_allocated true b)
  | None => None
  end.

Definition binn_map_pair (map : arg) (pos : Z) (pid : bool) : option (arg * pair) :=
  '(a, r) ← binn_read_pair BINN_MAP map pos pid false (is_allocated binn_malloc_item);
  Some (a, Pair (o_id r) None (keep (o_val r))).
Definition binn_object_pair (obj : arg) (pos : Z) (pkey : bool) : option (arg * pair) :=
  '(a, r) ← binn_read_pair BINN_OBJECT obj pos false pkey (is_allocated binn_malloc_item);
  Some (a, Pair None (o_key r) (keep (o_val r))).

(** The pointer, type and size a [_read] function reports. *)
Definition read_result (v : option binn) : option (bview * Z * Z) :=
  match v with
  | None => None
  | Some v => Some (fst (store_value v), type v, size v)
  end.

Definition binn_map_read_pair (p : arg) (pos : Z) (pid : bool) :=
  '(a, r) ← binn_map_get_pair p pos pid true; Some (a, o_id r, read_result (o_val r)).
Definition binn_object_read_pair (p : arg) (pos : Z) (pkey : bool) :=
  '(a, r) ← binn_object_get_pair p pos pkey true; Some (a, o_key r, read_result (o_val r)).

(** * Iterators *)

(** [pnext] is [None] for NULL; [it_buf] is the memory both pointers are in. *)
Record binn_iter := Iter {
  it_buf : bytes; pnext : option Z; plimit : Z; it_type : Z; it_count : Z; current : Z
}.

Definition zero_iter : binn_iter := Iter [] None 0 0 0 0.

Definition binn_iter_init (iter : option binn_iter) (p : arg) (expected_type : Z)
    : option (arg * bool * option binn_iter) :=
  '(a, v) ← binn_ptr p;
  match v, iter with
  | Some (buf, o), Some _ =>
      h ← IsValidBinnHeader v (Some 0);
      match h with
      | None => Some (a, false, Some zero_iter)
      | Some (Hdr ty count size header_size) =>
          if negb (ty =? expected_type) then Some (a, false, Some zero_iter)
          else Some (a, true, Some (Iter buf (Some (o + header_size))
                                      (o + default 0 size - 1) ty count 0))
      end
  | _, _ => Some (a, false, iter)
  end.

Definition with_next (q : option Z) (it : binn_iter) : binn_iter :=
  Iter (it_buf it) q (plimit it) (it_type it) (it_count it) (current it).
Definition with_current (n : Z) (it : binn_iter) : binn_iter :=
  Iter (it_buf it) (pnext it) (plimit it) (it_type it) (it_count it) n.

(** The first test of the [_next] functions: the position to read at. *)
Definition iter_ready (it : binn_iter) (expected_type : Z) : option Z :=
  match pnext it with
  | None => None
  | Some p =>
      if (plimit it <? p) || (it_count it <? current it) || negb (it_type it =? expected_type)
      then None else Some p
  end.

(** [iter->pnext != 0 && iter->pnext < p] *)
Definition went_back (q : option Z) (p : Z) : bool :=
  match q with Some q => q <? p | None => false end.

Definition binn_list_next (iter : option binn_iter) (value : bool)
    : option (option binn_iter * option binn) :=
  match iter with
  | None => Some (iter, None)
  | Some it =>
      match iter_ready it BINN_LIST with
      | None => Some (iter, None)
      | Some pnow =>
          let it := with_current (current it + 1) it in
          if it_count it <? current it then Some (Some it, None)
          else
            q ← AdvanceDataPos (it_buf it) pnow (plimit it);
            let it := with_next q it in
            if went_back q pnow then Some (Some it, None)
            else r ← GetValue (it_buf it) pnow value; Some (Some it, r)
      end
  end.

Definition binn_read_next_pair (expected_type : Z) (iter : option binn_iter)
    (pid pkey value : bool) : option (option binn_iter * pair) :=
  match iter with
  | None => Some (iter, no_pair)
  | Some it =>
      match iter_ready it expected_type with
      | None => Some (iter, no_pair)
      | Some p =>
          let it := with_current (current it + 1) it in
          let buf := it_buf it in
          if it_count it <? current it then Some (Some it, no_pair)
          else
            r ← (if expected_type =? BINN_MAP then
                   '(int32, p) ← read_map_id buf p (plimit it);
                   if plimit it <? p then Some None
                   else Some (Some (p, if pid then Some int32 else None, None))
                 else if expected_type =? BINN_OBJECT then
                   len ← znth buf p;
                   let p := p + 1 in
                   let key := p in
                   let p := p + len in
                   if plimit it <? p then Some None
                   else
                     k ← (if pkey then k ← slice buf key len; Some (Some k) else Some None);
                     Some (Some (p, None, k))
                 else Some (Some (p, None, None)));
            match r with
            | None => Some (Some it, no_pair)
            | Some (p, oid, okey) =>
                q ← AdvanceDataPos buf p (plimit it);
                let it := with_next q it in
                if went_back q p then Some (Some it, Pair oid okey None)
                else r ← GetValue buf p value; Some (Some it, Pair oid okey r)
            end
      end
  end.

Definition binn_map_next (iter : option binn_iter) (pid value : bool) :=
  binn_read_next_pair BINN_MAP iter pid false value.
Definition binn_object_next (iter : option binn_iter) (pkey value : bool) :=
  binn_read_next_pair BINN_OBJECT iter false pkey value.

Definition binn_list_next_value (iter : option binn_iter)
    : option (option binn_iter * option binn) :=
  '(it, r) ← binn_list_next iter (is_allocated binn_malloc_item); Some (it, keep r).
Definition binn_map_next_value (iter : option binn_iter) (pid : bool)
    : option (option binn_iter * pair) :=
  '(it, r) ← binn_map_next iter pid (is_allocated binn_malloc_item);
  Some (it, Pair (o_id r) None (keep (o_val r))).
Definition binn_object_next_value (iter : option binn_iter) (pkey : bool)
    : option (option binn_iter * pair) :=
  '(it, r) ← binn_object_next iter pkey (is_allocated binn_malloc_item);
  Some (it, Pair None (o_key r) (keep (o_val r))).

Definition binn_list_read_next (iter : option binn_iter) :=
  '(it, r) ← binn_list_next iter true; Some (it, read_result r).
Definition binn_map_read_next (iter : option binn_iter) (pid : bool) :=
  '(it, r) ← binn_map_next iter pid true; Some (it, o_id r, read_result (o_val r)).
Definition binn_object_read_next (iter : option binn_iter) (pkey : bool) :=
  '(it, r) ← binn_object_next iter pkey true; Some (it, o_key r, read_result (o_val r)).

(** * Allocated values and the [_read] functions *)

Definition binn_list_value (p : arg) (pos : Z) : option (arg * option binn) :=
  '(a, r) ← binn_list_get_value p pos (is_allocated binn_malloc_item); Some (a, keep r).
Definition binn_map_value (p : arg) (id : Z) : option (arg * option binn) :=
  '(a, r) ← binn_map_get_value p id (is_allocated binn_malloc_item); Some (a, keep r).
Definition binn_object_value (p : arg) (key : option bytes) : option (arg * option binn) :=
  '(a, r) ← binn_object_get_value p key (is_allocated binn_malloc_item); Some (a, keep r).

Definition binn_list_read (p : arg) (pos : Z) :=
  '(a, r) ← binn_list_get_value p pos true; Some (a, read_result r).
Definition binn_map_read (p : arg) (id : Z) :=
  '(a, r) ← binn_map_get_value p id true; Some (a, read_result r).
Definition binn_object_read (p : arg) (key : option bytes) :=
  '(a, r) ← binn_object_get_value p key true; Some (a, read_result r).

End read.
