(* ===== verification/BinnApi.v ===== *)
(** The typed interface of Binn: the extended half of
    src/pus/lib/binn/binn.c (conversion of values on the way in and out) and
    the inline wrappers of binn.h.

    A C variable passed by address as [pvalue] is a [dest]: its bytes, or a
    pointer.  [Stack] says what an uninitialised local holds. *)
From Stdlib Require Import SpecFloat.
From S2P Require Import Prelude CMem BinnFormat BinnItem BinnRead.

(** * Values going in *)

(** FALSE, or TRUE with the type to store under. *)
Definition GetWriteConvertedData (ty : Z) (pvalue : option bytes) (size : Z) : option (bool * Z) :=
  let null_ok :=
    match pvalue with
    | Some _ => true
    | None =>
        if isin ty [BINN_NULL; BINN_TRUE; BINN_FALSE] then true
        else if isin ty [BINN_STRING; BINN_BLOB] then size =? 0
        else false
    end in
  if negb null_ok then Some (false, ty)
  else if isin ty [BINN_DECIMAL; BINN_CURRENCYSTR] then Some (true, ty)
  else if isin ty [BINN_DATE; BINN_DATETIME; BINN_TIME] then Some (true, ty)
  else if ty =? BINN_BOOL then
    v ← pvalue; b ← rd_le v 0 4;
    Some (true, if b =? 0 then BINN_FALSE else BINN_TRUE)
  else Some (true, ty).

Section write.
Context `{L : BinnLib}.

Definition binn_list_add (list : option binn) (ty : Z) (pvalue : option bytes) (size : Z)
    : option (bool * option binn) :=
  '(ok, ty) ← GetWriteConvertedData ty pvalue size;
  if negb ok then Some (false, list) else binn_list_add_raw list ty pvalue size.

Definition binn_map_set (map : option binn) (id ty : Z) (pvalue : option bytes) (size : Z)
    : option (bool * option binn) :=
  '(ok, ty) ← GetWriteConvertedData ty pvalue size;
  if negb ok then Some (false, map) else binn_map_set_raw map id ty pvalue size.

Definition binn_object_set (obj : option binn) (key : option bytes) (ty : Z)
    (pvalue : option bytes) (size : Z) : option (bool * option binn) :=
  '(ok, ty) ← GetWriteConvertedData ty pvalue size;
  if negb ok then Some (false, obj) else binn_object_set_raw obj key ty pvalue size.

Definition binn_add_value (item : option binn) (ctype id : Z) (name : option bytes) (ty : Z)
    (pvalue : option bytes) (size : Z) : option (bool * option binn) :=
  if ctype =? BINN_LIST then binn_list_add item ty pvalue size
  else if ctype =? BINN_MAP then binn_map_set item id ty pvalue size
  else if ctype =? BINN_OBJECT then binn_object_set item name ty pvalue size
  else Some (false, item).

(** The operands [binn_ptr(x), binn_size(x)] of a call: the bytes from the
    pointer on, and the size. *)
Definition ptr_and_size (x : arg) : option (arg * option bytes * Z) :=
  '(x, v) ← binn_ptr x;
  '(x, n) ← binn_size x;
  Some (x, match v with
           | Some (buf, o) => Some (drop (Z.to_nat o) buf)
           | None => None
           end, n).

(** Call [set] with a container operand; the operand may have been flushed. *)
Definition with_operand {A} (x : arg) (set : option bytes -> Z -> option A) : option (arg * A) :=
  '(x, v, n) ← ptr_and_size x; r ← set v n; Some (x, r).

Definition binn_list_add_int8 l v := binn_list_add l BINN_INT8 (Some (le_bytes 1 v)) 0.
Definition binn_list_add_int16 l v := binn_list_add l BINN_INT16 (Some (le_bytes 2 v)) 0.
Definition binn_list_add_int32 l v := binn_list_add l BINN_INT32 (Some (le_bytes 4 v)) 0.
Definition binn_list_add_int64 l v := binn_list_add l BINN_INT64 (Some (le_bytes 8 v)) 0.
Definition binn_list_add_uint8 l v := binn_list_add l BINN_UINT8 (Some (le_bytes 1 v)) 0.
Definition binn_list_add_uint16 l v := binn_list_add l BINN_UINT16 (Some (le_bytes 2 v)) 0.
Definition binn_list_add_uint32 l v := binn_list_add l BINN_UINT32 (Some (le_bytes 4 v)) 0.
Definition binn_list_add_uint64 l v := binn_list_add l BINN_UINT64 (Some (le_bytes 8 v)) 0.
Definition binn_list_add_float l v := binn_list_add l BINN_FLOAT32 (Some (le_bytes 4 v)) 0.
Definition binn_list_add_double l v := binn_list_add l BINN_FLOAT64 (Some (le_bytes 8 v)) 0.
Definition binn_list_add_bool l v := binn_list_add l BINN_BOOL (Some (le_bytes 4 v)) 0.
Definition binn_list_add_null l := binn_list_add l BINN_NULL None 0.
Definition binn_list_add_str l str := binn_list_add l BINN_STRING str 0.
Definition binn_list_add_blob l p size := binn_list_add l BINN_BLOB p size.
Definition binn_list_add_list l x := with_operand x (binn_list_add l BINN_LIST).
Definition binn_list_add_map l x := with_operand x (binn_list_add l BINN_MAP).
Definition binn_list_add_object l x := with_operand x (binn_list_add l BINN_OBJECT).
(** [value->type] is read first: a NULL value is undefined. *)
Definition binn_list_add_value l (value : option binn) :=
  v ← value; with_operand (AStruct v) (binn_list_add l (type v)).

Definition binn_map_set_int8 m id v := binn_map_set m id BINN_INT8 (Some (le_bytes 1 v)) 0.
Definition binn_map_set_int16 m id v := binn_map_set m id BINN_INT16 (Some (le_bytes 2 v)) 0.
Definition binn_map_set_int32 m id v := binn_map_set m id BINN_INT32 (Some (le_bytes 4 v)) 0.
Definition binn_map_set_int64 m id v := binn_map_set m id BINN_INT64 (Some (le_bytes 8 v)) 0.
Definition binn_map_set_uint8 m id v := binn_map_set m id BINN_UINT8 (Some (le_bytes 1 v)) 0.
Definition binn_map_set_uint16 m id v := binn_map_set m id BINN_UINT16 (Some (le_bytes 2 v)) 0.
Definition binn_map_set_uint32 m id v := binn_map_set m id BINN_UINT32 (Some (le_bytes 4 v)) 0.
Definition binn_map_set_uint64 m id v := binn_map_set m id BINN_UINT64 (Some (le_bytes 8 v)) 0.
Definition binn_map_set_float m id v := binn_map_set m id BINN_FLOAT32 (Some (le_bytes 4 v)) 0.
Definition binn_map_set_double m id v := binn_map_set m id BINN_FLOAT64 (Some (le_bytes 8 v)) 0.
Definition binn_map_set_bool m id v := binn_map_set m id BINN_BOOL (Some (le_bytes 4 v)) 0.
Definition binn_map_set_null m id := binn_map_set m id BINN_NULL None 0.
Definition binn_map_set_str m id str := binn_map_set m id BINN_STRING str 0.
Definition binn_map_set_blob m id p size := binn_map_set m id BINN_BLOB p size.
Definition binn_map_set_list m id x := with_operand x (binn_map_set m id BINN_LIST).
Definition binn_map_set_map m id x := with_operand x (binn_map_set m id BINN_MAP).
Definition binn_map_set_object m id x := with_operand x (binn_map_set m id BINN_OBJECT).
Definition binn_map_set_value m id (value : option binn) :=
  v ← value; with_operand (AStruct v) (binn_map_set m id (type v)).

Definition binn_object_set_int8 o k v := binn_object_set o k BINN_INT8 (Some (le_bytes 1 v)) 0.
Definition binn_object_set_int16 o k v := binn_object_set o k BINN_INT16 (Some (le_bytes 2 v)) 0.
Definition binn_object_set_int32 o k v := binn_object_set o k BINN_INT32 (Some (le_bytes 4 v)) 0.
Definition binn_object_set_int64 o k v := binn_object_set o k BINN_INT64 (Some (le_bytes 8 v)) 0.
Definition binn_object_set_uint8 o k v := binn_object_set o k BINN_UINT8 (Some (le_bytes 1 v)) 0.
Definition binn_object_set_uint16 o k v :=
  binn_object_set o k BINN_UINT16 (Some (le_bytes 2 v)) 0.
Definition binn_object_set_uint32 o k v :=
  binn_object_set o k BINN_UINT32 (Some (le_bytes 4 v)) 0.
Definition binn_object_set_uint64 o k v :=
  binn_object_set o k BINN_UINT64 (Some (le_bytes 8 v)) 0.
Definition binn_object_set_float o k v :=
  binn_object_set o k BINN_FLOAT32 (Some (le_bytes 4 v)) 0.
Definition binn_object_set_double o k v :=
  binn_object_set o k BINN_FLOAT64 (Some (le_bytes 8 v)) 0.
Definition binn_object_set_bool o k v := binn_object_set o k BINN_BOOL (Some (le_bytes 4 v)) 0.
Definition binn_object_set_null o k := binn_object_set o k BINN_NULL None 0.
Definition binn_object_set_str o k str := binn_object_set o k BINN_STRING str 0.
Definition binn_object_set_blob o k p size := binn_object_set o k BINN_BLOB p size.
Definition binn_object_set_list o k x := with_operand x (binn_object_set o k BINN_LIST).
Definition binn_object_set_map o k x := with_operand x (binn_object_set o k BINN_MAP).
Definition binn_object_set_object o k x := with_operand x (binn_object_set o k BINN_OBJECT).
Definition binn_object_set_value o k (value : option binn) :=
  v ← value; with_operand (AStruct v) (binn_object_set o k (type v)).

(** The [_new] functions also give the value's structure back to the heap. *)
Definition binn_list_add_new l (value : option binn) :=
  '(_, r) ← binn_list_add_value l value; Some (r, [FreedItem]).
Definition binn_map_set_new m id (value : option binn) :=
  '(_, r) ← binn_map_set_value m id value; Some (r, [FreedItem]).
Definition binn_object_set_new o k (value : option binn) :=
  '(_, r) ← binn_object_set_value o k value; Some (r, [FreedItem]).

End write.

(** * Values coming out *)

Inductive dest := DBytes (bs : bytes) | DPtr (p : bview).

(** [*(T * )pdest = x] for a [T] of [length bs] bytes, and for a pointer. *)
Definition wr_dest (bs : bytes) (d : option dest) : option (option dest) :=
  match d with
  | Some (DBytes old) => new ← splice old 0 bs; Some (Some (DBytes new))
  | _ => None
  end.
Definition wr_dest_ptr (p : bview) (d : option dest) : option (option dest) :=
  match d with
  | Some (DPtr _) => Some (Some (DPtr p))
  | _ => None
  end.

(** The [n] bytes at a pointer. *)
Definition rd_ptr (p : bview) (n : Z) : option bytes := '(buf, o) ← p; slice buf o n.

Definition copy_raw_value (psource : bview) (pdest : option dest) (data_store : Z)
    : option (bool * option dest) :=
  let raw n := bs ← rd_ptr psource n; d ← wr_dest bs pdest; Some (true, d) in
  if data_store =? BINN_STORAGE_NOBYTES then Some (true, pdest)
  else if data_store =? BINN_STORAGE_BYTE then raw 1
  else if data_store =? BINN_STORAGE_WORD then raw 2
  else if data_store =? BINN_STORAGE_DWORD then raw 4
  else if data_store =? BINN_STORAGE_QWORD then raw 8
  else if isin data_store [BINN_STORAGE_BLOB; BINN_STORAGE_STRING; BINN_STORAGE_CONTAINER]
  then d ← wr_dest_ptr psource pdest; Some (true, d)
  else Some (false, pdest).

Definition INT64_MAX : Z := 9223372036854775807.

(** The value of the source, as the [int64] and the [uint64] the code keeps. *)
Definition load_int (psource : bview) (source_type : Z) : option (option (Z * Z)) :=
  let rd n := bs ← rd_ptr psource n; Some (le_val bs) in
  if source_type =? BINN_INT8 then v ← rd 1; Some (Some (s8 v, 0))
  else if source_type =? BINN_INT16 then v ← rd 2; Some (Some (s16 v, 0))
  else if source_type =? BINN_INT32 then v ← rd 4; Some (Some (s32 v, 0))
  else if source_type =? BINN_INT64 then v ← rd 8; Some (Some (s64 v, 0))
  else if source_type =? BINN_UINT8 then v ← rd 1; Some (Some (0, v))
  else if source_type =? BINN_UINT16 then v ← rd 2; Some (Some (0, v))
  else if source_type =? BINN_UINT32 then v ← rd 4; Some (Some (0, v))
  else if source_type =? BINN_UINT64 then v ← rd 8; Some (Some (0, v))
  else Some None.

Definition copy_int_value (psource : bview) (pdest : option dest) (source_type dest_type : Z)
    : option (bool * option dest) :=
  r ← load_int psource source_type;
  match r with
  | None => Some (false, pdest)
  | Some (vint64, vuint64) =>
      let crossed :=
        if (int_type source_type =? BINN_UNSIGNED_INT) && (int_type dest_type =? BINN_SIGNED_INT)
        then if INT64_MAX <? vuint64 then None else Some (vuint64, vuint64)
        else if (int_type source_type =? BINN_SIGNED_INT) &&
                (int_type dest_type =? BINN_UNSIGNED_INT)
        then if vint64 <? 0 then None else Some (vint64, vint64)
        else Some (vint64, vuint64) in
      match crossed with
      | None => Some (false, pdest)
      | Some (vint64, vuint64) =>
          let out lo hi n v :=
            if (v <? lo) || (hi <? v) then Some (false, pdest)
            else d ← wr_dest (le_bytes n v) pdest; Some (true, d) in
          if dest_type =? BINN_INT8 then out (-128) 127 1%nat vint64
          else if dest_type =? BINN_INT16 then out (-32768) 32767 2%nat vint64
          else if dest_type =? BINN_INT32 then out (-2147483648) 2147483647 4%nat vint64
          else if dest_type =? BINN_INT64 then
            d ← wr_dest (le_bytes 8 vint64) pdest; Some (true, d)
          else if dest_type =? BINN_UINT8 then out 0 255 1%nat vuint64
          else if dest_type =? BINN_UINT16 then out 0 65535 2%nat vuint64
          else if dest_type =? BINN_UINT32 then out 0 4294967295 4%nat vuint64
          else if dest_type =? BINN_UINT64 then
            d ← wr_dest (le_bytes 8 vuint64) pdest; Some (true, d)
          else Some (false, pdest)
      end
  end.

(** IEEE 754 interchange formats: [mb] mantissa bits, [eb] exponent bits. *)
Definition sf_of_bits (mb eb x : Z) : spec_float :=
  let s := Z.testbit x (mb + eb) in
  let e := (x / 2 ^ mb) mod 2 ^ eb in
  let m := x mod 2 ^ mb in
  let emin := 3 - 2 ^ (eb - 1) - (mb + 1) in
  if e =? 0 then
    if m =? 0 then S754_zero s else S754_finite s (Z.to_pos m) emin
  else if e =? 2 ^ eb - 1 then
    if m =? 0 then S754_infinity s else S754_nan
  else S754_finite s (Z.to_pos (2 ^ mb + m)) (e - 1 + emin).

Definition bits_of_sf (mb eb : Z) (f : spec_float) : Z :=
  let sign (s : bool) := if s then 2 ^ (mb + eb) else 0 in
  let emin := 3 - 2 ^ (eb - 1) - (mb + 1) in
  match f with
  | S754_zero s => sign s
  | S754_infinity s => sign s + (2 ^ eb - 1) * 2 ^ mb
  | S754_nan => (2 ^ eb - 1) * 2 ^ mb + 2 ^ (mb - 1)
  | S754_finite s m e =>
      if Z.pos m <? 2 ^ mb then sign s + Z.pos m
      else sign s + (e - emin + 1) * 2 ^ mb + (Z.pos m - 2 ^ mb)
  end.

(** Round to nearest even into [prec] bits with exponents below [emax]. *)
Definition sf_round (prec emax : Z) (f : spec_float) : spec_float :=
  match f with
  | S754_finite s m e => binary_round prec emax s m e
  | _ => f
  end.

Definition float_to_double (x : Z) : Z := bits_of_sf 52 11 (sf_round 53 1024 (sf_of_bits 23 8 x)).
Definition double_to_float (x : Z) : Z := bits_of_sf 23 8 (sf_round 24 128 (sf_of_bits 52 11 x)).

Definition copy_float_value (psource : bview) (pdest : option dest) (source_type dest_type : Z)
    : option (bool * option dest) :=
  if source_type =? BINN_FLOAT32 then
    bs ← rd_ptr psource 4;
    d ← wr_dest (le_bytes 8 (float_to_double (le_val bs))) pdest; Some (true, d)
  else if source_type =? BINN_FLOAT64 then
    bs ← rd_ptr psource 8;
    d ← wr_dest (le_bytes 4 (double_to_float (le_val bs))) pdest; Some (true, d)
  else Some (false, pdest).

Definition zero_value (pvalue : option dest) (ty : Z) : option (option dest) :=
  let storage := binn_get_read_storage ty in
  if storage =? BINN_STORAGE_NOBYTES then Some pvalue
  else if storage =? BINN_STORAGE_BYTE then wr_dest (replicate 1 0) pvalue
  else if storage =? BINN_STORAGE_WORD then wr_dest (replicate 2 0) pvalue
  else if storage =? BINN_STORAGE_DWORD then wr_dest (replicate 4 0) pvalue
  else if storage =? BINN_STORAGE_QWORD then wr_dest (replicate 8 0) pvalue
  else if isin storage [BINN_STORAGE_BLOB; BINN_STORAGE_STRING; BINN_STORAGE_CONTAINER]
  then wr_dest_ptr None pvalue
  else Some pvalue.

Definition copy_value (psource : bview) (pdest : option dest)
    (source_type dest_type data_store : Z) : option (bool * option dest) :=
  if negb (type_family source_type =? type_family dest_type) then Some (false, pdest)
  else if (type_family source_type =? BINN_FAMILY_INT) && negb (source_type =? dest_type)
  then copy_int_value psource pdest source_type dest_type
  else if (type_family source_type =? BINN_FAMILY_FLOAT) && negb (source_type =? dest_type)
  then copy_float_value psource pdest source_type dest_type
  else copy_raw_value psource pdest data_store.

(** * Typed reads *)

(** What uninitialised locals hold. *)
Class Stack := {
  stack_bytes : nat -> bytes;
  stack_ptr : bview;
  stack_len : forall n, length (stack_bytes n) = n;
}.

(** The caller's variable after a call, with what the call returned. *)
Record got := Got { g_arg : arg; g_ok : bool; g_value : option dest; g_size : option Z }.

(** The body the three [_get] functions share, around their reader. *)
Definition get_with (p : arg) (read : arg -> option (arg * option binn)) (ty : Z)
    (pvalue : option dest) (psize : option Z) : option got :=
  let storage_type := binn_get_read_storage ty in
  if negb (storage_type =? BINN_STORAGE_NOBYTES) && bool_decide (pvalue = None :> option dest)
  then Some (Got p false pvalue psize)
  else
    pvalue ← zero_value pvalue ty;
    '(p, v) ← read p;
    match v with
    | None => Some (Got p false pvalue psize)
    | Some value =>
        '(ok, pvalue) ← copy_value (deref value (ptr value)) pvalue (type value) ty storage_type;
        if negb ok then Some (Got p false pvalue psize)
        else Some (Got p true pvalue
                     match psize with Some _ => Some (size value) | None => None end)
    end.

Section get.
Context `{L : BinnLib, S : Stack}.

Definition binn_list_get (p : arg) (pos ty : Z) (pvalue : option dest) (psize : option Z) :=
  get_with p (fun p => binn_list_get_value p pos true) ty pvalue psize.
Definition binn_map_get (p : arg) (id ty : Z) (pvalue : option dest) (psize : option Z) :=
  get_with p (fun p => binn_map_get_value p id true) ty pvalue psize.
Definition binn_object_get (p : arg) (key : option bytes) (ty : Z) (pvalue : option dest)
    (psize : option Z) :=
  get_with p (fun p => binn_object_get_value p key true) ty pvalue psize.

(** [T value; get(.., &value, NULL); return value;] for a [T] of [n] bytes
    read by [conv], and for a pointer. *)
Definition scalar (conv : Z -> Z) (n : nat) (get : option dest -> option Z -> option got)
    : option (arg * Z) :=
  g ← get (Some (DBytes (stack_bytes n))) None;
  match g_value g with
  | Some (DBytes bs) => Some (g_arg g, conv (le_val bs))
  | _ => None
  end.
Definition pointer (psize : option Z) (get : option dest -> option Z -> option got)
    : option (arg * bview * option Z) :=
  g ← get (Some (DPtr stack_ptr)) psize;
  match g_value g with
  | Some (DPtr p) => Some (g_arg g, p, g_size g)
  | _ => None
  end.
(** [return get(.., NULL, NULL);] *)
Definition is_null (get : option dest -> option Z -> option got) : option (arg * bool) :=
  g ← get None None; Some (g_arg g, g_ok g).

Definition binn_list_int8 (list : arg) (pos : Z) :=
  scalar s8 1 (binn_list_get list pos BINN_INT8).
Definition binn_list_int16 (list : arg) (pos : Z) :=
  scalar s16 2 (binn_list_get list pos BINN_INT16).
Definition binn_list_int32 (list : arg) (pos : Z) :=
  scalar s32 4 (binn_list_get list pos BINN_INT32).
Definition binn_list_int64 (list : arg) (pos : Z) :=
  scalar s64 8 (binn_list_get list pos BINN_INT64).
Definition binn_list_uint8 (list : arg) (pos : Z) :=
  scalar u8 1 (binn_list_get list pos BINN_UINT8).
Definition binn_list_uint16 (list : arg) (pos : Z) :=
  scalar u16 2 (binn_list_get list pos BINN_UINT16).
Definition binn_list_uint32 (list : arg) (pos : Z) :=
  scalar u32 4 (binn_list_get list pos BINN_UINT32).
Definition binn_list_uint64 (list : arg) (pos : Z) :=
  scalar u64 8 (binn_list_get list pos BINN_UINT64).
Definition binn_list_float (list : arg) (pos : Z) :=
  scalar u32 4 (binn_list_get list pos BINN_FLOAT32).
Definition binn_list_double (list : arg) (pos : Z) :=
  scalar u64 8 (binn_list_get list pos BINN_FLOAT64).
Definition binn_list_bool (list : arg) (pos : Z) :=
  scalar s32 4 (binn_list_get list pos BINN_BOOL).
Definition binn_list_null (list : arg) (pos : Z) := is_null (binn_list_get list pos BINN_NULL).
Definition binn_list_str (list : arg) (pos : Z) :=
  pointer None (binn_list_get list pos BINN_STRING).
Definition binn_list_list (list : arg) (pos : Z) :=
  pointer None (binn_list_get list pos BINN_LIST).
Definition binn_list_map (list : arg) (pos : Z) :=
  pointer None (binn_list_get list pos BINN_MAP).
Definition binn_list_object (list : arg) (pos : Z) :=
  pointer None (binn_list_get list pos BINN_OBJECT).
Definition binn_list_blob (list : arg) (pos : Z) (psize : option Z) :=
  pointer psize (binn_list_get list pos BINN_BLOB).

Definition binn_map_int8 (map : arg) (id : Z) :=
  scalar s8 1 (binn_map_get map id BINN_INT8).
Definition binn_map_int16 (map : arg) (id : Z) :=
  scalar s16 2 (binn_map_get map id BINN_INT16).
Definition binn_map_int32 (map : arg) (id : Z) :=
  scalar s32 4 (binn_map_get map id BINN_INT32).
Definition binn_map_int64 (map : arg) (id : Z) :=
  scalar s64 8 (binn_map_get map id BINN_INT64).
Definition binn_map_uint8 (map : arg) (id : Z) :=
  scalar u8 1 (binn_map_get map id BINN_UINT8).
Definition binn_map_uint16 (map : arg) (id : Z) :=
  scalar u16 2 (binn_map_get map id BINN_UINT16).
Definition binn_map_uint32 (map : arg) (id : Z) :=
  scalar u32 4 (binn_map_get map id BINN_UINT32).
Definition binn_map_uint64 (map : arg) (id : Z) :=
  scalar u64 8 (binn_map_get map id BINN_UINT64).
Definition binn_map_float (map : arg) (id : Z) :=
  scalar u32 4 (binn_map_get map id BINN_FLOAT32).
Definition binn_map_double (map : arg) (id : Z) :=
  scalar u64 8 (binn_map_get map id BINN_FLOAT64).
Definition binn_map_bool (map : arg) (id : Z) :=
  scalar s32 4 (binn_map_get map id BINN_BOOL).
Definition binn_map_null (map : arg) (id : Z) := is_null (binn_map_get map id BINN_NULL).
Definition binn_map_str (map : arg) (id : Z) :=
  pointer None (binn_map_get map id BINN_STRING).
Definition binn_map_list (map : arg) (id : Z) :=
  pointer None (binn_map_get map id BINN_LIST).
Definition binn_map_map (map : arg) (id : Z) :=
  pointer None (binn_map_get map id BINN_MAP).
Definition binn_map_object (map : arg) (id : Z) :=
  pointer None (binn_map_get map id BINN_OBJECT).
Definition binn_map_blob (map : arg) (id : Z) (psize : option Z) :=
  pointer psize (binn_map_get map id BINN_BLOB).

Definition binn_object_int8 (object : arg) (key : option bytes) :=
  scalar s8 1 (binn_object_get object key BINN_INT8).
Definition binn_object_int16 (object : arg) (key : option bytes) :=
  scalar s16 2 (binn_object_get object key BINN_INT16).
Definition binn_object_int32 (object : arg) (key : option bytes) :=
  scalar s32 4 (binn_object_get object key BINN_INT32).
Definition binn_object_int64 (object : arg) (key : option bytes) :=
  scalar s64 8 (binn_object_get object key BINN_INT64).
Definition binn_object_uint8 (object : arg) (key : option bytes) :=
  scalar u8 1 (binn_object_get object key BINN_UINT8).
Definition binn_object_uint16 (object : arg) (key : option bytes) :=
  scalar u16 2 (binn_object_get object key BINN_UINT16).
Definition binn_object_uint32 (object : arg) (key : option bytes) :=
  scalar u32 4 (binn_object_get object key BINN_UINT32).
Definition binn_object_uint64 (object : arg) (key : option bytes) :=
  scalar u64 8 (binn_object_get object key BINN_UINT64).
Definition binn_object_float (object : arg) (key : option bytes) :=
  scalar u32 4 (binn_object_get object key BINN_FLOAT32).
Definition binn_object_double (object : arg) (key : option bytes) :=
  scalar u64 8 (binn_object_get object key BINN_FLOAT64).
Definition binn_object_bool (object : arg) (key : option bytes) :=
  scalar s32 4 (binn_object_get object key BINN_BOOL).
Definition binn_object_null (object : arg) (key : option bytes) := is_null (binn_object_get object key BINN_NULL).
Definition binn_object_str (object : arg) (key : option bytes) :=
  pointer None (binn_object_get object key BINN_STRING).
Definition binn_object_list (object : arg) (key : option bytes) :=
  pointer None (binn_object_get object key BINN_LIST).
Definition binn_object_map (object : arg) (key : option bytes) :=
  pointer None (binn_object_get object key BINN_MAP).
Definition binn_object_object (object : arg) (key : option bytes) :=
  pointer None (binn_object_get object key BINN_OBJECT).
Definition binn_object_blob (object : arg) (key : option bytes) (psize : option Z) :=
  pointer psize (binn_object_get object key BINN_BLOB).

(** * Values that are not in a container *)

Definition binn_alloc_item : option binn :=
  match binn_malloc_item with
  | Some _ => Some (with_allocated true (with_header BINN_MAGIC zero_binn))
  | None => None
  end.

Definition binn_value (ty : Z) (pvalue : bview) (size : Z) (freefn : freefn_t)
    : option (option binn) :=
  match binn_alloc_item with
  | None => Some None
  | Some item =>
      let item := with_type ty item in
      let storage_type := storage_of ty in
      let mem := match pvalue with
                 | Some (buf, o) => Some (drop (Z.to_nat o) buf)
                 | None => None
                 end in
      if storage_type =? BINN_STORAGE_NOBYTES then Some (Some item)
      else if isin storage_type [BINN_STORAGE_STRING; BINN_STORAGE_BLOB; BINN_STORAGE_CONTAINER]
      then
        size ← (if (storage_type =? BINN_STORAGE_STRING) && (size =? 0)
                then s ← mem; n ← strlen s; Some (n + 1)
                else Some size);
        match freefn with
        | FnTransient =>
            d ← binn_memdup mem size;
            match d with
            | None => Some None
            | Some d =>
                let size := if storage_type =? BINN_STORAGE_STRING then size - 1 else size in
                Some (Some (with_size size (with_freefn FnFree (with_ptr (PBuf d 0) item))))
            end
        | _ =>
            let p := match pvalue with Some (buf, o) => PBuf buf o | None => PNull end in
            Some (Some (with_size size (with_freefn freefn (with_ptr p item))))
        end
      else
        let item := with_ptr PSelf item in
        '(_, d) ← copy_raw_value pvalue (Some (DBytes (vunion item))) storage_type;
        match d with
        | Some (DBytes bs) => Some (Some (with_vunion bs item))
        | _ => None
        end
  end.

Definition binn_int8 v := binn_value BINN_INT8 (Some (le_bytes 1 v, 0)) 0 FnNone.
Definition binn_int16 v := binn_value BINN_INT16 (Some (le_bytes 2 v, 0)) 0 FnNone.
Definition binn_int32 v := binn_value BINN_INT32 (Some (le_bytes 4 v, 0)) 0 FnNone.
Definition binn_int64 v := binn_value BINN_INT64 (Some (le_bytes 8 v, 0)) 0 FnNone.
Definition binn_uint8 v := binn_value BINN_UINT8 (Some (le_bytes 1 v, 0)) 0 FnNone.
Definition binn_uint16 v := binn_value BINN_UINT16 (Some (le_bytes 2 v, 0)) 0 FnNone.
Definition binn_uint32 v := binn_value BINN_UINT32 (Some (le_bytes 4 v, 0)) 0 FnNone.
Definition binn_uint64 v := binn_value BINN_UINT64 (Some (le_bytes 8 v, 0)) 0 FnNone.
Definition binn_float v := binn_value BINN_FLOAT32 (Some (le_bytes 4 v, 0)) 0 FnNone.
Definition binn_double v := binn_value BINN_FLOAT64 (Some (le_bytes 8 v, 0)) 0 FnNone.
Definition binn_bool v := binn_value BINN_BOOL (Some (le_bytes 4 v, 0)) 0 FnNone.
Definition binn_null := binn_value BINN_NULL None 0 FnNone.
Definition binn_string (str : bview) (freefn : freefn_t) := binn_value BINN_STRING str 0 freefn.
Definition binn_blob (p : bview) (size : Z) (freefn : freefn_t) :=
  binn_value BINN_BLOB p size freefn.

Definition binn_set_string (item : option binn) (str : bview) (pfree : freefn_t)
    : option (bool * option binn) :=
  match item, str with
  | Some b, Some (buf, o) =>
      match pfree with
      | FnTransient =>
          let s := drop (Z.to_nat o) buf in
          n ← strlen s;
          d ← binn_memdup (Some s) (n + 1);
          match d with
          | None => Some (false, Some (with_ptr PNull b))
          | Some d =>
              Some (true, Some (with_type BINN_STRING (with_freefn FnFree (with_ptr (PBuf d 0) b))))
          end
      | _ => Some (true, Some (with_type BINN_STRING (with_freefn pfree (with_ptr (PBuf buf o) b))))
      end
  | _, _ => Some (false, item)
  end.

Definition binn_set_blob (item : option binn) (p : bview) (size : Z) (pfree : freefn_t)
    : option (bool * option binn) :=
  match item, p with
  | Some b, Some (buf, o) =>
      match pfree with
      | FnTransient =>
          d ← binn_memdup (Some (drop (Z.to_nat o) buf)) size;
          match d with
          | None => Some (false, Some (with_ptr PNull b))
          | Some d =>
              Some (true, Some (with_size size (with_type BINN_BLOB
                                 (with_freefn FnFree (with_ptr (PBuf d 0) b)))))
          end
      | _ =>
          Some (true, Some (with_size size (with_type BINN_BLOB
                             (with_freefn pfree (with_ptr (PBuf buf o) b)))))
      end
  | _, _ => Some (false, item)
  end.

End get.

(** * Conversions of string values *)

(** [for (; *str; str++) retval = 10 * retval + ( *str - '0')], undefined on
    overflow; the string's characters are signed or unsigned alike here, as a
    digit is below 128. *)
Definition add64 (z : Z) : option Z :=
  if (-9223372036854775808 <=? z) && (z <? 9223372036854775808) then Some z else None.

Fixpoint atoi64_loop (str : bytes) (retval : Z) : option Z :=
  match str with
  | [] => None
  | c :: str' =>
      if c =? 0 then Some retval
      else r ← add64 (10 * retval); r ← add64 (r + (c - 48)); atoi64_loop str' r
  end.

Definition atoi64 (str : bytes) : option Z :=
  c ← znth str 0;
  let is_negative := c =? 45 in
  retval ← atoi64_loop (if is_negative then drop 1 str else str) 0;
  if is_negative then add64 (- retval) else Some retval.

(** The scan of [is_integer]: it goes to the terminating zero even after a
    character that is not a digit. *)
Fixpoint all_digits (p : bytes) (retval : bool) : option bool :=
  match p with
  | [] => None
  | c :: p' =>
      if c =? 0 then Some retval
      else all_digits p' (if (c <? 48) || (57 <? c) then false else retval)
  end.

Definition is_integer (p : option bytes) : option bool :=
  match p with
  | None => Some false
  | Some p =>
      c ← znth p 0;
      let p := if c =? 45 then drop 1 p else p in
      c ← znth p 0;
      if c =? 0 then Some false else all_digits p true
  end.

Fixpoint float_scan (p : bytes) (retval number_found : bool) : option bool :=
  match p with
  | [] => None
  | c :: p' =>
      if c =? 0 then Some retval
      else if (c =? 46) || (c =? 44) then
        float_scan p' (if number_found then retval else false) number_found
      else if (48 <=? c) && (c <=? 57) then float_scan p' retval true
      else Some false
  end.

Definition is_float (p : option bytes) : option bool :=
  match p with
  | None => Some false
  | Some p =>
      c ← znth p 0;
      let p := if c =? 45 then drop 1 p else p in
      c ← znth p 0;
      if c =? 0 then Some false else float_scan p true false
  end.
