(* ===== verification/BinnCodec.v ===== *)
(** The encoding of one Binn value, and what the value-level operations of
    BinnFormat, BinnItem and BinnRead do with it: [encode] is the format as a
    function of the type and the data, [AddValue] appends it, [AdvanceDataPos]
    steps over it and [GetValue] reads it back. *)
From S2P Require Import Prelude CMem BinnFormat BinnItem BinnRead.

(** * Byte ranges *)

Lemma znth_mid (pre post : bytes) x : znth (pre ++ x :: post) (zlen pre) = Some x.
Proof.
  rewrite znth_app_r by lia. replace (zlen pre - zlen pre) with 0 by lia. done.
Qed.

Lemma slice_mid (pre bs post : bytes) :
  slice (pre ++ bs ++ post) (zlen pre) (zlen bs) = Some bs.
Proof.
  unfold slice. rewrite !zlen_app. pose proof (zlen_nonneg pre). pose proof (zlen_nonneg bs).
  pose proof (zlen_nonneg post). zif_false. unfold zlen. rewrite !Nat2Z.id.
  by rewrite drop_app_length, take_app_length.
Qed.

Lemma slice_mid' (pre bs post buf : bytes) p n :
  buf = pre ++ bs ++ post -> p = zlen pre -> n = zlen bs -> slice buf p n = Some bs.
Proof. intros -> -> ->. apply slice_mid. Qed.

Lemma splice_mid (pre old bs post : bytes) :
  zlen old = zlen bs -> splice (pre ++ old ++ post) (zlen pre) bs = Some (pre ++ bs ++ post).
Proof.
  intros Hl. unfold splice. rewrite !zlen_app. pose proof (zlen_nonneg pre).
  pose proof (zlen_nonneg post). zif_false. unfold zlen in *.
  rewrite Nat2Z.id, take_app_length.
  replace (Z.to_nat (Z.of_nat (length pre) + Z.of_nat (length bs)))
    with (length (pre ++ old)) by (rewrite length_app; lia).
  by rewrite (app_assoc pre old post), drop_app_length.
Qed.

Lemma split_at (l : bytes) (i n : Z) :
  0 <= i -> 0 <= n -> i + n <= zlen l ->
  exists pre mid post, l = pre ++ mid ++ post /\ zlen pre = i /\ zlen mid = n.
Proof.
  intros. exists (take (Z.to_nat i) l), (take (Z.to_nat n) (drop (Z.to_nat i) l)),
    (drop (Z.to_nat n) (drop (Z.to_nat i) l)).
  rewrite !take_drop. unfold zlen in *. rewrite !length_take, length_drop. split; [done|lia].
Qed.

Lemma strlen_app (s post : bytes) : Forall (fun c => c <> 0) s -> strlen (s ++ 0 :: post) = Some (zlen s).
Proof.
  induction 1 as [|c s Hc _ IH]; simpl; [done|].
  zif. rewrite IH. cbn [mbind option_bind]. by rewrite zlen_cons.
Qed.

(** * Byte order *)


Lemma zlen_length (d : bytes) n : zlen d = Z.of_nat n -> length d = n.
Proof. unfold zlen. lia. Qed.

Lemma copy_be16_rev (d post : bytes) : zlen d = 2 -> copy_be16 (d ++ post) = Some (rev d).
Proof. intros H%(zlen_length d 2). destruct d as [|a [|b [|]]]; done. Qed.
Lemma copy_be32_rev (d post : bytes) : zlen d = 4 -> copy_be32 (d ++ post) = Some (rev d).
Proof. intros H%(zlen_length d 4). destruct d as [|a [|b [|c [|e [|]]]]]; done. Qed.
Lemma copy_be64_rev (d post : bytes) : zlen d = 8 -> copy_be64 (d ++ post) = Some (rev d).
Proof.
  intros H%(zlen_length d 8).
  destruct d as [|a [|b [|c [|e [|f [|g [|h [|i [|]]]]]]]]]; done.
Qed.

Lemma wr_be32_spec x : wr_be32 x = Some (be_bytes 4 x).
Proof. unfold wr_be32. rewrite <- (app_nil_r (le_bytes 4 x)). by rewrite copy_be32_rev. Qed.

Lemma rd_be32_mid (pre d post : bytes) :
  zlen d = 4 -> rd_be32 (pre ++ d ++ post) (zlen pre) = Some (s32 (be_val d)).
Proof.
  intros H. unfold rd_be32. rewrite <- H, slice_mid. cbn [mbind option_bind].
  rewrite <- (app_nil_r d), copy_be32_rev by done. cbn [mbind option_bind].
  by rewrite app_nil_r.
Qed.

Lemma zlen_be_bytes n v : zlen (be_bytes n v) = Z.of_nat n.
Proof. unfold zlen. by rewrite be_bytes_length. Qed.
Lemma zlen_rev (d : bytes) : zlen (rev d) = zlen d.
Proof. unfold zlen. by rewrite length_rev. Qed.

(** * The length field *)

Definition len_field (n : Z) : bytes := if 127 <? n then be_bytes 4 (n - 2147483648) else [n].

Lemma lor_top n : 0 <= n < 2147483648 -> s32 (n .| 0x80000000) = n - 2147483648.
Proof.
  intros. rewrite Z.lor_comm.
  assert (E : 2147483648 .| n = 1 * 2 ^ 31 + n) by (apply (lor_shiftl 1 n 31); lia).
  rewrite E. cint.
Qed.

Lemma length_field_spec n : 0 <= n < 2147483648 -> length_field n = Some (len_field n).
Proof.
  intros. unfold length_field, len_field. zif; [by rewrite lor_top, wr_be32_spec|].
  by rewrite u8_id by lia.
Qed.

Lemma len_field_zlen n : zlen (len_field n) = if 127 <? n then 4 else 1.
Proof. unfold len_field. zif; [by rewrite zlen_be_bytes|done]. Qed.

(** A claim about every byte, checked on each. *)
Lemma byte_forall (P : Z -> bool) :
  forallb (fun n => P (Z.of_nat n)) (seq 0 256) = true -> forall b, is_byte b -> P b = true.
Proof.
  intros H b [? ?]. rewrite forallb_forall in H.
  replace b with (Z.of_nat (Z.to_nat b)) by lia. apply H. apply in_seq. lia.
Qed.

Lemma land_0x80 b : is_byte b -> (b .& 0x80 =? 0) = (b <? 128).
Proof.
  intros Hb. apply eqb_prop. revert b Hb.
  apply (byte_forall (fun b => eqb (b .& 0x80 =? 0) (b <? 128))). reflexivity.
Qed.

Lemma len_field_head n :
  0 <= n < 2147483648 ->
  exists b r, len_field n = b :: r /\ (b .& 0x80 =? 0) = (n <=? 127) /\ (n <= 127 -> b = n).
Proof.
  intros. unfold len_field. zif.
  - eexists _, _. split; [reflexivity|].
    split; [|lia].
    rewrite land_0x80 by (unfold is_byte; lia). lia.
  - exists n, []. split; [done|]. split; [|done].
    rewrite land_0x80 by (unfold is_byte; lia). lia.
Qed.

Lemma be_val_top n : 0 <= n < 2147483648 -> s32 (be_val (be_bytes 4 (n - 2147483648))) .& 0x7FFFFFFF = n.
Proof.
  intros. rewrite be_val_bytes. change (256 ^ Z.of_nat 4) with 4294967296.
  replace (s32 ((n - 2147483648) mod 4294967296)) with (n - 2147483648) by cint.
  change 0x7FFFFFFF with (2 ^ 31 - 1). rewrite land_ones_mod by lia.
  change (2 ^ 31) with 2147483648. lia.
Qed.

Lemma data_size_len_field (pre post : bytes) n plimit :
  0 <= n < 2147483648 ->
  data_size (pre ++ len_field n ++ post) (zlen pre) plimit =
  Some (if plimit <? zlen pre + zlen (len_field n) - 1 then None
        else Some (n, zlen (len_field n))).
Proof.
  intros Hn. destruct (len_field_head n Hn) as (b & r & E & Hb & Hs).
  pose proof (len_field_zlen n) as Hz.
  unfold data_size. rewrite E at 1. cbn [app]. rewrite znth_mid. cbn [mbind option_bind].
  rewrite Hb. rewrite Hz. destruct (n <=? 127) eqn:E'; zbool.
  - rewrite Hs by lia. replace (127 <? n) with false by lia. zifs; done.
  - replace (127 <? n) with true in * by lia. zif; [by zifs|]. zif; [by zifs|].
    replace (plimit <? zlen pre + 4 - 1) with false by lia.
    unfold len_field. replace (127 <? n) with true by lia. rewrite rd_be32_mid by apply zlen_be_bytes.
    cbn [mbind option_bind]. by rewrite be_val_top.
Qed.

(** * The encoding *)

(** A type code: one byte, or two with the HAS_MORE bit in the first. *)
Definition thead (ty : Z) : Z := if 255 <? ty then ty / 256 else ty.
Definition tbytes (ty : Z) : bytes := if 255 <? ty then [ty / 256; ty mod 256] else [ty].

Definition type_ok (ty : Z) : Prop :=
  0 <= ty < 65536 /\ (thead ty .& BINN_STORAGE_HAS_MORE =? 0) = (ty <=? 255).

(** The bytes of data of the storage classes with a fixed size. *)
Definition width (storage_type : Z) : Z :=
  if storage_type =? BINN_STORAGE_BYTE then 1
  else if storage_type =? BINN_STORAGE_WORD then 2
  else if storage_type =? BINN_STORAGE_DWORD then 4
  else if storage_type =? BINN_STORAGE_QWORD then 8
  else 0.

(** A value of type [ty] with data [d]: an integer's little-endian bytes, the
    characters of a string, the bytes of a blob, a whole container. *)
Definition encode (ty : Z) (d : bytes) : bytes :=
  let st := storage_of ty in
  if st =? BINN_STORAGE_CONTAINER then d
  else tbytes ty ++
    (if st =? BINN_STORAGE_BLOB then len_field (zlen d) ++ d
     else if st =? BINN_STORAGE_STRING then len_field (zlen d) ++ d ++ [0]
     else rev d).

Inductive value_ok : Z -> bytes -> Prop :=
  | ok_fixed ty d :
      type_ok ty -> storage_of ty <= BINN_STORAGE_QWORD -> all_bytes d ->
      zlen d = width (storage_of ty) -> value_ok ty d
  | ok_blob ty d :
      type_ok ty -> storage_of ty = BINN_STORAGE_BLOB -> all_bytes d ->
      zlen d < 2147483648 -> value_ok ty d
  | ok_string ty d :
      type_ok ty -> storage_of ty = BINN_STORAGE_STRING -> all_bytes d ->
      zlen d < 2147483648 -> value_ok ty d
  | ok_container ty count body d :
      isin ty [BINN_LIST; BINN_MAP; BINN_OBJECT] = true ->
      d = ty :: len_field (zlen d) ++ len_field count ++ body -> all_bytes d ->
      0 <= count < 2147483648 -> zlen d < 2147483648 -> value_ok ty d.

Lemma thead_byte ty : type_ok ty -> is_byte (thead ty).
Proof. intros [? _]. unfold thead, is_byte. zif; lia. Qed.

Lemma storage_thead ty : type_ok ty -> storage_of ty = thead ty .& BINN_STORAGE_MASK.
Proof.
  intros [Hr _]. unfold storage_of, binn_get_type_info, type_info_narrow, thead.
  destruct (decide (ty <= 255)).
  - replace (0xffff <? ty) with false by lia. replace (255 <? ty) with false by lia.
    cbn [andb]. replace (ty <? 0) with false by lia. replace (ty <=? 0xff) with true by lia. done.
  - replace (0xffff <? ty) with false by lia. replace (255 <? ty) with true by lia.
    cbn [andb]. replace (ty <? 0) with false by lia. replace (ty <=? 0xff) with false by lia.
    replace (ty <=? 0xffff) with true by lia. cbn [fst].
    rewrite Z.shiftr_land. change 256 with (2 ^ 8). by rewrite <- Z.shiftr_div_pow2 by lia.
Qed.

Lemma storage_cases ty :
  type_ok ty ->
  In (storage_of ty) [BINN_STORAGE_NOBYTES; BINN_STORAGE_BYTE; BINN_STORAGE_WORD;
    BINN_STORAGE_DWORD; BINN_STORAGE_QWORD; BINN_STORAGE_STRING; BINN_STORAGE_BLOB;
    BINN_STORAGE_CONTAINER].
Proof.
  intros H. rewrite storage_thead by done. pose proof (thead_byte ty H) as Hb.
  revert Hb. generalize (thead ty). intros b Hb.
  assert (E : isin (b .& BINN_STORAGE_MASK) [BINN_STORAGE_NOBYTES; BINN_STORAGE_BYTE;
    BINN_STORAGE_WORD; BINN_STORAGE_DWORD; BINN_STORAGE_QWORD; BINN_STORAGE_STRING;
    BINN_STORAGE_BLOB; BINN_STORAGE_CONTAINER] = true).
  { revert b Hb. apply byte_forall. reflexivity. }
  unfold isin in E. apply existsb_exists in E as (x & Hx & ->%Z.eqb_eq). done.
Qed.

Lemma tbytes_head ty : type_ok ty -> exists r, tbytes ty = thead ty :: r /\ zlen r = if 255 <? ty then 1 else 0.
Proof. intros _. unfold tbytes, thead. zif; eauto. Qed.

Lemma container_type_facts ty :
  isin ty [BINN_LIST; BINN_MAP; BINN_OBJECT] = true ->
  storage_of ty = BINN_STORAGE_CONTAINER /\ ty .& BINN_STORAGE_MASK = BINN_STORAGE_CONTAINER /\
  (ty .& BINN_STORAGE_HAS_MORE =? 0) = true /\ is_byte ty.
Proof.
  unfold isin. intros H. apply existsb_exists in H as (x & Hx & ->%Z.eqb_eq).
  repeat destruct Hx as [<-|Hx]; done.
Qed.

(** Case analysis on the storage class of a well-formed type. *)
Ltac storage_split H :=
  let E := fresh "Est" in
  pose proof (storage_cases _ H) as E;
  repeat destruct E as [E|E]; try contradiction; symmetry in E.

(** The bytes of a fixed-width value, by its storage. *)
Lemma encode_fixed ty d :
  storage_of ty <= BINN_STORAGE_QWORD -> encode ty d = tbytes ty ++ rev d.
Proof.
  intros H. unfold encode. change BINN_STORAGE_QWORD with 128 in H.
  change BINN_STORAGE_CONTAINER with 224. change BINN_STORAGE_BLOB with 192.
  change BINN_STORAGE_STRING with 160. zifs. done.
Qed.

(** What every case shares: the type bytes have been read. *)
Lemma type_skip ty n :
  type_ok ty ->
  (if thead ty .& BINN_STORAGE_HAS_MORE =? 0 then n + 1 else n + 1 + 1) = n + zlen (tbytes ty).
Proof.
  intros [Hr Hm]. rewrite Hm. unfold tbytes.
  destruct (decide (ty <= 255)).
  - replace (ty <=? 255) with true by lia. by replace (255 <? ty) with false by lia.
  - replace (ty <=? 255) with false by lia. replace (255 <? ty) with true by lia.
    change (zlen [ty / 256; ty mod 256]) with 2. lia.
Qed.

Lemma tbytes_pos ty : 1 <= zlen (tbytes ty).
Proof. unfold tbytes. zif; [change (zlen _) with 2 | change (zlen _) with 1]; lia. Qed.

Lemma tbytes_first ty (post : bytes) : exists r, tbytes ty ++ post = thead ty :: r.
Proof. unfold tbytes, thead. zif; eauto. Qed.

Lemma advance_fixed ty d (pre post : bytes) plimit :
  type_ok ty -> storage_of ty <= BINN_STORAGE_QWORD -> zlen d = width (storage_of ty) ->
  let e := tbytes ty ++ rev d in
  AdvanceDataPos (pre ++ e ++ post) (zlen pre) plimit =
  Some (if plimit <? zlen pre + zlen e then None else Some (zlen pre + zlen e)).
Proof.
  intros Ht Hst Hd e. unfold e. rewrite zlen_app, zlen_rev. pose proof (tbytes_pos ty).
  pose proof (zlen_nonneg d). unfold AdvanceDataPos. zif; [by zifs|].
  rewrite <- app_assoc. destruct (tbytes_first ty (rev d ++ post)) as [r Er].
  rewrite Er, znth_mid. cbn [mbind option_bind]. rewrite type_skip by done.
  rewrite <- storage_thead by done.
  storage_split Ht; rewrite Est in *; try (exfalso; apply Hst; reflexivity);
    cbn in Hd; cbn -[zlen tbytes]; rewrite Hd; zifs; feq.
Qed.

Lemma advance_sized ty d (pre post : bytes) plimit :
  type_ok ty -> zlen d < 2147483648 ->
  storage_of ty = BINN_STORAGE_BLOB \/ storage_of ty = BINN_STORAGE_STRING ->
  let t := if storage_of ty =? BINN_STORAGE_STRING then [0] else [] in
  let e := tbytes ty ++ len_field (zlen d) ++ d ++ t in
  AdvanceDataPos (pre ++ e ++ post) (zlen pre) plimit =
  Some (if plimit <? zlen pre + zlen e then None else Some (zlen pre + zlen e)).
Proof.
  intros Ht Hd Hst t e. unfold e. rewrite !zlen_app. pose proof (tbytes_pos ty).
  pose proof (zlen_nonneg d). pose proof (zlen_nonneg t).
  assert (Hl : 1 <= zlen (len_field (zlen d))) by (rewrite len_field_zlen; zifs).
  unfold AdvanceDataPos. zif; [by zifs|].
  destruct (tbytes_first ty ((len_field (zlen d) ++ d ++ t) ++ post)) as [r Er].
  rewrite <- app_assoc, Er, znth_mid. cbn [mbind option_bind]. rewrite type_skip by done.
  rewrite <- storage_thead, <- Er by done.
  rewrite <- !app_assoc, (app_assoc pre), <- zlen_app, data_size_len_field by lia.
  rewrite zlen_app. unfold t in *. clear t e.
  destruct Hst as [Hst|Hst]; rewrite Hst in *; cbn -[zlen tbytes len_field];
    zif; cbn -[zlen tbytes len_field]; change (zlen [0]) with 1;
    change (zlen (@nil Z)) with 0; zifs; feq.
Qed.

Lemma advance_container ty c d (pre post : bytes) plimit :
  isin ty [BINN_LIST; BINN_MAP; BINN_OBJECT] = true -> d = ty :: len_field (zlen d) ++ c ->
  zlen d < 2147483648 ->
  AdvanceDataPos (pre ++ d ++ post) (zlen pre) plimit =
  Some (if plimit <? zlen pre + zlen d then None else Some (zlen pre + zlen d)).
Proof.
  intros Ht Ed Hd. destruct (container_type_facts ty Ht) as (_ & Hm & Hmore & _).
  assert (Hl : 1 <= zlen (len_field (zlen d))) by (rewrite len_field_zlen; zifs).
  pose proof (zlen_nonneg c).
  assert (Hz : zlen d = 1 + zlen (len_field (zlen d)) + zlen c)
    by (rewrite Ed at 1; rewrite zlen_cons, zlen_app; lia).
  assert (Eb : pre ++ d ++ post = pre ++ ty :: (len_field (zlen d) ++ c ++ post))
    by (rewrite Ed at 1; cbn [app]; by rewrite <- app_assoc).
  rewrite Eb. unfold AdvanceDataPos. zif; [by zifs|].
  rewrite znth_mid. cbn [mbind option_bind].
  rewrite Hm, Hmore. cbn -[zlen len_field data_size].
  replace (zlen pre + 1) with (zlen (pre ++ [ty])) by (rewrite zlen_app; done).
  replace (pre ++ ty :: len_field (zlen d) ++ c ++ post)
    with ((pre ++ [ty]) ++ len_field (zlen d) ++ c ++ post) by (rewrite <- !app_assoc; done).
  pose proof (zlen_nonneg d). rewrite data_size_len_field by lia.
  rewrite zlen_app. change (zlen [ty]) with 1. zif; cbn -[zlen len_field]; zifs; feq.
Qed.

Lemma advance_encode ty d (pre post : bytes) plimit :
  value_ok ty d ->
  AdvanceDataPos (pre ++ encode ty d ++ post) (zlen pre) plimit =
  Some (if plimit <? zlen pre + zlen (encode ty d) then None
        else Some (zlen pre + zlen (encode ty d))).
Proof.
  intros Hv. destruct Hv as [ty d Ht Hst _ Hd|ty d Ht Hst _ Hd|ty d Ht Hst _ Hd
                            |ty count body d Ht Ed _ _ Hd].
  - rewrite encode_fixed by done. by apply advance_fixed.
  - pose proof (advance_sized ty d pre post plimit Ht Hd (or_introl Hst)) as H.
    unfold encode. rewrite Hst in *. cbn -[zlen tbytes len_field AdvanceDataPos] in *.
    by rewrite app_nil_r in H.
  - pose proof (advance_sized ty d pre post plimit Ht Hd (or_intror Hst)) as H.
    unfold encode. rewrite Hst in *. exact H.
  - unfold encode. destruct (container_type_facts ty Ht) as (-> & _).
    by apply (advance_container ty (len_field count ++ body)).
Qed.

(** * The header *)

Lemma header_field_len_field (pre post : bytes) n plimit :
  0 <= n < 2147483648 ->
  header_field (pre ++ len_field n ++ post) (zlen pre) plimit =
  Some (if beyond plimit (zlen pre + zlen (len_field n) - 1) then None
        else Some (n, zlen pre + zlen (len_field n))).
Proof.
  intros Hn. destruct (len_field_head n Hn) as (b & r & E & Hb & Hs).
  pose proof (len_field_zlen n) as Hz.
  unfold header_field. rewrite E at 1. cbn [app]. rewrite znth_mid. cbn [mbind option_bind].
  rewrite Hb, Hz. destruct (n <=? 127) eqn:E'; zbool.
  - rewrite Hs by lia. replace (127 <? n) with false by lia.
    replace (zlen pre + 1 - 1) with (zlen pre) by lia. by destruct (beyond plimit (zlen pre)).
  - replace (127 <? n) with true in * by lia.
    destruct (beyond plimit (zlen pre)) eqn:B1.
    + destruct plimit as [l|]; [|done]. cbn in B1 |- *. zbool. by zifs.
    + destruct (beyond plimit (zlen pre + 4 - 1)); [done|].
      unfold len_field. replace (127 <? n) with true by lia. rewrite rd_be32_mid by apply zlen_be_bytes.
      cbn [mbind option_bind]. by rewrite be_val_top.
Qed.

(** The header bytes [binn_save_header] leaves and a reader expects. *)
Definition header_bytes (ty size count : Z) : bytes := ty :: len_field size ++ len_field count.

Lemma IsValidBinnHeader_header (pre post : bytes) ty size count :
  isin ty [BINN_LIST; BINN_MAP; BINN_OBJECT] = true ->
  3 <= size < 2147483648 -> 0 <= count < 2147483648 ->
  IsValidBinnHeader (Some (pre ++ header_bytes ty size count ++ post, zlen pre)) (Some 0) =
  Some (Some (Hdr ty count (Some size) (zlen (header_bytes ty size count)))).
Proof.
  intros Ht Hs Hc. destruct (container_type_facts ty Ht) as (_ & Hm & Hmore & _).
  unfold header_bytes, IsValidBinnHeader. cbn [app]. rewrite znth_mid. cbn [mbind option_bind].
  rewrite Hm, Hmore, Ht. cbn -[zlen len_field header_field].
  replace (zlen pre + 1) with (zlen (pre ++ [ty])) by (rewrite zlen_app; done).
  replace (pre ++ ty :: (len_field size ++ len_field count) ++ post)
    with ((pre ++ [ty]) ++ len_field size ++ len_field count ++ post)
    by (rewrite <- !app_assoc; done).
  rewrite header_field_len_field by lia. cbn -[zlen len_field header_field].
  rewrite (app_assoc (pre ++ [ty])), <- (zlen_app (pre ++ [ty])).
  rewrite header_field_len_field by lia. cbn -[zlen len_field header_field].
  rewrite zlen_cons, !zlen_app. change (zlen [ty]) with 1.
  replace (size <? MIN_BINN_SIZE) with false by (change MIN_BINN_SIZE with 3; lia).
  replace (count <? 0) with false by lia. cbn [orb]. feq.
Qed.

(** * Reading a value back *)

(** The memory at the value's pointer starts with [d]. *)
Definition holds (v : binn) (d : bytes) : Prop :=
  exists buf o, deref v (ptr v) = Some (buf, o) /\ slice buf o (zlen d) = Some d.

(** The structure a reader fills for the value [d] of type [ty]. *)
Definition denotes (ty : Z) (d : bytes) (v : binn) : Prop :=
  if ty =? BINN_TRUE then type v = BINN_BOOL /\ holds v (le_bytes 4 1)
  else if ty =? BINN_FALSE then type v = BINN_BOOL /\ holds v (le_bytes 4 0)
  else
    type v = ty /\
    let st := storage_of ty in
    if st =? BINN_STORAGE_NOBYTES then ptr v = PNull
    else if (st =? BINN_STORAGE_BLOB) || (st =? BINN_STORAGE_CONTAINER)
    then size v = zlen d /\ holds v d
    else if st =? BINN_STORAGE_STRING then size v = zlen d /\ holds v (d ++ [0])
    else holds v d.

Lemma holds_union v d : holds (with_ptr PSelf (with_vunion d v)) d.
Proof.
  eexists _, _. split; [reflexivity|]. cbn. apply (slice_mid [] d).
Qed.

Lemma holds_buf v d (pre post buf : bytes) p :
  buf = pre ++ d ++ post -> p = zlen pre -> holds (with_ptr (PBuf buf p) v) d.
Proof. intros -> ->. eexists _, _. split; [reflexivity|]. apply slice_mid. Qed.

Lemma type_vals ty : ty = BINN_TRUE \/ ty = BINN_FALSE -> storage_of ty = BINN_STORAGE_NOBYTES.
Proof. intros [->| ->]; done. Qed.

(** The type code as the reader puts it together. *)
Lemma read_type (pre post : bytes) ty :
  type_ok ty ->
  (if thead ty .& BINN_STORAGE_HAS_MORE =? 0 then Some (thead ty, zlen pre + 1)
   else b ← znth (pre ++ tbytes ty ++ post) (zlen pre + 1);
        Some ((thead ty .<< 8) .| b, zlen pre + 1 + 1)) =
  Some (ty, zlen pre + zlen (tbytes ty)).
Proof.
  intros [Hr Hm]. rewrite Hm. unfold tbytes, thead. destruct (decide (ty <= 255)).
  - replace (ty <=? 255) with true by lia. by replace (255 <? ty) with false by lia.
  - replace (ty <=? 255) with false by lia. replace (255 <? ty) with true by lia.
    replace (pre ++ [ty / 256; ty mod 256] ++ post)
      with ((pre ++ [ty / 256]) ++ ty mod 256 :: post) by (rewrite <- app_assoc; done).
    replace (zlen pre + 1) with (zlen (pre ++ [ty / 256])) by (rewrite zlen_app; done).
    rewrite znth_mid. cbn [mbind option_bind]. rewrite lor_shiftl_8 by lia.
    rewrite zlen_app. change (zlen [ty / 256]) with 1.
    change (zlen [ty / 256; ty mod 256]) with 2. feq.
Qed.

(** A type that is not one of the two boolean constants. *)
Definition plain (ty : Z) : Prop := (ty =? BINN_TRUE) = false /\ (ty =? BINN_FALSE) = false.

Lemma storage_plain ty : storage_of ty <> BINN_STORAGE_NOBYTES -> plain ty.
Proof.
  intros H. split; apply Z.eqb_neq; intros ->; apply H; reflexivity.
Qed.

(** The reader up to its type bytes, for any value. *)
Ltac read_head Ht r :=
  unfold GetValue; cbn [negb]; rewrite <- app_assoc;
  match goal with
  | |- context [tbytes ?ty ++ ?l] =>
      let E := fresh in
      destruct (tbytes_first ty l) as [r E];
      rewrite E, znth_mid, <- E; cbn [mbind option_bind]; rewrite read_type by done;
      cbn [mbind option_bind]; rewrite <- storage_thead by done
  end.

Lemma GetValue_wide ty d (pre post : bytes) :
  type_ok ty -> In (storage_of ty) [BINN_STORAGE_WORD; BINN_STORAGE_DWORD; BINN_STORAGE_QWORD] ->
  zlen d = width (storage_of ty) ->
  exists v, GetValue (pre ++ (tbytes ty ++ rev d) ++ post) (zlen pre) true = Some (Some v) /\
    denotes ty d v.
Proof.
  intros Ht Hst Hd. read_head Ht r. rewrite (app_assoc pre), <- zlen_app.
  set (p := pre ++ tbytes ty). pose proof (zlen_rev d) as Hr.
  eexists. unfold denotes.
  destruct (storage_plain ty) as [E1 E2]; [intros E; rewrite E in Hst; by destruct Hst as [?|[?|[?|?]]]|].
  rewrite E1, E2.
  repeat destruct Hst as [Hst|Hst]; try contradiction; symmetry in Hst; rewrite Hst in *;
    cbn in Hd;
    cbn -[zlen slice copy_be16 copy_be32 copy_be64 holds with_ptr with_vunion];
    rewrite (slice_mid' p (rev d) post) by congruence;
    cbn [mbind option_bind]; rewrite <- (app_nil_r (rev d));
    first [rewrite copy_be16_rev by congruence | rewrite copy_be32_rev by congruence
          | rewrite copy_be64_rev by congruence];
    cbn -[holds with_ptr with_vunion zlen]; rewrite rev_involutive;
    change (type (with_ptr PSelf _)) with ty; rewrite E1, E2;
    (split; [reflexivity|split; [reflexivity|apply holds_union]]).
Qed.

Lemma GetValue_narrow ty d (pre post : bytes) :
  type_ok ty -> In (storage_of ty) [BINN_STORAGE_NOBYTES; BINN_STORAGE_BYTE] ->
  zlen d = width (storage_of ty) ->
  exists v, GetValue (pre ++ (tbytes ty ++ rev d) ++ post) (zlen pre) true = Some (Some v) /\
    denotes ty d v.
Proof.
  intros Ht Hst Hd. read_head Ht r. rewrite (app_assoc pre), <- zlen_app.
  set (p := pre ++ tbytes ty). unfold denotes.
  repeat destruct Hst as [Hst|Hst]; try contradiction; symmetry in Hst; rewrite Hst in *.
  - cbn -[zlen holds with_ptr with_vunion].
    destruct (ty =? BINN_TRUE); [|destruct (ty =? BINN_FALSE)];
      eexists; (split; [reflexivity|]); (split; [reflexivity|]);
      first [apply holds_union | reflexivity].
  - destruct (storage_plain ty) as [E1 E2]; [rewrite Hst; done|].
    cbn in Hd. apply (zlen_length d 1) in Hd. destruct d as [|b [|]]; try discriminate Hd.
    cbn -[zlen holds with_ptr with_vunion]. rewrite znth_mid.
    cbn -[zlen holds with_ptr with_vunion]. change (type (with_ptr _ _)) with ty.
    rewrite E1, E2. eexists. split; [reflexivity|]. split; [reflexivity|].
    by apply (holds_buf _ [b] p post).
Qed.

(** The reader's length field, which checks no limit; [K] is what follows. *)
Lemma read_len {B} (pre post : bytes) n (K : Z * Z -> option B) :
  0 <= n < 2147483648 ->
  (DataSize ← znth (pre ++ len_field n ++ post) (zlen pre);
   x ← (if DataSize .& 0x80 =? 0 then Some (DataSize, zlen pre + 1)
        else d ← rd_be32 (pre ++ len_field n ++ post) (zlen pre);
             Some (d .& 0x7FFFFFFF, zlen pre + 4));
   K x) = K (n, zlen pre + zlen (len_field n)).
Proof.
  intros Hn. pose proof (header_field_len_field pre post n None Hn) as H.
  unfold header_field in H. cbn [beyond] in H.
  destruct (znth (pre ++ len_field n ++ post) (zlen pre)) as [b|]; [|discriminate H].
  cbn [mbind option_bind] in *.
  destruct (b .& 0x80 =? 0).
  - by injection H as -> <-.
  - destruct (rd_be32 _ _); [|discriminate H]. cbn [mbind option_bind] in *. by injection H as -> <-.
Qed.

Lemma GetValue_sized ty d (pre post : bytes) :
  type_ok ty -> zlen d < 2147483648 ->
  storage_of ty = BINN_STORAGE_BLOB \/ storage_of ty = BINN_STORAGE_STRING ->
  let t := if storage_of ty =? BINN_STORAGE_STRING then [0] else [] in
  exists v, GetValue (pre ++ (tbytes ty ++ len_field (zlen d) ++ d ++ t) ++ post) (zlen pre) true
    = Some (Some v) /\ denotes ty d v.
Proof.
  intros Ht Hd Hst t. read_head Ht r. rewrite (app_assoc pre), <- zlen_app.
  set (p := pre ++ tbytes ty). pose proof (zlen_nonneg d).
  destruct (storage_plain ty) as [E1 E2]; [destruct Hst as [E|E]; rewrite E; done|].
  set (buf := p ++ (len_field (zlen d) ++ d ++ t) ++ post).
  assert (Eb : buf = p ++ len_field (zlen d) ++ ((d ++ t) ++ post))
    by (unfold buf; by rewrite <- !app_assoc).
  assert (Ed : buf = (p ++ len_field (zlen d)) ++ (d ++ t) ++ post)
    by (rewrite Eb; by rewrite <- !app_assoc).
  rewrite Eb.
  unfold denotes. rewrite E1, E2.
  destruct Hst as [Hst|Hst]; unfold t in *; rewrite Hst in *;
    cbn -[zlen znth rd_be32 len_field holds with_ptr with_size app];
    rewrite read_len by lia; cbn -[zlen len_field holds with_ptr with_size app];
    change (type (with_ptr _ _)) with ty; rewrite E1, E2; eexists;
    (split; [reflexivity|]); (split; [reflexivity|]); (split; [reflexivity|]).
  - rewrite app_nil_r in *. apply (holds_buf _ d (p ++ len_field (zlen d)) post);
      [by rewrite <- !app_assoc | by rewrite zlen_app].
  - apply (holds_buf _ (d ++ [0]) (p ++ len_field (zlen d)) post);
      [by rewrite <- !app_assoc | by rewrite zlen_app].
Qed.

Lemma GetValue_container ty count body d (pre post : bytes) :
  isin ty [BINN_LIST; BINN_MAP; BINN_OBJECT] = true ->
  d = ty :: len_field (zlen d) ++ len_field count ++ body ->
  0 <= count < 2147483648 -> zlen d < 2147483648 ->
  exists v, GetValue (pre ++ d ++ post) (zlen pre) true = Some (Some v) /\ denotes ty d v.
Proof.
  intros Ht Ed Hc Hd. destruct (container_type_facts ty Ht) as (Hst & Hm & Hmore & _).
  assert (Eb : d = header_bytes ty (zlen d) count ++ body)
    by (unfold header_bytes; cbn [app]; by rewrite <- app_assoc).
  assert (Hz : 3 <= zlen d).
  { rewrite Ed at 1. rewrite zlen_cons, !zlen_app, !len_field_zlen. pose proof (zlen_nonneg body).
    zifs. }
  destruct (storage_plain ty) as [E1 E2]; [rewrite Hst; done|].
  assert (Hv : IsValidBinnHeader (Some (pre ++ d ++ post, zlen pre)) (Some 0) =
    Some (Some (Hdr ty count (Some (zlen d)) (zlen (header_bytes ty (zlen d) count))))).
  { rewrite Eb at 1. rewrite <- app_assoc. by apply IsValidBinnHeader_header. }
  assert (Hh : znth (pre ++ d ++ post) (zlen pre) = Some ty).
  { rewrite Ed. cbn [app]. apply znth_mid. }
  unfold GetValue. cbn [negb]. rewrite Hh. cbn [mbind option_bind]. rewrite Hm, Hmore.
  cbn -[zlen IsValidBinnHeader denotes]. rewrite Hv. cbn -[zlen denotes with_ptr].
  change (type (with_ptr _ _)) with ty. rewrite E1, E2. eexists. split; [reflexivity|].
  unfold denotes. rewrite E1, E2, Hst. cbn -[zlen holds with_ptr].
  split; [done|]. split; [done|]. by apply (holds_buf _ d pre post).
Qed.

Lemma GetValue_encode ty d (pre post : bytes) :
  value_ok ty d ->
  exists v, GetValue (pre ++ encode ty d ++ post) (zlen pre) true = Some (Some v) /\
    denotes ty d v.
Proof.
  intros Hv. destruct Hv as [ty d Ht Hst _ Hd|ty d Ht Hst _ Hd|ty d Ht Hst _ Hd
                            |ty count body d Ht Ed _ Hc Hd].
  - rewrite encode_fixed by done.
    assert (H : In (storage_of ty) [BINN_STORAGE_NOBYTES; BINN_STORAGE_BYTE] \/
      In (storage_of ty) [BINN_STORAGE_WORD; BINN_STORAGE_DWORD; BINN_STORAGE_QWORD]).
    { pose proof (storage_cases ty Ht) as C. cbn [In] in *.
      repeat destruct C as [C|C]; try contradiction; try (by auto 6);
        rewrite <- C in Hst; exfalso; by apply Hst. }
    destruct H; [by apply GetValue_narrow | by apply GetValue_wide].
  - pose proof (GetValue_sized ty d pre post Ht Hd (or_introl Hst)) as H.
    unfold encode. rewrite Hst in *. cbn -[zlen tbytes len_field GetValue denotes] in *.
    by rewrite app_nil_r in H.
  - pose proof (GetValue_sized ty d pre post Ht Hd (or_intror Hst)) as H.
    unfold encode. rewrite Hst in *. exact H.
  - unfold encode. destruct (container_type_facts ty Ht) as (-> & _).
    by apply (GetValue_container ty count body).
Qed.
