(* ===== verification/BinnStore.v ===== *)
(** Storing a Binn value: integer compression keeps the value, the buffer
    grows as asked, and [AddValue] appends exactly the encoding of the value it
    was given, or leaves the item as it was. *)
From S2P Require Import Prelude CMem BinnFormat BinnItem BinnRead BinnCodec.

(** * Integers *)

(** The number that the little-endian bytes [d] are, as a value of type [ty]. *)
Definition int_value (ty : Z) (d : bytes) : Z :=
  let v := le_val d in
  if ty =? BINN_INT8 then s8 v
  else if ty =? BINN_INT16 then s16 v
  else if ty =? BINN_INT32 then s32 v
  else if ty =? BINN_INT64 then s64 v
  else v.

(** The numbers a type can hold. *)
Definition fits (ty z : Z) : Prop :=
  let bits := 8 * width (storage_of ty) in
  if int_type ty =? BINN_SIGNED_INT then - 2 ^ (bits - 1) <= z < 2 ^ (bits - 1)
  else 0 <= z < 2 ^ bits.

Definition int_types : list Z :=
  [BINN_INT8; BINN_INT16; BINN_INT32; BINN_INT64; BINN_UINT8; BINN_UINT16; BINN_UINT32;
   BINN_UINT64].

Lemma int_family ty : type_family ty = BINN_FAMILY_INT -> In ty int_types.
Proof.
  unfold type_family. intros H.
  destruct (isin ty [BINN_LIST; BINN_MAP; BINN_OBJECT]); [discriminate H|].
  destruct (isin ty [BINN_INT8; BINN_INT16; BINN_INT32; BINN_INT64;
                     BINN_UINT8; BINN_UINT16; BINN_UINT32; BINN_UINT64]) eqn:E.
  - apply existsb_exists in E as (x & Hx & ->%Z.eqb_eq). done.
  - repeat match type of H with context [if ?b then _ else _] => destruct b; try discriminate H end.
Qed.

(** Case analysis on an integer type. *)
Ltac int_cases H :=
  unfold int_types in H; cbn [In] in H; repeat destruct H as [<-|H]; try contradiction.

Lemma take_le_bytes k n v : (k <= n)%nat -> take k (le_bytes n v) = le_bytes k v.
Proof.
  revert n v. induction k as [|k IH]; intros [|n] v Hk; simpl; try done; [lia|].
  by rewrite IH by lia.
Qed.

Lemma le_val_take k (d : bytes) :
  all_bytes d -> (k <= length d)%nat -> le_val (take k d) = le_val d mod 256 ^ Z.of_nat k.
Proof.
  intros Hd Hk. rewrite <- (le_bytes_val d) at 1 by done. rewrite take_le_bytes by done.
  apply le_val_bytes.
Qed.

(** The type [compress_int] picks for a non-negative and for a negative number. *)
Definition squeeze (z : Z) : Z :=
  if 0 <=? z then
    if z <=? 255 then BINN_UINT8
    else if z <=? 65535 then BINN_UINT16
    else if z <=? 4294967295 then BINN_UINT32 else 0
  else if -128 <=? z then BINN_INT8
  else if -32768 <=? z then BINN_INT16
  else if -2147483648 <=? z then BINN_INT32 else 0.

Lemma rd_le_front (d rest : bytes) n : n = zlen d -> rd_le (d ++ rest) 0 n = Some (le_val d).
Proof.
  intros ->. unfold rd_le. pose proof (slice_mid [] d rest) as H. cbn [app] in H.
  change (zlen []) with 0 in H. by rewrite H.
Qed.

Lemma le_val_bound (d : bytes) n : all_bytes d -> zlen d = n -> 0 <= le_val d < 256 ^ n.
Proof. intros Hd <-. by apply le_val_range. Qed.

(** Evaluate the storage class of every type constant. *)
Ltac storage_eval :=
  repeat match goal with
  | |- context [storage_of ?c] =>
      is_const c; let v := eval vm_compute in (storage_of c) in change (storage_of c) with v
  | H : context [storage_of ?c] |- _ =>
      is_const c; let v := eval vm_compute in (storage_of c) in change (storage_of c) with v in H
  end.

Lemma squeeze_cases z : squeeze z = 0 \/ In (squeeze z) int_types.
Proof. unfold squeeze. zifs; cbn [In int_types]; auto 12. Qed.

Lemma write_storage_int t : In t int_types -> binn_get_write_storage t = storage_of t.
Proof. intros H. int_cases H; reflexivity. Qed.

(** The tail of [compress_int], with the chosen type [t]. *)
Lemma squeeze_tail z st ty :
  (if negb (squeeze z =? 0) && negb (squeeze z =? ty)
   then Some (binn_get_write_storage (squeeze z), squeeze z) else Some (st, ty)) =
  Some (if negb (squeeze z =? 0) && negb (squeeze z =? ty)
        then (storage_of (squeeze z), squeeze z) else (st, ty)).
Proof.
  destruct (squeeze_cases z) as [->|H]; [done|]. rewrite write_storage_int by done.
  by destruct (_ && _).
Qed.

Lemma squeeze_pos z :
  0 <= z ->
  squeeze z = (if z <=? 255 then BINN_UINT8
               else if z <=? 65535 then BINN_UINT16
               else if z <=? 4294967295 then BINN_UINT32 else 0).
Proof. intros. unfold squeeze. by replace (0 <=? z) with true by lia. Qed.

Lemma compress_int_eq ty (d rest : bytes) :
  In ty int_types -> all_bytes d -> zlen d = width (storage_of ty) ->
  compress_int (storage_of ty) ty (d ++ rest) =
  Some (if storage_of ty =? BINN_STORAGE_BYTE then (BINN_STORAGE_BYTE, ty)
        else let t := squeeze (int_value ty d) in
             if negb (t =? 0) && negb (t =? ty) then (storage_of t, t) else (storage_of ty, ty)).
Proof.
  intros Ht Hd Hw. int_cases Ht; storage_eval; cbn in Hw; pose proof (le_val_bound d _ Hd Hw) as Hb;
    change (256 ^ 2) with 65536 in Hb;
    change (256 ^ 4) with 4294967296 in Hb; change (256 ^ 8) with 18446744073709551616 in Hb;
    unfold compress_int; try reflexivity;
    cbn -[rd_le squeeze binn_get_write_storage le_val]; rewrite rd_le_front by done;
    cbn [mbind option_bind]; unfold int_value; cbn -[s16 s32 s64 le_val squeeze];
    rewrite <- squeeze_tail; try reflexivity; rewrite squeeze_pos by lia; reflexivity.
Qed.

(** The number read back from the low bits of [z] at type [t]. *)
Definition wrap (t z : Z) : Z :=
  let m := 256 ^ width (storage_of t) in
  if int_type t =? BINN_SIGNED_INT then (z + m / 2) mod m - m / 2 else z mod m.

Ltac pow_eval :=
  repeat match goal with
  | |- context [?b ^ ?e] =>
      let v := eval vm_compute in (b ^ e) in change (b ^ e) with v
  end.

(** Halves of the constants [pow_eval] leaves. *)
Ltac half_eval :=
  repeat match goal with
  | |- context [Z.pos ?m / 2] =>
      let v := eval vm_compute in (Z.pos m / 2) in change (Z.pos m / 2) with v
  end.

Lemma wrap_fits t z : In t int_types -> fits t (wrap t z).
Proof.
  intros H. unfold fits, wrap. int_cases H; storage_eval; cbn -[Z.pow Z.div]; pow_eval;
    half_eval; lia.
Qed.

Lemma fits_wrap t z : In t int_types -> fits t z -> wrap t z = z.
Proof.
  intros H. unfold fits, wrap. int_cases H; storage_eval; cbn -[Z.pow Z.div]; pow_eval;
    half_eval; lia.
Qed.

Lemma width_nonneg t : In t int_types -> 0 <= width (storage_of t).
Proof. intros H. int_cases H; vm_compute; discriminate. Qed.

Lemma wrap_shift t z : exists k, wrap t z = z + k * 256 ^ width (storage_of t).
Proof.
  unfold wrap. set (m := 256 ^ _). destruct (decide (m = 0)) as [E|Hm].
  - exists 0. destruct (_ =? _); rewrite E, ?Z.div_0_r, Z.mod_0_r; lia.
  - destruct (_ =? _).
    + exists (- ((z + m / 2) / m)). rewrite Z.mod_eq by done. lia.
    + exists (- (z / m)). rewrite Z.mod_eq by done. lia.
Qed.

Lemma wrap_add t z k : wrap t (z + k * 256 ^ width (storage_of t)) = wrap t z.
Proof.
  unfold wrap. set (m := 256 ^ _). destruct (_ =? _).
  - replace (z + k * m + m / 2) with (z + m / 2 + k * m) by lia. by rewrite Z_mod_plus_full.
  - by rewrite Z_mod_plus_full.
Qed.

Lemma wrap_wrap t t' z :
  In t int_types -> width (storage_of t) <= width (storage_of t') ->
  wrap t (wrap t' z) = wrap t z.
Proof.
  intros H%width_nonneg Hw. destruct (wrap_shift t' z) as [k ->].
  replace (256 ^ width (storage_of t'))
    with (256 ^ (width (storage_of t') - width (storage_of t)) * 256 ^ width (storage_of t))
    by (rewrite <- Z.pow_add_r by lia; f_equal; lia).
  rewrite Z.mul_assoc. apply wrap_add.
Qed.

Lemma int_value_wrap t (d : bytes) :
  In t int_types -> all_bytes d -> zlen d = width (storage_of t) ->
  int_value t d = wrap t (le_val d).
Proof.
  intros H Hd Hw. pose proof (le_val_bound d _ Hd Hw) as Hb.
  unfold int_value, wrap. revert Hb. clear Hw.
  int_cases H; storage_eval; cbn -[Z.pow Z.div le_val s8 s16 s32 s64];
    pow_eval; half_eval; intros Hb; first [reflexivity | by rewrite Z.mod_small by lia].
Qed.

Lemma int_value_take t (d : bytes) :
  In t int_types -> all_bytes d -> width (storage_of t) <= zlen d ->
  int_value t (take (Z.to_nat (width (storage_of t))) d) = wrap t (le_val d).
Proof.
  intros H Hd Hw.
  pose proof (width_nonneg t H) as Hn.
  unfold zlen in Hw.
  rewrite int_value_wrap; [|done|by apply Forall_take|unfold zlen; rewrite length_take; lia].
  rewrite le_val_take by (done || lia). rewrite Z2Nat.id by done.
  destruct (Z.eq_dec (256 ^ width (storage_of t)) 0) as [E|E].
  { exfalso. pose proof (Z.pow_pos_nonneg 256 (width (storage_of t))). lia. }
  rewrite Z.mod_eq by done.
  replace (le_val d - 256 ^ width (storage_of t) * (le_val d / 256 ^ width (storage_of t)))
    with (le_val d + (- (le_val d / 256 ^ width (storage_of t))) * 256 ^ width (storage_of t))
    by lia.
  apply wrap_add.
Qed.

(** The seven ways the choice can go. *)
Lemma squeeze_spec z :
  (0 <= z <= 255 /\ squeeze z = BINN_UINT8) \/ (256 <= z <= 65535 /\ squeeze z = BINN_UINT16) \/
  (65536 <= z <= 4294967295 /\ squeeze z = BINN_UINT32) \/ (4294967296 <= z /\ squeeze z = 0) \/
  (-128 <= z < 0 /\ squeeze z = BINN_INT8) \/ (-32768 <= z < -128 /\ squeeze z = BINN_INT16) \/
  (-2147483648 <= z < -32768 /\ squeeze z = BINN_INT32) \/
  (z < -2147483648 /\ squeeze z = 0).
Proof. unfold squeeze. zifs; tauto. Qed.

Ltac squeeze_cases_of z :=
  let R := fresh "Hr" in let E := fresh "Eq" in
  destruct (squeeze_spec z) as [[R E]|[[R E]|[[R E]|[[R E]|[[R E]|[[R E]|[[R E]|[R E]]]]]]]];
  rewrite E.

Lemma squeeze_fits z : squeeze z <> 0 -> fits (squeeze z) z.
Proof.
  squeeze_cases_of z; intros H; try done; unfold fits; storage_eval; cbn -[Z.pow]; pow_eval; lia.
Qed.

Lemma squeeze_min t z :
  In t int_types -> fits t z ->
  (squeeze z = 0 -> width (storage_of t) = 8) /\
  (squeeze z <> 0 -> width (storage_of (squeeze z)) <= width (storage_of t)).
Proof.
  unfold fits. intros H. int_cases H; storage_eval; cbn -[Z.pow squeeze]; pow_eval;
    intros Hf; (split; squeeze_cases_of z; intros Hs; try discriminate Hs; try done;
                storage_eval; cbn; lia).
Qed.

(** [compress_int] keeps the number: the bytes left are those of the same
    number at a type that holds it, and no narrower type does. *)
Lemma compress_int_sound ty (d rest : bytes) :
  In ty int_types -> all_bytes d -> zlen d = width (storage_of ty) ->
  exists ty', compress_int (storage_of ty) ty (d ++ rest) = Some (storage_of ty', ty') /\
    In ty' int_types /\ width (storage_of ty') <= width (storage_of ty) /\
    int_value ty' (take (Z.to_nat (width (storage_of ty'))) d) = int_value ty d /\
    (forall t, In t int_types -> width (storage_of t) < width (storage_of ty') ->
      ~ fits t (int_value ty d)).
Proof.
  intros Ht Hd Hw. rewrite compress_int_eq by done.
  rewrite (int_value_wrap ty d) by done. set (z := wrap ty (le_val d)).
  assert (Hz : fits ty z) by by apply wrap_fits.
  assert (Hself : int_value ty (take (Z.to_nat (width (storage_of ty))) d) = z)
    by (apply int_value_take; [done..|lia]).
  destruct (squeeze_min ty z Ht Hz) as [M0 M1].
  destruct (storage_of ty =? BINN_STORAGE_BYTE) eqn:E1; zbool.
  - exists ty. rewrite <- E1. repeat split; try done.
    intros t It Hl. exfalso. revert Hl. rewrite E1. clear - It.
    int_cases It; storage_eval; cbn; lia.
  - cbn zeta. destruct (negb (squeeze z =? 0) && negb (squeeze z =? ty)) eqn:E2; zbool.
    + destruct (squeeze_cases z) as [|Hq]; [done|]. exists (squeeze z).
      repeat split; [done|by apply M1| |].
      * rewrite int_value_take by (done || (rewrite Hw; by apply M1)).
        rewrite <- (wrap_wrap _ ty) by (done || by apply M1). apply fits_wrap; [done|].
        by apply squeeze_fits.
      * intros t It Hl Hf. destruct (squeeze_min t z It Hf) as [_ M]. specialize (M ltac:(done)). lia.
    + exists ty. repeat split; try done.
      intros t It Hl Hf. destruct (squeeze_min t z It Hf) as [N0 N1].
      destruct (decide (squeeze z = 0)) as [Eq|Eq].
      * specialize (N0 Eq). specialize (M0 Eq). lia.
      * specialize (N1 Eq). destruct E2 as [E2|E2]; zbool; [done|]. rewrite E2 in N1. lia.
Qed.

(** * The item's buffer *)

(** [base] with the buffer [b], of which [u] bytes are used. *)
Definition grown (b : bytes) (u : Z) (base : binn) : binn :=
  with_used_size u (with_alloc_size (zlen b) (with_pbuf (Some b) base)).

Lemma put_mid (pre old bs rest : bytes) u base :
  zlen old = zlen bs ->
  poke (zlen pre) bs (grown (pre ++ old ++ rest) u base) = Some (grown (pre ++ bs ++ rest) u base).
Proof.
  intros H. unfold poke. cbn [pbuf grown with_used_size with_alloc_size with_pbuf mbind option_bind].
  rewrite splice_mid by done. cbn [mbind option_bind]. unfold grown. rewrite !zlen_app, H. done.
Qed.

Lemma add_used_grown b u n base :
  int_ok (u + n) = true -> add_used n (grown b u base) = Some (grown b (u + n) base).
Proof. intros H. unfold add_used, add32. cbn. by rewrite H. Qed.

Lemma int_ok_true z : -2147483648 <= z < 2147483648 -> int_ok z = true.
Proof. intros. unfold int_ok. lia. Qed.

Lemma add32_ok a b : -2147483648 <= a + b < 2147483648 -> add32 a b = Some (a + b).
Proof. intros. unfold add32. by rewrite int_ok_true. Qed.

(** Appending [bs] at the end of the used part, where there is room. *)
Lemma append_grown {B} (pre rest bs : bytes) base (K : binn -> option B) :
  zlen bs <= zlen rest -> zlen pre + zlen bs < 2147483648 ->
  exists rest', zlen rest' = zlen rest - zlen bs /\
    (item ← poke (zlen pre) bs (grown (pre ++ rest) (zlen pre) base);
     item ← add_used (zlen bs) item; K item) =
    K (grown ((pre ++ bs) ++ rest') (zlen (pre ++ bs)) base).
Proof.
  intros Hr Hz. pose proof (zlen_nonneg bs). pose proof (zlen_nonneg pre).
  destruct (split_at rest 0 (zlen bs)) as (p0 & old & rest' & -> & Hp & Ho); [lia..|].
  apply (zlen_length p0 0) in Hp. destruct p0; [|discriminate Hp]. cbn [app].
  exists rest'. split; [cbn [app]; rewrite zlen_app; lia|].
  rewrite put_mid by done. cbn [mbind option_bind].
  rewrite add_used_grown by (apply int_ok_true; lia). cbn [mbind option_bind].
  by rewrite <- app_assoc, zlen_app.
Qed.

Lemma append_used (pre rest bs : bytes) base :
  zlen bs <= zlen rest -> zlen pre + zlen bs < 2147483648 ->
  exists rest', zlen rest' = zlen rest - zlen bs /\
    (item ← poke (zlen pre) bs (grown (pre ++ rest) (zlen pre) base); add_used (zlen bs) item) =
    Some (grown ((pre ++ bs) ++ rest') (zlen (pre ++ bs)) base).
Proof.
  intros Hr Hz. destruct (append_grown pre rest bs base Some Hr Hz) as (rest' & Hl & E).
  exists rest'. split; [done|]. rewrite <- E. destruct (poke _ _ _); [|done]. cbn [mbind option_bind].
  by destruct (add_used _ _).
Qed.

(** Doubling stops within its fuel, at a size that is enough and an [int]. *)
Lemma CalcAllocation_loop_ok fuel needed c :
  1 <= c -> needed <= 1073741824 -> c < 2147483648 -> needed <= c * 2 ^ Z.of_nat fuel ->
  exists r, CalcAllocation_loop fuel needed c = Some r /\ needed <= r < 2147483648 /\ c <= r /\
    (r = c \/ r < 2 * needed).
Proof.
  revert c. induction fuel as [|fuel IH]; intros c Hc Hn Hi Hp; simpl.
  - change (2 ^ Z.of_nat 0) with 1 in Hp. zif. exists c. split; [done|lia].
  - rewrite Nat2Z.inj_succ, Z.pow_succ_r in Hp by lia. zif.
    + rewrite add32_ok by lia. cbn [mbind option_bind].
      destruct (IH (c + c)) as (r & -> & ? & ? & ?); [lia..|]. exists r. split; [done|lia].
    + exists c. split; [done|lia].
Qed.

Lemma CalcAllocation_ok needed c :
  1 <= c < 2147483648 -> needed <= 1073741824 ->
  exists r, CalcAllocation needed c = Some r /\ needed <= r < 2147483648 /\ c <= r /\
    (r = c \/ r < 2 * needed).
Proof.
  intros. apply CalcAllocation_loop_ok; [lia..|].
  change (2 ^ Z.of_nat 32) with 4294967296. lia.
Qed.

Section alloc.
Context `{L : BinnLib, Lok : !BinnLibOk L}.

(** The bytes of an item that are in use. *)
Definition used_part (b : binn) : bytes :=
  match pbuf b with Some buf => take (Z.to_nat (used_size b)) buf | None => [] end.
Lemma used_part_grown pre rest base : used_part (grown (pre ++ rest) (zlen pre) base) = pre.
Proof.
  unfold used_part, grown, zlen. cbn [pbuf used_size with_used_size with_alloc_size with_pbuf].
  by rewrite Nat2Z.id, take_app_length.
Qed.

(** There is no room for [n] more bytes: they do not fit what is allocated, and it is
    the caller's, or the allocator gives no block for them, of less than twice the
    size needed. *)
Definition lacks_room (b : binn) (n : Z) : Prop :=
  alloc_size b < used_size b + n /\
  (pre_allocated b = true \/
   exists rest s, used_size b + n <= s < 2 * (used_size b + n) /\
     realloc_fn (used_part b ++ rest) s = None).
(** A buffer of the caller has room for [n] more bytes. *)
Definition fits_fixed (b : binn) (n : Z) : Prop :=
  pre_allocated b = true -> used_size b + n <= alloc_size b.

Lemma CheckAllocation_ok (pre rest : bytes) base n :
  1 <= zlen (pre ++ rest) < 2147483648 -> 0 <= n -> zlen pre + n <= 1073741824 ->
  let item := grown (pre ++ rest) (zlen pre) base in
  (CheckAllocation item n = Some (false, item) /\ lacks_room item n) \/
  (exists rest', CheckAllocation item n = Some (true, grown (pre ++ rest') (zlen pre) base) /\
     n <= zlen rest' /\ zlen (pre ++ rest') < 2147483648 /\ zlen rest <= zlen rest' /\
     (pre_allocated base = true -> rest' = rest) /\ fits_fixed item n).
Proof.
  intros Hl Hn Hs item. pose proof (zlen_nonneg pre). unfold item, lacks_room, fits_fixed. rewrite used_part_grown. unfold CheckAllocation, grown.
  cbn -[zlen CalcAllocation]. rewrite add32_ok by lia. cbn -[zlen CalcAllocation]. rewrite zlen_app in *.
  destruct (zlen pre + zlen rest <? zlen pre + n) eqn:E; zbool.
  2: { right. exists rest. rewrite zlen_app. split; [done|]. split_and!; try done; lia. }
  destruct (pre_allocated base); [left; split; [done|]; split; [done|by left]|].
  destruct (CalcAllocation_ok (zlen pre + n) (zlen pre + zlen rest)) as (r & -> & Hr & Hc & Htw); [lia..|].
  cbn -[zlen]. destruct (realloc_fn (pre ++ rest) r) as [b|] eqn:Er.
  - right. pose proof (realloc_len (pre ++ rest) r b ltac:(lia) Er) as Hlen.
    pose proof (realloc_keeps (pre ++ rest) r b ltac:(rewrite zlen_app; lia) Er) as Hk.
    rewrite <- (take_drop (length (pre ++ rest)) b), Hk, <- app_assoc in Hlen |- *.
    rewrite !zlen_app in Hlen. set (more := drop _ b) in *.
    exists (rest ++ more). rewrite !zlen_app. pose proof (zlen_nonneg more). split; [|split_and!; lia || done].
    do 2 f_equal. unfold with_alloc_size, with_pbuf, with_used_size. cbn. f_equal. lia.
  - left. split; [done|]. split; [done|]. right. exists rest, r. split; [lia|done].
Qed.

(** * What a caller passes in *)

(** The memory at [pvalue] is the value [d] of type [ty] and size [size]. *)
Inductive input (ty : Z) (pvalue : option bytes) (size : Z) (d : bytes) : Prop :=
  | in_nobytes : storage_of ty = BINN_STORAGE_NOBYTES -> d = [] -> input ty pvalue size d
  | in_fixed rest :
      storage_of ty <> BINN_STORAGE_NOBYTES -> storage_of ty <= BINN_STORAGE_QWORD ->
      pvalue = Some (d ++ rest) -> input ty pvalue size d
  | in_blob :
      storage_of ty = BINN_STORAGE_BLOB -> size = zlen d ->
      (pvalue = None /\ d = []) \/ (exists rest, pvalue = Some (d ++ rest)) ->
      input ty pvalue size d
  | in_string rest :
      storage_of ty = BINN_STORAGE_STRING -> pvalue = Some (d ++ 0 :: rest) ->
      Forall (fun c => c <> 0) d -> size = 0 \/ size = zlen d -> input ty pvalue size d
  | in_container rest :
      storage_of ty = BINN_STORAGE_CONTAINER -> pvalue = Some (d ++ rest) -> size = zlen d ->
      input ty pvalue size d.

(** The type and the data the value is stored as. *)
Definition stored (item : binn) (ty : Z) (d : bytes) : Z * bytes :=
  if (type_family ty =? BINN_FAMILY_INT) && negb (disable_int_compression item) then
    match compress_int (storage_of ty) ty d with
    | Some (st, ty') => (ty', take (Z.to_nat (width st)) d)
    | None => (ty, d)
    end
  else (ty, d).

(** * One value *)

(** What follows the type bytes. *)
Definition body (ty : Z) (d : bytes) : bytes :=
  let st := storage_of ty in
  if st =? BINN_STORAGE_CONTAINER then d
  else if st =? BINN_STORAGE_BLOB then len_field (zlen d) ++ d
  else if st =? BINN_STORAGE_STRING then len_field (zlen d) ++ d ++ [0]
  else rev d.

Lemma encode_body ty d :
  encode ty d = (if storage_of ty =? BINN_STORAGE_CONTAINER then [] else tbytes ty) ++ body ty d.
Proof. unfold encode, body. by destruct (storage_of ty =? BINN_STORAGE_CONTAINER). Qed.

Lemma slice_front (d rest : bytes) n : n = zlen d -> slice (d ++ rest) 0 n = Some d.
Proof. intros ->. apply (slice_mid [] d rest). Qed.

Lemma value_type_ok ty d : value_ok ty d -> type_ok ty \/ storage_of ty = BINN_STORAGE_CONTAINER.
Proof.
  destruct 1 as [| | |ty count body0 d Ht]; auto.
  right. by destruct (container_type_facts ty Ht).
Qed.

Lemma payload_fixed ty d (rest : bytes) :
  type_ok ty -> storage_of ty <> BINN_STORAGE_NOBYTES -> storage_of ty <= BINN_STORAGE_QWORD ->
  zlen d = width (storage_of ty) -> all_bytes d ->
  payload (storage_of ty) (Some (d ++ rest)) (zlen d) = Some (rev d).
Proof.
  intros Ht Hn Hst Hd _. unfold payload.
  storage_split Ht; rewrite Est in *; try done; try (exfalso; apply Hst; reflexivity); cbn in Hd;
    cbn -[slice copy_be16 copy_be32 copy_be64].
  - rewrite slice_front by congruence. apply (zlen_length d 1) in Hd.
    by destruct d as [|b [|]].
  - by apply copy_be16_rev.
  - by apply copy_be32_rev.
  - by apply copy_be64_rev.
Qed.

(** What a fixed-width storage class says about a well-formed value. *)
Lemma value_ok_fixed ty d :
  value_ok ty d -> storage_of ty <= BINN_STORAGE_QWORD ->
  type_ok ty /\ zlen d = width (storage_of ty) /\ all_bytes d.
Proof.
  intros Hv Hst. destruct Hv as [| ? ? ? E|? ? ? E|? ? ? ? Ht]; [done|..].
  1,2: rewrite E in Hst; exfalso; by apply Hst.
  destruct (container_type_facts _ Ht) as (E & _). rewrite E in Hst. exfalso; by apply Hst.
Qed.

Lemma value_size_fixed ty pvalue size :
  type_ok ty -> storage_of ty <= BINN_STORAGE_QWORD ->
  value_size (storage_of ty) pvalue size =
  Some (Some (width (storage_of ty), width (storage_of ty))).
Proof.
  intros Ht Hst. storage_split Ht; rewrite Est in *; try reflexivity; exfalso; by apply Hst.
Qed.

(** The bytes [AddValue] asks room for when it stores a value. *)
Definition value_room (v : Z * bytes) : Z :=
  zlen v.2 + 2 +
  (if storage_of v.1 =? BINN_STORAGE_BLOB then 4
   else if storage_of v.1 =? BINN_STORAGE_STRING then 5 else 0).

(** The value's size, the room asked for, and the bytes written. *)
Lemma value_parts ty pvalue size d :
  value_ok ty d -> input ty pvalue size d -> zlen d < 1073741824 ->
  exists arg, value_size (storage_of ty) pvalue size = Some (Some (zlen d, arg)) /\
    zlen (encode ty d) <= arg + 2 /\ (0 <= arg <= zlen d + 5 /\ arg + 2 = value_room (ty, d)) /\
    payload (storage_of ty) pvalue (zlen d) = Some (body ty d).
Proof.
  intros Hv Hi Hl. pose proof (zlen_nonneg d).
  assert (Htb : zlen (tbytes ty) <= 2) by (unfold tbytes; zif; vm_compute; discriminate).
  assert (Hlf : zlen (len_field (zlen d)) <= 4) by (rewrite len_field_zlen; zifs).
  destruct Hi as [Hst ->|rest Hn Hst ->|Hst -> Hp|rest Hst -> Hnz Hs|rest Hst -> ->].
  - rewrite encode_fixed by (rewrite Hst; done). unfold body. rewrite Hst. exists 0.
    rewrite zlen_app. change (zlen (rev (@nil Z))) with 0. unfold value_room. cbn [fst snd]. rewrite Hst.
    repeat split; try done; lia.
  - destruct (value_ok_fixed ty d Hv Hst) as (Ht & Hd & Hb).
    rewrite value_size_fixed, payload_fixed, encode_fixed by done.
    exists (zlen d). rewrite zlen_app, zlen_rev, Hd. split; [done|]. split; [lia|]. split.
    { split; [lia|]. unfold value_room. cbn [fst snd]. rewrite Hd.
      storage_split Ht; rewrite Est in *; try done; exfalso; by apply Hst. }
    unfold body. storage_split Ht; rewrite Est in *; try done; exfalso; by apply Hst.
  - exists (zlen d + 4). rewrite encode_body. unfold body. rewrite Hst. cbn -[zlen len_field tbytes].
    replace (zlen d <? 0) with false by lia. rewrite add32_ok by lia.
    split; [done|]. split; [rewrite !zlen_app; lia|].
    split; [split; [lia|unfold value_room; cbn [fst snd]; rewrite Hst; cbn -[zlen]; lia]|].
    unfold payload. cbn -[zlen len_field length_field slice].
    rewrite length_field_spec by lia. cbn -[zlen len_field slice].
    destruct Hp as [[-> ->]|[rest ->]]; [done|].
    destruct (zlen d =? 0) eqn:E; zbool.
    + apply (zlen_length d 0) in E. destruct d; [|discriminate E]. by rewrite !app_nil_r.
    + cbn -[slice len_field zlen]. rewrite slice_front by done. cbn -[len_field zlen].
      by rewrite app_nil_r.
  - exists (zlen d + 5). rewrite encode_body. unfold body. rewrite Hst.
    cbn -[zlen len_field tbytes strlen].
    assert (Hsz : (if size =? 0 then strlen (d ++ 0 :: rest) else Some size) = Some (zlen d)).
    { rewrite strlen_app by done. destruct Hs as [->| ->]; [done|]. by destruct (zlen d =? 0). }
    rewrite Hsz. replace (size <? 0) with false by lia. cbn -[zlen len_field tbytes].
    rewrite add32_ok by lia.
    split; [done|]. split; [rewrite !zlen_app; change (zlen [0]) with 1; lia|].
    split; [split; [lia|unfold value_room; cbn [fst snd]; rewrite Hst; cbn -[zlen]; lia]|].
    unfold payload. cbn -[zlen len_field length_field slice].
    rewrite length_field_spec by lia. cbn -[zlen len_field slice].
    destruct (zlen d =? 0) eqn:E; zbool.
    + apply (zlen_length d 0) in E. by destruct d; [|discriminate E].
    + cbn -[slice len_field zlen]. by rewrite slice_front by done.
  - exists (zlen d). rewrite encode_body. unfold body. rewrite Hst. cbn -[zlen slice].
    assert (1 <= zlen d).
    { destruct Hv as [? ? ? E|? ? ? E|? ? ? E|ty count c d ? Ed].
      1-3: rewrite Hst in E; first [discriminate E | exfalso; by apply E].
      rewrite Ed, zlen_cons. pose proof (zlen_nonneg (len_field (zlen d) ++ len_field count ++ c)).
      lia. }
    replace (zlen d <=? 0) with false by lia. split; [done|]. split; [lia|].
    split; [split; [lia|unfold value_room; cbn [fst snd]; rewrite Hst; cbn -[zlen]; lia]|].
    unfold payload. cbn -[zlen slice]. by apply slice_front.
Qed.

Lemma int_type_facts t :
  In t int_types ->
  type_ok t /\ storage_of t <= BINN_STORAGE_QWORD /\ storage_of t <> BINN_STORAGE_NOBYTES /\
  (type_family t =? BINN_FAMILY_INT) = true.
Proof.
  intros H. unfold type_ok. int_cases H; vm_compute; repeat split; try discriminate; done.
Qed.

(** The compression step of [AddValue] replaces the value by the stored one. *)
Lemma compress_step base ty pvalue size d :
  value_ok ty d -> input ty pvalue size d ->
  exists ty' d', stored base ty d = (ty', d') /\
    (if (type_family ty =? BINN_FAMILY_INT) && negb (disable_int_compression base)
     then v ← pvalue; compress_int (storage_of ty) ty v
     else Some (storage_of ty, ty)) = Some (storage_of ty', ty') /\
    value_ok ty' d' /\ input ty' pvalue size d' /\ zlen d' <= zlen d.
Proof.
  intros Hv Hi. unfold stored.
  destruct (type_family ty =? BINN_FAMILY_INT) eqn:Ef; cbn [andb];
    [|exists ty, d; repeat split; done].
  destruct (negb (disable_int_compression base)); [|exists ty, d; repeat split; done].
  zbool. apply int_family in Ef as It.
  destruct (int_type_facts ty It) as (Ht & Hq & Hnb & _).
  destruct (value_ok_fixed ty d Hv Hq) as (_ & Hd & Hb).
  assert (Hp : exists rest, pvalue = Some (d ++ rest)).
  { destruct Hi as [E _|rest _ _ ->|E _ _|rest E _ _ _|rest E _ _]; try contradiction; eauto.
    all: rewrite E in Hq; exfalso; by apply Hq. }
  destruct Hp as [rest ->]. cbn [mbind option_bind].
  destruct (compress_int_sound ty d rest It Hb Hd) as (t & Ec & It' & Hw & _ & _).
  pose proof (compress_int_eq ty d [] It Hb Hd) as E0. rewrite app_nil_r in E0.
  rewrite <- (compress_int_eq ty d rest It Hb Hd), Ec in E0. rewrite E0, Ec.
  set (w := Z.to_nat (width (storage_of t))).
  destruct (int_type_facts t It') as (Ht' & Hq' & Hnb' & _).
  pose proof (width_nonneg t It').
  assert (Hl : zlen (take w d) = width (storage_of t))
    by (unfold zlen, w in *; rewrite length_take; lia).
  exists t, (take w d). split; [done|]. split; [done|]. split; [|split].
  - apply ok_fixed; try done. by apply Forall_take.
  - apply (in_fixed _ _ _ _ (drop w d ++ rest)); try done.
    by rewrite app_assoc, take_drop.
  - lia.
Qed.

Lemma null_ok_true ty pvalue size d :
  value_ok ty d -> input ty pvalue size d ->
  match pvalue with
  | Some _ => true
  | None =>
      if storage_of ty =? BINN_STORAGE_NOBYTES then true
      else if (storage_of ty =? BINN_STORAGE_BLOB) || (storage_of ty =? BINN_STORAGE_STRING)
      then size =? 0
      else false
  end = true.
Proof.
  intros Hv Hi. destruct Hi as [E|rest _ _ ->|E -> Hp|rest _ -> _ _|rest _ -> _]; try done.
  - rewrite E. by destruct pvalue.
  - rewrite E. by destruct Hp as [[-> ->]|[rest ->]].
Qed.

Lemma type_bytes_written ty :
  type_ok ty ->
  (if 255 <? ty then copy_be16 (le_bytes 2 (u16 ty)) else Some [u8 ty]) = Some (tbytes ty).
Proof.
  intros [Hr _]. unfold tbytes. destruct (255 <? ty) eqn:E; zbool.
  - rewrite <- (app_nil_r (le_bytes 2 _)), copy_be16_rev by done. unfold u16.
    cbn [le_bytes rev app]. feq.
  - by rewrite u8_id by lia.
Qed.

(** [AddValue] appends the stored value's encoding, or refuses for want of
    room and changes nothing. *)
Lemma AddValue_sound ty pvalue size d (pre rest : bytes) base :
  value_ok ty d -> input ty pvalue size d ->
  1 <= zlen (pre ++ rest) < 2147483648 -> zlen pre + zlen d + 7 <= 1073741824 ->
  let item := grown (pre ++ rest) (zlen pre) base in
  let e := encode (fst (stored base ty d)) (snd (stored base ty d)) in
  let room := value_room (stored base ty d) in
  (AddValue item ty pvalue size = Some (false, item) /\ lacks_room item room) \/
  (exists rest', AddValue item ty pvalue size =
     Some (true, with_dirty true (grown ((pre ++ e) ++ rest') (zlen (pre ++ e)) base)) /\
     zlen ((pre ++ e) ++ rest') < 2147483648 /\ fits_fixed item room).
Proof.
  intros Hv Hi Hl Hs item e room. pose proof (zlen_nonneg pre). unfold AddValue.
  rewrite (null_ok_true ty pvalue size d) by done. cbn [negb].
  change (disable_int_compression item) with (disable_int_compression base). subst item.
  destruct (compress_step base ty pvalue size d Hv Hi) as (ty' & d' & Es & Ec & Hv' & Hi' & Hd').
  unfold e, room. rewrite Es, Ec. cbn [mbind option_bind fst snd]. clear e room Es Ec.
  destruct (value_parts ty' pvalue size d' Hv' Hi') as (arg & -> & He & [Ha <-] & Hpl); [lia|].
  cbn [mbind option_bind]. rewrite add32_ok by lia. cbn [mbind option_bind].
  destruct (CheckAllocation_ok pre rest base (arg + 2)) as [[-> Hno]|(rest1 & Hca & Hr1 & Hz1 & _ & _ & Hfx)];
    [lia..|left; by split|]. right. rewrite Hca.
  cbn [mbind option_bind negb]. change (used_size (grown ?b ?u ?c)) with u.
  rewrite encode_body in He |- *.
  destruct (decide (storage_of ty' = BINN_STORAGE_CONTAINER)) as [Est|Est].
  - rewrite Est in *. cbn -[zlen payload body poke add_used with_dirty] in He |- *.
    rewrite Hpl. cbn [mbind option_bind].
    destruct (append_grown (B := bool * binn) pre rest1 (body ty' d') base
                (fun item => Some (true, with_dirty true item))) as (rest2 & Hr2 & ->); [lia..|].
    exists rest2. split; [done|]. split; [|exact Hfx]. rewrite !zlen_app in *. lia.
  - destruct (value_type_ok _ _ Hv') as [Ht|]; [|contradiction].
    replace (storage_of ty' =? BINN_STORAGE_CONTAINER) with false in * by (symmetry; by apply Z.eqb_neq).
    cbn [negb]. rewrite type_bytes_written by done. cbn [mbind option_bind].
    rewrite zlen_app in He. pose proof (tbytes_pos ty'). pose proof (zlen_nonneg (body ty' d')).
    destruct (append_used pre rest1 (tbytes ty') base) as (rest2 & Hr2 & E2); [lia..|].
    cbn [mbind option_bind] in E2. rewrite E2. cbn [mbind option_bind].
    rewrite Hpl. cbn [mbind option_bind]. change (used_size (grown ?b ?u ?c)) with u.
    destruct (append_grown (B := bool * binn) (pre ++ tbytes ty') rest2 (body ty' d') base
                (fun item => Some (true, with_dirty true item))) as (rest3 & Hr3 & ->);
      [rewrite ?zlen_app; lia..|].
    exists rest3. rewrite app_assoc. split; [done|]. split; [|exact Hfx]. rewrite !zlen_app in *. lia.
Qed.

End alloc.
