(* ===== verification/BinnSpec.v ===== *)
(** What the Binn containers promise: a writable item represents a list of
    values, an object a list of keyed values, a map a list of values under
    integer ids; adding appends, reading by position, key or id returns what
    was added, and a key (up to case) or id already present is refused. *)
From S2P Require Import Prelude CMem BinnFormat BinnItem BinnRead BinnCodec BinnStore.

(** * The representation *)

(** [b] is a writable container of type [ct] whose used part is the nine bytes
    kept for the header and then [content], holding [n] items.  When it is not
    dirty the header in front of the content is up to date. *)
Inductive rep (ct : Z) (content : bytes) (n : Z) (b : binn) : Prop :=
  | Rep (hs rest : bytes) (base : binn) :
      zlen hs = MAX_BINN_HEADER ->
      b = grown ((hs ++ content) ++ rest) (zlen (hs ++ content)) base ->
      type b = ct -> writable b = true -> header b = BINN_MAGIC -> count b = n ->
      zlen ((hs ++ content) ++ rest) < 2147483648 ->
      (dirty b = true \/
       exists junk, hs = junk ++ header_bytes ct (size b) n /\ ptr b = POwn (zlen junk) /\
         size b = zlen (header_bytes ct (size b) n) + zlen content) ->
      rep ct content n b.

(** The room every statement leaves for one more value. *)
Definition small (content : bytes) (n : Z) : Prop :=
  0 <= n <= zlen content /\ zlen content <= 1073741000.

Lemma put_at (pre old bs rest buf : bytes) p u base :
  buf = pre ++ old ++ rest -> zlen old = zlen bs -> p = zlen pre ->
  poke p bs (grown buf u base) = Some (grown (pre ++ bs ++ rest) u base).
Proof. intros -> H ->. by apply put_mid. Qed.

Lemma back_field_spec n : 0 <= n < 2147483648 -> back_field n = Some (len_field n).
Proof. apply length_field_spec. Qed.

(** The size a container has once its header is written. *)
Definition total_size (content : bytes) (n : Z) : Z :=
  let size := zlen content + 3 + (if 127 <? n then 3 else 0) in
  if 127 <? size then size + 3 else size.

Lemma total_size_spec ct content n :
  0 <= n -> total_size content n =
  zlen (header_bytes ct (total_size content n) n) + zlen content.
Proof.
  intros Hn. unfold header_bytes. rewrite zlen_cons, zlen_app, !len_field_zlen.
  unfold total_size. pose proof (zlen_nonneg content). zifs.
Qed.

(** The size field of [binn_save_header]. *)
Lemma size_field content n :
  let size := zlen content + 3 + (if 127 <? n then 3 else 0) in
  small content n ->
  (if 127 <? size then g ← add32 size 3; bs ← wr_be32 (s32 (g .| 0x80000000)); Some (bs, g)
   else Some ([u8 size], size)) =
  Some (len_field (total_size content n), total_size content n).
Proof.
  intros size [Hn Hs]. unfold total_size. fold size. pose proof (zlen_nonneg content).
  assert (0 <= size <= 1073741824) by (unfold size; zifs).
  unfold len_field. destruct (127 <? size) eqn:E; zbool.
  - rewrite add32_ok by lia. cbn [mbind option_bind].
    replace (127 <? size + 3) with true by lia. by rewrite lor_top, wr_be32_spec by lia.
  - replace (127 <? size) with false by lia. by rewrite u8_id by lia.
Qed.

(** The nine bytes in front of the content, cut where the header's fields go. *)
Lemma header_space (hs : bytes) a c :
  zlen hs = 9 -> (a = 1 \/ a = 4) -> (c = 1 \/ c = 4) ->
  exists junk o1 o2 o3, hs = junk ++ o1 ++ o2 ++ o3 /\ zlen junk = 8 - a - c /\
    zlen o1 = 1 /\ zlen o2 = a /\ zlen o3 = c.
Proof.
  intros Hhs Ha Hc.
  destruct (split_at hs (8 - a - c) 1) as (junk & o1 & t & E1 & Hj & Ho1); [lia..|].
  assert (Ht : zlen t = a + c) by (rewrite E1, !zlen_app in Hhs; lia).
  destruct (split_at t 0 a) as (nl & o2 & o3 & E2 & Hnl & Ho2); [lia..|].
  apply (zlen_length nl 0) in Hnl. destruct nl; [|discriminate Hnl]. cbn [app] in E2.
  exists junk, o1, o2, o3. rewrite E1, E2 in *. rewrite zlen_app in Ht. repeat split; lia.
Qed.

Lemma len_field_1or4 n : zlen (len_field n) = 1 \/ zlen (len_field n) = 4.
Proof. rewrite len_field_zlen. zifs; auto. Qed.

Lemma save_header_ok ct content n b :
  rep ct content n b -> small content n -> isin ct [BINN_LIST; BINN_MAP; BINN_OBJECT] = true ->
  exists b', binn_save_header (Some b) = Some (true, Some b') /\ rep ct content n b' /\
    dirty b' = false /\ disable_int_compression b' = disable_int_compression b.
Proof.
  intros [hs rest base Hhs -> Ht Hw Hh Hc Hz _] Hs Hct. pose proof Hs as [Hn Hlim].
  destruct (container_type_facts ct Hct) as (_ & _ & _ & Hbyte). unfold is_byte in Hbyte.
  pose proof (zlen_nonneg content).
  set (sz := total_size content n). set (lf := len_field sz). set (cf := len_field n).
  assert (Hcf : zlen cf = if 127 <? n then 4 else 1) by apply len_field_zlen.
  destruct (header_space hs (zlen lf) (zlen cf) Hhs) as (junk & o1 & o2 & o3 & -> & Hj & H1 & H2 & H3);
    [apply len_field_1or4..|].
  change (type base = ct) in Ht. change (count base = n) in Hc.
  unfold binn_save_header. cbn [used_size grown with_used_size]. unfold MAX_BINN_HEADER in *.
  rewrite zlen_app, Hhs. rewrite add32_ok by lia. cbn [mbind option_bind].
  change (count (grown _ _ _)) with (count base). rewrite Hc.
  rewrite back_field_spec by lia. fold cf. cbn [mbind option_bind].
  replace (if 127 <? n then add32 (9 + zlen content - 9 + 3) 3
           else Some (9 + zlen content - 9 + 3))
    with (Some (zlen content + 3 + (if 127 <? n then 3 else 0)))
    by (destruct (127 <? n); rewrite ?add32_ok by lia; f_equal; lia).
  cbn [mbind option_bind].
  rewrite (put_at (junk ++ o1 ++ o2) o3 cf (content ++ rest));
    [|by rewrite <- !app_assoc|done|rewrite !zlen_app in *; lia].
  cbn [mbind option_bind]. pose proof (size_field content n Hs) as Hsf. cbv zeta in Hsf.
  rewrite Hsf. fold sz lf. cbn [mbind option_bind].
  rewrite (put_at (junk ++ o1) o2 lf (cf ++ content ++ rest));
    [|by rewrite <- !app_assoc|done|rewrite !zlen_app in *; lia].
  cbn [mbind option_bind]. change (type (grown _ _ _)) with (type base). rewrite Ht, u8_id by lia.
  rewrite (put_at junk o1 [ct] (lf ++ cf ++ content ++ rest));
    [|by rewrite <- !app_assoc|done|rewrite !zlen_app in *; lia].
  cbn [mbind option_bind]. eexists. split; [reflexivity|]. split; [|done].
  set (p := 9 - zlen cf - zlen lf - 1).
  assert (Hp : p = zlen junk) by (unfold p; rewrite !zlen_app in Hhs; lia). rewrite Hp.
  apply (Rep _ _ _ _ (junk ++ header_bytes ct sz n) rest
           (with_dirty false (with_size sz (with_ptr (POwn (zlen junk)) base)))); try done.
  - unfold header_bytes, MAX_BINN_HEADER. rewrite zlen_app, zlen_cons, zlen_app. fold lf cf. lia.
  - unfold header_bytes. fold lf cf.
    replace (zlen ((junk ++ ct :: lf ++ cf) ++ content)) with (9 + zlen content)
      by (rewrite !zlen_app, zlen_cons, zlen_app; lia).
    rewrite <- !app_assoc. cbn [app]. by rewrite <- !app_assoc.
  - unfold header_bytes. fold lf cf. rewrite !zlen_app, zlen_cons, zlen_app in *. lia.
  - right. exists junk. split; [done|]. split; [done|]. change (size _) with sz.
    apply total_size_spec. lia.
Qed.

Lemma flush_ok ct content n b :
  rep ct content n b -> small content n -> isin ct [BINN_LIST; BINN_MAP; BINN_OBJECT] = true ->
  exists b', flush b = Some b' /\ rep ct content n b' /\ dirty b' = false /\
    disable_int_compression b' = disable_int_compression b.
Proof.
  intros Hr Hs Hct. unfold flush. assert (Hw : writable b = true) by (by destruct Hr).
  rewrite Hw. cbn [andb]. destruct (dirty b) eqn:Ed.
  - destruct (save_header_ok ct content n b Hr Hs Hct) as (b' & -> & H). exists b'. by split.
  - exists b. by repeat split.
Qed.

(** A container read through [binn_ptr] is its header and content, in a buffer. *)
Lemma binn_ptr_rep ct content n b :
  rep ct content n b -> small content n -> isin ct [BINN_LIST; BINN_MAP; BINN_OBJECT] = true ->
  exists b' pre post size,
    let h := header_bytes ct size n in
    let buf := pre ++ h ++ content ++ post in
    binn_ptr (AStruct b) = Some (AStruct b', Some (buf, zlen pre)) /\
    IsValidBinnHeader (Some (buf, zlen pre)) (Some 0) = Some (Some (Hdr ct n (Some size) (zlen h))) /\
    size = zlen h + zlen content /\ rep ct content n b' /\
    disable_int_compression b' = disable_int_compression b.
Proof.
  intros Hr Hs Hct. destruct (flush_ok ct content n b Hr Hs Hct) as (b' & Ef & Hr' & Hd & Hdis).
  pose proof Hr' as [hs rest base Hhs Eb Ht Hw Hh Hc Hz Hcl].
  destruct Hcl as [Hcl|(junk & -> & Hp & Hsz)]; [by rewrite Hd in Hcl|].
  exists b', junk, rest, (size b'). cbv zeta.
  assert (Hh0 : header b = BINN_MAGIC) by (by destruct Hr).
  assert (Hdr : deref b' (ptr b') =
    Some (junk ++ header_bytes ct (size b') n ++ content ++ rest, zlen junk)).
  { rewrite Hp. cbn [deref]. rewrite Eb at 1. cbn [pbuf grown with_used_size with_alloc_size with_pbuf].
    by rewrite <- !app_assoc. }
  split; [|split; [|by repeat split]].
  - unfold binn_ptr, binn_get_ptr_type. rewrite Hh0. change (BINN_MAGIC =? BINN_MAGIC) with true.
    cbn [mbind option_bind]. change (BINN_STRUCT =? BINN_STRUCT) with true. rewrite Ef.
    cbn [mbind option_bind]. by rewrite Hdr.
  - destruct Hs as [Hn Hl]. pose proof (zlen_nonneg content).
    assert (Hb : 3 <= zlen (header_bytes ct (size b') n) <= 9).
    { unfold header_bytes. rewrite zlen_cons, zlen_app.
      pose proof (len_field_1or4 (size b')). pose proof (len_field_1or4 n). lia. }
    apply IsValidBinnHeader_header; [done|lia|lia].
Qed.

(** * Lists *)

Definition encs (vs : list (Z * bytes)) : bytes := concat (map (fun v => encode v.1 v.2) vs).
Definition all_ok (vs : list (Z * bytes)) : Prop := Forall (fun v => value_ok v.1 v.2) vs.

(** [b] is a writable list of the values [vs] (types and data as stored). *)
Definition list_holds (vs : list (Z * bytes)) (b : binn) : Prop :=
  rep BINN_LIST (encs vs) (Z.of_nat (length vs)) b /\ all_ok vs.

Lemma encs_app vs ws : encs (vs ++ ws) = encs vs ++ encs ws.
Proof. unfold encs. by rewrite map_app, concat_app. Qed.

Lemma encs_cons v vs : encs (v :: vs) = encode v.1 v.2 ++ encs vs.
Proof. done. Qed.

Lemma encode_pos ty d : value_ok ty d -> 1 <= zlen (encode ty d).
Proof.
  intros Hv. rewrite encode_body. destruct (Z.eqb_spec (storage_of ty) BINN_STORAGE_CONTAINER) as [E|E].
  - rewrite zlen_app. unfold body. rewrite E. cbn -[zlen]. change (zlen []) with 0.
    destruct Hv as [? ? ? E'|? ? ? E'|? ? ? E'|ty count c d ? Ed].
    1-3: rewrite E in E'; first [discriminate E' | exfalso; by apply E'].
    rewrite Ed, zlen_cons. pose proof (zlen_nonneg (len_field (zlen d) ++ len_field count ++ c)). lia.
  - rewrite zlen_app. pose proof (tbytes_pos ty). pose proof (zlen_nonneg (body ty d)). lia.
Qed.

Lemma encs_length vs : all_ok vs -> Z.of_nat (length vs) <= zlen (encs vs).
Proof.
  induction 1 as [|v vs Hv _ IH]; [done|]. rewrite encs_cons, zlen_app. cbn [length].
  pose proof (encode_pos _ _ Hv). lia.
Qed.

Lemma small_encs vs : all_ok vs -> zlen (encs vs) <= 1073741000 -> small (encs vs) (Z.of_nat (length vs)).
Proof. intros H%encs_length Hl. unfold small. lia. Qed.

(** [k] steps from the front of the values lead to the [k]-th. *)
Lemma advance_n_encs vs k (pre post : bytes) base plimit :
  all_ok vs -> (k <= length vs)%nat -> zlen pre + zlen (encs vs) <= plimit -> base <= zlen pre ->
  advance_n k (pre ++ encs vs ++ post) base plimit (zlen pre) =
  Some (Some (zlen (pre ++ encs (take k vs)))).
Proof.
  intros Hvs. revert k pre. induction Hvs as [|v vs Hv Hvs IH]; intros k pre Hk Hp Hb.
  - cbn [length] in Hk. replace k with O by lia. cbn. by rewrite app_nil_r.
  - destruct k as [|k]; [cbn; by rewrite app_nil_r|]. cbn [length] in Hk.
    rewrite encs_cons, zlen_app in Hp. pose proof (zlen_nonneg (encs vs)).
    pose proof (zlen_nonneg (encode v.1 v.2)).
    cbn [advance_n]. rewrite encs_cons, <- app_assoc, advance_encode by done.
    cbn [mbind option_bind].
    replace (plimit <? zlen pre + zlen (encode v.1 v.2)) with false by lia.
    replace (zlen pre + zlen (encode v.1 v.2) <? base) with false by lia.
    rewrite (app_assoc pre), <- zlen_app. rewrite IH by (rewrite ?zlen_app; lia).
    cbn [take]. by rewrite encs_cons, <- app_assoc.
Qed.

(** The [k]-th value read where it is. *)
Lemma GetValue_nth vs k v (pre post : bytes) :
  all_ok vs -> vs !! k = Some v ->
  exists r, GetValue (pre ++ encs vs ++ post) (zlen (pre ++ encs (take k vs))) true = Some (Some r) /\
    denotes v.1 v.2 r.
Proof.
  intros Hvs Hk.
  assert (Eb : encs vs = encs (take k vs) ++ encode v.1 v.2 ++ encs (drop (S k) vs))
    by (rewrite <- encs_cons, <- encs_app; by rewrite take_drop_middle).
  pose proof (Forall_lookup_1 _ _ _ _ Hvs Hk) as Hv. cbn in Hv.
  rewrite Eb, <- !app_assoc, (app_assoc pre).
  by apply GetValue_encode.
Qed.

Section list.
Context `{L : BinnLib, Lok : !BinnLibOk L}.

Lemma list_get_ok vs b pos v :
  list_holds vs b -> zlen (encs vs) <= 1073741000 ->
  1 <= pos -> vs !! Z.to_nat (pos - 1) = Some v ->
  exists b' r, binn_list_get_value (AStruct b) pos true = Some (AStruct b', Some r) /\
    denotes v.1 v.2 r /\ list_holds vs b'.
Proof.
  intros [Hr Hvs] Hl Hp Hk. pose proof (small_encs vs Hvs Hl) as Hs.
  destruct (binn_ptr_rep _ _ _ _ Hr Hs eq_refl) as (b' & pre & post & size & Eptr & Ehdr & Hsz & Hr' & _).
  set (h := header_bytes BINN_LIST size (Z.of_nat (length vs))) in *.
  apply lookup_lt_Some in Hk as Hlt.
  unfold binn_list_get_value. rewrite Eptr. cbn [mbind option_bind negb]. rewrite Ehdr.
  cbn [mbind option_bind]. change (BINN_LIST =? BINN_LIST) with true. cbn [negb].
  replace (Z.of_nat (length vs) =? 0) with false by lia.
  replace ((pos <=? 0) || (Z.of_nat (length vs) <? pos)) with false by lia.
  change (default 0 (Some size)) with size. rewrite (app_assoc pre h), <- zlen_app.
  rewrite advance_n_encs; [|done|lia|rewrite zlen_app; lia|rewrite zlen_app; pose proof (zlen_nonneg h); lia].
  cbn [mbind option_bind].
  destruct (GetValue_nth vs _ v (pre ++ h) post Hvs Hk) as (r & -> & Hden).
  cbn [mbind option_bind]. exists b', r. by repeat split.
Qed.
(** The room [AddValue] needs fits an [int]. *)
Definition fits_int (content d : bytes) : Prop := zlen content + zlen d <= 1073741000.

Lemma add_value_dirty ct content n hs rest base u :
  zlen hs = MAX_BINN_HEADER -> type base = ct -> writable base = true ->
  header base = BINN_MAGIC -> zlen ((hs ++ content) ++ rest) < 2147483648 ->
  u = zlen (hs ++ content) ->
  rep ct content n (with_count n (with_dirty true (grown ((hs ++ content) ++ rest) u base))).
Proof.
  intros Hhs Ht Hw Hh Hz ->.
  apply (Rep _ _ _ _ hs rest (with_count n (with_dirty true base))); try done. by left.
Qed.

Lemma list_add_ok vs b ty pvalue size d :
  list_holds vs b -> value_ok ty d -> input ty pvalue size d -> fits_int (encs vs) d ->
  let room := value_room (stored b ty d) in
  (binn_list_add_raw (Some b) ty pvalue size = Some (false, Some b) /\ lacks_room b room) \/
  (exists b', binn_list_add_raw (Some b) ty pvalue size = Some (true, Some b') /\ fits_fixed b room /\
     list_holds (vs ++ [stored b ty d]) b' /\
     disable_int_compression b' = disable_int_compression b).
Proof.
  intros [Hr Hvs] Hv Hi Hf room. unfold fits_int in Hf. pose proof (zlen_nonneg d).
  destruct (small_encs vs Hvs) as [Hn _]; [lia|].
  destruct Hr as [hs rest base Hhs -> Ht Hw Hh Hc Hz _].
  change (type base = BINN_LIST) in Ht. change (writable base = true) in Hw.
  change (count base = Z.of_nat (length vs)) in Hc. unfold binn_list_add_raw.
  change (type (grown _ _ _)) with (type base). change (writable (grown _ _ _)) with (writable base).
  rewrite Ht, Hw. cbn [negb orb Z.eqb]. change (negb (BINN_LIST =? BINN_LIST)) with false. cbn [orb].
  change MAX_BINN_HEADER with 9 in Hhs. pose proof (zlen_nonneg rest).
  destruct (AddValue_sound ty pvalue size d (hs ++ encs vs) rest base Hv Hi)
    as [[-> Hno]|(rest' & -> & Hz' & Hfx)]; [rewrite !zlen_app in *; lia|rewrite zlen_app; lia| |];
    cbn [mbind option_bind negb].
  - left. split; [done|exact Hno].
  - right. change (count (with_dirty _ (grown _ _ _))) with (count base). rewrite Hc, add32_ok by lia.
    cbn [mbind option_bind]. eexists. split; [reflexivity|]. split; [exact Hfx|]. split; [|done].
    change (stored (grown _ _ base) ty d) with (stored base ty d).
    assert (Hvs' : all_ok (vs ++ [stored base ty d])).
    { apply Forall_app. split; [done|]. apply Forall_singleton.
      destruct (compress_step base ty pvalue size d Hv Hi) as (t & d' & -> & _ & ? & _). done. }
    split; [|done].
    rewrite encs_app, encs_cons, length_app. cbn [length]. rewrite app_nil_r, <- !app_assoc in *.
    replace (Z.of_nat (length vs + 1)) with (Z.of_nat (length vs) + 1) by lia.
    rewrite (app_assoc hs) in *. rewrite (app_assoc _ _ rest') in *.
    replace ((hs ++ encs vs) ++ encode (stored base ty d).1 (stored base ty d).2)
      with (hs ++ encs vs ++ encode (stored base ty d).1 (stored base ty d).2) in *
      by (by rewrite app_assoc).
    by apply add_value_dirty.
Qed.
End list.
