(* ===== verification/BinnId.v ===== *)
(** Map ids of Binn: the one to five bytes [binn_map_set_raw] stores for an id
    are read back by [read_map_id] as the same id. *)
From S2P Require Import Prelude CMem BinnFormat BinnCodec.

Lemma znth_at (pre l : bytes) i n : i = zlen pre + n -> 0 <= n -> znth (pre ++ l) i = znth l n.
Proof. intros -> Hn. rewrite znth_app_r by lia. f_equal. lia. Qed.

(** * The first byte *)

Lemma short_head s a :
  (s = 0 \/ s = 1) -> 0 <= a <= 63 ->
  let c := u8 ((s .<< 6) .| a) in
  (c .& 0x80 =? 0) = true /\ c .& 0x40 = s * 64 /\ c .& 0x3F = a.
Proof.
  intros Hs Ha.
  assert (H : (63 <? a) || forallb (fun s => let c := u8 ((s .<< 6) .| a) in
    (c .& 0x80 =? 0) && (c .& 0x40 =? s * 64) && (c .& 0x3F =? a)) [0; 1] = true).
  { apply (byte_forall (fun a => (63 <? a) || forallb (fun s => let c := u8 ((s .<< 6) .| a) in
      (c .& 0x80 =? 0) && (c .& 0x40 =? s * 64) && (c .& 0x3F =? a)) [0; 1]));
      [reflexivity|unfold is_byte; lia]. }
  replace (63 <? a) with false in H by lia. cbn [orb forallb] in H. zbool.
  destruct Hs as [->| ->]; cbn zeta; rewrite Z.eqb_eq; tauto.
Qed.

(** What the reader takes from the first byte of the longer forms, of type [t],
    sign [s] and high bits [h]. *)
Lemma long_head t k s h :
  (t = 0x80 /\ k = 1 \/ t = 0xA0 /\ k = 2 \/ t = 0xC0 /\ k = 3) -> (s = 0 \/ s = 1) -> 0 <= h < 16 ->
  let c := u8 (t .| (s .<< 4) .| h) in
  (c .& 0x80 =? 0) = false /\ ((c .& 0x60) .>> 5) + 1 = k /\ c .& 0xE0 = t /\
  c .& 0x10 = s * 16 /\ c .& 0x0F = h.
Proof.
  intros Ht Hs Hh.
  assert (H : (15 <? h) || forallb (fun '(t, k) => forallb (fun s =>
    let c := u8 (t .| (s .<< 4) .| h) in
    negb (c .& 0x80 =? 0) && (((c .& 0x60) .>> 5) + 1 =? k) && (c .& 0xE0 =? t) &&
    (c .& 0x10 =? s * 16) && (c .& 0x0F =? h)) [0; 1]) [(0x80, 1); (0xA0, 2); (0xC0, 3)] = true).
  { apply (byte_forall (fun h => (15 <? h) || forallb (fun '(t, k) => forallb (fun s =>
      let c := u8 (t .| (s .<< 4) .| h) in
      negb (c .& 0x80 =? 0) && (((c .& 0x60) .>> 5) + 1 =? k) && (c .& 0xE0 =? t) &&
      (c .& 0x10 =? s * 16) && (c .& 0x0F =? h)) [0; 1]) [(0x80, 1); (0xA0, 2); (0xC0, 3)]));
      [reflexivity|unfold is_byte; lia]. }
  replace (15 <? h) with false in H by lia. cbn [orb forallb] in H. zbool.
  destruct Ht as [[-> ->]|[[-> ->]|[-> ->]]]; destruct Hs as [->| ->]; cbn zeta; rewrite Z.eqb_neq; tauto.
Qed.

(** * Round trip *)

(** Reading [bs] gives back [id], wherever it stands and whatever follows. *)
Definition reads_id (bs : bytes) (id : Z) : Prop :=
  forall pre post plimit, zlen pre + zlen bs <= plimit ->
    read_map_id (pre ++ bs ++ post) (zlen pre) plimit = Some (id, zlen pre + zlen bs).

Lemma neg_ok s a :
  (s = 0 \/ s = 1) -> 0 <= a < 2147483648 -> 
  (if s * 16 =? 0 then Some a else neg32 a) = Some (if s =? 0 then a else - a) /\
  (if s * 64 =? 0 then Some a else neg32 a) = Some (if s =? 0 then a else - a).
Proof. intros [->| ->] Ha; cbn; unfold neg32, int_ok; zifs; done. Qed.

Lemma reads_id_1 s a :
  (s = 0 \/ s = 1) -> 0 <= a <= 63 -> reads_id [u8 ((s .<< 6) .| a)] (if s =? 0 then a else - a).
Proof.
  intros Hs Ha pre post plimit Hl. destruct (short_head s a Hs Ha) as (E1 & E2 & E3).
  destruct (neg_ok s a Hs) as [_ En]; [lia|].
  unfold read_map_id. cbn [app]. rewrite znth_mid. cbn [mbind option_bind].
  rewrite E1. cbn [negb andb mbind option_bind]. rewrite E2, E3, En. done.
Qed.

(** The longer forms: [t] the type, [k] the bytes after the first. *)
Lemma reads_id_long t k s h (bs : bytes) v :
  (t = 0x80 /\ k = 1 \/ t = 0xA0 /\ k = 2 \/ t = 0xC0 /\ k = 3) -> (s = 0 \/ s = 1) -> 0 <= h < 16 ->
  zlen bs = k -> all_bytes bs -> v = h * 256 ^ k + be_val bs -> 0 <= v < 2147483648 ->
  reads_id (u8 (t .| (s .<< 4) .| h) :: bs) (if s =? 0 then v else - v).
Proof.
  intros Ht Hs Hh Hk Hb Hv Hr pre post plimit Hl.
  destruct (long_head t k s h Ht Hs Hh) as (E1 & E2 & E3 & E4 & E5).
  destruct (neg_ok s v Hs Hr) as [En _]. rewrite zlen_cons, Hk in Hl.
  unfold read_map_id. cbn [app]. rewrite znth_mid. cbn [mbind option_bind].
  rewrite E1, E2, E3, E4, E5. cbn [negb andb].
  replace (plimit <? zlen pre + 1 + k) with false by lia.
  rewrite zlen_cons, Hk. unfold is_byte in Hb.
  destruct Ht as [[-> ->]|[[-> ->]|[-> ->]]]; change (256 ^ 1) with 256 in *;
    change (256 ^ 2) with 65536 in *; change (256 ^ 3) with 16777216 in *.
  - apply (zlen_length bs 1) in Hk. destruct bs as [|b1 [|]]; try discriminate Hk.
    apply Forall_cons_1 in Hb as [H1 _]. unfold is_byte in *. cbn [app].
    change (128 =? 128) with true. cbv iota.
    rewrite (znth_at pre _ (zlen pre + 1) 1) by lia.
    change (znth (_ :: b1 :: _) 1) with (Some b1). cbn [mbind option_bind].
    rewrite lor_shiftl_8 by lia. cbn in Hv.
    replace (h * 256 + b1) with v by lia. rewrite En. cbn [mbind option_bind]. feq.
  - apply (zlen_length bs 2) in Hk. destruct bs as [|b1 [|b2 [|]]]; try discriminate Hk.
    apply Forall_cons_1 in Hb as [H1 Hb]. apply Forall_cons_1 in Hb as [H2 _].
    unfold is_byte in *. cbn [app].
    change (160 =? 128) with false. change (160 =? 160) with true. cbv iota.
    rewrite (znth_at pre _ (zlen pre + 1) 1), (znth_at pre _ (zlen pre + 1 + 1) 2) by lia.
    change (znth (_ :: b1 :: _) 1) with (Some b1).
    change (znth (_ :: b1 :: b2 :: _) 2) with (Some b2). cbn [mbind option_bind].
    rewrite !lor_shiftl_8 by lia. cbn in Hv.
    replace ((h * 256 + b1) * 256 + b2) with v by lia. rewrite En. cbn [mbind option_bind]. feq.
  - apply (zlen_length bs 3) in Hk. destruct bs as [|b1 [|b2 [|b3 [|]]]]; try discriminate Hk.
    apply Forall_cons_1 in Hb as [H1 Hb]. apply Forall_cons_1 in Hb as [H2 Hb].
    apply Forall_cons_1 in Hb as [H3 _]. unfold is_byte in *. cbn [app].
    change (192 =? 128) with false. change (192 =? 160) with false.
    change (192 =? 192) with true. cbv iota.
    rewrite (znth_at pre _ (zlen pre + 1) 1), (znth_at pre _ (zlen pre + 1 + 1) 2),
      (znth_at pre _ (zlen pre + 1 + 2) 3) by lia.
    change (znth (_ :: b1 :: _) 1) with (Some b1).
    change (znth (_ :: b1 :: b2 :: _) 2) with (Some b2).
    change (znth (_ :: b1 :: b2 :: b3 :: _) 3) with (Some b3). cbn [mbind option_bind].
    rewrite !lor_shiftl_8 by lia. cbn in Hv.
    replace (((h * 256 + b1) * 256 + b2) * 256 + b3) with v by lia. rewrite En.
    cbn [mbind option_bind]. feq.
Qed.

Lemma reads_id_5 id : -2147483648 <= id < 2147483648 -> reads_id (0xE0 :: be_bytes 4 id) id.
Proof.
  intros Hi pre post plimit Hl. rewrite zlen_cons, zlen_be_bytes in *.
  change (Z.of_nat 4) with 4 in *. unfold read_map_id. cbn [app]. rewrite znth_mid.
  cbn [mbind option_bind]. change (0xE0 .& 0x80 =? 0) with false.
  change (((0xE0 .& 0x60) .>> 5) + 1) with 4. cbn [negb andb].
  replace (plimit <? zlen pre + 1 + 4) with false by lia.
  change (0xE0 .& 0xE0) with 224. change (0xE0 .& 0x10) with 0.
  change (224 =? 128) with false. change (224 =? 160) with false.
  change (224 =? 192) with false. change (224 =? 224) with true. cbv iota.
  replace (pre ++ 0xE0 :: be_bytes 4 id ++ post) with ((pre ++ [0xE0]) ++ be_bytes 4 id ++ post)
    by (by rewrite <- app_assoc).
  replace (zlen pre + 1) with (zlen (pre ++ [0xE0])) by (by rewrite zlen_app).
  rewrite rd_be32_mid by apply zlen_be_bytes. cbn [mbind option_bind].
  change (0 =? 0) with true. cbn [mbind option_bind]. rewrite be_val_bytes, zlen_app.
  change (256 ^ Z.of_nat 4) with 4294967296. change (zlen [0xE0]) with 1.
  replace (s32 (id mod 4294967296)) with id by cint. feq.
Qed.

(** * The bytes [binn_map_set_raw] writes *)

Lemma field_F00 a : (a .& 0xF00) .>> 8 = (a / 256) mod 16.
Proof. apply (shiftr_field a 8 4); lia. Qed.
Lemma field_F0000 a : (a .& 0xF0000) .>> 16 = (a / 65536) mod 16.
Proof. apply (shiftr_field a 16 4); lia. Qed.
Lemma field_F000000 a : (a .& 0xF000000) .>> 24 = (a / 16777216) mod 16.
Proof. apply (shiftr_field a 24 4); lia. Qed.
Lemma field_FF00 a : (a .& 0xFF00) .>> 8 = (a / 256) mod 256.
Proof. apply (shiftr_field a 8 8); lia. Qed.
Lemma field_FF0000 a : (a .& 0xFF0000) .>> 16 = (a / 65536) mod 256.
Proof. apply (shiftr_field a 16 8); lia. Qed.

(** The writer's branches, on the magnitude [a] and the sign [s]. *)
Lemma reads_id_4 s a :
  (s = 0 \/ s = 1) -> 0 <= a < 0x10000000 ->
  reads_id [u8 (0xC0 .| (s .<< 4) .| ((a .& 0xF000000) .>> 24));
            u8 ((a .& 0xFF0000) .>> 16); u8 ((a .& 0xFF00) .>> 8); u8 (a .& 0xFF)]
    (if s =? 0 then a else - a).
Proof.
  intros Hs Ha. rewrite field_F000000, field_FF0000, field_FF00, land_0xFF.
  apply (reads_id_long 0xC0 3); try done; try lia.
  - repeat constructor; apply u8_range.
  - unfold be_val, u8. change (256 ^ 3) with 16777216. cbn [rev app le_val]. lia.
Qed.
Lemma reads_id_3 s a :
  (s = 0 \/ s = 1) -> 0 <= a < 0x100000 ->
  reads_id [u8 (0xA0 .| (s .<< 4) .| ((a .& 0xF0000) .>> 16));
            u8 ((a .& 0xFF00) .>> 8); u8 (a .& 0xFF)] (if s =? 0 then a else - a).
Proof.
  intros Hs Ha. rewrite field_F0000, field_FF00, land_0xFF.
  apply (reads_id_long 0xA0 2); try done; try lia.
  - repeat constructor; apply u8_range.
  - unfold be_val, u8. change (256 ^ 2) with 65536. cbn [rev app le_val]. lia.
Qed.
Lemma reads_id_2 s a :
  (s = 0 \/ s = 1) -> 0 <= a < 0x1000 ->
  reads_id [u8 (0x80 .| (s .<< 4) .| ((a .& 0xF00) .>> 8)); u8 (a .& 0xFF)]
    (if s =? 0 then a else - a).
Proof.
  intros Hs Ha. rewrite field_F00, land_0xFF.
  apply (reads_id_long 0x80 1); try done; try lia.
  - repeat constructor; apply u8_range.
  - unfold be_val, u8. change (256 ^ 1) with 256. cbn [rev app le_val]. lia.
Qed.

(** The id's bytes: one to five of them, by its magnitude. *)
Definition id_bytes (id : Z) : bytes := default [] (write_map_id id).

(** Every [int] but the smallest, whose negation overflows. *)
Definition id_ok (id : Z) : Prop := -2147483648 < id < 2147483648.

Lemma id_written id :
  id_ok id -> exists bs, write_map_id id = Some bs /\ 1 <= zlen bs <= 5 /\ reads_id bs id.
Proof.
  unfold id_ok. intros Hi. unfold write_map_id. set (s := if id <? 0 then 1 else 0).
  assert (Hs : s = 0 \/ s = 1) by (unfold s; zifs; auto).
  assert (Hn : forall x, -2147483648 < x < 2147483648 -> neg32 x = Some (- x))
    by (intros x Hx; unfold neg32, int_ok; by replace (_ && _) with true by lia).
  set (a := Z.abs id).
  assert (Ha : (if s =? 0 then Some id else neg32 id) = Some a)
    by (unfold s, a; destruct (id <? 0) eqn:E; zbool; cbn; rewrite ?Hn by lia; f_equal; lia).
  assert (Hback : id = if s =? 0 then a else - a)
    by (unfold s, a; destruct (id <? 0) eqn:E; zbool; cbn; lia).
  rewrite Ha. cbn [mbind option_bind].
  assert (H0 : 0 <= a < 2147483648) by (unfold a; lia).
  destruct (a <=? 0x3F) eqn:E1; zbool;
    [eexists; split; [done|split; [done|rewrite Hback; apply reads_id_1; [done|lia]]]|].
  destruct (a <=? 0xFFF) eqn:E2; zbool;
    [eexists; split; [done|split; [done|rewrite Hback; apply reads_id_2; [done|lia]]]|].
  destruct (a <=? 0xFFFFF) eqn:E3; zbool;
    [eexists; split; [done|split; [done|rewrite Hback; apply reads_id_3; [done|lia]]]|].
  destruct (a <=? 0xFFFFFFF) eqn:E4; zbool;
    [eexists; split; [done|split; [done|rewrite Hback; apply reads_id_4; [done|lia]]]|].
  assert (Hid : (if s =? 0 then Some a else neg32 a) = Some id)
    by (rewrite Hback; destruct (s =? 0); rewrite ?Hn by lia; done).
  rewrite Hid. cbn [mbind option_bind]. rewrite wr_be32_spec. cbn [mbind option_bind].
  eexists. split; [done|]. split; [rewrite zlen_cons, zlen_be_bytes; lia|].
  apply reads_id_5. lia.
Qed.

Lemma id_roundtrip id :
  id_ok id ->
  write_map_id id = Some (id_bytes id) /\ 1 <= zlen (id_bytes id) <= 5 /\
  reads_id (id_bytes id) id.
Proof. intros H. unfold id_bytes. by destruct (id_written id H) as (bs & -> & ? & ?). Qed.
