(* ===== verification/BinnKeyed.v ===== *)
(** Binn objects and maps: the searches find the first entry of a key (up to
    letter case) or id, additions append an entry whose key is new and refuse
    one that is not, and ids survive their variable-length encoding. *)
From S2P Require Import Prelude CMem BinnFormat BinnItem BinnRead BinnCodec BinnStore BinnSpec BinnId.

(** * Containers of keyed values *)

Section keyed.
Context {K : Type} (kb : K -> bytes) (ct : Z).

(** An entry: the key's bytes, then the value. *)
Definition chunk (e : K * (Z * bytes)) : bytes := kb e.1 ++ encode e.2.1 e.2.2.
Definition chunks (es : list (K * (Z * bytes))) : bytes := concat (map chunk es).
Definition values_ok (es : list (K * (Z * bytes))) : Prop :=
  Forall (fun e => value_ok e.2.1 e.2.2) es.

Definition keyed_holds (es : list (K * (Z * bytes))) (b : binn) : Prop :=
  rep ct (chunks es) (Z.of_nat (length es)) b /\ values_ok es.

Lemma chunks_cons e es : chunks (e :: es) = kb e.1 ++ encode e.2.1 e.2.2 ++ chunks es.
Proof. unfold chunks, chunk. cbn [map concat]. by rewrite <- app_assoc. Qed.

Lemma chunks_app es fs : chunks (es ++ fs) = chunks es ++ chunks fs.
Proof. unfold chunks. by rewrite map_app, concat_app. Qed.

Lemma chunks_length es : values_ok es -> Z.of_nat (length es) <= zlen (chunks es).
Proof.
  induction 1 as [|e es He _ IH]; [done|]. rewrite chunks_cons, !zlen_app. cbn [length].
  pose proof (encode_pos _ _ He). pose proof (zlen_nonneg (kb e.1)). lia.
Qed.

Lemma small_chunks es :
  values_ok es -> zlen (chunks es) <= 1073741000 -> small (chunks es) (Z.of_nat (length es)).
Proof. intros H%chunks_length Hl. unfold small. lia. Qed.

(** Cut the content at its [i]-th entry. *)
Lemma chunks_split es i e :
  es !! i = Some e ->
  chunks es = (chunks (take i es) ++ kb e.1) ++ encode e.2.1 e.2.2 ++ chunks (drop (S i) es).
Proof.
  intros Hi. rewrite <- app_assoc, <- chunks_cons, <- chunks_app. by rewrite take_drop_middle.
Qed.

Context `{L : BinnLib, Lok : !BinnLibOk L}.

(** The value after its key: appended with it, or both given up. *)
Lemma add_after_key_ok es hs rest base k ty pvalue size d :
  keyed_holds es (grown ((hs ++ chunks es) ++ kb k ++ rest) (zlen (hs ++ chunks es)) base) ->
  zlen hs = MAX_BINN_HEADER -> value_ok ty d -> input ty pvalue size d ->
  zlen (kb k) <= 256 -> zlen (chunks es) + zlen d <= 1073740000 ->
  zlen ((hs ++ chunks es) ++ kb k ++ rest) < 2147483648 ->
  let b := grown (((hs ++ chunks es) ++ kb k) ++ rest) (zlen ((hs ++ chunks es) ++ kb k)) base in
  let room := value_room (stored base ty d) in
  let r := add_after_key b (zlen (kb k)) ty pvalue size in
  (exists b', r = Some (false, Some b') /\ keyed_holds es b' /\ lacks_room b room) \/
  (exists b', r = Some (true, Some b') /\ fits_fixed b room /\ keyed_holds (es ++ [(k, stored base ty d)]) b' /\
     disable_int_compression b' = disable_int_compression base).
Proof.
  intros [Hr Hvs] Hhs Hv Hi Hk Hf Hz b room r. pose proof (zlen_nonneg d). pose proof (zlen_nonneg (kb k)).
  pose proof (zlen_nonneg (chunks es)). pose proof (zlen_nonneg rest).
  pose proof (chunks_length es Hvs) as Hn.
  assert (Hbase : type base = ct /\ writable base = true /\ header base = BINN_MAGIC /\
    count base = Z.of_nat (length es)) by (destruct Hr; subst; done).
  destruct Hbase as (Ht & Hw & Hh & Hc). change MAX_BINN_HEADER with 9 in Hhs.
  unfold r, add_after_key, b.
  destruct (AddValue_sound ty pvalue size d ((hs ++ chunks es) ++ kb k) rest base Hv Hi)
    as [[-> Hno]|(rest' & -> & Hz' & Hfx)]; [rewrite !zlen_app in *; lia|rewrite !zlen_app; lia| |];
    cbn [mbind option_bind negb].
  - left. change (used_size (grown _ ?u _)) with u.
    rewrite add32_ok by (rewrite !zlen_app; lia). cbn [mbind option_bind].
    eexists. split; [reflexivity|]. split; [|exact Hno]. split; [|done].
    replace (zlen ((hs ++ chunks es) ++ kb k) + - zlen (kb k)) with (zlen (hs ++ chunks es))
      by (rewrite !zlen_app; lia).
    rewrite <- (app_assoc (hs ++ chunks es)). exact Hr.
  - right. change (count (with_dirty _ (grown _ _ _))) with (count base). rewrite Hc, add32_ok by lia.
    cbn [mbind option_bind]. eexists. split; [reflexivity|]. split; [exact Hfx|]. split; [|done].
    set (sv := stored base ty d) in *.
    assert (Hsv : value_ok sv.1 sv.2).
    { unfold sv. by destruct (compress_step base ty pvalue size d Hv Hi) as (t & d' & -> & _ & ? & _). }
    split; [|apply Forall_app; split; [done|by apply Forall_singleton]].
    rewrite chunks_app, chunks_cons, length_app. cbn [length fst snd]. change (chunks []) with (@nil Z).
    rewrite app_nil_r. replace (Z.of_nat (length es + 1)) with (Z.of_nat (length es) + 1) by lia.
    replace (((hs ++ chunks es) ++ kb k) ++ encode sv.1 sv.2)
      with (hs ++ chunks es ++ kb k ++ encode sv.1 sv.2) in * by (by rewrite !app_assoc).
    by apply add_value_dirty.
Qed.

(** The tail of the two [_set_raw] functions, once the search has found
    nothing: room for the key, the key, the value. *)
Lemma keyed_add es b k n ty pvalue size d :
  keyed_holds es b -> value_ok ty d -> input ty pvalue size d ->
  zlen (kb k) <= n <= 256 -> zlen (chunks es) + zlen d <= 1073740000 ->
  let r := '(ok, b) ← CheckAllocation b n;
           if negb ok then Some (false, Some b)
           else b ← poke (used_size b) (kb k) b;
                b ← add_used (zlen (kb k)) b;
                add_after_key b (zlen (kb k)) ty pvalue size in
  let room := zlen (kb k) + value_room (stored b ty d) in
  (exists b', r = Some (false, Some b') /\ keyed_holds es b' /\ (lacks_room b n \/ lacks_room b room)) \/
  (exists b', r = Some (true, Some b') /\ (fits_fixed b n /\ fits_fixed b room) /\
     keyed_holds (es ++ [(k, stored b ty d)]) b' /\
     disable_int_compression b' = disable_int_compression b).
Proof.
  intros [Hr Hvs] Hv Hi Hk Hf r room. pose proof (zlen_nonneg d). pose proof (zlen_nonneg (kb k)).
  destruct (small_chunks es Hvs) as [Hn _]; [lia|].
  pose proof Hr as [hs rest base Hhs Eb Ht Hw Hh Hc Hz Hcl]. subst b. unfold r. clear r.
  change MAX_BINN_HEADER with 9 in Hhs. pose proof (zlen_nonneg rest).
  destruct (CheckAllocation_ok (hs ++ chunks es) rest base n) as [[-> Hno]|(rest1 & -> & Hr1 & Hz1 & Hge & Hsame & Hfx)];
    [rewrite !zlen_app in *; lia|lia|rewrite zlen_app; lia| |];
    cbn [mbind option_bind negb].
  { left. eexists. split; [reflexivity|]. split; [done|by left]. }
  change (used_size (grown _ ?u _)) with u.
  destruct (append_grown (hs ++ chunks es) rest1 (kb k) base
              (fun b => add_after_key b (zlen (kb k)) ty pvalue size)) as (rest2 & Hr2 & ->);
    [lia|rewrite !zlen_app; lia|].
  change (stored (grown _ _ base) ty d) with (stored base ty d).
  change (disable_int_compression (grown _ _ base)) with (disable_int_compression base).
  assert (Hz2 : zlen ((hs ++ chunks es) ++ kb k ++ rest2) < 2147483648)
    by (rewrite !zlen_app in *; lia).
  destruct (add_after_key_ok es hs rest2 base k ty pvalue size d)
    as [(b' & -> & Hh' & Hno)|(b' & -> & Hfx2 & Hh')]; try done; [|lia|left|right]; try (exists b').
  - split; [|done]. by apply (Rep _ _ _ _ hs (kb k ++ rest2) base).
  - split; [done|]. split; [done|]. right. unfold lacks_room, room in *. rewrite !used_part_grown in *. revert Hno.
    cbn [used_size alloc_size pre_allocated grown with_used_size with_alloc_size with_pbuf].
    change (stored (grown _ _ base) ty d) with (stored base ty d). rewrite !zlen_app in *.
    intros [Hlt [Hp|(old & s & Hs & Hre)]]; (split; [lia|]); [by left|]. right. exists (kb k ++ old), s. rewrite !app_assoc. split; [lia|done].
  - split; [done|]. split; [|done]. split; [done|]. unfold fits_fixed, room in *. revert Hfx2.
    cbn [used_size alloc_size pre_allocated grown with_used_size with_alloc_size with_pbuf] in *.
    change (stored (grown _ _ base) ty d) with (stored base ty d). rewrite !zlen_app in *. intros Hfx2 Hp.
    specialize (Hfx Hp). specialize (Hfx2 Hp). rewrite (Hsame Hp) in *. lia.
Qed.

(** A search result that is the position of entry [i]'s value. *)
Definition found_at (pre : bytes) (es : list (K * (Z * bytes))) (r : option (nat * (K * (Z * bytes))))
    : option Z :=
  match r with
  | None => None
  | Some (i, e) => Some (zlen (pre ++ chunks (take i es) ++ kb e.1))
  end.

(** The value of entry [i], read where the search left off. *)
Lemma GetValue_entry es i e (pre post : bytes) :
  values_ok es -> es !! i = Some e ->
  exists r, GetValue (pre ++ chunks es ++ post) (zlen (pre ++ chunks (take i es) ++ kb e.1)) true =
    Some (Some r) /\ denotes e.2.1 e.2.2 r.
Proof.
  intros Hvs Hi. pose proof (Forall_lookup_1 _ _ _ _ Hvs Hi) as He. cbn in He.
  rewrite (chunks_split es i e Hi), <- (app_assoc _ _ post), (app_assoc pre), <- (app_assoc _ _ post).
  by apply GetValue_encode.
Qed.

End keyed.

(** * Objects *)

(** A key as it is stored: its length in a byte, then its characters. *)
Definition key_bytes (k : bytes) : bytes := zlen k :: k.

(** Keys are C strings of at most 255 characters. *)
Definition key_ok (k : bytes) : Prop := Forall (fun c => c <> 0) k /\ all_bytes k /\ zlen k <= 255.

(** Two keys are the same when they are equal up to the case of letters. *)
Definition same_key (a b : bytes) : Prop := map tolower a = map tolower b.

#[export] Instance same_key_dec a b : Decision (same_key a b).
Proof. unfold same_key. apply _. Defined.

Definition find_key (key : bytes) (es : list (bytes * (Z * bytes))) :=
  list_find (fun e => same_key e.1 key) es.

Definition object_holds (es : list (bytes * (Z * bytes))) (b : binn) : Prop :=
  keyed_holds key_bytes BINN_OBJECT es b /\ Forall (fun e => key_ok e.1) es.

Lemma ci_eq_same a b :
  Forall (fun c => c <> 0) a -> Forall (fun c => c <> 0) b ->
  ci_eq a b = bool_decide (same_key a b).
Proof.
  intros Ha. revert b. induction Ha as [|x a Hx _ IH]; intros b Hb; destruct Hb as [|y b Hy Hb];
    cbn [ci_eq].
  - by rewrite bool_decide_eq_true_2.
  - rewrite bool_decide_eq_false_2 by done. lia.
  - rewrite bool_decide_eq_false_2 by done. lia.
  - replace (x =? 0) with false by lia. replace (y =? 0) with false by lia. cbn [orb].
    rewrite IH by done. destruct (Z.eqb_spec (tolower x) (tolower y)) as [E|E]; cbn [andb].
    + apply bool_decide_ext. unfold same_key. cbn [map]. rewrite E. split; [congruence|by intros [= ?]].
    + rewrite bool_decide_eq_false_2; [done|]. intros [= ? _]. done.
Qed.

Lemma same_key_length a b : same_key a b -> zlen a = zlen b.
Proof. intros H%(f_equal length). rewrite !length_map in H. unfold zlen. by rewrite H. Qed.

Section object.
Context `{L : BinnLib, Lok : !BinnLibOk L}.

(** The test of the search on one stored key. *)
Lemma key_test k key :
  key_ok k -> Forall (fun c => c <> 0) key ->
  (strnicmp k key (zlen k) =? 0) && (zlen key =? zlen k) = bool_decide (same_key k key).
Proof.
  intros (Hk & _ & _) Hkey. destruct (Z.eqb_spec (zlen key) (zlen k)) as [E|E].
  - rewrite andb_true_r, strnicmp_zero by apply zlen_nonneg.
    rewrite !take_ge by (unfold zlen in *; lia). by apply ci_eq_same.
  - rewrite andb_false_r, bool_decide_eq_false_2; [done|]. intros H%same_key_length. lia.
Qed.

(** One round of the search, at the entry of key [k]. *)
Lemma search_key_step n k ty d key (pre post : bytes) base plimit :
  key_ok k -> value_ok ty d -> Forall (fun c => c <> 0) key ->
  base <= zlen pre -> zlen (pre ++ key_bytes k) <= plimit ->
  let buf := pre ++ key_bytes k ++ encode ty d ++ post in
  let p' := zlen (pre ++ key_bytes k ++ encode ty d) in
  SearchForKey_loop (S n) buf base plimit (zlen pre) key (zlen key) =
  if decide (same_key k key) then Some (Some (zlen (pre ++ key_bytes k)))
  else if plimit <? p' then Some None
  else SearchForKey_loop n buf base plimit p' key (zlen key).
Proof.
  intros Hk Hv Hkey Hb Hp buf p'. pose proof (zlen_nonneg k). pose proof (zlen_nonneg key).
  rewrite zlen_app in Hp. unfold key_bytes in Hp at 1. rewrite zlen_cons in Hp.
  assert (Hpk : zlen (pre ++ key_bytes k) = zlen pre + 1 + zlen k)
    by (rewrite zlen_app; unfold key_bytes; rewrite zlen_cons; lia).
  assert (Hadv : AdvanceDataPos buf (zlen pre + 1 + zlen k) plimit =
    Some (if plimit <? p' then None else Some p')).
  { rewrite <- Hpk. unfold buf, p'. rewrite app_assoc. rewrite advance_encode by done.
    by rewrite <- zlen_app, <- app_assoc. }
  assert (Hbp : (p' <? base) = false)
    by (unfold p'; rewrite app_assoc, zlen_app, Hpk; pose proof (zlen_nonneg (encode ty d)); lia).
  assert (Hrd : znth buf (zlen pre) = Some (zlen k)) by apply znth_mid.
  assert (Hsl : slice buf (zlen pre + 1) (zlen k) = Some k).
  { apply (slice_mid' (pre ++ [zlen k]) k (encode ty d ++ post)); [|by rewrite zlen_app|done].
    unfold buf, key_bytes. by rewrite <- !app_assoc. }
  cbn [SearchForKey_loop]. rewrite Hrd. cbn [mbind option_bind].
  replace (plimit <? zlen pre + 1) with false by lia.
  assert (Hrest : (q ← AdvanceDataPos buf (zlen pre + 1 + zlen k) plimit;
     match q with
     | Some p => if p <? base then Some None
                 else SearchForKey_loop n buf base plimit p key (zlen key)
     | None => Some None
     end) = if plimit <? p' then Some None else SearchForKey_loop n buf base plimit p' key (zlen key)).
  { rewrite Hadv. cbn [mbind option_bind]. destruct (plimit <? p'); [done|]. by rewrite Hbp. }
  destruct (0 <? zlen k) eqn:E0; zbool.
  - rewrite Hsl. cbn [mbind option_bind]. rewrite key_test by done.
    rewrite bool_decide_decide. destruct (decide (same_key k key)); [by rewrite Hpk|].
    replace (plimit <? zlen pre + 1 + zlen k) with false by lia. exact Hrest.
  - assert (k = []) as -> by (destruct k; [done|]; rewrite zlen_cons in E0; pose proof (zlen_nonneg k); lia).
    change (zlen (@nil Z)) with 0 in *. rewrite Z.add_0_r in *.
    destruct (decide (same_key [] key)) as [S|S].
    + apply same_key_length in S. change (zlen (@nil Z)) with 0 in S.
      replace (0 =? zlen key) with true by lia. by rewrite Hpk.
    + destruct (Z.eqb_spec 0 (zlen key)) as [E|E]; [|exact Hrest].
      destruct key; [by destruct S|]. rewrite zlen_cons in E. pose proof (zlen_nonneg key). lia.
Qed.

Lemma search_key es key (pre post : bytes) base plimit :
  values_ok es -> Forall (fun e => key_ok e.1) es -> Forall (fun c => c <> 0) key ->
  plimit = zlen pre + zlen (chunks key_bytes es) - 1 -> base <= zlen pre ->
  SearchForKey_loop (length es) (pre ++ chunks key_bytes es ++ post) base plimit (zlen pre) key (zlen key) =
  Some (found_at key_bytes pre es (find_key key es)).
Proof.
  intros Hvs Hks Hkey. revert pre. induction Hvs as [|[k [ty d]] es He Hvs IH]; intros pre Hp Hb; [done|].
  apply Forall_cons_1 in Hks as [Hk Hks']. specialize (IH Hks').
  rewrite chunks_cons in *. cbn [fst snd] in *. rewrite !zlen_app in Hp.
  pose proof (encode_pos ty d He). pose proof (zlen_nonneg (chunks key_bytes es)).
  pose proof (zlen_nonneg (key_bytes k)).
  cbn [length]. rewrite <- !app_assoc, search_key_step by (done || (rewrite !zlen_app; lia)).
  unfold find_key. cbn [list_find fst]. destruct (decide (same_key k key)) as [S|S].
  - cbn [found_at take]. change (chunks key_bytes []) with (@nil Z). done.
  - set (pre' := pre ++ key_bytes k ++ encode ty d) in *.
    assert (Hz : plimit = zlen pre' + zlen (chunks key_bytes es) - 1)
      by (unfold pre'; rewrite !zlen_app; lia).
    destruct es as [|e2 es].
    + change (zlen (chunks key_bytes [])) with 0 in *. by replace (plimit <? zlen pre') with true by lia.
    + assert (1 <= zlen (chunks key_bytes (e2 :: es))).
      { apply Forall_cons_1 in Hvs as [Hv2 _]. rewrite chunks_cons, !zlen_app.
        pose proof (encode_pos _ _ Hv2).
        pose proof (zlen_nonneg (key_bytes e2.1)). pose proof (zlen_nonneg (chunks key_bytes es)). lia. }
      replace (plimit <? zlen pre') with false by lia.
      replace (pre ++ key_bytes k ++ encode ty d ++ chunks key_bytes (e2 :: es) ++ post)
        with (pre' ++ chunks key_bytes (e2 :: es) ++ post) by (unfold pre'; by rewrite <- !app_assoc).
      rewrite IH by (done || (unfold pre'; rewrite !zlen_app; lia)).
      unfold find_key. set (f := list_find _ (e2 :: es)). destruct f as [[i e]|]; [|done].
      cbn [fmap option_fmap option_map prod_map found_at take fst snd].
      rewrite chunks_cons. cbn [fst snd]. unfold pre'. by rewrite <- !app_assoc.
Qed.
Lemma search_in_object es b key :
  object_holds es b -> zlen (chunks key_bytes es) <= 1073741000 -> Forall (fun c => c <> 0) key ->
  exists buf, pbuf b = Some buf /\
    (SearchForKey buf 0 MAX_BINN_HEADER (used_size b) (count b) key = Some None <->
     find_key key es = None) /\
    (forall x, find_key key es = Some x -> exists p,
       SearchForKey buf 0 MAX_BINN_HEADER (used_size b) (count b) key = Some (Some p)).
Proof.
  intros [[Hr Hvs] Hks] Hl Hkey. destruct Hr as [hs rest base Hhs -> Ht Hw Hh Hc Hz Hcl].
  eexists. split; [reflexivity|]. change (count (grown _ _ _)) with (count base) in *.
  change (used_size (grown _ ?u _)) with u.
  unfold SearchForKey. rewrite Hc, Nat2Z.id, <- Hhs, zlen_app, <- app_assoc.
  replace (0 + zlen hs) with (zlen hs) by lia. pose proof (zlen_nonneg hs).
  rewrite search_key by (done || lia).
  destruct (find_key key es) as [[j e]|]; cbn [found_at]; split; try done.
  intros x _. eexists. reflexivity.
Qed.

(** A key already there, in whatever case, is refused; a new one is added. *)
Lemma object_set_ok es b key ty pvalue size d :
  object_holds es b -> key_ok key -> value_ok ty d -> input ty pvalue size d ->
  zlen (chunks key_bytes es) + zlen d <= 1073740000 ->
  let room := 1 + zlen key + value_room (stored b ty d) in
  let r := binn_object_set_raw (Some b) (Some key) ty pvalue size in
  match find_key key es with
  | Some _ => r = Some (false, Some b)
  | None =>
      (exists b', r = Some (false, Some b') /\ object_holds es b' /\
         (lacks_room b (1 + zlen key) \/ lacks_room b room)) \/
      (exists b', r = Some (true, Some b') /\ (fits_fixed b (1 + zlen key) /\ fits_fixed b room) /\
         object_holds (es ++ [(key, stored b ty d)]) b' /\
         disable_int_compression b' = disable_int_compression b)
  end.
Proof.
  intros Hob Hk Hv Hi Hf room r. pose proof Hob as [Hkh Hks]. destruct Hk as (Hk0 & Hkb & Hkl).
  pose proof (zlen_nonneg d). pose proof (zlen_nonneg key).
  destruct (search_in_object es b key Hob) as (buf & Hbuf & Hnone & Hsome); [lia|done|].
  assert (Ht : type b = BINN_OBJECT) by (by destruct Hkh as [[] _]).
  assert (Hw : writable b = true) by (by destruct Hkh as [[] _]).
  unfold r, room, binn_object_set_raw. rewrite Ht, Hw, Hbuf. change (BINN_OBJECT =? BINN_OBJECT) with true.
  cbn [negb orb]. replace (255 <? zlen key) with false by lia. cbn [mbind option_bind].
  destruct (find_key key es) as [x|].
  - destruct (Hsome x eq_refl) as (p & ->). done.
  - destruct Hnone as [_ ->]; [|done]. cbn [mbind option_bind].
    assert (Hkz : zlen (key_bytes key) = 1 + zlen key) by (unfold key_bytes; by rewrite zlen_cons).
    rewrite u8_id by lia. rewrite <- Hkz. fold (key_bytes key).
    destruct (keyed_add key_bytes BINN_OBJECT es b key (zlen (key_bytes key)) ty pvalue size d)
      as [(b' & E & Hh & Href)|(b' & E & Hfx & Hh & Hd)]; [done..|lia|lia| |].
    + left. exists b'. by split; [|split].
    + right. exists b'. split; [done|]. split; [done|]. split; [|done]. split; [done|].
      apply Forall_app. split; [done|]. by apply Forall_singleton.
Qed.

(** Reading by key returns the entry of that key, in whatever case. *)
Lemma object_get_ok es b key :
  object_holds es b -> zlen (chunks key_bytes es) <= 1073741000 -> Forall (fun c => c <> 0) key ->
  exists b' r, binn_object_get_value (AStruct b) (Some key) true = Some (AStruct b', r) /\
    object_holds es b' /\
    match find_key key es with
    | Some (_, e) => exists v, r = Some v /\ denotes e.2.1 e.2.2 v
    | None => r = None
    end.
Proof.
  intros [[Hr Hvs] Hks] Hl Hkey. pose proof (small_chunks key_bytes es Hvs Hl) as Hs.
  destruct (binn_ptr_rep _ _ _ _ Hr Hs eq_refl) as (b' & pre & post & size & Eptr & Ehdr & Hsz & Hr' & _).
  set (h := header_bytes BINN_OBJECT size (Z.of_nat (length es))) in *.
  unfold binn_object_get_value. rewrite Eptr. cbn [mbind option_bind negb]. rewrite Ehdr.
  cbn [mbind option_bind]. change (BINN_OBJECT =? BINN_OBJECT) with true. cbn [negb].
  destruct (Z.eqb_spec (Z.of_nat (length es)) 0) as [E|E].
  { destruct es; [|discriminate E]. exists b', None. by split; [|split]. }
  change (default 0 (Some size)) with size. unfold SearchForKey. rewrite Nat2Z.id.
  rewrite (app_assoc pre h), <- zlen_app. pose proof (zlen_nonneg h).
  rewrite search_key by (done || (rewrite zlen_app; lia)). cbn [mbind option_bind].
  destruct (find_key key es) as [[i e]|] eqn:Ef; cbn [found_at]; [|exists b', None; by split; [|split]].
  apply list_find_Some in Ef as (Hi & _ & _).
  destruct (GetValue_entry key_bytes es i e (pre ++ h) post Hvs Hi) as (v & -> & Hden).
  cbn [mbind option_bind]. exists b', (Some v). split; [done|]. split; [done|]. by exists v.
Qed.
End object.

(** * Maps *)

Definition find_id (id : Z) (es : list (Z * (Z * bytes))) := list_find (fun e => e.1 = id) es.

Definition map_holds (es : list (Z * (Z * bytes))) (b : binn) : Prop :=
  keyed_holds id_bytes BINN_MAP es b /\ Forall (fun e => id_ok e.1) es.

(** One round of the search, at the entry of id [k]. *)
Lemma search_id_step n k ty d id (pre post : bytes) base plimit :
  id_ok k -> value_ok ty d -> base <= zlen pre -> zlen (pre ++ id_bytes k) <= plimit ->
  let buf := pre ++ id_bytes k ++ encode ty d ++ post in
  let p' := zlen (pre ++ id_bytes k ++ encode ty d) in
  SearchForID_loop (S n) buf base plimit (zlen pre) id =
  if decide (k = id) then Some (Some (zlen (pre ++ id_bytes k)))
  else if plimit <? p' then Some None
  else SearchForID_loop n buf base plimit p' id.
Proof.
  intros Hk Hv Hb Hp buf p'. destruct (id_roundtrip k Hk) as (_ & Hl & Hrd).
  rewrite zlen_app in Hp.
  assert (Hbp : (p' <? base) = false)
    by (unfold p'; rewrite !zlen_app; pose proof (zlen_nonneg (encode ty d)); lia).
  assert (Hr : read_map_id buf (zlen pre) plimit = Some (k, zlen (pre ++ id_bytes k)))
    by (rewrite zlen_app; by apply Hrd).
  assert (Hadv : AdvanceDataPos buf (zlen (pre ++ id_bytes k)) plimit =
    Some (if plimit <? p' then None else Some p')).
  { unfold buf, p'. rewrite !app_assoc, <- (app_assoc _ _ post), advance_encode by done.
    by rewrite <- zlen_app. }
  cbn [SearchForID_loop]. rewrite Hr. cbn [mbind option_bind].
  replace (plimit <? zlen (pre ++ id_bytes k)) with false by (rewrite zlen_app; lia).
  destruct (Z.eqb_spec k id) as [E|E]; destruct (decide (k = id)); try done.
  rewrite Hadv. cbn [mbind option_bind]. destruct (plimit <? p'); [done|]. by rewrite Hbp.
Qed.

Lemma search_id es id (pre post : bytes) base plimit :
  values_ok es -> Forall (fun e => id_ok e.1) es ->
  plimit = zlen pre + zlen (chunks id_bytes es) - 1 -> base <= zlen pre ->
  SearchForID_loop (length es) (pre ++ chunks id_bytes es ++ post) base plimit (zlen pre) id =
  Some (found_at id_bytes pre es (find_id id es)).
Proof.
  intros Hvs Hks. revert pre. induction Hvs as [|[k [ty d]] es He Hvs IH]; intros pre Hp Hb; [done|].
  apply Forall_cons_1 in Hks as [Hk Hks']. specialize (IH Hks').
  rewrite chunks_cons in *. cbn [fst snd] in *. rewrite !zlen_app in Hp.
  pose proof (encode_pos ty d He). pose proof (zlen_nonneg (chunks id_bytes es)).
  pose proof (zlen_nonneg (id_bytes k)).
  cbn [length]. rewrite <- !app_assoc, search_id_step by (done || (rewrite !zlen_app; lia)).
  unfold find_id. cbn [list_find fst]. destruct (decide (k = id)) as [S|S]; [done|].
  set (pre' := pre ++ id_bytes k ++ encode ty d) in *.
  assert (Hz : plimit = zlen pre' + zlen (chunks id_bytes es) - 1)
    by (unfold pre'; rewrite !zlen_app; lia).
  destruct es as [|e2 es].
  - change (zlen (chunks id_bytes [])) with 0 in *. by replace (plimit <? zlen pre') with true by lia.
  - assert (1 <= zlen (chunks id_bytes (e2 :: es))).
    { apply Forall_cons_1 in Hvs as [Hv2 _]. rewrite chunks_cons, !zlen_app.
      pose proof (encode_pos _ _ Hv2).
      pose proof (zlen_nonneg (id_bytes e2.1)). pose proof (zlen_nonneg (chunks id_bytes es)). lia. }
    replace (plimit <? zlen pre') with false by lia.
    replace (pre ++ id_bytes k ++ encode ty d ++ chunks id_bytes (e2 :: es) ++ post)
      with (pre' ++ chunks id_bytes (e2 :: es) ++ post) by (unfold pre'; by rewrite <- !app_assoc).
    rewrite IH by (done || (unfold pre'; rewrite !zlen_app; lia)).
    unfold find_id. set (f := list_find _ (e2 :: es)). destruct f as [[i e]|]; [|done].
    cbn [fmap option_fmap option_map prod_map found_at take fst snd].
    rewrite chunks_cons. cbn [fst snd]. unfold pre'. by rewrite <- !app_assoc.
Qed.

Section map.
Context `{L : BinnLib, Lok : !BinnLibOk L}.

Lemma search_in_map es b id :
  map_holds es b -> zlen (chunks id_bytes es) <= 1073741000 ->
  exists buf, pbuf b = Some buf /\
    (SearchForID buf 0 MAX_BINN_HEADER (used_size b) (count b) id = Some None <->
     find_id id es = None) /\
    (forall x, find_id id es = Some x -> exists p,
       SearchForID buf 0 MAX_BINN_HEADER (used_size b) (count b) id = Some (Some p)).
Proof.
  intros [[Hr Hvs] Hks] Hl. destruct Hr as [hs rest base Hhs -> Ht Hw Hh Hc Hz Hcl].
  eexists. split; [reflexivity|]. change (count (grown _ _ _)) with (count base) in *.
  change (used_size (grown _ ?u _)) with u.
  unfold SearchForID. rewrite Hc, Nat2Z.id, <- Hhs, zlen_app, <- app_assoc.
  replace (0 + zlen hs) with (zlen hs) by lia. pose proof (zlen_nonneg hs).
  rewrite search_id by (done || lia).
  destruct (find_id id es) as [[j e]|]; cbn [found_at]; split; try done.
  intros x _. eexists. reflexivity.
Qed.

(** An id already there is refused; a new one is added. *)
Lemma map_set_ok es b id ty pvalue size d :
  map_holds es b -> id_ok id -> value_ok ty d -> input ty pvalue size d ->
  zlen (chunks id_bytes es) + zlen d <= 1073740000 ->
  let room := zlen (id_bytes id) + value_room (stored b ty d) in
  let r := binn_map_set_raw (Some b) id ty pvalue size in
  match find_id id es with
  | Some _ => r = Some (false, Some b)
  | None =>
      (exists b', r = Some (false, Some b') /\ map_holds es b' /\
         (lacks_room b 5 \/ lacks_room b room)) \/
      (exists b', r = Some (true, Some b') /\ (fits_fixed b 5 /\ fits_fixed b room) /\
         map_holds (es ++ [(id, stored b ty d)]) b' /\
         disable_int_compression b' = disable_int_compression b)
  end.
Proof.
  intros Hob Hk Hv Hi Hf room r. pose proof Hob as [Hkh Hks].
  destruct (id_roundtrip id Hk) as (Hw & Hl & _). pose proof (zlen_nonneg d).
  destruct (search_in_map es b id Hob) as (buf & Hbuf & Hnone & Hsome); [lia|].
  assert (Ht : type b = BINN_MAP) by (by destruct Hkh as [[] _]).
  assert (Hwr : writable b = true) by (by destruct Hkh as [[] _]).
  unfold r, room, binn_map_set_raw. rewrite Ht, Hwr, Hbuf. change (BINN_MAP =? BINN_MAP) with true.
  cbn [negb orb mbind option_bind].
  destruct (find_id id es) as [x|].
  - destruct (Hsome x eq_refl) as (p & ->). done.
  - destruct Hnone as [_ ->]; [|done]. cbn [mbind option_bind]. rewrite Hw. cbn [mbind option_bind].
    destruct (keyed_add id_bytes BINN_MAP es b id 5 ty pvalue size d)
      as [(b' & E & Hh & Href)|(b' & E & Hfx & Hh & Hd)]; [done..|lia|lia| |].
    + left. exists b'. by split; [|split].
    + right. exists b'. split; [done|]. split; [done|]. split; [|done]. split; [done|].
      apply Forall_app. split; [done|]. by apply Forall_singleton.
Qed.

(** Reading by id returns the entry of that id. *)
Lemma map_get_ok es b id :
  map_holds es b -> zlen (chunks id_bytes es) <= 1073741000 ->
  exists b' r, binn_map_get_value (AStruct b) id true = Some (AStruct b', r) /\
    map_holds es b' /\
    match find_id id es with
    | Some (_, e) => exists v, r = Some v /\ denotes e.2.1 e.2.2 v
    | None => r = None
    end.
Proof.
  intros [[Hr Hvs] Hks] Hl. pose proof (small_chunks id_bytes es Hvs Hl) as Hs.
  destruct (binn_ptr_rep _ _ _ _ Hr Hs eq_refl) as (b' & pre & post & size & Eptr & Ehdr & Hsz & Hr' & _).
  set (h := header_bytes BINN_MAP size (Z.of_nat (length es))) in *.
  unfold binn_map_get_value. rewrite Eptr. cbn [mbind option_bind negb]. rewrite Ehdr.
  cbn [mbind option_bind]. change (BINN_MAP =? BINN_MAP) with true. cbn [negb].
  destruct (Z.eqb_spec (Z.of_nat (length es)) 0) as [E|E].
  { destruct es; [|discriminate E]. exists b', None. by split; [|split]. }
  change (default 0 (Some size)) with size. unfold SearchForID. rewrite Nat2Z.id.
  rewrite (app_assoc pre h), <- zlen_app. pose proof (zlen_nonneg h).
  rewrite search_id by (done || (rewrite zlen_app; lia)). cbn [mbind option_bind].
  destruct (find_id id es) as [[i e]|] eqn:Ef; cbn [found_at]; [|exists b', None; by split; [|split]].
  apply list_find_Some in Ef as (Hi & _ & _).
  destruct (GetValue_entry id_bytes es i e (pre ++ h) post Hvs Hi) as (v & -> & Hden).
  cbn [mbind option_bind]. exists b', (Some v). split; [done|]. split; [done|]. by exists v.
Qed.
End map.
