(* ===== verification/BinnConvert.v ===== *)
(** Conversions between Binn's integer types, and how far the walk over a value
    reads: the lemmas behind the theorems on [copy_int_value] and
    [AdvanceDataPos]. *)
From S2P Require Import Prelude CMem BinnFormat BinnItem BinnRead BinnApi BinnCodec BinnStore.

(** * Integer conversion *)

Lemma int_type_signed t :
  In t int_types -> int_type t = BINN_SIGNED_INT \/ int_type t = BINN_UNSIGNED_INT.
Proof. intros H. int_cases H; [left|left|left|left|right|right|right|right]; reflexivity. Qed.

Lemma rd_ptr_width buf o t d :
  slice buf o (width (storage_of t)) = Some d -> rd_ptr (Some (buf, o)) (width (storage_of t)) = Some d.
Proof. done. Qed.

(** The number lands in the signed or in the unsigned variable. *)
Lemma load_int_value buf o t d :
  In t int_types -> slice buf o (width (storage_of t)) = Some d ->
  load_int (Some (buf, o)) t =
  Some (Some (if int_type t =? BINN_SIGNED_INT then (int_value t d, 0) else (0, int_value t d))).
Proof.
  intros Ht Hd. apply rd_ptr_width in Hd.
  int_cases Ht; unfold load_int; revert Hd; storage_eval; cbn -[rd_ptr le_val s8 s16 s32 s64];
    intros ->; reflexivity.
Qed.

(** The store of an in-range number at the front of the destination. *)
Lemma wr_dest_bytes (bs old : bytes) :
  zlen bs <= zlen old ->
  wr_dest bs (Some (DBytes old)) = Some (Some (DBytes (bs ++ drop (length bs) old))).
Proof.
  intros H. unfold wr_dest, splice. replace (zlen old <? 0 + zlen bs) with false by lia.
  cbn [orb mbind option_bind]. replace (0 <? 0) with false by lia. cbn [orb mbind option_bind].
  do 3 f_equal. unfold zlen. by replace (Z.to_nat (0 + Z.of_nat (length bs))) with (length bs) by lia.
Qed.

Lemma zlen_le_bytes n v : zlen (le_bytes n v) = Z.of_nat n.
Proof. unfold zlen. by rewrite le_bytes_length. Qed.

(** The [uint64] and [int64] a number is kept in before the range test. *)
Definition carried (t t' z : Z) : option (Z * Z) :=
  let '(vint64, vuint64) := if int_type t =? BINN_SIGNED_INT then (z, 0) else (0, z) in
  if (int_type t =? BINN_UNSIGNED_INT) && (int_type t' =? BINN_SIGNED_INT)
  then if INT64_MAX <? vuint64 then None else Some (vuint64, vuint64)
  else if (int_type t =? BINN_SIGNED_INT) && (int_type t' =? BINN_UNSIGNED_INT)
  then if vint64 <? 0 then None else Some (vint64, vint64)
  else Some (vint64, vuint64).

(** It is refused only where the number does not fit, and otherwise the
    variable the destination's test looks at holds the number. *)
Lemma carried_spec t t' z :
  In t int_types -> In t' int_types ->
  match carried t t' z with
  | None => ~ fits t' z
  | Some (vi, vu) => (if int_type t' =? BINN_SIGNED_INT then vi else vu) = z
  end.
Proof.
  intros Ht Ht'. unfold carried.
  destruct (int_type_signed t Ht) as [E|E], (int_type_signed t' Ht') as [E'|E']; rewrite E, E';
    cbn -[Z.ltb]; try done.
  - zif. unfold fits. rewrite E'. cbn -[Z.pow]. lia.
  - unfold INT64_MAX. zif. unfold fits. rewrite E'.
    assert (Hw : width (storage_of t') <= 8 /\ 0 <= width (storage_of t'))
      by (int_cases Ht'; vm_compute; split; discriminate).
    pose proof (Z.pow_le_mono_r 2 (8 * width (storage_of t') - 1) 63). cbn -[Z.pow]. lia.
Qed.

(** The range test of one destination. *)
Lemma store_range lo hi n t v (old : bytes) :
  (fits t v <-> lo <= v <= hi) -> Z.of_nat n <= zlen old ->
  let r := if (v <? lo) || (hi <? v) then Some (false, Some (DBytes old))
           else d ← wr_dest (le_bytes n v) (Some (DBytes old)); Some (true, d) in
  (fits t v -> r = Some (true, Some (DBytes (le_bytes n v ++ drop n old)))) /\
  (~ fits t v -> r = Some (false, Some (DBytes old))).
Proof.
  intros Hf Hl r. unfold r. rewrite Hf. split; intros H.
  - replace ((v <? lo) || (hi <? v)) with false by lia.
    rewrite wr_dest_bytes by (by rewrite zlen_le_bytes). by rewrite le_bytes_length.
  - by replace ((v <? lo) || (hi <? v)) with true by lia.
Qed.

Lemma store_any n t v (old : bytes) :
  fits t v -> Z.of_nat n <= zlen old ->
  let r := d ← wr_dest (le_bytes n v) (Some (DBytes old)); Some (true, d) in
  (fits t v -> r = Some (true, Some (DBytes (le_bytes n v ++ drop n old)))) /\
  (~ fits t v -> r = Some (false, Some (DBytes old))).
Proof.
  intros Hf Hl r. unfold r. split; intros H; [|done].
  rewrite wr_dest_bytes by (by rewrite zlen_le_bytes). by rewrite le_bytes_length.
Qed.

Lemma fits_range64 t z :
  In t int_types -> fits t z ->
  if int_type t =? BINN_SIGNED_INT then - 2 ^ 63 <= z < 2 ^ 63 else 0 <= z < 2 ^ 64.
Proof.
  intros Ht. unfold fits. int_cases Ht; storage_eval; cbn -[Z.pow]; pow_eval; lia.
Qed.

(** A number that was not refused fits the two 64-bit types. *)
Lemma carried_wide t t' z p :
  In t int_types -> fits t z -> carried t t' z = Some p -> t' = BINN_INT64 \/ t' = BINN_UINT64 ->
  fits t' z.
Proof.
  intros Ht Hf%fits_range64 Hc Ht'; [|done]. revert Hc. unfold carried, INT64_MAX.
  destruct (int_type_signed t Ht) as [E|E]; rewrite E in *; destruct Ht' as [-> | ->];
    unfold fits; storage_eval; cbn -[Z.pow Z.ltb] in *; pow_eval; try zif; intros; try done;
    change (2 ^ 63) with 9223372036854775808 in *; change (2 ^ 64) with 18446744073709551616 in *;
    lia.
Qed.

Lemma copy_int_value_ok buf o t t' d (old : bytes) :
  In t int_types -> In t' int_types -> all_bytes d ->
  slice buf o (width (storage_of t)) = Some d -> width (storage_of t') <= zlen old ->
  let z := int_value t d in
  let n := Z.to_nat (width (storage_of t')) in
  let r := copy_int_value (Some (buf, o)) (Some (DBytes old)) t t' in
  (fits t' z -> r = Some (true, Some (DBytes (le_bytes n z ++ drop n old)))) /\
  (~ fits t' z -> r = Some (false, Some (DBytes old))).
Proof.
  intros Ht Ht' Hb Hd Hl z n r.
  assert (Hw : zlen d = width (storage_of t)).
  { unfold slice in Hd. destruct (_ || _) eqn:E; [done|]. injection Hd as <-. zbool.
    unfold zlen in *. rewrite length_take, length_drop. lia. }
  assert (Hf : fits t z) by (unfold z; rewrite int_value_wrap by done; by apply wrap_fits).
  pose proof (carried_spec t t' z Ht Ht') as Hc. pose proof (carried_wide t t' z) as Hwide.
  unfold r, copy_int_value. rewrite (load_int_value buf o t d) by done. fold z.
  cbn [mbind option_bind]. unfold carried in Hc, Hwide.
  destruct (if int_type t =? BINN_SIGNED_INT then (z, 0) else (0, z)) as [vi0 vu0].
  match type of Hc with match ?c with _ => _ end => destruct c as [[vi vu]|] eqn:Ec end;
    [|by split].
  specialize (Hwide _ Ht Hf eq_refl). clear Ec. unfold n. clear n r.
  int_cases Ht'; revert Hl; storage_eval; cbn in Hc; rewrite Hc;
    cbn -[le_bytes wr_dest zlen drop Z.ltb fits]; intros Hl;
    change (Z.to_nat 1) with 1%nat; change (Z.to_nat 2) with 2%nat;
    change (Z.to_nat 4) with 4%nat; change (Z.to_nat 8) with 8%nat;
    first [ apply store_range; [unfold fits; storage_eval; cbn -[Z.pow]; pow_eval; lia | done]
          | apply store_any; [apply Hwide; auto | done] ].
Qed.

(** * How far the walk reads *)

Lemma znth_read (buf : bytes) p plimit :
  0 <= p <= plimit -> plimit < zlen buf -> exists x, znth buf p = Some x.
Proof. intros. apply znth_in_range. lia. Qed.

Lemma rd_be32_read (buf : bytes) p plimit :
  0 <= p -> p + 3 <= plimit -> plimit < zlen buf -> exists x, rd_be32 buf p = Some x.
Proof.
  intros. destruct (split_at buf p 4) as (pre & d & post & -> & <- & Hd); [lia..|].
  rewrite rd_be32_mid by done. eauto.
Qed.

Lemma land_31_nonneg x : 0 <= x .& 0x7FFFFFFF.
Proof. apply Z.land_nonneg. right. lia. Qed.

(** The length field stays within the limit and is not negative. *)
Lemma data_size_safe (buf : bytes) p plimit :
  0 <= p -> plimit < zlen buf -> all_bytes buf ->
  exists r, data_size buf p plimit = Some r /\
    match r with Some (n, w) => 0 <= n /\ 1 <= w | None => True end.
Proof.
  intros Hp Hl Hb. unfold data_size. zif; [by exists None|].
  destruct (znth_read buf p plimit) as [x Hx]; [lia..|]. rewrite Hx. cbn [mbind option_bind].
  assert (is_byte x) by (apply znth_Some in Hx as [_ Hx]; by eapply Forall_lookup_1 in Hx).
  destruct (x .& 0x80 =? 0); [eexists; split; [done|unfold is_byte in *; lia]|].
  zif; [by exists None|]. destruct (rd_be32_read buf p plimit) as [y ->]; [lia..|]. cbn [mbind option_bind].
  eexists. split; [done|]. split; [apply land_31_nonneg|lia].
Qed.

(** With the limit inside the buffer the walk never reads outside it, and what
    it returns is within the limit and not before the value. *)
Lemma AdvanceDataPos_safe_gen (buf : bytes) p plimit :
  0 <= p -> plimit < zlen buf -> all_bytes buf ->
  exists r, AdvanceDataPos buf p plimit = Some r /\
    match r with Some q => p <= q <= plimit | None => True end.
Proof.
  intros Hp Hl Hb. unfold AdvanceDataPos. zif; [by exists None|].
  destruct (znth_read buf p plimit) as [x ->]; [lia..|]. cbn [mbind option_bind].
  set (p1 := if x .& BINN_STORAGE_HAS_MORE =? 0 then p + 1 else p + 1 + 1).
  assert (Hp1 : p + 1 <= p1) by (unfold p1; destruct (_ =? 0); lia). clearbody p1.
  assert (Hfin : forall q, p <= q -> exists r, (if plimit <? q then Some None else Some (Some q)) = Some r /\
    match r with Some q => p <= q <= plimit | None => True end)
    by (intros q Hq; zif; [by exists None|]; exists (Some q); split; [done|lia]).
  destruct (data_size_safe buf p1 plimit) as (s & -> & Hs); [lia|done..|].
  generalize (x .& BINN_STORAGE_MASK). intros st.
  destruct (st =? BINN_STORAGE_NOBYTES); [apply Hfin; lia|].
  destruct (st =? BINN_STORAGE_BYTE); [apply Hfin; lia|].
  destruct (st =? BINN_STORAGE_WORD); [apply Hfin; lia|].
  destruct (st =? BINN_STORAGE_DWORD); [apply Hfin; lia|].
  destruct (st =? BINN_STORAGE_QWORD); [apply Hfin; lia|].
  destruct s as [[n w]|]; cbn [mbind option_bind].
  - destruct (_ || _); [apply Hfin; destruct (_ =? _); lia|].
    destruct (st =? BINN_STORAGE_CONTAINER); [apply Hfin; lia|by exists None].
  - destruct (_ || _); [by exists None|]. destruct (_ =? _); by exists None.
Qed.
