(* ===== verification/BinnText.v ===== *)
(** Binn values read in another type: [binn_get_int32], [binn_get_int64],
    [binn_get_double], [binn_get_bool] and [binn_get_str] of src/pus/lib/binn/binn.c,
    and the round trip of the integers through text.

    [atof], [atoi] and [%g] belong to the kernel library and are parameters, and so is
    [strdup], which gives a block or NULL. *)
From Stdlib Require Import SpecFloat Ascii String.
From S2P Require Import Prelude CMem CText Digits BinnFormat BinnItem BinnApi BinnCodec BinnStore BinnConvert.

Class BinnTextLib := {
  lib_atof : bytes -> spec_float;
  lib_atoi : bytes -> Z;
  show_g : spec_float -> bytes;
  lib_strdup : bytes -> option bytes }.

(** * Doubles *)

Definition dbl (prec emax : Z) (z : Z) : spec_float := binary_normalize prec emax z 0 false.
Definition half : spec_float := SFdiv 53 1024 (dbl 53 1024 1) (dbl 53 1024 2).
Definition lt_d (x y : spec_float) : bool := match SFcompare x y with Some Lt => true | _ => false end.
Definition ge_d (x y : spec_float) : bool := match SFcompare x y with Some Gt | Some Eq => true | _ => false end.
Definition le_d (x y : spec_float) : bool := match SFcompare x y with Some Lt | Some Eq => true | _ => false end.

(** [(int)d]: towards zero, undefined out of range. *)
Definition d_to_int (d : spec_float) : option Z :=
  let int z := if (-2147483648 <=? z) && (z <=? 2147483647) then Some z else None in
  match d with
  | S754_zero _ => Some 0
  | S754_finite s m e =>
      let a := if 0 <=? e then Z.pos m * 2 ^ e else Z.pos m / 2 ^ (- e) in
      int (if s then - a else a)
  | _ => None
  end.

(** [roundval] *)
Definition roundval (d : spec_float) : option Z :=
  if ge_d d (dbl 53 1024 0) then d_to_int (SFadd 53 1024 d half)
  else
    i ← d_to_int d;
    if le_d (SFsub 53 1024 d (dbl 53 1024 i)) (SFopp half) then d_to_int d
    else d_to_int (SFsub 53 1024 d half).

(** * The members of the value's union *)

Definition vfloat (b : binn) : spec_float := sf_of_bits 23 8 (le_val (take 4 (vunion b))).
Definition vdouble (b : binn) : spec_float := sf_of_bits 52 11 (le_val (vunion b)).
Definition vbool (b : binn) : Z := s32 (le_val (take 4 (vunion b))).
(** A float used as a double. *)
Definition widened (f : spec_float) : spec_float := sf_round 53 1024 f.

(** The memory at [value->ptr], up to the end of its object. *)
Definition text_at (b : binn) : option bytes :=
  match deref b (ptr b) with Some (buf, o) => Some (drop (Z.to_nat o) buf) | None => None end.
(** [(T)value->ptr] copied to an [int64]. *)
Definition int_as (n : nat) (dest_type : Z) (b : binn) : option (option Z) :=
  '(ok, d) ← copy_int_value (deref b (ptr b)) (Some (DBytes (repeat 0 n))) (type b) dest_type;
  match d with
  | Some (DBytes bs) => Some (if ok : bool then Some (if dest_type =? BINN_INT32 then s32 (le_val bs) else s64 (le_val bs)) else None)
  | _ => None
  end.

Section text.
Context `{BinnTextLib}.

Definition s_true := str_of "true".
Definition s_yes := str_of "yes".
Definition s_on := str_of "on".
Definition s_false := str_of "false".
Definition s_no := str_of "no".
Definition s_off := str_of "off".
Definition one_of (s : bytes) (l : list bytes) : bool := existsb (fun x => strcmp s x =? 0) l.

(** [is_bool_str]: outer [None] is undefined, inner [None] is FALSE. *)
Definition is_bool_str (str : option bytes) : option (option Z) :=
  match str with
  | None => Some None
  | Some str =>
      s ← c_string str 0;
      if one_of s [s_true; s_yes; s_on] then Some (Some 1)
      else if one_of s [s_false; s_no; s_off] then Some (Some 0)
      else
        i ← is_integer (Some str);
        if i : bool then vint ← atoi64 str; Some (Some (if vint =? 0 then 0 else 1))
        else
          f ← is_float (Some str);
          if f : bool then
            let v := lib_atof s in
            Some (Some (match SFcompare v (dbl 53 1024 0) with Some Eq => 0 | _ => 1 end))
          else Some None
  end.

(** The three ways a string is read as a number. *)
Definition number_of {A} (str : option bytes) (whole : bytes -> option A) (real : spec_float -> option A) : option (option A) :=
  i ← is_integer str;
  if i : bool then s ← str; x ← whole s; Some (Some x)
  else
    f ← is_float str;
    if f : bool then s ← str; t ← c_string s 0; x ← real (lib_atof t); Some (Some x) else Some None.

(** Limits of an integer type, as the comparison converts them. *)
Definition in_limits (prec emax lo hi : Z) (f : spec_float) : bool :=
  negb (lt_d f (dbl prec emax lo) || lt_d (dbl prec emax hi) f).

Definition binn_get_int32 (value : option binn) (pint : bool) : option (option Z) :=
  match value, pint with
  | Some b, true =>
      if type_family (type b) =? BINN_FAMILY_INT then int_as 4 BINN_INT32 b
      else if type b =? BINN_FLOAT32 then
        if in_limits 24 128 (-2147483648) 2147483647 (vfloat b) then x ← roundval (widened (vfloat b)); Some (Some x) else Some None
      else if type b =? BINN_FLOAT64 then
        if in_limits 53 1024 (-2147483648) 2147483647 (vdouble b) then x ← roundval (vdouble b); Some (Some x) else Some None
      else if type b =? BINN_STRING then
        number_of (text_at b) (fun s => t ← c_string s 0; Some (lib_atoi t)) roundval
      else if type b =? BINN_BOOL then Some (Some (vbool b))
      else Some None
  | _, _ => Some None
  end.

Definition binn_get_int64 (value : option binn) (pint : bool) : option (option Z) :=
  match value, pint with
  | Some b, true =>
      if type_family (type b) =? BINN_FAMILY_INT then int_as 8 BINN_INT64 b
      else if type b =? BINN_FLOAT32 then
        if in_limits 24 128 (-9223372036854775808) INT64_MAX (vfloat b) then x ← roundval (widened (vfloat b)); Some (Some x) else Some None
      else if type b =? BINN_FLOAT64 then
        if in_limits 53 1024 (-9223372036854775808) INT64_MAX (vdouble b) then x ← roundval (vdouble b); Some (Some x) else Some None
      else if type b =? BINN_STRING then number_of (text_at b) atoi64 roundval
      else if type b =? BINN_BOOL then Some (Some (vbool b))
      else Some None
  | _, _ => Some None
  end.

Definition binn_get_double (value : option binn) (pfloat : bool) : option (option spec_float) :=
  match value, pfloat with
  | Some b, true =>
      if type_family (type b) =? BINN_FAMILY_INT then
        r ← int_as 8 BINN_INT64 b;
        Some (match r with Some vint => Some (dbl 53 1024 vint) | None => None end)
      else if type b =? BINN_FLOAT32 then Some (Some (widened (vfloat b)))
      else if type b =? BINN_FLOAT64 then Some (Some (vdouble b))
      else if type b =? BINN_STRING then
        number_of (text_at b) (fun s => i ← atoi64 s; Some (dbl 53 1024 i)) Some
      else if type b =? BINN_BOOL then Some (Some (dbl 53 1024 (vbool b)))
      else Some None
  | _, _ => Some None
  end.

(** [x != 0] is true of NaN. *)
Definition nonzero (x : spec_float) : Z := match SFcompare x (dbl 53 1024 0) with Some Eq => 0 | _ => 1 end.
Definition binn_get_bool (value : option binn) (pbool : bool) : option (option Z) :=
  match value, pbool with
  | Some b, true =>
      if type_family (type b) =? BINN_FAMILY_INT then
        r ← int_as 8 BINN_INT64 b;
        Some (match r with Some vint => Some (if vint =? 0 then 0 else 1) | None => None end)
      else if type b =? BINN_BOOL then Some (Some (vbool b))
      else if type b =? BINN_FLOAT32 then Some (Some (nonzero (widened (vfloat b))))
      else if type b =? BINN_FLOAT64 then Some (Some (nonzero (vdouble b)))
      else if type b =? BINN_STRING then is_bool_str (text_at b)
      else Some None
  | _, _ => Some None
  end.

(** The label [loc_convert_value], with the 128 bytes of [buf]. *)
Definition convert_value (b : binn) (buf : bytes) : option (bview * binn) :=
  if zlen buf <? 128 then
    match lib_strdup (buf ++ [0]) with
    | None => Some (None, with_ptr PNull b)
    | Some d => Some (Some (d, 0), with_type BINN_STRING (with_freefn FnFree (with_ptr (PBuf d 0) b)))
    end
  else None.

(** The pointer returned and the value afterwards. [snprintf] cuts its text off. *)
Definition binn_get_str (value : option binn) : option (bview * option binn) :=
  match value with
  | None => Some (None, None)
  | Some b =>
      if type_family (type b) =? BINN_FAMILY_INT then
        r ← int_as 8 BINN_INT64 b;
        match r with
        | None => Some (None, Some b)
        | Some vint => '(p, b) ← convert_value b (take 127 (show_lli vint)); Some (p, Some b)
        end
      else if type b =? BINN_FLOAT32 then
        let b := with_vunion (le_bytes 8 (float_to_double (le_val (take 4 (vunion b))))) b in
        '(p, b) ← convert_value b (take 127 (show_g (vdouble b))); Some (p, Some b)
      else if type b =? BINN_FLOAT64 then
        '(p, b) ← convert_value b (take 127 (show_g (vdouble b))); Some (p, Some b)
      else if type b =? BINN_STRING then Some (deref b (ptr b), Some b)
      else if type b =? BINN_BOOL then
        '(p, b) ← convert_value b (if vbool b =? 0 then s_false else s_true); Some (p, Some b)
      else Some (None, Some b)
  end.
End text.

Definition binn_version : bytes := str_of "3.0.0".

(** * Integers through text *)

Lemma all_digits_spec s rest : Forall digit s -> all_digits (s ++ 0 :: rest) true = Some true.
Proof.
  induction 1 as [|c s Hc _ IH]; [done|]. cbn [app all_digits]. unfold digit in Hc. rewrite (proj2 (Z.eqb_neq c 0)) by lia.
  rewrite (proj2 (Z.ltb_ge c 48)), (proj2 (Z.ltb_ge 57 c)) by lia. exact IH.
Qed.

Lemma digits_fold_ge s : Forall digit s -> forall r, 0 <= r -> r <= foldl (fun a c => a * 10 + (c - 48)) r s.
Proof.
  induction 1 as [|c s Hc _ IH]; intros r Hr; cbn [foldl]; [lia|]. unfold digit in Hc. specialize (IH (r * 10 + (c - 48)) ltac:(lia)). lia.
Qed.

(** The loop of [atoi64] computes the value of the digits, or overflows. *)
Lemma atoi64_loop_spec s rest : Forall digit s -> forall r, 0 <= r < 2 ^ 63 ->
  atoi64_loop (s ++ 0 :: rest) r =
  let v := foldl (fun a c => a * 10 + (c - 48)) r s in if v <? 2 ^ 63 then Some v else None.
Proof.
  induction 1 as [|c s Hc Hs IH]; intros r Hr; cbn [app atoi64_loop foldl].
  - cbn. by rewrite (proj2 (Z.ltb_lt _ _)) by (cbn in Hr; lia).
  - unfold digit in Hc. rewrite (proj2 (Z.eqb_neq c 0)) by lia. pose proof (digits_fold_ge s Hs (r * 10 + (c - 48)) ltac:(lia)) as Hge.
    unfold add64. rewrite (proj2 (Z.leb_le _ (10 * r))) by lia. cbn [andb]. destruct (10 * r <? 9223372036854775808) eqn:E1.
    + cbn [mbind option_bind]. rewrite (proj2 (Z.leb_le _ (10 * r + (c - 48)))) by lia. cbn [andb].
      replace (10 * r + (c - 48)) with (r * 10 + (c - 48)) in * by lia. destruct (r * 10 + (c - 48) <? 9223372036854775808) eqn:E2.
      * cbn [mbind option_bind]. apply IH. lia.
      * cbn. rewrite (proj2 (Z.ltb_ge _ _)); [done|]. change (2 ^ 63) with 9223372036854775808. lia.
    + cbn [mbind option_bind]. rewrite (proj2 (Z.ltb_ge _ (2 ^ 63))); [done|]. change (2 ^ 63) with 9223372036854775808. lia.
Qed.

(** The text of a number is an integer, and is read back; but for the smallest, whose
    digits alone are one too many. *)
Lemma show_lli_read z rest : - 2 ^ 63 <= z < 2 ^ 63 ->
  is_integer (Some (show_lli z ++ 0 :: rest)) = Some true /\
  atoi64 (show_lli z ++ 0 :: rest) = if z =? - 2 ^ 63 then None else Some z.
Proof.
  intros Hz. unfold show_lli. change (2 ^ 63) with 9223372036854775808 in *. destruct (z <? 0) eqn:E.
  - destruct (digits_10 (- z) 19 ltac:(lia)) as [Hd Hv]. pose proof (digits_nonempty 10 19 (- z) ltac:(lia)) as Hne. set (s := digits_of 10 19 (- z)) in *.
    assert (Hz0 : exists c, znth (s ++ 0 :: rest) 0 = Some c /\ c <> 0).
    { destruct s as [|c s']; [done|]. exists c. split; [done|]. apply Forall_cons_1 in Hd as [Hc _]. unfold digit in Hc. lia. }
    destruct Hz0 as (c & Hc & Hc0). split.
    + unfold is_integer. change (znth ((45 :: s) ++ 0 :: rest) 0) with (Some 45). cbn [mbind option_bind]. change (45 =? 45) with true. cbv iota. change (drop 1 ((45 :: s) ++ 0 :: rest)) with (s ++ 0 :: rest).
      rewrite Hc. cbn [mbind option_bind]. rewrite (proj2 (Z.eqb_neq c 0)) by done. by apply all_digits_spec.
    + unfold atoi64. change (znth ((45 :: s) ++ 0 :: rest) 0) with (Some 45). cbn [mbind option_bind]. change (45 =? 45) with true. cbv iota. change (drop 1 ((45 :: s) ++ 0 :: rest)) with (s ++ 0 :: rest).
      rewrite atoi64_loop_spec by (done || (cbn; lia)). cbn zeta. change (foldl _ 0 s) with (digits_value s). rewrite Hv.
      change (2 ^ 63) with 9223372036854775808. destruct (- z <? 9223372036854775808) eqn:E1.
      * cbn [mbind option_bind]. unfold add64. rewrite (proj2 (Z.leb_le _ (- - z))), (proj2 (Z.ltb_lt (- - z) _)) by lia. cbn [andb].
        rewrite (proj2 (Z.eqb_neq z _)) by lia. f_equal. lia.
      * rewrite (proj2 (Z.eqb_eq z _)) by lia. done.
  - destruct (digits_10 z 19 ltac:(lia)) as [Hd Hv]. pose proof (digits_nonempty 10 19 z ltac:(lia)) as Hne. set (s := digits_of 10 19 z) in *.
    assert (Hz0 : exists c, znth (s ++ 0 :: rest) 0 = Some c /\ c <> 0 /\ c <> 45).
    { destruct s as [|c s']; [done|]. exists c. split; [done|]. apply Forall_cons_1 in Hd as [Hc _]. unfold digit in Hc. lia. }
    destruct Hz0 as (c & Hc & Hc0 & Hc45). split.
    + unfold is_integer. rewrite Hc. cbn [mbind option_bind]. rewrite (proj2 (Z.eqb_neq c 45)) by done. rewrite Hc. cbn [mbind option_bind].
      rewrite (proj2 (Z.eqb_neq c 0)) by done. by apply all_digits_spec.
    + unfold atoi64. rewrite Hc. cbn [mbind option_bind]. rewrite (proj2 (Z.eqb_neq c 45)) by done.
      rewrite atoi64_loop_spec by (done || (cbn; lia)). cbn zeta. change (foldl _ 0 s) with (digits_value s). rewrite Hv.
      change (2 ^ 63) with 9223372036854775808. rewrite (proj2 (Z.ltb_lt z _)) by lia. cbn [mbind option_bind]. by rewrite (proj2 (Z.eqb_neq z _)) by lia.
Qed.

(** An integer value as an [int64]. *)
Lemma int_as_64 b buf o t d : type b = t -> In t int_types -> deref b (ptr b) = Some (buf, o) ->
  slice buf o (width (storage_of t)) = Some d -> all_bytes d ->
  let z := int_value t d in
  (- 2 ^ 63 <= z < 2 ^ 63 -> int_as 8 BINN_INT64 b = Some (Some z)) /\ (~ (- 2 ^ 63 <= z < 2 ^ 63) -> int_as 8 BINN_INT64 b = Some None).
Proof.
  intros Ht Hin Hp Hs Hd z. unfold int_as. rewrite Hp, Ht.
  destruct (copy_int_value_ok buf o t BINN_INT64 d (repeat 0 8) Hin ltac:(cbn; tauto) Hd Hs ltac:(vm_compute; discriminate)) as [H1 H2].
  fold z in H1, H2. change (fits BINN_INT64 z) with (- 2 ^ 63 <= z < 2 ^ 63) in H1, H2. split; intros Hz.
  - rewrite (H1 Hz). change (Z.to_nat (width (storage_of BINN_INT64))) with 8%nat. cbn [mbind option_bind]. change (drop 8 (repeat 0 8)) with (@nil Z).
    rewrite app_nil_r, le_val_bytes. change (BINN_INT64 =? BINN_INT32) with false. cbn iota. f_equal. f_equal. change (256 ^ Z.of_nat 8) with 18446744073709551616.
    change (2 ^ 63) with 9223372036854775808 in Hz. unfold s64. rewrite Zplus_mod_idemp_l, Z.mod_small by lia. lia.
  - by rewrite (H2 Hz).
Qed.

Lemma show_lli_length z : zlen (show_lli z) <= 20.
Proof.
  unfold show_lli. destruct (z <? 0).
  - rewrite zlen_cons. pose proof (digits_length 10 19 (- z) ltac:(lia)). unfold zlen. lia.
  - pose proof (digits_length 10 19 z ltac:(lia)). unfold zlen. lia.
Qed.

(** What [binn_get_str] does with a value that is an [int64]. *)
Lemma int_text `{BinnTextLib} b z : (type_family (type b) =? BINN_FAMILY_INT) = true -> int_as 8 BINN_INT64 b = Some (Some z) ->
  binn_get_str (Some b) =
  match lib_strdup (show_lli z ++ [0]) with
  | None => Some (None, Some (with_ptr PNull b))
  | Some s => Some (Some (s, 0), Some (with_type BINN_STRING (with_freefn FnFree (with_ptr (PBuf s 0) b))))
  end.
Proof.
  intros Hfam Hz. unfold binn_get_str. rewrite Hfam, Hz. cbn [mbind option_bind]. pose proof (show_lli_length z) as Hl.
  rewrite take_ge by (unfold zlen in Hl; lia). unfold convert_value. rewrite (proj2 (Z.ltb_lt _ 128)) by lia. by destruct (lib_strdup _).
Qed.

(** Reading the text of a number as an integer. *)
Lemma text_int `{BinnTextLib} b z : - 2 ^ 63 <= z < 2 ^ 63 ->
  binn_get_int64 (Some (with_type BINN_STRING (with_freefn FnFree (with_ptr (PBuf (show_lli z ++ [0]) 0) b)))) true =
  (if z =? - 2 ^ 63 then None else Some (Some z)).
Proof.
  intros Hz. destruct (show_lli_read z [] Hz) as [Hi Ha]. unfold binn_get_int64. cbn [type with_type with_freefn with_ptr].
  change (BINN_STRING =? BINN_FLOAT32) with false. change (BINN_STRING =? BINN_FLOAT64) with false. change (BINN_STRING =? BINN_STRING) with true.
  change (type_family BINN_STRING =? BINN_FAMILY_INT) with false. cbv iota. unfold number_of, text_at. cbn [ptr deref with_type with_freefn with_ptr].
  change (drop (Z.to_nat 0) (show_lli z ++ [0])) with (show_lli z ++ [0]). rewrite Hi. cbn [mbind option_bind]. rewrite Ha.
  by destruct (z =? - 2 ^ 63).
Qed.

Lemma int_value_ge t d : all_bytes d -> ~ (- 2 ^ 63 <= int_value t d < 2 ^ 63) -> 2 ^ 63 <= int_value t d.
Proof.
  intros Hd Hz. assert (- 2 ^ 63 <= int_value t d); [|lia]. unfold int_value. pose proof (le_val_range d Hd).
  repeat case_match; unfold s8, s16, s32, s64; lia.
Qed.

(** C31: a value of any integer type read as a string.  A number that is an [int64]
    becomes its decimal text, the value becomes that string, and reading it as an
    integer gives the number back; only the smallest [int64] overflows on its way back.
    When [strdup] has no memory the result is NULL and the value is left with a NULL
    pointer under its integer type.  An unsigned number beyond [int64] has no text and
    leaves the value as it was. *)
Theorem binn_get_str_roundtrip `{BinnTextLib} b buf o t d : (forall s s', lib_strdup s = Some s' -> s' = s) ->
  type b = t -> In t int_types -> deref b (ptr b) = Some (buf, o) -> slice buf o (width (storage_of t)) = Some d -> all_bytes d ->
  let z := int_value t d in
  (- 2 ^ 63 <= z < 2 ^ 63 /\ lib_strdup (show_lli z ++ [0]) <> None /\
     exists b', binn_get_str (Some b) = Some (Some (show_lli z ++ [0], 0), Some b') /\ type b' = BINN_STRING /\
     binn_get_str (Some b') = Some (Some (show_lli z ++ [0], 0), Some b') /\
     binn_get_int64 (Some b') true = (if z =? - 2 ^ 63 then None else Some (Some z))) \/
  (- 2 ^ 63 <= z < 2 ^ 63 /\ lib_strdup (show_lli z ++ [0]) = None /\
     binn_get_str (Some b) = Some (None, Some (with_ptr PNull b))) \/
  (2 ^ 63 <= z /\ binn_get_str (Some b) = Some (None, Some b)).
Proof.
  intros Hdup Ht Hin Hp Hs Hd z. destruct (int_as_64 b buf o t d Ht Hin Hp Hs Hd) as [H1 H2]. fold z in H1, H2.
  assert (Hfam : (type_family (type b) =? BINN_FAMILY_INT) = true).
  { rewrite Ht. clear -Hin. cbn in Hin. intuition (subst; reflexivity). }
  destruct (decide (- 2 ^ 63 <= z < 2 ^ 63)) as [Hz|Hz].
  - pose proof (int_text b z Hfam (H1 Hz)) as E. destruct (lib_strdup (show_lli z ++ [0])) as [s'|] eqn:Es.
    + left. split; [done|]. split; [done|]. apply Hdup in Es as ->. eexists. split; [exact E|]. split; [done|]. split; [done|]. by apply text_int.
    + right. left. done.
  - right. right. split; [by apply (int_value_ge t d)|]. unfold binn_get_str. by rewrite Hfam, (H2 Hz).
Qed.

(** Three hundred below zero, in a value of its own. *)
Definition demo_text : BinnTextLib := {|
  lib_atof _ := dbl 53 1024 0; lib_atoi _ := 0; show_g _ := [48]; lib_strdup s := Some s |}.
Definition minus_300 : binn := with_type BINN_INT32 (with_ptr PSelf (with_vunion (le_bytes 8 (-300)) zero_binn)).

Example binn_get_str_roundtrip_witness :
  let z := int_value BINN_INT32 (take 4 (le_bytes 8 (-300))) in
  z = -300 /\
  ((- 2 ^ 63 <= z < 2 ^ 63 /\ Some (show_lli z ++ [0]) <> None /\
     exists b', binn_get_str (H := demo_text) (Some minus_300) = Some (Some (show_lli z ++ [0], 0), Some b') /\ type b' = BINN_STRING /\
     binn_get_str (H := demo_text) (Some b') = Some (Some (show_lli z ++ [0], 0), Some b') /\
     binn_get_int64 (H := demo_text) (Some b') true = (if z =? - 2 ^ 63 then None else Some (Some z))) \/
   (- 2 ^ 63 <= z < 2 ^ 63 /\ Some (show_lli z ++ [0]) = None /\
     binn_get_str (H := demo_text) (Some minus_300) = Some (None, Some (with_ptr PNull minus_300))) \/
   (2 ^ 63 <= z /\ binn_get_str (H := demo_text) (Some minus_300) = Some (None, Some minus_300))).
Proof.
  split; [reflexivity|].
  apply (binn_get_str_roundtrip (H := demo_text) minus_300 (le_bytes 8 (-300)) 0 BINN_INT32 (take 4 (le_bytes 8 (-300)))).
  - intros s s' E. injection E as <-. reflexivity.
  - reflexivity.
  - vm_compute. tauto.
  - reflexivity.
  - reflexivity.
  - repeat constructor; vm_compute; congruence.
Defined.

(** * Edges *)

(** [-1.75] is rounded to [-1], [1.75] to [2]. *)
Definition quarters (n : Z) : spec_float := SFdiv 53 1024 (dbl 53 1024 n) (dbl 53 1024 4).
Example roundval_negative : roundval (quarters 7) = Some 2 /\ roundval (quarters (-7)) = Some (-1) /\ roundval (quarters (-5)) = Some (-1).
Proof. vm_compute. done. Qed.

(** The limit of [int] is not a [float]: [2147483648.0f] passes the test and its
    conversion is undefined. *)
Definition float_2_31 : binn := with_type BINN_FLOAT32 (with_vunion (le_bytes 8 0x4F000000) zero_binn).
Example float_limit_passes : vfloat float_2_31 = dbl 24 128 2147483648 /\ binn_get_int32 (H := demo_text) (Some float_2_31) true = None.
Proof. vm_compute. done. Qed.

(** [binn_get_int64] rounds through [int]: three thousand million is undefined. *)
Definition double_3e9 : binn := with_type BINN_FLOAT64 (with_vunion (le_bytes 8 0x41E65A0BC0000000) zero_binn).
Example int64_of_double : vdouble double_3e9 = dbl 53 1024 3000000000 /\ binn_get_int64 (H := demo_text) (Some double_3e9) true = None.
Proof. vm_compute. done. Qed.
