(* ===== verification/BinnTheorems.v ===== *)
(** The theorems on Binn: safety of the walk over a value, integer compression
    and conversion, the refinement of lists, objects and maps to lists of
    values, and where validation reads too far.  [demo_lib] is a concrete
    allocator and string comparison for the witnesses. *)
From S2P Require Import Prelude CMem BinnFormat BinnItem BinnRead BinnApi BinnCodec BinnStore.
From S2P Require Import BinnSpec BinnId BinnKeyed BinnConvert.

(** * A concrete library *)

Definition demo_lib : BinnLib := {|
  malloc_fn n := Some (replicate (Z.to_nat n) 0xAA);
  realloc_fn old n := Some (take (Z.to_nat n) (old ++ replicate (Z.to_nat n - length old) 0xBB));
  strnicmp a b n := if ci_eq (take (Z.to_nat n) a) (take (Z.to_nat n) b) then 0 else 1;
|}.

Lemma demo_lib_ok : BinnLibOk demo_lib.
Proof.
  constructor; cbn.
  - intros n b Hn [= <-]. unfold zlen. rewrite length_replicate. lia.
  - intros old n b Hn [= <-]. unfold zlen. rewrite length_take, length_app, length_replicate. lia.
  - intros old n b Hn [= <-]. unfold zlen in Hn. rewrite take_take.
    replace (length old `min` Z.to_nat n)%nat with (length old) by lia. apply take_app_length.
  - intros a b n _. by destruct (ci_eq _ _).
Qed.

(** * New containers *)

Lemma binn_new_rep `{L : BinnLib, Lok : !BinnLibOk L} ct sz b :
  isin ct [BINN_LIST; BINN_MAP; BINN_OBJECT] = true -> 9 <= sz < 2147483648 \/ sz = 0 ->
  binn_new ct sz None = Some b -> rep ct [] 0 b /\ disable_int_compression b = false.
Proof.
  intros Hct Hsz. unfold binn_new, binn_create. rewrite Hct. cbn [negb].
  destruct binn_malloc_item; [|done]. replace (sz <? 0) with false by lia.
  rewrite bool_decide_eq_false_2 by (intros [? [=]]). rewrite andb_false_r.
  set (n := if (if sz <? MIN_BINN_SIZE then 0 else sz) =? 0 then CHUNK_SIZE
            else if sz <? MIN_BINN_SIZE then 0 else sz).
  assert (Hn : 9 <= n < 2147483648).
  { unfold n, MIN_BINN_SIZE, CHUNK_SIZE. destruct Hsz as [H| ->]; [|cbn; lia].
    replace (sz <? 3) with false by lia. by replace (sz =? 0) with false by lia. }
  destruct (binn_malloc n) as [p|] eqn:Em; [|done]. intros [= <-].
  pose proof (malloc_len n p ltac:(lia) Em) as Hp.
  destruct (split_at p 0 9) as (nl & hs & rest & -> & Hnl & Hhs); [lia..|].
  apply (zlen_length nl 0) in Hnl. destruct nl; [|discriminate Hnl]. cbn [app] in *.
  split; [|done].
  set (base := with_allocated true (with_dirty true (with_type ct (with_writable true
                 (with_header BINN_MAGIC zero_binn))))).
  apply (Rep _ _ _ _ hs rest base); try done; rewrite ?app_nil_r; try lia.
  - rewrite Hhs. unfold grown. rewrite <- Hp. reflexivity.
  - by left.
Qed.

Definition demo_item (ct : Z) : binn :=
  match binn_new (L := demo_lib) ct 0 None with Some b => b | None => zero_binn end.

Lemma demo_item_rep ct :
  isin ct [BINN_LIST; BINN_MAP; BINN_OBJECT] = true ->
  rep ct [] 0 (demo_item ct) /\ disable_int_compression (demo_item ct) = false.
Proof.
  intros H. apply (binn_new_rep (L := demo_lib) (Lok := demo_lib_ok) ct 0); [done|by right|].
  unfold demo_item, binn_new, binn_create. by rewrite H.
Qed.

(** The demo library never refuses. *)
Lemma demo_never_refused b n : pre_allocated b = false -> ~ lacks_room (L := demo_lib) b n.
Proof. intros Hp [_ [H|(old & s & _ & H)]]; [by rewrite Hp in H|done]. Qed.

(** The [int] -300 as an argument. *)
Lemma demo_input : value_ok BINN_INT32 (le_bytes 4 (-300)) /\
  input BINN_INT32 (Some (le_bytes 4 (-300))) 0 (le_bytes 4 (-300)).
Proof.
  split.
  - apply ok_fixed; [split; [done|reflexivity]|done|apply le_bytes_all|done].
  - by apply (in_fixed _ _ _ _ []).
Qed.

(** * Lists *)

(** C24: adding a value to a writable list either appends exactly that value (an
    integer compressed to the narrowest type that holds it) to what the list
    represents, or returns FALSE and leaves the item as it was; the second
    happens only when the bytes the stored value may need (its data, two for its
    type and, for blobs and strings, four or five more) do not fit what is allocated
    and it is the caller's buffer, or [realloc] gives no larger one; what does not
    fit a caller's buffer is never added. *)
Theorem binn_list_add_raw_refines (L : BinnLib) (Lok : BinnLibOk L) vs b ty pvalue size d :
  list_holds vs b -> value_ok ty d -> input ty pvalue size d -> fits_int (encs vs) d ->
  let room := value_room (stored b ty d) in
  (binn_list_add_raw (Some b) ty pvalue size = Some (false, Some b) /\ lacks_room b room) \/
  (exists b', binn_list_add_raw (Some b) ty pvalue size = Some (true, Some b') /\ fits_fixed b room /\
     list_holds (vs ++ [stored b ty d]) b' /\
     disable_int_compression b' = disable_int_compression b).
Proof. apply list_add_ok. Qed.

Lemma demo_list : list_holds [] (demo_item BINN_LIST).
Proof. split; [by apply (demo_item_rep BINN_LIST)|constructor]. Qed.

Lemma binn_list_add_raw_refines_witness :
  exists b', binn_list_add_raw (L := demo_lib) (Some (demo_item BINN_LIST)) BINN_INT32
    (Some (le_bytes 4 (-300))) 0 = Some (true, Some b') /\
    list_holds [(BINN_INT16, le_bytes 2 (-300))] b'.
Proof.
  destruct demo_input as [Hv Hi].
  destruct (binn_list_add_raw_refines demo_lib demo_lib_ok [] (demo_item BINN_LIST) BINN_INT32
              (Some (le_bytes 4 (-300))) 0 (le_bytes 4 (-300)) demo_list Hv Hi)
    as [[_ H]|(b' & E & _ & H & _)].
  - vm_compute. discriminate.
  - exfalso. revert H. by apply demo_never_refused.
  - exists b'. split; [exact E|exact H].
Defined.

(** C25: reading position [pos] of a list, from 1, gives a value structure that
    denotes the [pos]-th value of what the list represents (its type, size and
    bytes), whether or not the header was written back before; what the list
    represents does not change. *)
Theorem binn_list_get_value_refines vs b pos v :
  list_holds vs b -> zlen (encs vs) <= 1073741000 ->
  1 <= pos -> vs !! Z.to_nat (pos - 1) = Some v ->
  exists b' r, binn_list_get_value (AStruct b) pos true = Some (AStruct b', Some r) /\
    denotes v.1 v.2 r /\ list_holds vs b'.
Proof. apply list_get_ok. Qed.

Lemma binn_list_get_value_refines_witness :
  exists b b' r, binn_list_get_value (AStruct b) 1 true = Some (AStruct b', Some r) /\
    type r = BINN_INT16 /\ holds r (le_bytes 2 (-300)).
Proof.
  destruct demo_input as [Hv Hi].
  destruct (list_add_ok (L := demo_lib) (Lok := demo_lib_ok) [] (demo_item BINN_LIST) BINN_INT32
              (Some (le_bytes 4 (-300))) 0 (le_bytes 4 (-300)) demo_list Hv Hi)
    as [[_ H]|(b & E & _ & H & _)].
  - vm_compute. discriminate.
  - exfalso. revert H. by apply demo_never_refused.
  - destruct (binn_list_get_value_refines _ b 1 (BINN_INT16, le_bytes 2 (-300)) H)
      as (b' & r & Er & Hd & _); [vm_compute; discriminate|lia|reflexivity|].
    exists b, b', r. split; [exact Er|]. destruct Hd as [Ht Hh]. split; [exact Ht|exact Hh].
Defined.

(** * Objects *)

(** C26: setting a key of an object: a key already there in any letter case is
    refused and the item is untouched; a new key appends the entry, or is given
    back with its value and the object represents the same entries as before.  The
    last happens only when the length byte and the key, or these and the bytes the
    stored value may need, do not fit what is allocated and it is the caller's buffer,
    or [realloc] gives no larger one; what does not fit a caller's buffer is never
    added. *)
Theorem binn_object_set_raw_refines (L : BinnLib) (Lok : BinnLibOk L) es b key ty pvalue size d :
  object_holds es b -> key_ok key -> value_ok ty d -> input ty pvalue size d ->
  zlen (chunks key_bytes es) + zlen d <= 1073740000 ->
  let room := 1 + zlen key + value_room (stored b ty d) in
  let r := binn_object_set_raw (Some b) (Some key) ty pvalue size in
  match find_key key es with
  | Some _ => r = Some (false, Some b)
  | None =>
      (exists b', r = Some (false, Some b') /\ object_holds es b' /\
         (lacks_room b (1 + zlen key) \/ lacks_room b room)) \/
      (exists b', r = Some (true, Some b') /\ (fits_fixed b (1 + zlen key) /\ fits_fixed b room) /\
         object_holds (es ++ [(key, stored b ty d)]) b' /\
         disable_int_compression b' = disable_int_compression b)
  end.
Proof. apply object_set_ok. Qed.

Lemma demo_object : object_holds [] (demo_item BINN_OBJECT).
Proof. split; [split|]; [by apply (demo_item_rep BINN_OBJECT)|constructor|constructor]. Qed.

(** The keys "Ab" and "aB". *)
Lemma demo_key_ok : key_ok [65; 98] /\ key_ok [97; 66].
Proof. by repeat (constructor || vm_compute). Qed.

(** An object with the key "Ab", in which "aB" cannot be set. *)
Lemma binn_object_set_raw_refines_witness :
  exists b, object_holds [([65; 98], (BINN_INT16, le_bytes 2 (-300)))] b /\
    binn_object_set_raw (L := demo_lib) (Some b) (Some [97; 66]) BINN_INT32
      (Some (le_bytes 4 (-300))) 0 = Some (false, Some b).
Proof.
  destruct demo_input as [Hv Hi], demo_key_ok as [K1 K2].
  destruct (object_set_ok (L := demo_lib) (Lok := demo_lib_ok) [] (demo_item BINN_OBJECT) [65; 98]
              BINN_INT32 (Some (le_bytes 4 (-300))) 0 (le_bytes 4 (-300)) demo_object K1 Hv Hi)
    as [(b & _ & _ & [H|H])|(b & E & _ & H & _)].
  - vm_compute. discriminate.
  - exfalso. revert H. by apply demo_never_refused.
  - exfalso. revert H. by apply demo_never_refused.
  - exists b. split; [exact H|].
    apply (binn_object_set_raw_refines demo_lib demo_lib_ok _ b [97; 66] BINN_INT32
             (Some (le_bytes 4 (-300))) 0 (le_bytes 4 (-300)) H K2 Hv Hi).
    vm_compute. discriminate.
Defined.

(** C27: reading a key of an object finds the first entry whose key is equal up
    to letter case, and its value, or returns FALSE when there is none; the
    object represents the same entries afterwards. *)
Theorem binn_object_get_value_refines (L : BinnLib) (Lok : BinnLibOk L) es b key :
  object_holds es b -> zlen (chunks key_bytes es) <= 1073741000 -> Forall (fun c => c <> 0) key ->
  exists b' r, binn_object_get_value (AStruct b) (Some key) true = Some (AStruct b', r) /\
    object_holds es b' /\
    match find_key key es with
    | Some (_, e) => exists v, r = Some v /\ denotes e.2.1 e.2.2 v
    | None => r = None
    end.
Proof. apply object_get_ok. Qed.

Lemma binn_object_get_value_refines_witness :
  exists b b' v, object_holds [([65; 98], (BINN_INT16, le_bytes 2 (-300)))] b /\
    binn_object_get_value (L := demo_lib) (AStruct b) (Some [97; 66]) true =
      Some (AStruct b', Some v) /\ type v = BINN_INT16 /\ holds v (le_bytes 2 (-300)).
Proof.
  destruct demo_input as [Hv Hi], demo_key_ok as [K1 K2].
  destruct (object_set_ok (L := demo_lib) (Lok := demo_lib_ok) [] (demo_item BINN_OBJECT) [65; 98]
              BINN_INT32 (Some (le_bytes 4 (-300))) 0 (le_bytes 4 (-300)) demo_object K1 Hv Hi)
    as [(b & _ & _ & [H|H])|(b & E & _ & H & _)].
  - vm_compute. discriminate.
  - exfalso. revert H. by apply demo_never_refused.
  - exfalso. revert H. by apply demo_never_refused.
  - destruct (binn_object_get_value_refines demo_lib demo_lib_ok _ b [97; 66] H)
      as (b' & r & Er & _ & Hr); [vm_compute; discriminate|by apply K2|].
    destruct Hr as (v & -> & Ht & Hh). exists b, b', v.
    split; [exact H|]. split; [exact Er|]. split; [exact Ht|exact Hh].
Defined.

(** * Maps *)

(** C28: setting an id of a map, for every [int] but the smallest: an id already
    there is refused and the item is untouched; a new id appends the entry, or
    is given back with its value and the map represents the same entries as before.
    The last happens only when five bytes for the id, or the id and the bytes the
    stored value may need, do not fit what is allocated and it is the caller's buffer,
    or [realloc] gives no larger one; what does not fit a caller's buffer is never
    added. *)
Theorem binn_map_set_raw_refines (L : BinnLib) (Lok : BinnLibOk L) es b id ty pvalue size d :
  map_holds es b -> id_ok id -> value_ok ty d -> input ty pvalue size d ->
  zlen (chunks id_bytes es) + zlen d <= 1073740000 ->
  let room := zlen (id_bytes id) + value_room (stored b ty d) in
  let r := binn_map_set_raw (Some b) id ty pvalue size in
  match find_id id es with
  | Some _ => r = Some (false, Some b)
  | None =>
      (exists b', r = Some (false, Some b') /\ map_holds es b' /\
         (lacks_room b 5 \/ lacks_room b room)) \/
      (exists b', r = Some (true, Some b') /\ (fits_fixed b 5 /\ fits_fixed b room) /\
         map_holds (es ++ [(id, stored b ty d)]) b' /\
         disable_int_compression b' = disable_int_compression b)
  end.
Proof. apply map_set_ok. Qed.

Lemma demo_map : map_holds [] (demo_item BINN_MAP).
Proof. split; [split|]; [by apply (demo_item_rep BINN_MAP)|constructor|constructor]. Qed.

Lemma demo_id_ok : id_ok (-70000).
Proof. by vm_compute. Qed.

Lemma binn_map_set_raw_refines_witness :
  exists b, binn_map_set_raw (L := demo_lib) (Some (demo_item BINN_MAP)) (-70000) BINN_INT32
      (Some (le_bytes 4 (-300))) 0 = Some (true, Some b) /\
    map_holds [(-70000, (BINN_INT16, le_bytes 2 (-300)))] b.
Proof.
  destruct demo_input as [Hv Hi].
  destruct (binn_map_set_raw_refines demo_lib demo_lib_ok [] (demo_item BINN_MAP) (-70000)
              BINN_INT32 (Some (le_bytes 4 (-300))) 0 (le_bytes 4 (-300)) demo_map demo_id_ok Hv Hi)
    as [(b & _ & _ & [H|H])|(b & E & _ & H & _)].
  - vm_compute. discriminate.
  - exfalso. revert H. by apply demo_never_refused.
  - exfalso. revert H. by apply demo_never_refused.
  - exists b. split; [exact E|exact H].
Defined.

(** C29: reading an id of a map finds the entry of that id and its value,
    whatever the length of the id's encoding, or returns FALSE when there is
    none; the map represents the same entries afterwards. *)
Theorem binn_map_get_value_refines es b id :
  map_holds es b -> zlen (chunks id_bytes es) <= 1073741000 ->
  exists b' r, binn_map_get_value (AStruct b) id true = Some (AStruct b', r) /\
    map_holds es b' /\
    match find_id id es with
    | Some (_, e) => exists v, r = Some v /\ denotes e.2.1 e.2.2 v
    | None => r = None
    end.
Proof. apply map_get_ok. Qed.

Lemma binn_map_get_value_refines_witness :
  exists b b' v, map_holds [(-70000, (BINN_INT16, le_bytes 2 (-300)))] b /\
    binn_map_get_value (AStruct b) (-70000) true = Some (AStruct b', Some v) /\
    type v = BINN_INT16 /\ holds v (le_bytes 2 (-300)).
Proof.
  destruct demo_input as [Hv Hi].
  destruct (map_set_ok (L := demo_lib) (Lok := demo_lib_ok) [] (demo_item BINN_MAP) (-70000)
              BINN_INT32 (Some (le_bytes 4 (-300))) 0 (le_bytes 4 (-300)) demo_map demo_id_ok Hv Hi)
    as [(b & _ & _ & [H|H])|(b & E & _ & H & _)].
  - vm_compute. discriminate.
  - exfalso. revert H. by apply demo_never_refused.
  - exfalso. revert H. by apply demo_never_refused.
  - destruct (binn_map_get_value_refines _ b (-70000) H) as (b' & r & Er & _ & Hr);
      [vm_compute; discriminate|].
    destruct Hr as (v & -> & Ht & Hh). exists b, b', v.
    split; [exact H|]. split; [exact Er|]. split; [exact Ht|exact Hh].
Defined.

(** * Integers *)

(** integer compression keeps the number: of a value of any integer type,
    the low bytes left are the same number at the type chosen, which is the
    narrowest integer type that can hold it. *)
Theorem compress_int_preserves ty (d rest : bytes) :
  In ty int_types -> all_bytes d -> zlen d = width (storage_of ty) ->
  exists ty', compress_int (storage_of ty) ty (d ++ rest) = Some (storage_of ty', ty') /\
    In ty' int_types /\ width (storage_of ty') <= width (storage_of ty) /\
    int_value ty' (take (Z.to_nat (width (storage_of ty'))) d) = int_value ty d /\
    (forall t, In t int_types -> width (storage_of t) < width (storage_of ty') ->
      ~ fits t (int_value ty d)).
Proof. apply compress_int_sound. Qed.

Lemma compress_int_preserves_witness :
  exists ty', compress_int (storage_of BINN_INT64) BINN_INT64 (le_bytes 8 (-129) ++ []) =
    Some (storage_of ty', ty') /\
    int_value ty' (take (Z.to_nat (width (storage_of ty'))) (le_bytes 8 (-129))) = -129.
Proof.
  destruct (compress_int_preserves BINN_INT64 (le_bytes 8 (-129)) []) as (t & E & _ & _ & H & _);
    [cbn; tauto|apply le_bytes_all|reflexivity|].
  exists t. split; [exact E|]. rewrite H. reflexivity.
Defined.

(** C30: converting between any two of the eight integer types stores the number
    in the destination, in its width and nothing beyond, exactly when the
    destination type can hold it, and otherwise returns FALSE and writes nothing. *)
Theorem copy_int_value_exact buf o t t' d (old : bytes) :
  In t int_types -> In t' int_types -> all_bytes d ->
  slice buf o (width (storage_of t)) = Some d -> width (storage_of t') <= zlen old ->
  let z := int_value t d in
  let n := Z.to_nat (width (storage_of t')) in
  let r := copy_int_value (Some (buf, o)) (Some (DBytes old)) t t' in
  (fits t' z -> r = Some (true, Some (DBytes (le_bytes n z ++ drop n old)))) /\
  (~ fits t' z -> r = Some (false, Some (DBytes old))).
Proof. apply copy_int_value_ok. Qed.

Lemma copy_int_value_exact_witness :
  copy_int_value (Some (le_bytes 4 (-300), 0)) (Some (DBytes [9; 9; 9; 9])) BINN_INT32 BINN_INT16 =
    Some (true, Some (DBytes (le_bytes 2 (-300) ++ [9; 9]))) /\
  copy_int_value (Some (le_bytes 4 (-300), 0)) (Some (DBytes [9; 9; 9; 9])) BINN_INT32 BINN_UINT64 =
    Some (false, Some (DBytes [9; 9; 9; 9])).
Proof.
  split.
  - apply (copy_int_value_exact (le_bytes 4 (-300)) 0 BINN_INT32 BINN_INT16 (le_bytes 4 (-300)));
      [cbn; tauto|cbn; tauto|apply le_bytes_all|reflexivity|vm_compute; discriminate|].
    vm_compute. split; [discriminate|reflexivity].
  - reflexivity.
Defined.

(** * Safety of the walk over a value *)

(** C32: when the limit it is given is inside the buffer, [AdvanceDataPos] reads
    no byte outside it whatever the buffer holds, and the position it returns
    is not before the value and not beyond the limit. *)
Theorem AdvanceDataPos_safe (buf : bytes) p plimit :
  0 <= p -> plimit < zlen buf -> all_bytes buf ->
  exists r, AdvanceDataPos buf p plimit = Some r /\
    match r with Some q => p <= q <= plimit | None => True end.
Proof. apply AdvanceDataPos_safe_gen. Qed.

Lemma AdvanceDataPos_safe_witness :
  exists r, AdvanceDataPos [0xA0; 0xFF; 0xFF; 0xFF; 0xFF; 1] 0 5 = Some r /\
    match r with Some q => 0 <= q <= 5 | None => True end.
Proof.
  apply (AdvanceDataPos_safe [0xA0; 0xFF; 0xFF; 0xFF; 0xFF; 1] 0 5);
    [lia|reflexivity|repeat constructor; vm_compute; discriminate].
Defined.

(** * Where the code reads or writes too far *)

Lemma no_magic ct (r : bytes) w :
  isin ct [BINN_LIST; BINN_MAP; BINN_OBJECT] = true ->
  rd_le (ct :: r) 0 4 = Some w -> (w =? BINN_MAGIC) = false.
Proof.
  intros Hct. destruct (container_type_facts ct Hct) as (_ & Hm & _ & Hb).
  unfold rd_le, slice. destruct (_ || _) eqn:E; [done|]. cbn [mbind option_bind]. zbool.
  intros [= <-]. apply Z.eqb_neq. change (drop (Z.to_nat 0) (ct :: r)) with (ct :: r).
  change (Z.to_nat 4) with 4%nat. cbn [take le_val]. set (v := le_val _). intros Hq.
  unfold BINN_MAGIC in Hq. unfold is_byte in Hb. assert (ct = 31) as -> by lia. discriminate Hct.
Qed.

(** Validation of a list starts past the declared header without looking
    whether anything follows. *)
Lemma is_valid_overread_gen count :
  0 < count < 2147483648 ->
  let size := zlen (header_bytes BINN_LIST 127 count) in
  let buf := header_bytes BINN_LIST size count in
  binn_is_valid (ABuffer buf 0) (Info (Some 0) (Some 0) (Some 0)) = None.
Proof.
  intros Hc size buf.
  assert (Hsz : zlen buf = size /\ 3 <= size <= 6).
  { unfold buf, size, header_bytes. rewrite !zlen_cons, !zlen_app, !len_field_zlen.
    change (127 <? 127) with false. destruct (127 <? count) eqn:E;
      [change (127 <? 1 + (1 + 4)) with false | change (127 <? 1 + (1 + 1)) with false]; lia. }
  destruct Hsz as [Hbl Hs].
  unfold binn_is_valid, binn_is_valid_ex, binn_ptr, binn_get_ptr_type. cbn [i_type i_count i_size].
  destruct (rd_le buf 0 4) as [w|] eqn:Ew; cbn [mbind option_bind]; [|done].
  rewrite (no_magic BINN_LIST (len_field size ++ len_field count) w) by done.
  change (BINN_BUFFER =? BINN_STRUCT) with false. cbn [mbind option_bind].
  pose proof (IsValidBinnHeader_header [] [] BINN_LIST size count eq_refl ltac:(lia) ltac:(lia)) as H.
  rewrite app_nil_r in H. cbn [app] in H. fold buf in H. change (zlen []) with 0 in H.
  change (if 0 <? 0 then 0 else 0) with 0. rewrite H. cbn [mbind option_bind].
  change (contradicts (Some 0) ?x) with false. cbv iota.
  change (negb (0 =? 0) && negb (BINN_LIST =? 0)) with false. cbv iota.
  rewrite Hbl. change (default 0 (Some size)) with size.
  replace (Z.to_nat count) with (S (Z.to_nat (count - 1))) by lia. cbn [is_valid_loop].
  change (BINN_LIST =? BINN_OBJECT) with false. change (BINN_LIST =? BINN_MAP) with false.
  cbn [mbind option_bind]. unfold AdvanceDataPos at 1.
  replace (0 + size <? 0 + size) with false by lia.
  assert (Hn : znth buf (0 + size) = None).
  { unfold znth. zif_false. apply lookup_ge_None. unfold zlen in Hbl. lia. }
  by rewrite Hn.
Qed.

(** [binn_is_valid] reads past the end of a buffer it should reject: a list
    that is nothing but a header that announces items is read one byte after
    its end (its limit is the byte after the container, not the last one). *)
Theorem binn_is_valid_overread count :
  0 < count < 2147483648 ->
  let size := zlen (header_bytes BINN_LIST 127 count) in
  let buf := header_bytes BINN_LIST size count in
  binn_is_valid (ABuffer buf 0) (Info (Some 0) (Some 0) (Some 0)) = None.
Proof. apply is_valid_overread_gen. Qed.

Lemma binn_is_valid_overread_witness :
  binn_is_valid (ABuffer (header_bytes BINN_LIST 6 256) 0) (Info (Some 0) (Some 0) (Some 0)) = None.
Proof. apply (binn_is_valid_overread 256). lia. Defined.

(** The size passed to [binn_is_valid_ex] is not compared with the size the
    buffer declares: any positive one is accepted for an empty list. *)
Lemma binn_is_valid_ex_size_ignored s (b : Z) (post : bytes) :
  3 <= s -> is_byte b ->
  binn_is_valid_ex (ABuffer (0xE0 :: 3 :: 0 :: b :: post) 0) (Info None None (Some s)) =
  Some (ABuffer (0xE0 :: 3 :: 0 :: b :: post) 0, true, Info None None (Some s)).
Proof.
  intros Hs Hb. unfold binn_is_valid_ex, binn_ptr, binn_get_ptr_type. cbn [i_type i_count i_size].
  set (buf := 0xE0 :: 3 :: 0 :: b :: post).
  assert (Hl : exists w, rd_le buf 0 4 = Some w).
  { unfold rd_le, slice, buf. rewrite !zlen_cons. pose proof (zlen_nonneg post).
    replace ((0 <? 0) || (4 <? 0) || (1 + (1 + (1 + (1 + zlen post))) <? 0 + 4)) with false by lia.
    eauto. }
  destruct Hl as [w Hw]. rewrite Hw. cbn [mbind option_bind].
  rewrite (no_magic 0xE0 (3 :: 0 :: b :: post) w eq_refl Hw).
  change (BINN_BUFFER =? BINN_STRUCT) with false. cbn [mbind option_bind].
  replace (0 <? s) with true by lia.
  assert (H : IsValidBinnHeader (Some (buf, 0)) (Some s) =
    Some (Some (Hdr BINN_LIST 0 (Some s) 3))).
  { unfold IsValidBinnHeader, header_field, beyond, buf. replace (0 <? s) with true by lia.
    set (l := 0 + s - 1). change (0 + 1) with 1. change (1 + 1) with 2.
    assert (E1 : (l <? 1) = false) by (unfold l; lia).
    assert (E2 : (l <? 2) = false) by (unfold l; lia). rewrite E1.
    change (znth (0xE0 :: 3 :: 0 :: b :: post) 0) with (Some 0xE0).
    change (znth (0xE0 :: 3 :: 0 :: b :: post) 1) with (Some 3). cbn [mbind option_bind].
    change (negb (0xE0 .& BINN_STORAGE_MASK =? BINN_STORAGE_CONTAINER)) with false.
    change (negb (0xE0 .& BINN_STORAGE_HAS_MORE =? 0)) with false.
    change (negb (isin 0xE0 [BINN_LIST; BINN_MAP; BINN_OBJECT])) with false.
    change (3 .& 0x80 =? 0) with true. cbv iota. cbn [mbind option_bind]. rewrite E2.
    change (znth (0xE0 :: 3 :: 0 :: b :: post) 2) with (Some 0). cbn [mbind option_bind].
    change (0 .& 0x80 =? 0) with true. cbv iota. cbn [mbind option_bind].
    change ((3 <? MIN_BINN_SIZE) || (0 <? 0)) with false. cbv iota.
    by replace (s =? 0) with false by lia. }
  rewrite H. cbn [mbind option_bind].
  unfold contradicts. change (default 0 (Some s)) with s. rewrite Z.eqb_refl, andb_false_r.
  cbn. by replace (s =? 0) with false by lia.
Qed.

Lemma splice_short (p bs : bytes) i : zlen p < i + zlen bs -> splice p i bs = None.
Proof. intros H. unfold splice. by replace ((i <? 0) || (zlen p <? i + zlen bs)) with true by lia. Qed.

Lemma save_header_short b p :
  pbuf b = Some p -> zlen p < 9 -> used_size b = MAX_BINN_HEADER -> count b = 0 ->
  binn_save_header (Some b) = None.
Proof.
  intros Hb Hp Hu Hc. unfold binn_save_header. rewrite Hu, Hc.
  rewrite add32_ok by (unfold MAX_BINN_HEADER; lia). cbn [mbind option_bind].
  rewrite back_field_spec by lia. cbn [mbind option_bind]. change (127 <? 0) with false. cbv iota.
  cbn [mbind option_bind]. change (len_field 0) with [0].
  assert (Hput : poke (MAX_BINN_HEADER - zlen [0]) [0] b = None).
  { unfold poke. rewrite Hb. cbn [mbind option_bind]. rewrite splice_short; [done|].
    change (zlen [0]) with 1. unfold MAX_BINN_HEADER. lia. }
  by rewrite Hput.
Qed.

(** A container created with three to eight bytes has no room for its header:
    the first access that writes it back leaves the buffer. *)
Lemma binn_new_small_overflows (L : BinnLib) (Lok : BinnLibOk L) ct sz b :
  isin ct [BINN_LIST; BINN_MAP; BINN_OBJECT] = true -> 3 <= sz < 9 ->
  binn_new ct sz None = Some b -> binn_ptr (AStruct b) = None.
Proof.
  intros Hct Hsz. unfold binn_new, binn_create. rewrite Hct. cbn [negb].
  destruct binn_malloc_item; [|done]. replace (sz <? 0) with false by lia.
  rewrite bool_decide_eq_false_2 by (intros [? [=]]). rewrite andb_false_r.
  unfold MIN_BINN_SIZE. replace (sz <? 3) with false by lia. replace (sz =? 0) with false by lia.
  destruct (binn_malloc sz) as [p|] eqn:Em; [|done]. intros [= <-].
  pose proof (malloc_len sz p ltac:(lia) Em) as Hp.
  unfold binn_ptr, binn_get_ptr_type, flush.
  set (b := with_allocated true _).
  change (header b) with BINN_MAGIC. change (writable b && dirty b) with true. rewrite Z.eqb_refl.
  cbn [mbind option_bind]. change (BINN_STRUCT =? BINN_STRUCT) with true. cbv iota.
  rewrite (save_header_short b p) by (done || lia). done.
Qed.

(** A string value records one byte more when its characters are not copied:
    the terminating zero is counted only then. *)
Lemma binn_string_sizes (L : BinnLib) (s : bytes) v w :
  Forall (fun c => c <> 0) s -> binn_string (Some (s ++ [0], 0)) FnNone = Some (Some v) ->
  binn_string (Some (s ++ [0], 0)) FnTransient = Some (Some w) ->
  size v = zlen s + 1 /\ size w = zlen s.
Proof.
  intros Hs. unfold binn_string, binn_value. destruct binn_alloc_item; [|done].
  change (storage_of BINN_STRING =? BINN_STORAGE_NOBYTES) with false.
  change (isin (storage_of BINN_STRING) _) with true.
  change (storage_of BINN_STRING =? BINN_STORAGE_STRING) with true. cbn [andb].
  change (0 =? 0) with true. change (drop (Z.to_nat 0) (s ++ [0])) with (s ++ [0]).
  cbn [mbind option_bind]. rewrite strlen_app by done. cbn [mbind option_bind].
  intros [= <-]. split; [done|]. revert H.
  destruct (binn_memdup (Some (s ++ [0])) (zlen s + 1)) as [[d|]|]; cbn [mbind option_bind]; try done.
  intros [= <-]. cbn. lia.
Qed.

(** Telling a structure from a buffer reads four bytes: the three of an empty
    container are too few. *)
Example binn_ptr_of_empty : binn_ptr (ABuffer [0xE0; 3; 0] 0) = None.
Proof. reflexivity. Qed.

(** The smallest [int] is no map id: storing it negates it. *)
Example write_map_id_min : write_map_id (-2147483648) = None.
Proof. reflexivity. Qed.
