(* ===== verification/JlHeap.v ===== *)
(** The heap of the JL lisp interpreter: src/pus/app/lisp/jl-value.c,
    jl-scope.c, jl-context.c and the reference counting of jl.c.

    Values, bindings and scopes are nodes of one pool.  A pointer is the address
    of a node, 0 is NULL.  [nodes] are the nodes in use; [stale] is what the
    nodes on the free list still hold, which [CountScopeBindings] alone looks at.
    Any other access to a node that is not in use, a read of a union member that
    is not the one stored and a NULL dereference are [None].

    A [char *] member is the list of the characters before its zero, since every
    string here has one owner. *)
From Stdlib Require Import SpecFloat.
From S2P Require Import Prelude CText.

(** * Data *)

(** The functions of INTERNAL_FUNCTIONS, and [PrintFunc] of main.c. *)
Inductive JLFunction :=
  | F_Compare | F_Add | F_Sub | F_Mul | F_Div | F_Mod | F_And | F_Or | F_Not
  | F_Begin | F_Cons | F_Define | F_Head | F_If | F_Lambda | F_List | F_Rest
  | F_Substr | F_Concat | F_IsNumber | F_IsString | F_IsList | F_IsNull | F_Print.

(** The union of a [JLValue]; [VUndef] is one that was not stored to. *)
Inductive jl_union :=
  | VUndef
  | VLst (p : Z)
  | VSpecial (func : JLFunction)
  | VStr (s : bytes)
  | VNumber (d : spec_float)
  | VScope (p : Z).

Definition JLVALUE_NIL : Z := 0.
Definition JLVALUE_NUMBER : Z := 1.
Definition JLVALUE_STRING : Z := 2.
Definition JLVALUE_LIST : Z := 3.
Definition JLVALUE_LAMBDA : Z := 4.
Definition JLVALUE_SPECIAL : Z := 5.
Definition JLVALUE_SCOPE : Z := 6.
Definition JLVALUE_VARIABLE : Z := 7.

Record JLValue := mk_value { v_value : jl_union; v_next : Z; v_count : Z; v_tag : Z }.
Record BindingNode := mk_binding { b_name : bytes; b_value : Z; b_left : Z; b_right : Z }.
Record ScopeNode := mk_scope { s_bindings : Z; s_next : Z; s_count : Z }.

Inductive FreeNode := NValue (v : JLValue) | NBinding (b : BindingNode) | NScope (s : ScopeNode).

(** The messages of [Error], with the line and the name they print. *)
Inductive jl_msg :=
  | MaxDepth | InvalidLambda | TooFewLambda | InvalidLambdaArg | ExpectedParen | UnexpectedParen
  | NotFound (name : bytes) | InvalidArgument (name : bytes)
  | TooMany (name : bytes) | TooFew (name : bytes).

(** What is printed: a text, an [int], a [double], a special, or an error line. *)
Inductive jl_out :=
  | OText (s : bytes) | OInt (z : Z) | OFloat (d : spec_float) | OSpecial (f : JLFunction)
  | OError (line : Z) (msg : jl_msg).

Record JLContext := mk_context {
  nodes : gmap Z FreeNode; stale : gmap Z FreeNode;
  freelist : list Z; blocks : Z;
  jl_scope : Z; jl_line : Z; levels : Z; max_levels : Z; jl_error : bool;
  printed : list jl_out }.

#[export] Instance JLFunction_eq_dec : EqDecision JLFunction.
Proof. solve_decision. Defined.

(** * A state monad over the context *)

Definition M (A : Type) : Type := JLContext -> option (A * JLContext).
#[export] Instance M_ret : MRet M := fun A a st => Some (a, st).
#[export] Instance M_bind : MBind M := fun A B k m st =>
  match m st with Some (a, st') => k a st' | None => None end.
Definition undef {A} : M A := fun _ => None.
Definition gets {A} (f : JLContext -> A) : M A := fun st => Some (f st, st).
Definition modify (f : JLContext -> JLContext) : M unit := fun st => Some (tt, f st).
Definition lift {A} (o : option A) : M A := fun st => a ← o; Some (a, st).

Definition set_nodes ns st := mk_context ns (stale st) (freelist st) (blocks st) (jl_scope st)
  (jl_line st) (levels st) (max_levels st) (jl_error st) (printed st).
Definition set_pool ns sl fl bl st := mk_context ns sl fl bl (jl_scope st)
  (jl_line st) (levels st) (max_levels st) (jl_error st) (printed st).
Definition set_jl_scope s st := mk_context (nodes st) (stale st) (freelist st) (blocks st) s
  (jl_line st) (levels st) (max_levels st) (jl_error st) (printed st).
Definition set_jl_line l st := mk_context (nodes st) (stale st) (freelist st) (blocks st)
  (jl_scope st) l (levels st) (max_levels st) (jl_error st) (printed st).
Definition set_levels l st := mk_context (nodes st) (stale st) (freelist st) (blocks st)
  (jl_scope st) (jl_line st) l (max_levels st) (jl_error st) (printed st).
Definition set_jl_error e st := mk_context (nodes st) (stale st) (freelist st) (blocks st)
  (jl_scope st) (jl_line st) (levels st) (max_levels st) e (printed st).
Definition add_printed o st := mk_context (nodes st) (stale st) (freelist st) (blocks st)
  (jl_scope st) (jl_line st) (levels st) (max_levels st) (jl_error st) (printed st ++ [o]).

Definition print (o : jl_out) : M unit := modify (add_printed o).

Definition Error (msg : jl_msg) : M unit :=
  modify (set_jl_error true);; l ← gets jl_line; print (OError l msg).

(** * Nodes *)

Definition get_value (p : Z) : M JLValue := fun st =>
  match nodes st !! p with Some (NValue v) => Some (v, st) | _ => None end.
Definition get_binding (p : Z) : M BindingNode := fun st =>
  match nodes st !! p with Some (NBinding b) => Some (b, st) | _ => None end.
Definition get_scope (p : Z) : M ScopeNode := fun st =>
  match nodes st !! p with Some (NScope s) => Some (s, st) | _ => None end.
Definition put_node (p : Z) (n : FreeNode) : M unit :=
  modify (fun st => set_nodes (<[p := n]> (nodes st)) st).
Definition update_value (p : Z) (f : JLValue -> JLValue) : M unit :=
  v ← get_value p; put_node p (NValue (f v)).

Definition with_value u v := mk_value u (v_next v) (v_count v) (v_tag v).
Definition with_next n v := mk_value (v_value v) n (v_count v) (v_tag v).
Definition with_count c v := mk_value (v_value v) (v_next v) c (v_tag v).
Definition with_tag t v := mk_value (v_value v) (v_next v) (v_count v) t.

(** Members of the union. *)
Definition u_lst (u : jl_union) : option Z := match u with VLst p => Some p | _ => None end.
Definition u_str (u : jl_union) : option bytes := match u with VStr s => Some s | _ => None end.
Definition u_number (u : jl_union) : option spec_float :=
  match u with VNumber d => Some d | _ => None end.
Definition u_scope (u : jl_union) : option Z := match u with VScope p => Some p | _ => None end.

(** [value->next], [value->value.lst] and the like, through the pointer. *)
Definition get_next (p : Z) : M Z := v ← get_value p; mret (v_next v).
Definition get_lst (p : Z) : M Z := v ← get_value p; lift (u_lst (v_value v)).
Definition get_str (p : Z) : M bytes := v ← get_value p; lift (u_str (v_value v)).
Definition get_number (p : Z) : M spec_float := v ← get_value p; lift (u_number (v_value v)).
Definition get_tag (p : Z) : M Z := v ← get_value p; mret (v_tag v).

(** * The pool (jl-context.c) *)

Definition BLOCK_SIZE : Z := 8192.

(** The address of a node of a block. *)
Definition node_at (block i : Z) : Z := 1 + block * BLOCK_SIZE + i.

(** The loop over the rest of a fresh block: each node goes to the front of the
    free list. *)
Fixpoint free_loop (n : nat) (block i : Z) (freelist : list Z) : list Z :=
  match n with
  | O => freelist
  | S n' => free_loop n' block (i + 1) (node_at block i :: freelist)
  end.
Definition block_nodes (block : Z) : list Z := free_loop (Z.to_nat (BLOCK_SIZE - 1)) block 1 [].
#[global] Arguments block_nodes : simpl never.

(** [malloc] is taken to succeed; the code uses its result unchecked. *)
Definition GetFree : M Z := fun st =>
  match freelist st with
  | [] => Some (node_at (blocks st) 0,
                set_pool (nodes st) (stale st) (block_nodes (blocks st)) (blocks st + 1) st)
  | p :: fl => Some (p, set_pool (nodes st) (delete p (stale st)) fl (blocks st) st)
  end.

Definition PutFree (p : Z) : M unit := fun st =>
  match nodes st !! p with
  | Some n => Some (tt, set_pool (delete p (nodes st)) (<[p := n]> (stale st))
                          (p :: freelist st) (blocks st) st)
  | None => None
  end.

(** * Reference counts *)

Definition JLRetain (p : Z) : M unit :=
  if p =? 0 then mret tt else update_value p (fun v => with_count (u32 (v_count v + 1)) v).

(** A look at a node that may be on the free list already. *)
Definition peek (st : JLContext) (p : Z) : option FreeNode :=
  match nodes st !! p with Some n => Some n | None => stale st !! p end.

(** Is the value bound by a lambda of this scope that nothing else holds? *)
Definition own_lambda (st : JLContext) (value scope : Z) : option bool :=
  if value =? 0 then Some false
  else
    match peek st value with
    | Some (NValue v) =>
        if (v_tag v =? JLVALUE_LAMBDA) && (v_count v =? 1) then
          match nodes st !! value with
          | Some (NValue v) =>
              l ← u_lst (v_value v);
              match nodes st !! l with
              | Some (NValue sv) => s ← u_scope (v_value sv); Some (s =? scope)
              | _ => None
              end
          | _ => None
          end
        else Some false
    | _ => None
    end.

Fixpoint CountScopeBindings (fuel : nat) (st : JLContext) (binding scope : Z) : option Z :=
  if binding =? 0 then Some 0
  else
    match fuel with
    | O => None
    | S fuel' =>
        match peek st binding with
        | Some (NBinding b) =>
            l ← CountScopeBindings fuel' st (b_left b) scope;
            r ← CountScopeBindings fuel' st (b_right b) scope;
            o ← own_lambda st (b_value b) scope;
            Some (u32 (l + r + (if (o : bool) then 1 else 0)))
        | _ => None
        end
    end.

Fixpoint release_value (fuel : nat) (p : Z) : M unit :=
  if p =? 0 then mret tt
  else
    match fuel with
    | O => undef
    | S fuel' =>
        update_value p (fun v => with_count (u32 (v_count v - 1)) v);;
        v ← get_value p;
        if v_count v =? 0 then
          let next := v_next v in
          (if (v_tag v =? JLVALUE_LIST) || (v_tag v =? JLVALUE_LAMBDA) then
             l ← lift (u_lst (v_value v)); release_value fuel' l
           else if (v_tag v =? JLVALUE_STRING) || (v_tag v =? JLVALUE_VARIABLE) then
             _ ← lift (u_str (v_value v)); mret tt
           else if v_tag v =? JLVALUE_SCOPE then
             s ← lift (u_scope (v_value v)); release_scope fuel' s
           else mret tt);;
          PutFree p;;
          release_value fuel' next
        else mret tt
    end
with release_scope (fuel : nat) (s : Z) : M unit :=
  match fuel with
  | O => undef
  | S fuel' =>
      sc ← get_scope s;
      st ← gets id;
      k ← lift (CountScopeBindings (S (size (nodes st) + size (stale st))) st (s_bindings sc) s);
      if u32 (s_count sc - 1 - k) =? 0 then
        release_bindings fuel' (s_bindings sc);;
        PutFree s
      else put_node s (NScope (mk_scope (s_bindings sc) (s_next sc) (u32 (s_count sc - 1))))
  end
with release_bindings (fuel : nat) (binding : Z) : M unit :=
  if binding =? 0 then mret tt
  else
    match fuel with
    | O => undef
    | S fuel' =>
        b ← get_binding binding; release_bindings fuel' (b_left b);;
        b ← get_binding binding; release_bindings fuel' (b_right b);;
        b ← get_binding binding; release_value fuel' (b_value b);;
        PutFree binding
    end.

(** Every nested call has a node in use to itself, so the number of nodes bounds
    the nesting. *)
Definition heap_fuel (st : JLContext) : nat := 2 + 2 * size (nodes st).

Definition JLRelease (p : Z) : M unit := fun st => release_value (heap_fuel st) p st.
Definition ReleaseScope (s : Z) : M unit := fun st => release_scope (heap_fuel st) s st.
Definition ReleaseBindings (b : Z) : M unit := fun st => release_bindings (heap_fuel st) b st.

(** * Scopes (jl-scope.c) *)

Definition JLEnterScope : M unit :=
  scope ← GetFree;
  old ← gets jl_scope;
  put_node scope (NScope (mk_scope 0 old 1));;
  modify (set_jl_scope scope).

Definition JLLeaveScope : M unit :=
  scope ← gets jl_scope;
  s ← get_scope scope;
  modify (set_jl_scope (s_next s));;
  ReleaseScope scope.

(** The walk over one scope's tree: NULL, or the binding. *)
Fixpoint find_binding (fuel : nat) (st : JLContext) (binding : Z) (name : bytes)
    : option (option BindingNode) :=
  if binding =? 0 then Some None
  else
    match fuel with
    | O => None
    | S fuel' =>
        match nodes st !! binding with
        | Some (NBinding b) =>
            let v := strcmp (b_name b) name in
            if v <? 0 then find_binding fuel' st (b_left b) name
            else if v >? 0 then find_binding fuel' st (b_right b) name
            else Some (Some b)
        | _ => None
        end
    end.

(** The walk over the scopes; [Some None] when no scope binds the name. *)
Fixpoint lookup_scopes (fuel : nat) (st : JLContext) (scope : Z) (name : bytes)
    : option (option Z) :=
  if scope =? 0 then Some None
  else
    match fuel with
    | O => None
    | S fuel' =>
        match nodes st !! scope with
        | Some (NScope s) =>
            r ← find_binding (heap_fuel st) st (s_bindings s) name;
            match r with
            | Some b => Some (Some (b_value b))
            | None => lookup_scopes fuel' st (s_next s) name
            end
        | _ => None
        end
    end.

Definition Lookup (name : bytes) : M Z :=
  st ← gets id;
  r ← lift (lookup_scopes (heap_fuel st) st (jl_scope st) name);
  match r with
  | Some v => mret v
  | None => Error (NotFound name);; mret 0
  end.

(** * Definitions (jl.c) *)

(** A [BindingNode **]: where a binding pointer is stored. *)
Inductive root := RScope (s : Z) | RLeft (b : Z) | RRight (b : Z).

Definition root_get (r : root) : M Z :=
  match r with
  | RScope s => sc ← get_scope s; mret (s_bindings sc)
  | RLeft p => b ← get_binding p; mret (b_left b)
  | RRight p => b ← get_binding p; mret (b_right b)
  end.

Definition root_set (r : root) (q : Z) : M unit :=
  match r with
  | RScope s => sc ← get_scope s; put_node s (NScope (mk_scope q (s_next sc) (s_count sc)))
  | RLeft p => b ← get_binding p;
      put_node p (NBinding (mk_binding (b_name b) (b_value b) q (b_right b)))
  | RRight p => b ← get_binding p;
      put_node p (NBinding (mk_binding (b_name b) (b_value b) (b_left b) q))
  end.

Fixpoint define_loop (fuel : nat) (r : root) (name : bytes) (value : Z) : M unit :=
  match fuel with
  | O => undef
  | S fuel' =>
      p ← root_get r;
      if p =? 0 then
        q ← GetFree;
        put_node q (NBinding (mk_binding name value 0 0));;
        root_set r q
      else
        b ← get_binding p;
        let v := strcmp (b_name b) name in
        if v <? 0 then define_loop fuel' (RLeft p) name value
        else if v >? 0 then define_loop fuel' (RRight p) name value
        else
          JLRelease (b_value b);;
          b ← get_binding p;
          put_node p (NBinding (mk_binding (b_name b) value (b_left b) (b_right b)))
  end.

Definition JLDefineValue (name : option bytes) (value : Z) : M unit :=
  match name with
  | None => mret tt
  | Some name =>
      scope ← gets jl_scope;
      JLRetain value;;
      st ← gets id;
      define_loop (heap_fuel st) (RScope scope) name value
  end.

(** * Values (jl-value.c) *)

Definition CreateValue (name : option bytes) (tag : Z) : M Z :=
  result ← GetFree;
  put_node result (NValue (mk_value VUndef 0 1 tag));;
  JLDefineValue name result;;
  mret result.

Definition CopyValue (other : Z) : M Z :=
  if other =? 0 then CreateValue None JLVALUE_NIL
  else
    o ← get_value other;
    result ← CreateValue None (v_tag o);
    o ← get_value other;
    update_value result (with_value (v_value o));;
    (if (v_tag o =? JLVALUE_LIST) || (v_tag o =? JLVALUE_LAMBDA) || (v_tag o =? JLVALUE_SCOPE) then
       l ← lift (u_lst (v_value o)); JLRetain l
     else if (v_tag o =? JLVALUE_STRING) || (v_tag o =? JLVALUE_VARIABLE) then
       _ ← lift (u_str (v_value o)); mret tt
     else mret tt);;
    mret result.

Definition JLDefineSpecial (name : bytes) (func : JLFunction) : M unit :=
  result ← CreateValue (Some name) JLVALUE_SPECIAL;
  update_value result (with_value (VSpecial func));;
  JLRelease result.

Definition JLDefineNumber (name : option bytes) (value : spec_float) : M Z :=
  result ← CreateValue name JLVALUE_NUMBER;
  update_value result (with_value (VNumber value));;
  mret result.
