(* ===== verification/JlEval.v ===== *)
(** The evaluator of the JL lisp interpreter: [JLEvaluate], [EvalLambda] and
    [JLPrint] of src/pus/app/lisp/jl.c, the functions of jl-func.c, and
    [PrintFunc] of main.c.

    A double is a [spec_float] with 53 bits of precision.  A function of the
    table takes the address of the argument list, whose head names the function
    as it was called.  Fuel bounds the nesting of [JLEvaluate] and the length of
    the lists the loops walk. *)
From Stdlib Require Import SpecFloat Ascii String.
From S2P Require Import Prelude CText JlHeap.

(** * Doubles *)

Definition d_add := SFadd 53 1024.
Definition d_sub := SFsub 53 1024.
Definition d_mul := SFmul 53 1024.
Definition d_div := SFdiv 53 1024.
Definition d_of_Z (z : Z) : spec_float := binary_normalize 53 1024 z 0 false.
Definition d_zero : spec_float := d_of_Z 0.
Definition d_one : spec_float := d_of_Z 1.

(** Truncation towards zero; infinities and NaN have none. *)
Definition d_trunc (d : spec_float) : option Z :=
  match d with
  | S754_zero _ => Some 0
  | S754_finite s m e =>
      let a := if 0 <=? e then Z.pos m * 2 ^ e else Z.pos m / 2 ^ (- e) in
      Some (if s then - a else a)
  | _ => None
  end.

(** A conversion to an integer type: undefined out of its range. *)
Definition d_to (lo hi : Z) (d : spec_float) : option Z :=
  z ← d_trunc d; if (lo <=? z) && (z <=? hi) then Some z else None.
Definition d_to_long := d_to (-9223372036854775808) 9223372036854775807.
Definition d_to_size := d_to 0 18446744073709551615.
Definition d_to_int16 := d_to (-32768) 32767.

(** Conversions between the two formats. *)
Definition to_format (prec emax : Z) (d : spec_float) : spec_float :=
  match d with S754_finite s m e => binary_round prec emax s m e | _ => d end.

(** [ceilf], called with a double and compared with one: the argument is rounded
    to a float, then up; the result is widened. *)
Definition ceilf (d : spec_float) : spec_float :=
  match to_format 24 128 d with
  | S754_finite s m e =>
      if 0 <=? e then to_format 53 1024 (S754_finite s m e)
      else
        let a := 2 ^ (- e) in
        let z := if s then - (Z.pos m / a) else (Z.pos m + a - 1) / a in
        to_format 53 1024 (binary_normalize 24 128 z 0 s)
  | f => f
  end.

(** * Printing *)

Definition text (s : bytes) : M unit := print (OText s).

(** Texts of the code's string literals. *)
Definition nil_text : bytes := [110; 105; 108].
Definition lambda_text : bytes := [40; 108; 97; 109; 98; 100; 97; 32].

Section print.
Variable JLPrint_rec : Z -> M unit.

(** The items from [temp] on, with a blank between them. *)
Fixpoint print_items (fuel : nat) (temp : Z) : M unit :=
  if temp =? 0 then mret tt
  else
    match fuel with
    | O => undef
    | S fuel' =>
        JLPrint_rec temp;;
        next ← get_next temp;
        (if next =? 0 then mret tt else text [32]);;
        print_items fuel' next
    end.
End print.

Fixpoint JLPrint (fuel : nat) (p : Z) : M unit :=
  match fuel with
  | O => undef
  | S fuel' =>
      if p =? 0 then text nil_text
      else
        v ← get_value p;
        if v_tag v =? JLVALUE_NIL then text nil_text
        else if v_tag v =? JLVALUE_NUMBER then
          d ← lift (u_number (v_value v));
          if SFeqb (ceilf d) d then z ← lift (d_to_int16 d); print (OInt z)
          else print (OFloat d)
        else if v_tag v =? JLVALUE_STRING then
          s ← lift (u_str (v_value v)); text ([34] ++ s ++ [34])
        else if v_tag v =? JLVALUE_LIST then
          l ← lift (u_lst (v_value v));
          text [40];; print_items (JLPrint fuel') fuel' l;; text [41]
        else if v_tag v =? JLVALUE_LAMBDA then
          l ← lift (u_lst (v_value v));
          text lambda_text;;
          next ← get_next l; print_items (JLPrint fuel') fuel' next;; text [41]
        else if v_tag v =? JLVALUE_SPECIAL then
          match v_value v with VSpecial f => print (OSpecial f) | _ => undef end
        else if v_tag v =? JLVALUE_VARIABLE then
          s ← lift (u_str (v_value v)); text s
        else text [10; 63; 10]
  end.

(** * The functions (jl-func.c) *)

Definition InvalidArgumentError (args : Z) : M unit :=
  s ← get_str args; Error (InvalidArgument s).
Definition TooManyArgumentsError (args : Z) : M unit :=
  s ← get_str args; Error (TooMany s).
Definition TooFewArgumentsError (args : Z) : M unit :=
  s ← get_str args; Error (TooFew s).

(** [p && p->tag == tag] *)
Definition has_tag (tag p : Z) : M bool :=
  if p =? 0 then mret false else t ← get_tag p; mret (t =? tag).
Definition JLIsNumber : Z -> M bool := has_tag JLVALUE_NUMBER.
Definition JLIsString : Z -> M bool := has_tag JLVALUE_STRING.
Definition JLIsList : Z -> M bool := has_tag JLVALUE_LIST.

(** A [JLValue **]: [&p->value.lst] or [&p->next]. *)
Inductive place := PLst (p : Z) | PNext (p : Z).
Definition place_set (i : place) (q : Z) : M unit :=
  match i with
  | PLst p => update_value p (with_value (VLst q))
  | PNext p => update_value p (with_next q)
  end.

(** Exactly [n] arguments, or the error. *)
Definition one_argument (args : Z) : M bool :=
  a ← get_next args;
  if a =? 0 then TooFewArgumentsError args;; mret false
  else
    b ← get_next a;
    if b =? 0 then mret true else TooManyArgumentsError args;; mret false.

Definition two_arguments (args : Z) : M bool :=
  a ← get_next args;
  if a =? 0 then TooFewArgumentsError args;; mret false
  else
    b ← get_next a;
    if b =? 0 then TooFewArgumentsError args;; mret false
    else
      c ← get_next b;
      if c =? 0 then mret true else TooManyArgumentsError args;; mret false.

Section functions.
Variable fuel : nat.
Variable eval : Z -> M Z.

Definition CheckCondition (value : Z) : M bool :=
  cond ← eval value;
  if cond =? 0 then mret false
  else
    v ← get_value cond;
    rc ← (if v_tag v =? JLVALUE_NUMBER then
            d ← lift (u_number (v_value v)); mret (negb (SFeqb d d_zero))
          else if v_tag v =? JLVALUE_LIST then
            l ← lift (u_lst (v_value v)); mret (negb (l =? 0))
          else mret true);
    JLRelease cond;;
    mret rc.

(** The operators by the first two characters of the name; [None] is any other
    name, which leaves [cond] at 0. *)
Definition compare_op (op : bytes) (diff : spec_float) : bool :=
  let c0 := default 0 (op !! 0%nat) in
  let c1 := default 0 (op !! 1%nat) in
  if c0 =? 61 then SFeqb diff d_zero
  else if c0 =? 33 then negb (SFeqb diff d_zero)
  else if (c0 =? 60) && (c1 =? 0) then SFltb diff d_zero
  else if (c0 =? 60) && (c1 =? 61) then SFleb diff d_zero
  else if (c0 =? 62) && (c1 =? 0) then SFltb d_zero diff
  else if (c0 =? 62) && (c1 =? 61) then SFleb d_zero diff
  else false.

Definition CompareFunc (args : Z) : M Z :=
  op ← get_str args;
  ok ← two_arguments args;
  if negb ok then mret 0
  else
    a ← get_next args;
    va ← eval a;
    b ← get_next a;
    vb ← eval b;
    differ ← (if (va =? 0) || (vb =? 0) then mret true
              else ta ← get_tag va; tb ← get_tag vb; mret (negb (ta =? tb)));
    cond ← (if (differ : bool) then
              let c0 := default 0 (op !! 0%nat) in
              if c0 =? 61 then mret (va =? vb)
              else if c0 =? 33 then mret (negb (va =? vb))
              else InvalidArgumentError args;; mret false
            else
              t ← get_tag va;
              diff ← (if t =? JLVALUE_NUMBER then
                        x ← get_number va; y ← get_number vb; mret (d_sub x y)
                      else if t =? JLVALUE_STRING then
                        x ← get_str va; y ← get_str vb; mret (d_of_Z (strcmp x y))
                      else InvalidArgumentError args;; mret d_zero);
              mret (compare_op op diff));
    result ← (if (cond : bool) then JLDefineNumber None d_one else mret 0);
    JLRelease va;;
    JLRelease vb;;
    mret result.

(** The loop over the numbers of [AddFunc], [SubFunc] and [MulFunc]; [None] when
    an argument is not a number. *)
Fixpoint number_loop (n : nat) (op : spec_float -> spec_float -> spec_float)
    (args vp : Z) (acc : spec_float) : M (option spec_float) :=
  if vp =? 0 then mret (Some acc)
  else
    match n with
    | O => undef
    | S n' =>
        arg ← eval vp;
        ok ← has_tag JLVALUE_NUMBER arg;
        if (ok : bool) then
          d ← get_number arg;
          JLRelease arg;;
          next ← get_next vp;
          number_loop n' op args next (op acc d)
        else
          InvalidArgumentError args;;
          JLRelease arg;;
          mret None
    end.

Definition number_or_nil (r : option spec_float) : M Z :=
  match r with Some d => JLDefineNumber None d | None => mret 0 end.

Definition AddFunc (args : Z) : M Z :=
  vp ← get_next args;
  r ← number_loop fuel d_add args vp d_zero;
  number_or_nil r.

Definition SubFunc (args : Z) : M Z :=
  vp ← get_next args;
  arg ← eval vp;
  ok ← has_tag JLVALUE_NUMBER arg;
  if (ok : bool) then
    total ← get_number arg;
    JLRelease arg;;
    vp ← get_next vp;
    r ← number_loop fuel d_sub args vp total;
    number_or_nil r
  else
    InvalidArgumentError args;;
    JLRelease arg;;
    mret 0.

Definition MulFunc (args : Z) : M Z :=
  vp ← get_next args;
  r ← number_loop fuel d_mul args vp d_one;
  number_or_nil r.

(** The two number arguments of [DivFunc] and [ModFunc], and the release of both
    at the end; [f] computes the result. *)
Definition two_numbers (args : Z) (f : Z -> Z -> M Z) : M Z :=
  a ← get_next args;
  va ← eval a;
  ok ← has_tag JLVALUE_NUMBER va;
  '(vb, result) ←
    (if negb ok then InvalidArgumentError args;; mret (0, 0)
     else
       b ← get_next a;
       vb ← eval b;
       ok ← has_tag JLVALUE_NUMBER vb;
       if negb ok then InvalidArgumentError args;; mret (vb, 0)
       else
         c ← get_next b;
         if negb (c =? 0) then TooManyArgumentsError args;; mret (vb, 0)
         else r ← f va vb; mret (vb, r));
  JLRelease va;;
  JLRelease vb;;
  mret result.

Definition DivFunc (args : Z) : M Z :=
  two_numbers args (fun va vb =>
    x ← get_number va; y ← get_number vb; JLDefineNumber None (d_div x y)).

(** [%] of two [long]s, undefined for the one quotient that overflows. *)
Definition long_rem (x y : Z) : option Z :=
  if (x =? -9223372036854775808) && (y =? -1) then None else Some (Z.rem x y).

Definition ModFunc (args : Z) : M Z :=
  two_numbers args (fun va vb =>
    y ← get_number vb;
    temp ← lift (d_to_long y);
    if temp =? 0 then mret 0
    else
      x ← get_number va;
      x ← lift (d_to_long x);
      r ← lift (long_rem x temp);
      JLDefineNumber None (d_of_Z r)).

Fixpoint and_loop (n : nat) (vp : Z) : M Z :=
  if vp =? 0 then JLDefineNumber None d_one
  else
    match n with
    | O => undef
    | S n' =>
        c ← CheckCondition vp;
        if (c : bool) then next ← get_next vp; and_loop n' next else mret 0
    end.
Definition AndFunc (args : Z) : M Z := vp ← get_next args; and_loop fuel vp.

Fixpoint or_loop (n : nat) (vp : Z) : M Z :=
  if vp =? 0 then mret 0
  else
    match n with
    | O => undef
    | S n' =>
        c ← CheckCondition vp;
        if (c : bool) then JLDefineNumber None d_one
        else next ← get_next vp; or_loop n' next
    end.
Definition OrFunc (args : Z) : M Z := vp ← get_next args; or_loop fuel vp.

Definition NotFunc (args : Z) : M Z :=
  ok ← one_argument args;
  if negb ok then mret 0
  else
    a ← get_next args;
    c ← CheckCondition a;
    if (c : bool) then mret 0 else JLDefineNumber None d_one.

Fixpoint begin_loop (n : nat) (vp result : Z) : M Z :=
  if vp =? 0 then mret result
  else
    match n with
    | O => undef
    | S n' =>
        JLRelease result;;
        result ← eval vp;
        next ← get_next vp;
        begin_loop n' next result
    end.
Definition BeginFunc (args : Z) : M Z :=
  JLEnterScope;;
  vp ← get_next args;
  result ← begin_loop fuel vp 0;
  JLLeaveScope;;
  mret result.

Definition ConsFunc (args : Z) : M Z :=
  ok ← two_arguments args;
  if negb ok then mret 0
  else
    a ← get_next args;
    b ← get_next a;
    rest ← eval b;
    bad ← (if rest =? 0 then mret false
           else t ← get_tag rest; mret (negb (t =? JLVALUE_LIST)));
    if (bad : bool) then InvalidArgumentError args;; JLRelease rest;; mret 0
    else
      temp ← eval a;
      head ← CopyValue temp;
      JLRelease temp;;
      result ← CreateValue None JLVALUE_LIST;
      (if rest =? 0 then mret tt
       else
         l ← get_lst rest;
         update_value head (with_next l);;
         JLRetain l;;
         JLRelease rest);;
      update_value result (with_value (VLst head));;
      mret result.

Definition DefineFunc (args : Z) : M Z :=
  vp ← get_next args;
  if vp =? 0 then TooFewArgumentsError args;; mret 0
  else
    t ← get_tag vp;
    if negb (t =? JLVALUE_VARIABLE) then InvalidArgumentError args;; mret 0
    else
      e ← get_next vp;
      result ← eval e;
      name ← get_str vp;
      JLDefineValue (Some name) result;;
      mret result.

Definition HeadFunc (args : Z) : M Z :=
  a ← get_next args;
  vp ← eval a;
  ok ← has_tag JLVALUE_LIST vp;
  result ← (if (ok : bool) then r ← get_lst vp; JLRetain r;; mret r
            else InvalidArgumentError args;; mret 0);
  JLRelease vp;;
  mret result.

Definition IfFunc (args : Z) : M Z :=
  vp ← get_next args;
  c ← CheckCondition vp;
  next ← get_next vp;
  if (c : bool) then eval next
  else if negb (next =? 0) then other ← get_next next; eval other
  else mret 0.

Definition LambdaFunc (args : Z) : M Z :=
  a ← get_next args;
  few ← (if a =? 0 then mret true else b ← get_next a; mret (b =? 0));
  if (few : bool) then TooFewArgumentsError args;; mret 0
  else
    scope ← CreateValue None JLVALUE_SCOPE;
    s ← gets jl_scope;
    update_value scope (with_value (VScope s));;
    sc ← get_scope s;
    put_node s (NScope (mk_scope (s_bindings sc) (s_next sc) (u32 (s_count sc + 1))));;
    result ← CreateValue None JLVALUE_LAMBDA;
    update_value result (with_value (VLst scope));;
    update_value scope (with_next a);;
    JLRetain a;;
    mret result.

Fixpoint list_loop (n : nat) (item : place) (vp : Z) : M unit :=
  if vp =? 0 then mret tt
  else
    match n with
    | O => undef
    | S n' =>
        arg ← eval vp;
        temp ← CopyValue arg;
        place_set item temp;;
        JLRelease arg;;
        next ← get_next vp;
        list_loop n' (PNext temp) next
    end.
Definition ListFunc (args : Z) : M Z :=
  vp ← get_next args;
  if vp =? 0 then mret 0
  else
    result ← CreateValue None JLVALUE_LIST;
    list_loop fuel (PLst result) vp;;
    mret result.

Definition RestFunc (args : Z) : M Z :=
  a ← get_next args;
  vp ← eval a;
  ok ← has_tag JLVALUE_LIST vp;
  result ←
    (if (ok : bool) then
       l ← get_lst vp;
       if l =? 0 then mret 0
       else
         next ← get_next l;
         if next =? 0 then mret 0
         else
           result ← CreateValue None JLVALUE_LIST;
           l ← get_lst vp;
           next ← get_next l;
           update_value result (with_value (VLst next));;
           JLRetain next;;
           mret result
     else InvalidArgumentError args;; mret 0);
  JLRelease vp;;
  mret result.

(** An optional number argument of [SubstrFunc]: the value that stays held and
    the number, or [None] after the error. *)
Definition size_argument (args p default_ : Z) : M (Z * option Z) :=
  v ← eval p;
  if v =? 0 then mret (v, Some default_)
  else
    t ← get_tag v;
    if negb (t =? JLVALUE_NUMBER) then InvalidArgumentError args;; mret (v, None)
    else d ← get_number v; z ← lift (d_to_size d); mret (v, Some z).

Definition SIZE_MAX : Z := 18446744073709551615.

Definition substr_result (str start len : Z) : M Z :=
  s ← get_str str;
  let slen := zlen s in
  if (start <? slen) && (0 <? len) then
    let len := if slen - start >? len then len else slen - start in
    result ← CreateValue None JLVALUE_STRING;
    update_value result
      (with_value (VStr (take (Z.to_nat len) (drop (Z.to_nat start) s))));;
    mret result
  else mret 0.

Definition SubstrFunc (args : Z) : M Z :=
  a ← get_next args;
  str ← eval a;
  ok ← has_tag JLVALUE_STRING str;
  '(sval, lval, result) ←
    (if negb ok then InvalidArgumentError args;; mret (0, 0, 0)
     else
       b ← get_next a;
       '(sval, start) ← size_argument args b 0;
       match start with
       | None => mret (sval, 0, 0)
       | Some start =>
           if b =? 0 then r ← substr_result str start SIZE_MAX; mret (sval, 0, r)
           else
             c ← get_next b;
             d ← (if c =? 0 then mret 0 else get_next c);
             if negb (d =? 0) then TooManyArgumentsError args;; mret (sval, 0, 0)
             else
               '(lval, len) ← size_argument args c SIZE_MAX;
               match len with
               | None => mret (sval, lval, 0)
               | Some len => r ← substr_result str start len; mret (sval, lval, r)
               end
       end);
  JLRelease str;;
  JLRelease sval;;
  JLRelease lval;;
  mret result.

Fixpoint concat_loop (n : nat) (args result vp : Z) (acc : bytes) : M (option bytes) :=
  if vp =? 0 then mret (Some acc)
  else
    match n with
    | O => undef
    | S n' =>
        arg ← eval vp;
        ok ← has_tag JLVALUE_STRING arg;
        if (ok : bool) then
          s ← get_str arg;
          JLRelease arg;;
          next ← get_next vp;
          concat_loop n' args result next (acc ++ s)
        else
          InvalidArgumentError args;;
          JLRelease arg;;
          JLRelease result;;
          mret None
    end.

(** The buffer of the result exists from the start, without contents. *)
Definition ConcatFunc (args : Z) : M Z :=
  result ← CreateValue None JLVALUE_STRING;
  update_value result (with_value (VStr []));;
  vp ← get_next args;
  r ← concat_loop fuel args result vp [];
  match r with
  | None => mret 0
  | Some s => update_value result (with_value (VStr s));; mret result
  end.

(** [IsNumberFunc], [IsStringFunc] and [IsListFunc] differ in the tag. *)
Definition is_tag_func (tag args : Z) : M Z :=
  ok ← one_argument args;
  if negb ok then mret 0
  else
    a ← get_next args;
    arg ← eval a;
    yes ← has_tag tag arg;
    result ← (if (yes : bool) then JLDefineNumber None d_one else mret 0);
    JLRelease arg;;
    mret result.
Definition IsNumberFunc : Z -> M Z := is_tag_func JLVALUE_NUMBER.
Definition IsStringFunc : Z -> M Z := is_tag_func JLVALUE_STRING.
Definition IsListFunc : Z -> M Z := is_tag_func JLVALUE_LIST.

Definition IsNullFunc (args : Z) : M Z :=
  ok ← one_argument args;
  if negb ok then mret 0
  else
    a ← get_next args;
    arg ← eval a;
    if arg =? 0 then JLDefineNumber None d_one
    else JLRelease arg;; mret 0.

Fixpoint print_loop (n : nat) (vp : Z) : M unit :=
  if vp =? 0 then mret tt
  else
    match n with
    | O => undef
    | S n' =>
        result ← eval vp;
        str ← JLIsString result;
        (if (str : bool) then s ← get_str result; text s else JLPrint fuel result);;
        JLRelease result;;
        next ← get_next vp;
        print_loop n' next
    end.
Definition PrintFunc (args : Z) : M Z :=
  vp ← get_next args; print_loop fuel vp;; mret 0.

Definition call_special (f : JLFunction) : Z -> M Z :=
  match f with
  | F_Compare => CompareFunc | F_Add => AddFunc | F_Sub => SubFunc | F_Mul => MulFunc
  | F_Div => DivFunc | F_Mod => ModFunc | F_And => AndFunc | F_Or => OrFunc
  | F_Not => NotFunc | F_Begin => BeginFunc | F_Cons => ConsFunc | F_Define => DefineFunc
  | F_Head => HeadFunc | F_If => IfFunc | F_Lambda => LambdaFunc | F_List => ListFunc
  | F_Rest => RestFunc | F_Substr => SubstrFunc | F_Concat => ConcatFunc
  | F_IsNumber => IsNumberFunc | F_IsString => IsStringFunc | F_IsList => IsListFunc
  | F_IsNull => IsNullFunc | F_Print => PrintFunc
  end.

(** * Lambdas (jl.c) *)

(** The rest of the arguments, evaluated and chained by their [next] members. *)
Fixpoint rest_loop (n : nat) (item : place) (ap : Z) : M unit :=
  if ap =? 0 then mret tt
  else
    match n with
    | O => undef
    | S n' =>
        v ← eval ap;
        place_set item v;;
        next ← get_next ap;
        rest_loop n' (PNext v) next
    end.

(** The bindings of the parameters; [false] after an error. *)
Fixpoint bind_loop (n : nat) (old_scope new_scope bp ap : Z) : M bool :=
  if bp =? 0 then mret true
  else
    match n with
    | O => undef
    | S n' =>
        if ap =? 0 then Error TooFewLambda;; mret false
        else
          t ← get_tag bp;
          if negb (t =? JLVALUE_VARIABLE) then Error InvalidLambdaArg;; mret false
          else
            modify (set_jl_scope old_scope);;
            bnext ← get_next bp;
            anext ← get_next ap;
            '(result, ap) ←
              (if (bnext =? 0) && negb (anext =? 0) then
                 result ← CreateValue None JLVALUE_LIST;
                 rest_loop fuel (PLst result) ap;;
                 mret (result, 0)
               else
                 result ← eval ap;
                 ap ← get_next ap;
                 mret (result, ap));
            modify (set_jl_scope new_scope);;
            name ← get_str bp;
            JLDefineValue (Some name) result;;
            JLRelease result;;
            bp ← get_next bp;
            bind_loop n' old_scope new_scope bp ap
    end.

Fixpoint code_loop (n : nat) (code result : Z) : M Z :=
  if code =? 0 then mret result
  else
    match n with
    | O => undef
    | S n' =>
        result ← eval code;
        next ← get_next code;
        (if next =? 0 then mret tt else JLRelease result);;
        code_loop n' next result
    end.

(** [Some (scope, params, code)] of a well-formed lambda. *)
Definition lambda_parts (lambda : Z) : M (option (Z * Z * Z)) :=
  l ← get_lst lambda;
  if l =? 0 then mret None
  else
    sv ← get_value l;
    if negb (v_tag sv =? JLVALUE_SCOPE) || (v_next sv =? 0) then mret None
    else
      pv ← get_value (v_next sv);
      if negb (v_tag pv =? JLVALUE_LIST) then mret None
      else
        params ← lift (u_lst (v_value pv));
        scope ← lift (u_scope (v_value sv));
        mret (Some (scope, params, v_next pv)).

Definition EvalLambda (lambda args : Z) : M Z :=
  parts ← lambda_parts lambda;
  match parts with
  | None => Error InvalidLambda;; mret 0
  | Some (scope, params, code) =>
      old_scope ← gets jl_scope;
      modify (set_jl_scope scope);;
      JLEnterScope;;
      new_scope ← gets jl_scope;
      ap ← get_next args;
      ok ← bind_loop fuel old_scope new_scope params ap;
      result ← (if (ok : bool) then code_loop fuel code 0 else mret 0);
      JLLeaveScope;;
      modify (set_jl_scope old_scope);;
      mret result
  end.

End functions.

(** * Evaluation *)

(** The part of [JLEvaluate] at depth [l], given the evaluator of the depth
    below. *)
Definition evaluate_value (fuel : nat) (eval : Z -> M Z) (l max value : Z) : M Z :=
  if value =? 0 then mret 0
  else if l >? max then Error MaxDepth;; mret 0
  else
    v ← get_value value;
    if v_tag v =? JLVALUE_LIST then
      lst ← get_lst value;
      temp ← eval lst;
      if temp =? 0 then mret 0
      else
        tv ← get_value temp;
        result ←
          (if v_tag tv =? JLVALUE_SPECIAL then
             match v_value tv with
             | VSpecial f => lst ← get_lst value; call_special fuel eval f lst
             | _ => undef
             end
           else if v_tag tv =? JLVALUE_LAMBDA then
             lst ← get_lst value; EvalLambda fuel eval temp lst
           else eval temp);
        JLRelease temp;;
        mret result
    else if v_tag v =? JLVALUE_VARIABLE then
      s ← lift (u_str (v_value v));
      r ← Lookup s;
      JLRetain r;;
      mret r
    else if negb (v_tag v =? JLVALUE_NIL) then
      JLRetain value;; mret value
    else mret 0.

Fixpoint JLEvaluate (fuel : nat) (value : Z) : M Z :=
  match fuel with
  | O => undef
  | S fuel' =>
      l ← gets levels;
      e ← gets jl_error;
      if negb (l =? 0) && e then mret 0
      else
        (if l =? 0 then modify (set_jl_error false) else mret tt);;
        modify (set_levels (u32 (l + 1)));;
        l ← gets levels;
        max ← gets max_levels;
        result ← evaluate_value fuel' (JLEvaluate fuel') l max value;
        l ← gets levels;
        modify (set_levels (u32 (l - 1)));;
        mret result
  end.

(** * Contexts *)

Definition INTERNAL_FUNCTIONS : list (bytes * JLFunction) :=
  map (fun x => (str_of x.1, x.2)) ([
   ( "=",         F_Compare    );
   ( "!=",        F_Compare    );
   ( ">",         F_Compare    );
   ( ">=",        F_Compare    );
   ( "<",         F_Compare    );
   ( "<=",        F_Compare    );
   ( "+",         F_Add        );
   ( "-",         F_Sub        );
   ( "*",         F_Mul        );
   ( "/",         F_Div        );
   ( "mod",       F_Mod        );
   ( "and",       F_And        );
   ( "or",        F_Or         );
   ( "not",       F_Not        );
   ( "begin",     F_Begin      );
   ( "cons",      F_Cons       );
   ( "define",    F_Define     );
   ( "head",      F_Head       );
   ( "if",        F_If         );
   ( "lambda",    F_Lambda     );
   ( "list",      F_List       );
   ( "rest",      F_Rest       );
   ( "substr",    F_Substr     );
   ( "concat",    F_Concat     );
   ( "number?",   F_IsNumber   );
   ( "string?",   F_IsString   );
   ( "list?",     F_IsList     );
   ( "null?",     F_IsNull     )
  ])%string.

Fixpoint register_loop (fs : list (bytes * JLFunction)) : M unit :=
  match fs with
  | [] => mret tt
  | (name, f) :: fs' => JLDefineSpecial name f;; register_loop fs'
  end.
Definition RegisterFunctions : M unit := register_loop INTERNAL_FUNCTIONS.

(** The context as [malloc]ed and initialised, before its first scope. *)
Definition empty_context : JLContext :=
  mk_context ∅ ∅ [] 0 0 1 0 32768 false [].

Definition JLCreateContext : option JLContext :=
  r ← (JLEnterScope;; RegisterFunctions;; JLDefineValue (Some nil_text) 0) empty_context;
  Some r.2.

(** The blocks are freed: no node is left. *)
Definition FreeContext : M unit := modify (set_pool ∅ ∅ [] 0).

Definition JLDestroyContext : M unit := JLLeaveScope;; FreeContext.
