(* ===== verification/JlParse.v ===== *)
(** The reader of the JL lisp interpreter: [ParseLiteral], [ParseList],
    [ParseExpression] and [JLParse] of src/pus/app/lisp/jl.c, with [strtod] and
    [strcspn] of src/pus/lib/stringx/stringx.c.

    The text is a buffer (its bytes, the terminating zero and whatever follows
    it) and a [char **line] the buffer with a position; [strtod] writes into the
    buffer.  A read outside the buffer is [None].  [atof] belongs to the kernel
    library. *)
From Stdlib Require Import SpecFloat.
From S2P Require Import Prelude CText JlHeap JlEval.

(** The kernel library's [atof], on the characters before the zero. *)
Class JLLib := { atof : bytes -> spec_float }.

(** * Characters *)

Definition isspace (c : Z) : bool := (c =? 32) || ((9 <=? c) && (c <=? 13)).
Definition ishex_lower (c : Z) : bool := (97 <=? c) && (c <=? 102).
Definition ishex_upper (c : Z) : bool := (65 <=? c) && (c <=? 70).
Definition isoctal (c : Z) : bool := (48 <=? c) && (c <=? 55).

(** A character in either case. *)
Definition letter (lower c : Z) : bool := (c =? lower) || (c =? lower - 32).

(** * stringx.c *)

(** Do the characters from [p] on spell [w], in either case?  The reads stop at
    the first difference, as those of [&&] do. *)
Fixpoint spells (txt : bytes) (p : Z) (w : bytes) : option bool :=
  match w with
  | [] => Some true
  | l :: w' =>
      c ← znth txt p;
      if letter l c then spells txt (p + 1) w' else Some false
  end.

Definition inf_text : bytes := [105; 110; 102].
Definition inity_text : bytes := [105; 110; 105; 116; 121].
Definition nan_text : bytes := [110; 97; 110].

(** Digits with at most one period among them. *)
Fixpoint digits_loop (fuel : nat) (txt : bytes) (p : Z) (got_dot : bool) : option Z :=
  match fuel with
  | O => None
  | S fuel' =>
      c ← znth txt p;
      if isdigit c || (negb got_dot && (c =? 46))
      then digits_loop fuel' txt (p + 1) (got_dot || (c =? 46))
      else Some p
  end.

(** The end of the number at [p], or [None] inside when there is none: what
    [strtod] stores to [*ptr]. *)
Definition strtod_end (txt : bytes) (p : Z) : option (option Z) :=
  inf ← spells txt p inf_text;
  if (inf : bool) then
    inity ← spells txt (p + 3) inity_text;
    Some (Some (if (inity : bool) then p + 8 else p + 3))
  else
    nan ← spells txt p nan_text;
    if (nan : bool) then
      let p := p + 3 in
      c ← znth txt p;
      if c =? 40 then
        q ← skip (fun c => negb (c =? 0) && negb (c =? 41)) txt (p + 1);
        c ← znth txt q;
        Some (Some (if c =? 41 then q + 1 else q))
      else Some (Some p)
    else
      c ← znth txt p;
      if isdigit c || (c =? 46) then
        p ← digits_loop (text_fuel txt) txt p false;
        c ← znth txt p;
        if letter 101 c then
          c1 ← znth txt (p + 1);
          let i := if (c1 =? 43) || (c1 =? 45) then 2 else 1 in
          ci ← znth txt (p + i);
          if isdigit ci then q ← skip isdigit txt (p + i); Some (Some q)
          else Some (Some p)
        else Some (Some p)
      else Some None.

(** [strtod] with a non-NULL [ptr]: the number, [*ptr], and the buffer it may
    have written to. *)
Definition strtod `{JLLib} (txt : bytes) (str : Z) : option (spec_float * Z * bytes) :=
  p ← skip isspace txt str;
  c ← znth txt p;
  negative ← (if c =? 45 then c1 ← znth txt (str + 1); Some (negb (c1 =? 32)) else Some false);
  txt ← (if (negative : bool) then zupd txt str 48 else Some txt);
  c ← znth txt p;
  let p := if (c =? 43) || (c =? 45) then p + 1 else p in
  e ← strtod_end txt p;
  match e with
  | Some e =>
      s ← c_string txt str;
      Some (d_mul (atof s) (d_of_Z (if (negative : bool) then -1 else 1)), e, txt)
  | None => Some (d_zero, str, txt)
  end.

(** [strcspn]: [strchr] also finds the terminating zero. *)
Definition strcspn (txt : bytes) (string : Z) (reject : bytes) : option Z :=
  q ← skip (fun c => negb (existsb (Z.eqb c) (reject ++ [0]))) txt string;
  Some (q - string).

(** * The reader (jl.c) *)

Definition cursor : Type := bytes * Z.

(** The character after a backslash, and the state it puts the loop in: the
    character itself, a hexadecimal or an octal escape. *)
Inductive escape := Literal (c : Z) | Hex | Octal.
Definition control_char (c : Z) : escape :=
  if c =? 97 then Literal 7 else if c =? 98 then Literal 8 else if c =? 102 then Literal 12
  else if c =? 110 then Literal 10 else if c =? 114 then Literal 13 else if c =? 116 then Literal 9
  else if c =? 118 then Literal 11 else if c =? 120 then Hex else if c =? 48 then Octal
  else Literal c.

(** The loop over a string literal; [acc] are the [len] characters stored so
    far.  The digits of an escape are added up in [str[len]], but [len] does not
    move past it, so the next character or the terminator overwrites it. *)
Fixpoint string_loop (fuel : nat) (txt : bytes) (p : Z) (acc : bytes)
    (in_control : bool) (in_hex in_octal : Z) : option (bytes * Z) :=
  match fuel with
  | O => None
  | S fuel' =>
      c ← znth txt p;
      if (c =? 0) || (negb in_control && (c =? 34)) then Some (acc, p)
      else if negb (in_hex =? 0) then
        if isdigit c || ishex_lower c || ishex_upper c
        then string_loop fuel' txt (p + 1) acc in_control (in_hex - 1) in_octal
        else string_loop fuel' txt p acc in_control 0 in_octal
      else if negb (in_octal =? 0) then
        if isoctal c
        then string_loop fuel' txt (p + 1) acc in_control in_hex (in_octal - 1)
        else string_loop fuel' txt p acc in_control in_hex 0
      else if in_control then
        match control_char c with
        | Literal c => string_loop fuel' txt (p + 1) (acc ++ [c]) false in_hex in_octal
        | Hex => string_loop fuel' txt (p + 1) acc false 2 in_octal
        | Octal => string_loop fuel' txt (p + 1) acc false in_hex 3
        end
      else if c =? 92 then string_loop fuel' txt (p + 1) acc true in_hex in_octal
      else string_loop fuel' txt (p + 1) (acc ++ [c]) false in_hex in_octal
  end.

(** The characters that end a token. *)
Definition is_separator (c : Z) : bool :=
  existsb (Z.eqb c) [0; 40; 41; 32; 9; 13; 10; 59].

Section reader.
Context `{JLLib}.

Definition ParseLiteral (line : cursor) : M (Z * cursor) :=
  let '(txt, start) := line in
  result ← CreateValue None JLVALUE_NIL;
  c ← lift (znth txt start);
  if c =? 34 then
    '(s, p) ← lift (string_loop (2 * text_fuel txt) txt (start + 1) [] false 0 0);
    update_value result (fun v => with_tag JLVALUE_STRING (with_value (VStr s) v));;
    c ← lift (znth txt p);
    mret (result, (txt, if c =? 0 then p else p + 1))
  else
    p ← lift (skip (fun c => negb (is_separator c)) txt start);
    let len := p - start in
    '(d, end_, txt) ← lift (strtod txt start);
    (if negb (start + len =? end_) then
       let name := take (Z.to_nat len) (drop (Z.to_nat start) txt) in
       update_value result (fun v => with_tag JLVALUE_VARIABLE (with_value (VStr name) v))
     else
       update_value result (fun v => with_tag JLVALUE_NUMBER (with_value (VNumber d) v)));;
    mret (result, (txt, p)).

(** The loop that skips white space, line ends and comments.  Whatever it saw,
    it moves on by one character: after a comment that is the end of its line,
    or the end of the text. *)
Fixpoint skip_space (fuel : nat) (txt : bytes) (p : Z) : M Z :=
  match fuel with
  | O => undef
  | S fuel' =>
      c ← lift (znth txt p);
      if c =? 59 then
        q ← lift (skip (fun c => negb (c =? 0) && negb (c =? 10)) txt p);
        skip_space fuel' txt (q + 1)
      else if c =? 10 then
        l ← gets jl_line;
        modify (set_jl_line (u32 (l + 1)));;
        skip_space fuel' txt (p + 1)
      else if negb (c =? 9) && negb (c =? 32) && negb (c =? 13) then mret p
      else skip_space fuel' txt (p + 1)
  end.

Section list_items.
Variable parse_expression : cursor -> M (Z * cursor).

(** [while ( **line && **line != ')')] *)
Fixpoint parse_items (n : nat) (item : place) (line : cursor) : M cursor :=
  c ← lift (znth line.1 line.2);
  if (c =? 0) || (c =? 41) then mret line
  else
    match n with
    | O => undef
    | S n' =>
        '(temp, line) ← parse_expression line;
        if temp =? 0 then mret line
        else place_set item temp;; parse_items n' (PNext temp) line
    end.
End list_items.

Definition ParseList (parse_expression : cursor -> M (Z * cursor)) (n : nat) (line : cursor)
    : M (Z * cursor) :=
  result ← CreateValue None JLVALUE_LIST;
  update_value result (with_value (VLst 0));;
  '(txt, p) ← parse_items parse_expression n (PLst result) (line.1, line.2 + 1);
  c ← lift (znth txt p);
  if negb (c =? 41) then
    Error ExpectedParen;; JLRelease result;; mret (0, (txt, p))
  else mret (result, (txt, p + 1)).

Fixpoint ParseExpression (fuel : nat) (line : cursor) : M (Z * cursor) :=
  match fuel with
  | O => undef
  | S fuel' =>
      let txt := line.1 in
      p ← skip_space (text_fuel txt) txt line.2;
      c ← lift (znth txt p);
      if (c =? 0) || (c =? 41) then mret (0, (txt, p))
      else if c =? 40 then ParseList (ParseExpression fuel') fuel' (txt, p)
      else ParseLiteral (txt, p)
  end.

(** Every list and every item has a character of its own, so the length of the
    text bounds the nesting and the loops. *)
Definition JLParse (line : cursor) : M (Z * cursor) :=
  '(result, (txt, p)) ← ParseExpression (text_fuel line.1) line;
  c ← lift (znth txt p);
  if c =? 41 then Error UnexpectedParen;; mret (result, (txt, p + 1))
  else mret (result, (txt, p)).

(** * The console (main.c) *)

(** [ProcessBuffer]: each expression is read and evaluated; the last result is
    kept. *)
Fixpoint ProcessBuffer (n fuel : nat) (line : cursor) (result : Z) : M (Z * cursor) :=
  c ← lift (znth line.1 line.2);
  if c =? 0 then mret (result, line)
  else
    match n with
    | O => undef
    | S n' =>
        '(value, line) ← JLParse line;
        if value =? 0 then ProcessBuffer n' fuel line result
        else
          JLRelease result;;
          result ← JLEvaluate fuel value;
          JLRelease value;;
          ProcessBuffer n' fuel line result
    end.

Definition exit_text : bytes := [101; 120; 105; 116].
Definition print_name : bytes := [112; 114; 105; 110; 116].
Definition arrow_text : bytes := [61; 62; 32].

(** [process_buffer]: [true] on "exit", and the buffer as it leaves it.  The
    reset of [pos] is in [jli_char]. *)
Definition process_buffer (fuel : nat) (buffer : bytes) : M (bool * bytes) :=
  s ← lift (c_string buffer 0);
  if strcmp s exit_text =? 0 then mret (true, buffer)
  else
    JLDefineSpecial print_name F_Print;;
    '(result, line) ← ProcessBuffer (text_fuel buffer) fuel (buffer, 0) 0;
    text arrow_text;;
    JLPrint fuel result;;
    text [10];;
    JLRelease result;;
    mret (false, line.1).

Definition LINE_LEN : Z := 128.
Definition BUFFER_SIZE : Z := 200.

(** The locals of [jli] and the static [pos]. *)
Record console := mk_console { jl_pos : Z; jl_escape : Z; jl_buffer : bytes }.

Definition erase_text : bytes := [8; 32; 8].
Definition too_long_text : bytes :=
  [10; 101; 114; 114; 111; 114; 58; 32; 108; 105; 110; 101; 32; 116; 111; 111; 32; 108; 111;
   110; 103; 10].

Definition console_put (s : console) (c : Z) : M console :=
  b ← lift (zupd (jl_buffer s) (jl_pos s) (u8 c));
  mret (mk_console (jl_pos s + 1) (jl_escape s) b).

Definition console_erase (s : console) : M console :=
  if jl_pos s >? 0 then
    text erase_text;; mret (mk_console (jl_pos s - 1) (jl_escape s) (jl_buffer s))
  else mret s.

Definition console_escape (l : Z) (s : console) : console := mk_console (jl_pos s) l (jl_buffer s).

(** One character: the new state, and whether the loop is left.  After a line
    the code falls through to the case of the backspace. *)
Definition jli_switch (fuel : nat) (s : console) (c : Z) : M (console * bool) :=
  if jl_escape s =? 0 then
    if (c =? 13) || (c =? 10) then
      s ← console_put s 0;
      text [10];;
      '(over, b) ← process_buffer fuel (jl_buffer s);
      if (over : bool) then mret (mk_console (jl_pos s) (jl_escape s) b, true)
      else s ← console_erase (mk_console 0 (jl_escape s) b); mret (s, false)
    else if (c =? 127) || (c =? 8) then s ← console_erase s; mret (s, false)
    else if c =? 27 then mret (console_escape (jl_escape s + 1) s, false)
    else s ← console_put s c; text [c];; mret (s, false)
  else if jl_escape s =? 1 then
    mret (console_escape (if c =? 91 then jl_escape s + 1 else 0) s, false)
  else
    s ← (if c =? 67 then s ← console_put s 32; text [32];; mret s
         else if c =? 68 then console_erase s
         else mret s);
    mret (console_escape 0 s, false).

(** With the test for the end of the line that ends the loop's body; [goto done]
    from the switch skips it. *)
Definition jli_char (fuel : nat) (s : console) (c : Z) : M (console * bool) :=
  '(s, over) ← jli_switch fuel s c;
  if (over : bool) then mret (s, true)
  else if jl_pos s =? LINE_LEN - 1 then
    text too_long_text;; mret (mk_console 0 (jl_escape s) (jl_buffer s), true)
  else mret (s, false).

(** The loop over the characters [getchar] returns, until it is left. *)
Fixpoint jli_loop (fuel : nat) (s : console) (cs : list Z) : M (console * bool) :=
  match cs with
  | [] => mret (s, false)
  | c :: cs' =>
      '(s, over) ← jli_char fuel s c;
      if (over : bool) then mret (s, true) else jli_loop fuel s cs'
  end.

(** The command: a session from the static [p] on, with [b] in the uninitialised
    buffer.  Returns the state with the context and whether the session ended;
    the context is then destroyed. *)
Definition jli (fuel : nat) (p : Z) (b : bytes) (cs : list Z)
    : option (console * bool * JLContext) :=
  st ← JLCreateContext;
  '(s, over, st) ← jli_loop fuel (mk_console p 0 b) cs st;
  if (over : bool) then '(_, st) ← JLDestroyContext st; Some (s, true, st)
  else Some (s, false, st).

End reader.
