(* ===== verification/JlLogic.v ===== *)
(** A program logic for the JL interpreter's monad, and the pool: [wp m Q st]
    says that [m] runs without undefined behaviour from [st] and ends with [Q].
    The rest relates heaps that differ in reference counts and fresh nodes. *)
From S2P Require Import Prelude CText JlHeap.

(** * Weakest preconditions *)

Definition wp {A} (m : M A) (Q : A -> JLContext -> Prop) (st : JLContext) : Prop :=
  match m st with Some (a, st') => Q a st' | None => False end.

Lemma wp_run {A} (m : M A) Q st : wp m Q st -> exists a st', m st = Some (a, st') /\ Q a st'.
Proof. unfold wp. destruct (m st) as [[a st']|]; [eauto|done]. Qed.
Lemma wp_intro {A} (m : M A) (Q : A -> JLContext -> Prop) st a st' :
  m st = Some (a, st') -> Q a st' -> wp m Q st.
Proof. unfold wp. by intros ->. Qed.

Lemma wp_bind {A B} (m : M A) (k : A -> M B) Q st :
  wp m (fun a st' => wp (k a) Q st') st -> wp (m ≫= k) Q st.
Proof. unfold wp, mbind, M_bind. by destruct (m st) as [[a st']|]. Qed.

Lemma wp_mono {A} (m : M A) (Q Q' : A -> JLContext -> Prop) st :
  wp m Q st -> (forall a st', Q a st' -> Q' a st') -> wp m Q' st.
Proof. unfold wp. destruct (m st) as [[a st']|]; auto. Qed.

Lemma wp_ret {A} (a : A) (Q : A -> JLContext -> Prop) st : Q a st -> wp (mret a) Q st.
Proof. done. Qed.
Lemma wp_gets {A} (f : JLContext -> A) (Q : A -> JLContext -> Prop) st :
  Q (f st) st -> wp (gets f) Q st.
Proof. done. Qed.
Lemma wp_modify f (Q : unit -> JLContext -> Prop) st : Q tt (f st) -> wp (modify f) Q st.
Proof. done. Qed.
Lemma wp_lift {A} (o : option A) a (Q : A -> JLContext -> Prop) st :
  o = Some a -> Q a st -> wp (lift o) Q st.
Proof. intros -> ?. done. Qed.

Lemma wp_get_value p v (Q : JLValue -> JLContext -> Prop) st :
  nodes st !! p = Some (NValue v) -> Q v st -> wp (get_value p) Q st.
Proof. unfold wp, get_value. by intros ->. Qed.
Lemma wp_get_binding p b (Q : BindingNode -> JLContext -> Prop) st :
  nodes st !! p = Some (NBinding b) -> Q b st -> wp (get_binding p) Q st.
Proof. unfold wp, get_binding. by intros ->. Qed.
Lemma wp_get_scope p s (Q : ScopeNode -> JLContext -> Prop) st :
  nodes st !! p = Some (NScope s) -> Q s st -> wp (get_scope p) Q st.
Proof. unfold wp, get_scope. by intros ->. Qed.

(** The state with other nodes. *)
Lemma wp_put_node p n (Q : unit -> JLContext -> Prop) st :
  Q tt (set_nodes (<[p := n]> (nodes st)) st) -> wp (put_node p n) Q st.
Proof. done. Qed.
Lemma wp_update_value p f v (Q : unit -> JLContext -> Prop) st :
  nodes st !! p = Some (NValue v) ->
  Q tt (set_nodes (<[p := NValue (f v)]> (nodes st)) st) -> wp (update_value p f) Q st.
Proof. intros H ?. unfold update_value. apply wp_bind. eapply wp_get_value; [done|]. done. Qed.

Lemma wp_field {A} (f : JLValue -> A) p v (Q : A -> JLContext -> Prop) st :
  nodes st !! p = Some (NValue v) -> Q (f v) st ->
  wp (v ← get_value p; mret (f v)) Q st.
Proof. intros H ?. apply wp_bind. by eapply wp_get_value. Qed.
Lemma wp_get_next p v (Q : Z -> JLContext -> Prop) st :
  nodes st !! p = Some (NValue v) -> Q (v_next v) st -> wp (get_next p) Q st.
Proof. apply wp_field. Qed.
Lemma wp_get_tag p v (Q : Z -> JLContext -> Prop) st :
  nodes st !! p = Some (NValue v) -> Q (v_tag v) st -> wp (get_tag p) Q st.
Proof. apply wp_field. Qed.
Lemma wp_get_member {A} (f : jl_union -> option A) p v a (Q : A -> JLContext -> Prop) st :
  nodes st !! p = Some (NValue v) -> f (v_value v) = Some a -> Q a st ->
  wp (v ← get_value p; lift (f (v_value v))) Q st.
Proof. intros H Hf ?. apply wp_bind. eapply wp_get_value; [done|]. by eapply wp_lift. Qed.
Lemma wp_get_lst p v l (Q : Z -> JLContext -> Prop) st :
  nodes st !! p = Some (NValue v) -> v_value v = VLst l -> Q l st -> wp (get_lst p) Q st.
Proof. intros H Hv. eapply wp_get_member; [done|]. by rewrite Hv. Qed.
Lemma wp_get_str p v s (Q : bytes -> JLContext -> Prop) st :
  nodes st !! p = Some (NValue v) -> v_value v = VStr s -> Q s st -> wp (get_str p) Q st.
Proof. intros H Hv. eapply wp_get_member; [done|]. by rewrite Hv. Qed.
Lemma wp_get_number p v d (Q : _ -> JLContext -> Prop) st :
  nodes st !! p = Some (NValue v) -> v_value v = VNumber d -> Q d st -> wp (get_number p) Q st.
Proof. intros H Hv. eapply wp_get_member; [done|]. by rewrite Hv. Qed.

(** One step through a bind whose first computation is named by [L]. *)
Ltac wstep L := apply wp_bind; eapply L.
Ltac wpure := repeat (apply wp_bind; first [eapply wp_gets | eapply wp_modify]).

(** * The pool *)

(** The addresses of the blocks allocated so far. *)
Definition pool_addr (st : JLContext) (p : Z) : Prop := 1 <= p < node_at (blocks st) 0.

(** Every node of every block is in use or on the free list, once. *)
Record pool_ok (st : JLContext) : Prop := {
  pk_nodup : NoDup (freelist st);
  pk_addr : forall p, pool_addr st p <-> (p ∈ freelist st \/ is_Some (nodes st !! p));
  pk_free : forall p, p ∈ freelist st -> nodes st !! p = None;
  pk_blocks : 0 <= blocks st }.

(** ... except [p], which was taken and not yet written. *)
Record pool_taken (p : Z) (st : JLContext) : Prop := {
  pt_nodup : NoDup (freelist st);
  pt_addr : forall q, pool_addr st q <-> (q = p \/ q ∈ freelist st \/ is_Some (nodes st !! q));
  pt_free : forall q, q ∈ freelist st -> nodes st !! q = None;
  pt_blocks : 0 <= blocks st;
  pt_notfree : p ∉ freelist st;
  pt_notused : nodes st !! p = None }.

Lemma is_Some_Some {A} (a : A) : is_Some (Some a).
Proof. by eexists. Qed.
#[local] Hint Resolve is_Some_Some : core.
#[local] Ltac pool_iff := intuition (subst; eauto; first [done | congruence]).

(** The fields no heap operation touches. *)
Definition rest_of (st : JLContext) :=
  (jl_scope st, jl_line st, (levels st, max_levels st), (jl_error st, printed st)).

Lemma pool_ok_pos st p n : pool_ok st -> nodes st !! p = Some n -> p <> 0.
Proof. intros H Hp. destruct (pk_addr _ H p) as [_ H']. specialize (H' (or_intror (mk_is_Some _ _ Hp))). red in H'. lia. Qed.

Lemma pool_ok_rest st st' :
  pool_ok st -> nodes st' = nodes st -> freelist st' = freelist st -> blocks st' = blocks st ->
  pool_ok st'.
Proof.
  intros [H1 H2 H3 H4] Hn Hf Hb. split; rewrite ?Hn, ?Hf, ?Hb; auto.
  intros p. unfold pool_addr. rewrite Hb. apply H2.
Qed.

(** Nodes that replace others keep the pool. *)
Lemma pool_ok_update st p n n' :
  pool_ok st -> nodes st !! p = Some n -> pool_ok (set_nodes (<[p := n']> (nodes st)) st).
Proof.
  intros [H1 H2 H3 H4] Hp. split; cbn; auto.
  - intros q. unfold pool_addr in *. cbn. rewrite H2. destruct (decide (q = p)) as [->|Hq].
    + rewrite lookup_insert_eq. rewrite Hp. pool_iff.
    + by rewrite lookup_insert_ne by done.
  - intros q Hq. rewrite lookup_insert_ne; [auto|]. intros ->. rewrite H3 in Hp; done.
Qed.

Lemma pool_taken_put p n st : pool_taken p st -> pool_ok (set_nodes (<[p := n]> (nodes st)) st).
Proof.
  intros [H1 H2 H3 H4 H5 H6]. split; cbn; auto.
  - intros q. unfold pool_addr in *. cbn. rewrite H2. destruct (decide (q = p)) as [->|Hq].
    + rewrite lookup_insert_eq. pool_iff.
    + rewrite lookup_insert_ne by done. pool_iff.
  - intros q Hq. rewrite lookup_insert_ne; [auto|]. by intros ->.
Qed.

Lemma in_free_loop n : forall b i fl p, p ∈ free_loop n b i fl <->
  (node_at b i <= p < node_at b (i + Z.of_nat n)) \/ p ∈ fl.
Proof.
  induction n as [|n IH]; intros b i fl p; cbn [free_loop].
  - unfold node_at. split; [by right|]. intros [?|?]; [lia|done].
  - rewrite IH, elem_of_cons. unfold node_at. split.
    + intros [?|[->|?]]; [left; lia|left; lia|by right].
    + intros [?|?]; [|by right; right]. destruct (decide (p = 1 + b * BLOCK_SIZE + i)); [by right; left|left; lia].
Qed.

Lemma free_loop_nodup n : forall b i fl, NoDup fl -> (forall p, p ∈ fl -> p < node_at b i) ->
  NoDup (free_loop n b i fl).
Proof.
  induction n as [|n IH]; intros b i fl Hnd Hlt; cbn [free_loop]; [done|].
  apply IH.
  - apply NoDup_cons_2; [|done]. intros Hin. apply Hlt in Hin. lia.
  - intros p [->|Hp]%elem_of_cons; [unfold node_at; lia|]. apply Hlt in Hp. unfold node_at in *. lia.
Qed.

Lemma in_free_nodes n b p : 0 <= n ->
  p ∈ free_loop (Z.to_nat n) b 1 [] <-> node_at b 1 <= p < node_at b (1 + n).
Proof. intros Hn. rewrite in_free_loop, elem_of_nil, Z2Nat.id by done. tauto. Qed.
Lemma free_nodes_nodup n b : NoDup (free_loop n b 1 []).
Proof. apply free_loop_nodup; [constructor|]. by intros p ?%elem_of_nil. Qed.

Lemma in_block_nodes b p : p ∈ block_nodes b <-> node_at b 1 <= p < node_at (b + 1) 0.
Proof.
  etransitivity; [exact (in_free_nodes (BLOCK_SIZE - 1) b p ltac:(done))|]. unfold node_at, BLOCK_SIZE. lia.
Qed.
Lemma block_nodes_nodup b : NoDup (block_nodes b).
Proof. exact (free_nodes_nodup (Z.to_nat (BLOCK_SIZE - 1)) b). Qed.

Lemma wp_GetFree (Q : Z -> JLContext -> Prop) st :
  pool_ok st ->
  (forall p st', p <> 0 -> nodes st !! p = None -> nodes st' = nodes st -> rest_of st' = rest_of st ->
     pool_taken p st' -> Q p st') ->
  wp GetFree Q st.
Proof.
  intros [H1 H2 H3 H4] HQ. unfold wp, GetFree. destruct (freelist st) as [|p fl] eqn:Ef.
  - assert (Hn : forall p, node_at (blocks st) 0 <= p -> nodes st !! p = None).
    { intros p Hp. destruct (nodes st !! p) eqn:E; [|done]. exfalso.
      assert (Ha : pool_addr st p) by (apply H2; right; by rewrite E). red in Ha. lia. }
    assert (Hnode : nodes st !! node_at (blocks st) 0 = None) by (apply Hn; lia).
    apply HQ; cbn; auto; [unfold node_at, BLOCK_SIZE; lia|]. split; cbn; auto.
    + apply block_nodes_nodup.
    + intros q. unfold pool_addr. cbn. rewrite in_block_nodes.
      specialize (H2 q). unfold pool_addr in H2. unfold node_at, BLOCK_SIZE in *.
      rewrite elem_of_nil in H2.
      destruct (decide (1 <= q < 1 + blocks st * 8192 + 0)) as [Hin|Hout]; [intuition (lia || done)|].
      destruct (nodes st !! q) eqn:E; [exfalso; apply Hout; apply H2; right; by rewrite ?E|].
      split; [intros; destruct (decide (q = 1 + blocks st * 8192 + 0)); [auto|right; left; lia]|].
      intros [-> |[? | [? ?]]]; [lia|lia|done].
    + intros q Hq. apply in_block_nodes in Hq. apply Hn. unfold node_at, BLOCK_SIZE in *. lia.
    + lia.
    + rewrite in_block_nodes. unfold node_at, BLOCK_SIZE. lia.
  - pose proof (NoDup_cons_1_1 _ _ H1) as Hp; pose proof (NoDup_cons_1_2 _ _ H1) as Hfl.
    assert (Hnode : nodes st !! p = None) by (apply H3; left).
    assert (Ha : pool_addr st p) by (apply H2; left; left).
    apply HQ; cbn; auto; [red in Ha; lia|]. split; cbn; auto.
    + intros q. unfold pool_addr in *. cbn. rewrite H2, elem_of_cons. pool_iff.
    + intros q Hq. apply H3. by right.
Qed.

Lemma wp_PutFree p n (Q : unit -> JLContext -> Prop) st :
  pool_ok st -> nodes st !! p = Some n ->
  (forall st', nodes st' = delete p (nodes st) -> rest_of st' = rest_of st -> pool_ok st' ->
     Q tt st') ->
  wp (PutFree p) Q st.
Proof.
  intros [H1 H2 H3 H4] Hp HQ. unfold wp, PutFree. rewrite Hp.
  assert (Hf : p ∉ freelist st) by (intros Hin; rewrite (H3 _ Hin) in Hp; done).
  apply HQ; cbn; auto. split; cbn; auto.
  - by constructor.
  - intros q. unfold pool_addr in *. cbn. rewrite H2, elem_of_cons.
    destruct (decide (q = p)) as [->|Hq]; [rewrite lookup_delete_eq, Hp; pool_iff|].
    rewrite lookup_delete_ne by done. pool_iff.
  - intros q [->|Hq]%elem_of_cons; [by rewrite lookup_delete_eq|].
    rewrite lookup_delete_ne; [auto|]. by intros ->.
Qed.

Lemma wp_CreateValue (tag : Z) (Q : Z -> JLContext -> Prop) st :
  pool_ok st ->
  (forall p st', p <> 0 -> nodes st !! p = None ->
     nodes st' = <[p := NValue (mk_value VUndef 0 1 tag)]> (nodes st) ->
     rest_of st' = rest_of st -> pool_ok st' -> Q p st') ->
  wp (CreateValue None tag) Q st.
Proof.
  intros Hok HQ. unfold CreateValue. apply wp_bind. apply wp_GetFree; [done|].
  intros p st' Hp Hfresh Hnodes Hrest Ht. apply wp_bind, wp_put_node.
  apply wp_bind. cbn. apply wp_ret, wp_ret. apply HQ; try done; cbn; [by rewrite Hnodes|].
  by apply pool_taken_put.
Qed.

(** A fresh value with its union stored. *)
Lemma wp_new_value (tag : Z) u (Q : Z -> JLContext -> Prop) st :
  pool_ok st ->
  (forall p st', p <> 0 -> nodes st !! p = None ->
     nodes st' = <[p := NValue (mk_value u 0 1 tag)]> (nodes st) ->
     rest_of st' = rest_of st -> pool_ok st' -> Q p st') ->
  wp (result ← CreateValue None tag; update_value result (with_value u);; mret result) Q st.
Proof.
  intros Hok HQ. apply wp_bind. apply wp_CreateValue; [done|].
  intros p st' Hp Hfresh Hnodes Hrest Ht. apply wp_bind.
  assert (Hl : nodes st' !! p = Some (NValue (mk_value VUndef 0 1 tag)))
    by by rewrite Hnodes, lookup_insert_eq.
  eapply wp_update_value; [done|]. apply wp_ret. apply HQ; try done; cbn.
  - rewrite Hnodes. by rewrite insert_insert_eq.
  - by eapply pool_ok_update.
Qed.

Lemma wp_JLDefineNumber d (Q : Z -> JLContext -> Prop) st :
  pool_ok st ->
  (forall p st', p <> 0 -> nodes st !! p = None ->
     nodes st' = <[p := NValue (mk_value (VNumber d) 0 1 JLVALUE_NUMBER)]> (nodes st) ->
     rest_of st' = rest_of st -> pool_ok st' -> Q p st') ->
  wp (JLDefineNumber None d) Q st.
Proof. apply wp_new_value. Qed.
