(* ===== verification/JlScopes.v ===== *)
(** Scopes of the JL interpreter: the binding trees as an abstract search tree,
    what [JLDefineValue] and [Lookup] do to them, references held on values, and
    the release of a scope. *)
From S2P Require Import Prelude CText JlHeap JlLogic.

Abbreviation heap := (gmap Z FreeNode).

(** * Heaps that differ in reference counts and further nodes *)

Definition same_node (n n' : FreeNode) : Prop :=
  match n, n' with
  | NValue v, NValue v' => v_value v = v_value v' /\ v_next v = v_next v' /\ v_tag v = v_tag v'
  | _, _ => n = n'
  end.

Definition sub (ns ns' : heap) : Prop :=
  forall p n, ns !! p = Some n -> exists n', ns' !! p = Some n' /\ same_node n n'.

Lemma same_node_refl n : same_node n n.
Proof. by destruct n. Qed.
Lemma sub_refl ns : sub ns ns.
Proof. intros p n H. eauto using same_node_refl. Qed.
Lemma sub_subseteq (ns ns' : heap) : ns ⊆ ns' -> sub ns ns'.
Proof. intros Hs p n Hp. exists n. split; [by eapply lookup_weaken|apply same_node_refl]. Qed.
Lemma same_node_trans n1 n2 n3 : same_node n1 n2 -> same_node n2 n3 -> same_node n1 n3.
Proof. destruct n1, n2, n3; simpl; intuition congruence. Qed.
Lemma sub_trans ns1 ns2 ns3 : sub ns1 ns2 -> sub ns2 ns3 -> sub ns1 ns3.
Proof.
  intros H1 H2 p n Hp. destruct (H1 p n Hp) as (n2 & Hn2 & E2).
  destruct (H2 p n2 Hn2) as (n3 & Hn3 & E3). eauto using same_node_trans.
Qed.
#[export] Hint Resolve sub_refl : core.

Lemma sub_value ns ns' p v : sub ns ns' -> ns !! p = Some (NValue v) ->
  exists v', ns' !! p = Some (NValue v') /\ v_value v' = v_value v /\ v_next v' = v_next v /\
    v_tag v' = v_tag v.
Proof.
  intros Hs Hp. destruct (Hs _ _ Hp) as ([v'| |] & Hp' & E); simpl in E; [|done..].
  exists v'. intuition.
Qed.
Lemma sub_binding ns ns' p b : sub ns ns' -> ns !! p = Some (NBinding b) ->
  ns' !! p = Some (NBinding b).
Proof. intros Hs Hp. destruct (Hs _ _ Hp) as (n & Hp' & E). simpl in E. congruence. Qed.
Lemma sub_scope ns ns' p s : sub ns ns' -> ns !! p = Some (NScope s) -> ns' !! p = Some (NScope s).
Proof. intros Hs Hp. destruct (Hs _ _ Hp) as (n & Hp' & E). simpl in E. congruence. Qed.

Lemma sub_fresh ns p n : ns !! p = None -> sub ns (<[p := n]> ns).
Proof.
  intros Hp q m Hq. exists m. split; [|apply same_node_refl].
  rewrite lookup_insert_ne; [done|]. intros ->. congruence.
Qed.

(** * References *)

(** The values a computation allocates: numbers and strings. *)
Definition simple (u : jl_union) (t : Z) : Prop :=
  (exists d, u = VNumber d /\ t = JLVALUE_NUMBER) \/ (exists s, u = VStr s /\ t = JLVALUE_STRING).

Lemma simple_number d : simple (VNumber d) JLVALUE_NUMBER.
Proof. left. eauto. Qed.
Lemma simple_string s : simple (VStr s) JLVALUE_STRING.
Proof. right. eauto. Qed.
#[export] Hint Resolve simple_number simple_string : core.

(** [ns'] is [ns] with one more reference, to [r]: one more on a value in use, or
    a fresh simple value. *)
Inductive acq (r : Z) (ns ns' : heap) : Prop :=
  | acq_old v : ns !! r = Some (NValue v) -> 1 <= v_count v < 4294967295 ->
      ns' = <[r := NValue (with_count (v_count v + 1) v)]> ns -> acq r ns ns'
  | acq_new u t : ns !! r = None -> simple u t ->
      ns' = <[r := NValue (mk_value u 0 1 t)]> ns -> acq r ns ns'.

(** The same, where NULL takes no reference. *)
Definition held (r : Z) (ns ns' : heap) : Prop := (r = 0 /\ ns' = ns) \/ (r <> 0 /\ acq r ns ns').

Lemma acq_value r ns ns' : acq r ns ns' -> exists v, ns' !! r = Some (NValue v).
Proof. intros [v _ _ ->|u t _ _ ->]; rewrite lookup_insert_eq; eauto. Qed.

Lemma acq_other r ns ns' p : acq r ns ns' -> p <> r -> ns' !! p = ns !! p.
Proof. intros [v _ _ ->|u t _ _ ->] Hp; by rewrite lookup_insert_ne. Qed.

Lemma acq_sub r ns ns' : acq r ns ns' -> sub ns ns'.
Proof.
  intros [v Hv _ ->|u t Hn _ ->]; [|by apply sub_fresh].
  intros p n Hp. destruct (decide (p = r)) as [->|Hne].
  - rewrite lookup_insert_eq. eexists. split; [done|]. simplify_eq. by simpl.
  - rewrite lookup_insert_ne by done. eauto using same_node_refl.
Qed.

Lemma held_sub r ns ns' : held r ns ns' -> sub ns ns'.
Proof. intros [[_ ->]|[_ H]]; [done|by eapply acq_sub]. Qed.

Lemma acq_swap r r' ns ns1 ns2 : acq r ns ns1 -> acq r' ns1 ns2 ->
  exists ns1', acq r' ns ns1' /\ acq r ns1' ns2.
Proof.
  intros H1 H2. destruct (decide (r' = r)) as [->|Hne]; [by exists ns1|].
  assert (Hr' : ns1 !! r' = ns !! r') by (by eapply acq_other).
  assert (Hins : forall n, (<[r' := n]> ns : heap) !! r = ns !! r) by (intros; by apply lookup_insert_ne).
  destruct H2 as [v Hv Hc ->|u t Hv Hs ->]; rewrite Hr' in Hv;
    (eexists; split; [solve [eapply acq_old; eauto | eapply acq_new; eauto]|]);
    (destruct H1 as [w Hw Hcw ->|w t' Hw Hsw ->];
     [eapply acq_old; [by rewrite Hins|done|]|eapply acq_new; [by rewrite Hins|exact Hsw|]];
     by apply insert_insert_ne).
Qed.

Lemma held_swap r r' ns ns1 ns2 : held r ns ns1 -> held r' ns1 ns2 ->
  exists ns1', held r' ns ns1' /\ held r ns1' ns2.
Proof.
  intros [[-> ->]|[Hr H1]] H2; [exists ns2; split; [done|by left]|].
  destruct H2 as [[-> ->]|[Hr' H2]]; [exists ns; split; [by left|by right]|].
  destruct (acq_swap _ _ _ _ _ H1 H2) as (ns1' & ? & ?). exists ns1'. split; by right.
Qed.

(** References to several values, the first of them first. *)
Inductive helds : list Z -> heap -> heap -> Prop :=
  | helds_nil ns : helds [] ns ns
  | helds_cons r rs ns ns1 ns2 : held r ns ns1 -> helds rs ns1 ns2 -> helds (r :: rs) ns ns2.
#[local] Hint Constructors helds : core.

Lemma helds_perm rs rs' : Permutation rs rs' -> forall ns ns', helds rs ns ns' -> helds rs' ns ns'.
Proof.
  induction 1 as [|r rs rs' _ IH|r r' rs|rs1 rs2 rs3 _ IH1 _ IH2]; intros ns ns' Hh; [done| | |auto].
  - inversion Hh; subst. eauto.
  - inversion Hh as [|? ? ? ns1 ? H1 Hh']; subst. inversion Hh' as [|? ? ? ns2 ? H2 Hh'']; subst.
    destruct (held_swap _ _ _ _ _ H1 H2) as (ns1' & ? & ?). eauto.
Qed.

Lemma helds_app rs rs' ns ns' :
  helds (rs ++ rs') ns ns' <-> exists ns1, helds rs ns ns1 /\ helds rs' ns1 ns'.
Proof.
  revert ns. induction rs as [|r rs IH]; intros ns; simpl.
  - split; [eauto|]. intros (ns1 & H & ?). by inversion H; subst.
  - split.
    + intros H. inversion H as [|? ? ? ns1 ? H1 H2]; subst. apply IH in H2 as (ns2 & ? & ?). eauto.
    + intros (ns1 & H & ?). inversion H as [|? ? ? ns2 ? H1 H2]; subst.
      econstructor; [done|]. apply IH. eauto.
Qed.

(** The last reference taken first, and any reference taken last. *)
Lemma helds_snoc rs r ns ns1 ns2 : helds rs ns ns1 -> held r ns1 ns2 -> helds (r :: rs) ns ns2.
Proof.
  intros H1 H2. eapply helds_perm; [symmetry; apply Permutation_cons_append|].
  apply helds_app. exists ns1. eauto.
Qed.
Lemma helds_uncons r rs ns ns2 : helds (r :: rs) ns ns2 ->
  exists ns1, helds rs ns ns1 /\ held r ns1 ns2.
Proof.
  intros H. eapply helds_perm in H; [|apply Permutation_cons_append].
  apply helds_app in H as (ns1 & ? & H). exists ns1. split; [done|].
  inversion H as [|? ? ? ns3 ? ? H']; subst. by inversion H'; subst.
Qed.

Lemma helds_sub rs ns ns' : helds rs ns ns' -> sub ns ns'.
Proof. induction 1; [done|]. eapply sub_trans; [by eapply held_sub|done]. Qed.

(** * References next to nodes that are not values *)

Lemma sub_union_r S V : S ##ₘ V -> sub V (S ∪ V).
Proof.
  intros Hd p n Hp. exists n. split; [|apply same_node_refl].
  rewrite lookup_union_r; [done|]. by eapply map_disjoint_Some_r.
Qed.

Definition is_value (n : FreeNode) : bool := match n with NValue _ => true | _ => false end.
Definition structure (S : heap) : Prop := forall p n, S !! p = Some n -> is_value n = false.

Lemma acq_under S V V' r : acq r V V' -> S !! r = None -> acq r (S ∪ V) (S ∪ V').
Proof.
  intros [v Hv Hc ->|u t Hv Hs ->] HS.
  - eapply acq_old; [by rewrite lookup_union_r|done|]. by rewrite insert_union_r.
  - eapply acq_new; [|done|by rewrite insert_union_r]. by rewrite lookup_union_r.
Qed.

Lemma acq_split S V H r : structure S -> acq r (S ∪ V) H ->
  S !! r = None /\ exists V', H = S ∪ V' /\ acq r V V'.
Proof.
  intros HS Ha. assert (HSr : S !! r = None).
  { destruct (S !! r) as [n|] eqn:E; [|done].
    assert (Hn : (S ∪ V) !! r = Some n) by by apply lookup_union_Some_l.
    specialize (HS _ _ E). by destruct Ha as [v Hv _ _|u t Hv _ _]; rewrite Hv in Hn; simplify_eq. }
  split; [done|]. destruct Ha as [v Hv Hc ->|u t Hv Hs ->]; rewrite lookup_union_r in Hv by done.
  - exists (<[r := NValue (with_count (v_count v + 1) v)]> V).
    split; [by rewrite insert_union_r|by eapply acq_old].
  - exists (<[r := NValue (mk_value u 0 1 t)]> V). split; [by rewrite insert_union_r|by eapply acq_new].
Qed.

Lemma held_under S V V' r : held r V V' -> S !! r = None -> held r (S ∪ V) (S ∪ V').
Proof. intros [[-> ->]|[? ?]] ?; [by left|right; by eauto using acq_under]. Qed.
Lemma held_split S V H r : structure S -> held r (S ∪ V) H ->
  exists V', H = S ∪ V' /\ held r V V' /\ (r <> 0 -> S !! r = None).
Proof.
  intros HS [[-> ->]|[Hr Ha]]; [exists V; split; [done|split; [by left|done]]|].
  destruct (acq_split _ _ _ _ HS Ha) as (? & V' & -> & ?). exists V'.
  split; [done|]. split; [by right|done].
Qed.

Lemma acq_disjoint S V V' r : acq r V V' -> S !! r = None -> S ##ₘ V -> S ##ₘ V'.
Proof. intros [v _ _ ->|u t _ _ ->] HS Hd; by apply map_disjoint_insert_r_2. Qed.
Lemma held_disjoint S V V' r : held r V V' -> (r <> 0 -> S !! r = None) -> S ##ₘ V -> S ##ₘ V'.
Proof. intros [[-> ->]|[? ?]]; eauto using acq_disjoint. Qed.

(** Taking a reference away keeps what is disjoint. *)
Lemma acq_disjoint_rev S V V' r : acq r V V' -> S ##ₘ V' -> S ##ₘ V /\ S !! r = None.
Proof.
  intros Ha Hd. split.
  - apply map_disjoint_spec. intros p x y Hx Hy.
    destruct (acq_sub _ _ _ Ha _ _ Hy) as (n' & Hn' & _).
    by eapply map_disjoint_spec in Hd; eauto.
  - destruct (acq_value _ _ _ Ha) as [v Hv]. by eapply map_disjoint_Some_r.
Qed.
Lemma held_disjoint_rev S V V' r : held r V V' -> S ##ₘ V' -> S ##ₘ V /\ (r <> 0 -> S !! r = None).
Proof. intros [[-> ->]|[? Ha]] Hd; [done|]. destruct (acq_disjoint_rev _ _ _ _ Ha Hd). done. Qed.
Lemma helds_disjoint_rev S rs V V' : helds rs V V' -> S ##ₘ V' -> S ##ₘ V.
Proof. induction 1; [done|]. intros. by edestruct held_disjoint_rev; eauto. Qed.

(** * Release of a reference *)

Lemma wp_release_acq fuel r ns (Q : unit -> JLContext -> Prop) st :
  (0 < fuel)%nat -> pool_ok st -> r <> 0 -> acq r ns (nodes st) ->
  (forall st', nodes st' = ns -> rest_of st' = rest_of st -> pool_ok st' -> Q tt st') ->
  wp (release_value fuel r) Q st.
Proof.
  intros Hf Hok Hr Ha HQ. destruct fuel as [|fuel]; [lia|]. cbn [release_value].
  zif_false. destruct (acq_value _ _ _ Ha) as [v' Hv'].
  apply wp_bind. eapply wp_update_value; [exact Hv'|].
  apply wp_bind. eapply wp_get_value; [cbn; apply lookup_insert_eq|]. cbn [with_count v_count].
  destruct Ha as [v Hv Hc Hns|u t Hv Hs Hns]; rewrite Hns, lookup_insert_eq in Hv'; simplify_eq; simpl.
  - replace (u32 _) with (v_count v) by cint. zif_false. apply wp_ret, HQ; cbn.
    + rewrite Hns, !insert_insert_eq. destruct v; cbn in *. by apply insert_id.
    + done.
    + eapply (pool_ok_update _ _ _ _ Hok). rewrite Hns. apply lookup_insert_eq.
  - assert (Hmem : forall (st' : JLContext), nodes st' = <[r := NValue (mk_value u 0 0 t)]> (nodes st) ->
      rest_of st' = rest_of st -> pool_ok st' -> wp (PutFree r;; release_value fuel 0) Q st').
    { intros st' Hn' Hr' Hok'. apply wp_bind.
      eapply wp_PutFree; [done|rewrite Hn'; apply lookup_insert_eq|].
      intros st2 Hn2 Hr2 Hok2. assert (E : release_value fuel 0 = mret tt) by (by destruct fuel).
      rewrite E. apply wp_ret, HQ; [|congruence|done].
      rewrite Hn2, Hn', Hns, insert_insert_eq. by apply delete_insert_id. }
    change (u32 (1 - 1)) with 0.
    destruct Hs as [(d & -> & ->)|(s & -> & ->)]; apply wp_bind; cbn -[PutFree release_value].
    + apply Hmem; [done|done|]. eapply pool_ok_update; [done|]. rewrite Hns. apply lookup_insert_eq.
    + apply Hmem; [done|done|]. eapply pool_ok_update; [done|]. rewrite Hns. apply lookup_insert_eq.
Qed.

Lemma wp_release_held fuel r ns (Q : unit -> JLContext -> Prop) st :
  (0 < fuel)%nat -> pool_ok st -> held r ns (nodes st) ->
  (forall st', nodes st' = ns -> rest_of st' = rest_of st -> pool_ok st' -> Q tt st') ->
  wp (release_value fuel r) Q st.
Proof.
  intros Hf Hok [[-> Hn]|[Hr Ha]] HQ; [|by eapply wp_release_acq].
  assert (E : release_value fuel 0 = mret tt) by (by destruct fuel). rewrite E.
  apply wp_ret. by apply HQ.
Qed.

(** [JLRelease] undoes one [held]. *)
Lemma wp_JLRelease r ns (Q : unit -> JLContext -> Prop) st :
  pool_ok st -> held r ns (nodes st) ->
  (forall st', nodes st' = ns -> rest_of st' = rest_of st -> pool_ok st' -> Q tt st') ->
  wp (JLRelease r) Q st.
Proof. intros. eapply (wp_release_held (heap_fuel st)); eauto. unfold heap_fuel. lia. Qed.

Lemma wp_JLRetain r v (Q : unit -> JLContext -> Prop) st :
  pool_ok st -> nodes st !! r = Some (NValue v) -> 1 <= v_count v < 4294967295 ->
  (forall st', acq r (nodes st) (nodes st') -> rest_of st' = rest_of st -> pool_ok st' -> Q tt st') ->
  wp (JLRetain r) Q st.
Proof.
  intros Hok Hr Hc HQ. unfold JLRetain. pose proof (pool_ok_pos _ _ _ Hok Hr). zif_false.
  eapply wp_update_value; [done|]. apply HQ; cbn.
  - eapply acq_old; [done|done|]. by rewrite u32_id by lia.
  - done.
  - by eapply pool_ok_update.
Qed.
