(* ===== verification/JlTree.v ===== *)
(** The binding trees of the JL interpreter: the tree in the heap as an abstract
    search tree, what [Lookup] finds and [JLDefineValue] adds, and the release
    of a whole scope. *)
From S2P Require Import Prelude CText JlHeap JlLogic JlScopes.

(** * Abstract trees *)

Inductive btree := BLeaf | BNode (p : Z) (name : bytes) (value : Z) (l r : btree).

Definition troot (t : btree) : Z := match t with BLeaf => 0 | BNode p _ _ _ _ => p end.

Fixpoint tmap (t : btree) : heap :=
  match t with
  | BLeaf => ∅
  | BNode p x v l r => <[p := NBinding (mk_binding x v (troot l) (troot r))]> (tmap l ∪ tmap r)
  end.

(** The nodes are distinct and not NULL. *)
Fixpoint tree_ok (t : btree) : Prop :=
  match t with
  | BLeaf => True
  | BNode p _ _ l r =>
      p <> 0 /\ tmap l !! p = None /\ tmap r !! p = None /\ tmap l ##ₘ tmap r /\
      tree_ok l /\ tree_ok r
  end.

Fixpoint tvals (t : btree) : list Z :=
  match t with BLeaf => [] | BNode _ _ v l r => tvals l ++ tvals r ++ [v] end.

Fixpoint theight (t : btree) : nat :=
  match t with BLeaf => 0 | BNode _ _ _ l r => S (theight l `max` theight r) end.

Fixpoint tfind (t : btree) (x : bytes) : option Z :=
  match t with
  | BLeaf => None
  | BNode _ y v l r =>
      let c := strcmp y x in
      if c <? 0 then tfind l x else if c >? 0 then tfind r x else Some v
  end.

(** A new binding [q] for [x], or a new value for its binding. *)
Fixpoint tinsert (t : btree) (q : Z) (x : bytes) (w : Z) : btree :=
  match t with
  | BLeaf => BNode q x w BLeaf BLeaf
  | BNode p y v l r =>
      let c := strcmp y x in
      if c <? 0 then BNode p y v (tinsert l q x w) r
      else if c >? 0 then BNode p y v l (tinsert r q x w)
      else BNode p y w l r
  end.

Definition tree_at (ns : heap) (t : btree) : Prop := tree_ok t /\ tmap t ⊆ ns.

Lemma tfind_insert t q x w y : tfind (tinsert t q x w) y = if decide (y = x) then Some w else tfind t y.
Proof.
  assert (Hc : forall a b, (strcmp a b <? 0) = false -> (strcmp a b >? 0) = false -> a = b).
  { intros a b ? ?. zbool. apply strcmp_eq. lia. }
  induction t as [|p z v l IHl r IHr]; simpl.
  - case_decide as Hy.
    + subst. by rewrite (proj2 (strcmp_eq x x)).
    + destruct (strcmp x y <? 0) eqn:E1; [done|]. destruct (strcmp x y >? 0) eqn:E2; [done|].
      by rewrite (Hc _ _ E1 E2) in Hy.
  - destruct (strcmp z x <? 0) eqn:E1; simpl; [|destruct (strcmp z x >? 0) eqn:E2; simpl].
    + destruct (strcmp z y <? 0) eqn:E3; [apply IHl|].
      destruct (strcmp z y >? 0) eqn:E4; case_decide; subst; zbool; try done; try lia.
    + destruct (strcmp z y <? 0) eqn:E3; [|destruct (strcmp z y >? 0) eqn:E4; [apply IHr|]];
        case_decide; subst; zbool; try done; lia.
    + rewrite (Hc _ _ E1 E2). case_decide as Hy; [subst; by rewrite (proj2 (strcmp_eq x x))|].
      destruct (strcmp x y <? 0) eqn:E3; [done|]. destruct (strcmp x y >? 0) eqn:E4; [done|].
      by rewrite (Hc _ _ E3 E4) in Hy.
Qed.

Lemma tmap_structure t : structure (tmap t).
Proof.
  induction t as [|p x v l IHl r IHr]; intros q n; simpl; [by rewrite lookup_empty|].
  destruct (decide (q = p)) as [->|Hq]; [rewrite lookup_insert_eq; by intros [= <-]|].
  rewrite lookup_insert_ne by done. intros [H|[_ H]]%lookup_union_Some_raw; eauto.
Qed.

Lemma theight_size t : tree_ok t -> (theight t <= size (tmap t))%nat.
Proof.
  induction t as [|p x v l IHl r IHr]; simpl; [lia|].
  intros (Hp & Hl & Hr & Hd & Hokl & Hokr). specialize (IHl Hokl). specialize (IHr Hokr).
  rewrite map_size_insert_None by by apply lookup_union_None.
  rewrite map_size_disj_union by done. lia.
Qed.

Lemma tree_at_height ns t : tree_at ns t -> (theight t <= size ns)%nat.
Proof.
  intros [Hok Hsub]. etransitivity; [by apply theight_size|]. rewrite <- !size_dom.
  apply subseteq_size. by apply subseteq_dom.
Qed.

Lemma tree_at_node ns p x v l r : tree_at ns (BNode p x v l r) ->
  p <> 0 /\ ns !! p = Some (NBinding (mk_binding x v (troot l) (troot r))) /\
  tree_at ns l /\ tree_at ns r.
Proof.
  intros [(Hp & Hl & Hr & Hd & Hokl & Hokr) Hsub]. simpl in Hsub.
  assert (Hins : tmap l ∪ tmap r ⊆ ns).
  { etransitivity; [|exact Hsub]. apply insert_subseteq. by apply lookup_union_None. }
  split; [done|]. split; [eapply lookup_weaken; [apply lookup_insert_eq|done]|].
  split; split; try done; etransitivity; try exact Hins;
    [apply map_union_subseteq_l|by apply map_union_subseteq_r].
Qed.

Lemma tree_at_sub ns ns' t : sub ns ns' -> tree_at ns t -> tree_at ns' t.
Proof.
  intros Hs [Hok Hsub]. split; [done|]. apply map_subseteq_spec. intros p n Hp.
  pose proof (tmap_structure _ _ _ Hp) as Hn. destruct (Hs p n) as (n' & Hp' & E);
    [by eapply lookup_weaken|]. rewrite Hp'. by destruct n; simpl in *; subst.
Qed.

(** * Lookup in one scope *)

Lemma find_binding_spec st t x : forall fuel, tree_at (nodes st) t -> (theight t <= fuel)%nat ->
  exists b, find_binding fuel st (troot t) x = Some b /\ option_map b_value b = tfind t x.
Proof.
  induction t as [|p y v l IHl r IHr]; intros fuel Ht Hf; [exists None; by destruct fuel|].
  apply tree_at_node in Ht as (Hp & Hnode & Htl & Htr). simpl in Hf.
  destruct fuel as [|fuel]; [lia|]. cbn [find_binding troot tfind]. zif_false. rewrite Hnode.
  cbn [b_name b_left b_right b_value].
  destruct (strcmp y x <? 0); [apply IHl; [done|lia]|].
  destruct (strcmp y x >? 0); [apply IHr; [done|lia]|]. by eexists.
Qed.

(** * Definition of a new name *)

Definition root_node (r : root) : Z := match r with RScope s => s | RLeft p => p | RRight p => p end.

(** The node a root lies in, with [q] stored there. *)
Definition root_upd (r : root) (q : Z) (n : FreeNode) : FreeNode :=
  match r, n with
  | RScope _, NScope sc => NScope (mk_scope q (s_next sc) (s_count sc))
  | RLeft _, NBinding b => NBinding (mk_binding (b_name b) (b_value b) q (b_right b))
  | RRight _, NBinding b => NBinding (mk_binding (b_name b) (b_value b) (b_left b) q)
  | _, _ => n
  end.
Definition root_is (r : root) (q : Z) (n : FreeNode) : Prop :=
  match r, n with
  | RScope _, NScope sc => s_bindings sc = q
  | RLeft _, NBinding b => b_left b = q
  | RRight _, NBinding b => b_right b = q
  | _, _ => False
  end.

Lemma wp_root_get r q n (Q : Z -> JLContext -> Prop) st :
  nodes st !! root_node r = Some n -> root_is r q n -> Q q st -> wp (root_get r) Q st.
Proof.
  destruct r, n; simpl; try done; intros Hn <- ?; apply wp_bind;
    first [by eapply wp_get_scope|by eapply wp_get_binding].
Qed.
Lemma wp_root_set r q q' n (Q : unit -> JLContext -> Prop) st :
  nodes st !! root_node r = Some n -> root_is r q n ->
  Q tt (set_nodes (<[root_node r := root_upd r q' n]> (nodes st)) st) -> wp (root_set r q') Q st.
Proof.
  destruct r, n; simpl; try done; intros Hn _ ?; apply wp_bind;
    first [by eapply wp_get_scope|by eapply wp_get_binding].
Qed.

Lemma root_upd_id r q n : root_is r q n -> root_upd r q n = n.
Proof. destruct r, n as [|[]|[]]; simpl; try done; by intros ->. Qed.

Lemma tinsert_root t q x w : t <> BLeaf -> troot (tinsert t q x w) = troot t.
Proof. destruct t; [done|]. intros _. simpl. by repeat case_match. Qed.

Lemma tmap_insert_None t q x w k : tmap t !! k = None -> k <> q -> tmap (tinsert t q x w) !! k = None.
Proof.
  induction t as [|p y v l IHl r IHr]; simpl; intros Hk Hq.
  - by rewrite lookup_insert_ne, (left_id_L ∅ (∪)), lookup_empty by done.
  - assert (Hp : k <> p) by (intros ->; by rewrite lookup_insert_eq in Hk).
    rewrite lookup_insert_ne in Hk by done. apply lookup_union_None in Hk as [Hl Hr].
    repeat case_match; simpl; rewrite lookup_insert_ne by done; apply lookup_union_None; auto.
Qed.

Lemma tmap_insert_keys t q x w k : tmap (tinsert t q x w) !! k = None -> tmap t !! k = None.
Proof.
  induction t as [|p y v l IHl r IHr]; simpl; intros Hk; [done|].
  assert (Hp : k <> p /\ tmap l !! k = None /\ tmap r !! k = None).
  { repeat case_match; simpl in Hk; (destruct (decide (k = p)) as [->|Hp];
      [by rewrite lookup_insert_eq in Hk|]);
      rewrite lookup_insert_ne in Hk by done; apply lookup_union_None in Hk as [? ?]; auto. }
  destruct Hp as (? & ? & ?). rewrite lookup_insert_ne by done. by apply lookup_union_None.
Qed.

(** Where a name is not bound, [define_loop] hangs a fresh binding where the
    search for it ends. *)
Lemma wp_define_loop_new t x w : forall fuel r n (Q : unit -> JLContext -> Prop) st,
  pool_ok st -> tree_at (nodes st) t -> (theight t < fuel)%nat -> tfind t x = None ->
  nodes st !! root_node r = Some n -> root_is r (troot t) n -> tmap t !! root_node r = None ->
  (forall q st', q <> 0 -> nodes st !! q = None ->
     nodes st' = <[root_node r := root_upd r (troot (tinsert t q x w)) n]>
                   (tmap (tinsert t q x w) ∪ nodes st) ->
     rest_of st' = rest_of st -> pool_ok st' -> Q tt st') ->
  wp (define_loop fuel r x w) Q st.
Proof.
  induction t as [|p y v tl IHl tr IHr]; intros fuel r n Q st Hok Ht Hf Hx Hr Hri Hnotin HQ;
    (destruct fuel as [|fuel]; [simpl in Hf; lia|]); cbn [define_loop];
    apply wp_bind; (eapply wp_root_get; [done..|]); cbn [troot].
  - rewrite Z.eqb_refl. apply wp_bind. apply wp_GetFree; [done|].
    intros q st1 Hq Hfresh Hn1 Hr1 Ht1. apply wp_bind, wp_put_node.
    assert (Hne : q <> root_node r) by (intros ->; congruence).
    eapply wp_root_set; [cbn; rewrite lookup_insert_ne by done; by rewrite Hn1|done|].
    apply (HQ q); try done; cbn [nodes set_nodes].
    + rewrite Hn1. cbn [tinsert troot tmap]. by rewrite (left_id_L ∅ (∪)), <- insert_union_l, (left_id_L ∅ (∪)).
    + apply (pool_ok_update _ _ n _ (pool_taken_put _ _ _ Ht1)). cbn.
      rewrite lookup_insert_ne by done. by rewrite Hn1.
  - pose proof Ht as (Hp & Hnode & Htl & Htr)%tree_at_node.
    destruct Ht as [(_ & Hpl & Hpr & Hd & _ & _) _].
    assert (Hrp : root_node r <> p) by (intros E; rewrite E in Hnotin; simpl in Hnotin;
      by rewrite lookup_insert_eq in Hnotin).
    assert (HQ' : forall q st', q <> 0 -> nodes st !! q = None ->
      nodes st' = tmap (tinsert (BNode p y v tl tr) q x w) ∪ nodes st ->
      rest_of st' = rest_of st -> pool_ok st' -> Q tt st').
    { intros q st' Hq Hfresh Hn'. apply (HQ q); try done.
      rewrite Hn', tinsert_root, root_upd_id by done. symmetry. apply insert_id.
      rewrite lookup_union_r; [done|]. apply tmap_insert_None; [done|]. intros E. congruence. }
    clear HQ. zif_false. apply wp_bind. eapply wp_get_binding; [done|]. cbn [b_name].
    simpl in Hx, Hf, HQ'.
    destruct (strcmp y x <? 0) eqn:E1; [|destruct (strcmp y x >? 0) eqn:E2; [|done]].
    + eapply IHl; [done|done|lia|done|exact Hnode|done|done|].
      intros q st' Hq Hfresh Hn' Hr' Hok'. apply (HQ' q); try done. rewrite Hn'. simpl.
      rewrite <- insert_union_l, <- (assoc_L (∪)). by rewrite (map_subseteq_union (tmap tr)) by apply Htr.
    + eapply IHr; [done|done|lia|done|exact Hnode|done|done|].
      intros q st' Hq Hfresh Hn' Hr' Hok'. apply (HQ' q); try done. rewrite Hn'. simpl.
      rewrite <- insert_union_l, <- (assoc_L (∪)).
      rewrite (map_subseteq_union (tmap tl) (tmap (tinsert tr q x w) ∪ nodes st)); [done|].
      destruct Htl as [_ Htl]. apply map_subseteq_spec. intros k n1 Hk.
      rewrite lookup_union_r; [by eapply lookup_weaken|]. apply tmap_insert_None.
      * by apply (map_disjoint_Some_l _ _ _ n1 Hd).
      * intros ->. by rewrite (lookup_weaken _ _ _ _ Hk Htl) in Hfresh.
Qed.

(** * A scope and its bindings *)

Definition scope_map (s next cnt : Z) (t : btree) : heap :=
  <[s := NScope (mk_scope (troot t) next cnt)]> (tmap t).

Definition scope_ok (s : Z) (t : btree) : Prop := s <> 0 /\ tmap t !! s = None /\ tree_ok t.

Lemma scope_map_structure s next cnt t : structure (scope_map s next cnt t).
Proof.
  intros p n. unfold scope_map. destruct (decide (p = s)) as [->|Hp].
  - rewrite lookup_insert_eq. by intros [= <-].
  - rewrite lookup_insert_ne by done. apply tmap_structure.
Qed.

Lemma scope_map_disjoint s next cnt t V :
  scope_map s next cnt t ##ₘ V <-> V !! s = None /\ tmap t ##ₘ V.
Proof. apply map_disjoint_insert_l. Qed.

Lemma tree_ok_insert t q x w : tree_ok t -> q <> 0 -> tmap t !! q = None -> tree_ok (tinsert t q x w).
Proof.
  induction t as [|p y v l IHl r IHr]; intros Hok Hq Hn.
  - simpl. rewrite !lookup_empty. repeat split; done.
  - simpl in *. destruct Hok as (Hp & Hl & Hr & Hd & Hokl & Hokr).
    assert (Hpq : p <> q) by (intros ->; by rewrite lookup_insert_eq in Hn).
    rewrite lookup_insert_ne in Hn by done. apply lookup_union_None in Hn as [Hnl Hnr].
    assert (Hdis : forall t' t'' : btree, tmap t' ##ₘ tmap t'' -> tmap t'' !! q = None ->
      tmap (tinsert t' q x w) ##ₘ tmap t'').
    { intros t' t'' Hd' Hq'. apply map_disjoint_spec. intros k n1 n2 H1 H2.
      rewrite (tmap_insert_None t') in H1; [done| |intros ->; congruence].
      by apply (map_disjoint_Some_r _ _ _ n2 Hd'). }
    repeat case_match; simpl; repeat split; auto using tmap_insert_None.
    symmetry. apply Hdis; [by symmetry|done].
Qed.

Lemma tvals_insert t q x w : tfind t x = None -> Permutation (tvals (tinsert t q x w)) (w :: tvals t).
Proof.
  induction t as [|p y v l IHl r IHr]; simpl; intros Hx; [done|].
  destruct (strcmp y x <? 0); [|destruct (strcmp y x >? 0); [|done]]; simpl.
  - by rewrite IHl.
  - rewrite IHr by done. simpl. symmetry. apply Permutation_middle.
Qed.

Lemma helds_under X rs V V' : helds rs V V' -> X ##ₘ V' -> helds rs (X ∪ V) (X ∪ V').
Proof.
  induction 1 as [|r rs V V1 V2 H1 H2 IH]; intros Hd; [constructor|].
  econstructor; [|by apply IH]. pose proof (helds_disjoint_rev _ _ _ _ H2 Hd) as Hd1.
  destruct (held_disjoint_rev _ _ _ _ H1 Hd1) as [_ Hr].
  destruct H1 as [[-> ->]|[Hr0 Ha]]; [by left|]. right. split; [done|]. apply acq_under; auto.
Qed.

(** The release of a tree frees its bindings and drops what they hold. *)
Lemma wp_release_bindings t : forall fuel V0 V (Q : unit -> JLContext -> Prop) st,
  pool_ok st -> nodes st = tmap t ∪ V -> tree_ok t -> tmap t ##ₘ V -> helds (tvals t) V0 V ->
  (theight t < fuel)%nat ->
  (forall st', nodes st' = V0 -> rest_of st' = rest_of st -> pool_ok st' -> Q tt st') ->
  wp (release_bindings fuel (troot t)) Q st.
Proof.
  induction t as [|p x v l IHl r IHr]; intros fuel V0 V Q st Hok Hn Ht Hd Hh Hf HQ.
  - assert (E : release_bindings fuel 0 = mret tt) by by destruct fuel. simpl troot. rewrite E.
    apply wp_ret, HQ; [|done..]. rewrite Hn. inversion Hh. subst. simpl. apply (left_id_L ∅ (∪)).
  - simpl in Ht, Hd, Hf, Hn. destruct Ht as (Hp & Hpl & Hpr & Hlr & Hokl & Hokr).
    set (bn := NBinding (mk_binding x v (troot l) (troot r))) in *.
    apply map_disjoint_insert_l in Hd as [HpV Hd]. apply map_disjoint_union_l in Hd as [HlV HrV].
    simpl in Hh. eapply helds_perm in Hh; [|apply Permutation_app_comm].
    apply helds_app in Hh as (V1 & Hh1 & Hhl).
    pose proof (helds_disjoint_rev (tmap r) _ _ _ Hhl HrV) as HrV1.
    assert (HpV1 : V1 !! p = None).
    { destruct (V1 !! p) eqn:E; [|done]. destruct (helds_sub _ _ _ Hhl _ _ E) as (? & ? & ?). congruence. }
    eapply helds_perm in Hh1; [|apply Permutation_app_comm].
    apply helds_app in Hh1 as (V2 & Hhv & Hhr).
    assert (HpV2 : V2 !! p = None).
    { destruct (V2 !! p) eqn:E; [|done]. destruct (helds_sub _ _ _ Hhr _ _ E) as (? & ? & ?). congruence. }
    assert (HpV0 : V0 !! p = None).
    { destruct (V0 !! p) eqn:E; [|done]. destruct (helds_sub _ _ _ Hhv _ _ E) as (? & ? & ?). congruence. }
    destruct fuel as [|fuel]; [lia|]. cbn [release_bindings troot]. zif_false.
    apply wp_bind. eapply wp_get_binding; [by rewrite Hn, <- insert_union_l, lookup_insert_eq|].
    cbn [b_left]. apply wp_bind.
    eapply (IHl fuel (<[p := bn]> (tmap r ∪ V1)) (<[p := bn]> (tmap r ∪ V))); [done| |done| | |lia|].
    { rewrite Hn, <- insert_union_l, <- insert_union_r by done. by rewrite (assoc_L (∪)). }
    { apply map_disjoint_insert_r_2; [done|]. by apply map_disjoint_union_r_2. }
    { rewrite !insert_union_l. apply helds_under; [done|]. by apply map_disjoint_insert_l_2. }
    intros st1 Hn1 Hr1 Hok1. apply wp_bind.
    eapply wp_get_binding; [by rewrite Hn1, lookup_insert_eq|]. cbn [b_right]. apply wp_bind.
    eapply (IHr fuel (<[p := bn]> V2) (<[p := bn]> V1)); [done| |done| | |lia|].
    { by rewrite Hn1, <- insert_union_r. }
    { by apply map_disjoint_insert_r_2. }
    { rewrite !(insert_union_singleton_l _ p). apply helds_under; [done|]. by apply map_disjoint_singleton_l. }
    intros st2 Hn2 Hr2 Hok2. apply wp_bind.
    eapply wp_get_binding; [by rewrite Hn2, lookup_insert_eq|]. cbn [b_value]. apply wp_bind.
    inversion Hhv as [|? ? ? V3 ? Hv Hnil]; subst. inversion Hnil; subst.
    eapply (wp_release_held fuel v (<[p := bn]> V0)); [lia|done| |].
    { rewrite Hn2, !(insert_union_singleton_l _ p).
      destruct Hv as [[-> ->]|[Hv0 Ha]]; [by left|]. right. split; [done|]. apply acq_under; [done|].
      destruct (acq_value _ _ _ Ha) as [? ?]. apply lookup_singleton_ne. congruence. }
    intros st3 Hn3 Hr3 Hok3. eapply wp_PutFree; [done|by rewrite Hn3, lookup_insert_eq|].
    intros st4 Hn4 Hr4 Hok4. apply HQ; [|congruence|done].
    rewrite Hn4, Hn3. by apply delete_insert_id.
Qed.

Lemma count_zero fuel st t s : tree_at (nodes st) t -> (theight t <= fuel)%nat ->
  Forall (fun v => own_lambda st v s = Some false) (tvals t) ->
  CountScopeBindings fuel st (troot t) s = Some 0.
Proof.
  revert fuel. induction t as [|p x v l IHl r IHr]; intros fuel Ht Hf Hv; [by destruct fuel|].
  apply tree_at_node in Ht as (Hp & Hnode & Htl & Htr). simpl in Hf.
  simpl in Hv. apply Forall_app in Hv as [Hvl Hv]. apply Forall_app in Hv as [Hvr Hv].
  inversion Hv as [|? ? Hvv _]; subst.
  destruct fuel as [|fuel]; [lia|]. cbn [CountScopeBindings troot]. zif_false.
  unfold peek. rewrite Hnode. cbn [b_left b_right b_value].
  rewrite IHl, IHr by (done || lia). cbn. by rewrite Hvv.
Qed.

(** Leaving a scope that only its stack entry holds frees it with its bindings. *)
Lemma wp_JLLeaveScope s next t V0 V (Q : unit -> JLContext -> Prop) st :
  pool_ok st -> jl_scope st = s -> nodes st = scope_map s next 1 t ∪ V -> scope_ok s t ->
  scope_map s next 1 t ##ₘ V -> helds (tvals t) V0 V ->
  (forall st', nodes st' = nodes st ->
    Forall (fun v => own_lambda st' v s = Some false) (tvals t)) ->
  (forall st', nodes st' = V0 -> rest_of st' = rest_of (set_jl_scope next st) -> pool_ok st' ->
     Q tt st') ->
  wp JLLeaveScope Q st.
Proof.
  intros Hok <- Hn (Hs & Hst & Ht) Hd Hh Hown HQ. set (s := jl_scope st) in *.
  assert (Hsn : nodes st !! s = Some (NScope (mk_scope (troot t) next 1)))
    by by rewrite Hn; unfold scope_map; rewrite <- insert_union_l, lookup_insert_eq.
  apply scope_map_disjoint in Hd as [HsV Hd].
  assert (Htree : tree_at (nodes st) t).
  { split; [done|]. rewrite Hn. etransitivity; [|apply map_union_subseteq_l].
    by apply insert_subseteq. }
  pose proof (tree_at_height _ _ Htree) as Hh1.
  unfold JLLeaveScope. apply wp_bind, wp_gets, wp_bind.
  eapply wp_get_scope; [done|]. cbn [s_next]. apply wp_bind, wp_modify.
  unfold ReleaseScope, wp. fold (wp (release_scope (heap_fuel (set_jl_scope next st)) s) Q (set_jl_scope next st)).
  unfold heap_fuel. cbn [nodes set_jl_scope]. change (2 + 2 * size (nodes st))%nat with (S (1 + 2 * size (nodes st))).
  cbn [release_scope]. apply wp_bind. eapply wp_get_scope; [done|]. apply wp_bind, wp_gets, wp_bind.
  eapply wp_lift; [apply count_zero; [done|cbn; lia|by apply Hown]|].
  cbn [s_count]. change (u32 (1 - 1 - 0)) with 0. cbn [s_bindings Z.eqb]. apply wp_bind.
  eapply (wp_release_bindings t _ (<[s := NScope (mk_scope (troot t) next 1)]> V0)
            (<[s := NScope (mk_scope (troot t) next 1)]> V)); [by eapply pool_ok_rest| |done| | |lia|].
  { cbn. rewrite Hn. unfold scope_map. by rewrite <- insert_union_l, <- insert_union_r. }
  { by apply map_disjoint_insert_r_2. }
  { rewrite !(insert_union_singleton_l _ s). apply helds_under; [done|]. by apply map_disjoint_singleton_l. }
  intros st1 Hn1 Hr1 Hok1. eapply wp_PutFree; [done|by rewrite Hn1, lookup_insert_eq|].
  intros st2 Hn2 Hr2 Hok2. apply HQ; [|congruence|done].
  rewrite Hn2, Hn1. apply delete_insert_id.
  destruct (V0 !! s) eqn:E; [|done]. destruct (helds_sub _ _ _ Hh _ _ E) as (? & ? & ?). congruence.
Qed.

Lemma wp_JLEnterScope (Q : unit -> JLContext -> Prop) st :
  pool_ok st ->
  (forall s st', s <> 0 -> nodes st !! s = None -> jl_scope st' = s ->
     nodes st' = <[s := NScope (mk_scope 0 (jl_scope st) 1)]> (nodes st) ->
     rest_of st' = rest_of (set_jl_scope s st) -> pool_ok st' -> Q tt st') ->
  wp JLEnterScope Q st.
Proof.
  intros Hok HQ. unfold JLEnterScope. apply wp_bind, wp_GetFree; [done|].
  intros p st' Hp Hfresh Hn Hr Ht. apply wp_bind, wp_gets, wp_bind, wp_put_node, wp_modify.
  assert (Hs : jl_scope st' = jl_scope st) by (unfold rest_of in Hr; congruence).
  apply (HQ p); cbn; try done.
  - by rewrite Hn, Hs.
  - unfold rest_of in *. cbn. congruence.
  - eapply pool_ok_rest; [by apply pool_taken_put|done..].
Qed.

(** A new name in the current scope: one more binding, one more reference. *)
Lemma wp_JLDefineValue_new s next cnt t V x w (Q : unit -> JLContext -> Prop) st :
  pool_ok st -> jl_scope st = s -> nodes st = scope_map s next cnt t ∪ V -> scope_ok s t ->
  scope_map s next cnt t ##ₘ V -> tfind t x = None ->
  (w <> 0 -> exists v, V !! w = Some (NValue v) /\ 1 <= v_count v < 4294967295) ->
  (forall q V' st', scope_ok s (tinsert t q x w) ->
     nodes st' = scope_map s next cnt (tinsert t q x w) ∪ V' ->
     scope_map s next cnt (tinsert t q x w) ##ₘ V' -> held w V V' ->
     rest_of st' = rest_of st -> pool_ok st' -> Q tt st') ->
  wp (JLDefineValue (Some x) w) Q st.
Proof.
  intros Hok <- Hn (Hs & Hst & Ht) Hd Hx Hw HQ. set (s := jl_scope st) in *.
  unfold JLDefineValue. apply wp_bind, wp_gets, wp_bind.
  assert (Hret : wp (JLRetain w) (fun _ st' => (exists V', nodes st' = scope_map s next cnt t ∪ V' /\
      held w V V' /\ scope_map s next cnt t ##ₘ V') /\ rest_of st' = rest_of st /\ pool_ok st') st).
  { destruct (decide (w = 0)) as [->|Hw0].
    - apply wp_ret. split; [|done]. exists V. split; [done|split; [by left|done]].
    - destruct (Hw Hw0) as (v & Hv & Hc).
      eapply (wp_JLRetain w v); [done| |done|].
      { rewrite Hn. rewrite lookup_union_r; [done|]. by eapply map_disjoint_Some_r. }
      intros st' Ha Hr' Hok'. split; [|done]. rewrite Hn in Ha.
      destruct (acq_split _ _ _ _ (scope_map_structure _ _ _ _) Ha) as (HS & V' & E & Ha').
      exists V'. split; [done|]. split; [by right|by eapply acq_disjoint]. }
  eapply wp_mono; [exact Hret|]. intros [] st1 [(V' & Hn1 & Hh & Hd1) [Hr1 Hok1]].
  apply wp_bind, wp_gets.
  assert (Htree : tree_at (nodes st1) t).
  { split; [done|]. rewrite Hn1. etransitivity; [|apply map_union_subseteq_l].
    by apply insert_subseteq. }
  pose proof (tree_at_height _ _ Htree) as Hht.
  assert (Hsn : nodes st1 !! s = Some (NScope (mk_scope (troot t) next cnt)))
    by by rewrite Hn1; unfold scope_map; rewrite <- insert_union_l, lookup_insert_eq.
  eapply (wp_define_loop_new t x w); [done|done|unfold heap_fuel; cbn; lia|done|exact Hsn|done|done|].
  cbn [root_node root_upd s_next s_count]. intros q st' Hq Hfresh Hn' Hr' Hok'.
  rewrite Hn1 in Hfresh. apply lookup_union_None in Hfresh as [Hfs HfV].
  unfold scope_map in Hfs. assert (Hqs : q <> s) by (intros ->; by rewrite lookup_insert_eq in Hfs).
  rewrite lookup_insert_ne in Hfs by done.
  assert (Hd' : tmap (tinsert t q x w) ##ₘ V').
  { apply map_disjoint_spec. intros k n1 n2 H1 H2. rewrite (tmap_insert_None t) in H1; [done| |congruence].
    apply scope_map_disjoint in Hd1 as [_ Hd1]. by apply (map_disjoint_Some_r _ _ _ n2 Hd1). }
  apply (HQ q V'); [split; [done|split; [by apply tmap_insert_None|by apply tree_ok_insert]]| | |done|congruence|done].
  - rewrite Hn', Hn1. unfold scope_map. apply map_eq. intros k. rewrite <- !insert_union_l.
    destruct (decide (k = s)) as [->|Hk]; [by rewrite !lookup_insert_eq|].
    rewrite !lookup_insert_ne by done. rewrite !lookup_union.
    rewrite lookup_insert_ne by done. rewrite lookup_union.
    destruct (tmap (tinsert t q x w) !! k) eqn:E1.
    { by destruct (tmap t !! k), (V' !! k). }
    rewrite (tmap_insert_keys _ _ _ _ _ E1). by destruct (V' !! k).
  - apply scope_map_disjoint in Hd1 as [? _]. by apply scope_map_disjoint.
Qed.
