(* ===== verification/JlRef.v ===== *)
(** A reference interpreter for the first-order part of the JL language:
    S-expressions, immutable values and environments in place of the heap.  It
    has numbers, strings, variables, the comparison, arithmetic, logic, string
    and type functions, [if], [begin], [print] and calls of functions defined at
    the top level.  What allocates lists or closures or defines, a call with
    more arguments than parameters, and what the code leaves undefined are
    [None]. *)
From Stdlib Require Import SpecFloat.
From S2P Require Import Prelude CText JlHeap JlEval.

(** * Syntax and values *)

#[local] Unset Elimination Schemes.
Inductive sexp :=
  | SNum (d : spec_float) | SStr (s : bytes) | SVar (x : bytes) | SList (es : list sexp).
#[local] Set Elimination Schemes.

Section sexp_ind.
Variable P : sexp -> Prop.
Hypothesis P_num : forall d, P (SNum d).
Hypothesis P_str : forall s, P (SStr s).
Hypothesis P_var : forall x, P (SVar x).
Hypothesis P_list : forall es, Forall P es -> P (SList es).

Fixpoint sexp_ind (e : sexp) : P e :=
  match e with
  | SNum d => P_num d
  | SStr s => P_str s
  | SVar x => P_var x
  | SList es =>
      P_list es
        ((fix go es : Forall P es :=
            match es with [] => Forall_nil_2 P | e :: es => Forall_cons_2 P e es (sexp_ind e) (go es) end) es)
  end.
End sexp_ind.

(** A function has its parameters and its body, and runs in the global scope. *)
Inductive rval :=
  | RNum (d : spec_float) | RStr (s : bytes) | RSpecial (f : JLFunction)
  | RFun (params : list bytes) (body : list sexp).

(** nil is [None]. *)
Definition result : Type := option rval.
Definition frame : Type := gmap bytes result.

Definition rtag (v : rval) : Z :=
  match v with
  | RNum _ => JLVALUE_NUMBER | RStr _ => JLVALUE_STRING
  | RSpecial _ => JLVALUE_SPECIAL | RFun _ _ => JLVALUE_LAMBDA
  end.

(** * What is printed *)

(** A number without a fraction is printed as an [int16_t]. *)
Definition show_number (d : spec_float) : option (list jl_out) :=
  if SFeqb (ceilf d) d then z ← d_to_int16 d; Some [OInt z] else Some [OFloat d].

Section show_items.
Variable show : sexp -> option (list jl_out).
(** Items with a blank between them. *)
Fixpoint show_items (es : list sexp) : option (list jl_out) :=
  match es with
  | [] => Some []
  | e :: es' =>
      a ← show e;
      b ← show_items es';
      Some (a ++ match es' with [] => [] | _ => [OText [32]] end ++ b)
  end.
End show_items.

Fixpoint show (e : sexp) : option (list jl_out) :=
  match e with
  | SNum d => show_number d
  | SStr s => Some [OText ([34] ++ s ++ [34])]
  | SVar x => Some [OText x]
  | SList es => l ← show_items show es; Some ([OText [40]] ++ l ++ [OText [41]])
  end.

Definition show_value (v : result) : option (list jl_out) :=
  match v with
  | None => Some [OText nil_text]
  | Some (RNum d) => show_number d
  | Some (RStr s) => Some [OText ([34] ++ s ++ [34])]
  | Some (RSpecial f) => Some [OSpecial f]
  | Some (RFun params body) =>
      l ← show_items show (SList (map SVar params) :: body);
      Some ([OText lambda_text] ++ l ++ [OText [41]])
  end.

(** [print] shows a string without its quotes; a function is left out here. *)
Definition print_value (v : result) : option (list jl_out) :=
  match v with
  | Some (RStr s) => Some [OText s]
  | Some (RFun _ _) => None
  | _ => show_value v
  end.

(** * The monad: the error flag and the output *)

Definition rstate : Type := bool * list jl_out.
Definition R (A : Type) : Type := rstate -> option (A * rstate).
#[export] Instance R_ret : MRet R := fun A a s => Some (a, s).
#[export] Instance R_bind : MBind R := fun A B k m s =>
  match m s with Some (a, s') => k a s' | None => None end.
Definition rundef {A} : R A := fun _ => None.
Definition rlift {A} (o : option A) : R A := fun s => a ← o; Some (a, s).

Definition remit (out : list jl_out) : R unit := fun s => Some (tt, (s.1, s.2 ++ out)).

Section interpreter.
(** The line that error messages show, and the greatest depth. *)
Variables (ln max : Z).
Variable G : frame.

Definition rerror (msg : jl_msg) : R unit := fun s => Some (tt, (true, s.2 ++ [OError ln msg])).

(** The name a function was called by. *)
Definition name_of (head : sexp) : option bytes := match head with SVar x => Some x | _ => None end.
Definition rinvalid (head : sexp) : R unit := x ← rlift (name_of head); rerror (InvalidArgument x).
Definition rmany (head : sexp) : R unit := x ← rlift (name_of head); rerror (TooMany x).
Definition rfew (head : sexp) : R unit := x ← rlift (name_of head); rerror (TooFew x).

Fixpoint rlookup (frs : list frame) (x : bytes) : option result :=
  match frs with
  | [] => G !! x
  | fr :: frs' => match fr !! x with Some v => Some v | None => rlookup frs' x end
  end.

Section functions.
(** Evaluation one level down; [None] is a missing expression. *)
Variable ev : list frame -> option sexp -> R result.
Variable frs : list frame.

Definition truth (v : result) : bool :=
  match v with None => false | Some (RNum d) => negb (SFeqb d d_zero) | Some _ => true end.
Definition rcheck (e : option sexp) : R bool := v ← ev frs e; mret (truth v).

Definition yes : result := Some (RNum d_one).
Definition yes_if (b : bool) : result := if b then yes else None.

Definition as_number (v : result) : option spec_float :=
  match v with Some (RNum d) => Some d | _ => None end.
Definition as_string (v : result) : option bytes :=
  match v with Some (RStr s) => Some s | _ => None end.

Definition rcompare (head : sexp) (args : list sexp) : R result :=
  op ← rlift (name_of head);
  match args with
  | [] | [_] => rfew head;; mret None
  | [a; b] =>
      va ← ev frs (Some a);
      vb ← ev frs (Some b);
      match va, vb with
      | Some x, Some y =>
          if rtag x =? rtag y then
            diff ← match x, y with
                   | RNum d, RNum d' => mret (d_sub d d')
                   | RStr s, RStr s' => mret (d_of_Z (strcmp s s'))
                   | _, _ => rinvalid head;; mret d_zero
                   end;
            mret (yes_if (compare_op op diff))
          else
            let c0 := default 0 (op !! 0%nat) in
            if c0 =? 61 then mret None
            else if c0 =? 33 then mret yes
            else rinvalid head;; mret None
      | _, _ =>
          let same := match va, vb with None, None => true | _, _ => false end in
          let c0 := default 0 (op !! 0%nat) in
          if c0 =? 61 then mret (yes_if same)
          else if c0 =? 33 then mret (yes_if (negb same))
          else rinvalid head;; mret None
      end
  | _ => rmany head;; mret None
  end.

Fixpoint rnumbers (op : spec_float -> spec_float -> spec_float) (head : sexp) (args : list sexp)
    (acc : spec_float) : R result :=
  match args with
  | [] => mret (Some (RNum acc))
  | a :: args' =>
      v ← ev frs (Some a);
      match as_number v with
      | Some d => rnumbers op head args' (op acc d)
      | None => rinvalid head;; mret None
      end
  end.

Definition rsub (head : sexp) (args : list sexp) : R result :=
  v ← ev frs (List.hd_error args);
  match as_number v with
  | Some d => rnumbers d_sub head (List.tl args) d
  | None => rinvalid head;; mret None
  end.

Definition rtwo (head : sexp) (args : list sexp) (f : spec_float -> spec_float -> R result) : R result :=
  va ← ev frs (List.hd_error args);
  match as_number va with
  | None => rinvalid head;; mret None
  | Some x =>
      vb ← ev frs (List.hd_error (List.tl args));
      match as_number vb with
      | None => rinvalid head;; mret None
      | Some y =>
          match List.tl (List.tl args) with
          | [] => f x y
          | _ => rmany head;; mret None
          end
      end
  end.

Definition rdiv (head : sexp) (args : list sexp) : R result :=
  rtwo head args (fun x y => mret (Some (RNum (d_div x y)))).
Definition rmod (head : sexp) (args : list sexp) : R result :=
  rtwo head args (fun x y =>
    temp ← rlift (d_to_long y);
    if temp =? 0 then mret None
    else
      x ← rlift (d_to_long x);
      r ← rlift (long_rem x temp);
      mret (Some (RNum (d_of_Z r)))).

Fixpoint rand (args : list sexp) : R result :=
  match args with
  | [] => mret yes
  | a :: args' => c ← rcheck (Some a); if (c : bool) then rand args' else mret None
  end.
Fixpoint ror (args : list sexp) : R result :=
  match args with
  | [] => mret None
  | a :: args' => c ← rcheck (Some a); if (c : bool) then mret yes else ror args'
  end.

(** Exactly one argument, handed to [k]. *)
Definition rone (head : sexp) (args : list sexp) (k : sexp -> R result) : R result :=
  match args with
  | [] => rfew head;; mret None
  | [a] => k a
  | _ => rmany head;; mret None
  end.

Definition rnot (head : sexp) (args : list sexp) : R result :=
  rone head args (fun a => c ← rcheck (Some a); mret (yes_if (negb c))).
Definition ris_tag (tag : Z) (head : sexp) (args : list sexp) : R result :=
  rone head args (fun a =>
    v ← ev frs (Some a);
    mret (yes_if (match v with Some x => rtag x =? tag | None => false end))).
Definition ris_null (head : sexp) (args : list sexp) : R result :=
  rone head args (fun a =>
    v ← ev frs (Some a); mret (yes_if (match v with None => true | _ => false end))).

Definition rif (args : list sexp) : R result :=
  match args with
  | [] => rundef
  | a :: rest =>
      c ← rcheck (Some a);
      if (c : bool) then ev frs (List.hd_error rest)
      else match rest with [] => mret None | _ :: rest' => ev frs (List.hd_error rest') end
  end.

Fixpoint rconcat (head : sexp) (args : list sexp) (acc : bytes) : R result :=
  match args with
  | [] => mret (Some (RStr acc))
  | a :: args' =>
      v ← ev frs (Some a);
      match as_string v with
      | Some s => rconcat head args' (acc ++ s)
      | None => rinvalid head;; mret None
      end
  end.

Definition rsize (head : sexp) (e : option sexp) (default_ : Z) : R (option Z) :=
  v ← ev frs e;
  match v with
  | None => mret (Some default_)
  | Some (RNum d) => z ← rlift (d_to_size d); mret (Some z)
  | Some _ => rinvalid head;; mret None
  end.

Definition rsubstring (s : bytes) (start len : Z) : result :=
  if (start <? zlen s) && (0 <? len) then
    let len := if zlen s - start >? len then len else zlen s - start in
    Some (RStr (take (Z.to_nat len) (drop (Z.to_nat start) s)))
  else None.

Definition rsubstr (head : sexp) (args : list sexp) : R result :=
  v ← ev frs (List.hd_error args);
  match as_string v with
  | None => rinvalid head;; mret None
  | Some s =>
      let rest := List.tl args in
      start ← rsize head (List.hd_error rest) 0;
      match start with
      | None => mret None
      | Some start =>
          match rest with
          | [] => mret (rsubstring s start SIZE_MAX)
          | _ :: rest' =>
              match List.tl rest' with
              | [] =>
                  len ← rsize head (List.hd_error rest') SIZE_MAX;
                  mret (match len with Some len => rsubstring s start len | None => None end)
              | _ => rmany head;; mret None
              end
          end
      end
  end.

(** The value of the last of a list of expressions, nil when there is none. *)
Fixpoint rcode (frs : list frame) (es : list sexp) (last : result) : R result :=
  match es with
  | [] => mret last
  | e :: es' => v ← ev frs (Some e); rcode frs es' v
  end.

Fixpoint rprint (args : list sexp) : R result :=
  match args with
  | [] => mret None
  | a :: args' =>
      v ← ev frs (Some a);
      out ← rlift (print_value v);
      remit out;;
      rprint args'
  end.

Definition rspecial (f : JLFunction) (head : sexp) (args : list sexp) : R result :=
  match f with
  | F_Compare => rcompare head args
  | F_Add => rnumbers d_add head args d_zero
  | F_Sub => rsub head args
  | F_Mul => rnumbers d_mul head args d_one
  | F_Div => rdiv head args
  | F_Mod => rmod head args
  | F_And => rand args
  | F_Or => ror args
  | F_Not => rnot head args
  | F_Begin => rcode (∅ :: frs) args None
  | F_If => rif args
  | F_Substr => rsubstr head args
  | F_Concat => rconcat head args []
  | F_IsNumber => ris_tag JLVALUE_NUMBER head args
  | F_IsString => ris_tag JLVALUE_STRING head args
  | F_IsList => ris_tag JLVALUE_LIST head args
  | F_IsNull => ris_null head args
  | F_Print => rprint args
  | F_Cons | F_Define | F_Head | F_Lambda | F_List | F_Rest => rundef
  end.

(** The frame of a call; [None] when arguments are missing.  The arguments are
    evaluated in the caller's environment. *)
Fixpoint rbind (params : list bytes) (args : list sexp) (fr : frame) : R (option frame) :=
  match params, args with
  | [], _ => mret (Some fr)
  | _ :: _, [] => rerror TooFewLambda;; mret None
  | x :: params', a :: args' =>
      match params', args' with
      | [], _ :: _ => rundef
      | _, _ =>
          v ← ev frs (Some a);
          match fr !! x with
          | Some _ => rundef
          | None => rbind params' args' (<[x := v]> fr)
          end
      end
  end.

Definition rcall (params : list bytes) (body args : list sexp) : R result :=
  fr ← rbind params args ∅;
  match fr with Some fr => rcode [fr] body None | None => mret None end.

End functions.

(** An expression at depth [lv]. *)
Definition rexpr (ev : list frame -> option sexp -> R result) (lv : Z) (frs : list frame) (e : sexp)
  : R result :=
  if lv >? max then rerror MaxDepth;; mret None
  else
    match e with
    | SNum d => mret (Some (RNum d))
    | SStr t => mret (Some (RStr t))
    | SVar x =>
        match rlookup frs x with
        | Some v => mret v
        | None => rerror (NotFound x);; mret None
        end
    | SList [] => _ ← ev frs None; mret None
    | SList (head :: args) =>
        temp ← ev frs (Some head);
        match temp with
        | None => mret None
        | Some (RSpecial f) => rspecial ev frs f head args
        | Some (RFun params body) => rcall ev frs params body args
        | Some (RNum d) => ev frs (Some (SNum d))
        | Some (RStr t) => ev frs (Some (SStr t))
        end
    end.

(** At a depth other than 0 nothing is evaluated after an error; at depth 0 the
    flag is cleared first. *)
Fixpoint reval (n : nat) (lv : Z) (frs : list frame) (e : option sexp) : R result :=
  match n with
  | O => rundef
  | S n' => fun s =>
      if negb (lv =? 0) && s.1 then Some (None, s)
      else
        let s := if lv =? 0 then (false, s.2) else s in
        match e with
        | None => Some (None, s)
        | Some e => rexpr (reval n' (lv + 1)) (lv + 1) frs e s
        end
  end.

End interpreter.
