(* ===== verification/JlRepr.v ===== *)
(** How S-expressions, values and environments lie in the JL heap, and what the
    heap operations do to them. *)
From Stdlib Require Import SpecFloat.
From S2P Require Import Prelude CText JlHeap JlEval JlLogic JlScopes JlTree JlRef.

(** * Code *)

Section code.
(** A bound on the length of the lists of a program. *)
Variable K : nat.
Variable ns : heap.

Fixpoint code_at (p : Z) (e : sexp) : Prop :=
  exists v, ns !! p = Some (NValue v) /\
  match e with
  | SNum d => v_tag v = JLVALUE_NUMBER /\ v_value v = VNumber d
  | SStr s => v_tag v = JLVALUE_STRING /\ v_value v = VStr s
  | SVar x => v_tag v = JLVALUE_VARIABLE /\ v_value v = VStr x
  | SList es =>
      v_tag v = JLVALUE_LIST /\ (length es <= K)%nat /\
      exists q, v_value v = VLst q /\
      (fix codes (q : Z) (es : list sexp) : Prop :=
         match es with
         | [] => q = 0
         | e :: es' => q <> 0 /\ code_at q e /\
             exists v, ns !! q = Some (NValue v) /\ codes (v_next v) es'
         end) q es
  end.

(** A chain of expressions linked by [next]. *)
Fixpoint codes_at (q : Z) (es : list sexp) : Prop :=
  match es with
  | [] => q = 0
  | e :: es' => q <> 0 /\ code_at q e /\ exists v, ns !! q = Some (NValue v) /\ codes_at (v_next v) es'
  end.

Definition opt_code_at (p : Z) (e : option sexp) : Prop :=
  match e with None => p = 0 | Some e => p <> 0 /\ code_at p e end.

Lemma codes_unfold q es :
  (fix codes (q : Z) (es : list sexp) : Prop :=
     match es with
     | [] => q = 0
     | e :: es' => q <> 0 /\ code_at q e /\
         exists v, ns !! q = Some (NValue v) /\ codes (v_next v) es'
     end) q es <-> codes_at q es.
Proof.
  revert q. induction es as [|e es IH]; intros q; simpl; [done|].
  split; intros (Hq & Hc & v & Hv & H); repeat split; eauto; exists v; split; auto; by apply IH.
Qed.

Lemma code_list p es : code_at p (SList es) -> exists v q,
  ns !! p = Some (NValue v) /\ v_tag v = JLVALUE_LIST /\ v_value v = VLst q /\
  (length es <= K)%nat /\ codes_at q es.
Proof. intros (v & Hv & Ht & Hl & q & Hq & H). apply codes_unfold in H. eauto 10. Qed.

Lemma codes_cons q e es : codes_at q (e :: es) -> exists v,
  q <> 0 /\ ns !! q = Some (NValue v) /\ code_at q e /\ codes_at (v_next v) es.
Proof. intros (Hq & Hc & v & Hv & H). eauto 10. Qed.

Lemma codes_hd q es : codes_at q es -> opt_code_at q (List.hd_error es).
Proof. destruct es; simpl; [done|]. by intros (? & ? & _). Qed.
End code.

Lemma code_sub K ns ns' e : sub ns ns' -> forall p, code_at K ns p e -> code_at K ns' p e.
Proof.
  intros Hs. induction e as [d|s|x|es IH] using sexp_ind; intros p (v & Hv & H);
    destruct (sub_value _ _ _ _ Hs Hv) as (v' & Hv' & Eu & _ & Et); exists v'; (split; [done|]);
    rewrite Et, Eu; try done.
  destruct H as (Ht & Hl & q & Hu & Hq). split; [done|]. split; [done|]. exists q. split; [done|].
  clear - Hs IH Hq. revert q Hq. induction IH as [|e es He _ IH]; intros q Hq; [done|].
  destruct Hq as (Hq0 & Hc & w & Hw & Hq). split; [done|]. split; [auto|].
  destruct (sub_value _ _ _ _ Hs Hw) as (w' & Hw' & _ & En & _). exists w'. split; [done|].
  rewrite En. by apply IH.
Qed.

Lemma codes_sub K ns ns' es : sub ns ns' -> forall q, codes_at K ns q es -> codes_at K ns' q es.
Proof.
  intros Hs. induction es as [|e es IH]; intros q Hq; [done|].
  destruct Hq as (Hq0 & Hc & w & Hw & Hq). split; [done|]. split; [by eapply code_sub|].
  destruct (sub_value _ _ _ _ Hs Hw) as (w' & Hw' & _ & En & _). exists w'. split; [done|].
  rewrite En. auto.
Qed.

Arguments code_at K ns p e : simpl never.

(** * Values and environments *)

Section repr.
Variable K : nat.
(** The heap the program and its closures lie in, and the global scope. *)
Variable W : heap.
Variable g : Z.

Definition val_at (v : JLValue) (rv : rval) : Prop :=
  v_tag v = rtag rv /\
  match rv with
  | RNum d => v_value v = VNumber d
  | RStr s => v_value v = VStr s
  | RSpecial f => v_value v = VSpecial f
  | RFun params body =>
      exists l sv pv pp, v_value v = VLst l /\ W !! l = Some (NValue sv) /\
        v_tag sv = JLVALUE_SCOPE /\ v_value sv = VScope g /\ v_next sv <> 0 /\
        W !! v_next sv = Some (NValue pv) /\ v_tag pv = JLVALUE_LIST /\ v_value pv = VLst pp /\
        (length params <= K)%nat /\ (length body <= K)%nat /\
        codes_at K W pp (map SVar params) /\ codes_at K W (v_next pv) body
  end.

Definition res_at (ns : heap) (r : Z) (v : result) : Prop :=
  match v with
  | None => r = 0
  | Some rv => r <> 0 /\ exists v, ns !! r = Some (NValue v) /\ val_at v rv
  end.

Definition frame_at (ns : heap) (t : btree) (fr : frame) : Prop :=
  forall x, match tfind t x with
            | None => fr !! x = None
            | Some a => exists v, fr !! x = Some v /\ res_at ns a v
            end.

(** The scopes from [s] out to the global one hold the local frames and [G]. *)
Variable G : frame.
Inductive env_at (ns : heap) : Z -> list frame -> list Z -> Prop :=
  | env_global t cnt : g <> 0 -> ns !! g = Some (NScope (mk_scope (troot t) 0 cnt)) ->
      tree_at ns t -> frame_at ns t G -> env_at ns g [] [g]
  | env_local s next cnt t fr frs ss : s <> 0 ->
      ns !! s = Some (NScope (mk_scope (troot t) next cnt)) ->
      tree_at ns t -> frame_at ns t fr -> env_at ns next frs ss -> s ∉ ss ->
      env_at ns s (fr :: frs) (s :: ss).

Lemma same_val v v' rv : v_value v' = v_value v -> v_tag v' = v_tag v -> val_at v rv -> val_at v' rv.
Proof. unfold val_at. by intros -> ->. Qed.

Lemma res_sub ns ns' r v : sub ns ns' -> res_at ns r v -> res_at ns' r v.
Proof.
  intros Hs. destruct v as [rv|]; simpl; [|done]. intros (Hr & v & Hv & Hval). split; [done|].
  destruct (sub_value _ _ _ _ Hs Hv) as (v' & Hv' & Hu & _ & Ht). eauto using same_val.
Qed.

(** Back to a smaller heap that still has the value. *)
Lemma res_back ns ns' r v : sub ns ns' -> (r <> 0 -> exists v, ns !! r = Some (NValue v)) ->
  res_at ns' r v -> res_at ns r v.
Proof.
  intros Hs Hr. destruct v as [rv|]; simpl; [|done]. intros (Hr0 & v & Hv & Hval). split; [done|].
  destruct (Hr Hr0) as [w Hw]. exists w. split; [done|].
  destruct (sub_value _ _ _ _ Hs Hw) as (v' & Hv' & Hu & _ & Ht). simplify_eq. eauto using same_val.
Qed.

Lemma frame_sub ns ns' t fr : sub ns ns' -> frame_at ns t fr -> frame_at ns' t fr.
Proof.
  intros Hs H x. specialize (H x). destruct (tfind t x); [|done].
  destruct H as (v & ? & ?). eauto using res_sub.
Qed.

(** A binding whose name is new. *)
Lemma frame_insert ns t fr q x r v :
  frame_at ns t fr -> res_at ns r v -> frame_at ns (tinsert t q x r) (<[x := v]> fr).
Proof.
  intros H Hr y. rewrite tfind_insert. case_decide as Hy.
  - subst y. exists v. split; [apply lookup_insert_eq|done].
  - assert (E : (<[x := v]> fr : frame) !! y = fr !! y) by (by apply lookup_insert_ne).
    specialize (H y). destruct (tfind t y); by rewrite E.
Qed.

Lemma frame_fresh ns t fr x : frame_at ns t fr -> fr !! x = None -> tfind t x = None.
Proof.
  intros H Hx. specialize (H x). destruct (tfind t x); [|done]. destruct H as (v & ? & _). congruence.
Qed.

Lemma env_sub ns ns' s frs ss : sub ns ns' -> env_at ns s frs ss -> env_at ns' s frs ss.
Proof.
  intros Hs. induction 1; econstructor; eauto using sub_scope, tree_at_sub, frame_sub.
Qed.

Lemma env_base ns s frs ss : env_at ns s frs ss -> env_at ns g [] [g].
Proof. induction 1; [|done]. by econstructor. Qed.

Lemma env_global_in ns s frs ss : env_at ns s frs ss -> g <> 0.
Proof. by induction 1. Qed.

Lemma env_nodes ns s frs ss : env_at ns s frs ss -> NoDup ss /\ forall a, a ∈ ss -> is_Some (ns !! a).
Proof.
  induction 1 as [t cnt Hg Hn Ht Hf|s next cnt t fr frs ss Hs Hn Ht Hf He [IH1 IH2] Hin].
  - split; [apply NoDup_singleton|]. intros a ->%list_elem_of_singleton. by rewrite Hn.
  - split; [by constructor|]. intros a [->|Ha]%elem_of_cons; [by rewrite Hn|auto].
Qed.

Lemma nodup_size (ns : heap) (l : list Z) : NoDup l -> (forall a, a ∈ l -> is_Some (ns !! a)) ->
  (length l <= size ns)%nat.
Proof.
  intros Hnd Hin. rewrite <- (size_list_to_set (C := gset Z) l Hnd), <- size_dom.
  apply subseteq_size. intros a Ha. apply elem_of_list_to_set in Ha. apply elem_of_dom. auto.
Qed.

(** * Lookup *)

Lemma lookup_scopes_spec st x : forall s frs ss fuel, env_at (nodes st) s frs ss ->
  (length ss < fuel)%nat ->
  match rlookup G frs x with
  | Some v => exists a, lookup_scopes fuel st s x = Some (Some a) /\ res_at (nodes st) a v
  | None => lookup_scopes fuel st s x = Some None
  end.
Proof.
  intros s frs ss fuel He. revert fuel.
  induction He as [t cnt Hg Hn Ht Hf|s next cnt t fr frs ss Hs Hn Ht Hf He IH Hin];
    intros fuel Hfuel; (destruct fuel as [|fuel]; [simpl in Hfuel; lia|]);
    cbn [lookup_scopes]; zif_false; rewrite Hn; cbn [s_bindings s_next];
    (destruct (find_binding_spec st t x (heap_fuel st) Ht) as (b & -> & Hb);
      [pose proof (tree_at_height _ _ Ht); unfold heap_fuel; lia|]);
    cbn [mbind option_bind rlookup]; specialize (Hf x); rewrite <- Hb in Hf;
    destruct b as [b|]; cbn in Hf.
  - destruct Hf as (v & -> & Hv). eauto.
  - rewrite Hf. by destruct fuel; [simpl in Hfuel; lia|].
  - destruct Hf as (v & -> & Hv). eauto.
  - rewrite Hf. apply IH. simpl in Hfuel. lia.
Qed.

Lemma wp_Lookup x s frs ss (Q : Z -> JLContext -> Prop) st :
  jl_scope st = s -> env_at (nodes st) s frs ss ->
  match rlookup G frs x with
  | Some v => forall a, res_at (nodes st) a v -> Q a st
  | None => Q 0 (add_printed (OError (jl_line st) (NotFound x)) (set_jl_error true st))
  end ->
  wp (Lookup x) Q st.
Proof.
  intros <- He HQ. unfold Lookup. apply wp_bind, wp_gets, wp_bind.
  destruct (env_nodes _ _ _ _ He) as [Hnd Hin]. pose proof (nodup_size _ _ Hnd Hin) as Hsz.
  pose proof (lookup_scopes_spec st x _ _ _ (heap_fuel st) He) as Hl.
  destruct (rlookup G frs x) as [v|].
  - destruct Hl as (a & Hl & Ha); [unfold heap_fuel; lia|].
    eapply wp_lift; [exact Hl|]. apply wp_ret, HQ, Ha.
  - eapply wp_lift; [apply Hl; unfold heap_fuel; lia|].
    apply wp_bind. exact HQ.
Qed.

(** * States *)

(** Every count is positive and at most [B]. *)
Definition counts_ok (B : Z) (ns : heap) : Prop :=
  forall p v, ns !! p = Some (NValue v) -> 1 <= v_count v <= B.

Lemma counts_held B r ns ns' : 0 <= B -> counts_ok B ns -> held r ns ns' -> counts_ok (B + 1) ns'.
Proof.
  intros HB Hc Hh p v Hp. destruct Hh as [[-> ->]|[_ Ha]]; [specialize (Hc _ _ Hp); lia|].
  destruct (decide (p = r)) as [->|Hne].
  - destruct Ha as [w Hw _ ->|u t _ _ ->]; rewrite lookup_insert_eq in Hp; simplify_eq; simpl; [|lia].
    specialize (Hc _ _ Hw). lia.
  - rewrite (acq_other _ _ _ _ Ha Hne) in Hp. specialize (Hc _ _ Hp). lia.
Qed.

Variables (ln max : Z).

(** The context in scope [sc] at depth [lv], with the error flag and the output
    of [s]. *)
Definition ctx (sc lv : Z) (s : rstate) := (sc, ln, (lv, max), s).

Record stok (st : JLContext) (sc : Z) (frs : list frame) (B lv : Z) (s : rstate) : Prop := {
  sk_pool : pool_ok st;
  sk_world : sub W (nodes st);
  sk_counts : counts_ok B (nodes st);
  sk_env : exists ss, env_at (nodes st) sc frs ss;
  sk_ctx : rest_of st = ctx sc lv s;
  sk_bound : 0 <= B }.

Lemma stok_held st st' sc frs B lv s s' r :
  stok st sc frs B lv s -> held r (nodes st) (nodes st') -> pool_ok st' ->
  rest_of st' = ctx sc lv s' -> stok st' sc frs (B + 1) lv s'.
Proof.
  intros [Hp Hw Hc [ss He] Hr HB] Hh Hp' Hr'. pose proof (held_sub _ _ _ Hh) as Hs. split; auto.
  - by eapply sub_trans.
  - by eapply counts_held.
  - exists ss. by eapply env_sub.
  - lia.
Qed.

Lemma stok_same st st' sc frs B lv s s' :
  stok st sc frs B lv s -> nodes st' = nodes st -> pool_ok st' ->
  rest_of st' = ctx sc lv s' -> stok st' sc frs B lv s'.
Proof. intros [Hp Hw Hc He Hr HB] Hn Hp' Hr'. split; rewrite ?Hn; auto. Qed.

(** What is in the world is in the heap. *)
Lemma world_value st sc frs B lv s p v : stok st sc frs B lv s -> W !! p = Some (NValue v) ->
  exists v', nodes st !! p = Some (NValue v') /\ v_value v' = v_value v /\
    v_next v' = v_next v /\ v_tag v' = v_tag v.
Proof. intros [_ Hw _ _ _ _]. by apply sub_value. Qed.

Lemma wp_world_next {A} p v st sc frs B lv s (k : Z -> M A) Q :
  stok st sc frs B lv s -> W !! p = Some (NValue v) -> wp (k (v_next v)) Q st ->
  wp (get_next p ≫= k) Q st.
Proof.
  intros Hk Hv HQ. destruct (world_value _ _ _ _ _ _ _ _ Hk Hv) as (v' & Hv' & _ & E & _).
  apply wp_bind. eapply wp_get_next; [done|]. by rewrite E.
Qed.

Lemma stok_error st sc frs B lv s msg (Q : unit -> JLContext -> Prop) :
  stok st sc frs B lv s ->
  (forall st', nodes st' = nodes st -> stok st' sc frs B lv (true, s.2 ++ [OError ln msg]) -> Q tt st') ->
  wp (Error msg) Q st.
Proof.
  intros Hk HQ. unfold Error. apply wp_bind, wp_modify, wp_bind, wp_gets.
  apply HQ; [done|]. destruct Hk as [Hp Hw Hc He Hr HB]. unfold rest_of, ctx in Hr.
  apply (stok_same st _ sc frs B lv s); [by split|done|by eapply pool_ok_rest|].
  injection Hr as <- Hl <- Hm <-. unfold rest_of, ctx. cbn. by rewrite Hl, Hm.
Qed.

End repr.
