(* ===== verification/JlPrint.v ===== *)
(** [JLPrint] prints what the reference says: expressions in the heap, the values
    of the reference interpreter and functions with their code. *)
From Stdlib Require Import SpecFloat.
From S2P Require Import Prelude CText JlHeap JlEval JlLogic JlScopes JlTree JlRef JlRepr.

(** The state with more output. *)
Definition add_outs (out : list jl_out) (st : JLContext) : JLContext :=
  mk_context (nodes st) (stale st) (freelist st) (blocks st) (jl_scope st) (jl_line st)
    (levels st) (max_levels st) (jl_error st) (printed st ++ out).

Lemma add_outs_app a b st : add_outs b (add_outs a st) = add_outs (a ++ b) st.
Proof. unfold add_outs. cbn. by rewrite app_assoc. Qed.
Lemma add_outs_nil st : add_outs [] st = st.
Proof. destruct st. unfold add_outs. cbn. by rewrite app_nil_r. Qed.

Lemma wp_outs {A} o (k : M A) out Q st :
  wp k Q (add_outs (out ++ [o]) st) -> wp (print o;; k) Q (add_outs out st).
Proof.
  intros H. apply wp_bind, wp_modify.
  change (add_printed o (add_outs out st)) with (add_outs [o] (add_outs out st)). by rewrite add_outs_app.
Qed.

(** Fuel for an expression: its depth and the length of its lists. *)
Fixpoint printable (n : nat) (e : sexp) : bool :=
  match n with
  | O => false
  | S n' => match e with SList es => (length es <=? n')%nat && forallb (printable n') es | _ => true end
  end.

Definition printable_value (n : nat) (v : result) : bool :=
  match v with
  | Some (RFun params body) =>
      match n with
      | O => false
      | S n' => (length body <? n')%nat && forallb (printable n') (SList (map SVar params) :: body)
      end
  | _ => (0 <? n)%nat
  end.

Section print.
Variables (K : nat) (W : heap).

Definition prints (p : Z) (m : M unit) (out : list jl_out) : Prop :=
  forall st, sub W (nodes st) -> wp m (fun _ st' => st' = add_outs out st) st.

(** The items of a chain, each printed by [rec]. *)
Lemma print_items_show rec es : forall n q l, codes_at K W q es -> (length es <= n)%nat ->
  (forall p e out, e ∈ es -> p <> 0 -> code_at K W p e -> show e = Some out -> prints p (rec p) out) ->
  show_items show es = Some l -> prints q (print_items rec n q) l.
Proof.
  induction es as [|e es IH]; intros n q l Hq Hn Hrec Hl st Hs.
  - simpl in Hq. subst q. injection Hl as <-. destruct n; by apply wp_ret; rewrite add_outs_nil.
  - destruct (codes_cons _ _ _ _ _ Hq) as (w & Hq0 & Hw & Hc & Hes).
    destruct n as [|n]; [simpl in Hn; lia|]. cbn [print_items]. zif_false.
    cbn [show_items] in Hl. apply bind_Some in Hl as (a & Ha & Hl). apply bind_Some in Hl as (b & Hb & [= <-]).
    apply wp_bind. eapply wp_mono; [eapply (Hrec q e a); [left|done|done|done|exact Hs]|].
    intros [] st1 ->. destruct (sub_value _ _ _ _ Hs Hw) as (w' & Hw' & _ & En & _).
    apply wp_bind. eapply wp_get_next; [exact Hw'|]. rewrite En.
    assert (Hsep : forall sep, nodes (add_outs sep st) = nodes st) by done.
    assert (Hrest : forall o, wp (print_items rec n (v_next w)) (fun _ st' => st' = add_outs (o ++ b) st) (add_outs o st)).
    { intros o. eapply wp_mono; [eapply (IH n (v_next w) b); [done|simpl in Hn; lia| |done|done]|].
      - intros p e0 out He0. apply Hrec. by right.
      - intros [] st2 ->. by rewrite add_outs_app. }
    destruct es as [|e2 es].
    + simpl in Hes. rewrite Hes. cbn [Z.eqb]. apply wp_bind, wp_ret. specialize (Hrest a). by rewrite Hes in Hrest.
    + destruct Hes as [Hnz _]. zif_false. unfold text. apply wp_outs. rewrite app_assoc. apply Hrest.
Qed.

(** [printf] of a number. *)
Lemma wp_print_number d w out st (Q : unit -> JLContext -> Prop) : v_value w = VNumber d ->
  show_number d = Some out -> Q tt (add_outs out st) ->
  wp (d ← lift (u_number (v_value w));
      if SFeqb (ceilf d) d then z ← lift (d_to_int16 d); print (OInt z) else print (OFloat d)) Q st.
Proof.
  intros Hu Hs HQ. apply wp_bind. eapply wp_lift; [by rewrite Hu|]. unfold show_number in Hs.
  destruct (SFeqb (ceilf d) d).
  - apply bind_Some in Hs as (z & Hz & [= <-]). apply wp_bind. by eapply wp_lift.
  - by injection Hs as <-.
Qed.

(** Between two brackets. *)
Lemma wp_bracketed (open : bytes) p (m : M unit) l st (Q : unit -> JLContext -> Prop) :
  prints p m l -> sub W (nodes st) ->
  Q tt (add_outs ([OText open] ++ l ++ [OText [41]]) st) -> wp (text open;; m;; text [41]) Q st.
Proof.
  intros Hm Hs HQ. unfold text. apply wp_bind, wp_modify.
  change (add_printed (OText open) st) with (add_outs [OText open] st).
  apply wp_bind. eapply wp_mono; [by apply Hm|]. intros [] st1 ->. apply wp_modify.
  change (add_printed (OText [41]) (add_outs l (add_outs [OText open] st)))
    with (add_outs [OText [41]] (add_outs l (add_outs [OText open] st))).
  by rewrite !add_outs_app.
Qed.

Lemma JLPrint_code n : forall p e out, printable n e = true -> p <> 0 -> code_at K W p e ->
  show e = Some out -> prints p (JLPrint n p) out.
Proof.
  induction n as [|n IH]; intros p e out Hf Hp Hc He st Hs; [done|]. cbn [JLPrint]. zif_false.
  assert (Hget : forall w (k : JLValue -> M unit) Q, W !! p = Some (NValue w) ->
    (forall w', v_value w' = v_value w -> v_tag w' = v_tag w -> wp (k w') Q st) -> wp (get_value p ≫= k) Q st).
  { intros w k Q Hw HQ. destruct (sub_value _ _ _ _ Hs Hw) as (w' & Hw' & Eu & _ & Et).
    apply wp_bind. eapply wp_get_value; [exact Hw'|by apply HQ]. }
  destruct e as [d|s|x|es].
  - destruct Hc as (w & Hw & Ht & Hu). eapply Hget; [exact Hw|]. intros w' Eu Et. rewrite Et, Ht.
    cbn [Z.eqb Pos.eqb JLVALUE_NIL JLVALUE_NUMBER]. eapply wp_print_number; [by rewrite Eu|exact He|done].
  - destruct Hc as (w & Hw & Ht & Hu). eapply Hget; [exact Hw|]. intros w' Eu Et. rewrite Et, Ht.
    cbn [Z.eqb Pos.eqb JLVALUE_NIL JLVALUE_NUMBER JLVALUE_STRING]. apply wp_bind.
    eapply wp_lift; [by rewrite Eu, Hu|]. injection He as <-. by apply wp_modify.
  - destruct Hc as (w & Hw & Ht & Hu). eapply Hget; [exact Hw|]. intros w' Eu Et. rewrite Et, Ht.
    cbn [Z.eqb Pos.eqb JLVALUE_NIL JLVALUE_NUMBER JLVALUE_STRING JLVALUE_LIST JLVALUE_LAMBDA JLVALUE_SPECIAL JLVALUE_VARIABLE].
    apply wp_bind. eapply wp_lift; [by rewrite Eu, Hu|]. injection He as <-. by apply wp_modify.
  - destruct (code_list _ _ _ _ Hc) as (w & q & Hw & Ht & Hu & _ & Hq).
    eapply Hget; [exact Hw|]. intros w' Eu Et. rewrite Et, Ht.
    cbn [Z.eqb Pos.eqb JLVALUE_NIL JLVALUE_NUMBER JLVALUE_STRING JLVALUE_LIST]. apply wp_bind.
    eapply wp_lift; [by rewrite Eu, Hu|]. cbn [show] in He. apply bind_Some in He as (l & Hl & [= <-]).
    cbn [printable] in Hf. apply andb_true_iff in Hf as [Hlen Hall].
    eapply wp_bracketed; [|exact Hs|done]. eapply print_items_show; [exact Hq|by apply Nat.leb_le| |exact Hl].
    intros p0 e0 out0 He0. apply IH. rewrite forallb_forall in Hall. by apply Hall, list_elem_of_In.
Qed.

Lemma JLPrint_value g n r v out : forall st, printable_value n v = true -> sub W (nodes st) ->
  res_at K W g (nodes st) r v -> show_value v = Some out ->
  wp (JLPrint n r) (fun _ st' => st' = add_outs out st) st.
Proof.
  intros st Hf Hs Hr He. destruct n as [|n]; [by destruct v as [[]|]|]. cbn [JLPrint].
  destruct v as [rv|]; [|cbn in Hr; subst r; by injection He as <-].
  destruct Hr as (Hr & w & Hw & Ht & Hval). zif_false. apply wp_bind. eapply wp_get_value; [exact Hw|]. rewrite Ht.
  destruct rv as [d|s|f|params body];
    cbn [rtag Z.eqb Pos.eqb JLVALUE_NIL JLVALUE_NUMBER JLVALUE_STRING JLVALUE_LIST JLVALUE_LAMBDA JLVALUE_SPECIAL].
  - by eapply wp_print_number.
  - apply wp_bind. eapply wp_lift; [by rewrite Hval|]. injection He as <-. by apply wp_modify.
  - rewrite Hval. injection He as <-. by apply wp_modify.
  - destruct Hval as (l & sv & pv & pp & Hu & Hl & _ & _ & Hn & Hpv & Htp & Hup & Hlp & Hlb & Hp & Hb).
    destruct (sub_value _ _ _ _ Hs Hl) as (sv' & Hsv' & _ & En & _).
    apply wp_bind. eapply wp_lift; [by rewrite Hu|]. cbn [show_value] in He.
    apply bind_Some in He as (o & Ho & [= <-]). cbn [printable_value] in Hf. apply andb_true_iff in Hf as [Hlen Hall].
    assert (Hitems : prints (v_next sv) (print_items (JLPrint n) n (v_next sv)) o).
    { eapply (print_items_show _ (SList (map SVar params) :: body)); [| | |exact Ho].
      - split; [done|]. split; [|by exists pv]. exists pv. split; [done|]. split; [done|].
        split; [by rewrite length_map|]. exists pp. split; [done|]. by apply codes_unfold.
      - apply Nat.ltb_lt in Hlen. simpl. lia.
      - intros p0 e0 out0 He0. apply JLPrint_code. rewrite forallb_forall in Hall. by apply Hall, list_elem_of_In. }
    pose proof (wp_bracketed lambda_text _ _ _ st (fun _ st' => st' = add_outs ([OText lambda_text] ++ o ++ [OText [41]]) st)
      Hitems Hs eq_refl) as H.
    unfold text in *. apply wp_bind, wp_modify, wp_bind.
    eapply wp_get_next; [exact Hsv'|]. rewrite En. exact H.
Qed.

End print.
