(* ===== verification/JlFuncSpec.v ===== *)
(** The functions of the JL interpreter compute what the reference interpreter
    says, and give back every reference they take: the lemmas, function by
    function, against an evaluator that does so one level down. *)
From Stdlib Require Import SpecFloat.
From S2P Require Import Prelude CText JlHeap JlEval JlLogic JlScopes JlTree JlRef JlRepr JlPrint.

(** * The reference monad *)

Lemma R_bind_inv {A B} (m : R A) (k : A -> R B) s y : (m ≫= k) s = Some y ->
  exists a s1, m s = Some (a, s1) /\ k a s1 = Some y.
Proof. unfold mbind, R_bind. destruct (m s) as [[a s1]|]; [eauto|done]. Qed.
Lemma R_lift_inv {A} (o : option A) s a s1 : rlift o s = Some (a, s1) -> o = Some a /\ s1 = s.
Proof. unfold rlift. destruct o; simpl; [by intros [= -> ->]|done]. Qed.

Lemma R_bind_run {A B} (m : M A) (k : A -> M B) st b st' : (m ≫= k) st = Some (b, st') ->
  exists a st1, m st = Some (a, st1) /\ k a st1 = Some (b, st').
Proof. unfold mbind, M_bind. destruct (m st) as [[a st1]|]; [eauto|done]. Qed.

(** Take a bind of the reference apart. *)
Ltac rinv H :=
  let a := fresh "a" in let s1 := fresh "s1" in let H1 := fresh "E" in
  apply R_bind_inv in H as (a & s1 & H1 & H).

(** A computation in three parts, the first two taken together. *)
Lemma wp_rebind {A B C} (m : M A) (k : A -> M B) (h : B -> M C) Q st :
  wp ((m ≫= k) ≫= h) Q st -> wp (m ≫= fun a => k a ≫= h) Q st.
Proof. unfold wp, mbind, M_bind. by destruct (m st) as [[a st']|]. Qed.

Lemma helds_one r ns ns' : helds [r] ns ns' <-> held r ns ns'.
Proof.
  split; [|intros; econstructor; [done|constructor]].
  intros H. inversion H as [|? ? ? ns1 ? ? H']; subst. by inversion H'; subst.
Qed.

Lemma helds_in rs ns ns' x : helds rs ns ns' -> x ∈ rs -> x <> 0 ->
  exists v, ns' !! x = Some (NValue v).
Proof.
  induction 1 as [|r rs ns ns1 ns2 H1 H2 IH]; intros Hin Hx; [by apply elem_of_nil in Hin|].
  apply elem_of_cons in Hin as [->|Hin]; [|auto].
  destruct H1 as [[? _]|[_ Ha]]; [done|]. destruct (acq_value _ _ _ Ha) as [v Hv].
  destruct (sub_value _ _ _ _ (helds_sub _ _ _ H2) Hv) as (v' & ? & _). eauto.
Qed.

Lemma counts_helds B rs ns ns' : 0 <= B -> counts_ok B ns -> helds rs ns ns' ->
  counts_ok (B + zlen rs) ns'.
Proof.
  intros HB Hc Hh. revert B HB Hc. induction Hh as [|r rs n0 n1 n2 H1 H2 IH]; intros B HB Hc.
  - unfold zlen. simpl. by rewrite Z.add_0_r.
  - rewrite zlen_cons. replace (B + (1 + zlen rs)) with (B + 1 + zlen rs) by lia.
    apply IH; [lia|]. by eapply counts_held.
Qed.

Lemma counts_union B S V : structure S -> counts_ok B V -> counts_ok B (S ∪ V).
Proof.
  intros HS HV p v Hp. apply lookup_union_Some_raw in Hp as [Hp|[_ Hp]]; [|eauto].
  by apply HS in Hp.
Qed.

Lemma code_name K ns p e x : code_at K ns p e -> name_of e = Some x ->
  exists v, ns !! p = Some (NValue v) /\ v_value v = VStr x.
Proof.
  destruct e; simpl; try done. intros (v & Hv & Ht & Hu) [= ->]. eauto.
Qed.

Section spec.
Variable K : nat.
Variable W : heap.
Variable g : Z.
Variable G : frame.
Variables (ln max lv : Z).

Abbreviation stok st sc frs B s := (stok K W g G ln max st sc frs B lv s).
Abbreviation res_at := (res_at K W g).
Abbreviation code_at := (code_at K W).
Abbreviation codes_at := (codes_at K W).
Abbreviation opt_code_at := (opt_code_at K W).
Abbreviation ctx := (ctx ln max).

(** What an evaluation leaves: one reference to a value that is the result. *)
Definition fpost (st0 : JLContext) (sc : Z) (frs : list frame) (B : Z) (s : rstate) (v : result)
    (r : Z) (st : JLContext) : Prop :=
  held r (nodes st0) (nodes st) /\ res_at (nodes st) r v /\ stok st sc frs (B + 1) s.

(** * States along the way *)

Lemma stok_helds st0 st sc frs B s s' rs :
  stok st0 sc frs B s -> helds rs (nodes st0) (nodes st) -> pool_ok st ->
  rest_of st = ctx sc lv s' -> stok st sc frs (B + zlen rs) s'.
Proof.
  intros [Hp Hw Hc [ss He] Hr HB] Hh Hp' Hr'. pose proof (helds_sub _ _ _ Hh) as Hs. split; auto.
  - by eapply sub_trans.
  - by eapply counts_helds.
  - exists ss. by eapply env_sub.
  - pose proof (zlen_nonneg rs). lia.
Qed.

Lemma stok_nodes st st' sc frs B B' s s' :
  stok st sc frs B s -> stok st' sc frs B' s' -> nodes st' = nodes st -> stok st' sc frs B s'.
Proof. intros [H1 H2 H3 H4 H5 H6] [H1' _ _ _ H5' _] Hn. split; rewrite ?Hn; auto. Qed.

Lemma fpost_nodes st st' sc frs B s v r st1 :
  nodes st' = nodes st -> fpost st' sc frs B s v r st1 -> fpost st sc frs B s v r st1.
Proof. unfold fpost. by intros ->. Qed.

Lemma wp_lastly (m : M Z) Q st : wp m Q st -> wp (m ≫= mret) Q st.
Proof. intros H. apply wp_bind. eapply wp_mono; [exact H|]. done. Qed.

(** The release of one of the references taken since [st0]; the others stay. *)
Lemma wp_release {A} st0 st sc frs B B' s0 s r rs (k : M A) Q :
  helds (r :: rs) (nodes st0) (nodes st) -> stok st0 sc frs B s0 -> stok st sc frs B' s ->
  (forall st', helds rs (nodes st0) (nodes st') ->
     (forall x v, x ∈ rs -> res_at (nodes st) x v -> res_at (nodes st') x v) ->
     stok st' sc frs (B + zlen rs) s -> wp k Q st') ->
  wp (JLRelease r;; k) Q st.
Proof.
  intros Hh H0 Hk HQ. apply helds_uncons in Hh as (ns1 & Hrs & Hr). apply wp_bind.
  eapply wp_JLRelease; [apply Hk|exact Hr|]. intros st' Hn Hr' Hp'. apply HQ.
  - by rewrite Hn.
  - intros x v Hx. rewrite Hn. apply res_back; [by eapply held_sub|]. intros. by eapply helds_in.
  - eapply stok_helds; [exact H0|by rewrite Hn|done|]. rewrite Hr'. apply Hk.
Qed.

(** The release of the only one: the heap is what it was. *)
Lemma wp_release_last {A} st0 st sc frs B B' s0 s r (k : M A) Q :
  held r (nodes st0) (nodes st) -> stok st0 sc frs B s0 -> stok st sc frs B' s ->
  (forall st', nodes st' = nodes st0 -> stok st' sc frs B s -> wp k Q st') ->
  wp (JLRelease r;; k) Q st.
Proof.
  intros Hh H0 Hk HQ. eapply (wp_release st0 st _ _ _ _ _ _ r []); [by apply helds_one|done|done|].
  intros st' Hh' _ Hk'. inversion Hh'; subst. rewrite zlen_nil, Z.add_0_r in Hk'. by apply HQ.
Qed.

Lemma wp_has_tag {A} t st r v (k : bool -> M A) Q :
  res_at (nodes st) r v ->
  wp (k (match v with Some x => rtag x =? t | None => false end)) Q st ->
  wp (has_tag t r ≫= k) Q st.
Proof.
  intros Hr HQ. apply wp_bind. unfold has_tag. destruct v as [x|]; simpl in Hr.
  - destruct Hr as (Hr & w & Hw & Ht & _). zif_false. apply wp_bind.
    eapply wp_get_tag; [done|]. apply wp_ret. by rewrite Ht.
  - subst. exact HQ.
Qed.

Lemma wp_res_number {A} st r d (k : _ -> M A) Q :
  res_at (nodes st) r (Some (RNum d)) -> wp (k d) Q st -> wp (get_number r ≫= k) Q st.
Proof. intros (_ & w & Hw & _ & Hd) HQ. apply wp_bind. eapply wp_get_number; eauto. Qed.
Lemma wp_res_str {A} st r x (k : _ -> M A) Q :
  res_at (nodes st) r (Some (RStr x)) -> wp (k x) Q st -> wp (get_str r ≫= k) Q st.
Proof. intros (_ & w & Hw & _ & Hd) HQ. apply wp_bind. eapply wp_get_str; eauto. Qed.

(** A fresh value as the result. *)
Lemma wp_fresh tag u v st sc frs B s (Q : Z -> JLContext -> Prop) :
  stok st sc frs B s -> simple u tag ->
  (forall w, v_tag w = tag -> v_value w = u -> val_at K W g w v) ->
  (forall r st', fpost st sc frs B s (Some v) r st' -> Q r st') ->
  wp (result ← CreateValue None tag; update_value result (with_value u);; mret result) Q st.
Proof.
  intros Hk Hs Hv HQ. apply wp_new_value; [apply Hk|].
  intros p st' Hp Hfresh Hn Hr Hp'. apply HQ.
  assert (Hh : held p (nodes st) (nodes st')) by (right; split; [done|by eapply acq_new]).
  split; [done|]. split.
  - split; [done|]. exists (mk_value u 0 1 tag). split; [by rewrite Hn, lookup_insert_eq|by apply Hv].
  - eapply stok_held; [done|exact Hh|done|]. rewrite Hr. apply Hk.
Qed.

Lemma wp_number d st sc frs B s (Q : Z -> JLContext -> Prop) :
  stok st sc frs B s ->
  (forall r st', fpost st sc frs B s (Some (RNum d)) r st' -> Q r st') ->
  wp (JLDefineNumber None d) Q st.
Proof. intros Hk HQ. eapply wp_fresh; [done|done| |exact HQ]. by intros w ? ?. Qed.

Lemma wp_string t st sc frs B s (Q : Z -> JLContext -> Prop) :
  stok st sc frs B s ->
  (forall r st', fpost st sc frs B s (Some (RStr t)) r st' -> Q r st') ->
  wp (result ← CreateValue None JLVALUE_STRING; update_value result (with_value (VStr t));; mret result)
    Q st.
Proof. intros Hk HQ. eapply wp_fresh; [done|done| |exact HQ]. by intros w ? ?. Qed.

Lemma fpost_nil st0 st sc frs B s :
  stok st sc frs B s -> nodes st = nodes st0 -> fpost st0 sc frs B s None 0 st.
Proof.
  intros Hk Hn. split; [left; split; [done|by rewrite Hn]|]. split; [done|].
  destruct Hk as [H1 H2 H3 H4 H5 H6]. split; auto; [|lia].
  intros p v Hv. specialize (H3 _ _ Hv). lia.
Qed.

Lemma wp_yes_if (b : bool) st sc frs B s (Q : Z -> JLContext -> Prop) :
  stok st sc frs B s ->
  (forall r st', fpost st sc frs B s (yes_if b) r st' -> Q r st') ->
  wp (if b then JLDefineNumber None d_one else mret 0) Q st.
Proof.
  intros Hk HQ. destruct b; [by eapply wp_number|]. apply wp_ret, HQ. by apply fpost_nil.
Qed.

Lemma held_zero ns : held 0 ns ns.
Proof. by left. Qed.
#[local] Hint Resolve held_zero : core.

(** Two references go back, the result stays. *)
Lemma wp_release_two va vb c v st0 st sc frs B B' s0 s :
  helds [va; vb; c] (nodes st0) (nodes st) -> res_at (nodes st) c v ->
  stok st0 sc frs B s0 -> stok st sc frs B' s ->
  wp (JLRelease va;; JLRelease vb;; mret c) (fpost st0 sc frs B s v) st.
Proof.
  intros Hh Hr H0 Hk. eapply wp_release; [exact Hh|done|done|]. intros st1 Hh1 Hr1 Hk1.
  eapply wp_release; [exact Hh1|done|done|]. intros st2 Hh2 Hr2 Hk2. apply wp_ret.
  split; [by apply helds_one|]. split; [apply Hr2, Hr1; [left|right; left|done]|done].
Qed.

(** * An evaluator *)

Variable fuel : nat.
Variable eval : Z -> M Z.
Variable ev : list frame -> option sexp -> R result.
Variable Bmax : Z.

Hypothesis fuel_K : (K <= fuel)%nat.
Hypothesis Bmax_small : Bmax < 4294967294.
Hypothesis eval_ok : forall st sc frs B e p s v s',
  stok st sc frs B s -> B <= Bmax -> opt_code_at p e -> ev frs e s = Some (v, s') ->
  wp (eval p) (fpost st sc frs B s' v) st.
Hypothesis ev_nil : forall frs s v s', ev frs None s = Some (v, s') -> v = None.

Lemma wp_eval {A} st sc frs B e p s v s' (k : Z -> M A) Q :
  stok st sc frs B s -> B <= Bmax -> opt_code_at p e -> ev frs e s = Some (v, s') ->
  (forall r st', held r (nodes st) (nodes st') -> res_at (nodes st') r v ->
     stok st' sc frs (B + 1) s' -> wp (k r) Q st') ->
  wp (eval p ≫= k) Q st.
Proof.
  intros Hk HB Hc He HQ. apply wp_bind. eapply wp_mono; [by eapply eval_ok|].
  intros r st' (? & ? & ?). eauto.
Qed.

Lemma wp_CheckCondition {A} st sc frs B e p s b s' (k : bool -> M A) Q :
  stok st sc frs B s -> B <= Bmax -> opt_code_at p e -> rcheck ev frs e s = Some (b, s') ->
  (forall st', nodes st' = nodes st -> stok st' sc frs B s' -> wp (k b) Q st') ->
  wp (CheckCondition eval p ≫= k) Q st.
Proof.
  intros Hk HB Hc He HQ. unfold rcheck in He. rinv He. injection He as <- ->.
  apply wp_bind. unfold CheckCondition. eapply wp_eval; [done..|].
  intros r st1 Hh Hr Hk1. destruct a as [x|]; simpl in Hr.
  - destruct Hr as (Hr0 & w & Hw & Hval). zif_false.
    apply wp_bind. eapply wp_get_value; [done|]. destruct Hval as [Ht Hu].
    assert (Hrest : forall rc, rc = truth (Some x) ->
      wp (JLRelease r;; mret rc) (fun a st' => wp (k a) Q st') st1).
    { intros rc ->. eapply wp_release_last; [done|done|done|]. intros. apply wp_ret. by apply HQ. }
    apply wp_bind. destruct x; simpl in Ht, Hu; rewrite Ht; cbn -[JLRelease].
    + apply wp_bind. eapply wp_lift; [by rewrite Hu|]. by apply wp_ret, Hrest.
    + by apply wp_ret, Hrest.
    + by apply wp_ret, Hrest.
    + by apply wp_ret, Hrest.
  - subst r. apply wp_ret. destruct Hh as [[_ Hn]|[? _]]; [|done].
    apply HQ; [done|]. by eapply stok_nodes.
Qed.

(** * The argument list *)

Variables (args : Z) (head : sexp) (hv : JLValue).
Hypothesis args_at : W !! args = Some (NValue hv).
Hypothesis head_at : code_at args head.

Lemma wp_args {A} (k : Z -> M A) st sc frs B s Q :
  stok st sc frs B s -> wp (k (v_next hv)) Q st -> wp (get_next args ≫= k) Q st.
Proof. intros Hk. by eapply wp_world_next. Qed.

Lemma wp_head_str x st sc frs B s (Q : bytes -> JLContext -> Prop) :
  stok st sc frs B s -> name_of head = Some x -> Q x st -> wp (get_str args) Q st.
Proof.
  intros Hk Hx HQ. destruct (code_name _ _ _ _ _ head_at Hx) as (v & Hv & Hu).
  destruct (world_value _ _ _ _ _ _ _ _ _ _ _ _ _ _ Hk Hv) as (v' & Hv' & E & _ & _).
  eapply wp_get_str; [done|by rewrite E|done].
Qed.

(** The three errors that name the function. *)
Lemma wp_named_error {A} (msg : bytes -> jl_msg) st sc frs B s u s' (k : M A) Q :
  stok st sc frs B s -> (x ← rlift (name_of head); rerror ln (msg x)) s = Some (u, s') ->
  (forall st', nodes st' = nodes st -> stok st' sc frs B s' -> wp k Q st') ->
  wp ((x ← get_str args; Error (msg x));; k) Q st.
Proof.
  intros Hk E HQ. rinv E. apply R_lift_inv in E0 as [Hx ->]. injection E as _ <-.
  apply wp_bind, wp_bind. eapply wp_head_str; [done|done|].
  eapply stok_error; [done|]. intros st' Hn Hk'. by apply HQ.
Qed.

(** * Walks over the arguments *)

Lemma wp_next {A} q e es' st sc frs B s (k : Z -> M A) Q :
  codes_at q (e :: es') -> stok st sc frs B s ->
  (forall q', codes_at q' es' -> wp (k q') Q st) -> wp (get_next q ≫= k) Q st.
Proof.
  intros Hq Hk HQ. destruct (codes_cons _ _ _ _ _ Hq) as (v & _ & Hv & _ & Hes).
  eapply wp_world_next; [exact Hk|exact Hv|by apply HQ].
Qed.

Lemma wp_number_loop op frs es' : forall n vp st sc B acc s v s',
  stok st sc frs B s -> B <= Bmax -> codes_at vp es' -> (length es' <= n)%nat ->
  rnumbers ln ev frs op head es' acc s = Some (v, s') ->
  wp (number_loop eval n op args vp acc)
    (fun r st' => wp (number_or_nil r) (fpost st sc frs B s' v) st') st.
Proof.
  induction es' as [|e es' IH]; intros n vp st sc B acc s v s' Hk HB Hc Hn He.
  - simpl in Hc. subst vp. injection He as <- <-. destruct n; by eapply wp_number; eauto.
  - pose proof (codes_hd _ _ _ _ Hc) as Hhd. pose proof Hc as [Hvp _].
    destruct n as [|n]; [simpl in Hn; lia|]. cbn [number_loop]. zif_false.
    simpl in He. rinv He. eapply wp_eval; [done..|]. intros r st1 Hh Hr Hk1.
    eapply wp_has_tag; [done|].
    destruct a as [[d| | |]|]; cbn -[number_loop number_or_nil wp JLRelease] in *.
    1: { eapply wp_res_number; [done|]. eapply wp_release_last; [exact Hh|done..|].
      intros st2 Hn2 Hk2. eapply wp_next; [done|done|]. intros q' Hq'.
      eapply wp_mono; [eapply IH; [done|done|done|lia|done]|]. intros r' st' H. eapply wp_mono; [exact H|].
      intros ? ? ?. by eapply fpost_nodes. }
    all: rinv He; injection He as <- <-; eapply wp_named_error; [done|done|];
      intros st2 Hn2 Hk2; rewrite <- Hn2 in Hh; eapply wp_release_last; [exact Hh|done|done|];
      intros st3 Hn3 Hk3; by apply wp_ret, wp_ret, fpost_nil.
Qed.

Lemma as_number_Some v d : as_number v = Some d -> v = Some (RNum d).
Proof. destruct v as [[]|]; simpl; congruence. Qed.
Lemma as_number_None v : as_number v = None ->
  match v with Some x => rtag x =? JLVALUE_NUMBER | None => false end = false.
Proof. by destruct v as [[]|]. Qed.

(** An evaluation whose result must be a number: either it is, or the error. *)
Lemma wp_number_or {A} e p (frs : list frame) st sc B s v s' (k : Z -> bool -> M A) Q :
  stok st sc frs B s -> B <= Bmax -> opt_code_at p e -> ev frs e s = Some (v, s') ->
  (forall r st', held r (nodes st) (nodes st') -> stok st' sc frs (B + 1) s' ->
     match as_number v with
     | Some d => res_at (nodes st') r (Some (RNum d)) -> r <> 0 -> wp (k r true) Q st'
     | None => wp (k r false) Q st'
     end) ->
  wp (r ← eval p; ok ← has_tag JLVALUE_NUMBER r; k r ok) Q st.
Proof.
  intros Hk HB Hc He HQ. eapply wp_eval; [done..|]. intros r st1 Hh Hr Hk1.
  eapply wp_has_tag; [done|]. specialize (HQ r st1 Hh Hk1).
  destruct (as_number v) as [d|] eqn:E.
  - apply as_number_Some in E as ->. apply HQ; [done|]. by destruct Hr.
  - by rewrite as_number_None.
Qed.

Lemma codes_hd_next q es' : codes_at q es' -> q <> 0 ->
  exists e es'' v, es' = e :: es'' /\ W !! q = Some (NValue v) /\ codes_at (v_next v) es''.
Proof.
  destruct es' as [|e es'']; simpl; [done|]. intros (_ & _ & v & Hv & H) _. eauto 10.
Qed.

(** The argument of a function that evaluates to something is there. *)
Lemma wp_next_hd {A} frs es' q s0 d s1 st sc B s (k : Z -> M A) Q :
  codes_at q es' -> ev frs (List.hd_error es') s0 = Some (Some d, s1) -> stok st sc frs B s ->
  (forall q', codes_at q' (List.tl es') -> wp (k q') Q st) -> wp (get_next q ≫= k) Q st.
Proof.
  intros Hq He Hk HQ. destruct es' as [|e es'']; [by apply ev_nil in He|].
  by eapply wp_next.
Qed.

Lemma wp_and_loop frs es' : forall n vp st sc B s v s',
  stok st sc frs B s -> B <= Bmax -> codes_at vp es' -> (length es' <= n)%nat ->
  rand ev frs es' s = Some (v, s') -> wp (and_loop eval n vp) (fpost st sc frs B s' v) st.
Proof.
  induction es' as [|e es' IH]; intros n vp st sc B s v s' Hk HB Hc Hn He.
  - simpl in Hc. subst vp. injection He as <- <-. destruct n; by eapply wp_number.
  - pose proof (codes_hd _ _ _ _ Hc) as Hhd. pose proof Hc as [Hvp _].
    destruct n as [|n]; [simpl in Hn; lia|]. cbn [and_loop]. zif_false. simpl in He. rinv He.
    eapply wp_CheckCondition; [done..|]. intros st1 Hn1 Hk1. destruct a.
    + eapply wp_next; [done|done|]. intros q' Hq'.
      eapply wp_mono; [eapply IH; [done|done|done|simpl in Hn; lia|done]|].
      intros r st2 H. by eapply fpost_nodes.
    + injection He as <- <-. by apply wp_ret, fpost_nil.
Qed.

Lemma wp_or_loop frs es' : forall n vp st sc B s v s',
  stok st sc frs B s -> B <= Bmax -> codes_at vp es' -> (length es' <= n)%nat ->
  ror ev frs es' s = Some (v, s') -> wp (or_loop eval n vp) (fpost st sc frs B s' v) st.
Proof.
  induction es' as [|e es' IH]; intros n vp st sc B s v s' Hk HB Hc Hn He.
  - simpl in Hc. subst vp. injection He as <- <-. destruct n; by apply wp_ret, fpost_nil.
  - pose proof (codes_hd _ _ _ _ Hc) as Hhd. pose proof Hc as [Hvp _].
    destruct n as [|n]; [simpl in Hn; lia|]. cbn [or_loop]. zif_false. simpl in He. rinv He.
    eapply wp_CheckCondition; [done..|]. intros st1 Hn1 Hk1. destruct a.
    + injection He as <- <-. eapply wp_number; [done|]. intros r st2 H. by eapply fpost_nodes.
    + eapply wp_next; [done|done|]. intros q' Hq'.
      eapply wp_mono; [eapply IH; [done|done|done|simpl in Hn; lia|done]|].
      intros r st2 H. by eapply fpost_nodes.
Qed.

(** The end of [CompareFunc]. *)
Lemma wp_compare_end (b : bool) va vb frs st0 st sc B B' s0 s :
  helds [va; vb] (nodes st0) (nodes st) -> stok st0 sc frs B s0 -> stok st sc frs B' s ->
  wp (result ← (if b then JLDefineNumber None d_one else mret 0);
      JLRelease va;; JLRelease vb;; mret result) (fpost st0 sc frs B s (yes_if b)) st.
Proof.
  intros Hh H0 Hk. apply wp_bind. eapply wp_yes_if; [done|]. intros c st1 (Hc & Hr & Hk1).
  eapply wp_release_two; [|done|done|done]. apply (helds_app [va; vb] [c]).
  exists (nodes st). split; [done|by apply helds_one].
Qed.

(** The condition [CompareFunc] computes from two results. *)
Lemma wp_compare_cond op va vb x y frs st sc B s v s' Q :
  name_of head = Some op -> stok st sc frs B s ->
  res_at (nodes st) va x -> res_at (nodes st) vb y ->
  match x, y with
  | Some x, Some y =>
      if rtag x =? rtag y then
        diff ← match x, y with
               | RNum d, RNum d' => mret (d_sub d d')
               | RStr s, RStr s' => mret (d_of_Z (strcmp s s'))
               | _, _ => rinvalid ln head;; mret d_zero
               end;
        mret (yes_if (compare_op op diff))
      else
        let c0 := default 0 (op !! 0%nat) in
        if c0 =? 61 then mret None else if c0 =? 33 then mret yes else rinvalid ln head;; mret None
  | _, _ =>
      let same := match x, y with None, None => true | _, _ => false end in
      let c0 := default 0 (op !! 0%nat) in
      if c0 =? 61 then mret (yes_if same)
      else if c0 =? 33 then mret (yes_if (negb same))
      else rinvalid ln head;; mret None
  end s = Some (v, s') ->
  (forall b st', v = yes_if b -> nodes st' = nodes st -> stok st' sc frs B s' -> Q b st') ->
  wp (differ ← (if (va =? 0) || (vb =? 0) then mret true
                else ta ← get_tag va; tb ← get_tag vb; mret (negb (ta =? tb)));
      if (differ : bool) then
        let c0 := default 0 (op !! 0%nat) in
        if c0 =? 61 then mret (va =? vb)
        else if c0 =? 33 then mret (negb (va =? vb))
        else InvalidArgumentError args;; mret false
      else
        t ← get_tag va;
        diff ← (if t =? JLVALUE_NUMBER then
                  x ← get_number va; y ← get_number vb; mret (d_sub x y)
                else if t =? JLVALUE_STRING then
                  x ← get_str va; y ← get_str vb; mret (d_of_Z (strcmp x y))
                else InvalidArgumentError args;; mret d_zero);
        mret (compare_op op diff)) Q st.
Proof.
  intros Hop Hk Hx Hy He HQ. set (c0 := default 0 (op !! 0%nat)) in *. cbv zeta in He |- *.
  assert (Hdiffer : forall same, (va =? vb) = same ->
    (if c0 =? 61 then mret (yes_if same) else if c0 =? 33 then mret (yes_if (negb same))
     else rinvalid ln head;; mret None) s = Some (v, s') ->
    wp (if c0 =? 61 then mret (va =? vb) else if c0 =? 33 then mret (negb (va =? vb))
        else InvalidArgumentError args;; mret false) Q st).
  { intros same -> He'. destruct (c0 =? 61); [injection He' as <- <-; by apply wp_ret, HQ|].
    destruct (c0 =? 33); [injection He' as <- <-; by apply wp_ret, HQ|].
    rinv He'. injection He' as <- <-. eapply wp_named_error; [done|done|].
    intros st1 Hn1 Hk1. by apply wp_ret, HQ. }
  destruct x as [x|], y as [y|]; cbn [JlRepr.res_at] in Hx, Hy.
  - pose proof Hx as (Hva & w & Hw & Hwt & _). pose proof Hy as (Hvb & w' & Hw' & Hwt' & _).
    zif_false. apply wp_bind, wp_bind. eapply wp_get_tag; [done|].
    apply wp_bind. eapply wp_get_tag; [done|]. apply wp_ret. rewrite Hwt, Hwt'.
    destruct (rtag x =? rtag y) eqn:Et; cbn [negb].
    + apply wp_bind. eapply wp_get_tag; [done|]. rewrite Hwt. apply wp_bind.
      destruct x, y; try (by cbn in Et); cbn -[wp] in He |- *.
      * injection He as <- <-. eapply wp_res_number; [done|]. eapply wp_res_number; [done|].
        by apply wp_ret, wp_ret, HQ.
      * injection He as <- <-. eapply wp_res_str; [done|]. eapply wp_res_str; [done|].
        by apply wp_ret, wp_ret, HQ.
      * rinv He. rinv E. injection E as <- <-. injection He as <- <-.
        eapply wp_named_error; [done|done|]. intros st1 Hn1 Hk1. by apply wp_ret, wp_ret, HQ.
      * rinv He. rinv E. injection E as <- <-. injection He as <- <-.
        eapply wp_named_error; [done|done|]. intros st1 Hn1 Hk1. by apply wp_ret, wp_ret, HQ.
    + apply (Hdiffer false); [|exact He]. apply Z.eqb_neq. intros ->. simplify_eq. zbool. congruence.
  - subst vb. rewrite orb_true_r. apply wp_bind, wp_ret, (Hdiffer false); [|done].
    apply Z.eqb_neq, Hx.
  - subst va. apply wp_bind, wp_ret, (Hdiffer false); [|done].
    apply Z.eqb_neq. destruct Hy. congruence.
  - subst. apply wp_bind, wp_ret, (Hdiffer true); done.
Qed.

Lemma as_string_Some v t : as_string v = Some t -> v = Some (RStr t).
Proof. destruct v as [[]|]; simpl; congruence. Qed.
Lemma as_string_None v : as_string v = None ->
  match v with Some x => rtag x =? JLVALUE_STRING | None => false end = false.
Proof. by destruct v as [[]|]. Qed.

(** The same for a string. *)
Lemma wp_string_or {A} e p (frs : list frame) st sc B s v s' (k : Z -> bool -> M A) Q :
  stok st sc frs B s -> B <= Bmax -> opt_code_at p e -> ev frs e s = Some (v, s') ->
  (forall r st', held r (nodes st) (nodes st') -> stok st' sc frs (B + 1) s' ->
     match as_string v with
     | Some t => res_at (nodes st') r (Some (RStr t)) -> wp (k r true) Q st'
     | None => wp (k r false) Q st'
     end) ->
  wp (r ← eval p; ok ← has_tag JLVALUE_STRING r; k r ok) Q st.
Proof.
  intros Hk HB Hc He HQ. eapply wp_eval; [done..|]. intros r st1 Hh Hr Hk1.
  eapply wp_has_tag; [done|]. specialize (HQ r st1 Hh Hk1).
  destruct (as_string v) as [d|] eqn:E.
  - apply as_string_Some in E as ->. by apply HQ.
  - by rewrite as_string_None.
Qed.

(** The loop of [ConcatFunc], over the heap [st1] in which the result [res] is
    already taken from that of [st0]. *)
Lemma wp_concat_loop frs es' : forall n vp st0 st1 st sc B res acc s0 s1 s v s',
  held res (nodes st0) (nodes st1) -> stok st0 sc frs (B - 1) s0 -> stok st1 sc frs B s1 ->
  nodes st = nodes st1 -> stok st sc frs B s -> B <= Bmax ->
  codes_at vp es' -> (length es' <= n)%nat ->
  rconcat ln ev frs head es' acc s = Some (v, s') ->
  wp (concat_loop eval n args res vp acc)
    (fun r st' => match r with
       | Some t => v = Some (RStr t) /\ nodes st' = nodes st1 /\ stok st' sc frs B s'
       | None => v = None /\ nodes st' = nodes st0 /\ stok st' sc frs (B - 1) s'
       end) st.
Proof.
  induction es' as [|e es' IH]; intros n vp st0 st1 st sc B res acc s0 s1 s v s' Hres H0 H1 Hn Hk HB Hc Hl He.
  - simpl in Hc. subst vp. injection He as <- <-. by destruct n; apply wp_ret.
  - pose proof (codes_hd _ _ _ _ Hc) as Hhd. pose proof Hc as [Hvp _].
    destruct n as [|n]; [simpl in Hl; lia|]. cbn [concat_loop]. zif_false.
    simpl in He. rinv He. eapply wp_string_or; [done..|]. intros r st2 Hh Hk2.
    destruct (as_string a) as [t|] eqn:Ea.
    + apply as_string_Some in Ea as ->. intros Hr. cbn -[wp JLRelease concat_loop].
      eapply wp_res_str; [done|]. eapply wp_release_last; [exact Hh|done|done|].
      intros st3 Hn3 Hk3. eapply wp_next; [done|done|]. intros q' Hq'.
      eapply (IH n q' st0 st1); [done..|by rewrite Hn3|done|done|done|simpl in Hl; lia|done].
    + cbn -[wp JLRelease]. rinv He. injection He as <- <-. eapply wp_named_error; [done|done|].
      intros st3 Hn3 Hk3. rewrite <- Hn3 in Hh. eapply wp_release_last; [exact Hh|done|done|].
      intros st4 Hn4 Hk4. rewrite <- Hn, <- Hn4 in Hres.
      eapply wp_release_last; [exact Hres|done|done|]. intros st5 Hn5 Hk5. by apply wp_ret.
Qed.

(** An optional size: nothing held when it is missing. *)
Lemma wp_size_argument {A} e p default_ frs st sc B s o s' (k : Z * option Z -> M A) Q :
  stok st sc frs B s -> B <= Bmax -> opt_code_at p e -> rsize ln ev frs head e default_ s = Some (o, s') ->
  (forall r st', held r (nodes st) (nodes st') -> stok st' sc frs (B + 1) s' -> wp (k (r, o)) Q st') ->
  wp (size_argument eval args p default_ ≫= k) Q st.
Proof.
  intros Hk HB Hc He HQ. unfold size_argument, rsize in *. rinv He. apply wp_bind.
  eapply wp_eval; [done..|]. intros r st1 Hh Hr Hk1. destruct a as [x|]; cbn in Hr.
  - pose proof Hr as (Hr0 & w & Hw & Hwt & _). zif_false. apply wp_bind. eapply wp_get_tag; [done|].
    rewrite Hwt. destruct x; cbn -[wp] in He |- *.
    1: { rinv He. apply R_lift_inv in E0 as [Hz ->]. injection He as <- ->.
      eapply wp_res_number; [done|]. apply wp_bind. eapply wp_lift; [done|]. apply wp_ret. by apply HQ. }
    all: rinv He; injection He as <- <-; eapply wp_named_error; [done|done|];
      intros st2 Hn2 Hk2; apply wp_ret; apply HQ; [by rewrite Hn2|done].
  - subst r. rewrite Z.eqb_refl. injection He as <- ->. apply wp_ret. by apply HQ.
Qed.

Lemma wp_substr_result str t start len frs st sc B s :
  res_at (nodes st) str (Some (RStr t)) -> stok st sc frs B s ->
  wp (substr_result str start len) (fpost st sc frs B s (rsubstring t start len)) st.
Proof.
  intros Hr Hk. unfold substr_result, rsubstring. eapply wp_res_str; [done|]. cbv zeta.
  destruct ((start <? zlen t) && (0 <? len)); [by eapply wp_string|by apply wp_ret, fpost_nil].
Qed.

(** More output, nothing else. *)
Lemma stok_outs st sc frs B s out : stok st sc frs B s -> stok (add_outs out st) sc frs B (s.1, s.2 ++ out).
Proof.
  intros Hk. eapply (stok_same K W g G ln max st _ sc frs B lv s); [done|done|by eapply pool_ok_rest; [apply Hk|..]|].
  pose proof (sk_ctx _ _ _ _ _ _ _ _ _ _ _ _ Hk) as Hr. unfold rest_of, ctx in *. cbn.
  by injection Hr as <- <- <- <- <-.
Qed.

(** What [print] puts out for one value. *)
Lemma wp_print_result r v out st sc frs B s Q :
  stok st sc frs B s -> (0 < fuel)%nat -> res_at (nodes st) r v -> print_value v = Some out ->
  Q tt (add_outs out st) ->
  wp (str ← JLIsString r; if (str : bool) then s ← get_str r; text s else JLPrint fuel r) Q st.
Proof.
  intros Hk Hf Hr Hp HQ. unfold JLIsString. eapply wp_has_tag; [exact Hr|].
  assert (Hshow : forall (Hv : show_value v = Some out), printable_value fuel v = true -> wp (JLPrint fuel r) Q st).
  { intros Hv Hpv. eapply wp_mono; [eapply (JLPrint_value K W g); [exact Hpv|apply Hk|exact Hr|exact Hv]|].
    by intros [] st' ->. }
  apply Nat.ltb_lt in Hf. destruct v as [[d|t|f|ps b]|]; [by apply Hshow| |by apply Hshow|done|by apply Hshow].
  injection Hp as <-. eapply wp_res_str; [exact Hr|]. done.
Qed.

Lemma wp_print_loop frs es' : forall n vp st sc B s v s',
  stok st sc frs B s -> B <= Bmax -> codes_at vp es' -> (length es' <= n)%nat -> (length es' <= K)%nat ->
  rprint ev frs es' s = Some (v, s') ->
  wp (print_loop fuel eval n vp) (fun _ st' => v = None /\ nodes st' = nodes st /\ stok st' sc frs B s') st.
Proof.
  induction es' as [|e es' IH]; intros n vp st sc B s v s' Hk HB Hc Hn HlK He.
  - simpl in Hc. subst vp. injection He as <- <-. by destruct n; apply wp_ret.
  - pose proof (codes_hd _ _ _ _ Hc) as Hhd. pose proof Hc as [Hvp _].
    destruct n as [|n]; [simpl in Hn; lia|]. cbn [print_loop]. zif_false.
    cbn [rprint] in He. rinv He. eapply wp_eval; [done..|]. intros r st1 Hh Hr Hk1.
    rinv He. apply R_lift_inv in E0 as [Hout ->]. rinv He. injection E0 as <- <-.
    apply wp_rebind, wp_bind. eapply wp_print_result; [exact Hk1|simpl in HlK; lia|exact Hr|exact Hout|].
    eapply (wp_release_last st (add_outs _ st1)); [exact Hh|done|by apply stok_outs|].
    intros st2 Hn2 Hk2. eapply wp_next; [done|done|]. intros q' Hq'.
    eapply wp_mono; [eapply (IH n q' st2); [done|done|done|simpl in Hn; lia|simpl in HlK; lia|exact He]|].
    intros [] st3 (Hv & Hn3 & Hk3). by rewrite Hn3.
Qed.

(** * The functions *)

Variable es : list sexp.
Hypothesis es_at : codes_at (v_next hv) es.
Hypothesis es_len : (length es <= K)%nat.

(** The whole of a function: [f args] does what [r] says. *)
Definition implements (f : M Z) (r : R result) (frs : list frame) : Prop :=
  forall st sc B s v s', stok st sc frs B s -> B + Z.of_nat K + 2 <= Bmax -> r s = Some (v, s') ->
  wp f (fpost st sc frs B s' v) st.

Lemma wp_AddFunc frs :
  implements (AddFunc fuel eval args) (rnumbers ln ev frs d_add head es d_zero) frs.
Proof.
  intros st sc B s v s' Hk HB He. unfold AddFunc. eapply wp_args; [done|].
  apply wp_bind. eapply wp_number_loop; [done|lia|done|lia|done].
Qed.

Lemma wp_MulFunc frs :
  implements (MulFunc fuel eval args) (rnumbers ln ev frs d_mul head es d_one) frs.
Proof.
  intros st sc B s v s' Hk HB He. unfold MulFunc. eapply wp_args; [done|].
  apply wp_bind. eapply wp_number_loop; [done|lia|done|lia|done].
Qed.

Lemma wp_SubFunc frs : implements (SubFunc fuel eval args) (rsub ln ev frs head es) frs.
Proof.
  intros st sc B s v s' Hk HB He. unfold SubFunc, rsub in *. rinv He. eapply wp_args; [done|].
  eapply wp_number_or; [done|lia|by apply codes_hd|done|]. intros r st1 Hh Hk1.
  destruct (as_number a) as [d|] eqn:Ea.
  - apply as_number_Some in Ea as ->. intros Hr _. cbn -[JLRelease wp number_loop].
    eapply wp_res_number; [done|]. eapply wp_release_last; [exact Hh|done|done|]. intros st2 Hn2 Hk2.
    eapply wp_next_hd; [done|done|done|]. intros q' Hq'. apply wp_bind.
    eapply wp_mono; [eapply wp_number_loop; [done|lia|done| |done]|].
    { destruct es; simpl in *; lia. }
    intros r' st' H. eapply wp_mono; [exact H|]. intros ? ? ?. by eapply fpost_nodes.
  - cbn -[JLRelease wp]. rinv He. injection He as <- <-. eapply wp_named_error; [done|done|].
    intros st2 Hn2 Hk2. rewrite <- Hn2 in Hh. eapply wp_release_last; [exact Hh|done|done|].
    intros st3 Hn3 Hk3. by apply wp_ret, fpost_nil.
Qed.

(** [DivFunc] and [ModFunc]: [f] computes from two values what [rf] does from
    their numbers. *)
Lemma wp_two_numbers frs f rf :
  (forall st sc B s va vb x y v s', stok st sc frs B s -> rf x y s = Some (v, s') ->
     res_at (nodes st) va (Some (RNum x)) -> res_at (nodes st) vb (Some (RNum y)) ->
     wp (f va vb) (fpost st sc frs B s' v) st) ->
  implements (two_numbers eval args f) (rtwo ln ev frs head es rf) frs.
Proof.
  intros Hf st sc B s v s' Hk HB He. unfold two_numbers, rtwo in *. rinv He.
  eapply wp_args; [done|].
  eapply wp_number_or; [done|lia|by apply codes_hd|done|]. intros va st1 Hh1 Hk1.
  destruct (as_number a) as [x|] eqn:Ea.
  2: { cbn -[JLRelease wp]. rinv He. injection He as <- <-. apply wp_bind.
    eapply wp_named_error; [done|done|]. intros st2 Hn2 Hk2. rewrite <- Hn2 in Hh1. apply wp_ret.
    eapply wp_release_two; [|done|done|done]. econstructor; [exact Hh1|].
    econstructor; [done|by apply helds_one]. }
  apply as_number_Some in Ea as ->. intros Hva _. cbn -[JLRelease wp]. apply wp_bind.
  eapply wp_next_hd; [done|done|done|]. intros q1 Hq1. rinv He.
  eapply wp_number_or; [done|lia|by apply codes_hd|done|]. intros vb st2 Hh2 Hk2.
  destruct (as_number a) as [y|] eqn:Eb.
  2: { cbn -[JLRelease wp]. rinv He. injection He as <- <-.
    eapply wp_named_error; [done|done|]. intros st3 Hn3 Hk3. rewrite <- Hn3 in Hh2. apply wp_ret.
    eapply wp_release_two; [|done|done|done]. econstructor; [exact Hh1|].
    econstructor; [done|by apply helds_one]. }
  apply as_number_Some in Eb as ->. intros Hvb _. cbn -[JLRelease wp].
  eapply wp_next_hd; [done|done|done|]. intros q2 Hq2.
  destruct (List.tl (List.tl es)) as [|e3 es3]; simpl in Hq2.
  - subst q2. cbn -[JLRelease wp]. apply wp_bind. eapply wp_mono; [eapply Hf; [done|done| |done]|].
    { eapply res_sub; [by eapply held_sub|done]. }
    intros c st3 (Hh3 & Hc & Hk3). apply wp_ret. eapply wp_release_two; [|done|done|done].
    econstructor; [done|]. econstructor; [done|by apply helds_one].
  - destruct Hq2 as [Hq2 _]. zif_true. cbn [negb]. rinv He. injection He as <- <-.
    eapply wp_named_error; [done|done|]. intros st3 Hn3 Hk3. rewrite <- Hn3 in Hh2. apply wp_ret.
    eapply wp_release_two; [|done|done|done]. econstructor; [exact Hh1|].
    econstructor; [done|by apply helds_one].
Qed.

Lemma wp_DivFunc frs : implements (DivFunc eval args) (rdiv ln ev frs head es) frs.
Proof.
  apply wp_two_numbers. intros st sc B s va vb x y v s' Hk He Hx Hy. injection He as <- <-.
  eapply wp_res_number; [done|]. eapply wp_res_number; [done|]. by eapply wp_number.
Qed.

Lemma wp_ModFunc frs : implements (ModFunc eval args) (rmod ln ev frs head es) frs.
Proof.
  apply wp_two_numbers. intros st sc B s va vb x y v s' Hk He Hx Hy.
  rinv He. apply R_lift_inv in E as [Hl ->].
  eapply wp_res_number; [done|]. apply wp_bind. eapply wp_lift; [done|].
  destruct (a =? 0); [injection He as <- <-; by apply wp_ret, fpost_nil|].
  eapply wp_res_number; [done|]. rinv He. apply R_lift_inv in E as [Hl' ->].
  apply wp_bind. eapply wp_lift; [done|]. rinv He. apply R_lift_inv in E as [Hl'' ->].
  apply wp_bind. eapply wp_lift; [done|]. injection He as <- <-. by eapply wp_number.
Qed.

Lemma wp_AndFunc frs : implements (AndFunc fuel eval args) (rand ev frs es) frs.
Proof.
  intros st sc B s v s' Hk HB He. unfold AndFunc. eapply wp_args; [done|].
  eapply wp_and_loop; [done|lia|done|lia|done].
Qed.

Lemma wp_OrFunc frs : implements (OrFunc fuel eval args) (ror ev frs es) frs.
Proof.
  intros st sc B s v s' Hk HB He. unfold OrFunc. eapply wp_args; [done|].
  eapply wp_or_loop; [done|lia|done|lia|done].
Qed.

(** One argument, or one of the two errors. *)
Lemma wp_one_argument frs (k : M Z) rk :
  (forall a, codes_at (v_next hv) [a] -> implements k (rk a) frs) ->
  implements (ok ← one_argument args; if negb ok then mret 0 else k) (rone ln head es rk) frs.
Proof.
  intros Hrk st sc B s v s' Hk HB He. apply wp_bind. unfold one_argument. eapply wp_args; [done|].
  pose proof es_at as Hes. unfold rone in He. destruct es as [|a [|b es']].
  - simpl in Hes. rewrite Hes. cbn -[wp]. rinv He. injection He as <- <-.
    eapply wp_named_error; [done|done|]. intros st1 Hn1 Hk1. by apply wp_ret, wp_ret, fpost_nil.
  - pose proof Hes as [Hq _]. zif_false. eapply wp_next; [done|done|]. intros q' ->.
    apply wp_ret. by eapply Hrk.
  - pose proof Hes as [Hq _]. zif_false. eapply wp_next; [done|done|]. intros q' [Hq' _].
    zif_false. rinv He. injection He as <- <-.
    eapply wp_named_error; [done|done|]. intros st1 Hn1 Hk1. by apply wp_ret, wp_ret, fpost_nil.
Qed.

Lemma wp_NotFunc frs : implements (NotFunc eval args) (rnot ln ev frs head es) frs.
Proof.
  apply wp_one_argument. intros a Ha st sc B s v s' Hk HB He. rinv He. injection He as <- ->.
  eapply wp_args; [done|]. eapply wp_CheckCondition; [done|lia|exact (codes_hd _ _ _ _ Ha)|done|].
  intros st1 Hn1 Hk1. destruct a0; simpl.
  - by apply wp_ret, fpost_nil.
  - eapply wp_number; [done|]. intros r st2 H. by eapply fpost_nodes.
Qed.

Lemma wp_is_tag_func tag frs : implements (is_tag_func eval tag args) (ris_tag ln ev frs tag head es) frs.
Proof.
  apply wp_one_argument. intros a Ha st sc B s v s' Hk HB He. rinv He. injection He as <- ->.
  eapply wp_args; [done|]. eapply wp_eval; [done|lia|exact (codes_hd _ _ _ _ Ha)|done|].
  intros r st1 Hh Hr Hk1. eapply wp_has_tag; [done|]. apply wp_bind. eapply wp_yes_if; [done|].
  intros c st2 (Hh2 & Hc & Hk2).
  eapply (wp_release st st2 _ _ _ _ _ _ r [c]); [|done|done|].
  { econstructor; [done|]. by apply helds_one. }
  intros st3 Hh3 Hr3 Hk3. apply wp_ret. split; [by apply helds_one|].
  split; [apply Hr3; [left|done]|done].
Qed.

Lemma wp_IsNullFunc frs : implements (IsNullFunc eval args) (ris_null ln ev frs head es) frs.
Proof.
  apply wp_one_argument. intros a Ha st sc B s v s' Hk HB He. rinv He. injection He as <- ->.
  eapply wp_args; [done|]. eapply wp_eval; [done|lia|exact (codes_hd _ _ _ _ Ha)|done|].
  intros r st1 Hh Hr Hk1. destruct a0 as [x|]; cbn in Hr.
  - destruct Hr as [Hr _]. zif_false. eapply wp_release_last; [exact Hh|done|done|].
    intros st2 Hn2 Hk2. by apply wp_ret, fpost_nil.
  - subst r. destruct Hh as [[_ Hn]|[? _]]; [|done]. rewrite Z.eqb_refl.
    eapply wp_number; [exact (stok_nodes _ _ _ _ _ _ _ _ Hk Hk1 Hn)|].
    intros r st2 H. by eapply fpost_nodes.
Qed.

Lemma wp_PrintFunc frs : implements (PrintFunc fuel eval args) (rprint ev frs es) frs.
Proof.
  intros st sc B s v s' Hk HB He. unfold PrintFunc. eapply wp_args; [done|]. apply wp_bind.
  eapply wp_mono; [eapply wp_print_loop; [exact Hk|lia|done|lia|done|exact He]|].
  intros [] st' (-> & Hn & Hk'). by apply wp_ret, fpost_nil.
Qed.

Lemma wp_IfFunc frs : implements (IfFunc eval args) (rif ev frs es) frs.
Proof.
  intros st sc B s v s' Hk HB He. unfold IfFunc, rif in *. eapply wp_args; [done|].
  pose proof es_at as Hes. destruct es as [|a rest]; [done|]. rinv He.
  eapply wp_CheckCondition; [done|lia|exact (codes_hd _ _ _ _ Hes)|done|].
  intros st1 Hn1 Hk1. eapply wp_next; [done|done|]. intros q' Hq'.
  assert (Heval : forall q e, opt_code_at q e -> ev frs e s1 = Some (v, s') ->
    wp (eval q) (fpost st sc frs B s' v) st1).
  { intros q e Hq He'. eapply wp_mono; [eapply eval_ok; [done|lia|done|done]|].
    intros r st2 H. by eapply fpost_nodes. }
  destruct a0; [eapply Heval; [by apply codes_hd|done]|].
  destruct rest as [|b rest].
  - simpl in Hq'. rewrite Hq'. cbn -[wp]. injection He as <- <-. by apply wp_ret, fpost_nil.
  - pose proof Hq' as [Hq0 _]. zif_true. eapply wp_next; [done|done|]. intros q2 Hq2.
    eapply Heval; [by apply codes_hd|done].
Qed.

Lemma wp_CompareFunc frs : implements (CompareFunc eval args) (rcompare ln ev frs head es) frs.
Proof.
  intros st sc B s v s' Hk HB He. unfold CompareFunc, rcompare in *. rinv He.
  apply R_lift_inv in E as [Hop ->]. apply wp_bind. eapply wp_head_str; [done|done|].
  apply wp_bind. unfold two_arguments. eapply wp_args; [done|]. pose proof es_at as Hes.
  assert (Hfew : (rfew ln head;; mret None) s = Some (v, s') ->
    wp (TooFewArgumentsError args;; mret false)
      (fun ok st' => wp (if negb ok then mret 0 else CompareFunc eval args) (fpost st sc frs B s' v) st') st).
  { intros He'. rinv He'. injection He' as <- <-. eapply wp_named_error; [done|done|].
    intros st1 Hn1 Hk1. by apply wp_ret, wp_ret, fpost_nil. }
  assert (Hanother : forall (m : M Z), wp (TooFewArgumentsError args;; mret false)
      (fun ok st' => wp (if negb ok then mret 0 else CompareFunc eval args) (fpost st sc frs B s' v) st') st ->
    wp (TooFewArgumentsError args;; mret false)
      (fun ok st' => wp (if negb ok then mret 0 else m) (fpost st sc frs B s' v) st') st).
  { intros m. unfold wp, mbind, M_bind. destruct (TooFewArgumentsError args st) as [[]|]; done. }
  destruct es as [|ea [|eb [|ec es']]].
  - simpl in Hes. rewrite Hes, Z.eqb_refl. by apply Hanother, Hfew.
  - pose proof Hes as [Hq _]. zif_false. eapply wp_next; [done|done|]. intros q' ->.
    rewrite Z.eqb_refl. by apply Hanother, Hfew.
  - clear Hfew Hanother. pose proof Hes as [Hq _]. zif_false. eapply wp_next; [done|done|].
    intros qb Hqb. pose proof Hqb as [Hqb0 _]. zif_false. eapply wp_next; [done|done|]. intros q' ->.
    apply wp_ret. cbn -[wp JLRelease]. eapply wp_args; [done|]. rinv He.
    eapply wp_eval; [done|lia|exact (codes_hd _ _ _ _ Hes)|done|]. intros va st1 Hh1 Hr1 Hk1.
    eapply wp_next; [exact Hes|done|]. intros qb' Hqb'. rinv He.
    eapply wp_eval; [done|lia|exact (codes_hd _ _ _ _ Hqb')|done|]. intros vb st2 Hh2 Hr2 Hk2.
    assert (Hh : helds [va; vb] (nodes st) (nodes st2)).
    { econstructor; [done|]. by apply helds_one. }
    assert (Hr1' : res_at (nodes st2) va a0) by (eapply res_sub; [by eapply held_sub|done]).
    pose proof (wp_compare_cond a va vb a0 a1 frs st2 sc _ _ v s'
      (fun cond st' => wp (result ← (if (cond : bool) then JLDefineNumber None d_one else mret 0);
         JLRelease va;; JLRelease vb;; mret result) (fpost st sc frs B s' v) st')
      Hop Hk2 Hr1' Hr2 He) as Hc.
    apply wp_bind. apply wp_run in Hc as (cond & st3 & Hrun & Hc).
    { apply R_bind_run in Hrun as (differ & st4 & Hd & Hrun). eapply wp_intro; [exact Hd|].
      apply wp_bind. eapply wp_intro; [exact Hrun|exact Hc]. }
    intros b st' -> Hn' Hk'. rewrite <- Hn' in Hh. by eapply wp_compare_end.
  - pose proof Hes as [Hq _]. zif_false. eapply wp_next; [done|done|]. intros qb Hqb.
    pose proof Hqb as [Hqb0 _]. zif_false. eapply wp_next; [done|done|]. intros qc [Hqc _].
    zif_false. rinv He. injection He as <- <-. eapply wp_named_error; [done|done|].
    intros st1 Hn1 Hk1. by apply wp_ret, wp_ret, fpost_nil.
Qed.

Lemma wp_ConcatFunc frs : implements (ConcatFunc fuel eval args) (rconcat ln ev frs head es []) frs.
Proof.
  intros st sc B s v s' Hk HB He. unfold ConcatFunc. apply wp_bind, wp_CreateValue; [apply Hk|].
  intros p st1 Hp Hfresh Hn1 Hr1 Hp1. apply wp_bind.
  eapply wp_update_value; [by rewrite Hn1, lookup_insert_eq|].
  set (st2 := set_nodes _ st1). assert (Hn2 : nodes st2 = <[p := NValue (mk_value (VStr []) 0 1 JLVALUE_STRING)]> (nodes st)).
  { cbn. rewrite Hn1. by rewrite insert_insert_eq. }
  assert (Hh : held p (nodes st) (nodes st2)) by (right; split; [done|by eapply acq_new]).
  assert (Hk2 : stok st2 sc frs (B + 1) s).
  { eapply stok_held; [done|exact Hh| |].
    - eapply pool_ok_update; [done|]. by rewrite Hn1, lookup_insert_eq.
    - change (rest_of st2) with (rest_of st1). rewrite Hr1. apply Hk. }
  eapply wp_args; [done|]. apply wp_bind. eapply wp_mono.
  { eapply (wp_concat_loop frs es fuel (v_next hv) st st2 st2 sc (B + 1) p []);
      [done|by replace (B + 1 - 1) with B by lia|done|done|done|lia|done|lia|done]. }
  intros [t|] st3.
  - intros (-> & Hn3 & Hk3). apply wp_bind.
    eapply wp_update_value; [by rewrite Hn3, Hn2, lookup_insert_eq|]. apply wp_ret.
    set (st4 := set_nodes _ st3). assert (Hn4 : nodes st4 = <[p := NValue (mk_value (VStr t) 0 1 JLVALUE_STRING)]> (nodes st)).
    { cbn. rewrite Hn3, Hn2. by rewrite insert_insert_eq. }
    assert (Hh4 : held p (nodes st) (nodes st4)) by (right; split; [done|by eapply acq_new]).
    split; [done|]. split.
    + split; [done|]. eexists. by rewrite Hn4, lookup_insert_eq.
    + eapply stok_held; [done|exact Hh4| |].
      * eapply pool_ok_update; [apply Hk3|]. by rewrite Hn3, Hn2, lookup_insert_eq.
      * change (rest_of st4) with (rest_of st3). apply Hk3.
  - intros (-> & Hn3 & Hk3). apply wp_ret. replace (B + 1 - 1) with B in Hk3 by lia.
    by apply fpost_nil.
Qed.

(** The end of [SubstrFunc]. *)
Lemma wp_release_three va vb vc c v frs st0 st sc B B' s0 s :
  helds [va; vb; vc; c] (nodes st0) (nodes st) -> res_at (nodes st) c v ->
  stok st0 sc frs B s0 -> stok st sc frs B' s ->
  wp (JLRelease va;; JLRelease vb;; JLRelease vc;; mret c) (fpost st0 sc frs B s v) st.
Proof.
  intros Hh Hr H0 Hk. eapply wp_release; [exact Hh|done|done|]. intros st1 Hh1 Hr1 Hk1.
  eapply wp_release; [exact Hh1|done|done|]. intros st2 Hh2 Hr2 Hk2.
  eapply wp_release; [exact Hh2|done|done|]. intros st3 Hh3 Hr3 Hk3. apply wp_ret.
  split; [by apply helds_one|]. split; [|done].
  apply Hr3; [left|]. apply Hr2; [right; left|]. apply Hr1; [right; right; left|done].
Qed.

Lemma wp_SubstrFunc frs : implements (SubstrFunc eval args) (rsubstr ln ev frs head es) frs.
Proof.
  intros st sc B s v s' Hk HB He. unfold SubstrFunc, rsubstr in *. rinv He.
  eapply wp_args; [done|].
  eapply wp_string_or; [done|lia|by apply codes_hd|done|]. intros str st1 Hh1 Hk1.
  destruct (as_string a) as [t|] eqn:Ea.
  2: { cbn -[JLRelease wp]. rinv He. injection He as <- <-. apply wp_bind.
    eapply wp_named_error; [done|done|]. intros st2 Hn2 Hk2. rewrite <- Hn2 in Hh1. apply wp_ret.
    eapply wp_release_three; [|done|done|done]. by repeat (econstructor; [done|]); constructor. }
  apply as_string_Some in Ea as ->. intros Hstr. cbn -[JLRelease wp size_argument]. apply wp_bind.
  eapply wp_next_hd; [done|done|done|]. intros q1 Hq1. rinv He.
  eapply wp_size_argument; [done|lia|by apply codes_hd|done|]. intros sval st2 Hh2 Hk2.
  cbn -[JLRelease wp size_argument substr_result].
  destruct a as [start|].
  2: { injection He as <- <-. apply wp_ret. eapply wp_release_three; [|done|done|done].
    by repeat (econstructor; [done|]); constructor. }
  assert (Hstr2 : res_at (nodes st2) str (Some (RStr t))) by (eapply res_sub; [by eapply held_sub|done]).
  destruct (List.tl es) as [|e1 rest'] eqn:Etl.
  - simpl in Hq1. subst q1. rewrite Z.eqb_refl. injection He as <- <-. apply wp_bind.
    eapply wp_mono; [by eapply wp_substr_result|]. intros c st3 (Hh3 & Hc & Hk3). apply wp_ret.
    eapply wp_release_three; [|done|done|done]. by repeat (econstructor; [done|]); constructor.
  - pose proof Hq1 as [Hq10 _]. zif_false. eapply wp_next; [done|done|]. intros q2 Hq2.
    assert (Hlast : forall rest, codes_at q2 rest' -> rest = List.tl rest' ->
      forall (k : Z -> M (Z * Z * Z)) Q, (forall d, codes_at d rest -> wp (k d) Q st2) ->
      wp ((if q2 =? 0 then mret 0 else get_next q2) ≫= k) Q st2).
    { intros rest Hq2' -> k Q HkQ. destruct rest' as [|e2 r2].
      - simpl in Hq2'. subst q2. by apply HkQ.
      - pose proof Hq2' as [Hq20 _]. zif_false. eapply wp_next; [done|done|]. done. }
    eapply (Hlast _ Hq2 eq_refl). intros d Hd.
    destruct (List.tl rest') as [|e3 r3] eqn:E3; simpl in Hd.
    + subst d. cbn [negb Z.eqb]. rinv He. injection He as <- <-.
      eapply wp_size_argument; [done|lia|by apply codes_hd|done|]. intros lval st3 Hh3 Hk3.
      cbn -[JLRelease wp substr_result]. destruct a as [len|].
      * apply wp_bind. eapply wp_mono; [eapply wp_substr_result; [|done]|].
        { eapply res_sub; [by eapply held_sub|done]. }
        intros c st4 (Hh4 & Hc & Hk4). apply wp_ret.
        eapply wp_release_three; [|done|done|done]. by repeat (econstructor; [done|]); constructor.
      * apply wp_ret. eapply wp_release_three; [|done|done|done].
        by repeat (econstructor; [done|]); constructor.
    + destruct Hd as [Hd0 _]. zif_true. cbn [negb]. rinv He. injection He as <- <-.
      eapply wp_named_error; [done|done|]. intros st3 Hn3 Hk3. rewrite <- Hn3 in Hh2. apply wp_ret.
      eapply wp_release_three; [|done|done|done]. by repeat (econstructor; [done|]); constructor.
Qed.

End spec.
