(* ===== verification/JlCallSpec.v ===== *)
(** [begin], calls of lambdas and [JLEvaluate] itself: the JL interpreter
    refines the reference interpreter. *)
From Stdlib Require Import SpecFloat.
From S2P Require Import Prelude CText JlHeap JlEval JlLogic JlScopes JlTree JlRef JlRepr JlFuncSpec.

Section spec.
Variable K : nat.
Variable W : heap.
Variable g : Z.
Variable G : frame.
Variables (ln max lv : Z).
Variable fuel : nat.
Variable eval : Z -> M Z.
Variable ev : list frame -> option sexp -> R result.
Variable Bmax : Z.

Abbreviation stok st sc frs B s := (stok K W g G ln max st sc frs B lv s).
Abbreviation res_at := (res_at K W g).
Abbreviation code_at := (code_at K W).
Abbreviation codes_at := (codes_at K W).
Abbreviation opt_code_at := (opt_code_at K W).
Abbreviation ctx := (ctx ln max).
Abbreviation fpost := (fpost K W g G ln max lv).

Hypothesis fuel_K : (K <= fuel)%nat.
Hypothesis Bmax_small : Bmax < 4294967294.
Hypothesis eval_ok : forall st sc frs B e p s v s',
  stok st sc frs B s -> B <= Bmax -> opt_code_at p e -> ev frs e s = Some (v, s') ->
  wp (eval p) (fpost st sc frs B s' v) st.
Hypothesis ev_nil : forall frs s v s', ev frs None s = Some (v, s') -> v = None.

(** * Sequences *)

Lemma wp_code_loop frs es : forall n q st sc B s v s' last result,
  es <> [] -> stok st sc frs B s -> B <= Bmax -> codes_at q es -> (length es <= n)%nat ->
  rcode ev frs es last s = Some (v, s') ->
  wp (code_loop eval n q result) (fpost st sc frs B s' v) st.
Proof.
  induction es as [|e es IH]; intros n q st sc B s v s' last result Hne Hk HB Hc Hn He; [done|].
  pose proof (codes_hd _ _ _ _ Hc) as Hhd. pose proof Hc as [Hq _].
  destruct n as [|n]; [simpl in Hn; lia|]. cbn [code_loop]. zif_false. simpl in He.
  apply R_bind_inv in He as (w & s1 & E & He).
  eapply wp_eval; [exact eval_ok|done..|]. intros r st1 Hh Hr Hk1.
  eapply wp_next; [done|done|]. intros q' Hq'. destruct es as [|e2 es].
  - simpl in Hq'. subst q'. rewrite Z.eqb_refl. apply wp_bind, wp_ret.
    injection He as <- <-. by destruct n; apply wp_ret.
  - pose proof Hq' as [Hq0 _]. zif_false. eapply wp_release_last; [exact Hh|done|done|].
    intros st2 Hn2 Hk2. eapply wp_mono; [eapply IH; [done|done|done|done|simpl in *; lia|done]|].
    intros ? ? ?. by eapply fpost_nodes.
Qed.

(** The loop of [BeginFunc] releases the last result before the next one. *)
Lemma wp_begin_loop frs es : forall n q st0 st sc B B' s0 s v s' last result,
  held result (nodes st0) (nodes st) -> res_at (nodes st) result last ->
  stok st0 sc frs B s0 -> stok st sc frs (B + 1) s -> B <= Bmax -> codes_at q es -> (length es <= n)%nat ->
  rcode ev frs es last s = Some (v, s') -> B' = B ->
  wp (begin_loop eval n q result) (fpost st0 sc frs B' s' v) st.
Proof.
  induction es as [|e es IH];
    intros n q st0 st sc B B' s0 s v s' last result Hh Hr H0 Hk HB Hc Hn He ->.
  - simpl in Hc. subst q. injection He as <- <-. by destruct n; apply wp_ret.
  - pose proof (codes_hd _ _ _ _ Hc) as Hhd. pose proof Hc as [Hq _].
    destruct n as [|n]; [simpl in Hn; lia|]. cbn [begin_loop]. zif_false. simpl in He.
    apply R_bind_inv in He as (w & s1 & E & He).
    eapply wp_release_last; [exact Hh|done|done|]. intros st1 Hn1 Hk1.
    eapply wp_eval; [exact eval_ok|done..|]. intros r st2 Hh2 Hr2 Hk2.
    eapply wp_next; [done|done|]. intros q' Hq'. rewrite Hn1 in Hh2.
    by eapply IH; [exact Hh2|exact Hr2|done|done|done|done|simpl in Hn; lia|done|].
Qed.

(** * Entering and leaving a scope *)

(** The heap while a scope [s] with the bindings [t] is open on top of that of
    [st0]: the bindings hold references to values [V] has besides. *)
Record open_scope (st0 : JLContext) (s next : Z) (t : btree) (fr : frame) (V : heap) (st : JLContext)
  : Prop := {
  os_nodes : nodes st = scope_map s next 1 t ∪ V;
  os_scope : scope_ok s t;
  os_disjoint : scope_map s next 1 t ##ₘ V;
  os_helds : helds (tvals t) (nodes st0) V;
  os_vals : Forall (fun a => exists v, res_at V a v) (tvals t);
  os_frame : frame_at K W g V t fr;
  os_global : s <> g;
  os_pool : pool_ok st }.

Lemma own_lambda_false st a v s : res_at (nodes st) a v -> sub W (nodes st) -> s <> g ->
  own_lambda st a s = Some false.
Proof.
  intros Hr Hw Hs. unfold own_lambda. destruct v as [rv|]; cbn in Hr; [|by subst].
  destruct Hr as (Ha & v & Hv & Ht & Hu). zif_false. unfold peek. rewrite Hv, Ht.
  destruct rv; try done. cbn -[Z.eqb]. rewrite Z.eqb_refl. destruct (v_count v =? 1); [|done].
  cbn [andb]. destruct Hu as (l & sv & pv & pp & -> & Hl & _ & Hsv & _). cbn.
  destruct (sub_value _ _ _ _ Hw Hl) as (sv' & -> & -> & _ & _). rewrite Hsv. cbn.
  f_equal. by apply Z.eqb_neq.
Qed.

Lemma os_sub st0 s next t fr V st : open_scope st0 s next t fr V st ->
  sub (nodes st0) V /\ sub V (nodes st) /\ sub (nodes st0) (nodes st).
Proof.
  intros [Hn Hs Hd Hh _ _ _ _]. pose proof (helds_sub _ _ _ Hh) as H1.
  assert (H2 : sub V (nodes st)) by (rewrite Hn; by apply sub_union_r).
  split; [done|]. split; [done|by eapply sub_trans].
Qed.

(** Leaving it with a result. *)
Lemma wp_leave (sc : Z) (frs frs' : list frame) st0 s next t fr V st1 st B B0 r v s0 s1 Q :
  open_scope st0 s next t fr V st1 -> stok st0 sc frs B0 s0 ->
  held r (nodes st1) (nodes st) -> res_at (nodes st) r v -> stok st s frs' B s1 ->
  (forall st', held r (nodes st0) (nodes st') -> res_at (nodes st') r v -> pool_ok st' ->
     rest_of st' = ctx next lv s1 -> Q tt st') ->
  wp JLLeaveScope Q st.
Proof.
  intros Hos H0 Hh Hr Hk HQ. pose proof (os_sub _ _ _ _ _ _ _ Hos) as (Hs1 & _ & _).
  destruct Hos as [Hn Hs Hd Hhs Hv _ Hg Hp].
  rewrite Hn in Hh. apply held_split in Hh as (V' & Hn' & Hh & HrS); [|apply scope_map_structure].
  assert (Hd' : scope_map s next 1 t ##ₘ V') by by eapply held_disjoint.
  pose proof (helds_snoc _ _ _ _ _ Hhs Hh) as Hall.
  inversion Hall as [|? ? ? V0 ? Hr0 Hts]; subst.
  assert (Hsub : sub V (nodes st)).
  { rewrite Hn'. eapply sub_trans; [by eapply held_sub|]. by apply sub_union_r. }
  eapply (wp_JLLeaveScope s next t V0 V'); [apply Hk| |done|done|done|exact Hts| |].
  - destruct Hk as [_ _ _ _ Hc _]. unfold rest_of, JlRepr.ctx in Hc. congruence.
  - intros st' Hst'. apply Forall_forall. intros a Ha.
    destruct (proj1 (Forall_forall _ _) Hv a Ha) as (w & Hw).
    eapply own_lambda_false; [|rewrite Hst'; apply Hk|done]. rewrite Hst'. by eapply res_sub.
  - intros st' Hst' Hrest Hp'. apply HQ.
    + by rewrite Hst'.
    + rewrite Hst'. eapply res_back; [| |exact Hr].
      * rewrite Hn'. eapply sub_trans; [by eapply helds_sub|]. by apply sub_union_r.
      * intros Hne. destruct Hr0 as [[? _]|[_ Ha]]; [done|]. by eapply acq_value.
    + done.
    + destruct Hk as [_ _ _ _ Hc _]. rewrite Hrest.
      unfold rest_of, JlRepr.ctx in Hc |- *. injection Hc as _ Hl Hv1 Hm <-. cbn. by rewrite Hl, Hv1, Hm.
Qed.

Variables (args : Z) (head : sexp) (hv : JLValue) (es : list sexp).
Hypothesis args_at : W !! args = Some (NValue hv).
Hypothesis es_at : codes_at (v_next hv) es.
Hypothesis es_len : (length es <= K)%nat.

Lemma frame_at_leaf V : frame_at K W g V BLeaf ∅.
Proof. intros x. apply lookup_empty. Qed.

(** A fresh scope over that of the context. *)
Lemma wp_enter {A} sc frs st B s (k : unit -> M A) Q :
  stok st sc frs B s ->
  (forall sN st', open_scope st sN sc BLeaf ∅ (nodes st) st' -> stok st' sN (∅ :: frs) B s ->
     wp (k tt) Q st') ->
  wp (JLEnterScope ≫= k) Q st.
Proof.
  intros Hk HQ. apply wp_bind. apply wp_JLEnterScope; [apply Hk|].
  intros sN st' Hs Hfresh Hsc Hn Hr Hp.
  assert (Hsc0 : jl_scope st = sc).
  { destruct Hk as [_ _ _ _ Hc _]. unfold rest_of, JlRepr.ctx in Hc. congruence. }
  rewrite Hsc0 in Hn. destruct Hk as [Hp0 Hw Hc [ss He] Hr0 HB].
  assert (Hd : scope_map sN sc 1 BLeaf ##ₘ nodes st) by (apply scope_map_disjoint; split; [done|apply map_disjoint_empty_l]).
  assert (Hn' : nodes st' = scope_map sN sc 1 BLeaf ∪ nodes st).
  { rewrite Hn. unfold scope_map. rewrite <- insert_union_l. cbn. by rewrite (left_id_L ∅ (∪)). }
  assert (Hsg : sN <> g).
  { intros ->. pose proof (env_base _ _ _ _ _ _ _ _ He) as Hb. inversion Hb; congruence. }
  apply (HQ sN).
  - split; auto; [split; [done|split; [apply lookup_empty|done]]|constructor|apply frame_at_leaf].
  - assert (Hsub : sub (nodes st) (nodes st')) by (rewrite Hn; by apply sub_fresh).
    split; auto.
    + by eapply sub_trans.
    + rewrite Hn'. apply counts_union; [apply scope_map_structure|done].
    + exists (sN :: ss). eapply (env_local _ _ _ _ _ sN sc 1 BLeaf); [done|by rewrite Hn, lookup_insert_eq| | | |].
      * split; [done|]. apply map_empty_subseteq.
      * apply frame_at_leaf.
      * by eapply env_sub.
      * intros Hin. apply env_nodes in He as [_ He]. destruct (He _ Hin) as [n Hn1]. congruence.
    + rewrite Hr. unfold rest_of, JlRepr.ctx in Hr0 |- *. injection Hr0 as _ Hl Hv1 Hm <-. cbn.
      by rewrite Hl, Hv1, Hm.
Qed.

Lemma wp_BeginFunc frs :
  implements K W g G ln max lv Bmax (BeginFunc fuel eval args) (rcode ev (∅ :: frs) es None) frs.
Proof.
  intros st sc B s v s' Hk HB He. unfold BeginFunc. eapply wp_enter; [done|].
  intros sN st1 Hos Hk1. eapply wp_args; [done|done|]. apply wp_bind.
  eapply wp_mono.
  { eapply (wp_begin_loop (∅ :: frs) es fuel _ st1 st1 sN B B s s v s' None 0); [by left|done|exact Hk1| |lia|exact es_at|lia|exact He|reflexivity].
    destruct Hk1 as [H1 H2 H3 H4 H5 H6]. split; auto; [|lia]. intros p w Hp. specialize (H3 _ _ Hp). lia. }
  intros r st2 (Hh & Hr & Hk2). apply wp_bind. eapply wp_leave; [done|done|done|done|done|].
  intros st3 Hh3 Hr3 Hp3 Hc3. apply wp_ret. split; [done|]. split; [done|].
  by eapply stok_held.
Qed.

(** * Calls *)

(** With the scope open, evaluation goes on in any scope of the heap below. *)
Lemma os_stok st0 sN next t fr V st st' sc frs B s0 s :
  open_scope st0 sN next t fr V st -> stok st0 sc frs B s0 -> nodes st' = nodes st -> pool_ok st' ->
  rest_of st' = ctx sc lv s -> stok st' sc frs (B + zlen (tvals t)) s.
Proof.
  intros Hos [Hp Hw Hc [ss He] Hr HB] Hn Hp' Hr'.
  pose proof (os_sub _ _ _ _ _ _ _ Hos) as (_ & _ & Hsub). split; rewrite ?Hn; auto.
  - by eapply sub_trans.
  - rewrite (os_nodes _ _ _ _ _ _ _ Hos). apply counts_union; [apply scope_map_structure|].
    eapply counts_helds; [done|done|]. apply Hos.
  - exists ss. by eapply env_sub.
  - pose proof (zlen_nonneg (tvals t)). lia.
Qed.

Lemma os_stok_inner st0 sN t fr V st sc frs B s0 s :
  open_scope st0 sN g t fr V st -> stok st0 sc frs B s0 -> rest_of st = ctx sN lv s ->
  stok st sN [fr] (B + zlen (tvals t)) s.
Proof.
  intros Hos [Hp Hw Hc [ss He] Hr HB] Hr'.
  pose proof (os_sub _ _ _ _ _ _ _ Hos) as (_ & HVs & Hsub).
  pose proof Hos as [Hn (Hs & Hst & Ht) Hd Hh Hv Hf Hg Hpo]. split; auto.
  - by eapply sub_trans.
  - rewrite Hn. apply counts_union; [apply scope_map_structure|]. by eapply counts_helds.
  - exists [sN; g]. eapply (env_local _ _ _ _ _ sN g 1 t); [done| | | | |].
    + by rewrite Hn; unfold scope_map; rewrite <- insert_union_l, lookup_insert_eq.
    + split; [done|]. rewrite Hn. etransitivity; [|apply map_union_subseteq_l]. by apply insert_subseteq.
    + eapply frame_sub; [exact HVs|done].
    + eapply env_sub; [exact Hsub|]. by eapply env_base.
    + by intros ->%list_elem_of_singleton.
  - pose proof (zlen_nonneg (tvals t)). lia.
Qed.

(** One parameter: the argument's result is bound and given back. *)
Lemma wp_bind_one {A} st0 sN next t fr V st1 st r v x B s (k : M A) Q :
  open_scope st0 sN next t fr V st1 -> held r (nodes st1) (nodes st) -> res_at (nodes st) r v ->
  pool_ok st -> counts_ok B (nodes st) -> B < 4294967295 -> fr !! x = None ->
  rest_of st = ctx sN lv s ->
  (forall t' V' st', open_scope st0 sN next t' (<[x := v]> fr) V' st' ->
     zlen (tvals t') = 1 + zlen (tvals t) -> rest_of st' = ctx sN lv s -> wp k Q st') ->
  wp (JLDefineValue (Some x) r;; JLRelease r;; k) Q st.
Proof.
  intros Hos Hh Hr Hp Hc HB Hx Hrest HQ. pose proof Hos as [Hn Hs Hd Hhs Hv Hf Hg Hpo].
  assert (Htf : tfind t x = None).
  { specialize (Hf x). destruct (tfind t x); [|done]. destruct Hf as (? & ? & _). congruence. }
  rewrite Hn in Hh. apply held_split in Hh as (V2 & Hn2 & Hh & HrS); [|apply scope_map_structure].
  assert (Hd2 : scope_map sN next 1 t ##ₘ V2) by by eapply held_disjoint.
  assert (Hsub2 : sub V2 (nodes st)) by (rewrite Hn2; by apply sub_union_r).
  assert (Hr2 : res_at V2 r v).
  { eapply res_back; [exact Hsub2| |exact Hr]. intros Hne.
    destruct Hh as [[? _]|[_ Ha]]; [done|]. by eapply acq_value. }
  apply wp_bind. eapply (wp_JLDefineValue_new sN next 1 t V2 x r);
    [done| |done|done|done|done| |].
  { unfold rest_of, JlRepr.ctx in Hrest. congruence. }
  { intros Hne. destruct Hh as [[? _]|[_ Ha]]; [done|]. destruct (acq_value _ _ _ Ha) as [w Hw].
    exists w. split; [done|]. assert (Hw' : nodes st !! r = Some (NValue w)).
    { rewrite Hn2, lookup_union_r; [done|]. by eapply map_disjoint_Some_r. }
    specialize (Hc _ _ Hw'). lia. }
  intros q V3 st3 Hs3 Hn3 Hd3 Hh3 Hr3 Hp3. apply wp_bind.
  destruct (held_disjoint_rev _ _ _ _ Hh3 Hd3) as [Hd3' HS3].
  eapply (wp_JLRelease r (scope_map sN next 1 (tinsert t q x r) ∪ V2)); [done| |].
  { rewrite Hn3. destruct Hh3 as [[-> ->]|[Hne Ha]]; [by left|]. right. split; [done|].
    apply acq_under; auto. }
  intros st4 Hn4 Hr4 Hp4. pose proof (tvals_insert t q x r Htf) as Hperm.
  eapply (HQ (tinsert t q x r) V2); [|by unfold zlen; rewrite Hperm; simpl; lia|congruence].
  split; auto.
  - eapply helds_perm; [symmetry; exact Hperm|]. by eapply helds_snoc.
  - rewrite Hperm. constructor; [eauto|]. apply Forall_forall. intros a Ha.
    destruct (proj1 (Forall_forall _ _) Hv a Ha) as (w & Hw). exists w. eapply res_sub; [by eapply held_sub|done].
  - apply frame_insert; [|done]. eapply frame_sub; [by eapply held_sub|done].
Qed.

Lemma wp_bind_loop ps : forall n es' st0 old frs B sN next t fr V st bp ap s0 s ofr s',
  open_scope st0 sN next t fr V st -> stok st0 old frs B s0 -> rest_of st = ctx sN lv s ->
  codes_at bp (map SVar ps) -> codes_at ap es' -> (length ps <= n)%nat ->
  B + zlen (tvals t) + zlen ps <= Bmax ->
  rbind ln ev frs ps es' fr s = Some (ofr, s') ->
  wp (bind_loop fuel eval n old sN bp ap)
    (fun ok st' => exists t' fr' V', open_scope st0 sN next t' fr' V' st' /\
       rest_of st' = ctx sN lv s' /\ zlen (tvals t') <= zlen (tvals t) + zlen ps /\
       ((ok = true /\ ofr = Some fr') \/ (ok = false /\ ofr = None))) st.
Proof.
  induction ps as [|x ps IH]; intros n es' st0 old frs B sN next t fr V st bp ap s0 s ofr s'
    Hos H0 Hrest Hbp Hap Hn HB He.
  - simpl in Hbp. subst bp. injection He as <- <-. assert (E : forall n, bind_loop fuel eval n old sN 0 ap = mret true) by by intros [].
    rewrite E. apply wp_ret. exists t, fr, V. rewrite zlen_nil. split; [done|]. split; [done|]. split; [lia|by left].
  - pose proof Hbp as [Hbp0 _]. destruct n as [|n]; [simpl in Hn; lia|]. cbn [bind_loop]. zif_false.
    rewrite zlen_cons in *. pose proof (zlen_nonneg ps). destruct es' as [|a es'].
    { simpl in Hap. subst ap. rewrite Z.eqb_refl. simpl in He. apply R_bind_inv in He as ([] & s1 & E & He).
      injection E as <-. injection He as <- <-. unfold Error.
      apply wp_bind, wp_bind, wp_modify, wp_bind, wp_gets, wp_modify, wp_ret.
      exists t, fr, V. split; [|split; [|split; [lia|by right]]].
      - destruct Hos as [? ? ? ? ? ? ? ?]. split; auto. by eapply pool_ok_rest.
      - unfold rest_of, JlRepr.ctx in Hrest |- *. injection Hrest as Hsc Hl Hv1 Hm <-. cbn.
        by rewrite Hsc, Hl, Hv1, Hm. }
    pose proof Hap as [Hap0 _]. zif_false.
    assert (Hkold : forall st1, nodes st1 = nodes st -> pool_ok st1 -> rest_of st1 = ctx old lv s ->
      stok st1 old frs (B + zlen (tvals t)) s) by (intros; by eapply os_stok).
    destruct (codes_cons _ _ _ _ _ Hbp) as (bv & _ & Hbv & Hbc & Hbn).
    destruct (codes_cons _ _ _ _ _ Hap) as (av & _ & Hav & _ & Han).
    pose proof (os_sub _ _ _ _ _ _ _ Hos) as (_ & _ & Hsub).
    assert (HW : sub W (nodes st)) by (eapply sub_trans; [apply H0|done]).
    destruct (sub_value _ _ _ _ HW Hbv) as (bv' & Hbv' & Eb & Enb & Etb).
    destruct (sub_value _ _ _ _ HW Hav) as (av' & Hav' & _ & Ena & _).
    destruct Hbc as (bv2 & Hbv2 & Ht2 & Hu2). rewrite Hbv in Hbv2. injection Hbv2 as <-.
    apply wp_bind. eapply wp_get_tag; [done|]. rewrite Etb, Ht2. cbn [negb Z.eqb Pos.eqb JLVALUE_VARIABLE].
    apply wp_bind, wp_modify. set (st1 := set_jl_scope old st).
    assert (Hr1 : rest_of st1 = ctx old lv s).
    { unfold rest_of, JlRepr.ctx in Hrest |- *. injection Hrest as _ Hl Hv1 Hm <-. cbn. by rewrite Hl, Hv1, Hm. }
    assert (Hp1 : pool_ok st1) by (eapply pool_ok_rest; [apply Hos|done..]).
    specialize (Hkold st1 eq_refl Hp1 Hr1).
    apply wp_bind. eapply wp_get_next; [exact Hbv'|]. apply wp_bind. eapply wp_get_next; [exact Hav'|].
    rewrite Enb, Ena. simpl in He.
    assert (Hone : (v_next bv =? 0) && negb (v_next av =? 0) = false /\
      (v ← ev frs (Some a);
       match fr !! x with Some _ => rundef | None => rbind ln ev frs ps es' (<[x := v]> fr) end) s
        = Some (ofr, s')).
    { destruct ps as [|y ps].
      - simpl in Hbn. rewrite Hbn. destruct es' as [|b es']; [|done]. simpl in Han. by rewrite Han.
      - pose proof Hbn as [Hbn0 _]. split; [|done]. apply andb_false_iff. left. by apply Z.eqb_neq. }
    destruct Hone as [-> He']. clear He. apply R_bind_inv in He' as (v & s1 & E & He).
    destruct (fr !! x) eqn:Ex; [done|].
    apply wp_bind, wp_bind. eapply wp_mono; [eapply eval_ok; [exact Hkold|lia|exact (codes_hd _ _ _ _ Hap)|exact E]|].
    intros r st2 (Hh & Hr & Hk2). apply wp_bind.
    destruct (world_value _ _ _ _ _ _ _ _ _ _ _ _ _ _ Hk2 Hav) as (av3 & Hav3 & _ & Ena3 & _).
    eapply wp_get_next; [exact Hav3|]. apply wp_ret. rewrite Ena3.
    apply wp_bind, wp_modify. set (st3 := set_jl_scope sN st2).
    destruct (world_value _ _ _ _ _ _ _ _ _ _ _ _ _ _ Hk2 Hbv) as (bv3 & Hbv3 & Eb3 & Enb3 & _).
    apply wp_bind. eapply wp_get_str; [exact Hbv3|by rewrite Eb3|].
    eapply (wp_bind_one st0 sN next t fr V st st3 r v x (B + zlen (tvals t) + 1) s1);
      [done|exact Hh|exact Hr| |apply Hk2|lia|done| |].
    { eapply pool_ok_rest; [apply Hk2|done..]. }
    { pose proof (sk_ctx _ _ _ _ _ _ _ _ _ _ _ _ Hk2) as Hc2. unfold rest_of, JlRepr.ctx in Hc2 |- *.
      injection Hc2 as _ Hl Hv1 Hm <-. cbn. by rewrite Hl, Hv1, Hm. }
    intros t' V' st4 Hos4 Hlen Hr4. pose proof (os_sub _ _ _ _ _ _ _ Hos4) as (_ & _ & Hsub4).
    assert (HW4 : sub W (nodes st4)) by (eapply sub_trans; [apply H0|done]).
    destruct (sub_value _ _ _ _ HW4 Hbv) as (bv5 & Hbv5 & _ & Enb5 & _).
    apply wp_bind. eapply wp_get_next; [exact Hbv5|]. rewrite Enb5.
    eapply wp_mono; [eapply (IH n es'); [exact Hos4|done|exact Hr4|done|done|simpl in Hn; lia|lia|exact He]|].
    intros ok st' (t2 & fr2 & V2 & Ho & Hr' & Hl & Hcase). exists t2, fr2, V2.
    split; [done|]. split; [done|]. split; [lia|done].
Qed.

Lemma os_below st0 st0' s next t fr V st : nodes st0' = nodes st0 ->
  open_scope st0 s next t fr V st -> open_scope st0' s next t fr V st.
Proof. intros Hn [? ? ? ? ? ? ? ?]. split; auto. by rewrite Hn. Qed.

Lemma stok_scope st sc frs B s sc' frs' :
  stok st sc frs B s -> (exists ss, env_at K W g G (nodes st) sc' frs' ss) ->
  stok (set_jl_scope sc' st) sc' frs' B s.
Proof.
  intros [Hp Hw Hc He Hr HB] He'. split; auto; [by eapply pool_ok_rest|].
  unfold rest_of, JlRepr.ctx in Hr |- *. injection Hr as _ Hl Hv1 Hm <-. cbn. by rewrite Hl, Hv1, Hm.
Qed.

(** The body runs in the scope of the bindings, over the global one. *)
Lemma wp_body st0 sN t fr V st sc frs B s0 s body q v s' :
  open_scope st0 sN g t fr V st -> stok st0 sc frs B s0 -> rest_of st = ctx sN lv s ->
  B + zlen (tvals t) <= Bmax -> codes_at q body -> (length body <= K)%nat ->
  rcode ev [fr] body None s = Some (v, s') ->
  wp (code_loop eval fuel q 0) (fpost st sN [fr] (B + zlen (tvals t)) s' v) st.
Proof.
  intros Hos H0 Hrest HB Hq Hlen He. pose proof (os_stok_inner _ _ _ _ _ _ _ _ _ _ _ Hos H0 Hrest) as Hk.
  destruct body as [|e body].
  - simpl in Hq. subst q. injection He as <- <-.
    assert (E : code_loop eval fuel 0 0 = mret 0) by by destruct fuel.
    rewrite E. by apply wp_ret, fpost_nil.
  - eapply (wp_code_loop _ (e :: body)); [done|exact Hk|done|done|lia|exact He].
Qed.

Lemma wp_lambda_parts {A} ns lam params body st (k : _ -> M A) Q :
  pool_ok st -> sub W (nodes st) -> nodes st = ns -> res_at ns lam (Some (RFun params body)) ->
  (forall pp q, codes_at pp (map SVar params) -> codes_at q body ->
     (length params <= K)%nat -> (length body <= K)%nat -> wp (k (Some (g, pp, q))) Q st) ->
  wp (lambda_parts lam ≫= k) Q st.
Proof.
  intros Hp HW <- (Hl0 & w & Hw & Ht & l & sv & pv & pp & Hu & Hl & Hts & Hus & Hns & Hpv & Htp & Hup & Hlp & Hlb & Hcp & Hcb) HQ.
  destruct (sub_value _ _ _ _ HW Hl) as (sv' & Hsv' & Es & Ens & Ets).
  destruct (sub_value _ _ _ _ HW Hpv) as (pv' & Hpv' & Ep & Enp & Etp).
  apply wp_bind. unfold lambda_parts. apply wp_bind. eapply wp_get_lst; [done|done|].
  assert (Hl1 : l <> 0) by by eapply pool_ok_pos. zif_false.
  apply wp_bind. eapply wp_get_value; [done|]. rewrite Ets, Hts, Ens. cbn [negb Z.eqb Pos.eqb JLVALUE_SCOPE orb].
  zif_false. apply wp_bind. eapply wp_get_value; [done|]. rewrite Etp, Htp. cbn [negb Z.eqb Pos.eqb JLVALUE_LIST].
  apply wp_bind. eapply wp_lift; [by rewrite Ep, Hup|]. apply wp_bind. eapply wp_lift; [by rewrite Es, Hus|].
  apply wp_ret. rewrite Enp. by apply HQ.
Qed.

Lemma wp_EvalLambda frs lam params body st sc B s v s' :
  stok st sc frs B s -> B + Z.of_nat K <= Bmax ->
  res_at (nodes st) lam (Some (RFun params body)) ->
  rcall ln ev frs params body es s = Some (v, s') ->
  wp (EvalLambda fuel eval lam args) (fpost st sc frs B s' v) st.
Proof.
  intros Hk HB Hlam He. unfold EvalLambda. rinv He.
  eapply wp_lambda_parts; [apply Hk|apply Hk|done|exact Hlam|]. intros pp q Hpp Hq Hlp Hlb.
  assert (Hold : jl_scope st = sc).
  { pose proof (sk_ctx _ _ _ _ _ _ _ _ _ _ _ _ Hk) as Hc. unfold rest_of, JlRepr.ctx in Hc. congruence. }
  apply wp_bind, wp_gets, wp_bind, wp_modify. rewrite Hold.
  pose proof (sk_env _ _ _ _ _ _ _ _ _ _ _ _ Hk) as [ss Hss].
  assert (Hkg : stok (set_jl_scope g st) g [] B s).
  { eapply stok_scope; [done|]. exists [g]. by eapply env_base. }
  eapply wp_enter; [exact Hkg|]. intros sN st1 Hos Hk1.
  assert (Hr1 : rest_of st1 = ctx sN lv s) by apply Hk1.
  assert (HsN : jl_scope st1 = sN) by (unfold rest_of, JlRepr.ctx in Hr1; congruence).
  apply wp_bind, wp_gets. rewrite HsN. eapply wp_args; [done|done|].
  apply (os_below _ st) in Hos; [|done].
  assert (Hlp' : zlen params <= Z.of_nat K) by (unfold zlen; lia).
  apply wp_bind. eapply wp_mono.
  { eapply (wp_bind_loop params fuel es st sc frs B sN g BLeaf ∅);
      [exact Hos|exact Hk|exact Hr1|exact Hpp|exact es_at|lia| |exact E].
    cbn [tvals]. rewrite zlen_nil. lia. }
  intros ok st2 (t & fr & V & Hos2 & Hr2 & Hlen & Hcase). cbn [tvals] in Hlen. rewrite zlen_nil in Hlen.
  apply wp_bind. eapply (wp_mono _ (fpost st2 sN [fr] (B + zlen (tvals t)) s' v)).
  { destruct Hcase as [[-> ->]|[-> ->]].
    - eapply wp_body; [done|exact Hk|done|lia|done|done|exact He].
    - injection He as <- <-. apply wp_ret, fpost_nil; [|done]. by eapply os_stok_inner. }
  intros r st3 (Hh & Hr & Hk3). apply wp_bind. eapply wp_leave; [exact Hos2|exact Hk|done|done|exact Hk3|].
  intros st4 Hh4 Hr4 Hp4 Hc4. apply wp_bind, wp_modify, wp_ret. split; [done|]. split; [done|].
  eapply (stok_held K W g G ln max st); [done|exact Hh4|by eapply pool_ok_rest|].
  unfold rest_of, JlRepr.ctx in Hc4 |- *. injection Hc4 as _ Hl Hv1 Hm <-. cbn. by rewrite Hl, Hv1, Hm.
Qed.

End spec.
