(* ===== verification/JlSpec.v ===== *)
(** [JLEvaluate] refines the reference interpreter: on code that lies in the heap
    it returns the value the reference computes, prints what it prints, sets the
    error flag as it does, and leaves the heap as it was but for one reference to
    the result. *)
From Stdlib Require Import SpecFloat.
From S2P Require Import Prelude CText JlHeap JlEval JlLogic JlScopes JlTree JlRef JlRepr JlFuncSpec JlCallSpec.

(** The literal that evaluates to a value. *)
Definition lit (x : rval) : option sexp :=
  match x with RNum d => Some (SNum d) | RStr t => Some (SStr t) | _ => None end.

Section spec.
Variable K : nat.
Variable W : heap.
Variable g : Z.
Variable G : frame.
Variables (ln max : Z).

Abbreviation stok lv st sc frs B s := (stok K W g G ln max st sc frs B lv s).
Abbreviation fpost lv := (fpost K W g G ln max lv).

(** * One level *)

Section level.
Variable lv : Z.
Variable fuel : nat.
Variable eval : Z -> M Z.
Variable ev : list frame -> option sexp -> R result.
Variable Bmax : Z.
Hypothesis fuel_K : (K <= fuel)%nat.
Hypothesis Bmax_small : Bmax < 4294967294.
Hypothesis eval_ok : forall st sc frs B e p s v s',
  stok lv st sc frs B s -> B <= Bmax -> opt_code_at K W p e -> ev frs e s = Some (v, s') ->
  wp (eval p) (fpost lv st sc frs B s' v) st.
Hypothesis ev_nil : forall frs s v s', ev frs None s = Some (v, s') -> v = None.

Lemma wp_call_special f args head hv es frs :
  W !! args = Some (NValue hv) -> code_at K W args head -> codes_at K W (v_next hv) es ->
  (length es <= K)%nat ->
  implements K W g G ln max lv Bmax (call_special fuel eval f args) (rspecial ln ev frs f head es) frs.
Proof.
  intros Ha Hh Hes Hlen. destruct f; simpl; try (by intros ? ? ? ? ? ? ? ? ?).
  - by eapply wp_CompareFunc.
  - by eapply wp_AddFunc.
  - by eapply wp_SubFunc.
  - by eapply wp_MulFunc.
  - by eapply wp_DivFunc.
  - by eapply wp_ModFunc.
  - by eapply wp_AndFunc.
  - by eapply wp_OrFunc.
  - by eapply wp_NotFunc.
  - by eapply wp_BeginFunc.
  - by eapply wp_IfFunc.
  - by eapply wp_SubstrFunc.
  - by eapply wp_ConcatFunc.
  - by eapply wp_is_tag_func.
  - by eapply wp_is_tag_func.
  - by eapply wp_is_tag_func.
  - by eapply wp_IsNullFunc.
  - by eapply wp_PrintFunc.
Qed.

(** A value that evaluates to itself, with its new reference. *)
Lemma wp_self l st sc frs B s p w v :
  stok lv st sc frs B s -> B <= Bmax -> (l >? max) = false -> nodes st !! p = Some (NValue w) ->
  v_tag w <> JLVALUE_LIST -> v_tag w <> JLVALUE_VARIABLE -> v_tag w <> JLVALUE_NIL ->
  res_at K W g (nodes st) p v ->
  wp (evaluate_value fuel eval l max p) (fpost lv st sc frs B s v) st.
Proof.
  intros Hk HB Hl Hw Ht1 Ht2 Ht3 Hr. pose proof (pool_ok_pos _ _ _ (sk_pool _ _ _ _ _ _ _ _ _ _ _ _ Hk) Hw).
  unfold evaluate_value. zif_false. rewrite Hl. apply wp_bind. eapply wp_get_value; [done|].
  apply Z.eqb_neq in Ht1 as ->, Ht2 as ->, Ht3 as ->. cbn [negb]. pose proof (sk_counts _ _ _ _ _ _ _ _ _ _ _ _ Hk _ _ Hw).
  apply wp_bind. eapply wp_JLRetain; [apply Hk|done|lia|]. intros st1 Ha Hr1 Hp1. apply wp_ret.
  assert (Hh : held p (nodes st) (nodes st1)) by by right.
  split; [done|]. split.
  - eapply res_sub; [by eapply held_sub|done].
  - eapply stok_held; [done|exact Hh|done|]. rewrite Hr1. apply Hk.
Qed.

(** The value of a variable, or nil, with its new reference. *)
Lemma wp_retain_result st sc frs B s r v :
  stok lv st sc frs B s -> B <= Bmax -> res_at K W g (nodes st) r v ->
  wp (JLRetain r;; mret r) (fpost lv st sc frs B s v) st.
Proof.
  intros Hk HB Hr. destruct v as [rv|]; cbn in Hr.
  - destruct Hr as (Hr0 & w & Hw & Hval). pose proof (sk_counts _ _ _ _ _ _ _ _ _ _ _ _ Hk _ _ Hw).
    apply wp_bind. eapply wp_JLRetain; [apply Hk|done|lia|]. intros st1 Ha Hr1 Hp1. apply wp_ret.
    assert (Hh : held r (nodes st) (nodes st1)) by by right.
    split; [done|]. split.
    + eapply res_sub; [by eapply held_sub|]. split; [done|by exists w].
    + eapply stok_held; [done|exact Hh|done|]. rewrite Hr1. apply Hk.
  - subst r. apply wp_bind. unfold JLRetain. cbn. by apply fpost_nil.
Qed.

(** The function position: a literal evaluates once more, to itself. *)
Hypothesis eval_self : forall st sc frs B r x e s v s',
  stok lv st sc frs B s -> B <= Bmax -> res_at K W g (nodes st) r (Some x) -> lit x = Some e ->
  ev frs (Some e) s = Some (v, s') -> wp (eval r) (fpost lv st sc frs B s' v) st.

Lemma wp_release_temp temp r st0 st1 st sc frs B B' s0 s v :
  held temp (nodes st0) (nodes st1) -> stok lv st0 sc frs B s0 -> fpost lv st1 sc frs B' s v r st ->
  wp (JLRelease temp;; mret r) (fpost lv st0 sc frs B s v) st.
Proof.
  intros Ht H0 (Hh & Hr & Hk). eapply (wp_release K W g G ln max lv st0 st _ _ _ _ _ _ temp [r]); [|done|done|].
  { econstructor; [exact Ht|]. by apply helds_one. }
  intros st2 Hh2 Hr2 Hk2. apply wp_ret. split; [by apply helds_one|].
  split; [apply Hr2; [left|done]|done].
Qed.

Lemma wp_apply st sc frs B s p q v_ w x head es v s' :
  stok lv st sc frs B s -> B + Z.of_nat K + 2 <= Bmax ->
  W !! p = Some (NValue v_) -> v_value v_ = VLst q -> codes_at K W q (head :: es) -> (length es <= K)%nat ->
  nodes st !! w = Some (NValue x) -> res_at K W g (nodes st) w v ->
  match v with
  | None => mret None
  | Some (RSpecial f) => rspecial ln ev frs f head es
  | Some (RFun params body) => rcall ln ev frs params body es
  | Some (RNum d) => ev frs (Some (SNum d))
  | Some (RStr t) => ev frs (Some (SStr t))
  end s = Some s' ->
  wp (if v_tag x =? JLVALUE_SPECIAL then
        match v_value x with
        | VSpecial f => lst ← get_lst p; call_special fuel eval f lst
        | _ => undef
        end
      else if v_tag x =? JLVALUE_LAMBDA then lst ← get_lst p; EvalLambda fuel eval w lst
      else eval w) (fpost lv st sc frs B s'.2 s'.1) st.
Proof.
  intros Hk HB Hp Hu Hq Hlen Hw Hr He. destruct s' as [v' s'].
  destruct (codes_cons _ _ _ _ _ Hq) as (hv & Hq0 & Hhv & Hhead & Hes).
  destruct (world_value _ _ _ _ _ _ _ _ _ _ _ _ _ _ Hk Hp) as (v2 & Hv2 & E2 & _ & _).
  destruct v as [rv|]; [|cbn in Hr; subst w; by destruct (pool_ok_pos _ _ _ (sk_pool _ _ _ _ _ _ _ _ _ _ _ _ Hk) Hw)].
  pose proof Hr as (_ & x' & Hx' & Ht & Hval). assert (x' = x) as -> by congruence. rewrite Ht.
  destruct rv as [d|t|f|params body]; cbn [rtag Z.eqb Pos.eqb JLVALUE_SPECIAL JLVALUE_LAMBDA JLVALUE_NUMBER JLVALUE_STRING].
  - eapply eval_self; [done|lia|exact Hr|reflexivity|exact He].
  - eapply eval_self; [done|lia|exact Hr|reflexivity|exact He].
  - rewrite Hval. apply wp_bind. eapply wp_get_lst; [done|by rewrite E2|].
    eapply wp_call_special; [exact Hhv|exact Hhead|exact Hes|done|exact Hk|done|exact He].
  - apply wp_bind. eapply wp_get_lst; [done|by rewrite E2|].
    eapply wp_EvalLambda; [done|done|done|exact Hhv|exact Hes|done|exact Hk|lia|exact Hr|exact He].
Qed.

Lemma wp_call_list st sc frs B p w q head es s v s' :
  stok lv st sc frs B s -> B + Z.of_nat K + 3 <= Bmax -> W !! p = Some (NValue w) ->
  v_value w = VLst q -> codes_at K W q (head :: es) -> (length (head :: es) <= K)%nat ->
  (lv >? max) = false -> rexpr ln max G ev lv frs (SList (head :: es)) s = Some (v, s') ->
  wp (lst ← get_lst p;
      temp ← eval lst;
      if temp =? 0 then mret 0
      else
        tv ← get_value temp;
        result ←
          (if v_tag tv =? JLVALUE_SPECIAL then
             match v_value tv with
             | VSpecial f => lst ← get_lst p; call_special fuel eval f lst
             | _ => undef
             end
           else if v_tag tv =? JLVALUE_LAMBDA then
             lst ← get_lst p; EvalLambda fuel eval temp lst
           else eval temp);
        JLRelease temp;;
        mret result) (fpost lv st sc frs B s' v) st.
Proof.
  intros Hk HB Hp Hu Hq Hlen Hlv He. unfold rexpr in He. rewrite Hlv in He. rinv He.
  destruct (world_value _ _ _ _ _ _ _ _ _ _ _ _ _ _ Hk Hp) as (w' & Hw' & Ew & _ & _).
  apply wp_bind. eapply wp_get_lst; [done|by rewrite Ew|].
  eapply (wp_eval K W g G ln max lv eval ev Bmax);
    [exact eval_ok|exact Hk|lia|exact (codes_hd _ _ _ _ Hq)|exact E|].
  intros temp st1 Hh Hr Hk1. destruct a as [rv|].
  - pose proof Hr as (Hr0 & x & Hx & _). zif_false. apply wp_bind. eapply wp_get_value; [exact Hx|].
    apply wp_bind. eapply wp_mono.
    { eapply (wp_apply st1 sc frs (B + 1) s1 p q w temp x head es (Some rv) (v, s'));
        [exact Hk1|lia|done|done|done|simpl in Hlen; lia|done|done|exact He]. }
    intros r st2 H. eapply wp_release_temp; [exact Hh|done|exact H].
  - cbn in Hr. subst temp. injection He as <- <-. apply wp_ret.
    destruct Hh as [[_ Hn]|[? _]]; [|done].
    apply fpost_nil; [by eapply stok_nodes|done].
Qed.

(** An expression in the heap. *)
Lemma wp_evaluate_value st sc frs B p e s v s' :
  stok lv st sc frs B s -> B + Z.of_nat K + 3 <= Bmax -> p <> 0 -> code_at K W p e ->
  rexpr ln max G ev lv frs e s = Some (v, s') ->
  wp (evaluate_value fuel eval lv max p) (fpost lv st sc frs B s' v) st.
Proof.
  intros Hk HB Hp0 Hc He. destruct (lv >? max) eqn:Hlv.
  { unfold rexpr in He. rewrite Hlv in He. rinv He. injection E as <- <-. injection He as <- <-.
    unfold evaluate_value. zif_false. rewrite Hlv. apply wp_bind. eapply stok_error; [done|].
    intros st1 Hn1 Hk1. by apply wp_ret, fpost_nil. }
  assert (Hself : forall w x, W !! p = Some (NValue w) -> v_tag w = rtag x -> val_at K W g w x ->
    match x with RNum _ | RStr _ => True | _ => False end ->
    wp (evaluate_value fuel eval lv max p) (fpost lv st sc frs B s (Some x)) st).
  { intros w x Hw Ht Hval Hx. destruct (world_value _ _ _ _ _ _ _ _ _ _ _ _ _ _ Hk Hw) as (w' & Hw' & Eu & _ & Et).
    eapply (wp_self lv st sc frs B s p w'); [done|lia|done|done|by destruct x; rewrite Et, Ht..|].
    split; [done|]. exists w'. split; [done|]. by eapply same_val. }
  destruct e as [d|t|x|es].
  - destruct Hc as (w & Hw & Ht & Hu). unfold rexpr in He. rewrite Hlv in He. injection He as <- <-.
    by eapply Hself.
  - destruct Hc as (w & Hw & Ht & Hu). unfold rexpr in He. rewrite Hlv in He. injection He as <- <-.
    by eapply Hself.
  - destruct Hc as (w & Hw & Ht & Hu). unfold rexpr in He. rewrite Hlv in He.
    destruct (world_value _ _ _ _ _ _ _ _ _ _ _ _ _ _ Hk Hw) as (w' & Hw' & Eu & _ & Et).
    unfold evaluate_value. zif_false. rewrite Hlv. apply wp_bind. eapply wp_get_value; [done|].
    rewrite Et, Ht. cbn [Z.eqb Pos.eqb JLVALUE_LIST JLVALUE_VARIABLE].
    apply wp_bind. eapply wp_lift; [by rewrite Eu, Hu|]. apply wp_bind.
    pose proof (sk_ctx _ _ _ _ _ _ _ _ _ _ _ _ Hk) as Hrest.
    pose proof (sk_env _ _ _ _ _ _ _ _ _ _ _ _ Hk) as [ss Hss].
    eapply wp_Lookup; [|exact Hss|]; [unfold rest_of, ctx in Hrest; congruence|].
    destruct (rlookup G frs x) as [v0|].
    + injection He as <- <-. intros a Ha. eapply wp_retain_result; [done|lia|done].
    + rinv He. injection E as <- <-. injection He as <- <-.
      set (st1 := add_printed _ _). assert (Hk1 : stok lv st1 sc frs B (true, s.2 ++ [OError ln (NotFound x)])).
      2: { eapply wp_mono; [eapply (wp_retain_result st1 sc frs B _ 0 None); [exact Hk1|lia|done]|].
           intros r st2 H. by eapply fpost_nodes; [|exact H]. }
      apply (stok_same K W g G ln max st _ sc frs B lv s); [done|done| |].
      * eapply pool_ok_rest; [apply Hk|done..].
      * unfold rest_of, ctx in Hrest |- *. injection Hrest as <- Hl <- Hm <-. cbn. by rewrite Hl, Hm.
  - destruct (code_list _ _ _ _ Hc) as (w & q & Hw & Ht & Hu & Hlen & Hq).
    destruct (world_value _ _ _ _ _ _ _ _ _ _ _ _ _ _ Hk Hw) as (w' & Hw' & Eu & _ & Et).
    unfold evaluate_value. zif_false. rewrite Hlv. apply wp_bind. eapply wp_get_value; [done|].
    rewrite Et, Ht. cbn [Z.eqb Pos.eqb JLVALUE_LIST]. destruct es as [|head es].
    + unfold rexpr in He. rewrite Hlv in He. rinv He. injection He as <- <-. simpl in Hq. subst q.
      apply wp_bind. eapply wp_get_lst; [done|by rewrite Eu|].
      eapply (wp_eval K W g G ln max lv eval ev Bmax eval_ok st sc frs B None);
        [exact Hk|lia|done|exact E|].
      intros r st1 Hh Hr Hk1. apply ev_nil in E as ->. cbn in Hr. subst r. apply wp_ret.
      destruct Hh as [[_ Hn]|[? _]]; [|done].
      apply fpost_nil; [by eapply stok_nodes|done].
    + by eapply wp_call_list.
Qed.

End level.
(** * The depth *)

(** [JLEvaluate] goes one level down, unless an error stopped it. *)
Lemma wp_JLEvaluate_enter fuel p lv st sc frs B s (Q : Z -> JLContext -> Prop) :
  stok lv st sc frs B s -> 0 <= lv < 4294967295 -> negb (lv =? 0) && s.1 = false ->
  (forall st1, nodes st1 = nodes st -> stok (lv + 1) st1 sc frs B (if lv =? 0 then (false, s.2) else s) ->
     wp (evaluate_value fuel (JLEvaluate fuel) (lv + 1) max p)
       (fun r st2 => levels st2 = lv + 1 /\ Q r (set_levels lv st2)) st1) ->
  wp (JLEvaluate (S fuel) p) Q st.
Proof.
  intros Hk Hlv Eb Hgo. pose proof (sk_ctx _ _ _ _ _ _ _ _ _ _ _ _ Hk) as Hr.
  unfold rest_of, ctx in Hr. injection Hr as Hsc Hln Hl Hm Hs.
  cbn [JLEvaluate]. apply wp_bind, wp_gets, wp_bind, wp_gets. rewrite Hl.
  assert (He : jl_error st = s.1) by by rewrite <- Hs. rewrite He, Eb.
  set (s1 := if lv =? 0 then (false, s.2) else s) in *.
  assert (Hclear : forall (k : M Z) Q, (forall st1, nodes st1 = nodes st -> stok lv st1 sc frs B s1 -> wp k Q st1) ->
    wp ((if lv =? 0 then modify (set_jl_error false) else mret tt);; k) Q st).
  { intros k Q' H. subst s1. destruct (lv =? 0); apply wp_bind; [apply wp_modify|apply wp_ret]; (apply H; [done|]).
    - apply (stok_same K W g G ln max st _ sc frs B lv s); [done|done|by eapply pool_ok_rest; [apply Hk|done..]|].
      unfold rest_of, ctx. cbn. by rewrite Hsc, Hln, Hl, Hm, <- Hs.
    - done. }
  apply Hclear. intros st1 Hn1 Hk1. apply wp_bind, wp_modify.
  rewrite u32_id by lia. set (st2 := set_levels (lv + 1) st1).
  assert (Hk2 : stok (lv + 1) st2 sc frs B s1).
  { destruct Hk1 as [H1 H2 H3 H4 H5 H6]. split; auto; [by eapply pool_ok_rest; [exact H1|..]|].
    unfold rest_of, ctx in H5 |- *. injection H5 as <- <- Hl' <- <-. done. }
  apply wp_bind, wp_gets, wp_bind, wp_gets. cbn [levels st2 set_levels].
  assert (max_levels st2 = max) as ->.
  { pose proof (sk_ctx _ _ _ _ _ _ _ _ _ _ _ _ Hk2) as Hr2. unfold rest_of, ctx in Hr2. congruence. }
  apply wp_bind. eapply wp_mono; [apply Hgo; [by rewrite <- Hn1|done]|].
  intros r st3 [Hl3 HQ]. apply wp_bind, wp_gets, wp_bind, wp_modify, wp_ret.
  rewrite Hl3, u32_id by lia. by replace (lv + 1 - 1) with lv by lia.
Qed.

Lemma wp_JLEvaluate_level fuel p lv st sc frs B s v s' :
  stok lv st sc frs B s -> 0 <= lv < 4294967295 ->
  (negb (lv =? 0) && s.1 = true -> v = None /\ s' = s) ->
  (negb (lv =? 0) && s.1 = false -> forall st1, nodes st1 = nodes st ->
     stok (lv + 1) st1 sc frs B (if lv =? 0 then (false, s.2) else s) ->
     wp (evaluate_value fuel (JLEvaluate fuel) (lv + 1) max p) (fpost (lv + 1) st1 sc frs B s' v) st1) ->
  wp (JLEvaluate (S fuel) p) (fpost lv st sc frs B s' v) st.
Proof.
  intros Hk Hlv Herr Hgo. destruct (negb (lv =? 0) && s.1) eqn:Eb.
  { pose proof (sk_ctx _ _ _ _ _ _ _ _ _ _ _ _ Hk) as Hr. unfold rest_of, ctx in Hr.
    injection Hr as Hsc Hln Hl Hm Hs. cbn [JLEvaluate]. apply wp_bind, wp_gets, wp_bind, wp_gets. rewrite Hl.
    assert (He : jl_error st = s.1) by by rewrite <- Hs. rewrite He, Eb.
    destruct (Herr eq_refl) as [-> ->]. by apply wp_ret, fpost_nil. }
  eapply wp_JLEvaluate_enter; [done|done|done|]. intros st1 Hn1 Hk1.
  eapply wp_mono; [by eapply Hgo|]. intros r st2 (Hh & Hr & [H1 H2 H3 H4 H5 H6]).
  assert (Hl2 : levels st2 = lv + 1) by (unfold rest_of, ctx in H5; congruence).
  split; [done|]. split; [by rewrite <- Hn1|]. split; [done|].
  split; auto; [by eapply pool_ok_rest; [exact H1|..]|].
  unfold rest_of, ctx in H5 |- *. by injection H5 as <- <- _ <- <-.
Qed.

Lemma reval_nil n lv frs s v s' : reval ln max G n lv frs None s = Some (v, s') -> v = None.
Proof.
  destruct n as [|n]; [done|]. cbn. by destruct (negb (lv =? 0) && s.1); intros [= <- _].
Qed.

(** A literal in the function position evaluates to itself. *)
Lemma wp_JLEvaluate_lit n fuel lv st sc frs B r x e s v s' :
  stok lv st sc frs B s -> 0 <= lv < 4294967295 -> B <= 4294967293 ->
  res_at K W g (nodes st) r (Some x) -> lit x = Some e ->
  reval ln max G n lv frs (Some e) s = Some (v, s') -> (K < fuel)%nat ->
  wp (JLEvaluate fuel r) (fpost lv st sc frs B s' v) st.
Proof.
  intros Hk Hlv HB Hr Hx He Hf. destruct n as [|n]; [done|]. destruct fuel as [|fuel]; [lia|]. cbn [reval] in He.
  eapply wp_JLEvaluate_level; [done|done|..].
  - intros Eb. rewrite Eb in He. by injection He as <- <-.
  - intros Eb st1 Hn1 Hk1. rewrite Eb in He. set (s1 := if lv =? 0 then _ else _) in *.
    rewrite <- Hn1 in Hr. pose proof Hr as (Hr0 & w & Hw & Ht & Hval).
    unfold rexpr in He. destruct (lv + 1 >? max) eqn:Em.
    { rinv He. injection E as <- <-. injection He as <- <-. unfold evaluate_value. zif_false.
      rewrite Em. apply wp_bind. eapply stok_error; [done|].
      intros st2 Hn2 Hk2. by apply wp_ret, fpost_nil. }
    assert (v = Some x /\ s' = s1) as [-> ->].
    { destruct x; try done; injection Hx as <-; injection He as <- <-; done. }
    eapply (wp_self (lv + 1) fuel (JLEvaluate fuel) 4294967293); [lia|lia|exact Hk1|done|done|exact Hw| | | |exact Hr];
      rewrite Ht; by destruct x.
Qed.

(** * The refinement *)

Lemma wp_JLEvaluate n : forall lv st sc frs B e p s v s',
  stok lv st sc frs B s -> 0 <= lv -> lv + Z.of_nat n <= 4294967295 ->
  B + Z.of_nat n * (Z.of_nat K + 4) <= 4294967293 -> opt_code_at K W p e ->
  reval ln max G n lv frs e s = Some (v, s') ->
  wp (JLEvaluate (n + K) p) (fpost lv st sc frs B s' v) st.
Proof.
  induction n as [|n IH]; intros lv st sc frs B e p s v s' Hk Hlv Hn HB Hc He; [done|].
  cbn [reval] in He. change (S n + K)%nat with (S (n + K)).
  rewrite Nat2Z.inj_succ, Z.mul_succ_l in HB.
  assert (0 <= Z.of_nat n * (Z.of_nat K + 4)) by (apply Z.mul_nonneg_nonneg; lia).
  eapply wp_JLEvaluate_level; [done|lia|..].
  - intros Eb. rewrite Eb in He. by injection He as <- <-.
  - intros Eb st1 Hn1 Hk1. rewrite Eb in He. destruct e as [e|].
    + destruct Hc as [Hp0 Hc].
      eapply (wp_evaluate_value (lv + 1) (n + K) (JLEvaluate (n + K)) (reval ln max G n (lv + 1))
        (4294967293 - Z.of_nat n * (Z.of_nat K + 4))); [lia|lia| | | |exact Hk1|lia|done|done|exact He].
      * intros. eapply IH; [eassumption|lia|lia|lia|eassumption|eassumption].
      * intros ? ? ? ?. apply reval_nil.
      * intros ? ? ? ? ? ? ? ? ? ? Hk2 HB2 Hr Hx He2.
        destruct n as [|n]; [done|].
        eapply wp_JLEvaluate_lit; [exact Hk2|lia|lia|exact Hr|exact Hx|exact He2|lia].
    + cbn in Hc. subst p. injection He as <- <-. unfold evaluate_value. cbn. by apply wp_ret, fpost_nil.
Qed.

End spec.
