(* ===== verification/JlSession.v ===== *)
(** Sessions of the JL interpreter: the state between two lines of the console,
    with the global scope of [JLCreateContext]. *)
From Stdlib Require Import SpecFloat.
From S2P Require Import Prelude CText JlHeap JlEval JlLogic JlScopes JlTree JlRef JlRepr JlFuncSpec.

Section session.
(** A bound on the length of the lists of the functions. *)
Variable K : nat.

(** * The state between two lines *)

(** Every value is bound to one name, and a function of the table is no item of
    a list. *)
Definition owned (V : heap) (t : btree) : Prop :=
  forall x a, tfind t x = Some a -> a <> 0 ->
    (forall y, tfind t y = Some a -> y = x) /\
    (forall v, V !! a = Some (NValue v) -> v_tag v = JLVALUE_SPECIAL -> v_next v = 0).

(** The global scope [g] binds the names of [G] to values in [V], and nothing
    else is in the heap. *)
Record globals_at (ns : heap) (g cnt : Z) (t : btree) (V : heap) (G : frame) : Prop := {
  ga_nodes : ns = scope_map g 0 cnt t ∪ V;
  ga_tree : scope_ok g t;
  ga_disjoint : scope_map g 0 cnt t ##ₘ V;
  ga_frame : frame_at K V g V t G;
  ga_counts : counts_ok 1 V;
  ga_owned : owned V t }.

Record globals (st : JLContext) (g cnt : Z) (t : btree) (V : heap) (G : frame) : Prop := {
  gl_pool : pool_ok st;
  gl_at : globals_at (nodes st) g cnt t V G;
  gl_scope : jl_scope st = g }.

(** Closures stay where they are when the world grows. *)
Lemma val_world W W' g v rv : sub W W' -> val_at K W g v rv -> val_at K W' g v rv.
Proof.
  intros Hs [Ht H]. split; [done|]. destruct rv as [d|s|f|params body]; try done.
  destruct H as (l & sv & pv & pp & Hu & Hl & Hts & Hus & Hn & Hpv & Htp & Hup & Hlp & Hlb & Hp & Hb).
  destruct (sub_value _ _ _ _ Hs Hl) as (sv' & Hsv' & Eus & Ens & Ets).
  destruct (sub_value _ _ _ _ Hs Hpv) as (pv' & Hpv' & Eup & Enp & Etp).
  exists l, sv', pv', pp. rewrite Ets, Eus, Ens, Etp, Eup, Enp.
  repeat (split; [done|]). split; by eapply codes_sub.
Qed.

Lemma res_world W W' g ns r v : sub W W' -> res_at K W g ns r v -> res_at K W' g ns r v.
Proof.
  intros Hs. destruct v as [rv|]; [|done]. intros (Hr & w & Hw & Hv). split; [done|].
  exists w. split; [done|]. by eapply val_world.
Qed.

Lemma frame_world W W' g ns t fr : sub W W' -> frame_at K W g ns t fr -> frame_at K W' g ns t fr.
Proof.
  intros Hs H x. specialize (H x). destruct (tfind t x); [|done].
  destruct H as (v & ? & ?). exists v. split; [done|]. by eapply res_world.
Qed.

Lemma globals_env ns g cnt t V G : globals_at ns g cnt t V G -> env_at K ns g G ns g [] [g].
Proof.
  intros [Hn (Hs & Hst & Ht) Hd Hf _ _].
  assert (Hsub : sub V ns) by (rewrite Hn; by apply sub_union_r).
  eapply (env_global _ _ _ _ _ t cnt); [done| | |].
  - by rewrite Hn; unfold scope_map; rewrite <- insert_union_l, lookup_insert_eq.
  - split; [done|]. rewrite Hn. etransitivity; [|apply map_union_subseteq_l]. by apply insert_subseteq.
  - eapply frame_world; [exact Hsub|]. by eapply frame_sub.
Qed.

(** What a name is bound to is a value. *)
Lemma frame_value W g ns t fr x a : frame_at K W g ns t fr -> tfind t x = Some a -> a <> 0 ->
  exists rv w, fr !! x = Some (Some rv) /\ ns !! a = Some (NValue w) /\ val_at K W g w rv.
Proof.
  intros Hf Hx Ha. specialize (Hf x). rewrite Hx in Hf. destruct Hf as ([rv|] & Hv & Hr); [|done].
  destruct Hr as (_ & w & Hw & Hval). eauto.
Qed.

(** A name is bound to a fresh value, or to NULL. *)
Lemma owned_insert W g V V' t fr q x p : owned V t -> frame_at K W g V t fr -> sub V V' ->
  (p = 0 \/ V !! p = None) ->
  (forall v, V' !! p = Some (NValue v) -> v_tag v = JLVALUE_SPECIAL -> v_next v = 0) ->
  owned V' (tinsert t q x p).
Proof.
  intros Ho Hf Hs Hp Hv y a. rewrite tfind_insert. case_decide as Hy; intros Ha Ha0.
  - injection Ha as <-. subst y. split; [|done]. intros y. rewrite tfind_insert. case_decide as Hy; [done|].
    intros Hfy. destruct (frame_value _ _ _ _ _ _ _ Hf Hfy Ha0) as (rv & w & _ & Hw & _).
    destruct Hp as [?|Hp]; [done|congruence].
  - destruct (frame_value _ _ _ _ _ _ _ Hf Ha Ha0) as (rv & w & _ & Hw & _). split.
    + intros z. rewrite tfind_insert. case_decide as Hz.
      * intros [= <-]. destruct Hp as [?|Hp]; [done|congruence].
      * intros Hz'. by apply (Ho y a).
    + intros v Hv' Ht. destruct (Hs _ _ Hw) as (n' & Hn' & E). rewrite Hv' in Hn'. injection Hn' as <-.
      destruct E as (_ & En & Et). destruct (Ho y a Ha Ha0) as [_ H]. rewrite <- En. apply (H w Hw). congruence.
Qed.

(** * The functions of the table *)

(** A special is bound; its own reference goes, that of the binding stays. *)
Lemma wp_JLDefineSpecial x f st g cnt t V G (Q : unit -> JLContext -> Prop) :
  globals st g cnt t V G -> G !! x = None ->
  (forall t' V' st', globals st' g cnt t' V' (<[x := Some (RSpecial f)]> G) -> sub V V' ->
     rest_of st' = rest_of st -> Q tt st') ->
  wp (JLDefineSpecial x f) Q st.
Proof.
  intros Hgl Hx HQ. pose proof Hgl as [Hp [Hn Ht Hd Hf Hc Ho] Hsc].
  assert (Htf : tfind t x = None) by by eapply frame_fresh.
  unfold JLDefineSpecial, CreateValue. apply wp_bind, wp_bind. apply wp_GetFree; [done|].
  intros p st1 Hp0 Hfresh Hn1 Hr1 Hpt. apply wp_bind, wp_put_node, wp_bind.
  set (u := fun un c => NValue (mk_value un 0 c JLVALUE_SPECIAL)).
  set (st2 := set_nodes _ st1). rewrite Hn in Hfresh. apply lookup_union_None in Hfresh as [HfS HfV].
  assert (Hn2 : nodes st2 = scope_map g 0 cnt t ∪ <[p := u VUndef 1]> V)
    by by cbn; rewrite Hn1, Hn, insert_union_r.
  assert (Hd2 : scope_map g 0 cnt t ##ₘ <[p := u VUndef 1]> V) by by apply map_disjoint_insert_r_2.
  eapply (wp_JLDefineValue_new g 0 cnt t _ x p);
    [by apply pool_taken_put| |exact Hn2|done|exact Hd2|done| |].
  { unfold rest_of in Hr1. cbn. congruence. }
  { intros _. eexists. rewrite lookup_insert_eq. by split. }
  intros q V3 st3 Hs3 Hn3 Hd3 Hh3 Hr3 Hp3. apply wp_ret.
  destruct Hh3 as [[? _]|[_ Ha]]; [done|].
  destruct Ha as [w Hw _ ->|? ? Hw _ _]; rewrite lookup_insert_eq in Hw; [|done].
  injection Hw as <-. rewrite insert_insert_eq in Hn3, Hd3. cbn in Hn3, Hd3.
  set (S3 := scope_map g 0 cnt (tinsert t q x p)) in *.
  assert (HSp : S3 !! p = None) by by eapply map_disjoint_Some_r; [exact Hd3|apply lookup_insert_eq].
  apply wp_bind. eapply wp_update_value; [by rewrite Hn3, lookup_union_r, lookup_insert_eq|].
  set (st4 := set_nodes _ st3).
  assert (Hn4 : nodes st4 = S3 ∪ <[p := u (VSpecial f) 2]> V).
  { cbn. by rewrite Hn3, insert_union_r, insert_insert_eq. }
  eapply (wp_JLRelease p (S3 ∪ <[p := u (VSpecial f) 1]> V)).
  { eapply pool_ok_update; [done|]. by rewrite Hn3, lookup_union_r, lookup_insert_eq. }
  { right. split; [done|]. eapply (acq_old _ _ _ (mk_value (VSpecial f) 0 1 JLVALUE_SPECIAL));
      [by rewrite lookup_union_r, lookup_insert_eq|done|].
    by rewrite Hn4, insert_union_r, insert_insert_eq. }
  intros st5 Hn5 Hr5 Hp5. assert (Hsub : sub V (<[p := u (VSpecial f) 1]> V)) by by apply sub_fresh.
  apply (HQ (tinsert t q x p) (<[p := u (VSpecial f) 1]> V)); [|done|].
  2: { rewrite Hr5. change (rest_of st4) with (rest_of st3). rewrite Hr3. exact Hr1. }
  split; [done|split; auto|].
  - apply map_disjoint_insert_r_2; [done|]. by eapply map_disjoint_weaken_r; [exact Hd3|apply insert_subseteq].
  - apply frame_insert; [eapply frame_world; [done|]; by eapply frame_sub|].
    split; [done|]. eexists. by rewrite lookup_insert_eq.
  - intros a w Hw. destruct (decide (a = p)) as [->|Ha].
    + rewrite lookup_insert_eq in Hw. by injection Hw as <-.
    + rewrite lookup_insert_ne in Hw by done. by eapply Hc.
  - eapply owned_insert; [exact Ho|exact Hf|done|by right|]. rewrite lookup_insert_eq. by intros v [= <-].
  - assert (E : rest_of st5 = rest_of st).
    { rewrite Hr5. change (rest_of st4) with (rest_of st3). rewrite Hr3. exact Hr1. }
    unfold rest_of in E. congruence.
Qed.

(** The frame of the registered functions. *)
Fixpoint register_frame (fs : list (bytes * JLFunction)) (G : frame) : frame :=
  match fs with [] => G | (x, f) :: fs' => register_frame fs' (<[x := Some (RSpecial f)]> G) end.

Lemma wp_register_loop fs : forall st g cnt t V G (Q : unit -> JLContext -> Prop),
  globals st g cnt t V G -> NoDup fs.*1 -> (forall x, x ∈ fs.*1 -> G !! x = None) ->
  (forall t' V' st', globals st' g cnt t' V' (register_frame fs G) -> rest_of st' = rest_of st ->
     Q tt st') ->
  wp (register_loop fs) Q st.
Proof.
  induction fs as [|[x f] fs IH]; intros st g cnt t V G Q Hgl Hnd Hx HQ.
  - by eapply wp_ret, HQ.
  - cbn [register_loop]. apply wp_bind. pose proof (NoDup_cons_1_1 _ _ Hnd) as Hxf. apply NoDup_cons_1_2 in Hnd.
    eapply wp_JLDefineSpecial; [done|apply Hx; left|]. intros t' V' st' Hgl' _ Hr'.
    eapply IH; [done|done| |].
    + intros y Hy. assert (E : (<[x := Some (RSpecial f)]> G : frame) !! y = G !! y).
      { apply lookup_insert_ne. by intros ->. }
      rewrite E. apply Hx. by right.
    + intros t2 V2 st2 Hgl2 Hr2. eapply HQ; [done|congruence].
Qed.

(** The global scope of a fresh context: the functions of the table, and nil. *)
Definition global_frame : frame := <[nil_text := None]> (register_frame INTERNAL_FUNCTIONS ∅).

Lemma wp_JLCreateContext (P : JLContext -> Prop) :
  (forall g t V st, globals st g 1 t V global_frame ->
     rest_of st = (g, 1, (0, 32768), (false, [])) -> P st) ->
  exists st, JLCreateContext = Some st /\ P st.
Proof.
  intros HP. assert (H : wp (JLEnterScope;; RegisterFunctions;; JLDefineValue (Some nil_text) 0)
    (fun _ => P) empty_context).
  { assert (Hp0 : pool_ok empty_context).
    { split; cbn; [constructor| |by intros p ?%elem_of_nil|done].
      intros p. unfold pool_addr, node_at, BLOCK_SIZE. cbn. rewrite lookup_empty, elem_of_nil.
      split; [lia|intros [?|[? ?]]; done]. }
    apply wp_bind, wp_JLEnterScope; [done|]. intros g st Hg0 _ Hs Hn Hr Hp. apply wp_bind.
    assert (Hgl : globals st g 1 BLeaf ∅ ∅).
    { split; [done|split; [|split; [done|split; [apply lookup_empty|done]]|apply map_disjoint_empty_r| | |by intros ? ?]|done].
      - by rewrite Hn, (right_id_L ∅ (∪)).
      - intros x. apply lookup_empty.
      - intros a w Ha. by rewrite lookup_empty in Ha. }
    eapply wp_register_loop; [exact Hgl| | |].
    - by apply (bool_decide_unpack _); vm_compute.
    - intros x _. apply lookup_empty.
    - intros t V st1 [Hp1 [Hn1 Ht1 Hd1 Hf1 Hc1 Ho1] Hs1] Hr1.
      assert (Hnil : register_frame INTERNAL_FUNCTIONS ∅ !! nil_text = None) by by vm_compute.
      eapply (wp_JLDefineValue_new g 0 1 t V nil_text 0);
        [done|done|done|done|done|by eapply frame_fresh|done|].
      intros q V' st' Ht' Hn' Hd' [[_ ->]|[? _]] Hr' Hp'; [|done].
      eapply (HP g (tinsert t q nil_text 0) V); [|rewrite Hr', Hr1, Hr; done].
      split; [done|split; [done|done|done|by apply frame_insert|done|]|].
      { eapply owned_insert; [exact Ho1|exact Hf1|done|by left|]. intros v Hv. by destruct (pool_ok_pos st' 0 (NValue v) Hp'); [rewrite Hn'; apply lookup_union_Some_r|]. }
      assert (E : jl_scope st' = jl_scope st1) by (unfold rest_of in Hr'; congruence). congruence. }
  apply wp_run in H as ([] & st & E & H). exists st. split; [|done].
  unfold JLCreateContext. by rewrite E.
Qed.

End session.
