(* ===== verification/JlReader.v ===== *)
(** What the reader of the JL interpreter reads: the grammar of the texts it takes
    as S-expressions, and the code it leaves in the heap. *)
From Stdlib Require Import SpecFloat.
From S2P Require Import Prelude CText JlHeap JlEval JlLogic JlScopes JlTree JlRef JlRepr JlParse.

(** * Tokens *)

Definition dotted (c : Z) : bool := isdigit c || (c =? 46).
Definition dots (s : bytes) : nat := length (filter (fun c => c = 46) s).

(** Digits with at most one period. *)
Definition number_token (s : bytes) : Prop := s <> [] /\ Forall (fun c => dotted c = true) s /\ (dots s <= 1)%nat.

Lemma sep_cases c : is_separator c = true ->
  c = 0 \/ c = 40 \/ c = 41 \/ c = 32 \/ c = 9 \/ c = 13 \/ c = 10 \/ c = 59.
Proof. unfold is_separator. cbn [existsb]. rewrite !orb_true_iff, !Z.eqb_eq. intuition done. Qed.

Lemma dotted_not_sep c : dotted c = true -> is_separator c = false.
Proof.
  intros Hd. destruct (is_separator c) eqn:E; [|done].
  apply sep_cases in E. unfold dotted, isdigit in Hd. zbool. lia.
Qed.

Lemma digits_spec txt s : forall p c rest dot, at_text txt p (s ++ c :: rest) ->
  Forall (fun c => dotted c = true) s -> (dots s + (if (dot : bool) then 1 else 0) <= 1)%nat -> is_separator c = true ->
  digits_loop (text_fuel txt) txt p dot = Some (p + zlen s).
Proof.
  assert (H : forall fuel p c rest (dot : bool), at_text txt p (s ++ c :: rest) -> (length s < fuel)%nat ->
    Forall (fun c => dotted c = true) s -> (dots s + (if dot then 1 else 0) <= 1)%nat -> is_separator c = true ->
    digits_loop fuel txt p dot = Some (p + zlen s)).
  { induction s as [|x s IH]; intros fuel p c rest dot Ha Hf Hs Hd Hc; (destruct fuel; [simpl in Hf; lia|]);
      cbn [digits_loop]; rewrite (at_head _ _ _ _ Ha); cbn [mbind option_bind].
    - assert (E : isdigit c || negb dot && (c =? 46) = false).
      { apply sep_cases in Hc. unfold isdigit. destruct dot; zbool; lia. }
      rewrite E, zlen_nil. by rewrite Z.add_0_r.
    - apply Forall_cons_1 in Hs as [Hx Hs]. unfold dots in Hd. rewrite filter_cons in Hd.
      assert (E : isdigit x || negb dot && (x =? 46) = true).
      { unfold dotted in Hx. destruct (isdigit x); [done|]. simpl in Hx. rewrite Hx.
        apply Z.eqb_eq in Hx. rewrite decide_True in Hd by done. simpl in Hd. destruct dot; [lia|done]. }
      rewrite E, (IH fuel (p + 1) c rest); [rewrite zlen_cons; f_equal; lia|by eapply at_tail|simpl in Hf; lia|done| |done].
      unfold dots. destruct (x =? 46) eqn:E46.
      + apply Z.eqb_eq in E46. rewrite decide_True in Hd by done. simpl in Hd. destruct dot; simpl; lia.
      + apply Z.eqb_neq in E46. rewrite decide_False in Hd by done. destruct dot; simpl; lia. }
  intros p c rest dot Ha Hs Hd Hc. eapply H; [done| |done|done|done].
  apply at_length in Ha. rewrite length_app in Ha. simpl in Ha. unfold text_fuel. lia.
Qed.

(** Does [s] begin with [w], in either case? *)
Fixpoint begins (w s : bytes) : bool :=
  match w, s with
  | [], _ => true
  | l :: w', c :: s' => letter l c && begins w' s'
  | _, [] => false
  end.

Definition lower (l : Z) : Prop := 97 <= l <= 122.

Lemma spells_spec txt w : forall s p c rest, Forall lower w -> at_text txt p (s ++ c :: rest) ->
  is_separator c = true -> spells txt p w = Some (begins w s).
Proof.
  induction w as [|l w IH]; intros s p c rest Hw Ha Hc; [done|].
  apply Forall_cons_1 in Hw as [Hl Hw]. cbn [spells]. destruct s as [|x s].
  - rewrite (at_head _ _ _ _ Ha). cbn [mbind option_bind begins].
    assert (E : letter l c = false) by (apply sep_cases in Hc; unfold letter, lower in *; zbool; lia).
    by rewrite E.
  - rewrite (at_head _ _ _ _ Ha). cbn [mbind option_bind begins].
    destruct (letter l x); [|done]. eapply IH; [done|by eapply at_tail|done].
Qed.

Lemma lower_texts : Forall lower inf_text /\ Forall lower nan_text.
Proof. unfold lower. split; repeat constructor; lia. Qed.

Lemma number_end txt p s c rest : number_token s -> is_separator c = true ->
  at_text txt p (s ++ c :: rest) -> strtod_end txt p = Some (Some (p + zlen s)).
Proof.
  intros (Hne & Hs & Hd) Hc Ha. destruct lower_texts as [Hinf Hnan]. unfold strtod_end.
  rewrite (spells_spec _ _ _ _ _ _ Hinf Ha Hc), (spells_spec _ _ _ _ _ _ Hnan Ha Hc).
  destruct s as [|x s]; [done|]. pose proof (Forall_cons_1 _ _ _ Hs) as [Hx _].
  assert (E : letter 105 x = false /\ letter 110 x = false).
  { unfold dotted, isdigit, letter in *. zbool. lia. }
  destruct E as [E1 E2]. cbn [begins inf_text nan_text]. rewrite E1, E2. cbn [mbind option_bind andb].
  rewrite (at_head _ _ _ _ Ha). cbn [mbind option_bind]. fold (dotted x). rewrite Hx.
  rewrite (digits_spec txt (x :: s) p c rest) by (done || lia). cbn [mbind option_bind].
  rewrite (at_head _ _ _ _ (at_app _ _ _ _ Ha)). cbn [mbind option_bind].
  assert (E : letter 101 c = false) by (apply sep_cases in Hc; unfold letter; zbool; lia).
  by rewrite E.
Qed.

(** No number begins here. *)
Lemma name_end txt p s c rest : begins inf_text s = false -> begins nan_text s = false ->
  dotted (default c (s !! 0%nat)) = false -> is_separator c = true ->
  at_text txt p (s ++ c :: rest) -> strtod_end txt p = Some None.
Proof.
  intros H1 H2 Hx Hc Ha. destruct lower_texts as [Hinf Hnan]. unfold strtod_end.
  rewrite (spells_spec _ _ _ _ _ _ Hinf Ha Hc), (spells_spec _ _ _ _ _ _ Hnan Ha Hc), H1, H2.
  cbn [mbind option_bind].
  assert (Hh : znth txt p = Some (default c (s !! 0%nat))) by (destruct s; by eapply at_head).
  rewrite Hh. cbn [mbind option_bind]. fold (dotted (default c (s !! 0%nat))). by rewrite Hx.
Qed.

Section reader.
Context `{JLLib}.

(** [atof] looks at the number only. *)
Hypothesis atof_token : forall s c rest, number_token s -> is_separator c = true ->
  atof (s ++ until_zero (c :: rest)) = atof s.

Definition number (s : bytes) : spec_float := d_mul (atof s) (d_of_Z 1).
Definition negative_number (s : bytes) : spec_float := d_mul (atof (48 :: s)) (d_of_Z (-1)).

Lemma until_zero_app s rest : Forall (fun c => dotted c = true) s ->
  until_zero (s ++ rest) = s ++ until_zero rest.
Proof.
  induction 1 as [|c s Hc _ IH]; [done|]. simpl.
  assert (E : (c =? 0) = false) by (unfold dotted, isdigit in Hc; zbool; lia). by rewrite E, IH.
Qed.

Lemma strtod_number txt p s c rest : number_token s -> is_separator c = true -> 0 ∈ c :: rest ->
  at_text txt p (s ++ c :: rest) -> strtod txt p = Some (number s, p + zlen s, txt).
Proof.
  intros Hs Hc Hz Ha. pose proof Hs as (Hne & Hd & _). unfold strtod.
  assert (Hhd : exists x s', s = x :: s' /\ dotted x = true).
  { destruct s as [|x s']; [done|]. apply Forall_cons_1 in Hd as [Hx _]. eauto. }
  destruct Hhd as (x & s' & Es & Hx).
  assert (Hsp : isspace x = false /\ (x =? 45) = false /\ (x =? 43) = false).
  { unfold dotted, isdigit, isspace in *. zbool. lia. }
  destruct Hsp as (Hsp & H45 & H43).
  assert (Ha' : at_text txt p (x :: s' ++ c :: rest)) by by rewrite Es in Ha.
  rewrite (skip_spec isspace txt [] p x (s' ++ c :: rest)); [|exact Ha'|constructor|done].
  rewrite zlen_nil, Z.add_0_r. cbn [mbind option_bind]. rewrite (at_head _ _ _ _ Ha'). cbn [mbind option_bind].
  rewrite H45. cbn [mbind option_bind]. rewrite (at_head _ _ _ _ Ha'). cbn [mbind option_bind].
  rewrite H45, H43. cbn [orb]. rewrite (number_end _ _ _ _ _ Hs Hc Ha). cbn [mbind option_bind].
  rewrite (c_string_spec _ _ _ Ha); [|apply elem_of_app; by right]. cbn [mbind option_bind].
  rewrite until_zero_app by done. by rewrite atof_token.
Qed.

(** A sign that is part of a number is overwritten by a zero. *)
Lemma strtod_negative txt p s c rest : number_token s -> is_separator c = true -> 0 ∈ c :: rest ->
  at_text txt p (45 :: s ++ c :: rest) ->
  exists txt', strtod txt p = Some (negative_number s, p + zlen (45 :: s), txt') /\
    at_text txt' (p + zlen (45 :: s)) (c :: rest) /\ length txt' = length txt.
Proof.
  intros Hs Hc Hz Ha. pose proof Hs as (Hne & Hd & Hdots). unfold strtod.
  destruct (at_upd _ _ _ _ 48 Ha) as (txt' & Hu & Ha' & Hl). exists txt'.
  assert (Hs' : number_token (48 :: s)).
  { split; [done|]. split; [by constructor|]. unfold dots in *. rewrite filter_cons, decide_False by done. done. }
  rewrite (skip_spec isspace txt [] p 45 (s ++ c :: rest)); [|exact Ha|constructor|done].
  rewrite zlen_nil, Z.add_0_r. cbn [mbind option_bind]. rewrite (at_head _ _ _ _ Ha). cbn [mbind option_bind].
  assert (Hhd : exists x s', s = x :: s' /\ dotted x = true).
  { destruct s as [|x s']; [done|]. apply Forall_cons_1 in Hd as [Hx _]. eauto. }
  destruct Hhd as (x & s' & Es & Hx).
  pose proof (at_tail _ _ _ _ Ha) as Ht. rewrite Es in Ht. simpl in Ht. rewrite Z.eqb_refl, (at_head _ _ _ _ Ht).
  cbn [mbind option_bind].
  assert (H32 : (x =? 32) = false) by (unfold dotted, isdigit in Hx; zbool; lia). rewrite H32.
  cbn [negb]. rewrite Hu. cbn [mbind option_bind]. rewrite (at_head _ _ _ _ Ha'). cbn [mbind option_bind orb Z.eqb Pos.eqb].
  rewrite (number_end _ _ (48 :: s) _ _ Hs' Hc Ha'). cbn [mbind option_bind].
  rewrite (c_string_spec _ _ _ Ha'); [|apply elem_of_cons; right; apply elem_of_app; by right].
  cbn [mbind option_bind]. split; [|split; [by eapply (at_app _ _ (48 :: s))|done]].
  change (48 :: s ++ c :: rest) with ((48 :: s) ++ c :: rest). rewrite until_zero_app by apply Hs'.
  rewrite atof_token by done. done.
Qed.

(** The names that are read as variables, whatever follows them. *)
Definition name_ok (x : bytes) : bool :=
  bool_decide (x = [43]) ||
  match x with
  | [] => false
  | c :: _ =>
      forallb (fun c => negb (is_separator c)) x && negb (c =? 34) && negb (isspace c) &&
      negb (dotted c) && negb (c =? 43) && negb (c =? 45) &&
      negb (begins inf_text x) && negb (begins nan_text x)
  end.

(** The characters a token may have. *)
Lemma name_chars x : name_ok x = true -> x <> [] /\ Forall (fun c => negb (is_separator c) = true) x /\
  x !! 0%nat <> Some 34.
Proof.
  unfold name_ok. intros [Hx|Hx]%orb_true_iff.
  - apply bool_decide_eq_true in Hx as ->. split; [done|]. split; [by repeat constructor|done].
  - destruct x as [|c x]; [done|]. rewrite !andb_true_iff in Hx.
    destruct Hx as [[[[[[[Hs H34] _] _] _] _] _] _]. split; [done|]. split.
    + apply Forall_forall. intros y Hy. eapply forallb_forall in Hs; [exact Hs|]. by first [done|apply list_elem_of_In].
    + intros [= ->]. done.
Qed.

Lemma strtod_sign txt p b c rest : (b = 43 \/ b = 45 /\ c = 32) -> is_separator c = true ->
  at_text txt p (b :: c :: rest) -> strtod txt p = Some (d_zero, p, txt).
Proof.
  intros Hb Hc Ha. unfold strtod.
  assert (Hsp : isspace b = false) by (unfold isspace; zbool; lia).
  rewrite (skip_spec isspace txt [] p b (c :: rest)); [|exact Ha|constructor|done].
  rewrite zlen_nil, Z.add_0_r. cbn [mbind option_bind]. rewrite (at_head _ _ _ _ Ha). cbn [mbind option_bind].
  pose proof (at_tail _ _ _ _ Ha) as Ht. rewrite (at_head _ _ _ _ Ht). cbn [mbind option_bind].
  assert (Hneg : (if b =? 45 then Some (negb (c =? 32)) else Some false) = Some false)
    by by destruct Hb as [->|[-> ->]].
  rewrite Hneg. cbn [mbind option_bind]. rewrite (at_head _ _ _ _ Ha). cbn [mbind option_bind].
  assert (Hs : (b =? 43) || (b =? 45) = true) by by destruct Hb as [->|[-> ->]].
  rewrite Hs, (name_end txt (p + 1) [] c rest); [done|done|done| |done|exact Ht].
  simpl. destruct (dotted c) eqn:E; [|done]. apply dotted_not_sep in E. congruence.
Qed.

Lemma strtod_name txt p x c rest : name_ok x = true -> is_separator c = true ->
  at_text txt p (x ++ c :: rest) -> strtod txt p = Some (d_zero, p, txt).
Proof.
  unfold name_ok. intros [Hx|Hx]%orb_true_iff Hc Ha.
  { apply bool_decide_eq_true in Hx as ->. eapply strtod_sign; [by left|done|exact Ha]. }
  destruct x as [|b x]; [done|]. rewrite !andb_true_iff in Hx.
  destruct Hx as [[[[[[[_ _] Hsp] Hd] H43] H45] Hinf] Hnan].
  apply negb_true_iff in Hsp, Hd, H43, H45, Hinf, Hnan. unfold strtod.
  rewrite (skip_spec isspace txt [] p b (x ++ c :: rest)); [|exact Ha|constructor|done].
  rewrite zlen_nil, Z.add_0_r. cbn [mbind option_bind]. rewrite (at_head _ _ _ _ Ha). cbn [mbind option_bind].
  rewrite H45. cbn [mbind option_bind]. rewrite (at_head _ _ _ _ Ha). cbn [mbind option_bind].
  rewrite H43, H45. cbn [orb].
  by rewrite (name_end txt p (b :: x) c rest) by done.
Qed.

(** * String literals *)

(** A string without quotes and escapes stands for itself. *)
Definition plain_string (s : bytes) : Prop := Forall (fun c => c <> 0 /\ c <> 34 /\ c <> 92) s.

Lemma string_loop_plain txt s : forall fuel p rest acc, at_text txt p (s ++ 34 :: rest) ->
  (length s < fuel)%nat -> plain_string s ->
  string_loop fuel txt p acc false 0 0 = Some (acc ++ s, p + zlen s).
Proof.
  induction s as [|c s IH]; intros fuel p rest acc Ha Hf Hs; (destruct fuel; [simpl in Hf; lia|]);
    cbn [string_loop]; rewrite (at_head _ _ _ _ Ha); cbn [mbind option_bind].
  - cbn. rewrite zlen_nil, app_nil_r. by rewrite Z.add_0_r.
  - apply Forall_cons_1 in Hs as [(H0 & H34 & H92) Hs].
    assert (E : (c =? 0) || negb false && (c =? 34) = false) by (cbn; zbool; lia). rewrite E.
    cbn [negb Z.eqb]. zif_false. rewrite (IH fuel (p + 1) rest); [|by eapply at_tail|simpl in Hf; lia|done].
    rewrite <- app_assoc, zlen_cons. simpl. do 2 f_equal. lia.
Qed.

(** * The code in the heap *)

(** The nodes of an expression that only its parent holds: at [p] in [C], with
    [nx] as the next of its list. *)
Inductive lays : heap -> Z -> sexp -> Z -> Prop :=
  | lays_num p d nx : p <> 0 ->
      lays {[p := NValue (mk_value (VNumber d) nx 1 JLVALUE_NUMBER)]} p (SNum d) nx
  | lays_str p s nx : p <> 0 ->
      lays {[p := NValue (mk_value (VStr s) nx 1 JLVALUE_STRING)]} p (SStr s) nx
  | lays_var p x nx : p <> 0 ->
      lays {[p := NValue (mk_value (VStr x) nx 1 JLVALUE_VARIABLE)]} p (SVar x) nx
  | lays_lst p q es nx C : p <> 0 -> C !! p = None -> lays_list C q es ->
      lays (<[p := NValue (mk_value (VLst q) nx 1 JLVALUE_LIST)]> C) p (SList es) nx
with lays_list : heap -> Z -> list sexp -> Prop :=
  | lays_nil : lays_list ∅ 0 []
  | lays_cons C1 C2 p e q es : C1 ##ₘ C2 -> lays C1 p e q -> lays_list C2 q es ->
      lays_list (C1 ∪ C2) p (e :: es).

Scheme lays_mind := Minimality for lays Sort Prop
with lays_list_mind := Minimality for lays_list Sort Prop.
Combined Scheme lays_both from lays_mind, lays_list_mind.

(** The node of an expression, and a new next for it. *)
Lemma lays_next C p e nx q : lays C p e nx -> exists v,
  C !! p = Some (NValue v) /\ v_next v = nx /\ v_count v = 1 /\
  lays (<[p := NValue (with_next q v)]> C) p e q.
Proof.
  intros Hl. destruct Hl as [p d nx Hp|p s nx Hp|p x nx Hp|p q' es nx C Hp HC Hl].
  - eexists. rewrite lookup_singleton_eq, insert_singleton_eq. do 3 (split; [done|]). by constructor.
  - eexists. rewrite lookup_singleton_eq, insert_singleton_eq. do 3 (split; [done|]). by constructor.
  - eexists. rewrite lookup_singleton_eq, insert_singleton_eq. do 3 (split; [done|]). by constructor.
  - eexists. rewrite lookup_insert_eq, insert_insert_eq. do 3 (split; [done|]). by constructor.
Qed.

Lemma lays_pos C p e nx : lays C p e nx -> p <> 0.
Proof. by destruct 1. Qed.

(** * Literals *)

(** The atoms and their texts, before the character [c]. *)
Inductive atom_written : sexp -> bytes -> Z -> Prop :=
  | wr_num s c : number_token s -> is_separator c = true -> atom_written (SNum (number s)) s c
  | wr_neg s c : number_token s -> is_separator c = true ->
      atom_written (SNum (negative_number s)) (45 :: s) c
  | wr_str s c : plain_string s -> atom_written (SStr s) (34 :: s ++ [34]) c
  | wr_var x c : name_ok x = true -> is_separator c = true -> atom_written (SVar x) x c
  | wr_minus : atom_written (SVar [45]) [45] 32.

(** What reading an expression leaves: its code next to the heap, and the text
    from its end on. *)
Definition read_post (st : JLContext) (e : sexp) (s : bytes) (n : nat) (r : Z * cursor)
    (st' : JLContext) : Prop :=
  at_text r.2.1 r.2.2 s /\ length r.2.1 = n /\
  (exists C, lays C r.1 e 0 /\ C ##ₘ nodes st /\ nodes st' = C ∪ nodes st) /\
  pool_ok st' /\ rest_of st' = rest_of st.

(** A fresh node that becomes an atom. *)
Lemma wp_atom {A} u tag e p st0 st1 (k : M A) Q :
  nodes st0 !! p = None -> nodes st1 = <[p := NValue (mk_value VUndef 0 1 JLVALUE_NIL)]> (nodes st0) ->
  pool_ok st1 -> lays {[p := NValue (mk_value u 0 1 tag)]} p e 0 ->
  (forall st', (exists C, lays C p e 0 /\ C ##ₘ nodes st0 /\ nodes st' = C ∪ nodes st0) ->
     pool_ok st' -> rest_of st' = rest_of st1 -> wp k Q st') ->
  wp (update_value p (fun v => with_tag tag (with_value u v));; k) Q st1.
Proof.
  intros Hp Hn Hok Hl HQ. apply wp_bind.
  assert (E : nodes st1 !! p = Some (NValue (mk_value VUndef 0 1 JLVALUE_NIL))) by by rewrite Hn, lookup_insert_eq.
  eapply wp_update_value; [exact E|]. apply HQ; [|by eapply pool_ok_update|done].
  eexists. split; [exact Hl|]. split; [by apply map_disjoint_singleton_l|]. cbn.
  by rewrite Hn, insert_insert_eq, insert_union_singleton_l.
Qed.

(** A token that is not a string. *)
Lemma wp_token txt s c rest p st e d end_ txt' u tag :
  pool_ok st -> at_text txt p (s ++ c :: rest) -> s <> [] -> s !! 0%nat <> Some 34 ->
  Forall (fun c => negb (is_separator c) = true) s -> is_separator c = true ->
  strtod txt p = Some (d, end_, txt') -> at_text txt' (p + zlen s) (c :: rest) ->
  length txt' = length txt ->
  (if negb (p + zlen s =? end_) then (u, tag) = (VStr s, JLVALUE_VARIABLE)
   else (u, tag) = (VNumber d, JLVALUE_NUMBER)) ->
  (forall q, q <> 0 -> lays {[q := NValue (mk_value u 0 1 tag)]} q e 0) -> txt' = txt \/ negb (p + zlen s =? end_) = false ->
  wp (ParseLiteral (txt, p)) (read_post st e (c :: rest) (length txt)) st.
Proof.
  intros Hok Ha Hne H34 Hs Hc Hd Ha' Hlen Hu Hl Htxt. unfold ParseLiteral. apply wp_bind, wp_CreateValue; [done|].
  intros q st1 Hq Hfresh Hn1 Hr1 Hp1. apply wp_bind.
  assert (Hhd : exists x, znth txt p = Some x /\ (x =? 34) = false).
  { destruct s as [|x s]; [done|]. exists x. split; [by eapply at_head|]. apply Z.eqb_neq. intros ->. done. }
  destruct Hhd as (x & Hx & Hx34). eapply wp_lift; [exact Hx|]. rewrite Hx34.
  apply wp_bind. eapply wp_lift.
  { eapply (skip_spec _ _ s); [exact Ha|done|]. by rewrite Hc. }
  replace (p + zlen s - p) with (zlen s) by lia.
  apply wp_bind. eapply wp_lift; [exact Hd|]. cbv beta iota.
  destruct (negb (p + zlen s =? end_)); injection Hu as -> ->.
  - destruct Htxt as [->|?]; [|done]. rewrite (at_take _ _ _ _ Ha).
    eapply wp_atom; [exact Hfresh|done|done|by apply Hl|]. intros st2 HC Hp2 Hr2. apply wp_ret.
    split; [done|]. split; [done|]. split; [done|]. split; [done|congruence].
  - eapply wp_atom; [exact Hfresh|done|done|by apply Hl|]. intros st2 HC Hp2 Hr2. apply wp_ret.
    split; [done|]. split; [done|]. split; [done|]. split; [done|congruence].
Qed.

Lemma number_chars s : number_token s ->
  Forall (fun c => negb (is_separator c) = true) s /\ s !! 0%nat <> Some 34.
Proof.
  intros (Hne & Hs & _). split.
  - eapply Forall_impl; [|exact Hs]. intros c Hc. simpl in Hc. by rewrite dotted_not_sep.
  - destruct s as [|x s]; [done|]. intros [= ->]. apply Forall_cons_1 in Hs as [? _]. done.
Qed.

Lemma wp_ParseLiteral e s c rest txt p st : atom_written e s c -> pool_ok st -> 0 ∈ c :: rest ->
  at_text txt p (s ++ c :: rest) ->
  wp (ParseLiteral (txt, p)) (read_post st e (c :: rest) (length txt)) st.
Proof.
  intros Hw Hok Hz Ha. pose proof (at_app _ _ _ _ Ha) as Hend.
  destruct Hw as [s c Hs Hc|s c Hs Hc|s c Hs|x c Hx Hc|].
  - destruct (number_chars s Hs) as [Hch H34].
    eapply wp_token; [done|done|apply Hs|done|done|done|by eapply strtod_number|done|done| |by constructor|by left].
    by rewrite Z.eqb_refl.
  - destruct (number_chars s Hs) as [Hch H34].
    destruct (strtod_negative txt p s c rest) as (txt' & Hd & Ha' & Hl); [done|done|done|done|].
    eapply wp_token; [done|done|done|done|by constructor|done|exact Hd|done|done| |by constructor|right; by rewrite Z.eqb_refl].
    by rewrite Z.eqb_refl.
  - unfold ParseLiteral. apply wp_bind, wp_CreateValue; [done|].
    intros q st1 Hq Hfresh Hn1 Hr1 Hp1. apply wp_bind. rewrite <- app_comm_cons, <- app_assoc in Ha.
    eapply wp_lift; [by eapply at_head|]. cbn [Z.eqb Pos.eqb]. apply wp_bind.
    pose proof (at_tail _ _ _ _ Ha) as Ht. eapply wp_lift.
    { eapply string_loop_plain; [exact Ht| |done].
      apply at_length in Ht. rewrite length_app in Ht. simpl in Ht. unfold text_fuel. lia. }
    eapply wp_atom; [exact Hfresh|done|done|by constructor|]. intros st2 HC Hp2 Hr2.
    pose proof (at_app _ _ _ _ Ht) as Hq2. apply wp_bind. eapply wp_lift; [by eapply at_head|].
    apply wp_ret. split; [by eapply at_tail|]. split; [done|]. split; [done|]. split; [done|congruence].
  - destruct (name_chars x Hx) as (Hne & Hch & H34).
    eapply wp_token; [done|done|done|done|done|done|by eapply strtod_name|done|done| |by constructor|by left].
    assert (E : (p + zlen x =? p) = false).
    { apply Z.eqb_neq. destruct x; [done|]. rewrite zlen_cons. pose proof (zlen_nonneg x). lia. }
    by rewrite E.
  - eapply (wp_token txt [45]); [done|exact Ha|done|done|by repeat constructor|done|eapply strtod_sign; [by right|done|exact Ha]|done|done| |by constructor|by left].
    assert (E : (p + zlen [45] =? p) = false) by (apply Z.eqb_neq; unfold zlen; simpl; lia).
    by rewrite E.
Qed.

(** * Blanks *)

(** White space within a line, and comments with the end of their line. *)
Inductive blank : bytes -> Prop :=
  | blank_nil : blank []
  | blank_space c w : c = 9 \/ c = 13 \/ c = 32 -> blank w -> blank (c :: w)
  | blank_comment s w : Forall (fun c => negb (c =? 0) && negb (c =? 10) = true) s -> blank w ->
      blank (59 :: s ++ 10 :: w).

Definition blank_char (c : Z) : bool := existsb (Z.eqb c) [9; 10; 13; 32; 59].

Lemma wp_skip_space w : blank w -> forall fuel txt p c rest (Q : Z -> JLContext -> Prop) st,
  at_text txt p (w ++ c :: rest) -> blank_char c = false -> (length w < fuel)%nat ->
  Q (p + zlen w) st -> wp (skip_space fuel txt p) Q st.
Proof.
  induction 1 as [|b w Hb _ IH|s w Hs _ IH]; intros fuel txt p c rest Q st Ha Hc Hf HQ;
    (destruct fuel as [|fuel]; [simpl in Hf; lia|]); cbn [skip_space]; apply wp_bind;
    (eapply wp_lift; [by eapply at_head|]).
  - unfold blank_char in Hc. cbn [existsb] in Hc. rewrite !orb_false_iff in Hc.
    destruct Hc as (H9 & H10 & H13 & H32 & H59 & _). rewrite H59, H10, H9, H32, H13. cbn [negb andb].
    apply wp_ret. by rewrite zlen_nil, Z.add_0_r in HQ.
  - assert (E : (b =? 59) = false /\ (b =? 10) = false /\ negb (b =? 9) && negb (b =? 32) && negb (b =? 13) = false).
    { destruct Hb as [-> | [-> | ->]]; done. }
    destruct E as (-> & -> & ->). eapply IH; [by eapply at_tail|done|simpl in Hf; lia|].
    rewrite zlen_cons in HQ. by replace (p + 1 + zlen w) with (p + (1 + zlen w)) by lia.
  - cbn [Z.eqb Pos.eqb]. apply wp_bind. rewrite <- app_comm_cons, <- app_assoc in Ha.
    eapply wp_lift.
    { apply (skip_spec _ txt (59 :: s) p 10 (w ++ c :: rest)); [exact Ha|by constructor|done]. }
    pose proof (at_app txt p (59 :: s) _ Ha) as Ha'. eapply IH; [by eapply at_tail| done| |].
    { simpl in Hf. rewrite length_app in Hf. simpl in Hf. lia. }
    rewrite zlen_cons in *. revert HQ. unfold zlen. rewrite length_app. simpl.
    by match goal with |- Q ?a _ -> Q ?b _ => replace b with a by lia end.
Qed.

Lemma blank_head w c rest : blank w -> exists x w', w ++ c :: rest = x :: w' /\
  (w = [] /\ x = c \/ (x =? 0) || (x =? 41) = false).
Proof.
  destruct 1 as [|b w' Hb _|s w' _ _]; [exists c, rest; split; [done|by left]|..]; eexists _, _; (split; [done|]); right.
  - destruct Hb as [-> | [-> | ->]]; done.
  - done.
Qed.

(** * Expressions *)

(** The texts of expressions, before a character. *)
Inductive written : sexp -> bytes -> Z -> Prop :=
  | wr_atom e s c : atom_written e s c -> written e s c
  | wr_list es its c : items_written es its -> written (SList es) (40 :: its) c
with items_written : list sexp -> bytes -> Prop :=
  | wi_end w : blank w -> items_written [] (w ++ [41])
  | wi_item w e s c rest es : blank w -> written e s c -> items_written es (c :: rest) ->
      items_written (e :: es) (w ++ s ++ c :: rest).

Scheme written_mind := Minimality for written Sort Prop
with items_written_mind := Minimality for items_written Sort Prop.

Lemma atom_head e s c : atom_written e s c -> exists x s', s = x :: s' /\ is_separator x = false.
Proof.
  assert (Hn : forall s, number_token s -> exists x s', s = x :: s' /\ is_separator x = false).
  { intros [|x s'] (Hne & Hs & _); [done|]. apply Forall_cons_1 in Hs as [Hx _].
    eauto using dotted_not_sep. }
  destruct 1 as [s c Hs Hc|s c Hs Hc|s c Hs|x c Hx Hc|]; [auto|by eexists _, _..| |by eexists _, _].
  destruct (name_chars x Hx) as (Hne & Hch & _). destruct x as [|b x]; [done|].
  apply Forall_cons_1 in Hch as [Hb _]. apply negb_true_iff in Hb. eauto.
Qed.

Lemma sep_blank x : is_separator x = false -> blank_char x = false /\ (x =? 0) || (x =? 41) = false /\ (x =? 40) = false.
Proof.
  unfold is_separator, blank_char. cbn [existsb]. rewrite !orb_false_iff.
  intros (-> & -> & -> & -> & -> & -> & -> & -> & _). done.
Qed.

Definition place_node (i : place) : Z := match i with PLst p => p | PNext p => p end.
Definition place_fun (i : place) (q : Z) (v : JLValue) : JLValue :=
  match i with PLst _ => with_value (VLst q) v | PNext _ => with_next q v end.

Lemma wp_place_set i q v (Q : unit -> JLContext -> Prop) st :
  nodes st !! place_node i = Some (NValue v) ->
  Q tt (set_nodes (<[place_node i := NValue (place_fun i q v)]> (nodes st)) st) ->
  wp (place_set i q) Q st.
Proof. intros Hv HQ. by destruct i; eapply wp_update_value. Qed.

(** What reading the items of a list leaves: its code, linked to the place. *)
Definition items_post (st : JLContext) (i : place) (v : JLValue) (es : list sexp) (s : bytes) (n : nat)
    (r : cursor) (st' : JLContext) : Prop :=
  at_text r.1 r.2 s /\ length r.1 = n /\
  (exists C q, lays_list C q es /\ C ##ₘ nodes st /\
     nodes st' = C ∪ <[place_node i := NValue (place_fun i q v)]> (nodes st)) /\
  pool_ok st' /\ rest_of st' = rest_of st.

Lemma read_atom e s c : atom_written e s c ->
  forall fuel txt p w rest st, blank w -> (length s <= fuel)%nat -> pool_ok st -> 0 ∈ c :: rest ->
  at_text txt p (w ++ s ++ c :: rest) ->
  wp (ParseExpression fuel (txt, p)) (read_post st e (c :: rest) (length txt)) st.
Proof.
  intros Ha fuel txt p w rest st Hw Hf Hok Hz Hat. destruct (atom_head _ _ _ Ha) as (x & s' & -> & Hx).
  destruct (sep_blank _ Hx) as (Hb & Hend & H40).
  destruct fuel as [|fuel]; [simpl in Hf; lia|]. cbn [ParseExpression fst snd]. apply wp_bind.
  eapply (wp_skip_space w); [done|exact Hat|done| |].
  { apply at_length in Hat. rewrite length_app in Hat. unfold text_fuel. lia. }
  apply at_app in Hat. apply wp_bind. eapply wp_lift; [by eapply at_head|]. rewrite Hend, H40.
  by eapply wp_ParseLiteral.
Qed.

Lemma read_list es its c :
  (forall fuel n txt p rest st i v, (length its <= fuel)%nat -> (length its <= n)%nat -> pool_ok st ->
     0 ∈ rest -> at_text txt p (its ++ rest) -> nodes st !! place_node i = Some (NValue v) ->
     place_fun i 0 v = v ->
     wp (parse_items (ParseExpression fuel) n i (txt, p)) (items_post st i v es (41 :: rest) (length txt)) st) ->
  forall fuel txt p w rest st, blank w -> (length (40%Z :: its) <= fuel)%nat -> pool_ok st -> 0 ∈ c :: rest ->
  at_text txt p (w ++ (40 :: its) ++ c :: rest) ->
  wp (ParseExpression fuel (txt, p)) (read_post st (SList es) (c :: rest) (length txt)) st.
Proof.
  intros IH fuel txt p w rest st Hw Hf Hok Hz Hat.
  destruct fuel as [|fuel]; [simpl in Hf; lia|]. cbn [ParseExpression fst snd]. apply wp_bind.
  eapply (wp_skip_space w); [done|exact Hat|done| |].
  { apply at_length in Hat. rewrite length_app in Hat. unfold text_fuel. lia. }
  apply at_app in Hat. apply wp_bind. eapply wp_lift; [by eapply at_head|]. cbn [Z.eqb Pos.eqb orb].
  unfold ParseList. apply wp_bind, wp_CreateValue; [done|].
  intros q st1 Hq Hfresh Hn1 Hr1 Hp1. apply wp_bind.
  assert (Hq1 : nodes st1 !! q = Some (NValue (mk_value VUndef 0 1 JLVALUE_LIST))) by by rewrite Hn1, lookup_insert_eq.
  eapply wp_update_value; [exact Hq1|]. set (st2 := set_nodes _ st1).
  set (v := mk_value (VLst 0) 0 1 JLVALUE_LIST).
  assert (Hn2 : nodes st2 = <[q := NValue v]> (nodes st)) by by cbn; rewrite Hn1, insert_insert_eq.
  assert (Hp2 : pool_ok st2) by by eapply pool_ok_update.
  apply wp_bind. eapply wp_mono.
  { apply (IH fuel fuel txt _ (c :: rest) st2 (PLst q) v); [simpl in Hf; lia..|done|done| | |done].
    - by eapply at_tail.
    - by rewrite Hn2, lookup_insert_eq. }
  intros [txt' p'] st3 (Hat3 & Hl3 & (C & q' & HC & Hd & Hn3) & Hp3 & Hr3). cbn [fst snd] in Hat3, Hl3.
  cbv beta iota. apply wp_bind. eapply wp_lift; [by eapply at_head|]. cbn [Z.eqb Pos.eqb negb].
  apply wp_ret. split; [by eapply at_tail|]. split; [done|]. split; [|split; [done|by etransitivity; [exact Hr3|exact Hr1]]].
  rewrite Hn2 in Hd, Hn3. cbn [place_node place_fun] in Hn3. rewrite insert_insert_eq in Hn3.
  apply map_disjoint_insert_r in Hd as [HCq Hd].
  exists (<[q := NValue (with_value (VLst q') v)]> C). split; [by constructor|].
  split; [by apply map_disjoint_insert_l_2|]. rewrite Hn3. by rewrite <- insert_union_r, insert_union_l.
Qed.

Lemma read_end w : blank w ->
  forall fuel n txt p rest st i v, (length (w ++ [41%Z]) <= fuel)%nat -> (length (w ++ [41%Z]) <= n)%nat -> pool_ok st ->
  0 ∈ rest -> at_text txt p ((w ++ [41]) ++ rest) -> nodes st !! place_node i = Some (NValue v) ->
  place_fun i 0 v = v ->
  wp (parse_items (ParseExpression fuel) n i (txt, p)) (items_post st i v [] (41 :: rest) (length txt)) st.
Proof.
  intros Hw fuel n txt p rest st i v Hf Hn Hok Hz Hat Hi Hv. rewrite <- app_assoc in Hat. simpl in Hat.
  rewrite length_app in Hf, Hn. simpl in Hf, Hn.
  assert (Hpost : forall txt' p' , at_text txt' p' (41 :: rest) -> length txt' = length txt ->
    items_post st i v [] (41 :: rest) (length txt) (txt', p') st).
  { intros txt' p' Ha Hl. split; [done|]. split; [done|]. split; [|done]. exists ∅, 0.
    split; [constructor|]. split; [apply map_disjoint_empty_l|]. rewrite Hv, (left_id_L ∅ (∪)).
    symmetry. by apply insert_id. }
  destruct (blank_head w 41 rest Hw) as (x & w' & E & Hx). destruct n as [|n]; [lia|].
  cbn [parse_items fst snd]. apply wp_bind. rewrite E in Hat.
  eapply wp_lift; [by eapply at_head|]. rewrite <- E in Hat.
  destruct Hx as [[-> ->]| ->].
  - cbn [Z.eqb Pos.eqb orb]. apply wp_ret. by apply Hpost.
  - destruct fuel as [|fuel]; [lia|]. apply wp_bind. cbn [ParseExpression fst snd]. apply wp_bind.
    eapply (wp_skip_space w); [done|exact Hat|done| |].
    { apply at_length in Hat. rewrite length_app in Hat. unfold text_fuel. lia. }
    apply at_app in Hat. apply wp_bind. eapply wp_lift; [by eapply at_head|]. cbn [Z.eqb Pos.eqb orb].
    apply wp_ret. cbn [Z.eqb]. apply wp_ret. by apply Hpost.
Qed.

Lemma written_head e s c : written e s c -> exists x s', s = x :: s' /\ (x =? 0) || (x =? 41) = false.
Proof.
  destruct 1 as [e s c Ha|es its c _]; [|by eexists _, _].
  destruct (atom_head _ _ _ Ha) as (x & s' & -> & Hx). apply sep_blank in Hx as (_ & ? & _). eauto.
Qed.

(** What the two induction hypotheses say. *)
Definition reads (e : sexp) (s : bytes) (c : Z) : Prop :=
  forall fuel txt p w rest st, blank w -> (length s <= fuel)%nat -> pool_ok st -> 0 ∈ c :: rest ->
  at_text txt p (w ++ s ++ c :: rest) ->
  wp (ParseExpression fuel (txt, p)) (read_post st e (c :: rest) (length txt)) st.

Definition reads_items (es : list sexp) (its : bytes) : Prop :=
  forall fuel n txt p rest st i v, (length its <= fuel)%nat -> (length its <= n)%nat -> pool_ok st ->
  0 ∈ rest -> at_text txt p (its ++ rest) -> nodes st !! place_node i = Some (NValue v) ->
  place_fun i 0 v = v ->
  wp (parse_items (ParseExpression fuel) n i (txt, p)) (items_post st i v es (41 :: rest) (length txt)) st.

Lemma read_item w e s c rs es : blank w -> written e s c -> reads e s c -> reads_items es (c :: rs) ->
  reads_items (e :: es) (w ++ s ++ c :: rs).
Proof.
  intros Hw Hwr He Hes fuel n txt p rest st i v Hf Hn Hok Hz Hat Hi Hv.
  destruct (written_head _ _ _ Hwr) as (x & s' & Es & Hx).
  rewrite !length_app in Hf, Hn. simpl in Hf, Hn. rewrite <- !app_assoc in Hat. simpl in Hat.
  destruct n as [|n]; [lia|]. cbn [parse_items fst snd]. apply wp_bind.
  assert (Hhd : exists y, znth txt p = Some y /\ (y =? 0) || (y =? 41) = false).
  { pose proof Hat as Hat'. rewrite Es in Hat'. simpl in Hat'.
    destruct (blank_head w x (s' ++ c :: rs ++ rest) Hw) as (y & w' & E & Hy). rewrite E in Hat'.
    exists y. split; [by eapply at_head|]. by destruct Hy as [[_ ->]|?]. }
  destruct Hhd as (y & Hy & Hy'). eapply wp_lift; [exact Hy|]. rewrite Hy'. apply wp_bind.
  eapply wp_mono.
  { apply (He fuel txt p w (rs ++ rest) st); [done|lia|done| |exact Hat].
    apply elem_of_cons. right. apply elem_of_app. by right. }
  intros [q1 [txt1 p1]] st1 (Hat1 & Hl1 & (C1 & HC1 & Hd1 & Hn1) & Hp1 & Hr1). cbn [fst snd] in *.
  cbv beta iota. pose proof (lays_pos _ _ _ _ HC1) as Hq1. zif_false.
  assert (Hi1 : nodes st1 !! place_node i = Some (NValue v)).
  { rewrite Hn1, lookup_union_r; [done|]. by eapply map_disjoint_Some_r. }
  assert (HiC : C1 !! place_node i = None) by by eapply map_disjoint_Some_r.
  apply wp_bind. eapply wp_place_set; [exact Hi1|]. set (st2 := set_nodes _ st1).
  set (V := <[place_node i := NValue (place_fun i q1 v)]> (nodes st)).
  assert (Hn2 : nodes st2 = C1 ∪ V) by by cbn; rewrite Hn1, insert_union_r.
  assert (Hd2 : C1 ##ₘ V) by by apply map_disjoint_insert_r_2.
  destruct (lays_next _ _ _ _ 0 HC1) as (v1 & Hv1 & En & _).
  assert (Hls : (1 <= length s)%nat) by (rewrite Es; simpl; lia).
  eapply wp_mono.
  { eapply (Hes fuel n txt1 p1 rest st2 (PNext q1) v1); [simpl; lia|simpl; lia|by eapply pool_ok_update|done|exact Hat1| |].
    - cbn [place_node]. rewrite Hn2. by apply lookup_union_Some_l.
    - cbn. destruct v1. cbn in *. by subst. }
  intros line st3 (Hat3 & Hl3 & (C2 & q2 & HC2 & Hd3 & Hn3) & Hp3 & Hr3).
  destruct (lays_next _ _ _ _ q2 HC1) as (v1' & Hv1' & _ & _ & HC1').
  assert (v1' = v1) as -> by congruence.
  split; [done|]. split; [by rewrite Hl3|]. split; [|split; [done|by etransitivity; [exact Hr3|exact Hr1]]].
  rewrite Hn2 in Hd3, Hn3. apply map_disjoint_union_r in Hd3 as [Hd31 Hd3V].
  set (C1' := <[q1 := NValue (with_next q2 v1)]> C1) in *.
  assert (H21 : C2 ##ₘ C1').
  { apply map_disjoint_insert_r_2; [eapply map_disjoint_Some_r; [exact Hd31|exact Hv1]|done]. }
  assert (H1V : C1' ##ₘ V).
  { apply map_disjoint_insert_l_2; [eapply map_disjoint_Some_l; [exact Hd2|exact Hv1]|done]. }
  exists (C1' ∪ C2), q1. split; [by econstructor|]. split.
  - assert (Hst : forall X, X ##ₘ V -> X ##ₘ nodes st).
    { intros X HX. apply map_disjoint_spec. intros k n1 n2 H1 H2.
      destruct (decide (k = place_node i)) as [->|Hk].
      - eapply map_disjoint_spec in HX; [done|exact H1|apply lookup_insert_eq].
      - eapply map_disjoint_spec in HX; [done|exact H1|etransitivity; [by apply lookup_insert_ne|exact H2]]. }
    apply map_disjoint_union_l_2; by apply Hst.
  - rewrite Hn3. cbn [place_node place_fun].
    rewrite (map_union_comm C1' C2) by by symmetry. rewrite <- (assoc_L (∪)). f_equal.
    by rewrite insert_union_l.
Qed.

Lemma written_reads e s c : written e s c -> reads e s c.
Proof.
  apply (written_mind reads reads_items).
  - intros e' s' c' Ha. exact (read_atom _ _ _ Ha).
  - intros es its c' _ IH. exact (read_list _ _ _ IH).
  - intros w Hw. exact (read_end _ Hw).
  - intros w e' s' c' rest es Hw Hwr He _ Hes. by apply read_item.
Qed.

(** * The whole text *)

(** An expression is read up to the character that follows it. *)
Lemma wp_JLParse e s c txt p w rest st : written e s c -> blank w -> pool_ok st -> 0 ∈ c :: rest -> c <> 41 ->
  at_text txt p (w ++ s ++ c :: rest) ->
  wp (JLParse (txt, p)) (read_post st e (c :: rest) (length txt)) st.
Proof.
  intros He Hw Hok Hz Hc Hat. unfold JLParse. apply wp_bind. eapply wp_mono.
  { eapply (written_reads _ _ _ He _ txt p w rest st); [done| |done|done|done].
    apply at_length in Hat. rewrite !length_app in Hat. cbn [fst]. unfold text_fuel. lia. }
  intros [r [txt' p']] st' (Hat' & Hl & HC & Hp & Hr). cbn [fst snd] in *. cbv beta iota.
  apply wp_bind. eapply wp_lift; [by eapply at_head|]. zif_false. apply wp_ret. done.
Qed.

(** * Printing *)

(** Expressions with the digits of their numbers. *)
#[local] Unset Elimination Schemes.
Inductive texpr := TNum (neg : bool) (s : bytes) | TStr (s : bytes) | TVar (x : bytes) | TList (ts : list texpr).
#[local] Set Elimination Schemes.

Fixpoint texpr_ind (P : texpr -> Prop) (Hn : forall b s, P (TNum b s)) (Hs : forall s, P (TStr s))
    (Hv : forall x, P (TVar x)) (Hl : forall ts, Forall P ts -> P (TList ts)) (t : texpr) : P t :=
  match t with
  | TNum b s => Hn b s
  | TStr s => Hs s
  | TVar x => Hv x
  | TList ts =>
      Hl ts ((fix go ts : Forall P ts :=
        match ts with [] => Forall_nil_2 P | t :: ts => Forall_cons_2 P t ts (texpr_ind P Hn Hs Hv Hl t) (go ts) end) ts)
  end.

Fixpoint sexp_of (t : texpr) : sexp :=
  match t with
  | TNum false s => SNum (number s)
  | TNum true s => SNum (negative_number s)
  | TStr s => SStr s
  | TVar x => SVar x
  | TList ts => SList (map sexp_of ts)
  end.

(** A blank after every item. *)
Fixpoint text_of (t : texpr) : bytes :=
  match t with
  | TNum b s => if b then 45 :: s else s
  | TStr s => 34 :: s ++ [34]
  | TVar x => x
  | TList ts => 40 :: concat (map (fun t => text_of t ++ [32]) ts) ++ [41]
  end.

Definition number_ok (s : bytes) : bool :=
  negb (bool_decide (s = [])) && forallb dotted s && bool_decide (dots s <= 1)%nat.
Fixpoint texpr_ok (t : texpr) : bool :=
  match t with
  | TNum _ s => number_ok s
  | TStr s => forallb (fun c => negb (c =? 0) && negb (c =? 34) && negb (c =? 92)) s
  | TVar x => name_ok x || bool_decide (x = [45])
  | TList ts => forallb texpr_ok ts
  end.

Lemma forallb_Forall {A} (f : A -> bool) l : forallb f l = true -> Forall (fun x => f x = true) l.
Proof. induction l as [|x l IH]; simpl; [constructor|]. intros [? ?]%andb_true_iff. constructor; auto. Qed.

Lemma number_ok_token s : number_ok s = true -> number_token s.
Proof.
  unfold number_ok. rewrite !andb_true_iff, negb_true_iff, bool_decide_eq_false, bool_decide_eq_true.
  intros [[Hne Hs] Hd]. split; [done|]. split; [by apply forallb_Forall|done].
Qed.

(** The text of an expression is read as it, before a blank, and before any
    other separator but for a lone minus. *)
Lemma text_written t : forall c, texpr_ok t = true ->
  (c = 32 \/ is_separator c = true /\ t <> TVar [45]) -> written (sexp_of t) (text_of t) c.
Proof.
  induction t as [b s|s|x|ts IH] using texpr_ind; intros c Ht Hc; cbn [texpr_ok] in Ht;
    assert (Hsep : is_separator c = true) by by destruct Hc as [-> | [? _]].
  - apply number_ok_token in Ht. apply wr_atom. destruct b; by constructor.
  - apply wr_atom, wr_str. apply forallb_Forall in Ht. eapply Forall_impl; [|exact Ht].
    intros y Hy. simpl in Hy. zbool. lia.
  - apply orb_true_iff in Ht as [Hx|Hx]; [by apply wr_atom, wr_var|].
    apply bool_decide_eq_true in Hx as ->. destruct Hc as [-> | [_ ?]]; [|done]. by apply wr_atom, wr_minus.
  - apply wr_list. clear Hc Hsep.
    assert (H0 : forall w, blank w -> items_written (map sexp_of ts) (w ++ concat (map (fun t => text_of t ++ [32]) ts) ++ [41])).
    { induction IH as [|t ts Ht0 _ IHts]; intros w Hw; [by apply wi_end|].
      cbn [forallb] in Ht. apply andb_true_iff in Ht as [Ht1 Ht2]. cbn [map concat]. rewrite <- !app_assoc.
      apply wi_item; [done|apply Ht0; [done|by left]|]. apply (IHts Ht2 [32]).
      apply blank_space; [by right; right|constructor]. }
    apply (H0 []). constructor.
Qed.

End reader.
