(* ===== verification/JlProgram.v ===== *)
(** Programs at the JL console: what is read is evaluated as the reference
    interpreter says, and everything is given back. *)
From Stdlib Require Import SpecFloat.
From S2P Require Import Prelude CText JlHeap JlEval JlLogic JlScopes JlTree JlRef JlRepr JlFuncSpec JlParse JlReader JlSpec JlSession.

(** * Code as the evaluator sees it *)

(** No list is longer than [K]. *)
Fixpoint narrow (K : nat) (e : sexp) : bool :=
  match e with SList es => Nat.leb (length es) K && forallb (narrow K) es | _ => true end.

Lemma lays_codes_both K :
  (forall C p e nx, lays C p e nx -> narrow K e = true -> code_at K C p e) /\
  (forall C q es, lays_list C q es -> forallb (narrow K) es = true -> codes_at K C q es).
Proof.
  apply lays_both.
  - intros p d nx Hp _. eexists. split; [apply lookup_singleton_eq|done].
  - intros p s nx Hp _. eexists. split; [apply lookup_singleton_eq|done].
  - intros p x nx Hp _. eexists. split; [apply lookup_singleton_eq|done].
  - intros p q es nx C Hp HC _ IH [Hlen Hes]%andb_true_iff. eexists. split; [apply lookup_insert_eq|].
    split; [done|]. split; [by apply Nat.leb_le|]. exists q. split; [done|]. apply codes_unfold.
    eapply codes_sub; [by apply sub_fresh|]. by apply IH.
  - done.
  - intros C1 C2 p e q es Hd Hl1 IH1 Hl2 IH2 [He Hes]%andb_true_iff.
    destruct (lays_next _ _ _ _ 0 Hl1) as (v & Hv & En & _).
    assert (Hs1 : sub C1 (C1 ∪ C2)).
    { intros k n Hk. exists n. split; [by apply lookup_union_Some_l|apply same_node_refl]. }
    split; [by eapply lays_pos|]. split; [eapply code_sub; [exact Hs1|by apply IH1]|].
    exists v. split; [by apply lookup_union_Some_l|]. rewrite En.
    eapply codes_sub; [by apply sub_union_r|by apply IH2].
Qed.

Lemma lays_code K C p e nx : lays C p e nx -> narrow K e = true -> code_at K C p e.
Proof. apply lays_codes_both. Qed.
Lemma lays_list_code K C q es : lays_list C q es -> forallb (narrow K) es = true -> codes_at K C q es.
Proof. apply lays_codes_both. Qed.

(** * Its release *)

(** Releasing [q] in [D] leaves [R], whatever else is in the heap. *)
Record drops (D : heap) (q : Z) (R : heap) : Prop := {
  dr_dom : dom R ⊆ dom D;
  dr_run : forall fuel V (Q : unit -> JLContext -> Prop) st, (size D < fuel)%nat -> pool_ok st ->
    nodes st = D ∪ V -> D ##ₘ V ->
    (forall st', nodes st' = R ∪ V -> rest_of st' = rest_of st -> pool_ok st' -> Q tt st') ->
    wp (release_value fuel q) Q st }.

Lemma drops_nil : drops ∅ 0 ∅.
Proof.
  split; [done|]. intros fuel V Q st Hf Hok Hn Hd HQ.
  assert (E : release_value fuel 0 = mret tt) by by destruct fuel. rewrite E. by apply wp_ret, HQ.
Qed.

Lemma dom_disjoint (R D V : heap) : dom R ⊆ dom D -> D ##ₘ V -> R ##ₘ V.
Proof. rewrite !map_disjoint_dom. set_solver. Qed.

Lemma dom_None (R D : heap) p : dom R ⊆ dom D -> D !! p = None -> R !! p = None.
Proof. rewrite <- !not_elem_of_dom. set_solver. Qed.

(** The node goes back to the pool and the rest of its list is released. *)
Lemma drops_tail fuel p n nx D R V (Q : unit -> JLContext -> Prop) st : drops D nx R -> D ##ₘ V ->
  D !! p = None -> V !! p = None -> (size D < fuel)%nat -> pool_ok st ->
  nodes st = <[p := n]> (D ∪ V) ->
  (forall st', nodes st' = R ∪ V -> rest_of st' = rest_of st -> pool_ok st' -> Q tt st') ->
  wp (PutFree p;; release_value fuel nx) Q st.
Proof.
  intros [_ HD] Hd HDp HVp Hf Hok Hn HQ. apply wp_bind.
  eapply wp_PutFree; [done|by rewrite Hn, lookup_insert_eq|]. intros st1 Hn1 Hr1 Hp1.
  eapply HD; [done|done| |done|].
  - rewrite Hn1, Hn. apply delete_insert_id. by apply lookup_union_None.
  - intros st' Hn' Hr' Hp'. apply HQ; [done|congruence|done].
Qed.

(** What a node of code may be, other than a list. *)
Definition is_atom (u : jl_union) (tag : Z) : Prop :=
  (exists d, u = VNumber d /\ tag = JLVALUE_NUMBER) \/
  (exists s, u = VStr s /\ (tag = JLVALUE_STRING \/ tag = JLVALUE_VARIABLE)).

Lemma drops_atom p u tag nx D R : is_atom u tag -> p <> 0 -> D !! p = None -> drops D nx R ->
  drops (<[p := NValue (mk_value u nx 1 tag)]> D) p R.
Proof.
  intros Ha Hp HDp HD. split; [rewrite dom_insert_L; pose proof (dr_dom _ _ _ HD); set_solver|].
  intros fuel V Q st Hf Hok Hn Hd HQ. rewrite map_size_insert_None in Hf by done.
  apply map_disjoint_insert_l in Hd as [HVp Hd]. destruct fuel as [|fuel]; [lia|].
  cbn [release_value]. zif_false. apply wp_bind. rewrite <- insert_union_l in Hn.
  eapply wp_update_value; [by rewrite Hn, lookup_insert_eq|]. apply wp_bind.
  eapply wp_get_value; [cbn; apply lookup_insert_eq|]. cbn [with_count v_count v_tag v_value v_next].
  change (u32 (1 - 1)) with 0. cbn [Z.eqb]. set (st1 := set_nodes _ st).
  assert (Hp1 : pool_ok st1) by by eapply pool_ok_update; [|rewrite Hn, lookup_insert_eq].
  assert (Htail : wp (PutFree p;; release_value fuel nx) Q st1).
  { eapply drops_tail; [exact HD|done|done|done|lia|done| |].
    - cbn. by rewrite Hn, insert_insert_eq.
    - intros st' Hn' Hr' Hp'. by apply HQ. }
  destruct Ha as [(d & -> & ->)|(s & -> & [-> | ->])]; apply wp_bind; exact Htail.
Qed.

Lemma drops_list p q nx C D Rc Rd : p <> 0 -> C !! p = None -> D !! p = None -> C ##ₘ D ->
  drops C q Rc -> drops D nx Rd ->
  drops (<[p := NValue (mk_value (VLst q) nx 1 JLVALUE_LIST)]> (C ∪ D)) p (Rc ∪ Rd).
Proof.
  intros Hp HCp HDp HCD HC HD. pose proof (dr_dom _ _ _ HC) as HdC. pose proof (dr_dom _ _ _ HD) as HdD.
  split; [rewrite dom_insert_L, !dom_union_L; etransitivity; [by apply union_mono|apply union_subseteq_r]|].
  intros fuel V Q st Hf Hok Hn Hd HQ.
  rewrite map_size_insert_None, map_size_disj_union in Hf; [|done|by apply lookup_union_None].
  apply map_disjoint_insert_l in Hd as [HVp Hd]. apply map_disjoint_union_l in Hd as [HCV HDV].
  destruct fuel as [|fuel]; [lia|].
  cbn [release_value]. zif_false. apply wp_bind. rewrite <- insert_union_l in Hn.
  eapply wp_update_value; [by rewrite Hn, lookup_insert_eq|]. apply wp_bind.
  eapply wp_get_value; [cbn; apply lookup_insert_eq|]. cbn [with_count v_count v_tag v_value v_next].
  change (u32 (1 - 1)) with 0. cbn [Z.eqb Pos.eqb JLVALUE_LIST orb]. set (st1 := set_nodes _ st).
  assert (Hp1 : pool_ok st1) by by eapply pool_ok_update; [|rewrite Hn, lookup_insert_eq].
  set (n := NValue (mk_value (VLst q) nx 0 JLVALUE_LIST)). apply wp_bind, wp_bind. eapply wp_lift; [done|].
  assert (Hn1 : nodes st1 = C ∪ <[p := n]> (D ∪ V)).
  { cbn. rewrite Hn, insert_insert_eq, <- (assoc_L (∪)). by rewrite insert_union_r. }
  eapply (dr_run _ _ _ HC fuel (<[p := n]> (D ∪ V))); [lia|done|done| |].
  { apply map_disjoint_insert_r_2; [done|]. by apply map_disjoint_union_r_2. }
  intros st2 Hn2 Hr2 Hp2.
  assert (HRV : Rc ##ₘ V) by by eapply dom_disjoint.
  assert (HRD : Rc ##ₘ D) by by eapply dom_disjoint.
  assert (HRp : Rc !! p = None) by by eapply dom_None.
  eapply (drops_tail fuel p n nx D Rd (Rc ∪ V)); [exact HD| |done| |lia|done| |].
  - apply map_disjoint_union_r_2; [by symmetry|done].
  - by apply lookup_union_None.
  - rewrite Hn2, <- insert_union_r by done. f_equal. rewrite !(assoc_L (∪)). f_equal.
    by apply map_union_comm.
  - intros st' Hn' Hr' Hp'. apply HQ; [|by rewrite Hr', Hr2|done]. rewrite Hn', (assoc_L (∪)). f_equal.
    apply map_union_comm. symmetry. rewrite map_disjoint_dom in *. set_solver.
Qed.

(** A node that something else holds stays, with the rest of its list. *)
Lemma drops_held p v D : p <> 0 -> v_count v = 1 -> D !! p = None ->
  drops (<[p := NValue (with_count 2 v)]> D) p (<[p := NValue v]> D).
Proof.
  intros Hp Hc HDp. split; [by rewrite !dom_insert_L|]. intros fuel V Q st Hf Hok Hn Hd HQ.
  destruct fuel as [|fuel]; [lia|]. cbn [release_value]. zif_false. apply wp_bind. rewrite <- insert_union_l in Hn.
  eapply wp_update_value; [by rewrite Hn, lookup_insert_eq|]. apply wp_bind.
  eapply wp_get_value; [cbn; apply lookup_insert_eq|]. cbn [with_count v_count v_tag v_value v_next].
  change (u32 (2 - 1)) with 1. cbn [Z.eqb Pos.eqb]. apply wp_ret, HQ; [|done|].
  - cbn. rewrite Hn, insert_insert_eq, insert_union_l. destruct v. cbn in *. by subst.
  - by eapply pool_ok_update; [|rewrite Hn, lookup_insert_eq].
Qed.

(** Code that only its parent holds is freed. *)
Lemma lays_drops_both :
  (forall C p e nx, lays C p e nx -> forall D, drops D nx ∅ -> C ##ₘ D -> drops (C ∪ D) p ∅) /\
  (forall C q es, lays_list C q es -> drops C q ∅).
Proof.
  assert (Hatom : forall p u tag nx D, is_atom u tag -> p <> 0 -> drops D nx ∅ ->
    {[p := NValue (mk_value u nx 1 tag)]} ##ₘ D ->
    drops ({[p := NValue (mk_value u nx 1 tag)]} ∪ D) p ∅).
  { intros p u tag nx D Ha Hp HD Hd. apply map_disjoint_singleton_l in Hd.
    rewrite <- insert_union_singleton_l. by apply drops_atom. }
  apply lays_both.
  - intros p d nx Hp D HD Hd. apply Hatom; [left; eauto|done..].
  - intros p s nx Hp D HD Hd. apply Hatom; [right; eauto|done..].
  - intros p x nx Hp D HD Hd. apply Hatom; [right; eauto|done..].
  - intros p q es nx C Hp HCp _ IH D HD Hd. apply map_disjoint_insert_l in Hd as [HDp Hd].
    rewrite <- insert_union_l, <- (left_id_L ∅ (∪) (∅ : heap)). by apply drops_list.
  - apply drops_nil.
  - intros C1 C2 p e q es Hd _ IH1 _ IH2. by apply IH1.
Qed.

Lemma lays_list_drops C q es : lays_list C q es -> drops C q ∅.
Proof. apply lays_drops_both. Qed.

(** With one more reference to the node [r], its list from [r] on stays. *)
Definition keeps (D : heap) (q : Z) : Prop :=
  forall r v, D !! r = Some (NValue v) -> exists R es, lays_list R r es /\ R ⊆ D /\
    drops (<[r := NValue (with_count 2 v)]> D) q R.

Lemma lays_count_both :
  (forall C p e nx, lays C p e nx -> forall r v, C !! r = Some (NValue v) -> v_count v = 1) /\
  (forall C q es, lays_list C q es -> forall r v, C !! r = Some (NValue v) -> v_count v = 1).
Proof.
  apply lays_both; try (intros p ? nx _ r v [_ [= <-]]%lookup_singleton_Some; done).
  - intros p q es nx C _ _ _ IH r v [[_ [= <-]]|[_ Hr]]%lookup_insert_Some; eauto.
  - intros r v Hr. by rewrite lookup_empty in Hr.
  - intros C1 C2 p e q es _ _ IH1 _ IH2 r v [Hr|[_ Hr]]%lookup_union_Some_raw; eauto.
Qed.

Lemma lays_count C p e nx : lays C p e nx -> forall r v, C !! r = Some (NValue v) -> v_count v = 1.
Proof. apply lays_count_both. Qed.
Lemma lays_list_count C q es : lays_list C q es -> forall r v, C !! r = Some (NValue v) -> v_count v = 1.
Proof. apply lays_count_both. Qed.

Lemma keeps_held C D p v e nx es : lays C p e nx -> lays_list D nx es -> C ##ₘ D ->
  C !! p = Some (NValue v) ->
  exists R es, lays_list R p es /\ R ⊆ C ∪ D /\ drops (<[p := NValue (with_count 2 v)]> (C ∪ D)) p R.
Proof.
  intros Hl HD Hd Hp. exists (C ∪ D), (e :: es). split; [by eapply lays_cons|]. split; [done|].
  assert (Hp' : (C ∪ D) !! p = Some (NValue v)) by by apply lookup_union_Some_l.
  rewrite <- (insert_delete_id _ _ _ Hp') at 2. rewrite <- insert_delete_eq.
  apply drops_held; [by eapply lays_pos|by eapply lays_count|apply lookup_delete_eq].
Qed.

Lemma keeps_atom p u tag nx e D es : is_atom u tag -> lays {[p := NValue (mk_value u nx 1 tag)]} p e nx ->
  lays_list D nx es -> keeps D nx -> {[p := NValue (mk_value u nx 1 tag)]} ##ₘ D ->
  keeps ({[p := NValue (mk_value u nx 1 tag)]} ∪ D) p.
Proof.
  intros Ha Hl HD Hk Hd r v Hr. apply lookup_union_Some_raw in Hr as [Hr|[Hr HrD]].
  - pose proof Hr as [<- _]%lookup_singleton_Some. by eapply keeps_held.
  - apply lookup_singleton_None in Hr. destruct (Hk r v HrD) as (R & es' & HR & Hsub & Hdr).
    apply map_disjoint_singleton_l in Hd. rewrite <- insert_union_singleton_l.
    exists R, es'. split; [done|]. split; [etransitivity; [done|by apply insert_subseteq]|].
    rewrite insert_insert_ne by done. apply drops_atom; [done|by eapply lays_pos| |done].
    by rewrite lookup_insert_ne.
Qed.

Lemma keeps_list p q nx C D es es' : p <> 0 -> C !! p = None -> lays_list C q es -> keeps C q ->
  lays_list D nx es' -> keeps D nx -> <[p := NValue (mk_value (VLst q) nx 1 JLVALUE_LIST)]> C ##ₘ D ->
  keeps (<[p := NValue (mk_value (VLst q) nx 1 JLVALUE_LIST)]> C ∪ D) p.
Proof.
  intros Hp HCp HC HkC HD HkD Hd r v Hr. pose proof Hd as [HDp HCD]%map_disjoint_insert_l.
  set (n := NValue _) in *.
  assert (Hin : C ∪ D ⊆ <[p := n]> C ∪ D).
  { rewrite <- insert_union_l. apply insert_subseteq. by apply lookup_union_None. }
  apply lookup_union_Some_raw in Hr as [[[-> [= <-]]|[Hrp Hr]]%lookup_insert_Some|[Hr HrD]].
  - eapply keeps_held; [by constructor|exact HD|done|apply lookup_insert_eq].
  - destruct (HkC r v Hr) as (R & es2 & HR & Hsub & Hdr).
    assert (HDr : D !! r = None) by (eapply map_disjoint_Some_l; [exact HCD|exact Hr]).
    exists R, es2. split; [done|]. split.
    { etransitivity; [done|]. etransitivity; [apply map_union_subseteq_l|exact Hin]. }
    rewrite <- (right_id_L ∅ (∪) R). rewrite <- insert_union_l, insert_insert_ne, insert_union_l by done.
    apply drops_list; [done|by rewrite lookup_insert_ne|done|by apply map_disjoint_insert_l_2|done|].
    by eapply lays_list_drops.
  - apply lookup_insert_None in Hr as [Hr Hpr]. destruct (HkD r v HrD) as (R & es2 & HR & Hsub & Hdr).
    exists R, es2. split; [done|]. split.
    { etransitivity; [done|]. etransitivity; [by apply map_union_subseteq_r|exact Hin]. }
    rewrite <- (left_id_L ∅ (∪) R). rewrite <- insert_union_l, insert_insert_ne, insert_union_r by done.
    apply drops_list; [done|done|by rewrite lookup_insert_ne|by apply map_disjoint_insert_r_2| |done].
    by eapply lays_list_drops.
Qed.

Lemma lays_keeps_both :
  (forall C p e nx, lays C p e nx -> forall D es, lays_list D nx es -> keeps D nx -> C ##ₘ D -> keeps (C ∪ D) p) /\
  (forall C q es, lays_list C q es -> keeps C q).
Proof.
  apply lays_both.
  - intros p d nx Hp D es HD Hk Hd. eapply keeps_atom; [left; eauto|by constructor|done..].
  - intros p s nx Hp D es HD Hk Hd. eapply keeps_atom; [right; eauto|by constructor|done..].
  - intros p x nx Hp D es HD Hk Hd. eapply keeps_atom; [right; eauto|by constructor|done..].
  - intros p q es nx C Hp HCp HC IH D es' HD Hk Hd. by eapply keeps_list.
  - intros r v Hr. by rewrite lookup_empty in Hr.
  - intros C1 C2 p e q es Hd _ IH1 H2 IH2. by eapply IH1.
Qed.

Lemma lays_list_keeps C q es : lays_list C q es -> keeps C q.
Proof. apply lays_keeps_both. Qed.

(** * What a result owes *)

(** The release of [r] turns [ns] into [ns0], whatever else is in the heap. *)
Record owes (r : Z) (ns0 ns : heap) : Prop := {
  ow_dom : dom ns0 ⊆ dom ns;
  ow_run : forall X (Q : unit -> JLContext -> Prop) st, pool_ok st -> nodes st = X ∪ ns -> X ##ₘ ns ->
    (forall st', nodes st' = X ∪ ns0 -> rest_of st' = rest_of st -> pool_ok st' -> Q tt st') ->
    wp (JLRelease r) Q st }.

Lemma wp_JLRelease_drops D q R V (Q : unit -> JLContext -> Prop) st : drops D q R -> pool_ok st ->
  nodes st = D ∪ V -> D ##ₘ V ->
  (forall st', nodes st' = R ∪ V -> rest_of st' = rest_of st -> pool_ok st' -> Q tt st') ->
  wp (JLRelease q) Q st.
Proof.
  intros HD Hok Hn Hd HQ. eapply (dr_run _ _ _ HD (heap_fuel st)); [|done..].
  unfold heap_fuel. rewrite Hn, map_size_disj_union by done. lia.
Qed.

Lemma owes_drops r R ns : drops R r ∅ -> R ##ₘ ns -> owes r ns (R ∪ ns).
Proof.
  intros HR Hd. split; [rewrite dom_union_L; apply union_subseteq_r|].
  intros X Q st Hok Hn HX HQ. apply map_disjoint_union_r in HX as [HXR HXn].
  eapply (wp_JLRelease_drops R r ∅ (X ∪ ns)); [done|done| | |].
  - rewrite Hn, !(assoc_L (∪)). f_equal. by apply map_union_comm.
  - apply map_disjoint_union_r_2; [by symmetry|done].
  - intros st' Hn' Hr' Hp'. apply HQ; [|done|done]. by rewrite Hn', (left_id_L ∅ (∪)).
Qed.

Lemma owes_held r ns ns' : held r ns ns' -> owes r ns ns'.
Proof.
  intros Hh. split.
  { intros k Hk. apply elem_of_dom in Hk as [n Hn]. apply elem_of_dom.
    destruct (held_sub _ _ _ Hh _ _ Hn) as (n' & Hn' & _). by eexists. }
  intros X Q st Hok Hn HX HQ. destruct (held_disjoint_rev _ _ _ _ Hh HX) as [HX' HXr].
  eapply (wp_JLRelease r (X ∪ ns)); [done| |exact HQ]. rewrite Hn.
  destruct Hh as [[-> ->]|[Hr Ha]]; [by left|]. right. split; [done|]. apply acq_under; auto.
Qed.

Lemma held_code C ns r ns2 : held r (C ∪ ns) ns2 -> C ##ₘ ns ->
  (exists ns', ns2 = C ∪ ns' /\ held r ns ns' /\ C ##ₘ ns') \/
  (exists v, C !! r = Some (NValue v) /\ ns2 = <[r := NValue (with_count (v_count v + 1) v)]> C ∪ ns /\ r <> 0).
Proof.
  intros [[-> ->]|[Hr Ha]] Hd; [left; exists ns; split; [done|split; [by left|done]]|].
  destruct Ha as [v Hv Hc ->|u t Hv Hs ->].
  - apply lookup_union_Some_raw in Hv as [Hv|[Hv Hv']].
    + right. exists v. by rewrite insert_union_l.
    + left. exists (<[r := NValue (with_count (v_count v + 1) v)]> ns). rewrite insert_union_r by done.
      split; [done|]. split; [right; split; [done|by eapply acq_old]|by apply map_disjoint_insert_r_2].
  - apply lookup_union_None in Hv as [HC Hn]. left. exists (<[r := NValue (mk_value u 0 1 t)]> ns).
    rewrite insert_union_r by done.
    split; [done|]. split; [right; split; [done|by eapply acq_new]|by apply map_disjoint_insert_r_2].
Qed.

(** The release of the code that was evaluated, while its result is held: either
    the result is elsewhere, or the code's list from the result on stays. *)
Lemma wp_release_code C q es ns r (Q : unit -> JLContext -> Prop) st :
  lays_list C q es -> C ##ₘ ns -> pool_ok st -> held r (C ∪ ns) (nodes st) ->
  (forall st', rest_of st' = rest_of st -> pool_ok st' -> owes r ns (nodes st') ->
     sub (nodes st') (nodes st) -> (r <> 0 -> exists v, nodes st' !! r = Some (NValue v)) -> Q tt st') ->
  wp (JLRelease q) Q st.
Proof.
  intros Hl Hd Hok Hh HQ. destruct (held_code _ _ _ _ Hh Hd) as [(ns' & Hn & Hh' & Hd')|(v & Hv & Hn & Hr)].
  - eapply wp_JLRelease_drops; [by eapply lays_list_drops|done|exact Hn|done|].
    intros st' Hn' Hr' Hp'. rewrite (left_id_L ∅ (∪)) in Hn'. apply HQ; [done|done|..].
    + rewrite Hn'. by apply owes_held.
    + rewrite Hn, Hn'. by apply sub_union_r.
    + intros Hr. rewrite Hn'. destruct Hh' as [[? _]|[_ Ha]]; [done|]. by eapply acq_value.
  - destruct (lays_list_keeps _ _ _ Hl r v Hv) as (R & es' & HR & Hsub & Hdr).
    assert (Hc : v_count v = 1) by (eapply lays_list_count; [exact Hl|exact Hv]). rewrite Hc in Hn.
    assert (HRn : R ##ₘ ns) by by eapply map_disjoint_weaken_l.
    eapply wp_JLRelease_drops; [exact Hdr|done|exact Hn| |].
    { apply map_disjoint_insert_l_2; [eapply map_disjoint_Some_l; [exact Hd|exact Hv]|done]. }
    intros st' Hn' Hr' Hp'. apply HQ; [done|done|..].
    + rewrite Hn'. apply owes_drops; [by eapply lays_list_drops|done].
    + rewrite Hn'. eapply sub_trans; [|by eapply held_sub]. apply sub_subseteq.
      by apply map_union_mono_r.
    + intros _. inversion HR as [|C1 C2 p e q' es2 Hd12 Hl1 Hl2]; subst; [done|].
      destruct (lays_next _ _ _ _ 0 Hl1) as (w & Hw & _). exists w. rewrite Hn'.
      by apply lookup_union_Some_l, lookup_union_Some_l.
Qed.

(** * Lines of the console *)

Section program.
Context `{JLLib}.
Hypothesis atof_token : forall s c rest, number_token s -> is_separator c = true ->
  atof (s ++ until_zero (c :: rest)) = atof s.

(** A text of expressions, up to its zero. *)
Inductive program_written : list sexp -> bytes -> Prop :=
  | pw_end w junk : blank w -> program_written [] (w ++ 0 :: junk)
  | pw_item w e s c rest es : blank w -> written e s c -> program_written es (c :: rest) ->
      program_written (e :: es) (w ++ s ++ c :: rest).

Lemma program_zero es s : program_written es s -> 0 ∈ s.
Proof.
  induction 1 as [w junk _|w e s c rest es _ _ _ IH]; apply elem_of_app; right; [left|].
  apply elem_of_app. by right.
Qed.

Lemma program_head es s c rest : program_written es s -> s = c :: rest -> c <> 41.
Proof.
  intros Hp. destruct Hp as [w junk Hw|w e s c' rest' es Hw Hwr _]; intros E.
  - destruct (blank_head w 0 junk Hw) as (x & w' & E' & Hx). rewrite E' in E. injection E as -> _.
    destruct Hx as [[_ ->]|Hx]; [done|]. intros ->. done.
  - destruct (written_head _ _ _ Hwr) as (x & s' & -> & Hx0). simpl in E.
    destruct (blank_head w x (s' ++ c' :: rest') Hw) as (y & w' & E' & Hy). rewrite E' in E.
    injection E as -> _. intros ->. destruct Hy as [[_ <-]|Hy]; done.
Qed.

(** A line of expressions, with a blank after each. *)
Definition line_of (ts : list texpr) : bytes := concat (map (fun t => text_of t ++ [32]) ts) ++ [0].

Lemma line_written ts : forallb texpr_ok ts = true -> program_written (map sexp_of ts) (line_of ts).
Proof.
  intros Ht. unfold line_of.
  assert (H0 : forall w, blank w -> program_written (map sexp_of ts) (w ++ concat (map (fun t => text_of t ++ [32]) ts) ++ [0])).
  { induction ts as [|t ts IH]; intros w Hw; [by apply pw_end|].
    cbn [forallb] in Ht. apply andb_true_iff in Ht as [Ht1 Ht2]. cbn [map concat]. rewrite <- !app_assoc.
    apply pw_item; [done|apply text_written; [done|by left]|]. apply (IH Ht2 [32]).
    apply blank_space; [by right; right|constructor]. }
  apply (H0 []). constructor.
Qed.

(** The end of the text. *)
Lemma wp_ProcessBuffer_end w junk n fuel txt p result (Q : Z * cursor -> JLContext -> Prop) st :
  blank w -> at_text txt p (w ++ 0 :: junk) -> (forall cur, Q (result, cur) st) ->
  wp (ProcessBuffer (S n) fuel (txt, p) result) Q st.
Proof.
  intros Hw Hat HQ. cbn [ProcessBuffer fst snd]. apply wp_bind.
  destruct (blank_head w 0 junk Hw) as (x & w' & E & Hx).
  assert (Hstop : forall txt' p' n', at_text txt' p' (0 :: junk) ->
    wp (ProcessBuffer n' fuel (txt', p') result) Q st).
  { intros txt' p' n' Ha. destruct n'; cbn [ProcessBuffer fst snd]; apply wp_bind;
      (eapply wp_lift; [by eapply at_head|]); by apply wp_ret. }
  pose proof Hat as Hat'. rewrite E in Hat'. eapply wp_lift; [by eapply at_head|].
  destruct Hx as [[-> ->]|Hx]; [by apply wp_ret|].
  apply orb_false_iff in Hx as [-> _]. apply wp_bind. unfold JLParse. apply wp_bind.
  unfold text_fuel at 1. cbn [ParseExpression fst snd]. apply wp_bind.
  eapply (wp_skip_space w); [done|exact Hat|done| |].
  { apply at_length in Hat. rewrite length_app in Hat. simpl in Hat. unfold text_fuel. lia. }
  apply at_app in Hat. apply wp_bind. eapply wp_lift; [by eapply at_head|]. cbn [Z.eqb orb].
  apply wp_ret, wp_bind. eapply wp_lift; [by eapply at_head|]. cbn [Z.eqb]. apply wp_ret. cbn [Z.eqb].
  by apply Hstop.
Qed.

(** One expression of the text. *)
Lemma wp_ProcessBuffer_item w e s c rest n fuel txt p result (Q : Z * cursor -> JLContext -> Prop) st :
  blank w -> written e s c -> c <> 41 -> 0 ∈ c :: rest -> pool_ok st -> at_text txt p (w ++ s ++ c :: rest) ->
  (forall q txt1 p1 st1 C, lays C q e 0 -> C ##ₘ nodes st -> nodes st1 = C ∪ nodes st -> pool_ok st1 ->
     rest_of st1 = rest_of st -> at_text txt1 p1 (c :: rest) ->
     wp (JLRelease result;; result ← JLEvaluate fuel q; JLRelease q;; ProcessBuffer n fuel (txt1, p1) result)
       Q st1) ->
  wp (ProcessBuffer (S n) fuel (txt, p) result) Q st.
Proof.
  intros Hw Hwr Hc Hz Hok Hat HQ. cbn [ProcessBuffer fst snd]. apply wp_bind.
  assert (Hhd : exists y, znth txt p = Some y /\ (y =? 0) = false).
  { destruct (written_head _ _ _ Hwr) as (x & s' & -> & Hx). simpl in Hat.
    destruct (blank_head w x (s' ++ c :: rest) Hw) as (y & w' & E' & Hy). rewrite E' in Hat.
    exists y. split; [by eapply at_head|]. apply orb_false_iff in Hx as [Hx _].
    destruct Hy as [[_ ->]|Hy]; [done|]. by apply orb_false_iff in Hy as [? _]. }
  destruct Hhd as (y & Hy & Hy0). eapply wp_lift; [exact Hy|]. rewrite Hy0. apply wp_bind.
  eapply wp_mono; [eapply (wp_JLParse atof_token e s c); [done|done|done|done|done|exact Hat]|].
  intros [q [txt1 p1]] st1 (Hat1 & _ & (C & HC & Hd & Hn1) & Hp1 & Hr1). cbn [fst snd] in *. cbv beta iota.
  pose proof (lays_pos _ _ _ _ HC). zif_false. by eapply HQ.
Qed.

Variables (K N : nat) (g : Z) (G : frame) (ln max B : Z).

(** The heap between the evaluations, but for the last result. *)
Record base (ns : heap) : Prop := {
  ba_env : env_at K ns g G ns g [] [g];
  ba_counts : counts_ok B ns;
  ba_bound : 1 <= B }.
(** The state between two lines is such a heap. *)
Lemma globals_base ns cnt t V : 1 <= B -> globals_at K ns g cnt t V G -> base ns.
Proof.
  intros HB Hgl. split; [by eapply globals_env| |done]. rewrite (ga_nodes _ _ _ _ _ _ _ Hgl).
  apply counts_union; [apply scope_map_structure|]. intros p v Hv.
  pose proof (ga_counts _ _ _ _ _ _ _ Hgl _ _ Hv). lia.
Qed.


Lemma env_global_world W W' ns : sub W W' -> env_at K W g G ns g [] [g] -> env_at K W' g G ns g [] [g].
Proof.
  intros Hs He. inversion He as [t cnt Hg Hn Ht Hf|]; subst.
  econstructor; [done|exact Hn|done|]. by eapply frame_world.
Qed.

Lemma code_stok C ns p e s st : base ns -> lays C p e 0 -> C ##ₘ ns -> nodes st = C ∪ ns -> pool_ok st ->
  rest_of st = ctx ln max g 0 s -> stok K (C ∪ ns) g G ln max st g [] B 0 s.
Proof.
  intros [He Hc HB] Hl Hd Hn Hp Hr. pose proof (sub_union_r _ _ Hd) as Hsub. split; auto; rewrite ?Hn.
  - apply sub_refl.
  - intros q v [Hq|[_ Hq]]%lookup_union_Some_raw; [|by eapply Hc].
    rewrite (lays_count _ _ _ _ Hl _ _ Hq). lia.
  - exists [g]. eapply env_global_world; [exact Hsub|]. by eapply env_sub.
  - lia.
Qed.

(** What a line leaves: a reference to the value of its last expression; of a
    function that was just defined ([def]) the code can still be read. *)
Definition line_post (ns : heap) (def : bool) (v : result) (s : rstate) (r : Z) (st : JLContext) : Prop :=
  owes r ns (nodes st) /\
  (exists W, res_at K W g (nodes st) r v /\ (def = true -> sub W (nodes st))) /\
  rest_of st = ctx ln max g 0 s /\ pool_ok st.

Hypothesis bound : B + Z.of_nat N * (Z.of_nat K + 4) <= 4294967293.

(** One expression: the last result goes, the code is evaluated and goes. *)
Lemma wp_evaluate_code {A} C ns p e result def last s v s' st (k : Z -> M A) Q :
  base ns -> lays C p e 0 -> narrow K e = true -> C ##ₘ nodes st -> 
  reval ln max G N 0 [] (Some e) s = Some (v, s') ->
  line_post ns def last s result st ->
  (forall r st', line_post ns false v s' r st' -> wp (k r) Q st') ->
  forall st1, nodes st1 = C ∪ nodes st -> pool_ok st1 -> rest_of st1 = rest_of st ->
  wp (JLRelease result;; result ← JLEvaluate (N + K) p; JLRelease p;; k result) Q st1.
Proof.
  intros Hb Hl Hnar Hd He (How & _ & Hrest & Hok) HQ st1 Hn1 Hp1 Hr1. apply wp_bind.
  eapply (ow_run _ _ _ How C); [done|exact Hn1|done|]. intros st2 Hn2 Hr2 Hp2.
  assert (Hd2 : C ##ₘ ns) by by symmetry; eapply dom_disjoint; [apply How|symmetry].
  assert (Hk2 : stok K (C ∪ ns) g G ln max st2 g [] B 0 s) by (eapply code_stok; [done|exact Hl|done|done|done|congruence]).
  apply wp_bind. eapply wp_mono.
  { eapply (wp_JLEvaluate K (C ∪ ns) g G ln max N 0 st2 g [] B (Some e)); [done|lia| |done| |exact He].
    - destruct Hb as [_ _ HB]. nia.
    - split; [by eapply lays_pos|]. eapply code_sub; [|by eapply lays_code].
      apply sub_subseteq, map_union_subseteq_l. }
  intros r st3 (Hh & Hr & Hk3). apply wp_bind. rewrite Hn2 in Hh.
  eapply (wp_release_code (C ∪ ∅) p [e] ns r).
  { eapply lays_cons; [apply map_disjoint_empty_r|exact Hl|constructor]. }
  { by rewrite (right_id_L ∅ (∪)). }
  { apply Hk3. }
  { by rewrite (right_id_L ∅ (∪)). }
  intros st4 Hr4 Hp4 How4 Hsub4 Hv4. apply HQ. split; [done|]. split.
  - exists (C ∪ ns). split; [by eapply res_back|done].
  - split; [|done]. rewrite Hr4. apply Hk3.
Qed.

End program.
