(* ===== verification/JlDefine.v ===== *)
(** Definitions of functions at the JL console: what [define] and [lambda] leave
    in the heap, and that a session that defines functions and calls them does
    what the reference interpreter says. *)
From Stdlib Require Import SpecFloat.
From S2P Require Import Prelude CText JlHeap JlEval JlLogic JlScopes JlTree JlRef JlRepr JlFuncSpec JlParse JlReader JlSpec JlSession JlProgram.

(** * [LambdaFunc] *)

(** The heap with a closure [n2] over the parameters and body at [a]: its scope
    value [n1], one more reference to [a] and one more to the scope [g]. *)
Definition closure_heap (a : Z) (w : JLValue) (g : Z) (sc : ScopeNode) (n1 n2 : Z) (ns : heap) : heap :=
  <[n2 := NValue (mk_value (VLst n1) 0 1 JLVALUE_LAMBDA)]>
    (<[n1 := NValue (mk_value (VScope g) a 1 JLVALUE_SCOPE)]>
      (<[a := NValue (with_count (v_count w + 1) w)]>
        (<[g := NScope (mk_scope (s_bindings sc) (s_next sc) (s_count sc + 1))]> ns))).

Ltac inserts := repeat (rewrite lookup_insert; case_decide; try done; try congruence).

Lemma wp_LambdaFunc args va a w sc (Q : Z -> JLContext -> Prop) st :
  pool_ok st -> nodes st !! args = Some (NValue va) -> v_next va = a ->
  nodes st !! a = Some (NValue w) -> v_next w <> 0 -> 1 <= v_count w < 4294967295 ->
  nodes st !! jl_scope st = Some (NScope sc) -> 0 <= s_count sc < 4294967295 ->
  (forall n1 n2 st', n1 <> 0 -> n2 <> 0 -> n1 <> n2 -> nodes st !! n1 = None -> nodes st !! n2 = None ->
     nodes st' = closure_heap a w (jl_scope st) sc n1 n2 (nodes st) -> rest_of st' = rest_of st ->
     pool_ok st' -> Q n2 st') ->
  wp (LambdaFunc args) Q st.
Proof.
  intros Hok Hargs Ha Hw Hnw Hcw Hsc Hcs HQ. pose proof (pool_ok_pos _ _ _ Hok Hw) as Ha0.
  unfold LambdaFunc. apply wp_bind. eapply wp_get_next; [done|]. rewrite Ha. zif_false.
  apply wp_bind, wp_bind. eapply wp_get_next; [done|]. apply wp_ret. zif_false.
  apply wp_bind, wp_CreateValue; [done|]. intros n1 st1 Hn1 Hf1 Hm1 Hr1 Hp1.
  assert (Hs1 : jl_scope st1 = jl_scope st) by (unfold rest_of in Hr1; congruence).
  set (g := jl_scope st) in *.
  assert (Hg1 : g <> n1) by (intros E; rewrite E in Hsc; congruence).
  assert (Ha1 : a <> n1) by (intros E; rewrite E in Hw; congruence).
  assert (Hag : a <> g) by (intros E; rewrite E in Hw; congruence).
  apply wp_bind, wp_gets, wp_bind. rewrite Hs1. eapply wp_update_value; [by rewrite Hm1, lookup_insert_eq|].
  set (st2 := set_nodes _ st1).
  assert (Hp2 : pool_ok st2) by by eapply pool_ok_update; [|rewrite Hm1, lookup_insert_eq].
  assert (Hm2 : nodes st2 = <[n1 := NValue (mk_value (VScope g) 0 1 JLVALUE_SCOPE)]> (nodes st))
    by by cbn; rewrite Hm1, insert_insert_eq.
  assert (Hsc2 : nodes st2 !! g = Some (NScope sc)) by by rewrite Hm2, lookup_insert_ne.
  apply wp_bind. eapply wp_get_scope; [exact Hsc2|]. apply wp_bind, wp_put_node.
  rewrite u32_id by lia. set (st3 := set_nodes _ st2).
  assert (Hp3 : pool_ok st3) by by eapply pool_ok_update.
  apply wp_bind, wp_CreateValue; [done|]. intros n2 st4 Hn2 Hf2 Hm4 Hr4 Hp4.
  assert (Hf2' : n2 <> g /\ n2 <> n1 /\ nodes st !! n2 = None).
  { change (nodes st3) with (<[g := NScope (mk_scope (s_bindings sc) (s_next sc) (s_count sc + 1))]> (nodes st2)) in Hf2.
    rewrite Hm2 in Hf2. apply lookup_insert_None in Hf2 as [Hf2 ?].
    apply lookup_insert_None in Hf2 as [Hf2 ?]. done. }
  destruct Hf2' as (Hn2g & Hn21 & Hf2').
  assert (Ha2 : a <> n2) by (intros E; rewrite E in Hw; congruence).
  apply wp_bind. eapply wp_update_value; [by rewrite Hm4, lookup_insert_eq|].
  set (st5 := set_nodes _ st4).
  assert (Hp5 : pool_ok st5) by by eapply pool_ok_update; [|rewrite Hm4, lookup_insert_eq].
  assert (H51 : nodes st5 !! n1 = Some (NValue (mk_value (VScope g) 0 1 JLVALUE_SCOPE))).
  { cbn. rewrite Hm4, !lookup_insert_ne by done. cbn. rewrite lookup_insert_ne by done.
    by rewrite Hm1, lookup_insert_eq. }
  apply wp_bind. eapply wp_update_value; [exact H51|]. set (st6 := set_nodes _ st5).
  assert (Hp6 : pool_ok st6) by by eapply pool_ok_update.
  assert (H6a : nodes st6 !! a = Some (NValue w)).
  { cbn. rewrite lookup_insert_ne, lookup_insert_ne, Hm4, lookup_insert_ne by done. cbn.
    rewrite lookup_insert_ne, lookup_insert_ne by done. by rewrite Hm1, lookup_insert_ne. }
  apply wp_bind. unfold JLRetain. zif_false. eapply wp_update_value; [exact H6a|]. rewrite u32_id by lia. apply wp_ret.
  apply (HQ n1 n2); try done.
  - cbn. rewrite Hm4. cbn. rewrite Hm1. unfold closure_heap. apply map_eq. intros k. by inserts.
  - cbn. by etransitivity; [exact Hr4|].
  - by eapply pool_ok_update.
Qed.

Lemma acq_insert r k n ns ns1 : acq r ns ns1 -> k <> r -> acq r (<[k := n]> ns) (<[k := n]> ns1).
Proof.
  intros [v Hv Hc ->|u t Hv Hs ->] Hk; rewrite insert_insert_ne by done.
  - eapply acq_old; [by rewrite lookup_insert_ne|done|done].
  - eapply acq_new; [by rewrite lookup_insert_ne|done|done].
Qed.

Lemma held_closure r a w g sc n1 n2 ns ns1 : held r ns ns1 -> r <> 0 -> r <> a -> r <> g -> r <> n1 -> r <> n2 ->
  held r (closure_heap a w g sc n1 n2 ns) (closure_heap a w g sc n1 n2 ns1).
Proof.
  intros [[? _]|[_ Ha]] Hr Hra Hrg Hr1 Hr2; [done|]. right. split; [done|].
  by repeat apply acq_insert.
Qed.

Definition define_name : bytes := [100; 101; 102; 105; 110; 101].
Definition lambda_name : bytes := [108; 97; 109; 98; 100; 97].

Section define.
Variables (K : nat) (W : heap) (g : Z) (G : frame) (ln max : Z).
Abbreviation stok lv st B s := (stok K W g G ln max st g [] B lv s).

(** A function of the table in the function position. *)
Lemma wp_eval_special n lv st B s q x f (Q : Z -> JLContext -> Prop) :
  stok lv st B s -> 0 <= lv -> lv + 1 <= max -> lv + Z.of_nat (S n) <= 4294967295 ->
  B + Z.of_nat (S n) * (Z.of_nat K + 4) <= 4294967293 -> s.1 = false -> q <> 0 -> code_at K W q (SVar x) ->
  G !! x = Some (Some (RSpecial f)) ->
  (forall r w st', r <> 0 -> held r (nodes st) (nodes st') -> nodes st' !! r = Some (NValue w) ->
     v_tag w = JLVALUE_SPECIAL -> v_value w = VSpecial f -> stok lv st' (B + 1) s -> Q r st') ->
  wp (JLEvaluate (S n + K) q) Q st.
Proof.
  intros Hk Hlv Hmax Hn HB Hs Hq Hc Hx HQ. eapply wp_mono.
  { eapply (wp_JLEvaluate K W g G ln max (S n) lv st g [] B (Some (SVar x)) q s (Some (RSpecial f)) s);
      [done|done|done|done|done|].
    cbn [reval]. rewrite Hs, andb_false_r.
    assert (E : (if lv =? 0 then (false, s.2) else s) = s) by (destruct (lv =? 0); [by rewrite <- Hs; destruct s|done]).
    rewrite E. unfold rexpr. assert (Hm : (lv + 1 >? max) = false) by (destruct (Z.gtb_spec (lv + 1) max); [lia|done]).
    rewrite Hm. assert (El : rlookup G [] x = Some (Some (RSpecial f))) by exact Hx. by rewrite El. }
  intros r st' (Hh & (Hr & w & Hw & Ht & Hu) & Hk'). by eapply HQ.
Qed.

(** The rest of the list at [p], after its first item, starts at [a]. *)
Definition tail_at (p a : Z) : Prop :=
  exists vp q vq, W !! p = Some (NValue vp) /\ v_value vp = VLst q /\
    W !! q = Some (NValue vq) /\ v_next vq = a.

(** A [lambda] at the top level. *)
Lemma wp_eval_lambda n lv st B s p ps body sc (Q : Z -> JLContext -> Prop) :
  stok lv st B s -> 0 <= lv -> lv + 2 <= max -> lv + Z.of_nat (S (S n)) <= 4294967295 ->
  B + Z.of_nat (S (S n)) * (Z.of_nat K + 4) <= 4294967293 -> s.1 = false -> p <> 0 ->
  code_at K W p (SList (SVar lambda_name :: SList (map SVar ps) :: body)) -> body <> [] ->
  G !! lambda_name = Some (Some (RSpecial F_Lambda)) ->
  nodes st !! g = Some (NScope sc) -> 0 <= s_count sc < 4294967295 ->
  (forall a w n1 n2 st', tail_at p a -> codes_at K W a (SList (map SVar ps) :: body) ->
     nodes st !! a = Some (NValue w) -> n1 <> 0 -> n2 <> 0 -> n1 <> n2 -> nodes st !! n1 = None -> nodes st !! n2 = None ->
     nodes st' = closure_heap a w g sc n1 n2 (nodes st) -> rest_of st' = rest_of st ->
     pool_ok st' -> Q n2 st') ->
  wp (JLEvaluate (S (S n) + K) p) Q st.
Proof.
  intros Hk Hlv Hmax Hn HB Hs Hp Hc Hbody HG Hsc Hcs HQ.
  destruct (code_list _ _ _ _ Hc) as (vp & q & Hvp & Htp & Hup & _ & Hq).
  destruct (codes_cons _ _ _ _ _ Hq) as (vq & Hq0 & Hvq & Hcq & Ha).
  destruct (codes_cons _ _ _ _ _ Ha) as (va & Ha0 & Hva & Hca & Hb).
  destruct (code_list _ _ _ _ Hca) as (va' & pp & Hva' & Hta & _). assert (va' = va) as -> by congruence.
  change (S (S n) + K)%nat with (S (S n + K)).
  eapply wp_JLEvaluate_enter; [exact Hk|lia|rewrite Hs; by rewrite andb_false_r|].
  intros st1 Hn1 Hk1. set (s1 := if lv =? 0 then _ else _) in Hk1.
  assert (s1 = s) as E by (subst s1; destruct (lv =? 0); [by rewrite <- Hs; destruct s|done]).
  rewrite E in Hk1. clear E s1. unfold evaluate_value. zif_false.
  assert (Hm : (lv + 1 >? max) = false) by (destruct (Z.gtb_spec (lv + 1) max); [lia|done]). rewrite Hm.
  destruct (world_value _ _ _ _ _ _ _ _ _ _ _ _ _ _ Hk1 Hvp) as (vp1 & Hvp1 & Eup1 & _ & Etp1).
  apply wp_bind. eapply wp_get_value; [exact Hvp1|]. rewrite Etp1, Htp. cbn [Z.eqb Pos.eqb JLVALUE_LIST].
  apply wp_bind. eapply wp_get_lst; [exact Hvp1|by rewrite Eup1|]. apply wp_bind.
  eapply (wp_eval_special n (lv + 1)); [exact Hk1|lia|lia|lia|lia|done|done|exact Hcq|exact HG|].
  intros r w st2 Hr Hh Hw Htw Huw Hk2. zif_false. apply wp_bind. eapply wp_get_value; [exact Hw|].
  rewrite Htw. cbn [Z.eqb Pos.eqb JLVALUE_SPECIAL]. rewrite Huw. apply wp_bind.
  destruct (world_value _ _ _ _ _ _ _ _ _ _ _ _ _ _ Hk2 Hvp) as (vp2 & Hvp2 & Eup2 & _ & _).
  apply wp_bind. eapply wp_get_lst; [exact Hvp2|by rewrite Eup2|].
  destruct (world_value _ _ _ _ _ _ _ _ _ _ _ _ _ _ Hk2 Hvq) as (vq2 & Hvq2 & _ & Enq2 & _).
  destruct (world_value _ _ _ _ _ _ _ _ _ _ _ _ _ _ Hk2 Hva) as (va2 & Hva2 & Eua2 & Ena2 & Eta2).
  assert (Hra : v_next vq <> r) by (intros Era; rewrite Era in Hva2; rewrite Hw in Hva2; simplify_eq; rewrite Eta2, Hta in Htw; done).
  destruct Hh as [[? _]|[_ Hacq]]; [done|].
  assert (Hva1 : nodes st !! v_next vq = Some (NValue va2)).
  { rewrite <- Hn1, <- Hva2. symmetry. by eapply acq_other. }
  assert (Hs2 : jl_scope st2 = g).
  { pose proof (sk_ctx _ _ _ _ _ _ _ _ _ _ _ _ Hk2) as Hr2. unfold rest_of, ctx in Hr2. congruence. }
  assert (Hrg : g <> r).
  { intros Erg. rewrite <- Hn1 in Hsc. rewrite Erg in Hsc.
    destruct Hacq as [v Hv _ _|u t Hv _ _]; rewrite Hv in Hsc; done. }
  assert (Hsc2 : nodes st2 !! g = Some (NScope sc)).
  { rewrite <- Hsc, <- Hn1. by eapply acq_other. }
  pose proof (sk_counts _ _ _ _ _ _ _ _ _ _ _ _ Hk2 _ _ Hva2) as Hca2.
  destruct body as [|e0 body]; [done|]. destruct Hb as [Hb0 _].
  cbn [call_special]. eapply (wp_LambdaFunc q vq2 (v_next vq) va2 sc);
    [apply Hk2|exact Hvq2|done|exact Hva2|by rewrite Ena2|lia|by rewrite Hs2|done|].
  intros n1 n2 st3 Hn1' Hn2' Hn12 Hf1 Hf2 Hm3 Hr3 Hp3. rewrite Hs2 in Hm3.
  assert (Hr1 : r <> n1) by (intros Er; rewrite <- Er in Hf1; congruence).
  assert (Hr2 : r <> n2) by (intros Er; rewrite <- Er in Hf2; congruence).
  apply wp_bind. eapply (wp_JLRelease r (closure_heap (v_next vq) va2 g sc n1 n2 (nodes st1))); [done| |].
  { rewrite Hm3. apply held_closure; [by right|by auto..]. }
  intros st4 Hm4 Hr4 Hp4. apply wp_ret.
  pose proof (sk_ctx _ _ _ _ _ _ _ _ _ _ _ _ Hk2) as Hctx2. unfold rest_of, ctx in Hctx2.
  assert (Hctx4 : rest_of st4 = rest_of st2) by congruence.
  pose proof (sk_ctx _ _ _ _ _ _ _ _ _ _ _ _ Hk) as Hctx. unfold rest_of, ctx in Hctx.
  split; [unfold rest_of in Hctx4; congruence|].
  assert (Hback : forall k, nodes st2 !! k = None -> nodes st !! k = None).
  { intros k Hk'. destruct (nodes st !! k) eqn:Ek; [|done]. rewrite <- Hn1 in Ek.
    destruct (acq_sub _ _ _ Hacq _ _ Ek) as (n' & Hn' & _). congruence. }
  apply (HQ (v_next vq) va2 n1 n2); auto; [by exists vp, q, vq|..].
  - cbn. by rewrite Hm4, Hn1.
  - unfold rest_of, ctx in *. cbn. congruence.
  - by eapply pool_ok_rest.
Qed.

End define.

(** The form that defines a function. *)
Definition define_form (x : bytes) (ps : list bytes) (body : list sexp) : sexp :=
  SList [SVar define_name; SVar x; SList (SVar lambda_name :: SList (map SVar ps) :: body)].

(** The values of a closure, without the scope. *)
Definition closure_values (a : Z) (w : JLValue) (g n1 n2 : Z) (V : heap) : heap :=
  <[n2 := NValue (mk_value (VLst n1) 0 1 JLVALUE_LAMBDA)]>
    (<[n1 := NValue (mk_value (VScope g) a 1 JLVALUE_SCOPE)]> (<[a := NValue (with_count (v_count w + 1) w)]> V)).

Lemma closure_split a w g cnt t n1 n2 V : scope_map g 0 cnt t !! a = None -> scope_map g 0 cnt t !! n1 = None ->
  scope_map g 0 cnt t !! n2 = None ->
  closure_heap a w g (mk_scope (troot t) 0 cnt) n1 n2 (scope_map g 0 cnt t ∪ V) =
  scope_map g 0 (cnt + 1) t ∪ closure_values a w g n1 n2 V.
Proof.
  intros Ha H1 H2.
  assert (Hk : forall k, scope_map g 0 cnt t !! k = None -> scope_map g 0 (cnt + 1) t !! k = None).
  { intros k. unfold scope_map. intros [? ?]%lookup_insert_None. by apply lookup_insert_None. }
  unfold closure_heap, closure_values. cbn [s_bindings s_next s_count].
  rewrite !insert_union_l. unfold scope_map at 1. rewrite insert_insert_eq.
  fold (scope_map g 0 (cnt + 1) t). rewrite <- !insert_union_l.
  by rewrite !insert_union_r by auto.
Qed.

Lemma held_values r a w g n1 n2 V V' : held r V V' -> r <> 0 -> r <> a -> r <> n1 -> r <> n2 ->
  held r (closure_values a w g n1 n2 V) (closure_values a w g n1 n2 V').
Proof.
  intros [[? _]|[_ Ha]] Hr Hra Hr1 Hr2; [done|]. right. split; [done|].
  by repeat apply acq_insert.
Qed.

(** Values that are there stay readable. *)
Lemma closure_value a w g sc n1 n2 ns k v : ns !! k = Some (NValue v) -> ns !! a = Some (NValue w) ->
  ns !! g = Some (NScope sc) -> ns !! n1 = None -> ns !! n2 = None ->
  exists v', closure_heap a w g sc n1 n2 ns !! k = Some (NValue v') /\ v_value v' = v_value v.
Proof.
  intros Hk Ha Hg H1 H2. unfold closure_heap. rewrite !lookup_insert_ne by (intros <-; congruence).
  destruct (decide (k = a)) as [->|Hka]; [|rewrite lookup_insert_ne by done].
  - assert (v = w) as -> by congruence. eexists. by rewrite lookup_insert_eq.
  - rewrite lookup_insert_ne by (intros <-; congruence). eauto.
Qed.

(** A closure with the reference of its binding. *)
Definition bound_closure (a : Z) (w : JLValue) (g n1 n2 : Z) (V : heap) : heap :=
  <[n2 := NValue (mk_value (VLst n1) 0 2 JLVALUE_LAMBDA)]> (closure_values a w g n1 n2 V).

(** The closure is bound; what else is held stays so. *)
Lemma wp_bind_closure r a w g n1 n2 cnt t V0 V1 x (Q : unit -> JLContext -> Prop) st :
  pool_ok st -> jl_scope st = g -> scope_ok g t -> scope_map g 0 cnt t ##ₘ V1 -> tfind t x = None ->
  V1 !! a = Some (NValue w) -> (scope_map g 0 cnt t ∪ V1) !! n1 = None ->
  (scope_map g 0 cnt t ∪ V1) !! n2 = None -> held r V0 V1 -> r <> 0 -> r <> a -> n2 <> 0 ->
  nodes st = closure_heap a w g (mk_scope (troot t) 0 cnt) n1 n2 (scope_map g 0 cnt t ∪ V1) ->
  (forall q V st', scope_ok g (tinsert t q x n2) ->
     nodes st' = scope_map g 0 (cnt + 1) (tinsert t q x n2) ∪ V ->
     scope_map g 0 (cnt + 1) (tinsert t q x n2) ##ₘ V ->
     held r (bound_closure a w g n1 n2 V0) V -> rest_of st' = rest_of st -> pool_ok st' -> Q tt st') ->
  wp (JLDefineValue (Some x) n2) Q st.
Proof.
  intros Hok Hg Ht Hd Hx Ha [HS1 HV1]%lookup_union_None [HS2 HV2]%lookup_union_None Hh Hr Hra Hn20 Hn HQ.
  assert (HSa : scope_map g 0 cnt t !! a = None) by (eapply map_disjoint_Some_r; [exact Hd|exact Ha]).
  assert (Hr1 : r <> n1 /\ r <> n2).
  { destruct Hh as [[? _]|[_ Hacq]]; [done|]. destruct (acq_value _ _ _ Hacq) as [v Hv]. split; intros ->; congruence. }
  rewrite closure_split in Hn by done. set (V1' := closure_values a w g n1 n2 V1) in *.
  assert (Hd' : scope_map g 0 (cnt + 1) t ##ₘ V1').
  { apply scope_map_disjoint in Hd as [Hdg Hdt]. unfold scope_map in HSa, HS1, HS2.
    apply lookup_insert_None in HSa as [HSa Hga]. apply lookup_insert_None in HS1 as [HS1 Hg1].
    apply lookup_insert_None in HS2 as [HS2 Hg2].
    apply scope_map_disjoint. split; [by unfold V1', closure_values; rewrite !lookup_insert_ne|].
    by repeat apply map_disjoint_insert_r_2. }
  assert (Hc : V1' !! n2 = Some (NValue (mk_value (VLst n1) 0 1 JLVALUE_LAMBDA))) by apply lookup_insert_eq.
  eapply (wp_JLDefineValue_new g 0 (cnt + 1) t V1' x n2); [done|done|exact Hn|done|exact Hd'|done|by intros _; eexists; split; [exact Hc|]|].
  intros q V st' Ht' Hn' Hdd Hh' Hr' Hp'. eapply HQ; [exact Ht'|exact Hn'|done| |done|done].
  pose proof (held_values r a w g n1 n2 _ _ Hh Hr Hra (proj1 Hr1) (proj2 Hr1)) as Hhv. fold V1' in Hhv.
  destruct (held_swap _ _ _ _ _ Hhv Hh') as (V2 & Hh2 & Hh3).
  destruct Hh2 as [[? _]|[_ Hacq]]; [done|].
  assert (Hc2 : closure_values a w g n1 n2 V0 !! n2 = Some (NValue (mk_value (VLst n1) 0 1 JLVALUE_LAMBDA)))
    by apply lookup_insert_eq.
  destruct Hacq as [v Hv _ ->|u t' Hv _ _]; rewrite Hc2 in Hv; [|done]. injection Hv as <-. exact Hh3.
Qed.

(** * [DefineFunc] on a [lambda] *)

Section define_func.
Variables (K : nat) (g : Z) (G : frame) (ln max : Z) (ns C : heap) (cnt : Z) (t : btree) (V : heap).
Abbreviation stok lv st B s := (stok K (C ∪ ns) g G ln max st g [] B lv s).
Hypothesis ns_globals : globals_at K ns g cnt t V G.
Hypothesis ns_disjoint : C ##ₘ ns.
Hypothesis G_lambda : G !! lambda_name = Some (Some (RSpecial F_Lambda)).
Hypothesis cnt_bound : 0 <= cnt < 4294967295.
Hypothesis max_bound : 3 <= max.
Variable n : nat.
Hypothesis fuel_bound : 2 + Z.of_nat (S (S n)) * (Z.of_nat K + 4) <= 4294967293.

Lemma code_structure : scope_map g 0 cnt t ##ₘ C /\ C ∪ ns = scope_map g 0 cnt t ∪ (C ∪ V) /\
  scope_map g 0 cnt t ##ₘ C ∪ V.
Proof.
  pose proof ns_globals as [Hn _ Hd _ _]. rewrite Hn in ns_disjoint |- *.
  apply map_disjoint_union_r in ns_disjoint as [HCS HCV].
  split; [by symmetry|]. split; [|by apply map_disjoint_union_r_2].
  rewrite !(assoc_L (∪)). f_equal. by apply map_union_comm.
Qed.

(** The heap after the form, with the reference to the closure that is its value. *)
Definition defined (x : bytes) (a : Z) (w : JLValue) (n1 n2 : Z) (q : Z) : heap :=
  scope_map g 0 (cnt + 1) (tinsert t q x n2) ∪ bound_closure a w g n1 n2 (C ∪ V).

Lemma wp_DefineFunc st st1 s r args hv x ps body (Q : Z -> JLContext -> Prop) :
  nodes st1 = C ∪ ns -> held r (nodes st1) (nodes st) -> r <> 0 ->
  (exists w, nodes st !! r = Some (NValue w) /\ v_tag w = JLVALUE_SPECIAL) ->
  stok 1 st 2 s -> s.1 = false -> (C ∪ ns) !! args = Some (NValue hv) ->
  codes_at K (C ∪ ns) (v_next hv) [SVar x; SList (SVar lambda_name :: SList (map SVar ps) :: body)] ->
  body <> [] -> G !! x = None ->
  (forall p a w n1 n2 q V' st', tail_at (C ∪ ns) p a ->
     (exists v1, (C ∪ ns) !! v_next hv = Some (NValue v1) /\ v_next v1 = p) ->
     codes_at K (C ∪ ns) a (SList (map SVar ps) :: body) ->
     (C ∪ ns) !! a = Some (NValue w) -> n1 <> 0 -> n2 <> 0 -> n1 <> n2 ->
     (C ∪ ns) !! n1 = None -> (C ∪ ns) !! n2 = None -> scope_ok g (tinsert t q x n2) ->
     nodes st' = scope_map g 0 (cnt + 1) (tinsert t q x n2) ∪ V' ->
     scope_map g 0 (cnt + 1) (tinsert t q x n2) ##ₘ V' ->
     held r (bound_closure a w g n1 n2 (C ∪ V)) V' -> rest_of st' = rest_of st -> pool_ok st' ->
     Q n2 st') ->
  wp (DefineFunc (JLEvaluate (S (S n) + K)) args) Q st.
Proof.
  intros Hn1 Hh Hr (wr & Hwr & Htr) Hk Hs Hargs Hes Hbody Hx HQ.
  destruct code_structure as (HSC & HCS & HSCV). pose proof ns_globals as [Hn Ht Hd Hf Hc].
  destruct (codes_cons _ _ _ _ _ Hes) as (v1 & Hq0 & Hv1 & Hcx & Hes1).
  destruct (codes_cons _ _ _ _ _ Hes1) as (v2 & Hq1 & Hv2 & Hcl & _).
  unfold DefineFunc. eapply wp_world_next; [exact Hk|exact Hargs|]. zif_false.
  destruct (world_value _ _ _ _ _ _ _ _ _ _ _ _ _ _ Hk Hv1) as (v1' & Hv1' & Eu1 & En1 & Et1).
  destruct Hcx as (v1b & Hv1b & Ht1 & Hu1). assert (v1b = v1) as -> by congruence.
  apply wp_bind. eapply wp_get_tag; [exact Hv1'|]. rewrite Et1, Ht1. cbn [negb Z.eqb Pos.eqb JLVALUE_VARIABLE].
  apply wp_bind. eapply wp_get_next; [exact Hv1'|]. rewrite En1. apply wp_bind.
  rewrite Hn1, HCS in Hh. destruct (held_split _ _ _ _ (scope_map_structure _ _ _ _) Hh) as (V1 & Hn2 & Hh1 & HSr).
  pose proof (held_disjoint _ _ _ _ Hh1 HSr HSCV) as HSV1.
  destruct Hh1 as [[? _]|[_ Hacq]]; [done|].
  assert (Hg2 : nodes st !! g = Some (NScope (mk_scope (troot t) 0 cnt))).
  { rewrite Hn2. apply lookup_union_Some_l. unfold scope_map. apply lookup_insert_eq. }
  assert (Hback : forall k, nodes st !! k = None -> (C ∪ ns) !! k = None).
  { intros k Hk0. destruct ((C ∪ ns) !! k) eqn:Ek; [|done].
    destruct (sk_world _ _ _ _ _ _ _ _ _ _ _ _ Hk _ _ Ek) as (n' & Hn' & _). congruence. }
  eapply (wp_eval_lambda K (C ∪ ns) g G ln max n 1 st 2 s);
    [exact Hk|lia|lia|lia|lia|done|exact Hq1|exact Hcl|done|done|exact Hg2|cbn; lia|].
  intros a w n1 n2 st3 Hpos Ha Hwa Hn10 Hn20 Hn12 Hf1 Hf2 Hm3 Hr3 Hp3.
  destruct (codes_cons _ _ _ _ _ Ha) as (wa & Ha0 & Hwa' & Hca & _).
  destruct (code_list _ _ _ _ Hca) as (wa' & pp & Hwa2 & Hta & _). assert (wa' = wa) as -> by congruence.
  assert (Hra : r <> a).
  { intros ->. destruct (world_value _ _ _ _ _ _ _ _ _ _ _ _ _ _ Hk Hwa') as (w' & Hw' & _ & _ & Et).
    assert (w' = wr) as -> by congruence. rewrite Et, Hta in Htr. done. }
  assert (HSa : scope_map g 0 cnt t !! a = None).
  { destruct (scope_map g 0 cnt t !! a) as [n0|] eqn:Ea; [|done].
    pose proof (scope_map_structure _ _ _ _ _ _ Ea) as Hv0. rewrite Hn2 in Hwa.
    rewrite (lookup_union_Some_l _ _ _ _ Ea) in Hwa. injection Hwa as ->. done. }
  assert (HVa : V1 !! a = Some (NValue w)) by by rewrite Hn2, lookup_union_r in Hwa.
  assert (HWa : (C ∪ ns) !! a = Some (NValue w)).
  { rewrite HCS, lookup_union_r by done. rewrite <- HVa. symmetry. by eapply acq_other. }
  destruct (closure_value a w g _ n1 n2 _ _ _ Hv1' Hwa Hg2 Hf1 Hf2) as (v1c & Hv1c & Eu1c).
  apply wp_bind. eapply wp_get_str; [by rewrite Hm3|by rewrite Eu1c, Eu1|].
  assert (Hs3 : jl_scope st3 = g).
  { pose proof (sk_ctx _ _ _ _ _ _ _ _ _ _ _ _ Hk) as Hr2. unfold rest_of, ctx in Hr2, Hr3. congruence. }
  apply wp_bind. rewrite Hn2 in Hm3, Hf1, Hf2.
  eapply (wp_bind_closure r a w g n1 n2 cnt t (C ∪ V) V1 x);
    [done|done|done|done|by eapply frame_fresh|done|done|done|by right|done|done|done|done|].
  intros q V' st4 Ht4 Hn4 Hd4 Hh4 Hr4 Hp4. apply wp_ret.
  rewrite <- Hn2 in Hf1, Hf2.
  eapply (HQ (v_next v1) a w n1 n2 q V'); eauto. congruence.
Qed.

Hypothesis G_define : G !! define_name = Some (Some (RSpecial F_Define)).

(** The whole form, at the top level. *)
Lemma wp_eval_define st s p x ps body (Q : Z -> JLContext -> Prop) :
  stok 0 st 1 s -> nodes st = C ∪ ns -> p <> 0 -> code_at K (C ∪ ns) p (define_form x ps body) ->
  body <> [] -> G !! x = None ->
  (forall q0 v0 p1 v1 p2 a w n1 n2 q st', (exists vp, (C ∪ ns) !! p = Some (NValue vp) /\ v_value vp = VLst q0) ->
     (C ∪ ns) !! q0 = Some (NValue v0) -> v_next v0 = p1 -> (C ∪ ns) !! p1 = Some (NValue v1) ->
     v_next v1 = p2 -> tail_at (C ∪ ns) p2 a ->
     codes_at K (C ∪ ns) a (SList (map SVar ps) :: body) ->
     (C ∪ ns) !! a = Some (NValue w) -> n1 <> 0 -> n2 <> 0 -> n1 <> n2 ->
     (C ∪ ns) !! n1 = None -> (C ∪ ns) !! n2 = None -> scope_ok g (tinsert t q x n2) ->
     nodes st' = defined x a w n1 n2 q ->
     scope_map g 0 (cnt + 1) (tinsert t q x n2) ##ₘ bound_closure a w g n1 n2 (C ∪ V) ->
     rest_of st' = ctx ln max g 0 (false, s.2) -> pool_ok st' -> Q n2 st') ->
  wp (JLEvaluate (S (S (S n)) + K) p) Q st.
Proof.
  intros Hk Hn Hp Hc Hbody Hx HQ. change (S (S (S n)) + K)%nat with (S (S (S n) + K)).
  eapply wp_JLEvaluate_enter; [exact Hk|lia|done|]. cbn [Z.eqb]. intros st1 Hn1 Hk1.
  destruct (code_list _ _ _ _ Hc) as (vp & q0 & Hvp & Htp & Hup & _ & Hq).
  destruct (codes_cons _ _ _ _ _ Hq) as (v0 & Hq0 & Hv0 & Hc0 & Hes).
  unfold evaluate_value. zif_false. assert (Hm : (0 + 1 >? max) = false) by (destruct (Z.gtb_spec (0 + 1) max); [lia|done]).
  rewrite Hm. destruct (world_value _ _ _ _ _ _ _ _ _ _ _ _ _ _ Hk1 Hvp) as (vp1 & Hvp1 & Eup1 & _ & Etp1).
  apply wp_bind. eapply wp_get_value; [exact Hvp1|]. rewrite Etp1, Htp. cbn [Z.eqb Pos.eqb JLVALUE_LIST].
  apply wp_bind. eapply wp_get_lst; [exact Hvp1|by rewrite Eup1|]. apply wp_bind.
  eapply (wp_eval_special K (C ∪ ns) g G ln max (S n) (0 + 1)); [exact Hk1|lia|lia|lia|lia|done|done|exact Hc0|exact G_define|].
  intros r w0 st2 Hr Hh Hw0 Htw Huw Hk2. zif_false. apply wp_bind. eapply wp_get_value; [exact Hw0|].
  rewrite Htw. cbn [Z.eqb Pos.eqb JLVALUE_SPECIAL]. rewrite Huw. apply wp_bind.
  destruct (world_value _ _ _ _ _ _ _ _ _ _ _ _ _ _ Hk2 Hvp) as (vp2 & Hvp2 & Eup2 & _ & _).
  apply wp_bind. eapply wp_get_lst; [exact Hvp2|by rewrite Eup2|]. cbn [call_special].
  eapply (wp_DefineFunc st2 st1 (false, s.2) r q0 v0 x ps body); [by rewrite Hn1|done|done|eauto|exact Hk2|done|exact Hv0|exact Hes|done|done|].
  intros p2 a w n1 n2 q V' st3 Hpos (v1 & Hv1 & En1) Ha Hwa Hn10 Hn20 Hn12 Hf1 Hf2 Ht3 Hn3 Hd3 Hh3 Hr3 Hp3.
  destruct (held_disjoint_rev _ _ _ _ Hh3 Hd3) as [Hd4 HSr].
  apply wp_bind. eapply (wp_JLRelease r (defined x a w n1 n2 q)); [done| |].
  { rewrite Hn3. apply held_under; [exact Hh3|by apply HSr]. }
  intros st4 Hn4 Hr4 Hp4. apply wp_ret.
  pose proof (sk_ctx _ _ _ _ _ _ _ _ _ _ _ _ Hk2) as Hctx. unfold rest_of, ctx in Hctx.
  assert (Hctx4 : rest_of st4 = rest_of st2) by congruence. unfold rest_of in Hctx4.
  split; [unfold rest_of in *; congruence|].
  eapply (HQ q0 v0 (v_next v0) v1 p2 a w n1 n2 q); eauto; [|by eapply pool_ok_rest].
  unfold rest_of, ctx. cbn -[snd]. injection Hctx4 as -> -> _ -> -> ->. by injection Hctx as -> -> _ -> -> ->.
Qed.

End define_func.

(** * The code that a closure keeps *)

(** A bound for the lists of an expression. *)
Fixpoint width (e : sexp) : nat :=
  match e with SList es => length es + list_sum (map width es) | _ => 0 end.

Lemma narrow_mono K K' e : (K <= K')%nat -> narrow K e = true -> narrow K' e = true.
Proof.
  intros HK. induction e as [| | |es IH] using sexp_ind; try done. cbn [narrow].
  rewrite !andb_true_iff, !Nat.leb_le. intros [Hl Hes]. split; [lia|].
  induction IH as [|e es He _ IHes]; [done|]. simpl in *. apply andb_true_iff in Hes as [? ?].
  rewrite He by done. apply IHes; [lia|done].
Qed.

Lemma narrow_width e : forall K, (width e <= K)%nat -> narrow K e = true.
Proof.
  induction e as [| | |es IH] using sexp_ind; intros K HK; try done. cbn [narrow width] in *.
  rewrite andb_true_iff, Nat.leb_le. split; [lia|].
  assert (Hs : (list_sum (map width es) <= K)%nat) by lia. clear HK.
  induction IH as [|e es He _ IHes]; [done|]. simpl in *. rewrite He by lia. apply IHes. lia.
Qed.

Lemma narrow_all es : exists K, forallb (narrow K) es = true.
Proof.
  exists (list_sum (map width es)). apply forallb_forall. intros e He. apply narrow_width.
  induction es as [|e' es IH]; [done|]. simpl in *. destruct He as [->|He]; [lia|]. specialize (IH He). lia.
Qed.

(** The heap determines the code at an address. *)
Lemma code_det K1 K2 hp e : forall p e', code_at K1 hp p e -> code_at K2 hp p e' -> e = e'.
Proof.
  induction e as [d|s|x|es IH] using sexp_ind; intros p e' (v & Hv & Ht & H) He';
    destruct e' as [d'|s'|x'|es']; destruct He' as (v' & Hv' & Ht' & H');
    assert (v' = v) as -> by congruence; rewrite Ht in Ht'; try done; try congruence.
  - destruct H as (_ & q & Hu & Hq).
    destruct H' as (_ & q' & Hu' & Hq'). assert (q' = q) as -> by congruence. f_equal.
    clear - IH Hq Hq'. revert q es' Hq Hq'. induction IH as [|e es He _ IH]; intros q es' Hq Hq'.
    + simpl in Hq. subst q. destruct es'; [done|]. by destruct Hq' as [? _].
    + destruct Hq as (Hq0 & Hc & w & Hw & Hq). destruct es' as [|e' es']; [simpl in Hq'; congruence|].
      destruct Hq' as (_ & Hc' & w' & Hw' & Hq'). assert (w' = w) as -> by congruence.
      f_equal; [by eapply He|by eapply IH].
Qed.

Lemma codes_det K1 K2 hp es : forall q es', codes_at K1 hp q es -> codes_at K2 hp q es' -> es = es'.
Proof.
  induction es as [|e es IH]; intros q es' Hq Hq'.
  - simpl in Hq. subst q. destruct es'; [done|]. by destruct Hq' as [? _].
  - destruct Hq as (Hq0 & Hc & w & Hw & Hq). destruct es' as [|e' es']; [simpl in Hq'; congruence|].
    destruct Hq' as (_ & Hc' & w' & Hw' & Hq'). assert (w' = w) as -> by congruence.
    f_equal; [by eapply code_det|by eapply IH].
Qed.

(** What stays of released code is all of the list that is kept. *)
Lemma lays_list_codes K C R a es es' : lays_list R a es' -> R ⊆ C -> codes_at K C a es ->
  forallb (narrow K) es = true -> codes_at K R a es.
Proof.
  intros HR Hsub Hc Hn. destruct (narrow_all es') as [K' HK'].
  assert (HR' : forall K0, forallb (narrow K0) es' = true -> codes_at K0 R a es') by (intros; by apply lays_list_code).
  assert (es = es') as ->; [|by apply HR'].
  eapply codes_det; [exact Hc|]. eapply codes_sub; [apply sub_subseteq; exact Hsub|by apply HR'].
Qed.

(** * A definition, read, evaluated and released *)

Section defined.
Variables (K : nat) (g : Z) (G : frame) (ns : heap) (cnt : Z) (t : btree) (V : heap).
Hypothesis ns_globals : globals_at K ns g cnt t V G.

(** The values of the new global scope: the closure, and the code it keeps. *)
Definition defined_values (c n1 n2 a : Z) (R : heap) : heap :=
  R ∪ <[n2 := NValue (mk_value (VLst n1) 0 c JLVALUE_LAMBDA)]>
        (<[n1 := NValue (mk_value (VScope g) a 1 JLVALUE_SCOPE)]> V).

Lemma defined_globals R C x a ps body n1 n2 q :
  R ⊆ C -> C ##ₘ ns -> codes_at K R a (SList (map SVar ps) :: body) -> (length body <= K)%nat ->
  (forall r v, R !! r = Some (NValue v) -> v_count v = 1) ->
  n1 <> 0 -> n2 <> 0 -> n1 <> n2 -> (C ∪ ns) !! n1 = None -> (C ∪ ns) !! n2 = None -> G !! x = None ->
  scope_ok g (tinsert t q x n2) ->
  scope_map g 0 (cnt + 1) (tinsert t q x n2) ##ₘ defined_values 1 n1 n2 a R ->
  globals_at K (scope_map g 0 (cnt + 1) (tinsert t q x n2) ∪ defined_values 1 n1 n2 a R) g (cnt + 1)
    (tinsert t q x n2) (defined_values 1 n1 n2 a R) (<[x := Some (RFun ps body)]> G).
Proof.
  intros HRC Hd Ha Hlb HRc Hn1 Hn2 Hn12 [HC1 Hf1]%lookup_union_None [HC2 Hf2]%lookup_union_None Hx Ht HdS.
  pose proof ns_globals as [Hn _ HdV Hf Hc Ho]. rewrite Hn in Hd, Hf1, Hf2.
  apply map_disjoint_union_r in Hd as [_ HCV]. apply lookup_union_None in Hf1 as [_ HV1], Hf2 as [_ HV2].
  set (V1 := <[n1 := NValue (mk_value (VScope g) a 1 JLVALUE_SCOPE)]> V).
  set (V2 := <[n2 := NValue (mk_value (VLst n1) 0 1 JLVALUE_LAMBDA)]> V1).
  change (defined_values 1 n1 n2 a R) with (R ∪ V2) in *.
  assert (HR1 : R !! n1 = None) by (eapply lookup_weaken_None; [|exact HRC]; done).
  assert (HR2 : R !! n2 = None) by (eapply lookup_weaken_None; [|exact HRC]; done).
  assert (HRV : R ##ₘ V2).
  { do 2 (apply map_disjoint_insert_r_2; [done|]). eapply map_disjoint_weaken_l; [exact HCV|done]. }
  assert (Hsub2 : sub V2 (R ∪ V2)) by by apply sub_union_r.
  assert (HsubV : sub V (R ∪ V2)).
  { eapply sub_trans; [|exact Hsub2]. apply sub_subseteq.
    transitivity V1; [by apply insert_subseteq|]. apply insert_subseteq. unfold V1. by rewrite lookup_insert_ne. }
  assert (HsubR : sub R (R ∪ V2)) by apply sub_subseteq, map_union_subseteq_l.
  assert (El : (R ∪ V2) !! n2 = Some (NValue (mk_value (VLst n1) 0 1 JLVALUE_LAMBDA)))
    by (rewrite lookup_union_r by done; apply lookup_insert_eq).
  assert (Es : (R ∪ V2) !! n1 = Some (NValue (mk_value (VScope g) a 1 JLVALUE_SCOPE))).
  { rewrite lookup_union_r by done. unfold V2, V1. rewrite lookup_insert_ne by done. apply lookup_insert_eq. }
  split; [done|done|done| | |].
  3: { eapply owned_insert; [exact Ho|exact Hf|done|by right|]. rewrite El. by intros v [= <-]. }
  - apply frame_insert; [eapply frame_world; [exact HsubV|]; eapply frame_sub; [exact HsubV|exact Hf]|].
    split; [done|]. eexists. split; [exact El|]. split; [done|].
    destruct (codes_cons _ _ _ _ _ Ha) as (va & Ha0 & Hva & Hca & Hb).
    destruct (code_list _ _ _ _ Hca) as (va' & pp & Hva' & Hta & Hua & Hlp & Hpp). assert (va' = va) as -> by congruence.
    rewrite length_map in Hlp. exists n1, (mk_value (VScope g) a 1 JLVALUE_SCOPE), va, pp.
    do 5 (split; [done|]). split; [by apply lookup_union_Some_l|]. do 4 (split; [done|]).
    split; eapply codes_sub; eauto.
  - intros k v [Hk|[_ Hk]]%lookup_union_Some_raw; [rewrite (HRc _ _ Hk); lia|].
    unfold V2, V1 in Hk. apply lookup_insert_Some in Hk as [[_ [= <-]]|[_ Hk]]; [done|].
    apply lookup_insert_Some in Hk as [[_ [= <-]]|[_ Hk]]; [done|]. by eapply Hc.
Qed.

(** The heap after the form, with the code taken out. *)
Lemma defined_split C x a w n1 n2 q : C ##ₘ ns -> C !! a = Some (NValue w) -> v_count w = 1 ->
  C !! n1 = None -> C !! n2 = None ->
  scope_map g 0 (cnt + 1) (tinsert t q x n2) ##ₘ bound_closure a w g n1 n2 (C ∪ V) ->
  defined g C cnt t V x a w n1 n2 q =
    <[a := NValue (with_count 2 w)]> C ∪
      (scope_map g 0 (cnt + 1) (tinsert t q x n2) ∪ defined_values 2 n1 n2 a ∅) /\
  scope_map g 0 (cnt + 1) (tinsert t q x n2) ##ₘ C /\
  scope_map g 0 (cnt + 1) (tinsert t q x n2) ##ₘ defined_values 2 n1 n2 a ∅ /\
  C ##ₘ scope_map g 0 (cnt + 1) (tinsert t q x n2) ∪ defined_values 2 n1 n2 a ∅.
Proof.
  intros HdC Ha Hc H1 H2 Hd. unfold defined, bound_closure, closure_values, defined_values in *.
  set (S2 := scope_map g 0 (cnt + 1) (tinsert t q x n2)) in *. rewrite Hc in *. change (1 + 1) with 2 in *.
  rewrite insert_insert_eq in *. rewrite (left_id_L ∅ (∪)).
  assert (H1a : n1 <> a) by congruence. assert (H2a : n2 <> a) by congruence.
  set (Ca := <[a := NValue (with_count 2 w)]> C) in *.
  assert (E : forall l s0, <[n2 := l]> (<[n1 := s0]> (<[a := NValue (with_count 2 w)]> (C ∪ V))) =
    Ca ∪ <[n2 := l]> (<[n1 := s0]> V)).
  { intros l s0. rewrite insert_union_l. unfold Ca.
    by rewrite !insert_union_r by by rewrite ?lookup_insert_ne. }
  rewrite E in *. apply map_disjoint_union_r in Hd as [HdCa HdV].
  apply map_disjoint_insert_r in HdCa as [HSa HSC].
  split; [|split; [done|split; [done|]]].
  - rewrite !(assoc_L (∪)). f_equal. apply map_union_comm. by apply map_disjoint_insert_r_2.
  - apply map_disjoint_union_r_2; [by symmetry|]. do 2 (apply map_disjoint_insert_r_2; [done|]).
    pose proof (ga_nodes _ _ _ _ _ _ _ ns_globals) as Hn. rewrite Hn in HdC.
    by apply map_disjoint_union_r in HdC as [_ ?].
Qed.

Lemma wp_release_defined C p e x a w ps body n1 n2 q (Q : unit -> JLContext -> Prop) st :
  lays C p e 0 -> C ##ₘ ns -> C !! a = Some (NValue w) -> codes_at K C a (SList (map SVar ps) :: body) ->
  forallb (narrow K) (SList (map SVar ps) :: body) = true -> (length body <= K)%nat ->
  n1 <> 0 -> n2 <> 0 -> n1 <> n2 -> (C ∪ ns) !! n1 = None -> (C ∪ ns) !! n2 = None -> G !! x = None ->
  scope_ok g (tinsert t q x n2) ->
  scope_map g 0 (cnt + 1) (tinsert t q x n2) ##ₘ bound_closure a w g n1 n2 (C ∪ V) ->
  nodes st = defined g C cnt t V x a w n1 n2 q -> pool_ok st ->
  (forall ns' t' V' st', globals_at K ns' g (cnt + 1) t' V' (<[x := Some (RFun ps body)]> G) ->
     owes n2 ns' (nodes st') -> res_at K V' g (nodes st') n2 (Some (RFun ps body)) ->
     sub V' (nodes st') -> rest_of st' = rest_of st -> pool_ok st' -> Q tt st') ->
  wp (JLRelease p) Q st.
Proof.
  intros Hl HdC Ha Hcode Hnar Hlb Hn1 Hn2 Hn12 Hf1 Hf2 Hx Ht Hd Hn Hok HQ.
  pose proof (lays_count _ _ _ _ Hl _ _ Ha) as Hc.
  pose proof Hf1 as [HC1 _]%lookup_union_None. pose proof Hf2 as [HC2 _]%lookup_union_None.
  destruct (defined_split C x a w n1 n2 q HdC Ha Hc HC1 HC2 Hd) as (E & HSC & HSV & HCr). rewrite E in Hn.
  set (S2 := scope_map g 0 (cnt + 1) (tinsert t q x n2)) in *.
  assert (Hll : lays_list C p [e]).
  { rewrite <- (right_id_L ∅ (∪) C). eapply lays_cons; [apply map_disjoint_empty_r|exact Hl|constructor]. }
  destruct (lays_list_keeps _ _ _ Hll a w Ha) as (R & es' & HR & HRC & Hdr).
  eapply wp_JLRelease_drops; [exact Hdr|exact Hok|exact Hn| |].
  { apply map_disjoint_insert_l_2; [|done]. eapply map_disjoint_Some_l; [exact HCr|exact Ha]. }
  intros st' Hn' Hr' Hp'.
  assert (HSR : S2 ##ₘ R) by (eapply map_disjoint_weaken_r; [exact HSC|done]).
  assert (Ev : forall c, defined_values c n1 n2 a R = R ∪ defined_values c n1 n2 a ∅)
    by (intros c; unfold defined_values; by rewrite (left_id_L ∅ (∪))).
  assert (Hn2' : nodes st' = S2 ∪ defined_values 2 n1 n2 a R).
  { rewrite Hn', Ev, !(assoc_L (∪)). f_equal. apply map_union_comm. by symmetry. }
  assert (HdS : forall c, S2 ##ₘ defined_values c n1 n2 a R).
  { intros c. rewrite Ev. apply map_disjoint_union_r_2; [done|].
    unfold defined_values in *. rewrite (left_id_L ∅ (∪)) in *.
    apply map_disjoint_insert_r in HSV as [? ?]. by apply map_disjoint_insert_r_2. }
  assert (HRa : codes_at K R a (SList (map SVar ps) :: body)) by by eapply lays_list_codes.
  assert (HR2 : R !! n2 = None) by (eapply lookup_weaken_None; [|exact HRC]; done).
  pose proof (defined_globals R C x a ps body n1 n2 q HRC HdC HRa Hlb
    (lays_list_count _ _ _ HR) Hn1 Hn2 Hn12 Hf1 Hf2 Hx Ht (HdS 1)) as Hgl.
  assert (Hheld : held n2 (S2 ∪ defined_values 1 n1 n2 a R) (S2 ∪ defined_values 2 n1 n2 a R)).
  { apply held_under; [|eapply map_disjoint_Some_r; [exact (HdS 1)|];
      unfold defined_values; rewrite lookup_union_r by done; apply lookup_insert_eq].
    right. split; [done|]. eapply (acq_old _ _ _ (mk_value (VLst n1) 0 1 JLVALUE_LAMBDA)); [|done|].
    - unfold defined_values. rewrite lookup_union_r by done. apply lookup_insert_eq.
    - unfold defined_values. rewrite insert_union_r by done. by rewrite insert_insert_eq. }
  assert (Hsub : sub (defined_values 1 n1 n2 a R) (S2 ∪ defined_values 2 n1 n2 a R))
    by (eapply sub_trans; [|by eapply held_sub]; by apply sub_union_r).
  eapply HQ; [exact Hgl|by rewrite Hn2'; apply owes_held| |by rewrite Hn2'|done|done].
  pose proof (ga_frame _ _ _ _ _ _ _ Hgl x) as Hfx. rewrite tfind_insert, decide_True in Hfx by done.
  destruct Hfx as (v & Ev' & Hres).
  assert (Ex : (<[x := Some (RFun ps body)]> G : frame) !! x = Some (Some (RFun ps body))) by apply lookup_insert_eq.
  pose proof (eq_trans (eq_sym Ex) Ev') as Ev2. injection Ev2 as <-. rewrite Hn2'. by eapply res_sub.
Qed.

End defined.

(** * Sessions *)

(** The reference for a text of definitions and expressions. *)
Definition param_names : list sexp -> option (list bytes) :=
  mapM (fun e => match e with SVar x => Some x | _ => None end).

Definition as_define (e : sexp) : option (bytes * list bytes * list sexp) :=
  match e with
  | SList [SVar d; SVar x; SList (SVar l :: SList ps :: body)] =>
      if bool_decide (d = define_name) && bool_decide (l = lambda_name)
      then names ← param_names ps; Some (x, names, body)
      else None
  | _ => None
  end.

(** The definition of a new name, while [define] and [lambda] have their meaning. *)
Definition can_define (G : frame) (x : bytes) (body : list sexp) : bool :=
  match G !! define_name, G !! lambda_name, G !! x, body with
  | Some (Some (RSpecial F_Define)), Some (Some (RSpecial F_Lambda)), None, _ :: _ => true
  | _, _, _, _ => false
  end.

Fixpoint rforms (ln max : Z) (n : nat) (G : frame) (es : list sexp) (last : result) (s : rstate)
    : option (result * frame * rstate) :=
  match es with
  | [] => Some (last, G, s)
  | e :: es' =>
      match as_define e with
      | Some (x, ps, body) =>
          if can_define G x body
          then rforms ln max n (<[x := Some (RFun ps body)]> G) es' (Some (RFun ps body)) (false, s.2)
          else None
      | None => '(v, s) ← reval ln max G n 0 [] (Some e) s; rforms ln max n G es' v s
      end
  end.

Lemma as_define_form e x ps body : as_define e = Some (x, ps, body) -> e = define_form x ps body.
Proof.
  assert (Hp : forall es names, param_names es = Some names -> es = map SVar names).
  { unfold param_names. induction es as [|e0 es IH]; intros names Hn.
    - by injection Hn as <-.
    - cbn in Hn. destruct e0; try done. cbn in Hn.
      destruct (mapM _ es) as [ns|] eqn:E; [|done]. injection Hn as <-. simpl. f_equal. by apply IH. }
  unfold as_define, define_form.
  destruct e as [| | |[|[| |d|] [|[| |y|] [|[| | |[|[| |l|] [|[| | |qs] body']]] [|]]]]]; try done.
  destruct (bool_decide (d = define_name)) eqn:Ed; [|done].
  destruct (bool_decide (l = lambda_name)) eqn:El; [|done].
  apply bool_decide_eq_true in Ed as ->, El as ->. cbn [andb].
  destruct (param_names qs) as [names|] eqn:E; [|done]. intros [= <- <- <-]. by rewrite (Hp _ _ E).
Qed.

(** Where the parts of the form lie. *)
Lemma define_positions K C ns q x ps body q0 v0 p1 v1 p2 a w :
  code_at K C q (define_form x ps body) ->
  (exists vp, (C ∪ ns) !! q = Some (NValue vp) /\ v_value vp = VLst q0) ->
  (C ∪ ns) !! q0 = Some (NValue v0) -> v_next v0 = p1 -> (C ∪ ns) !! p1 = Some (NValue v1) ->
  v_next v1 = p2 -> tail_at (C ∪ ns) p2 a -> (C ∪ ns) !! a = Some (NValue w) ->
  C !! a = Some (NValue w) /\ codes_at K C a (SList (map SVar ps) :: body).
Proof.
  intros Hc (vp & Hvp & Hup) Hv0 <- Hv1 <- (vl & h & vh & Hvl & Hul & Hvh & <-) Hw.
  assert (Hin : forall k v v', C !! k = Some (NValue v) -> (C ∪ ns) !! k = Some (NValue v') -> v' = v).
  { intros k v v' Hk Hk'. rewrite (lookup_union_Some_l _ _ _ _ Hk) in Hk'. congruence. }
  destruct (code_list _ _ _ _ Hc) as (u & q1 & Hu & _ & Huq & _ & Hq1).
  assert (vp = u) as -> by by eapply Hin. assert (q1 = q0) as -> by congruence.
  destruct (codes_cons _ _ _ _ _ Hq1) as (u0 & _ & Hu0 & _ & Hq2).
  assert (v0 = u0) as -> by by eapply Hin.
  destruct (codes_cons _ _ _ _ _ Hq2) as (u1 & _ & Hu1 & _ & Hq3).
  assert (v1 = u1) as -> by by eapply Hin.
  destruct (codes_cons _ _ _ _ _ Hq3) as (u2 & _ & Hu2 & Hcl & _).
  destruct (code_list _ _ _ _ Hcl) as (u3 & h' & Hu3 & _ & Hul3 & _ & Hh).
  assert (vl = u3) as -> by by eapply Hin. assert (h' = h) as -> by congruence.
  destruct (codes_cons _ _ _ _ _ Hh) as (u4 & _ & Hu4 & _ & Ha).
  assert (vh = u4) as -> by by eapply Hin. split; [|done].
  destruct (codes_cons _ _ _ _ _ Ha) as (u5 & _ & Hu5 & _). by rewrite (Hin _ _ _ Hu5 Hw).
Qed.

Lemma narrow_form K x ps body : narrow K (define_form x ps body) = true ->
  forallb (narrow K) (SList (map SVar ps) :: body) = true /\ (length body <= K)%nat.
Proof.
  unfold define_form. cbn [narrow forallb length]. rewrite !andb_true_iff, !Nat.leb_le.
  intros (_ & _ & _ & ((Hl & _ & Hps & Hb) & _)). split; [done|lia].
Qed.

Section sessions.
Context `{JLLib}.
Hypothesis atof_token : forall s c rest, number_token s -> is_separator c = true ->
  atof (s ++ until_zero (c :: rest)) = atof s.
Variables (K N : nat) (g ln max : Z).
Hypothesis bound : 1 + Z.of_nat (S (S (S N))) * (Z.of_nat K + 4) <= 4294967293.
Hypothesis max_bound : 3 <= max.
Abbreviation fuel := (S (S (S N)) + K)%nat.

Lemma globals_disjoint (C ns0 ns : heap) : dom ns0 ⊆ dom ns -> C ##ₘ ns -> C ##ₘ ns0.
Proof. rewrite !map_disjoint_dom. set_solver. Qed.

(** A definition, from the release of the last result on. *)
Lemma wp_define_item {A} C q x ps body result def last ns cnt t V G s st st1 (k : Z -> M A) Q :
  lays C q (define_form x ps body) 0 -> narrow K (define_form x ps body) = true -> C ##ₘ nodes st ->
  globals_at K ns g cnt t V G -> 0 <= cnt < 4294967295 -> can_define G x body = true ->
  line_post K g ln max ns def last s result st -> nodes st1 = C ∪ nodes st -> pool_ok st1 ->
  rest_of st1 = rest_of st ->
  (forall r ns' t' V' st', globals_at K ns' g (cnt + 1) t' V' (<[x := Some (RFun ps body)]> G) ->
     line_post K g ln max ns' true (Some (RFun ps body)) (false, s.2) r st' -> wp (k r) Q st') ->
  wp (JLRelease result;; result ← JLEvaluate fuel q; JLRelease q;; k result) Q st1.
Proof.
  intros Hl Hnar Hd Hgl Hcnt Hcan (How & _ & Hrest & Hok) Hn1 Hp1 Hr1 HQ.
  apply wp_bind. eapply (ow_run _ _ _ How C); [done|exact Hn1|done|]. intros st2 Hn2 Hr2 Hp2.
  assert (Hd2 : C ##ₘ ns) by by eapply globals_disjoint; [apply How|].
  assert (HB : 1 <= 1) by lia.
  pose proof (globals_base K g G 1 _ _ _ _ HB Hgl) as Hb.
  assert (Hr2' : rest_of st2 = ctx ln max g 0 s) by congruence.
  pose proof (code_stok K g G ln max 1 C ns q _ s st2 Hb Hl Hd2 Hn2 Hp2 Hr2') as Hk2.
  unfold can_define in Hcan. destruct (G !! define_name) as [[[| |[]|]|]|] eqn:Hdef; try done.
  destruct (G !! lambda_name) as [[[| |[]|]|]|] eqn:Hlam; try done.
  destruct (G !! x) eqn:Hx; [done|]. assert (Hbody : body <> []) by by destruct body.
  pose proof (lays_code _ _ _ _ _ Hl Hnar) as HcC.
  assert (HsubC : sub C (C ∪ ns)) by apply sub_subseteq, map_union_subseteq_l.
  apply wp_bind. eapply (wp_eval_define K g G ln max ns C cnt t V Hgl Hd2 Hlam Hcnt max_bound N);
    [lia|exact Hdef|exact Hk2|done|by eapply lays_pos|by eapply code_sub|done|done|].
  intros q0 v0 p1 v1 p2 a w n1 n2 q' st3 Hvp Hv0 En0 Hv1 En1 Hpos Ha Hwa Hn10 Hn20 Hn12 Hf1 Hf2 Ht3 Hn3 Hd3 Hr3 Hp3.
  destruct (define_positions K C ns q x ps body q0 v0 p1 v1 p2 a w HcC Hvp Hv0 En0 Hv1 En1 Hpos Hwa) as (HaC & HcaC).
  apply wp_bind.
  eapply (wp_release_defined K g G ns cnt t V Hgl C q _ x a w ps body n1 n2 q');
    [exact Hl|done|exact HaC|exact HcaC|by apply (narrow_form K x)|by apply (narrow_form K x ps)|done..|].
  intros ns' t' V' st4 Hgl' How' Hres Hsub Hr4 Hp4. eapply HQ; [exact Hgl'|].
  split; [done|]. split; [by exists V'|]. split; [congruence|done].
Qed.

(** Is the last of the forms a definition?  [def] says so when there is none. *)
Fixpoint last_defines (def : bool) (es : list sexp) : bool :=
  match es with
  | [] => def
  | e :: es' => last_defines (match as_define e with Some _ => true | None => false end) es'
  end.

(** What the heap owes besides the result, after some of the text. *)
Definition session_post (ns : heap) (cnt : Z) (def : bool) (es : list sexp) (G' : frame) (v : result) (rs : rstate)
    (r : Z * cursor) (st : JLContext) : Prop :=
  exists ns' cnt' t' V', globals_at K ns' g cnt' t' V' G' /\ cnt <= cnt' <= cnt + zlen es /\
    line_post K g ln max ns' (last_defines def es) v rs r.1 st /\
    (forallb (fun e => bool_decide (as_define e = None)) es = true -> ns' = ns).

Lemma wp_ProcessBuffer es s : program_written es s -> forall n txt p result def last ns cnt t V G rs st v G' rs',
  (length es < n)%nat -> globals_at K ns g cnt t V G -> 0 <= cnt -> cnt + zlen es <= 4294967295 ->
  forallb (narrow K) es = true -> at_text txt p s -> line_post K g ln max ns def last rs result st ->
  rforms ln max (S (S (S N))) G es last rs = Some (v, G', rs') ->
  wp (ProcessBuffer n fuel (txt, p) result) (session_post ns cnt def es G' v rs') st.
Proof.
  induction 1 as [w junk Hw|w e s c rest es Hw Hwr Hpw IH];
    intros n txt p result def last ns cnt t V G rs st v G' rs' Hn Hgl Hc0 Hcnt Hnar Hat Hpost He;
    (destruct n as [|n]; [simpl in Hn; lia|]).
  - injection He as <- <- <-. eapply wp_ProcessBuffer_end; [done|exact Hat|]. intros cur.
    exists ns, cnt, t, V. rewrite zlen_nil. split; [done|]. split; [lia|done].
  - cbn [forallb] in Hnar. apply andb_true_iff in Hnar as [Hne Hnar]. rewrite zlen_cons in *.
    pose proof (zlen_nonneg es) as Hz0. pose proof Hpost as (_ & _ & _ & Hok).
    eapply (wp_ProcessBuffer_item atof_token w e s c rest);
      [done|done|by eapply program_head|by eapply program_zero|done|exact Hat|].
    intros q txt1 p1 st1 C HC Hd Hn1 Hp1 Hr1 Hat1. cbn [rforms] in He.
    destruct (as_define e) as [[[x ps] body]|] eqn:Ed.
    + destruct (can_define G x body) eqn:Hcan; [|done].
      pose proof (as_define_form _ _ _ _ Ed) as Ee. rewrite Ee in HC, Hne.
      eapply (wp_define_item C q x ps body result def last ns cnt t V G rs st);
        [exact HC|done|done|exact Hgl|lia|done|exact Hpost|done|done|done|].
      intros r ns' t' V' st' Hgl' Hpost'.
      eapply wp_mono; [eapply (IH n txt1 p1); [simpl in Hn; lia|exact Hgl'|lia|lia|done|exact Hat1|exact Hpost'|exact He]|].
      intros r2 st2 (ns2 & cnt2 & t2 & V2 & Hgl2 & Hc2 & Hp2 & _). exists ns2, cnt2, t2, V2.
      rewrite zlen_cons. split; [done|]. split; [lia|]. cbn [last_defines forallb]. by rewrite Ed.
    + apply bind_Some in He as ([v1 s1] & E & He). assert (HB : 1 <= 1) by lia.
      eapply (wp_evaluate_code K _ g G ln max 1 bound C ns q e result def last rs);
        [by eapply globals_base|exact HC|done|exact Hd|exact E|exact Hpost| |done|done|done].
      intros r st2 Hpost2.
      eapply wp_mono; [eapply (IH n txt1 p1); [simpl in Hn; lia|exact Hgl|lia|lia|done|exact Hat1|exact Hpost2|exact He]|].
      intros r3 st3 (ns2 & cnt2 & t2 & V2 & Hgl2 & Hc2 & Hp2 & Hsame). exists ns2, cnt2, t2, V2.
      rewrite zlen_cons. split; [done|]. split; [lia|]. cbn [last_defines forallb]. by rewrite Ed.
Qed.

End sessions.
