(* ===== verification/JlConsole.v ===== *)
(** The console of the JL interpreter: a line that is typed is read, evaluated,
    answered and forgotten, line after line, with [print] bound anew each time. *)
From Stdlib Require Import SpecFloat.
From S2P Require Import Prelude CText JlHeap JlEval JlLogic JlScopes JlTree JlRef JlRepr JlPrint JlFuncSpec JlParse JlReader JlSpec JlSession JlProgram JlDefine.

(** * A name that is bound already *)

(** A binding of the tree with another value. *)
Definition rebound (b : BindingNode) (w : Z) : FreeNode :=
  NBinding (mk_binding (b_name b) w (b_left b) (b_right b)).

Lemma tree_ok_replace t q x a w : tree_ok t -> tfind t x = Some a -> tree_ok (tinsert t q x w) /\
  dom (tmap (tinsert t q x w)) = dom (tmap t).
Proof.
  induction t as [|p y v l IHl r IHr]; intros Hok Hx; [done|].
  simpl in *. destruct Hok as (Hp & Hl & Hr & Hd & Hokl & Hokr).
  destruct (strcmp y x <? 0); [|destruct (strcmp y x >? 0)]; simpl.
  - destruct (IHl Hokl Hx) as [Hok' E]. rewrite !dom_insert_L, !dom_union_L, E. split; [|done].
    split; [done|]. split; [by apply not_elem_of_dom; rewrite E; apply not_elem_of_dom|].
    split; [done|]. split; [|done]. by apply map_disjoint_dom; rewrite E; apply map_disjoint_dom.
  - destruct (IHr Hokr Hx) as [Hok' E]. rewrite !dom_insert_L, !dom_union_L, E. split; [|done].
    split; [done|]. split; [done|]. split; [by apply not_elem_of_dom; rewrite E; apply not_elem_of_dom|].
    split; [|done]. by apply map_disjoint_dom; rewrite E; apply map_disjoint_dom.
  - split; [done|]. by rewrite !dom_insert_L.
Qed.

(** Where a name is bound, [define_loop] releases the value and stores the new
    one. *)
Lemma wp_define_loop_old t x a w : forall fuel r n (Q : unit -> JLContext -> Prop) st,
  tree_at (nodes st) t -> (theight t < fuel)%nat -> tfind t x = Some a ->
  nodes st !! root_node r = Some n -> root_is r (troot t) n ->
  (forall p b, tmap t !! p = Some (NBinding b) ->
     (forall q, tmap (tinsert t q x w) = <[p := rebound b w]> (tmap t)) ->
     wp (JLRelease a;; b ← get_binding p; put_node p (rebound b w)) Q st) ->
  wp (define_loop fuel r x w) Q st.
Proof.
  induction t as [|p y v tl IHl tr IHr]; intros fuel r n Q st Ht Hf Hx Hr Hri HQ; [done|].
  destruct fuel as [|fuel]; [simpl in Hf; lia|]. cbn [define_loop].
  apply wp_bind. eapply wp_root_get; [done..|]. cbn [troot].
  pose proof Ht as (Hp & Hnode & Htl & Htr)%tree_at_node.
  destruct Ht as [(_ & Hpl & Hpr & Hd & _ & _) _]. zif_false. apply wp_bind.
  eapply wp_get_binding; [done|]. cbn [b_name]. simpl in Hx, Hf. cbn [tinsert tmap] in HQ.
  destruct (strcmp y x <? 0) eqn:E1; [|destruct (strcmp y x >? 0) eqn:E2].
  - eapply IHl; [done|lia|done|exact Hnode|done|]. intros k b Hk Hins.
    assert (Hkp : k <> p) by congruence. apply (HQ k b).
    + rewrite lookup_insert_ne by done. by apply lookup_union_Some_l.
    + intros q. cbn [tmap]. rewrite tinsert_root by by intros ->.
      by rewrite Hins, <- insert_union_l, insert_insert_ne by done.
  - eapply IHr; [done|lia|done|exact Hnode|done|]. intros k b Hk Hins.
    assert (Hkp : k <> p) by congruence. apply (HQ k b).
    + rewrite lookup_insert_ne by done. by apply lookup_union_Some_r.
    + intros q. cbn [tmap]. rewrite tinsert_root by by intros ->.
      rewrite Hins, <- insert_union_r by by eapply map_disjoint_Some_r. by rewrite insert_insert_ne by done.
  - injection Hx as ->. cbn [b_value]. apply (HQ p (mk_binding y a (troot tl) (troot tr))).
    + apply lookup_insert_eq.
    + intros q. cbn [tmap]. by rewrite insert_insert_eq.
Qed.

(** The last reference to a function of the table. *)
Lemma wp_release_special a v (Q : unit -> JLContext -> Prop) st : pool_ok st ->
  nodes st !! a = Some (NValue v) -> v_count v = 1 -> v_tag v = JLVALUE_SPECIAL -> v_next v = 0 ->
  (forall st', nodes st' = delete a (nodes st) -> rest_of st' = rest_of st -> pool_ok st' -> Q tt st') ->
  wp (JLRelease a) Q st.
Proof.
  intros Hok Ha Hc Ht Hn HQ. pose proof (pool_ok_pos _ _ _ Hok Ha) as Ha0. unfold JLRelease, wp.
  change (wp (release_value (heap_fuel st) a) Q st). unfold heap_fuel. cbn [Nat.add release_value]. zif_false.
  apply wp_bind. eapply wp_update_value; [exact Ha|]. set (st1 := set_nodes _ st).
  apply wp_bind. eapply wp_get_value; [cbn; apply lookup_insert_eq|]. cbn [with_count v_count v_tag v_next].
  rewrite Hc, Ht, Hn. change (u32 (1 - 1)) with 0. cbn [Z.eqb Pos.eqb orb JLVALUE_LIST JLVALUE_LAMBDA JLVALUE_STRING JLVALUE_VARIABLE JLVALUE_SCOPE JLVALUE_SPECIAL].
  apply wp_bind, wp_ret, wp_bind. eapply wp_PutFree; [by eapply pool_ok_update|cbn; apply lookup_insert_eq|].
  intros st2 Hn2 Hr2 Hp2. apply wp_ret, HQ; [|done|done]. rewrite Hn2. cbn. by rewrite delete_insert_eq.
Qed.

(** * Code and values without a function of the table *)

(** [V'] has every value of [V] that is no function of the table. *)
Definition keeps_values (V V' : heap) : Prop :=
  forall p v, V !! p = Some (NValue v) -> v_tag v <> JLVALUE_SPECIAL -> V' !! p = Some (NValue v).

Lemma code_tag K V p e v : code_at K V p e -> V !! p = Some (NValue v) -> v_tag v <> JLVALUE_SPECIAL.
Proof.
  intros Hc Hv. destruct e; destruct Hc as (w & Hw & He);
    (assert (w = v) as -> by congruence); by destruct He as [-> _].
Qed.

Lemma code_keep K V V' e : keeps_values V V' -> forall p, code_at K V p e -> code_at K V' p e.
Proof.
  intros Hk. induction e as [d|s|x|es IH] using sexp_ind; intros p Hc; pose proof Hc as (v & Hv & H);
    pose proof (Hk _ _ Hv (code_tag _ _ _ _ _ Hc Hv)) as Hv'; exists v; (split; [done|]); try done.
  destruct H as (Ht & Hl & q & Hu & Hq). split; [done|]. split; [done|]. exists q. split; [done|].
  clear - Hk IH Hq. revert q Hq. induction IH as [|e es He _ IH]; intros q Hq; [done|].
  destruct Hq as (Hq0 & Hc & w & Hw & Hq). split; [done|]. split; [auto|].
  exists w. split; [apply Hk; [done|by eapply code_tag]|]. by apply IH.
Qed.

Lemma codes_keep K V V' es : keeps_values V V' -> forall q, codes_at K V q es -> codes_at K V' q es.
Proof.
  intros Hk. induction es as [|e es IH]; intros q Hq; [done|].
  destruct Hq as (Hq0 & Hc & w & Hw & Hq). split; [done|]. split; [by eapply code_keep|].
  exists w. split; [apply Hk; [done|by eapply code_tag]|]. auto.
Qed.

Lemma val_keep K V V' g v rv : keeps_values V V' -> val_at K V g v rv -> val_at K V' g v rv.
Proof.
  intros Hk [Ht Hv]. split; [done|]. destruct rv as [d|s|f|ps body]; try done.
  destruct Hv as (l & sv & pv & pp & Hu & Hl & Hts & Hus & Hn & Hpv & Htp & Hup & Hlp & Hlb & Hp & Hb).
  exists l, sv, pv, pp. split; [done|]. split; [apply Hk; [done|by rewrite Hts]|]. do 3 (split; [done|]).
  split; [apply Hk; [done|by rewrite Htp]|]. do 4 (split; [done|]). split; by eapply codes_keep.
Qed.

(** The heap of the values, with one function of the table in place of another. *)
Definition swapped (a p : Z) (f : JLFunction) (V : heap) : heap :=
  <[p := NValue (mk_value (VSpecial f) 0 1 JLVALUE_SPECIAL)]> (delete a V).

Lemma swapped_keeps a p f v V : V !! p = None -> V !! a = Some (NValue v) -> v_tag v = JLVALUE_SPECIAL ->
  keeps_values V (swapped a p f V).
Proof.
  intros Hp Ha Ht q w Hq Hw. unfold swapped. rewrite lookup_insert_ne by (intros ->; congruence).
  rewrite lookup_delete_ne; [done|]. intros ->. congruence.
Qed.

Lemma swapped_same a p f V q : q <> a -> q <> p -> swapped a p f V !! q = V !! q.
Proof. intros. unfold swapped. by rewrite lookup_insert_ne, lookup_delete_ne by done. Qed.

Section again.
Variables (K : nat) (g : Z).

(** The global frame with a function of the table bound to another one. *)
Lemma swapped_frame t V G q x a p v f : frame_at K V g V t G -> owned V t -> tfind t x = Some a -> a <> 0 ->
  V !! a = Some (NValue v) -> v_tag v = JLVALUE_SPECIAL -> p <> 0 -> V !! p = None ->
  frame_at K (swapped a p f V) g (swapped a p f V) (tinsert t q x p) (<[x := Some (RSpecial f)]> G).
Proof.
  intros Hf Ho Hx Ha Hv Ht Hp Hfresh y. rewrite tfind_insert. case_decide as Hy.
  - subst y. exists (Some (RSpecial f)). split; [apply lookup_insert_eq|]. split; [done|].
    exists (mk_value (VSpecial f) 0 1 JLVALUE_SPECIAL). split; [apply lookup_insert_eq|done].
  - assert (E : (<[x := Some (RSpecial f)]> G : frame) !! y = G !! y) by by apply lookup_insert_ne.
    rewrite E. specialize (Hf y). destruct (tfind t y) as [b|] eqn:Hb; [|done].
    destruct Hf as (r & Hr & Hres). exists r. split; [done|]. destruct r as [rv|]; [|done].
    destruct Hres as (Hb0 & w & Hw & Hval). split; [done|]. exists w. split; [|by eapply val_keep; [eapply swapped_keeps|]].
    rewrite swapped_same; [done| |congruence]. intros ->. apply Hy. by apply (Ho x a Hx Ha).
Qed.

Lemma swapped_owned t V G q x a p f : owned V t -> frame_at K V g V t G -> V !! p = None ->
  owned (swapped a p f V) (tinsert t q x p).
Proof.
  intros Ho Hf Hp y b. rewrite tfind_insert. case_decide as Hy; intros Hb Hb0.
  - injection Hb as <-. subst y. split.
    + intros z. rewrite tfind_insert. case_decide; [done|]. intros Hz.
      destruct (frame_value _ _ _ _ _ _ _ _ Hf Hz Hb0) as (rv & w & _ & Hw & _). congruence.
    + intros v. unfold swapped. rewrite lookup_insert_eq. by intros [= <-].
  - destruct (frame_value _ _ _ _ _ _ _ _ Hf Hb Hb0) as (rv & w & _ & Hw & _). split.
    + intros z. rewrite tfind_insert. case_decide; [intros [= <-]; congruence|]. by apply (Ho y b).
    + intros v. unfold swapped. rewrite lookup_insert_ne by congruence. intros [_ Hv]%lookup_delete_Some.
      by apply (Ho y b).
Qed.

(** The rebinding of a name that is bound to a function of the table. *)
Lemma wp_rebind_special x a p v un f cnt t V (Q : unit -> JLContext -> Prop) st :
  pool_ok st -> jl_scope st = g -> scope_ok g t -> scope_map g 0 cnt t ##ₘ V -> V !! p = None -> p <> 0 ->
  scope_map g 0 cnt t !! p = None -> tfind t x = Some a -> a <> 0 ->
  V !! a = Some (NValue v) -> v_count v = 1 -> v_tag v = JLVALUE_SPECIAL -> v_next v = 0 ->
  nodes st = scope_map g 0 cnt t ∪ <[p := NValue (mk_value un 0 1 JLVALUE_SPECIAL)]> V ->
  (forall st', scope_ok g (tinsert t 0 x p) ->
     scope_map g 0 cnt (tinsert t 0 x p) ##ₘ swapped a p f V ->
     nodes st' = scope_map g 0 cnt (tinsert t 0 x p) ∪
       <[p := NValue (mk_value un 0 2 JLVALUE_SPECIAL)]> (delete a V) ->
     rest_of st' = rest_of st -> pool_ok st' -> Q tt st') ->
  wp (JLDefineValue (Some x) p) Q st.
Proof.
  intros Hok Hg (Hg0 & Hgt & Ht) Hd HpV Hp0 HpS Hx Ha0 Ha Hc Htag Hnx Hn HQ.
  set (u := fun c => NValue (mk_value un 0 c JLVALUE_SPECIAL)) in *. set (S := scope_map g 0 cnt t) in *.
  unfold JLDefineValue. apply wp_bind, wp_gets, wp_bind. rewrite Hg.
  assert (Hpn : nodes st !! p = Some (u 1)) by (rewrite Hn, lookup_union_r by done; apply lookup_insert_eq).
  unfold JLRetain. zif_false. eapply wp_update_value; [exact Hpn|]. cbn [v_count].
  set (st1 := set_nodes _ st). assert (Hn1 : nodes st1 = S ∪ <[p := u 2]> V).
  { cbn. by rewrite Hn, insert_union_r, insert_insert_eq. }
  assert (Hp1 : pool_ok st1) by by eapply pool_ok_update.
  apply wp_bind, wp_gets. assert (Htree : tree_at (nodes st1) t).
  { split; [done|]. rewrite Hn1. etransitivity; [|apply map_union_subseteq_l]. by apply insert_subseteq. }
  pose proof (tree_at_height _ _ Htree) as Hht.
  assert (Hsn : nodes st1 !! g = Some (NScope (mk_scope (troot t) 0 cnt)))
    by by rewrite Hn1; unfold S, scope_map; rewrite <- insert_union_l, lookup_insert_eq.
  eapply (wp_define_loop_old t x a p _ (RScope g)); [exact Htree|unfold heap_fuel, id; lia|done|exact Hsn|done|].
  intros k b Hk Hins. assert (HaS : S !! a = None) by by eapply map_disjoint_Some_r.
  assert (Hap : a <> p) by congruence.
  apply wp_bind. eapply (wp_release_special a v); [done|rewrite Hn1, lookup_union_r by done; by rewrite lookup_insert_ne|done..|].
  intros st2 Hn2 Hr2 Hp2.
  assert (Hn2' : nodes st2 = S ∪ <[p := u 2]> (delete a V)).
  { rewrite Hn2, Hn1, delete_union, delete_id by done. by rewrite delete_insert_ne. }
  destruct (tree_ok_replace t 0 x a p Ht Hx) as [Hok' Hdom].
  assert (HkS : S !! k = Some (NBinding b)).
  { unfold S, scope_map. rewrite lookup_insert_ne; [done|]. intros ->. congruence. }
  apply wp_bind. eapply wp_get_binding; [rewrite Hn2'; by apply lookup_union_Some_l|]. apply wp_put_node.
  assert (Hroot : troot (tinsert t 0 x p) = troot t) by (apply tinsert_root; by intros ->).
  apply HQ; try done.
  - split; [done|]. split; [|done]. by apply not_elem_of_dom; rewrite Hdom; apply not_elem_of_dom.
  - assert (HdD : S ##ₘ swapped a p f V).
    { apply map_disjoint_insert_r_2; [done|]. by apply map_disjoint_delete_r. }
    revert HdD. unfold S, scope_map. rewrite Hroot, !map_disjoint_dom, !dom_insert_L, Hdom. done.
  - cbn. rewrite Hn2', insert_union_l. f_equal. unfold S, scope_map. rewrite Hroot, Hins.
    rewrite insert_insert_ne; [done|]. intros ->. congruence.
  - eapply pool_ok_update; [done|]. rewrite Hn2'. by apply lookup_union_Some_l.
Qed.

(** [JLDefineSpecial] for a name that is bound to a function of the table. *)
Lemma wp_JLDefineSpecial_again x f f0 st cnt t V G (Q : unit -> JLContext -> Prop) :
  globals K st g cnt t V G -> G !! x = Some (Some (RSpecial f0)) ->
  (forall t' V' st', globals K st' g cnt t' V' (<[x := Some (RSpecial f)]> G) ->
     rest_of st' = rest_of st -> Q tt st') ->
  wp (JLDefineSpecial x f) Q st.
Proof.
  intros [Hp [Hn Ht Hd Hf Hc Ho] Hsc] Hx HQ.
  pose proof (Hf x) as Hfx. destruct (tfind t x) as [a|] eqn:Hta; [|by pose proof (eq_trans (eq_sym Hx) Hfx)].
  destruct Hfx as (r & Hr & Hres). pose proof (eq_trans (eq_sym Hx) Hr) as Er. injection Er as <-.
  destruct Hres as (Ha0 & v & Hv & Htag & Hval). cbn [rtag] in Htag.
  pose proof (Hc _ _ Hv) as Hc1. destruct (Ho x a Hta Ha0) as [_ Hnx]. specialize (Hnx v Hv Htag).
  unfold JLDefineSpecial, CreateValue. apply wp_bind, wp_bind. apply wp_GetFree; [done|].
  intros p st1 Hp0 Hfresh Hn1 Hr1 Hpt. apply wp_bind, wp_put_node, wp_bind.
  set (st2 := set_nodes _ st1). rewrite Hn in Hfresh. apply lookup_union_None in Hfresh as [HfS HfV].
  assert (Hn2 : nodes st2 = scope_map g 0 cnt t ∪ <[p := NValue (mk_value VUndef 0 1 JLVALUE_SPECIAL)]> V)
    by by cbn; rewrite Hn1, Hn, insert_union_r.
  assert (Hsc2 : jl_scope st2 = g) by (unfold rest_of in Hr1; cbn; congruence).
  eapply (wp_rebind_special x a p v VUndef f cnt t V);
    [by apply pool_taken_put|done|done|done|done|done|done|done|done|exact Hv|lia|done|done|exact Hn2|].
  intros st3 Ht3 Hd3 Hn3 Hr3 Hp3. apply wp_ret, wp_bind.
  set (S3 := scope_map g 0 cnt (tinsert t 0 x p)) in *.
  assert (HSp : S3 !! p = None) by by eapply map_disjoint_Some_r; [exact Hd3|apply lookup_insert_eq].
  eapply wp_update_value; [by rewrite Hn3, lookup_union_r, lookup_insert_eq|]. set (st4 := set_nodes _ st3).
  assert (Hn4 : nodes st4 = S3 ∪ <[p := NValue (mk_value (VSpecial f) 0 2 JLVALUE_SPECIAL)]> (delete a V)).
  { cbn. by rewrite Hn3, insert_union_r, insert_insert_eq. }
  eapply (wp_JLRelease p (S3 ∪ swapped a p f V)).
  { eapply pool_ok_update; [done|]. by rewrite Hn3, lookup_union_r, lookup_insert_eq. }
  { right. split; [done|]. eapply (acq_old _ _ _ (mk_value (VSpecial f) 0 1 JLVALUE_SPECIAL)); [|done|].
    - rewrite lookup_union_r by done. apply lookup_insert_eq.
    - rewrite Hn4. unfold swapped. by rewrite insert_union_r, insert_insert_eq. }
  intros st5 Hn5 Hr5 Hp5. assert (Hrest : rest_of st5 = rest_of st) by (rewrite Hr5; etransitivity; [exact Hr3|exact Hr1]).
  apply (HQ (tinsert t 0 x p) (swapped a p f V)); [|done]. split; [done|split; [done|done|done| | |]|].
  - by eapply swapped_frame.
  - intros b w Hw. unfold swapped in Hw. apply lookup_insert_Some in Hw as [[_ [= <-]]|[_ Hw]]; [done|].
    apply lookup_delete_Some in Hw as [_ Hw]. by eapply Hc.
  - by eapply swapped_owned.
  - unfold rest_of in Hrest. congruence.
Qed.

End again.
