(* ===== verification/JlAnswers.v ===== *)
(** The console of the JL interpreter answers: lines of expressions and
    definitions, typed one after the other, against the reference. *)
From Stdlib Require Import SpecFloat.
From S2P Require Import Prelude CText JlHeap JlEval JlLogic JlScopes JlTree JlRef JlRepr JlPrint JlFuncSpec JlParse JlReader JlSpec JlSession JlProgram JlDefine JlConsole.

(** * The buffer keeps its length *)

(** What [m] returns satisfies [P], from any state. *)
Definition yields {A} (P : A -> Prop) (m : M A) : Prop := forall st a st', m st = Some (a, st') -> P a.

Lemma yields_ret {A} (P : A -> Prop) a : P a -> yields P (mret a).
Proof. by intros HP st b st' [= <- _]. Qed.
Lemma yields_undef {A} (P : A -> Prop) : yields P (undef (A := A)).
Proof. done. Qed.
Lemma yields_bind {A B} (R : A -> Prop) (P : B -> Prop) (m : M A) (k : A -> M B) :
  yields R m -> (forall a, R a -> yields P (k a)) -> yields P (m ≫= k).
Proof.
  intros Hm Hk st b st'. unfold mbind, M_bind. destruct (m st) as [[a st1]|] eqn:E; [|done].
  apply Hk. by eapply Hm.
Qed.
Lemma yields_after {A B} (P : B -> Prop) (m : M A) (k : A -> M B) :
  (forall a, yields P (k a)) -> yields P (m ≫= k).
Proof. intros Hk. by apply (yields_bind (fun _ => True)). Qed.
Lemma yields_lift {A B} (P : B -> Prop) (o : option A) (k : A -> M B) :
  (forall a, o = Some a -> yields P (k a)) -> yields P (lift o ≫= k).
Proof. intros Hk. apply (yields_bind (fun a => o = Some a)); [|done]. intros st a st'. unfold lift. destruct o; [|done]. by intros [= <- _]. Qed.

Section lengths.
Context `{JLLib}.

Definition of_length {A} (n : nat) (r : A * cursor) : Prop := length r.2.1 = n.

Lemma strtod_length txt p d q txt' : strtod txt p = Some (d, q, txt') -> length txt' = length txt.
Proof.
  assert (Hupd : forall i c t, zupd txt i c = Some t -> length t = length txt).
  { intros i c t. unfold zupd. destruct (_ || _); [done|]. intros [= <-]. apply length_insert. }
  unfold strtod. intros (p1 & _ & E)%bind_Some. apply bind_Some in E as (c & _ & E).
  apply bind_Some in E as (neg & _ & E). apply bind_Some in E as (t & Ht & E).
  assert (Hl : length t = length txt) by (destruct neg; [by eapply Hupd|by injection Ht as <-]).
  apply bind_Some in E as (c1 & _ & E). apply bind_Some in E as ([e|] & _ & E).
  - apply bind_Some in E as (s & _ & [= _ _ <-]). done.
  - by injection E as _ _ <-.
Qed.

Lemma ParseLiteral_length txt p : yields (of_length (length txt)) (ParseLiteral (txt, p)).
Proof.
  unfold ParseLiteral. apply yields_after. intros r. apply yields_after. intros c. destruct (c =? 34).
  - apply yields_after. intros [s q]. do 2 (apply yields_after; intros ?). by apply yields_ret.
  - apply yields_after. intros q. apply yields_lift. intros [[d end_] txt'] E%strtod_length.
    apply yields_after. intros _. by apply yields_ret.
Qed.

Lemma parse_items_length rec n : (forall txt p, yields (of_length (length txt)) (rec (txt, p))) ->
  forall i txt p, yields (fun c : cursor => length c.1 = length txt) (parse_items rec n i (txt, p)).
Proof.
  intros Hrec. induction n as [|n IH]; intros i txt p; cbn [parse_items fst snd]; apply yields_after; intros c;
    (destruct ((c =? 0) || (c =? 41)); [by apply yields_ret|]); [done|].
  eapply yields_bind; [apply Hrec|]. intros [t [txt' p']] E. unfold of_length in E. cbn in E.
  destruct (t =? 0); [by apply yields_ret|]. apply yields_after. intros _. rewrite <- E. apply IH.
Qed.

Lemma ParseExpression_length fuel : forall txt p, yields (of_length (length txt)) (ParseExpression fuel (txt, p)).
Proof.
  induction fuel as [|fuel IH]; intros txt p; [done|]. cbn [ParseExpression fst snd].
  do 2 (apply yields_after; intros ?). destruct (_ || _); [by apply yields_ret|].
  destruct (_ =? 40); [|apply ParseLiteral_length]. unfold ParseList. do 2 (apply yields_after; intros ?).
  eapply yields_bind; [by apply parse_items_length|]. intros [txt' p'] E. cbn in E.
  apply yields_after. intros c. destruct (negb _).
  - do 2 (apply yields_after; intros ?). by apply yields_ret.
  - by apply yields_ret.
Qed.

Lemma JLParse_length txt p : yields (of_length (length txt)) (JLParse (txt, p)).
Proof.
  unfold JLParse. eapply yields_bind; [apply ParseExpression_length|]. intros [r [txt' p']] E.
  apply yields_after. intros c. destruct (c =? 41); [apply yields_after; intros _|]; by apply yields_ret.
Qed.

Lemma ProcessBuffer_length n fuel : forall txt p r, yields (of_length (length txt)) (ProcessBuffer n fuel (txt, p) r).
Proof.
  induction n as [|n IH]; intros txt p r; cbn [ProcessBuffer fst snd]; apply yields_after; intros c;
    (destruct (c =? 0); [by apply yields_ret|]); [done|].
  eapply yields_bind; [apply JLParse_length|]. intros [v [txt' p']] E. unfold of_length in E. cbn in E. rewrite <- E.
  destruct (v =? 0); [apply IH|]. do 3 (apply yields_after; intros ?). apply IH.
Qed.

(** * Typing a line *)

(** What the console echoes. *)
Definition echo (s : bytes) : list jl_out := map (fun c => OText [c]) s.

Lemma wp_text_outs out t (Q : unit -> JLContext -> Prop) st :
  Q tt (add_outs (out ++ [OText t]) st) -> wp (text t) Q (add_outs out st).
Proof. rewrite <- add_outs_app. done. Qed.

Lemma console_put_at pre B c e (Q : console -> JLContext -> Prop) st : zlen B = BUFFER_SIZE -> 0 <= c <= 255 ->
  take (length pre) B = pre -> zlen pre < BUFFER_SIZE ->
  (forall B', zlen B' = BUFFER_SIZE -> take (length (pre ++ [c])) B' = pre ++ [c] ->
     Q (mk_console (zlen (pre ++ [c])) e B') st) ->
  wp (console_put (mk_console (zlen pre) e B) c) Q st.
Proof.
  intros HB Hc Ht Hp HQ. unfold console_put. cbn [jl_pos jl_escape jl_buffer]. apply wp_bind.
  pose proof (zlen_nonneg pre). eapply wp_lift; [apply zupd_in_range; lia|]. apply wp_ret.
  assert (E : Z.to_nat (zlen pre) = length pre) by (unfold zlen; lia). rewrite E, u8_id by lia.
  assert (Hl : (length pre < length B)%nat) by (unfold zlen in *; lia).
  replace (zlen pre + 1) with (zlen (pre ++ [c])) by (rewrite zlen_app, zlen_cons, zlen_nil; lia).
  apply HQ.
  - unfold zlen in *. by rewrite length_insert.
  - rewrite length_app. cbn [length]. rewrite Nat.add_1_r. erewrite take_S_r; [|by apply list_lookup_insert_eq].
    by rewrite take_insert_ge, Ht by lia.
Qed.

Lemma wp_typed fuel body rest : forall pre B out (Q : console * bool -> JLContext -> Prop) st,
  zlen B = BUFFER_SIZE -> take (length pre) B = pre ->
  forallb ordinary body = true -> zlen (pre ++ body) <= LINE_LEN - 2 ->
  (forall B', zlen B' = BUFFER_SIZE -> take (length (pre ++ body)) B' = pre ++ body ->
     wp (jli_loop fuel (mk_console (zlen (pre ++ body)) 0 B') rest) Q (add_outs (out ++ echo body) st)) ->
  wp (jli_loop fuel (mk_console (zlen pre) 0 B) (body ++ rest)) Q (add_outs out st).
Proof.
  unfold LINE_LEN. induction body as [|c body IH]; intros pre B out Q st HB Ht Hb Hl HQ.
  - rewrite app_nil_r in *. specialize (HQ B). rewrite app_nil_r in HQ. by apply HQ.
  - cbn [forallb] in Hb. apply andb_true_iff in Hb as [Hc Hb]. apply ordinary_switch in Hc as (Hr & E1 & E2 & E3 & _).
    rewrite zlen_app, zlen_cons in Hl. pose proof (zlen_nonneg body). cbn [app jli_loop].
    assert (Hlp : zlen (pre ++ [c]) = zlen pre + 1) by by rewrite zlen_app, zlen_cons, zlen_nil.
    apply wp_bind. unfold jli_char. apply wp_bind. unfold jli_switch. cbn [jl_escape Z.eqb]. rewrite E1, E2, E3.
    apply wp_bind. apply console_put_at; [done|done|done|unfold BUFFER_SIZE; lia|]. intros B' HB' Ht'.
    apply wp_bind, wp_text_outs, wp_ret. cbn [jl_pos jl_escape jl_buffer]. unfold LINE_LEN.
    replace (zlen (pre ++ [c]) =? 128 - 1) with false by (symmetry; apply Z.eqb_neq; lia).
    apply wp_ret. eapply IH; [done|done|done|rewrite zlen_app; lia|]. intros B2 HB2 Ht2.
    rewrite <- (app_assoc pre [c] body) in Ht2 |- *. rewrite <- app_assoc. by apply HQ.
Qed.

End lengths.

(** * The reference for the console *)

(** What is typed for a line, in any layout, with the expressions it spells. *)
Definition line : Type := list sexp * bytes.

Lemma written_pos `{JLLib} e s c : written e s c -> (1 <= length s)%nat.
Proof. intros Hw. destruct (written_head _ _ _ Hw) as (x & s' & -> & _). cbn [length]. lia. Qed.
Lemma program_length `{JLLib} es s : program_written es s -> (length es < length s)%nat.
Proof.
  induction 1 as [w junk _|w e s c rest es _ Hw _ IH]; rewrite !length_app; cbn [length] in *; [lia|].
  pose proof (written_pos _ _ _ Hw). lia.
Qed.

(** One layout: a blank after every item of a list and every expression. *)
Definition laid_out `{JLLib} (ts : list texpr) : line := (map sexp_of ts, concat (map (fun t => text_of t ++ [32]) ts)).

Lemma laid_out_written `{JLLib} ts junk : forallb texpr_ok ts = true ->
  program_written (laid_out ts).1 ((laid_out ts).2 ++ 0 :: junk).
Proof.
  intros Ht. unfold laid_out. cbn [fst snd]. assert (H0 : forall w, blank w ->
    program_written (map sexp_of ts) (w ++ concat (map (fun t => text_of t ++ [32]) ts) ++ 0 :: junk)).
  { induction ts as [|t ts IH]; intros w Hw; [by apply pw_end|].
    cbn [forallb] in Ht. apply andb_true_iff in Ht as [Ht1 Ht2]. cbn [map concat]. rewrite <- !app_assoc.
    apply pw_item; [done|apply text_written; [done|by left]|]. apply (IH Ht2 [32]).
    apply blank_space; [by right; right|constructor]. }
  apply (H0 []). constructor.
Qed.

(** Every line binds [print], unless something else than a function of the table
    is bound to that name. *)
Definition can_print (G : frame) : bool :=
  match G !! print_name with None | Some (Some (RSpecial _)) => true | _ => false end.
Definition with_print (G : frame) : frame := <[print_name := Some (RSpecial F_Print)]> G.

(** What a line shows: a function only if it was just defined. *)
Definition shown (fuel : nat) (def : bool) (v : result) : option (list jl_out) :=
  if printable_value fuel v && match v with Some (RFun _ _) => def | _ => true end then show_value v else None.

Definition ranswer (ln max : Z) (n fuel : nat) (G : frame) (es : list sexp) (s : rstate) : option (frame * rstate) :=
  if can_print G then
    '(v, G', s') ← rforms ln max n (with_print G) es None s;
    out ← shown fuel (last_defines false es) v;
    Some (G', (s'.1, s'.2 ++ [OText arrow_text] ++ out ++ [OText [10]]))
  else None.

(** * A line is answered *)

Lemma wp_yields {A} (P : A -> Prop) (m : M A) (Q : A -> JLContext -> Prop) st :
  wp m Q st -> yields P m -> wp m (fun a st' => Q a st' /\ P a) st.
Proof. intros Hw Hy. unfold wp in *. destruct (m st) as [[a st']|] eqn:E; [|done]. split; [done|]. by eapply Hy. Qed.

Lemma globals_outs K out st g cnt t V G : globals K st g cnt t V G -> globals K (add_outs out st) g cnt t V G.
Proof. intros [Hp Hg Hs]. split; [by eapply pool_ok_rest|done|done]. Qed.

Lemma res_shown K W g st r v fuel def out : res_at K W g (nodes st) r v -> (def = true -> sub W (nodes st)) ->
  shown fuel def v = Some out -> printable_value fuel v = true /\ show_value v = Some out /\
  exists W', res_at K W' g (nodes st) r v /\ sub W' (nodes st).
Proof.
  unfold shown. intros Hr Hs Ho. destruct (printable_value fuel v) eqn:E; [|done]. cbn [andb] in Ho.
  destruct v as [[d|s|f|ps body]|]; try by split; [done|split; [done|exists ∅; split; [exact Hr|by intros ? ? ?]]].
  destruct def; [|done]. split; [done|]. split; [done|]. exists W. split; [done|]. by apply Hs.
Qed.

Section answers.
Context `{JLLib}.
Hypothesis atof_token : forall s c rest, number_token s -> is_separator c = true ->
  atof (s ++ until_zero (c :: rest)) = atof s.
Variables (K N : nat) (g ln max : Z).
Hypothesis bound : 1 + Z.of_nat (S (S (S N))) * (Z.of_nat K + 4) <= 4294967293.
Hypothesis max_bound : 3 <= max.
Abbreviation fuel := (S (S (S N)) + K)%nat.

Lemma wp_bind_print st cnt t V G s (Q : unit -> JLContext -> Prop) :
  globals K st g cnt t V G -> rest_of st = ctx ln max g 0 s -> can_print G = true ->
  (forall t' V' st', globals K st' g cnt t' V' (with_print G) -> rest_of st' = ctx ln max g 0 s -> Q tt st') ->
  wp (JLDefineSpecial print_name F_Print) Q st.
Proof.
  intros Hgl Hr Hc HQ. unfold can_print in Hc. destruct (G !! print_name) as [[[| |f0|]|]|] eqn:Ep; try done.
  - eapply wp_JLDefineSpecial_again; [exact Hgl|exact Ep|]. intros t' V' st' Hgl' Hr'. eapply HQ; [exact Hgl'|congruence].
  - eapply wp_JLDefineSpecial; [exact Hgl|exact Ep|]. intros t' V' st' Hgl' _ Hr'. eapply HQ; [exact Hgl'|congruence].
Qed.

(** A line that is not "exit", spells its expressions, whatever lies behind it in the
    buffer, and fits the editor. *)
Record line_ok (l : line) : Prop := {
  lk_written : forall junk, program_written l.1 (l.2 ++ 0 :: junk);
  lk_exit : l.2 <> exit_text;
  lk_narrow : forallb (narrow K) l.1 = true;
  lk_ordinary : forallb ordinary l.2 = true;
  lk_length : zlen l.2 <= LINE_LEN - 2 }.

Lemma wp_process_buffer l junk B st cnt t V G s G' s' (Q : bool * bytes -> JLContext -> Prop) :
  globals K st g cnt t V G -> rest_of st = ctx ln max g 0 s -> 0 <= cnt -> cnt + zlen l.1 <= 4294967295 ->
  line_ok l -> at_text B 0 (l.2 ++ 0 :: junk) ->
  ranswer ln max (S (S (S N))) fuel G l.1 s = Some (G', s') ->
  (forall B' st' cnt' t' V', length B' = length B -> globals K st' g cnt' t' V' G' ->
     cnt <= cnt' <= cnt + zlen l.1 -> rest_of st' = ctx ln max g 0 s' -> Q (false, B') st') ->
  wp (process_buffer fuel B) Q st.
Proof.
  intros Hgl Hr Hc0 Hcnt [Hok Hex Hnar Hord Hlen] Hat Ha HQ. unfold process_buffer.
  assert (Hz : until_zero (l.2 ++ 0 :: junk) = l.2).
  { clear - Hord. induction l.2 as [|c s IH]; [done|]. cbn [forallb] in Hord.
    apply andb_true_iff in Hord as [Hc Hs]. apply ordinary_switch in Hc as (_ & _ & _ & _ & Hc).
    cbn [app until_zero]. zif_false. f_equal. by apply IH. }
  apply wp_bind. eapply wp_lift; [eapply c_string_spec; [exact Hat|apply elem_of_app; right; left]|].
  rewrite Hz, (proj2 (Z.eqb_neq _ 0)) by (by rewrite strcmp_eq). unfold ranswer in Ha. destruct (can_print G) eqn:Hcp; [|done].
  apply bind_Some in Ha as ([[v G1] s1] & Hf & Ha). apply bind_Some in Ha as (out & Ho & [= <- <-]).
  apply wp_bind. eapply wp_bind_print; [exact Hgl|exact Hr|done|]. intros t1 V1 st1 Hgl1 Hr1.
  assert (Hpost : line_post K g ln max (nodes st1) false None s 0 st1).
  { split; [by apply owes_held; left|]. split; [by exists ∅|]. split; [done|apply Hgl1]. }
  assert (Hn : (length l.1 < text_fuel B)%nat).
  { apply at_length in Hat. pose proof (program_length _ _ (Hok junk)). unfold text_fuel. lia. }
  apply wp_bind. eapply wp_mono; [eapply wp_yields; [|apply ProcessBuffer_length]|].
  { exact (wp_ProcessBuffer atof_token K N g ln max bound max_bound _ _ (Hok junk) _ B 0 0 false None
      (nodes st1) cnt t1 V1 (with_print G) s st1 v G1 s1 Hn (gl_at _ _ _ _ _ _ _ Hgl1) Hc0 Hcnt Hnar Hat Hpost Hf). }
  intros [r [B' p']] st2 [(ns' & cnt' & t' & V' & Hgl' & Hc' & (How & (W & Hres & Hsub) & Hr2 & Hp2) & _) Hl].
  unfold of_length in Hl. cbn [fst snd] in *. cbv beta iota.
  destruct (res_shown _ _ _ _ _ _ _ _ _ Hres Hsub Ho) as (Hpv & Hsv & W' & Hres' & Hsub').
  rewrite <- (add_outs_nil st2). apply wp_bind, wp_text_outs. apply wp_bind.
  eapply wp_mono; [eapply (JLPrint_value K W' g fuel r v out); [done|exact Hsub'|exact Hres'|done]|].
  intros [] st3 ->. rewrite add_outs_app. apply wp_bind, wp_text_outs, wp_bind.
  set (o := ((([] ++ [OText arrow_text]) ++ out) ++ [OText [10]])).
  eapply (ow_run _ _ _ How ∅); [by eapply pool_ok_rest|by rewrite (left_id_L ∅ (∪))|apply map_disjoint_empty_l|].
  intros st4 Hn4 Hr4 Hp4. rewrite (left_id_L ∅ (∪)) in Hn4.
  assert (Hr5 : rest_of st4 = ctx ln max g 0 (s1.1, s1.2 ++ [OText arrow_text] ++ out ++ [OText [10]])).
  { rewrite Hr4. unfold rest_of, ctx in Hr2 |- *. injection Hr2 as E1 E2 E3 E4 E5. cbn. rewrite E1, E2, E3, E4, <- E5.
    done. }
  apply wp_ret. eapply HQ; [done| | |exact Hr5].
  - split; [done|by rewrite Hn4|]. unfold rest_of, ctx in Hr5. congruence.
  - done.
Qed.

(** The state with a line echoed. *)
Definition echoed (l : line) (s : rstate) : rstate := (s.1, s.2 ++ echo l.2 ++ [OText [10]]).

(** The loop over one line and its carriage return. *)
Lemma wp_line l rest B st cnt t V G s G' s' (Q : console * bool -> JLContext -> Prop) :
  globals K st g cnt t V G -> rest_of st = ctx ln max g 0 s -> 0 <= cnt -> cnt + zlen l.1 <= 4294967295 ->
  line_ok l -> zlen B = BUFFER_SIZE ->
  ranswer ln max (S (S (S N))) fuel G l.1 (echoed l s) = Some (G', s') ->
  (forall B' st' cnt' t' V', zlen B' = BUFFER_SIZE -> globals K st' g cnt' t' V' G' ->
     cnt <= cnt' <= cnt + zlen l.1 -> rest_of st' = ctx ln max g 0 s' ->
     wp (jli_loop fuel (mk_console 0 0 B') rest) Q st') ->
  wp (jli_loop fuel (mk_console 0 0 B) (l.2 ++ 13 :: rest)) Q st.
Proof.
  intros Hgl Hr Hc0 Hcnt Hok HB Ha HQ. pose proof Hok as [_ _ _ Hord Hlen].
  change 0 with (zlen (@nil Z)) at 1. rewrite <- (add_outs_nil st).
  apply (wp_typed fuel (l.2) (13 :: rest) [] B []); [done|done|done|done|].
  cbn [app]. intros B1 HB1 Ht1. cbn [jli_loop]. apply wp_bind. unfold jli_char. apply wp_bind. unfold jli_switch.
  cbn [jl_escape Z.eqb Pos.eqb orb]. apply wp_bind, console_put_at; [done|done|done|unfold LINE_LEN, BUFFER_SIZE in *; lia|].
  intros B2 HB2 Ht2. apply wp_bind, wp_text_outs. cbn [jl_buffer jl_pos jl_escape]. apply wp_bind.
  set (st1 := add_outs _ st).
  assert (Hat : at_text B2 0 (l.2 ++ 0 :: drop (length (l.2 ++ [0])) B2)).
  { split; [done|]. rewrite drop_0. transitivity ((l.2 ++ [0]) ++ drop (length (l.2 ++ [0])) B2).
    - rewrite <- Ht2 at 1. by rewrite take_drop.
    - by rewrite <- app_assoc. }
  assert (Hr1 : rest_of st1 = ctx ln max g 0 (echoed l s)).
  { unfold rest_of, ctx in Hr |- *. injection Hr as E1 E2 E3 E4 E5. cbn. rewrite E1, E2, E3, E4. unfold echoed.
    by rewrite <- E5. }
  eapply (wp_process_buffer l _ B2 st1); [by apply globals_outs|exact Hr1|done|done|done|exact Hat|exact Ha|].
  intros B3 st3 cnt3 t3 V3 HB3 Hgl3 Hc3 Hr3. apply wp_bind, wp_ret, wp_ret. cbn. apply wp_ret.
  eapply HQ; [|exact Hgl3|done|done]. unfold zlen in *. by rewrite HB3.
Qed.

(** A session: what is typed, and what the console does with it. *)
Definition typed (lines : list line) : list Z := concat (map (fun l => l.2 ++ [13]) lines).

Fixpoint rsession (G : frame) (lines : list line) (s : rstate) : option (frame * rstate) :=
  match lines with
  | [] => Some (G, s)
  | l :: lines' =>
      '(G', s') ← ranswer ln max (S (S (S N))) fuel G l.1 (echoed l s);
      rsession G' lines' s'
  end.

Lemma wp_session lines : forall B st cnt t V G s G' s',
  globals K st g cnt t V G -> rest_of st = ctx ln max g 0 s -> 0 <= cnt ->
  cnt + zlen (concat (map fst lines)) <= 4294967295 -> Forall line_ok lines -> zlen B = BUFFER_SIZE ->
  rsession G lines s = Some (G', s') ->
  wp (jli_loop fuel (mk_console 0 0 B) (typed lines)) (fun r st' =>
    exists B' cnt' t' V', r = (mk_console 0 0 B', false) /\ zlen B' = BUFFER_SIZE /\
      globals K st' g cnt' t' V' G' /\ rest_of st' = ctx ln max g 0 s') st.
Proof.
  induction lines as [|l lines IH]; intros B st cnt t V G s G' s' Hgl Hr Hc0 Hcnt Hok HB Hs.
  - injection Hs as <- <-. apply wp_ret. eauto 10.
  - apply Forall_cons_1 in Hok as [Hok Hoks]. cbn [map concat] in Hcnt. rewrite zlen_app in Hcnt.
    pose proof (zlen_nonneg (concat (map fst lines))). cbn [rsession] in Hs. apply bind_Some in Hs as ([G1 s1] & Ha & Hs).
    unfold typed. cbn [map concat]. rewrite <- app_assoc. cbn [app].
    eapply wp_line; [exact Hgl|exact Hr|done|lia|done|done|exact Ha|].
    intros B' st' cnt' t' V' HB' Hgl' Hc' Hr'. eapply IH; [exact Hgl'|exact Hr'|lia|lia|done|done|exact Hs].
Qed.

End answers.
