(* ===== verification/JlPool.v ===== *)
(** What holds of the JL interpreter whatever program it is given: the pool of
    nodes stays well formed, the depth comes back to what it was, and the error
    flag is set exactly when an error line is printed.

    [pres m] says so of a computation [m] that meets no undefined behaviour; the
    lemmas of the database [pres] and the tactic of the same name take a
    definition apart along its binds and cases. *)
From S2P Require Import Prelude CText JlHeap JlEval JlLogic JlParse.

(** * What a computation keeps *)

Definition is_error (o : jl_out) : bool := match o with OError _ _ => true | _ => false end.

(** The pool is well formed and the depth within its limit. *)
Record good (st : JLContext) : Prop := {
  gd_pool : pool_ok st;
  gd_levels : 0 <= levels st <= max_levels st;
  gd_max : max_levels st < 4294967295 }.

(** The output grows, and inside an evaluation the error flag follows it. *)
Definition reports (st st' : JLContext) : Prop :=
  exists out, printed st' = printed st ++ out /\
    (1 <= levels st -> jl_error st' = jl_error st || existsb is_error out).

Record step (st st' : JLContext) : Prop := {
  sp_pool : pool_ok st';
  sp_levels : levels st' = levels st;
  sp_max : max_levels st' = max_levels st;
  sp_reports : reports st st' }.

Definition pres {A} (m : M A) : Prop :=
  forall st a st', good st -> m st = Some (a, st') -> step st st'.

Lemma reports_silent st st' : printed st' = printed st -> jl_error st' = jl_error st -> reports st st'.
Proof. intros Hp He. exists []. by rewrite app_nil_r, orb_false_r. Qed.

Lemma step_silent st st' : pool_ok st' -> levels st' = levels st -> max_levels st' = max_levels st ->
  printed st' = printed st -> jl_error st' = jl_error st -> step st st'.
Proof. split; auto using reports_silent. Qed.

Lemma step_refl st : pool_ok st -> step st st.
Proof. intros. by apply step_silent. Qed.

Lemma step_trans st1 st2 st3 : step st1 st2 -> step st2 st3 -> step st1 st3.
Proof.
  intros [_ Hl1 Hm1 (o1 & Ho1 & He1)] [Hp Hl2 Hm2 (o2 & Ho2 & He2)]. split; [done|congruence..|].
  exists (o1 ++ o2). rewrite Ho2, Ho1, app_assoc. split; [done|]. intros Hl.
  by rewrite existsb_app, He2, He1, orb_assoc by (rewrite ?Hl1; done).
Qed.

Lemma step_good st st' : good st -> step st st' -> good st'.
Proof. intros [_ Hl Hm] [Hp El Em _]. split; [done|by rewrite El, Em|by rewrite Em]. Qed.

Create HintDb pres discriminated.

(** * Rules *)

Lemma pres_ret {A} (a : A) : pres (mret a).
Proof. intros st x st' Hg [= <- <-]. by apply step_refl, Hg. Qed.

Lemma pres_bind {A B} (m : M A) (k : A -> M B) : pres m -> (forall a, pres (k a)) -> pres (m ≫= k).
Proof.
  intros Hm Hk st b st' Hg E. unfold mbind, M_bind in E. destruct (m st) as [[a st1]|] eqn:E1; [|done].
  pose proof (Hm _ _ _ Hg E1) as H1. eapply step_trans; [exact H1|].
  eapply Hk; [|exact E]. by eapply step_good.
Qed.

(** A computation that looks at the state before it goes on. *)
Lemma pres_here {A} (m : JLContext -> M A) : (forall st0, pres (m st0)) -> pres (fun st => m st st).
Proof. intros H st a st' Hg E. by eapply H. Qed.

Lemma pres_undef {A} : pres (undef (A := A)).
Proof. by intros st a st' _ E. Qed.
Lemma pres_gets {A} (f : JLContext -> A) : pres (gets f).
Proof. intros st a st' Hg [= <- <-]. by apply step_refl, Hg. Qed.
Lemma pres_lift {A} (o : option A) : pres (lift o).
Proof. intros st a st' Hg E. unfold lift in E. destruct o; [|done]. injection E as <- <-. by apply step_refl, Hg. Qed.
#[export] Hint Resolve pres_ret pres_undef pres_gets pres_lift : pres.

Lemma pres_jl_scope s : pres (modify (set_jl_scope s)).
Proof. intros st a st' Hg [= <- <-]. apply step_silent; [|done..]. by eapply pool_ok_rest; [apply Hg|..]. Qed.
Lemma pres_jl_line l : pres (modify (set_jl_line l)).
Proof. intros st a st' Hg [= <- <-]. apply step_silent; [|done..]. by eapply pool_ok_rest; [apply Hg|..]. Qed.

Lemma pres_print o : is_error o = false -> pres (print o).
Proof.
  intros Ho st a st' Hg [= <- <-]. split; [by eapply pool_ok_rest; [apply Hg|..]|done|done|].
  exists [o]. split; [done|]. intros _. simpl. by rewrite Ho, orb_false_r.
Qed.
Lemma pres_text s : pres (text s).
Proof. by apply pres_print. Qed.
Lemma pres_Error msg : pres (Error msg).
Proof.
  intros st a st' Hg [= <- <-]. split; [by eapply pool_ok_rest; [apply Hg|..]|done|done|].
  exists [OError (jl_line st) msg]. split; [done|]. intros _. simpl. by rewrite orb_true_r.
Qed.
#[export] Hint Resolve pres_jl_scope pres_jl_line pres_text pres_Error : pres.
#[export] Hint Extern 1 (pres (print _)) => (apply pres_print; reflexivity) : pres.

(** Along the binds and cases of a definition. *)
Ltac pres :=
  intros;
  repeat first
    [ solve [eauto 3 with pres]
    | apply pres_bind; intros
    | match goal with
      | |- pres (if ?b then _ else _) => destruct b
      | |- pres (match ?x with _ => _ end) => destruct x
      | |- pres (let x := _ in _) => cbv zeta
      end ].

(** * Nodes *)

Lemma pres_get_value p : pres (get_value p).
Proof. intros st a st' Hg E. unfold get_value in E. destruct (_ !! _) as [[]|]; try done. injection E as <- <-. by apply step_refl, Hg. Qed.
Lemma pres_get_binding p : pres (get_binding p).
Proof. intros st a st' Hg E. unfold get_binding in E. destruct (_ !! _) as [[]|]; try done. injection E as <- <-. by apply step_refl, Hg. Qed.
Lemma pres_get_scope p : pres (get_scope p).
Proof. intros st a st' Hg E. unfold get_scope in E. destruct (_ !! _) as [[]|]; try done. injection E as <- <-. by apply step_refl, Hg. Qed.
#[export] Hint Resolve pres_get_value pres_get_binding pres_get_scope : pres.

Lemma put_step st p n n' : good st -> nodes st !! p = Some n ->
  step st (set_nodes (<[p := n']> (nodes st)) st).
Proof. intros Hg Hp. apply step_silent; [|done..]. eapply pool_ok_update; [apply Hg|done]. Qed.

Lemma pres_update_value p f : pres (update_value p f).
Proof.
  intros st a st' Hg E. unfold update_value, get_value, mbind, M_bind in E.
  destruct (nodes st !! p) as [[v| |]|] eqn:Hp; try done. injection E as <- <-. by eapply put_step.
Qed.

(** A node that is read and then written. *)
Lemma pres_binding_put p n : pres (b ← get_binding p; put_node p (n b)).
Proof.
  intros st a st' Hg E. unfold get_binding, mbind, M_bind in E.
  destruct (nodes st !! p) as [[|b|]|] eqn:Hp; try done. injection E as <- <-. by eapply put_step.
Qed.
Lemma pres_scope_put {A} p n (k : M A) : pres k -> pres (s ← get_scope p; put_node p (n s);; k).
Proof.
  intros Hk st a st' Hg E. unfold get_scope, mbind, M_bind in E.
  destruct (nodes st !! p) as [[| |s]|] eqn:Hp; try done. cbn in E.
  eapply step_trans; [by eapply put_step|]. eapply Hk; [|exact E]. eapply step_good; [done|]. by eapply put_step.
Qed.
#[export] Hint Resolve pres_update_value pres_binding_put : pres.

Lemma pres_PutFree p : pres (PutFree p).
Proof.
  intros st [] st' Hg E. destruct (nodes st !! p) as [n|] eqn:Hp; [|unfold PutFree in E; by rewrite Hp in E].
  assert (H : wp (PutFree p) (fun _ st' => step st st') st).
  { eapply wp_PutFree; [apply Hg|exact Hp|]. intros st1 _ Hr Hp1. unfold rest_of in Hr.
    injection Hr as Hr1 Hr2 Hr3 Hr4 Hr5 Hr6. by apply step_silent. }
  unfold wp in H. by rewrite E in H.
Qed.

(** A node taken from the pool and written; what happens between does not touch
    the pool. *)
Lemma take_step st q st1 n st2 : good st -> GetFree st = Some (q, st1) ->
  nodes st2 = <[q := n]> (nodes st1) -> freelist st2 = freelist st1 -> blocks st2 = blocks st1 ->
  levels st2 = levels st1 -> max_levels st2 = max_levels st1 -> printed st2 = printed st1 ->
  jl_error st2 = jl_error st1 -> step st st2.
Proof.
  intros Hg E Hn Hf Hb Hl Hm Ho He.
  assert (H : wp GetFree (fun q st1 => pool_taken q st1 /\ rest_of st1 = rest_of st) st).
  { apply wp_GetFree; [apply Hg|]. done. }
  unfold wp in H. rewrite E in H. destruct H as [Ht Hr]. unfold rest_of in Hr.
  injection Hr as _ _ Hr3 Hr4 Hr5 Hr6. apply step_silent; [|congruence..].
  eapply (pool_ok_rest (set_nodes (<[q := n]> (nodes st1)) st1)); [by apply pool_taken_put|done..].
Qed.

Lemma pres_take {A} (n : Z -> FreeNode) (k : Z -> M A) :
  (forall q, pres (k q)) -> pres (q ← GetFree; put_node q (n q);; k q).
Proof.
  intros Hk st a st' Hg E. unfold mbind, M_bind in E. destruct (GetFree st) as [[q st1]|] eqn:E1; [|done].
  cbn in E. assert (H : step st (set_nodes (<[q := n q]> (nodes st1)) st1)) by by eapply take_step.
  eapply step_trans; [exact H|]. eapply Hk; [|exact E]. by eapply step_good.
Qed.

Lemma pres_JLEnterScope : pres JLEnterScope.
Proof.
  intros st a st' Hg E. unfold JLEnterScope, mbind, M_bind in E.
  destruct (GetFree st) as [[q st1]|] eqn:E1; [|done]. cbn in E. injection E as <- <-. by eapply take_step.
Qed.
#[export] Hint Resolve pres_PutFree pres_JLEnterScope : pres.

(** * References and scopes *)

Lemma pres_JLRetain p : pres (JLRetain p).
Proof. unfold JLRetain. pres. Qed.

Lemma pres_release_scope_body fuel s : (forall b, pres (release_bindings fuel b)) ->
  pres (release_scope (S fuel) s).
Proof.
  intros IH st a st' Hg E. cbn [release_scope] in E. unfold get_scope, gets, lift, mbind, M_bind in E.
  destruct (nodes st !! s) as [[| |sc]|] eqn:Hs; try done. cbn [id] in E.
  destruct (CountScopeBindings _ st _ s) as [k|]; [|done]. cbn in E. destruct (_ =? 0).
  - assert (H : pres (release_bindings fuel (s_bindings sc);; PutFree s)) by pres. by eapply H.
  - injection E as <- <-. by eapply put_step.
Qed.

Lemma pres_releases fuel :
  (forall p, pres (release_value fuel p)) /\ (forall s, pres (release_scope fuel s)) /\
  (forall b, pres (release_bindings fuel b)).
Proof.
  induction fuel as [|fuel (IHv & IHs & IHb)]; (split; [|split]); intros p;
    try solve [by apply pres_release_scope_body];
    cbn [release_value release_scope release_bindings]; pres.
Qed.

Lemma pres_JLRelease p : pres (JLRelease p).
Proof. apply (pres_here (fun st => release_value (heap_fuel st) p)). intros st. exact (proj1 (pres_releases (heap_fuel st)) p). Qed.
Lemma pres_ReleaseScope s : pres (ReleaseScope s).
Proof. apply (pres_here (fun st => release_scope (heap_fuel st) s)). intros st. exact (proj1 (proj2 (pres_releases (heap_fuel st))) s). Qed.
#[export] Hint Resolve pres_JLRetain pres_JLRelease pres_ReleaseScope : pres.

Lemma pres_JLLeaveScope : pres JLLeaveScope.
Proof. unfold JLLeaveScope. pres. Qed.

Lemma pres_Lookup name : pres (Lookup name).
Proof. unfold Lookup. pres. Qed.

Lemma pres_root_get r : pres (root_get r).
Proof. destruct r; cbn [root_get]; pres. Qed.
Lemma pres_root_set r q : pres (root_set r q).
Proof.
  destruct r as [s|b|b]; cbn [root_set]; [|pres..].
  intros st a st' Hg E. unfold get_scope, mbind, M_bind in E.
  destruct (nodes st !! s) as [[| |sc]|] eqn:Hs; try done. injection E as <- <-. by eapply put_step.
Qed.
#[export] Hint Resolve pres_JLLeaveScope pres_Lookup pres_root_get pres_root_set : pres.

Lemma pres_define_loop fuel : forall r name value, pres (define_loop fuel r name value).
Proof.
  induction fuel as [|fuel IH]; intros r name value; cbn [define_loop]; [pres|].
  apply pres_bind; [pres|]. intros p. destruct (p =? 0).
  - apply (pres_take (fun _ => NBinding (mk_binding name value 0 0)) (root_set r)). pres.
  - pres.
Qed.
#[export] Hint Resolve pres_define_loop : pres.

Lemma pres_JLDefineValue name value : pres (JLDefineValue name value).
Proof. unfold JLDefineValue. pres. Qed.
#[export] Hint Resolve pres_JLDefineValue : pres.

Lemma pres_CreateValue name tag : pres (CreateValue name tag).
Proof. apply (pres_take (fun _ => NValue (mk_value VUndef 0 1 tag))). pres. Qed.
#[export] Hint Resolve pres_CreateValue : pres.

Lemma pres_CopyValue p : pres (CopyValue p).
Proof. unfold CopyValue. pres. Qed.
Lemma pres_JLDefineSpecial x f : pres (JLDefineSpecial x f).
Proof. unfold JLDefineSpecial. pres. Qed.
Lemma pres_JLDefineNumber x d : pres (JLDefineNumber x d).
Proof. unfold JLDefineNumber. pres. Qed.
#[export] Hint Resolve pres_CopyValue pres_JLDefineSpecial pres_JLDefineNumber : pres.

(** * Printing *)

Lemma pres_print_items rec fuel : (forall p, pres (rec p)) -> forall p, pres (print_items rec fuel p).
Proof. intros Hrec. induction fuel as [|fuel IH]; intros p; cbn [print_items]; unfold get_next; pres. Qed.

Lemma pres_JLPrint fuel : forall p, pres (JLPrint fuel p).
Proof.
  induction fuel as [|fuel IH]; intros p; cbn [JLPrint]; unfold get_next; pres; by apply pres_print_items.
Qed.
#[export] Hint Resolve pres_JLPrint : pres.

(** * The functions *)

Lemma pres_InvalidArgumentError args : pres (InvalidArgumentError args).
Proof. unfold InvalidArgumentError, get_str. pres. Qed.
Lemma pres_TooManyArgumentsError args : pres (TooManyArgumentsError args).
Proof. unfold TooManyArgumentsError, get_str. pres. Qed.
Lemma pres_TooFewArgumentsError args : pres (TooFewArgumentsError args).
Proof. unfold TooFewArgumentsError, get_str. pres. Qed.
Lemma pres_get_next p : pres (get_next p).
Proof. unfold get_next. pres. Qed.
Lemma pres_get_lst p : pres (get_lst p).
Proof. unfold get_lst. pres. Qed.
Lemma pres_get_str p : pres (get_str p).
Proof. unfold get_str. pres. Qed.
Lemma pres_get_number p : pres (get_number p).
Proof. unfold get_number. pres. Qed.
Lemma pres_get_tag p : pres (get_tag p).
Proof. unfold get_tag. pres. Qed.
#[export] Hint Resolve pres_InvalidArgumentError pres_TooManyArgumentsError pres_TooFewArgumentsError
  pres_get_next pres_get_lst pres_get_str pres_get_number pres_get_tag : pres.

Lemma pres_has_tag tag p : pres (has_tag tag p).
Proof. unfold has_tag. pres. Qed.
Lemma pres_place_set i q : pres (place_set i q).
Proof. destruct i; cbn [place_set]; pres. Qed.
Lemma pres_one_argument args : pres (one_argument args).
Proof. unfold one_argument. pres. Qed.
Lemma pres_two_arguments args : pres (two_arguments args).
Proof. unfold two_arguments. pres. Qed.
#[export] Hint Resolve pres_has_tag pres_place_set pres_one_argument pres_two_arguments : pres.

Section functions.
Variable fuel : nat.
Variable eval : Z -> M Z.
Hypothesis pres_eval : forall p, pres (eval p).
#[local] Hint Resolve pres_eval : pres.

Lemma pres_CheckCondition p : pres (CheckCondition eval p).
Proof. unfold CheckCondition. pres. Qed.
#[local] Hint Resolve pres_CheckCondition : pres.

(** The loops over the arguments. *)
Ltac loop n := induction n as [|n IH]; intros; cbn; pres.
Lemma pres_number_loop n op args : forall vp acc, pres (number_loop eval n op args vp acc).
Proof. loop n. Qed.
Lemma pres_and_loop n : forall vp, pres (and_loop eval n vp).
Proof. loop n. Qed.
Lemma pres_or_loop n : forall vp, pres (or_loop eval n vp).
Proof. loop n. Qed.
Lemma pres_begin_loop n : forall vp result, pres (begin_loop eval n vp result).
Proof. loop n. Qed.
Lemma pres_list_loop n : forall item vp, pres (list_loop eval n item vp).
Proof. loop n. Qed.
Lemma pres_concat_loop n args result : forall vp acc, pres (concat_loop eval n args result vp acc).
Proof. loop n. Qed.
Lemma pres_print_loop n : forall vp, pres (print_loop fuel eval n vp).
Proof. unfold JLIsString. loop n. Qed.
Lemma pres_rest_loop n : forall item ap, pres (rest_loop eval n item ap).
Proof. loop n. Qed.
Lemma pres_code_loop n : forall code result, pres (code_loop eval n code result).
Proof. loop n. Qed.
#[local] Hint Resolve pres_number_loop pres_and_loop pres_or_loop pres_begin_loop pres_list_loop
  pres_concat_loop pres_print_loop pres_rest_loop pres_code_loop : pres.

Lemma pres_number_or_nil r : pres (number_or_nil r).
Proof. unfold number_or_nil. pres. Qed.
Lemma pres_two_numbers args f : (forall a b, pres (f a b)) -> pres (two_numbers eval args f).
Proof. intros Hf. unfold two_numbers. pres. Qed.
Lemma pres_is_tag_func tag args : pres (is_tag_func eval tag args).
Proof. unfold is_tag_func. pres. Qed.
Lemma pres_size_argument args p d : pres (size_argument eval args p d).
Proof. unfold size_argument. pres. Qed.
Lemma pres_substr_result str start len : pres (substr_result str start len).
Proof. unfold substr_result. pres. Qed.
#[local] Hint Resolve pres_number_or_nil pres_is_tag_func pres_size_argument pres_substr_result : pres.

Lemma pres_LambdaFunc args : pres (LambdaFunc args).
Proof.
  unfold LambdaFunc. do 2 (apply pres_bind; [pres|]; intros). destruct a0; [pres|].
  do 3 (apply pres_bind; [pres|]; intros).
  apply (pres_scope_put _ (fun sc => NScope (mk_scope (s_bindings sc) (s_next sc) (u32 (s_count sc + 1))))). pres.
Qed.
#[local] Hint Resolve pres_LambdaFunc : pres.

(** Every function of the table. *)
Lemma pres_call_special f args : pres (call_special fuel eval f args).
Proof.
  destruct f; cbn [call_special]; try solve [unfold DivFunc, ModFunc; apply pres_two_numbers; pres];
    unfold CompareFunc, AddFunc, SubFunc, MulFunc, AndFunc, OrFunc, NotFunc, BeginFunc, ConsFunc, DefineFunc,
      HeadFunc, IfFunc, ListFunc, RestFunc, SubstrFunc, ConcatFunc, IsNumberFunc, IsStringFunc, IsListFunc,
      IsNullFunc, PrintFunc; pres.
Qed.

Lemma pres_bind_loop n old new : forall bp ap, pres (bind_loop fuel eval n old new bp ap).
Proof. induction n as [|n IH]; intros; cbn [bind_loop]; pres. Qed.
Lemma pres_lambda_parts p : pres (lambda_parts p).
Proof. unfold lambda_parts. pres. Qed.
#[local] Hint Resolve pres_call_special pres_bind_loop pres_lambda_parts : pres.

Lemma pres_EvalLambda lambda args : pres (EvalLambda fuel eval lambda args).
Proof. unfold EvalLambda. pres. Qed.
#[local] Hint Resolve pres_EvalLambda : pres.

Lemma pres_evaluate_value l max value : pres (evaluate_value fuel eval l max value).
Proof. unfold evaluate_value. pres. Qed.

End functions.

(** * Evaluation *)

(** The state [JLEvaluate] evaluates in: a level deeper, and at the top with the
    error flag cleared. *)
Definition entered (st : JLContext) : JLContext :=
  set_levels (levels st + 1) (if levels st =? 0 then set_jl_error false st else st).

(** After an error, inside an evaluation. *)
Definition stopped (st : JLContext) : bool := negb (levels st =? 0) && jl_error st.

(** A nested evaluation that is not refused runs between [entered] and the level
    it came from. *)
Definition inside (st st' : JLContext) : Prop :=
  levels st' = levels st /\ step (entered st) (set_levels (levels st + 1) st').

Lemma entered_pool st : pool_ok st -> pool_ok (entered st).
Proof. intros H. eapply pool_ok_rest; [exact H|..]; unfold entered; by destruct (_ =? 0). Qed.

Lemma inside_step st st' : stopped st = false -> inside st st' -> step st st'.
Proof.
  unfold stopped. intros Hs [Hl [Hp _ Hm (out & Ho & He)]]. split; [by eapply pool_ok_rest; [exact Hp|..]|done| |].
  - cbn in Hm. unfold entered in Hm. by destruct (_ =? 0).
  - exists out. unfold entered in *. cbn in Ho, He. destruct (Z.eqb_spec (levels st) 0) as [E|E]; cbn in *.
    + split; [done|lia].
    + split; [done|]. intros Hl1. apply He. lia.
Qed.

(** The level is left again. *)
Lemma inside_leave st st1 : good st -> step (entered st) st1 ->
  inside st (set_levels (u32 (levels st1 - 1)) st1).
Proof.
  intros [_ Hl Hm] [Hp El Em Ho]. cbn in El. rewrite El, u32_id by lia.
  split; cbn; [lia|]. split; [by eapply pool_ok_rest; [exact Hp|..]|done|done|done].
Qed.

Lemma JLEvaluate_inside fuel : forall p st a st', good st -> JLEvaluate fuel p st = Some (a, st') ->
  if stopped st then a = 0 /\ st' = st else inside st st'.
Proof.
  induction fuel as [|fuel IH]; intros p st a st' Hg E; [done|].
  assert (Heval : forall q, pres (JLEvaluate fuel q)).
  { intros q st1 b st2 Hg1 E1. specialize (IH _ _ _ _ Hg1 E1). destruct (stopped st1) eqn:Hs.
    - destruct IH as [_ ->]. by apply step_refl, Hg1.
    - by apply inside_step. }
  cbn [JLEvaluate] in E. unfold gets in E. unfold mbind, M_bind in E. fold (stopped st) in E.
  destruct (stopped st); [by injection E as <- <-|]. pose proof Hg as [Hp Hl Hm].
  assert (Hent : (if levels st =? 0 then modify (set_jl_error false) else mret tt) st =
    Some (tt, if levels st =? 0 then set_jl_error false st else st)) by by destruct (levels st =? 0).
  rewrite Hent in E. cbn [modify] in E. rewrite u32_id in E by lia. fold (entered st) in E.
  change (levels (entered st)) with (levels st + 1) in E.
  assert (Em : max_levels (entered st) = max_levels st) by (unfold entered; by destruct (_ =? 0)).
  rewrite Em in E.
  destruct (evaluate_value fuel (JLEvaluate fuel) (levels st + 1) (max_levels st) p (entered st))
    as [[b st1]|] eqn:E1; [|done]. cbn in E. injection E as <- <-. apply inside_leave; [done|].
  destruct (Z.leb_spec (levels st + 1) (max_levels st)) as [Hle|Hgt].
  - eapply pres_evaluate_value; [exact Heval| |exact E1].
    split; [by apply entered_pool|change (levels (entered st)) with (levels st + 1); rewrite Em; lia|by rewrite Em].
  - unfold evaluate_value in E1. destruct (p =? 0).
    + injection E1 as <- <-. by apply step_refl, entered_pool.
    + assert (Hgt' : (levels st + 1 >? max_levels st) = true) by (apply Z.gtb_lt; lia). rewrite Hgt' in E1.
      injection E1 as <- <-. split; [eapply pool_ok_rest; [by apply entered_pool|..]; done|done|done|].
      exists [OError (jl_line (entered st)) MaxDepth]. split; [done|]. intros _. simpl. by rewrite orb_true_r.
Qed.

Lemma pres_JLEvaluate fuel p : pres (JLEvaluate fuel p).
Proof.
  intros st a st' Hg E. pose proof (JLEvaluate_inside _ _ _ _ _ Hg E) as H. destruct (stopped st) eqn:Hs.
  - destruct H as [_ ->]. by apply step_refl, Hg.
  - by apply inside_step.
Qed.
#[export] Hint Resolve pres_JLEvaluate : pres.

(** * The reader and the console *)

Section reader.
Context `{JLLib}.

Lemma pres_ParseLiteral line : pres (ParseLiteral line).
Proof. unfold ParseLiteral. pres. Qed.

Lemma pres_skip_space fuel txt : forall p, pres (skip_space fuel txt p).
Proof. induction fuel as [|fuel IH]; intros p; cbn [skip_space]; pres. Qed.
#[local] Hint Resolve pres_ParseLiteral pres_skip_space : pres.

Lemma pres_parse_items parse n : (forall line, pres (parse line)) ->
  forall item line, pres (parse_items parse n item line).
Proof. intros Hparse. induction n as [|n IH]; intros item line; cbn [parse_items]; pres. Qed.

Lemma pres_ParseExpression fuel : forall line, pres (ParseExpression fuel line).
Proof.
  induction fuel as [|fuel IH]; intros line; cbn [ParseExpression]; [pres|].
  unfold ParseList. pres. by apply pres_parse_items.
Qed.
#[local] Hint Resolve pres_ParseExpression : pres.

Lemma pres_JLParse line : pres (JLParse line).
Proof. unfold JLParse. pres. Qed.
#[local] Hint Resolve pres_JLParse : pres.

Lemma pres_ProcessBuffer n fuel : forall line result, pres (ProcessBuffer n fuel line result).
Proof. induction n as [|n IH]; intros line result; cbn [ProcessBuffer]; pres. Qed.
#[local] Hint Resolve pres_ProcessBuffer : pres.

Lemma pres_process_buffer fuel buffer : pres (process_buffer fuel buffer).
Proof. unfold process_buffer. pres. Qed.
Lemma pres_console_put s c : pres (console_put s c).
Proof. unfold console_put. pres. Qed.
Lemma pres_console_erase s : pres (console_erase s).
Proof. unfold console_erase. pres. Qed.
#[local] Hint Resolve pres_process_buffer pres_console_put pres_console_erase : pres.

Lemma pres_jli_switch fuel s c : pres (jli_switch fuel s c).
Proof. unfold jli_switch. pres. Qed.
#[local] Hint Resolve pres_jli_switch : pres.
Lemma pres_jli_char fuel s c : pres (jli_char fuel s c).
Proof. unfold jli_char. pres. Qed.
#[local] Hint Resolve pres_jli_char : pres.
Lemma pres_jli_loop fuel cs : forall s, pres (jli_loop fuel s cs).
Proof. induction cs as [|c cs IH]; intros s; cbn [jli_loop]; pres. Qed.

End reader.
