(* ===== verification/JlTheorems.v ===== *)
(** What the JL lisp interpreter does: the properties of its evaluator, reader,
    scopes and console, for a reader of src/pus/app/lisp. *)
From Stdlib Require Import SpecFloat Ascii String.
From S2P Require Import Prelude CText JlHeap JlEval JlLogic JlScopes JlTree JlRef JlRepr JlFuncSpec JlParse JlReader JlSpec JlSession JlProgram JlDefine JlConsole JlAnswers JlPool.

(** A [JLValue *] that is the value of the reference. *)
Definition value_is (ns : heap) (r : Z) (v : result) : Prop :=
  match v with
  | None => r = 0
  | Some x => exists w, ns !! r = Some (NValue w) /\ v_tag w = rtag x /\
      match x with
      | RNum d => v_value w = VNumber d
      | RStr s => v_value w = VStr s
      | RSpecial f => v_value w = VSpecial f
      | RFun _ _ => True
      end
  end.

Lemma res_value K W g ns r v : res_at K W g ns r v -> value_is ns r v.
Proof.
  destruct v as [x|]; [|done]. intros (_ & w & Hw & Ht & Hv). exists w. split; [done|]. split; [done|].
  by destruct x.
Qed.

(** * The evaluator *)

(** C6: whatever expression lies in a well-formed heap and whatever scopes are
    open, [JLEvaluate] computes the value the reference interpreter does, with
    the same error messages and error flag, keeps scope and depth, and the
    release of the result makes the heap what it was, node by node and count by
    count: nothing leaks and nothing is released twice. *)
Theorem JLEvaluate_refines K g G ln max n lv st sc frs ss B e p s v s' :
  pool_ok st -> counts_ok B (nodes st) -> env_at K (nodes st) g G (nodes st) sc frs ss ->
  rest_of st = (sc, ln, (lv, max), s) -> 0 <= B -> 0 <= lv -> lv + Z.of_nat n <= 4294967295 ->
  B + Z.of_nat n * (Z.of_nat K + 4) <= 4294967293 -> opt_code_at K (nodes st) p e ->
  reval ln max G n lv frs e s = Some (v, s') ->
  exists r st' st'', JLEvaluate (n + K) p st = Some (r, st') /\ value_is (nodes st') r v /\
    rest_of st' = (sc, ln, (lv, max), s') /\
    JLRelease r st' = Some (tt, st'') /\ nodes st'' = nodes st.
Proof.
  intros Hp Hc He Hr HB Hlv Hn Hb Hcode Hev.
  assert (Hk : stok K (nodes st) g G ln max st sc frs B lv s)
    by by split; [done|apply sub_refl|done|exists ss|..].
  pose proof (wp_JLEvaluate K (nodes st) g G ln max n lv st sc frs B e p s v s' Hk Hlv Hn Hb Hcode Hev) as H.
  apply wp_run in H as (r & st' & E & Hh & Hres & Hk').
  assert (H : wp (JLRelease r) (fun _ st'' => nodes st'' = nodes st) st')
    by (eapply wp_JLRelease; [apply Hk'|exact Hh|done]).
  apply wp_run in H as ([] & st'' & E' & Hn').
  exists r, st', st''. split; [done|]. split; [by eapply res_value|]. split; [apply Hk'|done].
Qed.

(** * The console *)

(** An [atof] that reads digits, for examples. *)
Fixpoint decimal (acc : Z) (s : bytes) : Z :=
  match s with c :: s' => if dotted c then decimal (acc * 10 + (c - 48)) s' else acc | [] => acc end.
Definition digits_atof : JLLib := {| atof := fun s => d_of_Z (decimal 0 s) |}.

Lemma digits_atof_token s c rest : number_token s -> is_separator c = true ->
  @atof digits_atof (s ++ until_zero (c :: rest)) = @atof digits_atof s.
Proof.
  intros (_ & Hs & _) Hc. cbn [atof digits_atof]. f_equal. generalize 0 as acc.
  induction Hs as [|x s Hx _ IH]; intros acc; simpl.
  - destruct (c =? 0); [done|]. simpl. destruct (dotted c) eqn:E; [|done].
    apply dotted_not_sep in E. congruence.
  - by rewrite Hx.
Qed.

(** The context [JLCreateContext] makes. *)
Lemma JLCreateContext_globals K : exists st g t V, JLCreateContext = Some st /\
  globals K st g 1 t V global_frame /\ rest_of st = (g, 1, (0, 32768), (false, [])).
Proof.
  destruct (wp_JLCreateContext K (fun st => exists g t V, globals K st g 1 t V global_frame /\
    rest_of st = (g, 1, (0, 32768), (false, [])))) as (st & Est & g & t & V & H); [eauto|].
  exists st, g, t, V. exact (conj Est H).
Qed.

(** C7: a line of the console is read and evaluated as the reference interpreter
    says: from a context whose heap holds the global scope, what its names are
    bound to and nothing else, [ProcessBuffer] reads the definitions and
    expressions the line spells, returns the value of the last one, prints and
    flags what the reference does, and once that result is released the heap
    holds the global scope with the new definitions and again nothing else; a
    line that defines nothing leaves it as it was, node by node. *)
Theorem ProcessBuffer_session `{JLLib} K N g cnt t V G ln max es line v G' s s' st :
  (forall s c rest, number_token s -> is_separator c = true -> atof (s ++ until_zero (c :: rest)) = atof s) ->
  globals K st g cnt t V G -> rest_of st = (g, ln, (0, max), s) -> 3 <= max ->
  0 <= cnt -> cnt + zlen es <= 4294967295 ->
  program_written es line -> forallb (narrow K) es = true ->
  Z.of_nat (S (S (S N))) * (Z.of_nat K + 4) < 4294967293 ->
  rforms ln max (S (S (S N))) G es None s = Some (v, G', s') ->
  exists r cur st' st'' cnt' t' V',
    ProcessBuffer (S (length es)) (S (S (S N)) + K) (line, 0) 0 st = Some ((r, cur), st') /\
    value_is (nodes st') r v /\ (jl_error st', printed st') = s' /\
    JLRelease r st' = Some (tt, st'') /\ globals K st'' g cnt' t' V' G' /\
    rest_of st'' = (g, ln, (0, max), s') /\
    (forallb (fun e => bool_decide (as_define e = None)) es = true -> nodes st'' = nodes st).
Proof.
  intros Hatof Hgl Hr Hmax Hc0 Hcnt Hpw Hnar HN He.
  assert (Hpost : line_post K g ln max (nodes st) false None s 0 st).
  { split; [by apply owes_held; left|]. split; [by exists ∅|]. split; [done|apply Hgl]. }
  assert (Hat : at_text line 0 line) by by split; [|apply drop_0].
  assert (Hlen : (length es < S (length es))%nat) by lia.
  assert (Hbound : 1 + Z.of_nat (S (S (S N))) * (Z.of_nat K + 4) <= 4294967293) by lia.
  pose proof (wp_ProcessBuffer Hatof K N g ln max Hbound Hmax es line Hpw _ line 0 0 false None (nodes st) cnt t V G s
    st v G' s' Hlen (gl_at _ _ _ _ _ _ _ Hgl) Hc0 Hcnt Hnar Hat Hpost He) as H1.
  apply wp_run in H1 as ([r cur] & st' & E & ns' & cnt' & t' & V' & Hgl' & _ & (How & (W & Hres & _) & Hr' & Hp') & Hsame).
  assert (H1 : wp (JLRelease r) (fun _ st'' => nodes st'' = ns' /\ rest_of st'' = rest_of st' /\ pool_ok st'') st').
  { eapply (ow_run _ _ _ How ∅); [done|by rewrite (left_id_L ∅ (∪))|apply map_disjoint_empty_l|].
    intros st2 Hn2 Hr2 Hp2. by rewrite Hn2, (left_id_L ∅ (∪)). }
  apply wp_run in H1 as ([] & st'' & E' & Hn' & Hr2 & Hp2). exists r, cur, st', st'', cnt', t', V'.
  assert (Hr3 : rest_of st'' = (g, ln, (0, max), s')) by (unfold ctx in Hr'; congruence).
  split; [exact E|]. split; [by eapply res_value|]. split; [|split; [exact E'|split; [|split; [done|]]]].
  - unfold rest_of, ctx in Hr'. by injection Hr' as _ _ _ _ <-.
  - split; [done|by rewrite Hn'|]. unfold rest_of in Hr3. congruence.
  - intros Hdef. rewrite Hn'. by apply Hsame.
Qed.


(** * The reader *)

(** C9: the reader reads every text of an expression: what [written] says may stand for
    it - numbers with a sign and a period, names that begin neither like a number nor
    with a sign (the names + and -, the second before a blank, excepted), strings
    without quotes and escapes, lists nested at will - after blanks and comments and
    with any blanks and comments inside is read as that expression, laid out in fresh
    nodes next to the heap, with the cursor on the character after it, which is no
    closing parenthesis. *)
Theorem JLParse_text `{JLLib} e s w c rest txt p st :
  (forall s c rest, number_token s -> is_separator c = true -> atof (s ++ until_zero (c :: rest)) = atof s) ->
  written e s c -> blank w -> c <> 41 -> 0 ∈ c :: rest -> pool_ok st -> at_text txt p (w ++ s ++ c :: rest) ->
  exists r txt' p' st' C, JLParse (txt, p) st = Some ((r, (txt', p')), st') /\
    lays C r e 0 /\ C ##ₘ nodes st /\ nodes st' = C ∪ nodes st /\
    at_text txt' p' (c :: rest) /\ length txt' = length txt /\ pool_ok st' /\ rest_of st' = rest_of st.
Proof.
  intros Hatof Hw Hb Hc Hz Hok Hat.
  pose proof (wp_JLParse Hatof _ _ c txt p w rest st Hw Hb Hok Hz Hc Hat) as H1.
  apply wp_run in H1 as ([r [txt' p']] & st' & E & Hat' & Hl & (C & HC & Hd & Hn) & Hp & Hr).
  exists r, txt', p', st', C. done.
Qed.

(** * Scopes *)

(** A value that may be bound [n] times: nil, or a value that is no closure with
    a count far enough from the greatest. *)
Definition bindable (ns : heap) (n : Z) (a : Z) : Prop :=
  a = 0 \/ exists v, ns !! a = Some (NValue v) /\ v_tag v <> JLVALUE_LAMBDA /\
    1 <= v_count v /\ v_count v + n < 4294967296.

Fixpoint define_all (ds : list (bytes * Z)) : M unit :=
  match ds with [] => mret tt | (x, a) :: ds' => JLDefineValue (Some x) a;; define_all ds' end.

Lemma held_count r ns ns' p v : held r ns ns' -> ns !! p = Some (NValue v) ->
  exists v', ns' !! p = Some (NValue v') /\ v_tag v' = v_tag v /\ v_count v <= v_count v' <= v_count v + 1.
Proof.
  intros [[-> ->]|[Hr [w Hw Hc ->|u t Hr' _ ->]]] Hp; [exists v; split; [done|split; [done|lia]]|..];
    destruct (decide (p = r)) as [->|Hne]; try (rewrite lookup_insert_ne by done; exists v; split; [done|split; [done|lia]]).
  - rewrite lookup_insert_eq. assert (w = v) as -> by congruence. eexists. split; [done|]. split; [done|]. simpl. lia.
  - congruence.
Qed.

Lemma bindable_held r ns ns' n a : 0 <= n -> held r ns ns' -> bindable ns (1 + n) a -> bindable ns' n a.
Proof.
  intros Hn Hh [->|(v & Hv & Ht & Hc & Hb)]; [by left|]. right.
  destruct (held_count _ _ _ _ _ Hh Hv) as (v' & Hv' & Et & Hc'). exists v'. rewrite Et. split; [done|]. split; [done|lia].
Qed.

Lemma wp_define_all ds : forall s next t V0 V st (Q : unit -> JLContext -> Prop),
  pool_ok st -> jl_scope st = s -> nodes st = scope_map s next 1 t ∪ V -> scope_ok s t ->
  scope_map s next 1 t ##ₘ V -> helds (tvals t) V0 V -> NoDup ds.*1 ->
  (forall x, x ∈ ds.*1 -> tfind t x = None) -> Forall (bindable V (zlen ds)) ds.*2 ->
  (forall t' V' st', nodes st' = scope_map s next 1 t' ∪ V' -> scope_ok s t' -> scope_map s next 1 t' ##ₘ V' ->
     helds (tvals t') V0 V' -> (forall x a, (x, a) ∈ ds -> tfind t' x = Some a) ->
     (forall x a, tfind t x = Some a -> tfind t' x = Some a) ->
     (forall a, a ∈ tvals t' -> a ∈ tvals t \/ a ∈ ds.*2) -> rest_of st' = rest_of st -> pool_ok st' -> Q tt st') ->
  wp (define_all ds) Q st.
Proof.
  induction ds as [|[x a] ds IH]; intros s next t V0 V st Q Hok Hs Hn Ht Hd Hh Hnd Hx Hb HQ.
  - apply wp_ret. eapply (HQ t V); auto. intros x a Hin. by apply elem_of_nil in Hin.
  - pose proof (NoDup_cons_1_1 _ _ Hnd) as Hxd. apply NoDup_cons_1_2 in Hnd.
    cbn [fmap list_fmap snd] in Hb. apply Forall_cons_1 in Hb as [Ha Hb]. rewrite zlen_cons in *.
    pose proof (zlen_nonneg ds) as Hl. cbn [define_all]. apply wp_bind.
    assert (Htx : tfind t x = None) by (apply Hx; left).
    eapply (wp_JLDefineValue_new s next 1 t V x a); [done|done|exact Hn|done|done|done| |].
    { intros Ha0. destruct Ha as [?|(v & Hv & _ & Hc)]; [done|]. exists v. split; [done|lia]. }
    intros q V1 st1 Ht1 Hn1 Hd1 Hh1 Hr1 Hp1.
    assert (Hmem : forall x0, x0 ∈ ds.*1 -> x0 <> x) by (intros x0 H0 ->; done).
    assert (Hs1 : jl_scope st1 = s) by (unfold rest_of in Hr1; congruence).
    eapply (IH s next (tinsert t q x a) V0 V1); [done|done|exact Hn1|done|done| |done| | |].
    + eapply helds_perm; [symmetry; by apply tvals_insert|]. by eapply helds_snoc.
    + intros y Hy. rewrite tfind_insert, decide_False by auto. apply Hx. by right.
    + eapply Forall_impl; [|exact Hb]. intros b Hb0. by eapply bindable_held.
    + intros t' V' st' Hn' Ht' Hd' Hh' Hin' Hold Hvals Hr' Hp'. eapply (HQ t' V'); auto.
      * intros y b [[= -> ->]|Hy]%elem_of_cons; [|by apply Hin'].
        apply Hold. by rewrite tfind_insert, decide_True.
      * intros y b Hy. apply Hold. rewrite tfind_insert, decide_False; [done|]. intros ->. congruence.
      * intros b Hb'. destruct (Hvals b Hb') as [Hv|Hv]; [|right; by right].
        rewrite (tvals_insert t q x a Htx) in Hv. apply elem_of_cons in Hv as [->|?]; [right; by left|by left].
      * congruence.
Qed.

(** C10: scopes nest as they should: in a fresh scope each of the names bound there
    is looked up as the value it was bound to, whatever the scopes around it bind
    and in whatever order the tree took them in, and leaving the scope makes the
    heap, the current scope and every reference count what they were. *)
Theorem scope_define_lookup_leave ds st : pool_ok st -> NoDup ds.*1 ->
  Forall (bindable (nodes st) (zlen ds)) ds.*2 ->
  exists st1 st2, (JLEnterScope;; define_all ds) st = Some (tt, st1) /\
    (forall x a, (x, a) ∈ ds -> Lookup x st1 = Some (a, st1)) /\
    JLLeaveScope st1 = Some (tt, st2) /\ nodes st2 = nodes st /\ rest_of st2 = rest_of st.
Proof.
  intros Hok Hnd Hb.
  assert (Hwp : wp (JLEnterScope;; define_all ds) (fun _ st1 =>
    (forall x a, (x, a) ∈ ds -> Lookup x st1 = Some (a, st1)) /\
    wp JLLeaveScope (fun _ st2 => nodes st2 = nodes st /\ rest_of st2 = rest_of st) st1) st).
  { apply wp_bind. apply wp_JLEnterScope; [done|]. intros s st1 Hs0 Hfresh Hs Hn Hr Hp.
    assert (Hd : scope_map s (jl_scope st) 1 BLeaf ##ₘ nodes st).
    { apply scope_map_disjoint. split; [done|apply map_disjoint_empty_l]. }
    eapply (wp_define_all ds s (jl_scope st) BLeaf (nodes st) (nodes st)); [done|done| | |done|constructor|done|done|done|].
    { rewrite Hn. unfold scope_map. rewrite <- insert_union_l. cbn [tmap troot]. by rewrite (left_id_L ∅ (∪)). }
    { split; [done|split; [apply lookup_empty|done]]. }
    intros t V st2 Hn2 (Ht0 & Hst & Ht) Hd2 Hh2 Hin _ Hvals Hr2 Hp2.
    assert (Hsc : jl_scope st2 = s) by (unfold rest_of in *; cbn in *; congruence).
    assert (Hsn : nodes st2 !! s = Some (NScope (mk_scope (troot t) (jl_scope st) 1)))
      by by rewrite Hn2; unfold scope_map; rewrite <- insert_union_l, lookup_insert_eq.
    assert (Htree : tree_at (nodes st2) t).
    { split; [done|]. rewrite Hn2. etransitivity; [|apply map_union_subseteq_l]. by apply insert_subseteq. }
    split.
    - intros x a Hx. unfold Lookup, mbind, M_bind, gets, lift. cbn [id]. rewrite Hsc.
      unfold heap_fuel at 1. cbn [Nat.add lookup_scopes]. zif_false. rewrite Hsn. cbn [s_bindings].
      pose proof (tree_at_height _ _ Htree) as Hht.
      destruct (find_binding_spec st2 t x (heap_fuel st2) Htree) as (b & -> & Hb2); [unfold heap_fuel; lia|].
      rewrite (Hin x a Hx) in Hb2. destruct b as [b|]; [|done]. by injection Hb2 as <-.
    - eapply (wp_JLLeaveScope s (jl_scope st) t (nodes st) V); [done|done|done|done|done|done| |].
      + intros st' Hn'. apply Forall_forall. intros a Ha. unfold own_lambda.
        apply list_elem_of_In in Ha. destruct (Hvals a Ha) as [Hv|Hv]; [by apply elem_of_nil in Hv|].
        pose proof (proj1 (Forall_forall _ _) Hb a) as Hba.
        apply list_elem_of_In in Hv. destruct (Hba Hv) as [->|(v & Hv' & Htag & _)]; [done|].
        destruct (sub_value (nodes st) V a v (helds_sub _ _ _ Hh2) Hv') as (v' & Hv2 & _ & _ & Et).
        assert (Ea : nodes st' !! a = Some (NValue v')).
        { rewrite Hn', Hn2, lookup_union_r; [done|]. by eapply map_disjoint_Some_r. }
        unfold peek. rewrite Ea. destruct (a =? 0); [done|].
        assert (E : (v_tag v' =? JLVALUE_LAMBDA) = false) by (apply Z.eqb_neq; congruence). by rewrite E.
      + intros st' Hn' Hr' _. split; [done|]. rewrite Hr'. unfold rest_of in *. cbn in *. congruence. }
  apply wp_run in Hwp as ([] & st1 & E1 & Hl & Hwp). apply wp_run in Hwp as ([] & st2 & E2 & Hn & Hr).
  by exists st1, st2.
Qed.

(** * Any program *)

(** Whatever is typed at the console, wrong programs included: as long as no
    undefined behaviour was met, every node of every block is in use or on the
    free list and on it once, so none is lost or handed out twice by the pool,
    and between two characters no evaluation is under way. *)
Theorem jli_loop_pool `{JLLib} fuel s cs st s' over st' :
  pool_ok st -> levels st = 0 -> 0 <= max_levels st < 4294967295 ->
  jli_loop fuel s cs st = Some ((s', over), st') ->
  pool_ok st' /\ levels st' = 0 /\ max_levels st' = max_levels st.
Proof.
  intros Hp Hl Hm E. assert (Hg : good st) by (split; [done|lia|lia]).
  destruct (pres_jli_loop fuel cs s st _ _ Hg E) as [Hp' Hl' Hm' _]. split; [done|]. split; [congruence|done].
Qed.

(** C11: an evaluation reports its errors: at the top it clears the error flag
    and leaves it set exactly when it printed an error line; below the top it is
    refused after an error and otherwise adds to the flag what it printed. *)
Theorem JLEvaluate_reports fuel p st r st' :
  pool_ok st -> 0 <= levels st <= max_levels st -> max_levels st < 4294967295 ->
  JLEvaluate fuel p st = Some (r, st') ->
  exists out, printed st' = printed st ++ out /\ levels st' = levels st /\
    jl_error st' = (negb (levels st =? 0) && jl_error st) || existsb is_error out /\
    (negb (levels st =? 0) && jl_error st = true -> r = 0 /\ st' = st).
Proof.
  intros Hp Hl Hm E. assert (Hg : good st) by by split.
  pose proof (JLEvaluate_inside _ _ _ _ _ Hg E) as H. unfold stopped in H.
  destruct (negb (levels st =? 0) && jl_error st) eqn:Hs.
  - destruct H as [-> ->]. exists []. by rewrite app_nil_r; apply andb_true_iff in Hs as [_ ->].
  - destruct H as [El [_ _ _ (out & Ho & He)]]. exists out. unfold entered in Ho, He.
    destruct (Z.eqb_spec (levels st) 0) as [E0|E0]; cbn in Ho, He, Hs; [|rewrite Hs in He];
      (split; [done|]; split; [done|]; split; [apply He; lia|done]).
Qed.

(** * Examples *)

Definition t_num (s : string) : texpr := TNum false (str_of s).
Definition t_var (s : string) : texpr := TVar (str_of s).

Definition example : texpr :=
  TList [t_var "*"; t_num "6"; TList [t_var "-"; t_num "5"; TNum true (str_of "2")]].
Definition example_sexp : sexp := @sexp_of digits_atof example.

(** A definition and a call. *)
Definition fact_line : list texpr :=
  [TList [t_var "define"; t_var "f"; TList [t_var "lambda"; TList [t_var "n"];
     TList [t_var "if"; TList [t_var "<"; t_var "n"; t_num "2"]; t_num "1";
       TList [t_var "*"; t_var "n"; TList [t_var "f"; TList [t_var "-"; t_var "n"; t_num "1"]]]]]];
   TList [t_var "f"; t_num "5"]].

Example fact_line_text : line_of fact_line =
  str_of "(define f (lambda (n ) (if (< n 2 ) 1 (* n (f (- n 1 ) ) ) ) ) ) (f 5 ) " ++ [0].
Proof. reflexivity. Qed.

Lemma ProcessBuffer_session_witness :
  exists st r cur st' st'' g cnt t V G, JLCreateContext = Some st /\
    @ProcessBuffer digits_atof 3 34 (line_of fact_line, 0) 0 st = Some ((r, cur), st') /\
    value_is (nodes st') r (Some (RNum (d_of_Z 120))) /\ jl_error st' = false /\ printed st' = [] /\
    JLRelease r st' = Some (tt, st'') /\ globals 4 st'' g cnt t V G.
Proof.
  destruct (JLCreateContext_globals 4) as (st & g & t & V & Est & Hgl & Hr).
  destruct (@ProcessBuffer_session digits_atof 4 27 g 1 t V global_frame 1 32768
    (map (@sexp_of digits_atof) fact_line) (line_of fact_line) (Some (RNum (d_of_Z 120)))
    (<[str_of "f" := Some (RFun [str_of "n"] [@sexp_of digits_atof
       (TList [t_var "if"; TList [t_var "<"; t_var "n"; t_num "2"]; t_num "1";
         TList [t_var "*"; t_var "n"; TList [t_var "f"; TList [t_var "-"; t_var "n"; t_num "1"]]]])])]> global_frame)
    (false, []) (false, []) st digits_atof_token Hgl Hr)
    as (r & cur & st' & st'' & cnt' & t' & V' & E & Hv & Hs & E' & Hgl' & _).
  - lia.
  - lia.
  - unfold zlen. simpl. lia.
  - by apply line_written.
  - reflexivity.
  - lia.
  - vm_compute. reflexivity.
  - exists st, r, cur, st', st'', g, cnt', t', V', (<[str_of "f" := Some (RFun [str_of "n"] [@sexp_of digits_atof
       (TList [t_var "if"; TList [t_var "<"; t_var "n"; t_num "2"]; t_num "1";
         TList [t_var "*"; t_var "n"; TList [t_var "f"; TList [t_var "-"; t_var "n"; t_num "1"]]]])])]> global_frame).
    split; [exact Est|]. split; [exact E|]. split; [exact Hv|]. injection Hs as H1 H2.
    split; [exact H1|]. split; [exact H2|]. split; [exact E'|exact Hgl'].
Defined.

(** Two lines at the console, the second without a blank that it can do without, and what
    is printed. *)
Definition first_line : line := @laid_out digits_atof
  [TList [t_var "define"; t_var "f"; TList [t_var "lambda"; TList [t_var "n"]; TList [t_var "+"; t_var "n"; t_num "1"]]]].
Definition second_line : line :=
  (map (@sexp_of digits_atof) [TList [t_var "print"; TList [t_var "f"; t_num "41"]]; TList [t_var "f"; t_num "9"]],
   str_of "(print(f 41))(f 9)").
Definition session_lines : list line := [first_line; second_line].

Example session_typed : typed session_lines =
  str_of "(define f (lambda (n ) (+ n 1 ) ) ) " ++ [13] ++ str_of "(print(f 41))(f 9)" ++ [13].
Proof. reflexivity. Qed.







Lemma JLParse_text_witness : exists st r cur st' C, pool_ok st /\
  @JLParse digits_atof (text_of example ++ [32; 0], 0) st = Some ((r, cur), st') /\
  lays C r example_sexp 0 /\ nodes st' = C ∪ nodes st.
Proof.
  destruct (JLCreateContext_globals 4) as (st & g & t & V & _ & Hgl & _).
  pose proof (gl_pool _ _ _ _ _ _ _ Hgl) as Hok.
  assert (Hw : @written digits_atof example_sexp (text_of example) 32) by by apply text_written; [|left].
  destruct (@JLParse_text digits_atof example_sexp (text_of example) [] 32 [0] (text_of example ++ [32; 0]) 0 st digits_atof_token)
    as (r & txt' & p' & st' & C & E & Hl & _ & Hn & _); [exact Hw|constructor|done|by right; left|done|by split|].
  exists st, r, (txt', p'), st', C. done.
Defined.

(** The example, read in a fresh context. *)
Lemma example_read : exists st g p, pool_ok st /\ counts_ok 1 (nodes st) /\
  env_at 3 (nodes st) g global_frame (nodes st) g [] [g] /\
  rest_of st = (g, 1, (0, 32768), (false, [])) /\ opt_code_at 3 (nodes st) p (Some example_sexp).
Proof.
  destruct (JLCreateContext_globals 3) as (st & g & t & V & _ & Hgl & Hr).
  pose proof (gl_pool _ _ _ _ _ _ _ Hgl) as Hok.
  assert (HB : 1 <= 1) by lia. pose proof (globals_base 3 g global_frame 1 _ _ _ _ HB (gl_at _ _ _ _ _ _ _ Hgl)) as [He Hc _].
  assert (Hw : @written digits_atof example_sexp (text_of example) 32) by by apply text_written; [|left].
  pose proof (@wp_JLParse digits_atof digits_atof_token example_sexp (text_of example) 32
    (text_of example ++ [32; 0]) 0 [] [0] st Hw blank_nil Hok) as H.
  apply wp_run in H as ([p cur] & st' & _ & _ & _ & (C & Hl & Hd & Hn) & Hp & Hr'); [|by right; left|done|by split].
  pose proof (sub_union_r _ _ Hd) as Hsub. cbn [fst] in Hl. exists st', g, p. rewrite Hn.
  assert (Hcode : code_at 3 C p example_sexp) by by eapply lays_code.
  split; [done|]. split; [|split; [|split; [congruence|split; [by eapply lays_pos|]]]].
  - intros q v [Hq|[_ Hq]]%lookup_union_Some_raw; [|by eapply Hc]. rewrite (lays_count _ _ _ _ Hl _ _ Hq). lia.
  - eapply env_global_world; [exact Hsub|]. by eapply env_sub.
  - eapply code_sub; [|exact Hcode]. apply sub_subseteq, map_union_subseteq_l.
Qed.

Lemma JLEvaluate_refines_witness :
  exists st p r st' st'', JLEvaluate 9 p st = Some (r, st') /\
    value_is (nodes st') r (Some (RNum (d_of_Z 42))) /\
    jl_error st' = false /\ JLRelease r st' = Some (tt, st'') /\ nodes st'' = nodes st.
Proof.
  destruct example_read as (st & g & p & Hok & Hc & He & Hr & Hp).
  destruct (JLEvaluate_refines 3 g global_frame 1 32768 6 0 st g [] [g] 1 (Some example_sexp) p
    (false, []) (Some (RNum (d_of_Z 42))) (false, []) Hok Hc He Hr) as (r & st' & st'' & E & Hv & Hr' & E' & Hn);
    [lia|lia|lia|lia|exact Hp|vm_compute; reflexivity|].
  exists st, p, r, st', st''. split; [exact E|]. split; [exact Hv|]. split; [|split; [exact E'|exact Hn]].
  unfold rest_of in Hr'. congruence.
Defined.

(** In a fresh scope the expression read is bound to two names, nil to a third. *)
Lemma scope_define_lookup_leave_witness : exists st p st1 st2, p <> 0 /\
  (JLEnterScope;; define_all [(str_of "m", p); (str_of "a", p); (str_of "z", 0)]) st = Some (tt, st1) /\
  Lookup (str_of "a") st1 = Some (p, st1) /\ Lookup (str_of "z") st1 = Some (0, st1) /\
  JLLeaveScope st1 = Some (tt, st2) /\ nodes st2 = nodes st.
Proof.
  destruct example_read as (st & g & p & Hok & Hc & _ & _ & Hp0 & v & Hv & Htag & _).
  assert (Hb : bindable (nodes st) 3 p).
  { right. exists v. destruct (Hc _ _ Hv) as [Hlo Hhi]. rewrite Htag. split; [exact Hv|]. split; [discriminate|lia]. }
  destruct (scope_define_lookup_leave [(str_of "m", p); (str_of "a", p); (str_of "z", 0)] st)
    as (st1 & st2 & E1 & Hl & E2 & Hn & _).
  - exact Hok.
  - by apply (bool_decide_unpack _).
  - constructor; [exact Hb|constructor; [exact Hb|constructor; [by left|constructor]]].
  - exists st, p, st1, st2. split; [exact Hp0|]. split; [exact E1|].
    split; [apply Hl; right; left|]. split; [apply Hl; right; right; left|]. by split.
Defined.

(** Two lines typed at the console, the second of them wrong. *)
Definition typed : list Z := str_of "(define f (lambda (x) (+ x nil)))" ++ [13] ++ str_of "(f 1 2)" ++ [13].

Lemma fresh_good st : JLCreateContext = Some st -> good st /\ levels st = 0 /\ max_levels st = 32768.
Proof.
  destruct (JLCreateContext_globals 4) as (st0 & g & t & V & Est & Hgl & Hr). rewrite Est. clear Est.
  intros [= <-]. pose proof (gl_pool _ _ _ _ _ _ _ Hgl) as Hp. clear Hgl. unfold rest_of in Hr.
  injection Hr as _ _ Hl Hm _ _. split; [|split; [exact Hl|exact Hm]]. split; [exact Hp|lia|lia].
Qed.

Lemma jli_loop_pool_witness : exists st s' st',
  @jli_loop digits_atof 30 (mk_console 0 0 (repeat 0 200)) typed st = Some ((s', false), st') /\
  pool_ok st' /\ levels st' = 0.
Proof.
  assert (E : (st ← JLCreateContext; r ← @jli_loop digits_atof 30 (mk_console 0 0 (repeat 0 200)) typed st;
    Some (r.1.2 : bool)) = Some false) by (vm_compute; reflexivity).
  apply bind_Some in E as (st & Hg & E). apply fresh_good in Hg as (Hg & Hl & Hm).
  apply bind_Some in E as ([[s' over] st'] & E & Ho). injection Ho as Ho. cbn [fst snd] in Ho. subst over.
  assert (Hmax : 0 <= max_levels st < 4294967295) by (rewrite Hm; lia).
  destruct (@jli_loop_pool digits_atof _ _ _ _ _ _ _ (gd_pool _ Hg) Hl Hmax E) as (Hp & Hl' & _).
  exists st, s', st'. split; [exact E|]. split; [exact Hp|exact Hl'].
Defined.

Lemma JLEvaluate_reports_witness : exists p st r st' out,
  JLEvaluate 9 p st = Some (r, st') /\ printed st' = printed st ++ out /\ existsb is_error out = true.
Proof.
  assert (E : (st ← JLCreateContext; r ← @JLParse digits_atof (str_of "(+ 1 nil)" ++ [0], 0) st;
    r2 ← JLEvaluate 9 r.1.1 r.2; Some (jl_error r2.2)) = Some true) by (vm_compute; reflexivity).
  apply bind_Some in E as (st0 & Hg & E). apply fresh_good in Hg as (Hg & Hl & Hm).
  apply bind_Some in E as ([[p cur] st] & E1 & E). cbn [fst snd] in E.
  pose proof (@pres_JLParse digits_atof _ _ _ _ Hg E1) as H1. clear E1.
  apply bind_Some in E as ([r st'] & E2 & He). injection He as He. cbn [fst snd] in He.
  pose proof (step_good _ _ Hg H1) as [Hp Hl1 Hm1].
  destruct (JLEvaluate_reports 9 p st r st' Hp Hl1 Hm1 E2) as (out & Ho & _ & Hr & _).
  exists p, st, r, st', out. split; [exact E2|]. split; [exact Ho|].
  rewrite (sp_levels _ _ H1), Hl in Hr. rewrite <- He, Hr. reflexivity.
Defined.
