(* ===== verification/JlFindings.v ===== *)
(** What the JL lisp interpreter does on the programs it does not mean to run,
    and the line editor of its console.  Each example runs the definitions on the
    text shown; [None] is undefined behaviour. *)
From Stdlib Require Import SpecFloat Ascii String.
From S2P Require Import Prelude CText JlHeap JlEval JlLogic JlScopes JlTree JlRef JlRepr JlFuncSpec JlParse JlReader JlSpec JlSession JlProgram JlDefine JlTheorems.

#[local] Existing Instance digits_atof.

(** A text in a fresh context, and what is printed for its last value. *)
Definition run_text (s : string) : option (Z * JLContext) :=
  st ← JLCreateContext;
  '((r, _), st) ← ProcessBuffer 100 100 (str_of s ++ [0], 0) 0 st;
  Some (r, st).
Definition shown (s : string) : option (list jl_out) :=
  '(r, st) ← run_text s; '(_, st) ← JLPrint 100 r st; Some (printed st).

(** The value a global name is bound to. *)
Definition global_value (st : JLContext) (name : string) : option (Z * JLValue) :=
  r ← lookup_scopes 2 st (jl_scope st) (str_of name);
  p ← r;
  match nodes st !! p with Some (NValue v) => Some (p, v) | _ => None end.

(** * Closures *)

(** The scope that the closure bound to a global name was made in. *)
Definition closure_scope (st : JLContext) (name : string) : option ScopeNode :=
  '(_, v) ← global_value st name;
  l ← u_lst (v_value v);
  match nodes st !! l with
  | Some (NValue sv) =>
      s ← u_scope (v_value sv);
      match nodes st !! s with Some (NScope sc) => Some sc | _ => None end
  | _ => None
  end.

Definition dangles (st : JLContext) (name : string) : option bool :=
  sc ← closure_scope st name;
  Some (negb (s_next sc =? 0) && bool_decide (nodes st !! s_next sc = None) &&
        existsb (Z.eqb (s_next sc)) (freelist st)).

Lemma option_bind_some {A B} (o : option A) (f : A -> option B) b :
  o ≫= f = Some b -> exists a, o = Some a /\ f a = Some b.
Proof. intros H. apply bind_Some in H. exact H. Qed.

(** a closure keeps the scope it was made in, but that scope does not keep
    the scope around it: after a function of a function of a function is applied
    twice, the closure that is left has a scope whose [next] is a node that is on
    the free list again. *)
Theorem nested_closure_dangles : exists r st sc,
  run_text "(define h (((lambda (x) (lambda (y) (lambda (z) (+ x y z)))) 1) 2))" = Some (r, st) /\
  closure_scope st "h" = Some sc /\ s_next sc <> 0 /\ nodes st !! s_next sc = None /\
  s_next sc ∈ freelist st.
Proof.
  assert (H : exists st, (r ← run_text "(define h (((lambda (x) (lambda (y) (lambda (z) (+ x y z)))) 1) 2))"; Some r.2)
    = Some st /\ dangles st "h" = Some true) by (apply option_bind_some; vm_compute; reflexivity).
  destruct H as (st & E & Eb). apply bind_Some in E as ([r st'] & E & [= <-]). unfold dangles in Eb.
  apply bind_Some in Eb as (sc & Ec & [= Hb]). exists r, st', sc. split; [exact E|]. split; [exact Ec|].
  clear E Ec. rewrite !andb_true_iff, negb_true_iff, Z.eqb_neq, bool_decide_eq_true in Hb.
  destruct Hb as [[Hn Hf] Hin]. split; [done|]. split; [done|].
  apply existsb_exists in Hin as (y & Hy & ->%Z.eqb_eq). by apply list_elem_of_In.
Qed.

(** the arguments for a rest parameter are linked by the [next] members of
    their values, also when a value is bound to a name: passing a variable twice
    makes the list a cycle, which neither printing nor a walk over it leaves. *)
Theorem rest_arguments_cycle : exists r st px vx pl vl,
  run_text "(define x 7)(define f (lambda (a b) b))(define r (f 1 x x))" = Some (r, st) /\
  global_value st "x" = Some (px, vx) /\ global_value st "r" = Some (pl, vl) /\
  v_tag vl = JLVALUE_LIST /\ v_value vl = VLst px /\ v_next vx = px.
Proof.
  eexists _, _, _, _, _, _. split; [vm_compute; reflexivity|].
  split; [vm_compute; reflexivity|]. split; [vm_compute; reflexivity|]. done.
Qed.

(** A rest argument that is not the last and is nil is dereferenced. *)
Example rest_arguments_nil : shown "(define f (lambda (a b) b))(f 1 2 nil 4)" = None.
Proof. vm_compute. reflexivity. Qed.

(** * Functions *)

(** [if] does not look whether it has arguments. *)
Example if_without_arguments : run_text "(if)" = None.
Proof. vm_compute. reflexivity. Qed.

(** The comparison goes by the name it was called by. *)
Example compare_renamed : shown "(define same =)(same 1 1)" = shown "nil".
Proof. vm_compute. reflexivity. Qed.

(** A nil that was put into a list is no longer nil. *)
Example nil_in_list : shown "(null? (head (list nil)))" = shown "nil" /\ shown "(null? nil)" = shown "1".
Proof. split; vm_compute; reflexivity. Qed.

(** A whole number beyond 32767 cannot be printed. *)
Example print_large : shown "32767" = Some [OInt 32767] /\ shown "32768" = None.
Proof. split; vm_compute; reflexivity. Qed.

(** * The reader *)

(** A name that begins with a minus is read with a zero in its place. *)
Example name_with_minus : shown "-foo" = Some [OError 1 (NotFound (str_of "0foo")); OText nil_text].
Proof. vm_compute. reflexivity. Qed.

(** A hexadecimal escape yields no character. *)
Example hex_escape :
  ('((r, _), st) ← ProcessBuffer 9 9 ([34; 97; 92; 120; 52; 49; 98; 34; 0], 0) 0 empty_context; v ← nodes st !! r;
   match v with NValue v => u_str (v_value v) | _ => None end) = Some (str_of "ab").
Proof. vm_compute. reflexivity. Qed.

(** A step of the loop over blanks that ends in the same place. *)
Lemma skip_comment_end fuel txt s c rest p st : at_text txt p (59 :: s ++ 0 :: c :: rest) ->
  Forall (fun c => negb (c =? 0) && negb (c =? 10) = true) s -> blank_char c = false ->
  skip_space (S (S fuel)) txt p st = Some (p + zlen s + 2, st).
Proof.
  intros Hat Hs Hc.
  assert (H : wp (skip_space (S (S fuel)) txt p) (fun q st' => q = p + zlen s + 2 /\ st' = st) st).
  { cbn [skip_space]. apply wp_bind. eapply wp_lift; [by eapply at_head|]. cbn [Z.eqb Pos.eqb]. apply wp_bind.
    eapply wp_lift; [apply (skip_spec _ txt (59 :: s) p 0 (c :: rest)); [exact Hat|by constructor|done]|].
    pose proof (at_tail _ _ _ _ (at_app txt p (59 :: s) _ Hat)) as Hat'. rewrite zlen_cons in *.
    change ((c0 ← lift (znth txt (p + (1 + zlen s) + 1));
             if c0 =? 59 then q ← lift (skip (fun c => negb (c =? 0) && negb (c =? 10)) txt (p + (1 + zlen s) + 1)); skip_space fuel txt (q + 1)
             else if c0 =? 10 then l ← gets jl_line; modify (set_jl_line (u32 (l + 1)));; skip_space fuel txt (p + (1 + zlen s) + 1 + 1)
             else if negb (c0 =? 9) && negb (c0 =? 32) && negb (c0 =? 13) then mret (p + (1 + zlen s) + 1)
             else skip_space fuel txt (p + (1 + zlen s) + 1 + 1)) : M Z)
      with (skip_space (S fuel) txt (p + (1 + zlen s) + 1)).
    eapply (wp_skip_space [] blank_nil (S fuel)); [exact Hat'|done|simpl; lia|]. rewrite zlen_nil. split; [lia|done]. }
  apply wp_run in H as (q & st' & E & -> & ->). exact E.
Qed.

(** a comment on the last line of a text has no end: the reader skips the
    terminating zero with it and reads what follows the string in memory as if it
    were the next line. *)
Theorem JLParse_comment_overrun `{JLLib} txt p s c rest st :
  at_text txt p (59 :: s ++ 0 :: c :: rest) ->
  Forall (fun c => negb (c =? 0) && negb (c =? 10) = true) s -> blank_char c = false ->
  JLParse (txt, p) st = JLParse (txt, p + zlen s + 2) st.
Proof.
  intros Hat Hs Hc. assert (Hat2 : at_text txt (p + zlen s + 2) (c :: rest)).
  { pose proof (at_tail _ _ _ _ (at_app txt p (59 :: s) _ Hat)) as H2. rewrite zlen_cons in H2.
    by replace (p + zlen s + 2) with (p + (1 + zlen s) + 1) by lia. }
  assert (Hlen : exists k, text_fuel txt = S (S k)).
  { apply at_length in Hat. simpl in Hat. unfold text_fuel. destruct (length txt); [lia|eauto]. }
  destruct Hlen as [k Hk].
  assert (H2 : skip_space (text_fuel txt) txt (p + zlen s + 2) st = Some (p + zlen s + 2, st)).
  { assert (Hw : wp (skip_space (text_fuel txt) txt (p + zlen s + 2)) (fun q st' => q = p + zlen s + 2 /\ st' = st) st).
    { eapply (wp_skip_space [] blank_nil); [exact Hat2|done|unfold text_fuel; simpl; lia|]. rewrite zlen_nil. split; [lia|done]. }
    apply wp_run in Hw as (q & st' & E & -> & ->). exact E. }
  assert (H1 : skip_space (text_fuel txt) txt p st = Some (p + zlen s + 2, st)) by (rewrite Hk; by eapply skip_comment_end).
  unfold JLParse. cbn [fst].
  assert (E : ParseExpression (text_fuel txt) (txt, p) st = ParseExpression (text_fuel txt) (txt, p + zlen s + 2) st).
  { rewrite Hk. cbn [ParseExpression fst snd]. unfold mbind, M_bind. by rewrite H1, H2. }
  unfold mbind, M_bind. by rewrite E.
Qed.

Lemma JLParse_comment_overrun_witness : exists st st' r cur,
  JLParse (str_of "1 ; x" ++ [0] ++ str_of "(+ 1 2)" ++ [0], 2) st = Some ((r, cur), st') /\
  JLParse (str_of "1 ; x" ++ [0] ++ str_of "(+ 1 2)" ++ [0], 6) st = Some ((r, cur), st').
Proof.
  assert (H : exists st st' r cur, JLParse (str_of "1 ; x" ++ [0] ++ str_of "(+ 1 2)" ++ [0], 6) st = Some ((r, cur), st')).
  { exists empty_context. eexists _, _, _. vm_compute. reflexivity. }
  destruct H as (st & st' & r & cur & E). exists st, st', r, cur. split; [|exact E]. rewrite <- E.
  apply (JLParse_comment_overrun _ 2 (str_of " x") 40 (str_of "+ 1 2)" ++ [0])); [by split|by repeat constructor|reflexivity].
Defined.

(** * The line editor *)

(** The editor between two characters. *)
Record editor_ok (s : console) : Prop := {
  ed_pos : 0 <= jl_pos s <= 126;
  ed_escape : 0 <= jl_escape s <= 2;
  ed_buffer : zlen (jl_buffer s) = BUFFER_SIZE }.

Lemma wp_console_put s c (Q : console -> JLContext -> Prop) st : editor_ok s ->
  (forall b, zlen b = BUFFER_SIZE -> Q (mk_console (jl_pos s + 1) (jl_escape s) b) st) -> wp (console_put s c) Q st.
Proof.
  intros [Hp He Hb] HQ. unfold console_put. apply wp_bind.
  assert (Hr : 0 <= jl_pos s < zlen (jl_buffer s)) by (rewrite Hb; unfold BUFFER_SIZE; lia).
  eapply wp_lift; [by apply zupd_in_range|]. apply wp_ret, HQ.
  unfold zlen in *. by rewrite length_insert.
Qed.

Lemma wp_text t (Q : unit -> JLContext -> Prop) st : Q tt (add_printed (OText t) st) -> wp (text t) Q st.
Proof. done. Qed.

Lemma wp_console_erase s (Q : console -> JLContext -> Prop) st : editor_ok s ->
  (forall p st', 0 <= p <= 126 -> nodes st' = nodes st -> Q (mk_console p (jl_escape s) (jl_buffer s)) st') ->
  wp (console_erase s) Q st.
Proof.
  intros [Hp He Hb] HQ. unfold console_erase. destruct (jl_pos s >? 0) eqn:E.
  - apply wp_bind, wp_text, wp_ret, HQ; [lia|done].
  - apply wp_ret. specialize (HQ (jl_pos s) st Hp eq_refl). by destruct s.
Qed.

(** the line editor of the console stays inside its line for every input: a
    character other than the end of the line, in any state of the escape
    sequences, is stored, erased or swallowed within the line of 128 characters and the
    buffer behind it, touches
    nothing in the interpreter's heap, and either leaves room for the next one or
    ends the session with "line too long". *)
Theorem jli_char_safe `{JLLib} fuel s c st : editor_ok s -> (jl_escape s = 0 -> c <> 13 /\ c <> 10) ->
  exists s' over st', jli_char fuel s c st = Some ((s', over), st') /\ nodes st' = nodes st /\
    editor_ok s' /\ (over = true -> jl_pos s' = 0).
Proof.
  intros Hs Hc. pose proof Hs as [Hp He Hb]. unfold BUFFER_SIZE in Hb.
  assert (Hend : forall p e b st1, 0 <= p <= 127 -> 0 <= e <= 2 -> zlen b = 200 -> nodes st1 = nodes st ->
    wp (if p =? LINE_LEN - 1 then text too_long_text;; mret (mk_console 0 e b, true) else mret (mk_console p e b, false))
      (fun r st' => nodes st' = nodes st /\ editor_ok r.1 /\ (r.2 = true -> jl_pos r.1 = 0)) st1).
  { intros p e b st1 Hp1 He1 Hb1 Hn1. unfold LINE_LEN. destruct (p =? 128 - 1) eqn:E.
    - apply wp_bind, wp_text, wp_ret. split; [done|]. split; [split; cbn; (lia || done)|done].
    - apply wp_ret. split; [done|]. split; [split; cbn; (zbool; lia || done)|done]. }
  assert (Hwp : wp (jli_char fuel s c) (fun r st' => nodes st' = nodes st /\ editor_ok r.1 /\ (r.2 = true -> jl_pos r.1 = 0)) st).
  { unfold jli_char, jli_switch. apply wp_bind. destruct (jl_escape s =? 0) eqn:E0.
    - apply Z.eqb_eq in E0. destruct (Hc E0) as [H13 H10].
      assert (Ecr : (c =? 13) || (c =? 10) = false) by (zbool; lia). rewrite Ecr.
      destruct ((c =? 127) || (c =? 8)).
      + apply wp_bind, wp_console_erase; [done|]. intros p st1 Hp1 Hn1. apply wp_ret. cbn. apply Hend; (lia || done).
      + destruct (c =? 27).
        * apply wp_ret. cbn. apply Hend; (lia || done).
        * apply wp_bind, wp_console_put; [done|]. intros b Hb1. apply wp_bind, wp_text, wp_ret. cbn. apply Hend; (lia || done).
    - destruct (jl_escape s =? 1) eqn:E1.
      + apply wp_ret. cbn. destruct (c =? 91); apply Hend; zbool; (lia || done).
      + apply wp_bind. destruct (c =? 67); [|destruct (c =? 68)].
        * apply wp_bind, wp_console_put; [done|]. intros b Hb1. apply wp_bind, wp_text, wp_ret, wp_ret. cbn. apply Hend; (lia || done).
        * apply wp_console_erase; [done|]. intros p st1 Hp1 Hn1. apply wp_ret. cbn. apply Hend; (lia || done).
        * apply wp_ret, wp_ret. cbn. apply Hend; (lia || done). }
  apply wp_run in Hwp as ([s' over] & st' & E & H1 & H2 & H3). by exists s', over, st'.
Qed.

Lemma jli_char_safe_witness : exists s' over st',
  jli_char 0 (mk_console 126 0 (repeat 0 200)) 65 empty_context = Some ((s', over), st') /\ nodes st' = ∅ /\
  editor_ok s' /\ (over = true -> jl_pos s' = 0).
Proof.
  apply jli_char_safe; [split; [vm_compute; split; discriminate..|reflexivity]|split; discriminate].
Defined.

(** "exit" leaves the static position behind its four letters and their zero:
    the next session begins there, in a buffer that was not written. *)
Example exit_keeps_position : exists s st,
  jli_loop 0 (mk_console 0 0 (repeat 0 200)) (str_of "exit" ++ [13]) empty_context = Some ((s, true), st) /\
  jl_pos s = 5.
Proof. eexists _, _. split; [vm_compute; reflexivity|reflexivity]. Qed.
