(* ===== verification/Kforth.v ===== *)
(** The kforth machine: src/pus/exp/kforth/kforth.c up to the execution of a
    word, and the primitives of src/pus/exp/kforth/dictionary_1.c.

    A word is an entry of a linked dictionary: a primitive of the table, which
    lies in constant memory, or a compiled word, whose list of items and name lie
    behind its entry in one block of the heap.  Pointers are addresses; an
    address where no entry is, an access outside an array and a signed overflow
    are [None].  What is printed is a list of outputs. *)
From Stdlib Require Import Ascii String.
From S2P Require Import Prelude CText.

(** * Data *)

(** The primitives of the table, by the functions that carry them out. *)
Inductive primitive :=
  | fn_bye | fn_reset | fn_load | fn_save | fn_print_dictionary | fn_print_dictionary_full
  | fn_print_top | fn_print_stack | fn_print_loop_stack | fn_increment | fn_mul | fn_plus_f
  | fn_plus | fn_minus | fn_get | fn_store | fn_roll | fn_pick | fn_tuck | fn_over | fn_rot
  | fn_swap | fn_drop | fn_dup | fn_max | fn_greater_than | fn_not_equal
  | fn_greater_than_equal | fn_less_than | fn_equal | fn_endif | fn_elif | fn_if | fn_cr
  | fn_while | fn_do | fn_for_i | fn_for_a | fn_loop | fn_for_loop | fn_for | fn_write | fn_read.
#[export] Instance primitive_eq_dec : EqDecision primitive.
Proof. solve_decision. Defined.

Definition END_TYPE : Z := 0x12.
Definition LITERAL_TYPE : Z := 0x13.
Definition WORD_TYPE : Z := 0x14.
Definition STR_TYPE : Z := 0x15.
Definition LABEL_TYPE : Z := 0x16.
Definition BRANCH_TYPE : Z := 0x17.
Definition RECURSIVE_TYPE : Z := 0x18.

Definition FORTH_TRUE : Z := -1.
Definition FORTH_FALSE : Z := 0.

(** An item: a type and a [void *], which may be left from a string that lay
    there; or up to sixteen bytes of a string ([sizeof(_word_list_item)]). *)
Inductive word_list_item := Item (ty : Z) (data : option Z) | Chars (s : bytes).

Definition item_type (it : word_list_item) : option Z :=
  match it with Item t _ => Some t | Chars s => head s end.
Definition item_data (it : word_list_item) : option Z :=
  match it with Item _ d => d | Chars _ => None end.
Definition set_type (t : Z) (it : word_list_item) : word_list_item := Item t (item_data it).

(** The [word_fn] of an entry: NULL, one of the functions, or a pointer to none of
    them. *)
Inductive function_pointer := NoFn | Fn (f : primitive) | WildFn.

Record word_entry := mk_entry {
  e_next : Z; e_name : bytes; e_fn : function_pointer; e_list : option (list word_list_item) }.

(** Where the entries are: the constant ones are placed by the linker, the
    others by [malloc], which is given the addresses in use and a size; and what
    the memory [malloc] returns holds in the place of [word_fn]. *)
Class KforthLib := {
  entry_address : primitive -> Z;
  platform_malloc : list Z -> Z -> Z;
  malloc_word_fn : Z -> function_pointer;
  (** The address of the local variable [ret] of [kforth_compile_word]. *)
  ret_address : Z }.

(** What is printed: a text, [%d] and a blank, a text padded on the right, [%X],
    and the lines of the listing and of the errors. *)
Inductive k_output :=
  | OText (s : bytes) | OInt (z : Z) | OPadded (width : Z) (s : bytes)
  | OHex (z : Z) | OEntry (address next : Z) (name : bytes) (fn : function_pointer)
  | OItem (ty : Z) (data : option Z) | OUnknownType (ty : Z)
  | OExecuteError (ty : Z) | OOpenQuote | OUnknownWord (s : bytes) | OCompiled (s : bytes).

(** [test_context] with the arrays it points to, the static variables of kforth.c
    and the entries of the dictionaries. *)
Record kforth_t := mk_kforth {
  k_stack : list Z; k_sp : Z; k_loop_stack : list Z; k_lsp : Z;
  k_words : gmap Z word_entry; k_dictionary : Z; k_saved_dictionary : Z;
  k_new_word_list : list word_list_item; k_exit_flag : Z; k_printed : list k_output }.

(** * The monad *)

Definition F (A : Type) : Type := kforth_t -> option (A * kforth_t).
#[export] Instance F_ret : MRet F := fun A a st => Some (a, st).
#[export] Instance F_bind : MBind F := fun A B k m st =>
  match m st with Some (a, st') => k a st' | None => None end.
Definition fundef {A} : F A := fun _ => None.
Definition flift {A} (o : option A) : F A := fun st => a ← o; Some (a, st).
Definition fgets {A} (f : kforth_t -> A) : F A := fun st => Some (f st, st).
Definition fmodify (f : kforth_t -> kforth_t) : F unit := fun st => Some (tt, f st).

Definition set_stack (s : list Z) (p : Z) (st : kforth_t) : kforth_t :=
  mk_kforth s p (k_loop_stack st) (k_lsp st) (k_words st) (k_dictionary st) (k_saved_dictionary st)
    (k_new_word_list st) (k_exit_flag st) (k_printed st).
Definition set_loop_stack (s : list Z) (p : Z) (st : kforth_t) : kforth_t :=
  mk_kforth (k_stack st) (k_sp st) s p (k_words st) (k_dictionary st) (k_saved_dictionary st)
    (k_new_word_list st) (k_exit_flag st) (k_printed st).
Definition set_words (w : gmap Z word_entry) (d : Z) (st : kforth_t) : kforth_t :=
  mk_kforth (k_stack st) (k_sp st) (k_loop_stack st) (k_lsp st) w d (k_saved_dictionary st)
    (k_new_word_list st) (k_exit_flag st) (k_printed st).
Definition set_new_word_list (l : list word_list_item) (st : kforth_t) : kforth_t :=
  mk_kforth (k_stack st) (k_sp st) (k_loop_stack st) (k_lsp st) (k_words st) (k_dictionary st)
    (k_saved_dictionary st) l (k_exit_flag st) (k_printed st).
Definition set_exit_flag (z : Z) (st : kforth_t) : kforth_t :=
  mk_kforth (k_stack st) (k_sp st) (k_loop_stack st) (k_lsp st) (k_words st) (k_dictionary st)
    (k_saved_dictionary st) (k_new_word_list st) z (k_printed st).
Definition add_output (o : list k_output) (st : kforth_t) : kforth_t :=
  mk_kforth (k_stack st) (k_sp st) (k_loop_stack st) (k_lsp st) (k_words st) (k_dictionary st)
    (k_saved_dictionary st) (k_new_word_list st) (k_exit_flag st) (k_printed st ++ o).

Definition fprint (o : k_output) : F unit := fmodify (add_output [o]).

(** An [int] result. *)
Definition int_of (z : Z) : option Z :=
  if (-2147483648 <=? z) && (z <=? 2147483647) then Some z else None.

(** * The two stacks *)

Definition stack_get (k : Z) : F Z := fun st => x ← znth (k_stack st) (k_sp st + k); Some (x, st).
Definition stack_set (k x : Z) : F unit := fun st =>
  s ← zupd (k_stack st) (k_sp st + k) x; Some (tt, set_stack s (k_sp st) st).
(** [stack_ptr += d]: a pointer into the array, or one behind it. *)
Definition stack_move (d : Z) : F unit := fun st =>
  let p := k_sp st + d in
  if (0 <=? p) && (p <=? zlen (k_stack st)) then Some (tt, set_stack (k_stack st) p st) else None.

Definition loop_get (k : Z) : F Z := fun st => x ← znth (k_loop_stack st) (k_lsp st + k); Some (x, st).
Definition loop_set (k x : Z) : F unit := fun st =>
  s ← zupd (k_loop_stack st) (k_lsp st + k) x; Some (tt, set_loop_stack s (k_lsp st) st).
Definition loop_move (d : Z) : F unit := fun st =>
  let p := k_lsp st + d in
  if (0 <=? p) && (p <=? zlen (k_loop_stack st)) then Some (tt, set_loop_stack (k_loop_stack st) p st)
  else None.

Definition push_int (item : Z) : F unit := stack_set 0 item;; stack_move 1.
Definition pop_int : F Z := stack_move (-1);; stack_get 0.
Definition loop_push (x : Z) : F unit := loop_set 0 x;; loop_move 1.

(** A number on the stack as the address of an entry: it is extended with its
    sign to 64 bits. *)
Definition pointer_of (z : Z) : Z := u64 z.
Definition get_entry (p : Z) : F word_entry := fun st => e ← k_words st !! p; Some (e, st).

(** * The primitives *)

Section primitives.
Context `{KforthLib}.

(** [context->stack_ptr[-2]=f(context->stack_ptr[-2],context->stack_ptr[-1]); context->stack_ptr--] *)
Definition binary (f : Z -> Z -> option Z) : F Z :=
  a ← stack_get (-2);
  b ← stack_get (-1);
  x ← flift (f a b);
  stack_set (-2) x;;
  stack_move (-1);;
  mret 0.

(** The comparisons. *)
Definition truth (b : bool) : option Z := Some (if b then FORTH_TRUE else FORTH_FALSE).

Definition print_numbers (l : list Z) : F unit :=
  fmodify (add_output (map OInt l));; fprint (OText [13; 10]).

(** [for(i=(-2-n); i<-2; i++) stack_ptr[i]=stack_ptr[i+1]] *)
Fixpoint roll_loop (n : nat) (i : Z) : F unit :=
  match n with
  | O => mret tt
  | S n' => x ← stack_get (i + 1); stack_set i x;; roll_loop n' (i + 1)
  end.

(** The walk along a dictionary. *)
Fixpoint entries_from (fuel : nat) (words : gmap Z word_entry) (p : Z) : option (list (Z * word_entry)) :=
  if p =? 0 then Some []
  else
    match fuel with
    | O => None
    | S fuel' => e ← words !! p; l ← entries_from fuel' words (e_next e); Some ((p, e) :: l)
    end.
Definition dictionary_entries (st : kforth_t) : option (list (Z * word_entry)) :=
  entries_from (size (k_words st)) (k_words st) (k_dictionary st).
Definition get_entries : F (list (Z * word_entry)) := fun st => l ← dictionary_entries st; Some (l, st).

(** The items up to the one of type [END_TYPE]; a list without one is left. *)
Fixpoint items_to_end (l : list word_list_item) : option (list word_list_item) :=
  match l with
  | [] => None
  | it :: l' => t ← item_type it; if t =? END_TYPE then Some [] else r ← items_to_end l'; Some (it :: r)
  end.

Definition print_item (it : word_list_item) : option k_output :=
  t ← item_type it; Some (OItem t (option_map u32 (item_data it))).

Definition print_entry (x : Z * word_entry) : option (list k_output) :=
  let '(p, e) := x in
  items ← (match e_list e with Some l => items_to_end l | None => Some [] end);
  out ← mapM print_item items;
  Some (OEntry (u32 p) (u32 (e_next e)) (e_name e) (e_fn e) :: out ++ [OText [13; 10]]).

Definition print_dictionary_full : F Z :=
  fprint (OText (str_of "Print Dictionary" ++ [13; 10]));;
  p ← fgets k_dictionary;
  fmodify (add_output [OText (str_of "dictionary at 0x"); OHex (u32 p); OText [13; 10]]);;
  fprint (OText (str_of "ADDRESS     NEXT        NAME     WORD_FN     WORD_LIST" ++ [13; 10]));;
  es ← get_entries;
  out ← flift (mapM print_entry es);
  fmodify (add_output (concat out));;
  mret 0.

(** Ten names to a line, each as wide as the longest and two blanks. *)
Fixpoint print_names (width : Z) (name_index : Z) (names : list bytes) : list k_output :=
  match names with
  | [] => []
  | s :: names' =>
      (if name_index mod 10 =? 0 then OText (s ++ [13; 10]) else OPadded width s)
        :: print_names width (name_index + 1) names'
  end.

Definition print_dictionary : F Z :=
  es ← get_entries;
  let names := map (fun x => e_name x.2) es in
  let name_length := foldl (fun l s => Z.max l (zlen s)) 0 names in
  fprint (OText (str_of "Print Dictionary" ++ [13; 10]));;
  fmodify (add_output (print_names (name_length + 2) 1 names));;
  fprint (OText [13; 10; 13; 10]);;
  mret 0.

(** The first item of a compiled word, for [store] and [get]; a primitive has none. *)
Definition first_item (e : word_entry) : option (word_list_item * list word_list_item) :=
  l ← e_list e; match l with it :: l' => Some (it, l') | [] => None end.

Definition store_first (p data : Z) : F unit :=
  e ← get_entry p;
  '(it, l) ← flift (first_item e);
  t ← flift (item_type it);
  let e := mk_entry (e_next e) (e_name e) (e_fn e) (Some (Item t (Some data) :: l)) in
  fmodify (fun st => set_words (<[p := e]> (k_words st)) (k_dictionary st) st).

(** What the functions of dictionary_1.c do.  [fn_plus_f] returns a [double]
    through a pointer to a function that returns an [int]. *)
Definition call_primitive (f : primitive) : F Z :=
  match f with
  | fn_bye => fmodify (set_exit_flag 1);; mret 0
  | fn_write =>
      x ← stack_get (-1); a ← stack_get (-2);
      fmodify (add_output [OText (str_of "Writing 0x"); OHex (u32 x); OText (str_of " to 0x"); OHex (u32 a); OText [13; 10]]);;
      stack_move (-2);; mret 0
  | fn_read =>
      a ← stack_get (-1);
      fmodify (add_output [OText (str_of "Reading From 0x"); OHex (u32 a); OText [13; 10]]);;
      stack_move (-1);; push_int 0;; mret 0
  | fn_print_top =>
      p ← fgets k_sp;
      if p =? 0 then fprint (OText (str_of "EOS" ++ [13; 10]));; mret 0
      else x ← stack_get (-1); fprint (OInt x);; stack_move (-1);; mret 0
  | fn_print_stack =>
      l ← fgets (fun st => take (Z.to_nat (k_sp st)) (k_stack st)); print_numbers l;; mret 0
  | fn_print_loop_stack =>
      l ← fgets (fun st => take (Z.to_nat (k_lsp st)) (k_loop_stack st)); print_numbers l;; mret 0
  | fn_plus => binary (fun a b => int_of (a + b))
  | fn_plus_f => fundef
  | fn_mul => binary (fun a b => int_of (a * b))
  | fn_increment => x ← stack_get (-1); y ← flift (int_of (x + 1)); stack_set (-1) y;; mret 0
  | fn_minus => binary (fun a b => int_of (a - b))
  | fn_not_equal => binary (fun a b => truth (negb (a =? b)))
  | fn_greater_than => binary (fun a b => truth (a >? b))
  | fn_less_than => binary (fun a b => truth (a <? b))
  | fn_greater_than_equal => binary (fun a b => truth (a >=? b))
  | fn_equal => binary (fun a b => truth (a =? b))
  | fn_rot =>
      x ← stack_get (-3); stack_set 0 x;;
      x ← stack_get (-2); stack_set (-3) x;;
      x ← stack_get (-1); stack_set (-2) x;;
      x ← stack_get 0; stack_set (-1) x;; mret 0
  | fn_over => x ← stack_get (-2); stack_set 0 x;; stack_move 1;; mret 0
  | fn_tuck =>
      x ← stack_get (-1); stack_set 0 x;;
      x ← stack_get (-2); stack_set (-1) x;;
      x ← stack_get 0; stack_set (-2) x;;
      stack_move 1;; mret 0
  | fn_max =>
      x ← stack_get (-1); y ← stack_get (-2);
      (if x >? y then stack_set (-2) x else mret tt);;
      stack_move (-1);; mret 0
  | fn_dup => x ← stack_get (-1); stack_set 0 x;; stack_move 1;; mret 0
  | fn_drop => p ← fgets k_sp; (if p =? 0 then mret tt else stack_move (-1));; mret 0
  | fn_swap =>
      x ← stack_get (-2); stack_set 0 x;;
      x ← stack_get (-1); stack_set (-2) x;;
      x ← stack_get 0; stack_set (-1) x;; mret 0
  | fn_pick => n ← stack_get (-1); x ← stack_get (-2 - n); stack_set (-1) x;; mret 0
  | fn_roll =>
      n ← stack_get (-1);
      x ← stack_get (-2 - n); stack_set 0 x;;
      roll_loop (Z.to_nat n) (-2 - n);;
      x ← stack_get 0; stack_set (-2) x;;
      stack_move (-1);; mret 0
  | fn_for_i => x ← loop_get (-2); push_int x;; mret 0
  | fn_do =>
      x ← stack_get (-1); loop_push x;;
      x ← stack_get (-2); loop_push x;;
      stack_move (-2);; mret 0
  | fn_loop =>
      loop_move (-1);;
      i ← loop_get (-2);
      i ← flift (int_of (i + 1));
      loop_set (-2) i;;
      limit ← loop_get (-1);
      if i >=? limit then loop_move (-3);; mret 0
      else l1 ← loop_get (-3); l2 ← loop_get 0; flift (int_of (l1 - l2))
  | fn_for =>
      x ← pop_int; loop_push x;; x ← pop_int; loop_push x;; x ← pop_int; loop_push x;; mret 0
  | fn_for_loop =>
      loop_move (-1);;
      a ← loop_get (-1); b ← loop_get (-2); c ← loop_get (-3);
      s ← flift (int_of (a + c));
      if ((a <=? b) && (s >=? b)) || ((a >=? b) && (s <=? b)) then loop_move (-4);; mret 0
      else
        loop_set (-1) s;;
        l1 ← loop_get (-4); l2 ← loop_get 0; flift (int_of (l1 - l2))
  | fn_for_a => x ← loop_get (-1); push_int x;; mret 0
  | fn_while =>
      loop_move (-1);;
      x ← pop_int;
      if x =? FORTH_TRUE then l1 ← loop_get (-1); l2 ← loop_get 0; flift (int_of (l1 - l2))
      else loop_move (-1);; mret 0
  | fn_elif => pop_int
  | fn_if =>
      stack_move (-2);;
      c ← stack_get 0;
      if c =? FORTH_TRUE then mret 0 else stack_get 1
  | fn_endif | fn_save | fn_load | fn_reset => mret 0
  | fn_print_dictionary_full => print_dictionary_full
  | fn_print_dictionary => print_dictionary
  | fn_cr => fprint (OText [13; 10]);; mret 0
  | fn_store =>
      p ← stack_get (-2);
      x ← stack_get (-1);
      store_first (pointer_of p) (u64 x);;
      stack_move (-2);; mret 0
  | fn_get =>
      p ← stack_get (-1);
      e ← get_entry (pointer_of p);
      '(it, _) ← flift (first_item e);
      d ← flift (item_data it);
      stack_set (-1) (s32 d);; mret 0
  end.

(** The table, from [dictionary_1] along [next]. *)
Definition dictionary_1 : list (bytes * primitive) :=
  map (fun x => (str_of x.1, x.2)) ([
   ("bye", fn_bye); ("reset", fn_reset); ("load", fn_load); ("save", fn_save);
   ("?", fn_print_dictionary); ("??", fn_print_dictionary_full);
   (".", fn_print_top); (".s", fn_print_stack); (".sl", fn_print_loop_stack);
   ("1+", fn_increment); ("*", fn_mul); ("f+", fn_plus_f); ("+", fn_plus); ("-", fn_minus);
   ("get", fn_get); ("store", fn_store);
   ("roll", fn_roll); ("pick", fn_pick); ("tuck", fn_tuck); ("over", fn_over); ("rot", fn_rot);
   ("swap", fn_swap); ("drop", fn_drop); ("dup", fn_dup); ("max", fn_max);
   (">", fn_greater_than); ("!=", fn_not_equal); (">=", fn_greater_than_equal);
   ("<", fn_less_than); ("=", fn_equal); ("endif", fn_endif); ("elif", fn_elif); ("if", fn_if);
   ("cr", fn_cr); ("while", fn_while); ("do", fn_do); ("I", fn_for_i); ("A", fn_for_a);
   ("loop", fn_loop); ("forloop", fn_for_loop); ("for", fn_for); ("write", fn_write); ("read", fn_read)]%string).

Fixpoint const_entries (l : list (bytes * primitive)) : gmap Z word_entry :=
  match l with
  | [] => ∅
  | (x, f) :: l' =>
      let next := match l' with (_, f') :: _ => entry_address f' | [] => 0 end in
      <[entry_address f := mk_entry next x (Fn f) None]> (const_entries l')
  end.

(** [kforth_init_context]: the pointers are set; what was compiled before stays in
    the heap. *)
Definition kforth_init_context (st : kforth_t) : kforth_t :=
  mk_kforth (k_stack st) 0 (k_loop_stack st) 0 (k_words st) (entry_address fn_bye) (entry_address fn_bye)
    (k_new_word_list st) (k_exit_flag st) (k_printed st).

(** Before the first use: [int test_stack[1000]], [int test_loop_stack[100]] and
    [new_word_list[MAX_COMPILE_WORDS]] are zero. *)
Definition MAX_COMPILE_WORDS : Z := 100.
Definition kforth_static : kforth_t :=
  mk_kforth (repeat 0 1000) 0 (repeat 0 100) 0 (const_entries dictionary_1) 0 0
    (repeat (Item 0 (Some 0)) (Z.to_nat MAX_COMPILE_WORDS)) 0 [].

End primitives.

(** * Execution *)

(** The word that is executed: [temp_word], whose list is [new_word_list], or an
    entry of a dictionary. *)
Inductive word_ref := Temp | Entry (p : Z).

Definition word_fn (w : word_ref) : F function_pointer :=
  match w with Temp => mret NoFn | Entry p => e ← get_entry p; mret (e_fn e) end.
Definition word_code (st : kforth_t) (w : word_ref) : option (list word_list_item) :=
  match w with Temp => Some (k_new_word_list st) | Entry p => e ← k_words st !! p; e_list e end.
Definition get_item (w : word_ref) (i : Z) : F word_list_item := fun st =>
  l ← word_code st w; it ← znth l i; Some (it, st).

(** The string from an item on, up to its zero. *)
Fixpoint until_nul (s : bytes) : option bytes :=
  match s with [] => None | c :: s' => if c =? 0 then Some [] else r ← until_nul s'; Some (c :: r) end.
Fixpoint read_chars (l : list word_list_item) : option bytes :=
  match l with
  | Chars s :: l' => match until_nul s with Some r => Some r | None => r ← read_chars l'; Some (s ++ r) end
  | _ => None
  end.

(** The items a string of this length takes with its zero. *)
Definition string_items (len : Z) : Z :=
  let n := (len + 1) / 16 in if (len + 1) mod 16 =? 0 then n else n + 1.

Definition kforth_print_str (w : word_ref) (i : Z) : F Z := fun st =>
  l ← word_code st w;
  if i <? 0 then None
  else s ← read_chars (drop (Z.to_nat i) l); Some (string_items (zlen s), add_output [OText s] st).

Section execute.
Context `{KforthLib}.

Section loop.
Variable execute_word : word_ref -> F Z.

(** The loop over the items of a compiled word, from item [i] on. *)
Fixpoint word_loop (n : nat) (w : word_ref) (i : Z) : F Z :=
  match n with
  | O => fundef
  | S n' =>
      exit_flag ← fgets k_exit_flag;
      if negb (exit_flag =? 0) then mret 0
      else
        it ← get_item w i;
        ty ← flift (item_type it);
        if ty =? END_TYPE then mret 0
        else if ty =? LITERAL_TYPE then
          d ← flift (item_data it); push_int (s32 d);; word_loop n' w (i + 1)
        else if ty =? WORD_TYPE then
          d ← flift (item_data it); r ← execute_word (Entry d); word_loop n' w (i + r + 1)
        else if ty =? STR_TYPE then
          r ← kforth_print_str w (i + 1); word_loop n' w (i + r + 1)
        else if ty =? LABEL_TYPE then
          loop_set 0 i;; loop_move 1;; word_loop n' w (i + 1)
        else if ty =? BRANCH_TYPE then
          d ← flift (item_data it); push_int (s32 d);; word_loop n' w (i + 1)
        else if ty =? RECURSIVE_TYPE then
          r ← execute_word w; word_loop n' w (i + r + 1)
        else fprint (OExecuteError ty);; mret (-3)
  end.
End loop.

(** A word need not end: [fuel] bounds the depth of the calls, and the number of
    items each of them executes. *)
Fixpoint execute_word (fuel : nat) (w : word_ref) : F Z :=
  match fuel with
  | O => fundef
  | S fuel' =>
      fn ← word_fn w;
      match fn with
      | Fn f => call_primitive f
      | WildFn => fundef
      | NoFn => word_loop (execute_word fuel') fuel' w 0
      end
  end.
End execute.

(** * The dictionary *)

Definition find_name (name : bytes) (l : list (Z * word_entry)) : option (Z * word_entry) :=
  head (filter (fun x => e_name x.2 = name) l).

(** [get_word_by_name] and the search of [kforth_execute_word] and [kforth_see]:
    the address of the first entry of that name, or NULL. *)
Definition get_word_by_name (name : bytes) : F Z :=
  es ← get_entries;
  mret (match find_name name es with Some (p, _) => p | None => 0 end).

Definition word_not_found : bytes := str_of "<<ERRROR WORD NOT FOUND>> ".
Definition get_name_by_word (es : list (Z * word_entry)) (p : Z) : bytes :=
  match head (filter (fun x => x.1 = p) es) with Some (_, e) => e_name e | None => word_not_found end.

(** [kforth_execute_word] (not called by the program). *)
Definition kforth_execute_word `{KforthLib} (fuel : nat) (word : bytes) : F Z :=
  p ← get_word_by_name word;
  if p =? 0 then mret (-3) else execute_word fuel (Entry p).

(** The listing of a compiled word. *)
Fixpoint see_loop (n : nat) (es : list (Z * word_entry)) (name : bytes) (w : word_ref) (i : Z) : F unit :=
  match n with
  | O => fundef
  | S n' =>
      it ← get_item w i;
      ty ← flift (item_type it);
      if ty =? END_TYPE then mret tt
      else if ty =? LITERAL_TYPE then
        d ← flift (item_data it); fprint (OInt (s32 d));; see_loop n' es name w (i + 1)
      else if ty =? WORD_TYPE then
        d ← flift (item_data it); fprint (OText (get_name_by_word es d ++ [32]));; see_loop n' es name w (i + 1)
      else if ty =? STR_TYPE then
        fprint (OText [34]);; r ← kforth_print_str w (i + 1); fprint (OText [34; 32]);;
        see_loop n' es name w (i + r + 1)
      else if (ty =? LABEL_TYPE) || (ty =? BRANCH_TYPE) then see_loop n' es name w (i + 1)
      else if ty =? RECURSIVE_TYPE then fprint (OText (name ++ [32]));; see_loop n' es name w (i + 1)
      else fprint (OUnknownType ty);; see_loop n' es name w (i + 1)
  end.

Definition kforth_see (word : bytes) : F unit :=
  es ← get_entries;
  (match find_name word es with
   | None => mret tt
   | Some (p, e) =>
       match e_fn e, e_list e with
       | NoFn, Some l => see_loop (S (length l)) es (e_name e) (Entry p) 0
       | NoFn, None => fprint (OText (str_of "EMPTY WORD!" ++ [13; 10]))
       | _, _ => fprint (OText (str_of "PRIMITIVE" ++ [13; 10]))
       end
   end);;
  fprint (OText [13; 10]).

(** The compiled words, from the newest to the first primitive, go back to the heap. *)
Fixpoint reset_loop (fuel : nat) (words : gmap Z word_entry) (p : Z) : option (gmap Z word_entry) :=
  if p =? 0 then Some words
  else
    e ← words !! p;
    match e_fn e with
    | Fn _ | WildFn => Some words
    | NoFn => match fuel with O => None | S fuel' => reset_loop fuel' (delete p words) (e_next e) end
    end.

Definition kforth_reset : F unit := fun st =>
  words ← reset_loop (size (k_words st)) (k_words st) (k_dictionary st);
  Some (tt, set_words words (k_saved_dictionary st) st).
