(* ===== verification/KforthCompile.v ===== *)
(** The kforth compiler and its console: tokens, [kforth_compile_word],
    [store_word] and [kforth_execute_statement] of src/pus/exp/kforth/kforth.c, and
    the line editor of src/pus/exp/kforth/main.c.

    A statement is a buffer and a position; the tokens are cut out of it by zeros. *)
From Stdlib Require Import Ascii String.
From S2P Require Import Prelude CText Kforth.

(** * Tokens *)

(** The closing quote, or the zero: a quote behind a backslash is none. *)
Fixpoint quote_loop (fuel : nat) (txt : bytes) (p : Z) : option Z :=
  match fuel with
  | O => None
  | S fuel' =>
      c ← znth txt p;
      if c =? 0 then Some p
      else
        b ← (if c =? 34 then d ← znth txt (p - 1); Some (negb (d =? 92)) else Some false);
        if (b : bool) then Some p else quote_loop fuel' txt (p + 1)
  end.

(** [get_token]: the token or NULL, the buffer and the static [p2]. *)
Definition get_token (txt : bytes) (p2 : Z) : F (option Z * bytes * Z) :=
  let p1 := p2 in
  c ← flift (znth txt p1);
  if c =? 0 then mret (None, txt, p2)
  else if c =? 34 then
    p2 ← flift (quote_loop (text_fuel txt) txt (p1 + 1));
    c ← flift (znth txt p2);
    if c =? 0 then fprint OOpenQuote;; mret (None, txt, p2)
    else
      txt ← flift (zupd txt p2 0);
      c ← flift (znth txt (p2 + 1));
      if c =? 0 then mret (Some p1, txt, p2 + 1)
      else txt ← flift (zupd txt (p2 + 1) 0); mret (Some p1, txt, p2 + 2)
  else
    p2 ← flift (skip (fun c => negb (c =? 0) && negb (c =? 32)) txt p2);
    c ← flift (znth txt p2);
    if c =? 32 then txt ← flift (zupd txt p2 0); mret (Some p1, txt, p2 + 1)
    else mret (Some p1, txt, p2).

Definition is_digit (c : Z) : bool := negb ((c <? 48) || (c >? 57)).
(** The token behind the sign. *)
Definition unsigned_part (token : bytes) : bytes :=
  match token with c :: s => if c =? 45 then s else token | [] => [] end.
Definition is_int (token : bytes) : bool := forallb is_digit (unsigned_part token).
Definition is_float (token : bytes) : bool := existsb (Z.eqb 46) (unsigned_part token).
Definition is_str (token : bytes) : bool := match token with c :: _ => c =? 34 | [] => false end.

(** [atoi] of a token that [is_int] takes. *)
Definition decimal_value (s : bytes) : Z := foldl (fun a c => a * 10 + (c - 48)) 0 s.
Definition atoi (token : bytes) : option Z :=
  int_of (match token with
          | c :: s => if c =? 45 then - decimal_value s else decimal_value token
          | [] => 0
          end).

(** * The compiler *)

(** Stores to [new_word_list]. *)
Definition put_item (i : Z) (f : word_list_item -> word_list_item) : F unit := fun st =>
  it ← znth (k_new_word_list st) i;
  l ← zupd (k_new_word_list st) i (f it);
  Some (tt, set_new_word_list l st).
Definition new_item (i ty : Z) (data : Z) : F unit := put_item i (fun _ => Item ty (Some data)).
(** The type stays; an item with bytes of a string has one of them in its place. *)
Definition set_data (d : Z) (it : word_list_item) : word_list_item := Item (default 0 (item_type it)) (Some d).
Definition put_data (i d : Z) : F unit := put_item i (set_data d).

(** [strcpy] to the items from [i] on, sixteen bytes to each. *)
Fixpoint put_chars (fuel : nat) (i : Z) (s : bytes) : F unit :=
  match fuel with
  | O => mret tt
  | S fuel' =>
      match s with
      | [] => mret tt
      | _ => put_item i (fun _ => Chars (take 16 s));; put_chars fuel' (i + 1) (drop 16 s)
      end
  end.

Section compile.
Context `{KforthLib}.

Definition label_names : list bytes :=
  map str_of ["for"; "forloop"; "loop"; "do"; "while"]%string.

(** The items put in front of the words that loop and branch. *)
Definition compile_prefix (token : bytes) (i : Z) : F Z :=
  if bool_decide (token ∈ label_names) then put_item i (set_type LABEL_TYPE);; mret (i + 1)
  else if bool_decide (token = str_of "if") then
    new_item i BRANCH_TYPE 0;; push_int i;; mret (i + 1)
  else if bool_decide (token = str_of "elif") then
    temp ← pop_int;
    put_data (u32 temp) (u32 (i - u32 temp));;
    new_item i BRANCH_TYPE 0;; push_int i;; mret (i + 1)
  else if bool_decide (token = str_of "endif") then
    temp ← pop_int;
    put_data (u32 temp) (u32 (i - u32 temp - 2));; mret i
  else mret i.

(** One token: the buffer, [p2] and the index after it. *)
Definition compile_token (name : bytes) (txt : bytes) (p1 p2 i : Z) : F (bytes * Z * Z) :=
  token ← flift (c_string txt p1);
  i ← compile_prefix token i;
  if bool_decide (token = name) then put_item i (set_type RECURSIVE_TYPE);; mret (txt, p2, i + 1)
  else if bool_decide (token = str_of "&") then
    '(t, txt, p2) ← get_token txt p2;
    p ← flift t;
    word ← flift (c_string txt p);
    data ← get_word_by_name word;
    new_item i LITERAL_TYPE data;; mret (txt, p2, i + 1)
  else if bool_decide (token = str_of ";") then mret (txt, p2, i)
  else
    data ← get_word_by_name token;
    if negb (data =? 0) then new_item i WORD_TYPE data;; mret (txt, p2, i + 1)
    else
      (** [data] is NULL until one of the cases stores to it. *)
      put_data i 0;;
      if is_int token then
        n ← flift (atoi token); new_item i LITERAL_TYPE (u64 n);; mret (txt, p2, i + 1)
      else if is_float token then
        new_item i LITERAL_TYPE ret_address;; mret (txt, p2, i + 1)
      else if is_str token then
        new_item i STR_TYPE 0;;
        let s := drop 1 token ++ [0] in
        put_chars (length s) (i + 1) s;; mret (txt, p2, i + 1 + string_items (zlen s - 1))
      else fprint (OUnknownWord token);; mret (txt, p2, i).

(** The loop over the tokens. *)
Fixpoint compile_loop (n : nat) (name : bytes) (token : option Z) (txt : bytes) (p2 i : Z) : F (bytes * Z) :=
  match token with
  | None => mret (txt, i)
  | Some p1 =>
      match n with
      | O => fundef
      | S n' =>
          '(txt, p2, i) ← compile_token name txt p1 p2 i;
          '(token, txt, p2) ← get_token txt p2;
          compile_loop n' name token txt p2 i
      end
  end.

(** [kforth_compile_word]: the buffer and [*word_list_index]. *)
Definition kforth_compile_word (name : bytes) (txt : bytes) (statement : Z) : F (bytes * Z) :=
  '(token, txt, p2) ← get_token txt statement;
  '(txt, i) ← compile_loop (text_fuel txt) name token txt p2 0;
  put_item i (set_type END_TYPE);;
  mret (txt, i + 1).

(** * The dictionary *)

(** References to the old word become references to the new one, up to the end
    of the list. *)
Fixpoint update_items (old new : Z) (l : list word_list_item) : option (list word_list_item) :=
  match l with
  | [] => None
  | it :: l' =>
      t ← item_type it;
      if t =? END_TYPE then Some l
      else
        it' ← (if t =? WORD_TYPE then d ← item_data it; Some (if d =? old then Item t (Some new) else it)
               else Some it);
        r ← update_items old new l';
        Some (it' :: r)
  end.
Definition update_entry (old new : Z) (e : word_entry) : option word_entry :=
  match e_fn e, e_list e with
  | NoFn, Some l => l ← update_items old new l; Some (mk_entry (e_next e) (e_name e) (e_fn e) (Some l))
  | NoFn, None => None
  | _, _ => Some e
  end.
Fixpoint update_references (old new : Z) (es : list (Z * word_entry)) (words : gmap Z word_entry)
    : option (gmap Z word_entry) :=
  match es with
  | [] => Some words
  | (p, e) :: es' => e ← update_entry old new e; update_references old new es' (<[p := e]> words)
  end.

(** The entry before the old one is linked to the one after it. *)
Fixpoint unlink_loop (es : list (Z * word_entry)) (old next : Z) (words : gmap Z word_entry)
    : option (gmap Z word_entry) :=
  match es with
  | [] => Some words
  | (p, e) :: es' =>
      if e_next e =? old then
        e ← words !! p; Some (<[p := mk_entry next (e_name e) (e_fn e) (e_list e)]> words)
      else unlink_loop es' old next words
  end.
Definition unlink (es : list (Z * word_entry)) (dictionary old next : Z) (words : gmap Z word_entry)
    : option (gmap Z word_entry * Z) :=
  if dictionary =? old then Some (words, next)
  else words ← unlink_loop es old next words; Some (words, dictionary).

Definition set_dictionary (x : gmap Z word_entry * Z) : F unit := fmodify (set_words x.1 x.2).

(** [sizeof(_word_entry_ram)], the items and the name. *)
Definition word_size (len : Z) (name : bytes) : Z := 32 + 16 * len + (zlen name + 1).

(** [store_word]: nothing is stored to [new_word->word_fn]. *)
Definition store_word (name : bytes) (len : Z) : F unit :=
  live ← fgets (fun st => (map_to_list (k_words st)).*1);
  let new := platform_malloc live (word_size len name) in
  old ← get_word_by_name name;
  (if old =? 0 then mret tt
   else
     es ← get_entries;
     words ← fgets k_words;
     words ← flift (update_references old new es words);
     dictionary ← fgets k_dictionary;
     set_dictionary (words, dictionary);;
     e ← get_entry old;
     match e_fn e with
     | NoFn =>
         es ← get_entries;
         x ← flift (unlink es dictionary old (e_next e) words);
         set_dictionary x;;
         fmodify (fun st => set_words (delete old (k_words st)) (k_dictionary st) st)
     | _ => mret tt
     end);;
  if new =? 0 then fundef
  else
    code ← fgets (fun st => take (Z.to_nat len) (k_new_word_list st));
    fmodify (fun st =>
      set_words (<[new := mk_entry (k_dictionary st) name (malloc_word_fn new) (Some code)]> (k_words st)) new st).

(** * Statements *)

(** Does the text at [p] begin with these characters? ([strncmp]) *)
Fixpoint begins_with (txt : bytes) (p : Z) (w : bytes) : option bool :=
  match w with
  | [] => Some true
  | l :: w' => c ← znth txt p; if c =? l then begins_with txt (p + 1) w' else Some false
  end.

(** [kforth_execute_statement], for the statement at the start of the buffer: the
    result and the buffer, cut into tokens. *)
Definition kforth_execute_statement (fuel : nat) (txt : bytes) : F (Z * bytes) :=
  define ← flift (begins_with txt 0 (str_of ": "));
  if (define : bool) then
    '(_, txt, p2) ← get_token txt 0;
    '(token, txt, _) ← get_token txt p2;
    p1 ← flift token;
    name ← flift (c_string txt p1);
    '(txt, len) ← kforth_compile_word name txt (p1 + zlen name + 1);
    store_word name len;;
    fprint (OCompiled name);;
    mret (0, txt)
  else
    see ← flift (begins_with txt 0 (str_of "see "));
    if (see : bool) then word ← flift (c_string txt 4); kforth_see word;; mret (0, txt)
    else
      reset ← flift (begins_with txt 0 (str_of "reset"));
      if (reset : bool) then kforth_reset;; exit_flag ← fgets k_exit_flag; mret (exit_flag, txt)
      else
        '(txt, _) ← kforth_compile_word [] txt 0;
        execute_word fuel Temp;;
        exit_flag ← fgets k_exit_flag; mret (exit_flag, txt).

(** * The console (main.c) *)

Definition LINE_LEN : Z := 64.
Definition ok_text : bytes := str_of "ok" ++ [13; 10].
Definition erase_text : bytes := [8; 32; 8].
Definition too_long_text : bytes := [10] ++ str_of "error: line too long" ++ [10].

(** [process_buffer]: [true] when the command is to be left, and the buffer as it
    leaves it.  The reset of [pos] is in [kforth_char]. *)
Definition process_buffer (fuel : nat) (buffer : bytes) : F (bool * bytes) :=
  '(ret, buffer) ← kforth_execute_statement fuel buffer;
  if negb (ret =? 0) then mret (true, buffer) else fprint (OText ok_text);; mret (false, buffer).

(** The static [pos] and the locals of [kforth]. *)
Record console := mk_console { kc_pos : Z; kc_escape : Z; kc_buffer : bytes }.

Definition console_put (s : console) (c : Z) : F console :=
  b ← flift (zupd (kc_buffer s) (kc_pos s) (u8 c)); mret (mk_console (kc_pos s + 1) (kc_escape s) b).
Definition console_erase (s : console) : F console :=
  if kc_pos s >? 0 then
    fprint (OText erase_text);; mret (mk_console (kc_pos s - 1) (kc_escape s) (kc_buffer s))
  else mret s.
Definition console_escape (l : Z) (s : console) : console := mk_console (kc_pos s) l (kc_buffer s).

(** One character, as in the other consoles: after a line the code falls through
    to the case of the backspace. *)
Definition kforth_switch (fuel : nat) (s : console) (c : Z) : F (console * bool) :=
  if kc_escape s =? 0 then
    if (c =? 13) || (c =? 10) then
      s ← console_put s 0;
      fprint (OText [10]);;
      '(over, b) ← process_buffer fuel (kc_buffer s);
      if (over : bool) then mret (mk_console (kc_pos s) (kc_escape s) b, true)
      else s ← console_erase (mk_console 0 (kc_escape s) b); mret (s, false)
    else if (c =? 127) || (c =? 8) then s ← console_erase s; mret (s, false)
    else if c =? 27 then mret (console_escape (kc_escape s + 1) s, false)
    else s ← console_put s c; fprint (OText [c]);; mret (s, false)
  else if kc_escape s =? 1 then
    mret (console_escape (if c =? 91 then kc_escape s + 1 else 0) s, false)
  else
    s ← (if c =? 67 then s ← console_put s 32; fprint (OText [32]);; mret s
         else if c =? 68 then console_erase s
         else mret s);
    mret (console_escape 0 s, false).

Definition kforth_char (fuel : nat) (s : console) (c : Z) : F (console * bool) :=
  '(s, over) ← kforth_switch fuel s c;
  if (over : bool) then mret (s, true)
  else if kc_pos s =? LINE_LEN - 1 then
    fprint (OText too_long_text);; mret (mk_console 0 (kc_escape s) (kc_buffer s), true)
  else mret (s, false).

(** The loop over the characters [getchar] returns, until it is left. *)
Fixpoint kforth_loop (fuel : nat) (s : console) (cs : list Z) : F (console * bool) :=
  match cs with
  | [] => mret (s, false)
  | c :: cs' =>
      '(s, over) ← kforth_char fuel s c;
      if (over : bool) then mret (s, true) else kforth_loop fuel s cs'
  end.

Definition greeting : list k_output :=
  [OText (str_of "kforth v0.1" ++ [13; 10]); OText (str_of "type 'bye' to exit" ++ [13; 10])].

(** The command: a session from the static [pos] on, with [b] in the uninitialised
    buffer. *)
Definition kforth (fuel : nat) (pos : Z) (b : bytes) (cs : list Z) : F (console * bool) :=
  fmodify (add_output greeting);;
  fmodify kforth_init_context;;
  kforth_loop fuel (mk_console pos 0 b) cs.

End compile.
