(* ===== verification/KforthRef.v ===== *)
(** A reference semantics for kforth: structured programs in place of token lists
    with branches, lists in place of the arrays, and words that are looked up by
    name when they run.  What the code leaves undefined, and the words that depend
    on addresses, are [None]; [while] has no meaning, no word opens its loop. *)
From Stdlib Require Import Ascii String.
From S2P Require Import Prelude CText Kforth KforthCompile.

(** * Programs *)

#[local] Unset Elimination Schemes.
Inductive com :=
  | CNum (t : bytes) | CWord (x : bytes) | CStr (s : bytes) | CRec
  | CIf (yes no : list com) | CWhen (yes : list com)
  | CDo (body : list com) | CFor (body : list com).
#[local] Set Elimination Schemes.

Section com_ind.
Variable P : com -> Prop.
Hypothesis P_num : forall t, P (CNum t).
Hypothesis P_word : forall x, P (CWord x).
Hypothesis P_str : forall s, P (CStr s).
Hypothesis P_rec : P CRec.
Hypothesis P_if : forall yes no, Forall P yes -> Forall P no -> P (CIf yes no).
Hypothesis P_when : forall yes, Forall P yes -> P (CWhen yes).
Hypothesis P_do : forall body, Forall P body -> P (CDo body).
Hypothesis P_for : forall body, Forall P body -> P (CFor body).

Fixpoint com_ind (c : com) : P c :=
  let all := fix all cs : Forall P cs :=
    match cs with [] => Forall_nil_2 P | c :: cs => Forall_cons_2 P c cs (com_ind c) (all cs) end in
  match c with
  | CNum t => P_num t | CWord x => P_word x | CStr s => P_str s | CRec => P_rec
  | CIf yes no => P_if yes no (all yes) (all no)
  | CWhen yes => P_when yes (all yes)
  | CDo body => P_do body (all body)
  | CFor body => P_for body (all body)
  end.
End com_ind.

(** * Primitives *)

(** An open loop: its index and limit, or step, bound and index. *)
Inductive frame := DoFrame (i limit : Z) | ForFrame (c b a : Z).

Definition crlf : k_output := OText [13; 10].
Definition truth_value (b : bool) : Z := if b then FORTH_TRUE else FORTH_FALSE.

(** What a primitive does to the stack, top first, and what it prints. *)
Definition prim_sem (f : primitive) (frs : list frame) (s : list Z) : option (list Z * list k_output) :=
  match f, s with
  | fn_plus, b :: a :: s => x ← int_of (a + b); Some (x :: s, [])
  | fn_minus, b :: a :: s => x ← int_of (a - b); Some (x :: s, [])
  | fn_mul, b :: a :: s => x ← int_of (a * b); Some (x :: s, [])
  | fn_increment, a :: s => x ← int_of (a + 1); Some (x :: s, [])
  | fn_equal, b :: a :: s => Some (truth_value (a =? b) :: s, [])
  | fn_not_equal, b :: a :: s => Some (truth_value (negb (a =? b)) :: s, [])
  | fn_less_than, b :: a :: s => Some (truth_value (a <? b) :: s, [])
  | fn_greater_than, b :: a :: s => Some (truth_value (a >? b) :: s, [])
  | fn_greater_than_equal, b :: a :: s => Some (truth_value (a >=? b) :: s, [])
  | fn_max, b :: a :: s => Some (Z.max a b :: s, [])
  | fn_dup, a :: s => Some (a :: a :: s, [])
  | fn_drop, s => Some (tl s, [])
  | fn_swap, b :: a :: s => Some (a :: b :: s, [])
  | fn_over, b :: a :: s => Some (a :: b :: a :: s, [])
  | fn_rot, c :: b :: a :: s => Some (a :: c :: b :: s, [])
  | fn_tuck, b :: a :: s => Some (b :: a :: b :: s, [])
  | fn_pick, n :: s => if n <? 0 then None else x ← s !! Z.to_nat n; Some (x :: s, [])
  | fn_roll, n :: s =>
      if n <? 0 then None else x ← s !! Z.to_nat n; Some (x :: delete (Z.to_nat n) s, [])
  | fn_for_i, s =>
      match frs with
      | DoFrame i _ :: _ => Some (i :: s, [])
      | ForFrame _ b _ :: _ => Some (b :: s, [])
      | [] => None
      end
  | fn_for_a, s =>
      match frs with
      | DoFrame _ limit :: _ => Some (limit :: s, [])
      | ForFrame _ _ a :: _ => Some (a :: s, [])
      | [] => None
      end
  | fn_print_top, [] => Some ([], [OText (str_of "EOS" ++ [13; 10])])
  | fn_print_top, a :: s => Some (s, [OInt a])
  | fn_print_stack, s => Some (s, map OInt (reverse s) ++ [crlf])
  | fn_cr, s => Some (s, [crlf])
  | fn_write, x :: a :: s =>
      Some (s, [OText (str_of "Writing 0x"); OHex (u32 x); OText (str_of " to 0x"); OHex (u32 a); crlf])
  | fn_read, a :: s => Some (0 :: s, [OText (str_of "Reading From 0x"); OHex (u32 a); crlf])
  | (fn_save | fn_load | fn_reset), s => Some (s, [])
  | _, _ => None
  end.

(** * Programs at work *)

(** The stack, and what was printed. *)
Definition rstate : Type := list Z * list k_output.

(** The arrays hold 1000 and 100 numbers; some room is left for the code's own. *)
Definition room (frs : list frame) (st : rstate) : bool := (length st.1 <=? 998)%nat && (length frs <=? 23)%nat.

Section loops.
Variable body : list frame -> rstate -> option rstate.
Variable frs : list frame.

(** The body runs at least once. *)
Fixpoint do_loop (n : nat) (i limit : Z) (st : rstate) : option rstate :=
  match n with
  | O => None
  | S n' =>
      st ← body (DoFrame i limit :: frs) st;
      j ← int_of (i + 1);
      if j >=? limit then Some st else do_loop n' j limit st
  end.

(** The loop ends when the next step would reach or pass the bound. *)
Fixpoint for_loop (n : nat) (c b a : Z) (st : rstate) : option rstate :=
  match n with
  | O => None
  | S n' =>
      st ← body (ForFrame c b a :: frs) st;
      x ← int_of (a + c);
      if ((a <=? b) && (x >=? b)) || ((a >=? b) && (x <=? b)) then Some st else for_loop n' c b x st
  end.
End loops.

Definition find_prim (x : bytes) : option primitive :=
  snd <$> head (filter (fun y => y.1 = x) dictionary_1).

Definition find_def (x : bytes) (D : list (bytes * list com)) : option (list com) :=
  snd <$> head (filter (fun y => y.1 = x) D).

Definition no_zero (s : bytes) : bool := forallb (fun c => negb (c =? 0)) s.

(** [self] is the word that runs, for its recursive calls. *)
Fixpoint rexec (n : nat) (D : list (bytes * list com)) (self : option (list com)) (frs : list frame)
    (cs : list com) (st : rstate) : option rstate :=
  match n with
  | O => None
  | S n' =>
      if negb (room frs st) then None
      else
        match cs with
        | [] => Some st
        | c :: cs' =>
            st ←
              (match c with
               | CNum t => x ← atoi t; Some (x :: st.1, st.2)
               | CStr s => if no_zero s then Some (st.1, st.2 ++ [OText s]) else None
               | CWord x =>
                   match find_def x D with
                   | Some body => rexec n' D (Some body) frs body st
                   | None => f ← find_prim x; '(s, out) ← prim_sem f frs st.1; Some (s, st.2 ++ out)
                   end
               | CRec => body ← self; rexec n' D self frs body st
               | CIf yes no =>
                   match st.1 with
                   | x :: s => rexec n' D self frs (if x =? FORTH_TRUE then yes else no) (s, st.2)
                   | [] => None
                   end
               | CWhen yes =>
                   match st.1 with
                   | x :: s => if x =? FORTH_TRUE then rexec n' D self frs yes (s, st.2) else Some (s, st.2)
                   | [] => None
                   end
               | CDo body =>
                   match st.1 with
                   | i :: limit :: s =>
                       do_loop (fun frs => rexec n' D self frs body) frs n' i limit (s, st.2)
                   | _ => None
                   end
               | CFor body =>
                   match st.1 with
                   | c :: b :: a :: s =>
                       for_loop (fun frs => rexec n' D self frs body) frs n' c b a (s, st.2)
                   | _ => None
                   end
               end);
            rexec n' D self frs cs' st
      end
  end.

(** * Texts *)

(** The tokens of a program; a string is its token between the quotes. *)
Inductive token := TWord (t : bytes) | TStr (s : bytes).

Section tokens.
(** The name of the word that is defined, for its recursive calls. *)
Variable name : bytes.

Definition kw (s : string) : token := TWord (str_of s).

Fixpoint tokens (c : com) : list token :=
  match c with
  | CNum t => [TWord t]
  | CWord x => [TWord x]
  | CStr s => [TStr s]
  | CRec => [TWord name]
  | CIf yes no =>
      kw "if" :: concat (map tokens yes) ++ kw "elif" :: concat (map tokens no) ++ [kw "endif"]
  | CWhen yes => kw "if" :: concat (map tokens yes) ++ [kw "endif"]
  | CDo body => kw "do" :: concat (map tokens body) ++ [kw "loop"]
  | CFor body => kw "for" :: concat (map tokens body) ++ [kw "forloop"]
  end.
End tokens.

Definition token_text (t : token) : bytes := match t with TWord t => t | TStr s => 34 :: s ++ [34] end.

(** What a line of tokens looks like: a blank after each, but not necessarily
    after the last; and the zero. *)
Inductive spelled : list token -> bytes -> Prop :=
  | spelled_nil junk : spelled [] (0 :: junk)
  | spelled_last t junk : spelled [t] (token_text t ++ 0 :: junk)
  | spelled_cons t ts s : spelled ts s -> spelled (t :: ts) (token_text t ++ 32 :: s).
