(* ===== verification/KforthRun.v ===== *)
(** kforth at work: the primitives and the compiled code of structured programs do
    what the reference says. *)
From Stdlib Require Import Ascii String.
From S2P Require Import Prelude CText Kforth KforthCompile KforthRef.

(** * A program logic *)

Definition fwp {A} (m : F A) (Q : A -> kforth_t -> Prop) (st : kforth_t) : Prop :=
  match m st with Some (a, st') => Q a st' | None => False end.

Lemma fwp_run {A} (m : F A) Q st : fwp m Q st -> exists a st', m st = Some (a, st') /\ Q a st'.
Proof. unfold fwp. destruct (m st) as [[a st']|]; [eauto|done]. Qed.
Lemma fwp_intro {A} (m : F A) (Q : A -> kforth_t -> Prop) st a st' : m st = Some (a, st') -> Q a st' -> fwp m Q st.
Proof. unfold fwp. by intros ->. Qed.
Lemma fwp_bind {A B} (m : F A) (k : A -> F B) Q st : fwp m (fun a st' => fwp (k a) Q st') st -> fwp (m ≫= k) Q st.
Proof. unfold fwp, mbind, F_bind. by destruct (m st) as [[a st']|]. Qed.
Lemma fwp_mono {A} (m : F A) (Q Q' : A -> kforth_t -> Prop) st :
  fwp m Q st -> (forall a st', Q a st' -> Q' a st') -> fwp m Q' st.
Proof. unfold fwp. destruct (m st) as [[a st']|]; auto. Qed.
Lemma fwp_ret {A} (a : A) (Q : A -> kforth_t -> Prop) st : Q a st -> fwp (mret a) Q st.
Proof. done. Qed.
Lemma fwp_flift {A} (o : option A) a (Q : A -> kforth_t -> Prop) st : o = Some a -> Q a st -> fwp (flift o) Q st.
Proof. by intros ->. Qed.
Lemma fwp_fgets {A} (f : kforth_t -> A) (Q : A -> kforth_t -> Prop) st : Q (f st) st -> fwp (fgets f) Q st.
Proof. done. Qed.
Lemma fwp_fmodify f (Q : unit -> kforth_t -> Prop) st : Q tt (f st) -> fwp (fmodify f) Q st.
Proof. done. Qed.

(** * The stacks as lists *)

(** The state with the stacks [s] and [ls], top first, below [g] and [lg]. *)
Definition view (st0 : kforth_t) (s g ls lg : list Z) (out : list k_output) : kforth_t :=
  mk_kforth (reverse s ++ g) (zlen s) (reverse ls ++ lg) (zlen ls) (k_words st0) (k_dictionary st0)
    (k_saved_dictionary st0) (k_new_word_list st0) (k_exit_flag st0) out.

Lemma znth_below (s g : list Z) k x d : s !! k = Some x -> d = -1 - Z.of_nat k ->
  znth (reverse s ++ g) (zlen s + d) = Some x.
Proof.
  intros Hx ->. pose proof (lookup_lt_Some _ _ _ Hx) as Hk. unfold zlen. apply znth_Some. split; [lia|].
  rewrite lookup_app_l by (rewrite length_reverse; lia). rewrite reverse_lookup by lia.
  rewrite <- Hx. f_equal. lia.
Qed.
Lemma zupd_at {A} (l1 l2 : list A) y x d : d = zlen l1 -> zupd (l1 ++ y :: l2) d x = Some (l1 ++ x :: l2).
Proof.
  intros ->. unfold zlen. rewrite zupd_in_range by (unfold zlen; rewrite length_app; simpl; lia). f_equal.
  rewrite Nat2Z.id, insert_app_r_alt, Nat.sub_diag by lia. done.
Qed.
Lemma zupd_below (s g : list Z) k x d : (k < length s)%nat -> d = -1 - Z.of_nat k ->
  zupd (reverse s ++ g) (zlen s + d) x = Some (reverse (<[k := x]> s) ++ g).
Proof.
  intros Hk ->. destruct (lookup_lt_is_Some_2 s k Hk) as [y Hy].
  rewrite insert_take_drop by done. rewrite <- (take_drop_middle s k y Hy) at 1 2.
  rewrite !reverse_app, !reverse_cons, <- !app_assoc. apply zupd_at. unfold zlen.
  rewrite !length_app, length_reverse. cbn [length]. rewrite length_take, length_drop. lia.
Qed.
Lemma znth_above (s g : list Z) x : znth (reverse s ++ x :: g) (zlen s + 0) = Some x.
Proof.
  unfold zlen. apply znth_Some. split; [lia|]. rewrite lookup_app_r by (rewrite length_reverse; lia).
  rewrite length_reverse. replace (_ - _)%nat with 0%nat by lia. done.
Qed.
Lemma zupd_above (s g : list Z) x y : zupd (reverse s ++ y :: g) (zlen s + 0) x = Some (reverse s ++ x :: g).
Proof. apply zupd_at. unfold zlen. rewrite length_reverse. lia. Qed.

Lemma in_bounds a b : 0 <= a <= b -> (0 <=? a) && (a <=? b) = true.
Proof. intros [??]. apply andb_true_iff. split; by apply Z.leb_le. Qed.

Section view.
Variables (st0 : kforth_t) (out : list k_output).

Lemma fwp_stack_get k d x s g ls lg (Q : Z -> kforth_t -> Prop) : s !! k = Some x -> d = -1 - Z.of_nat k ->
  Q x (view st0 s g ls lg out) -> fwp (stack_get d) Q (view st0 s g ls lg out).
Proof. intros Hx Hd HQ. unfold fwp, stack_get. cbn. by rewrite (znth_below s g k x d). Qed.
Lemma fwp_stack_get_0 x s g ls lg (Q : Z -> kforth_t -> Prop) :
  Q x (view st0 s (x :: g) ls lg out) -> fwp (stack_get 0) Q (view st0 s (x :: g) ls lg out).
Proof. intros HQ. unfold fwp, stack_get. cbn [view k_stack k_sp]. by rewrite znth_above. Qed.
Lemma fwp_stack_set k d x s g ls lg (Q : unit -> kforth_t -> Prop) : (k < length s)%nat -> d = -1 - Z.of_nat k ->
  Q tt (view st0 (<[k := x]> s) g ls lg out) -> fwp (stack_set d x) Q (view st0 s g ls lg out).
Proof.
  intros Hk Hd HQ. unfold fwp, stack_set. cbn [view k_stack k_sp]. rewrite (zupd_below s g k x d) by done. cbn.
  assert (E : zlen s = zlen (<[k := x]> s)) by (unfold zlen; by rewrite length_insert). unfold set_stack. cbn. by rewrite E at 1.
Qed.
Lemma fwp_stack_set_0 x y s g ls lg (Q : unit -> kforth_t -> Prop) :
  Q tt (view st0 s (x :: g) ls lg out) -> fwp (stack_set 0 x) Q (view st0 s (y :: g) ls lg out).
Proof. intros HQ. unfold fwp, stack_set. cbn [view k_stack k_sp]. by rewrite zupd_above. Qed.

Lemma fwp_stack_up x s g ls lg (Q : unit -> kforth_t -> Prop) :
  Q tt (view st0 (x :: s) g ls lg out) -> fwp (stack_move 1) Q (view st0 s (x :: g) ls lg out).
Proof.
  intros HQ. unfold fwp, stack_move. cbn [view k_stack k_sp].
  assert (E : (0 <=? zlen s + 1) && (zlen s + 1 <=? zlen (reverse s ++ x :: g)) = true).
  { apply in_bounds. unfold zlen. rewrite length_app, length_reverse. cbn [length]. lia. }
  rewrite E. unfold set_stack. cbn. replace (zlen s + 1) with (zlen (x :: s)) by (rewrite zlen_cons; lia).
  replace (reverse s ++ x :: g) with (reverse (x :: s) ++ g) by by rewrite reverse_cons, <- app_assoc. done.
Qed.
Lemma fwp_stack_down s1 s g ls lg d (Q : unit -> kforth_t -> Prop) : d = - zlen s1 ->
  Q tt (view st0 s (reverse s1 ++ g) ls lg out) -> fwp (stack_move d) Q (view st0 (s1 ++ s) g ls lg out).
Proof.
  intros -> HQ. unfold fwp, stack_move. cbn [view k_stack k_sp].
  assert (E : (0 <=? zlen (s1 ++ s) + - zlen s1) && (zlen (s1 ++ s) + - zlen s1 <=? zlen (reverse (s1 ++ s) ++ g)) = true).
  { apply in_bounds. unfold zlen. rewrite !length_app, length_reverse, length_app. lia. }
  rewrite E. unfold set_stack. cbn. rewrite zlen_app. replace (zlen s1 + zlen s + - zlen s1) with (zlen s) by lia.
  by rewrite reverse_app, <- app_assoc.
Qed.

Lemma fwp_loop_get k d x s g ls lg (Q : Z -> kforth_t -> Prop) : ls !! k = Some x -> d = -1 - Z.of_nat k ->
  Q x (view st0 s g ls lg out) -> fwp (loop_get d) Q (view st0 s g ls lg out).
Proof. intros Hx Hd HQ. unfold fwp, loop_get. cbn. by rewrite (znth_below ls lg k x d). Qed.
Lemma fwp_loop_get_0 x s g ls lg (Q : Z -> kforth_t -> Prop) :
  Q x (view st0 s g ls (x :: lg) out) -> fwp (loop_get 0) Q (view st0 s g ls (x :: lg) out).
Proof. intros HQ. unfold fwp, loop_get. cbn [view k_loop_stack k_lsp]. by rewrite znth_above. Qed.
Lemma fwp_loop_set k d x s g ls lg (Q : unit -> kforth_t -> Prop) : (k < length ls)%nat -> d = -1 - Z.of_nat k ->
  Q tt (view st0 s g (<[k := x]> ls) lg out) -> fwp (loop_set d x) Q (view st0 s g ls lg out).
Proof.
  intros Hk Hd HQ. unfold fwp, loop_set. cbn [view k_loop_stack k_lsp]. rewrite (zupd_below ls lg k x d) by done. cbn.
  assert (E : zlen ls = zlen (<[k := x]> ls)) by (unfold zlen; by rewrite length_insert). unfold set_loop_stack. cbn. by rewrite E at 1.
Qed.
Lemma fwp_loop_push x y s g ls lg (Q : unit -> kforth_t -> Prop) :
  Q tt (view st0 s g (x :: ls) lg out) -> fwp (loop_push x) Q (view st0 s g ls (y :: lg) out).
Proof.
  intros HQ. unfold fwp, loop_push, loop_set, loop_move, mbind, F_bind. cbn [view k_loop_stack k_lsp].
  rewrite zupd_above. cbn. assert (E : (0 <=? zlen ls + 1) && (zlen ls + 1 <=? zlen (reverse ls ++ x :: lg)) = true).
  { apply in_bounds. unfold zlen. rewrite length_app, length_reverse. cbn [length]. lia. }
  rewrite E. unfold set_loop_stack. cbn. replace (zlen ls + 1) with (zlen (x :: ls)) by (rewrite zlen_cons; lia).
  replace (reverse ls ++ x :: lg) with (reverse (x :: ls) ++ lg) by by rewrite reverse_cons, <- app_assoc. done.
Qed.
Lemma fwp_loop_down l1 s g ls lg d (Q : unit -> kforth_t -> Prop) : d = - zlen l1 ->
  Q tt (view st0 s g ls (reverse l1 ++ lg) out) -> fwp (loop_move d) Q (view st0 s g (l1 ++ ls) lg out).
Proof.
  intros -> HQ. unfold fwp, loop_move. cbn [view k_loop_stack k_lsp].
  assert (E : (0 <=? zlen (l1 ++ ls) + - zlen l1) && (zlen (l1 ++ ls) + - zlen l1 <=? zlen (reverse (l1 ++ ls) ++ lg)) = true).
  { apply in_bounds. unfold zlen. rewrite !length_app, length_reverse, length_app. lia. }
  rewrite E. unfold set_loop_stack. cbn. rewrite zlen_app. replace (zlen l1 + zlen ls + - zlen l1) with (zlen ls) by lia.
  by rewrite reverse_app, <- app_assoc.
Qed.

Lemma fwp_push_int x y s g ls lg (Q : unit -> kforth_t -> Prop) :
  Q tt (view st0 (x :: s) g ls lg out) -> fwp (push_int x) Q (view st0 s (y :: g) ls lg out).
Proof. intros HQ. apply fwp_bind, fwp_stack_set_0, fwp_stack_up, HQ. Qed.
Lemma fwp_pop_int x s g ls lg (Q : Z -> kforth_t -> Prop) :
  Q x (view st0 s (x :: g) ls lg out) -> fwp pop_int Q (view st0 (x :: s) g ls lg out).
Proof. intros HQ. apply fwp_bind. apply (fwp_stack_down [x] s); [done|]. by apply fwp_stack_get_0. Qed.

Lemma fwp_output o s g ls lg (Q : unit -> kforth_t -> Prop) :
  Q tt (view st0 s g ls lg (out ++ o)) -> fwp (fmodify (add_output o)) Q (view st0 s g ls lg out).
Proof. done. Qed.
End view.

(** One step of a primitive on stacks whose upper part is explicit. *)
Ltac fstep :=
  match goal with
  | |- fwp (_ ≫= _) _ _ => apply fwp_bind
  | |- fwp (mret _) _ _ => apply fwp_ret
  | |- fwp (flift _) _ _ => eapply fwp_flift; [first [eassumption | reflexivity]|]
  | |- fwp (fgets _) _ _ => apply fwp_fgets
  | |- fwp (fmodify (add_output _)) _ _ => apply fwp_output
  | |- fwp (fprint _) _ _ => apply fwp_output
  | |- fwp (stack_get 0) _ _ => apply fwp_stack_get_0
  | |- fwp (stack_get (-1)) _ _ => eapply (fwp_stack_get _ _ 0%nat); [reflexivity|reflexivity|]
  | |- fwp (stack_get (-2)) _ _ => eapply (fwp_stack_get _ _ 1%nat); [reflexivity|reflexivity|]
  | |- fwp (stack_get (-3)) _ _ => eapply (fwp_stack_get _ _ 2%nat); [reflexivity|reflexivity|]
  | |- fwp (stack_set 0 _) _ _ => apply fwp_stack_set_0
  | |- fwp (stack_set (-1) _) _ _ => apply (fwp_stack_set _ _ 0%nat); [cbn [length]; lia|reflexivity|cbn [insert list_insert]]
  | |- fwp (stack_set (-2) _) _ _ => apply (fwp_stack_set _ _ 1%nat); [cbn [length]; lia|reflexivity|cbn [insert list_insert]]
  | |- fwp (stack_set (-3) _) _ _ => apply (fwp_stack_set _ _ 2%nat); [cbn [length]; lia|reflexivity|cbn [insert list_insert]]
  | |- fwp (stack_move 1) _ _ => apply fwp_stack_up
  | |- fwp (push_int _) _ _ => apply fwp_push_int
  | |- fwp pop_int _ _ => apply fwp_pop_int
  | |- fwp (loop_push _) _ _ => apply fwp_loop_push
  | |- fwp (loop_get 0) _ _ => apply fwp_loop_get_0
  | |- fwp (loop_get (-1)) _ _ => eapply (fwp_loop_get _ _ 0%nat); [reflexivity|reflexivity|]
  | |- fwp (loop_get (-2)) _ _ => eapply (fwp_loop_get _ _ 1%nat); [reflexivity|reflexivity|]
  | |- fwp (loop_get (-3)) _ _ => eapply (fwp_loop_get _ _ 2%nat); [reflexivity|reflexivity|]
  | |- fwp (loop_get (-4)) _ _ => eapply (fwp_loop_get _ _ 3%nat); [reflexivity|reflexivity|]
  | |- fwp (loop_set (-1) _) _ _ => apply (fwp_loop_set _ _ 0%nat); [cbn [length]; lia|reflexivity|cbn [insert list_insert]]
  | |- fwp (loop_set (-2) _) _ _ => apply (fwp_loop_set _ _ 1%nat); [cbn [length]; lia|reflexivity|cbn [insert list_insert]]
  | |- fwp (stack_move (-1)) _ (view _ (?x :: ?s) _ _ _ _) => apply (fwp_stack_down _ _ [x] s); [reflexivity|]
  | |- fwp (stack_move (-2)) _ (view _ (?x :: ?y :: ?s) _ _ _ _) => apply (fwp_stack_down _ _ [x; y] s); [reflexivity|]
  | |- fwp (loop_move (-1)) _ (view _ _ _ (?x :: ?s) _ _) => apply (fwp_loop_down _ _ [x] _ _ s); [reflexivity|]
  | |- fwp (loop_move (-3)) _ (view _ _ _ (?x :: ?y :: ?z :: ?s) _ _) => apply (fwp_loop_down _ _ [x; y; z] _ _ s); [reflexivity|]
  | |- fwp (loop_move (-4)) _ (view _ _ _ (?x :: ?y :: ?z :: ?u :: ?s) _ _) => apply (fwp_loop_down _ _ [x; y; z; u] _ _ s); [reflexivity|]
  end.

(** * The primitives *)

(** The loop stack: each frame lies on the label of its loop. *)
Fixpoint frames_are (frs : list frame) (ls : list Z) : Prop :=
  match frs with
  | [] => ls = []
  | DoFrame i limit :: frs => exists l ls', ls = limit :: i :: l :: ls' /\ frames_are frs ls'
  | ForFrame c b a :: frs => exists l ls', ls = a :: b :: c :: l :: ls' /\ frames_are frs ls'
  end.

Lemma frames_length frs : forall ls, frames_are frs ls -> (length ls <= 4 * length frs)%nat.
Proof.
  induction frs as [|[i limit|c b a] frs IH]; intros ls.
  - by intros ->.
  - intros (l & ls' & -> & H). specialize (IH _ H). simpl in *. lia.
  - intros (l & ls' & -> & H). specialize (IH _ H). simpl in *. lia.
Qed.

(** The states of a word at work. *)
Record stacks_ok (frs : list frame) (s g ls lg : list Z) : Prop := {
  so_stack : (length s + length g = 1000)%nat;
  so_loop : (length ls + length lg = 100)%nat;
  so_frames : frames_are frs ls }.

Definition leaves (st0 : kforth_t) (frs : list frame) (ls : list Z) (s' : list Z) (out' : list k_output)
    (st' : kforth_t) : Prop :=
  exists g' lg', st' = view st0 s' g' ls lg' out' /\ stacks_ok frs s' g' ls lg'.

Section prims.
Context `{KforthLib}.

(** The numbers above the one that is rolled move down by one. *)
Lemma fwp_roll_loop st0 out n g ls lg (Q : unit -> kforth_t -> Prop) : forall w y s, 
  (forall h, Q tt (view st0 (n :: h :: w ++ s) g ls lg out)) ->
  fwp (roll_loop (length w) (-2 - zlen w)) Q (view st0 (n :: w ++ y :: s) g ls lg out).
Proof.
  induction w as [|z w IH] using rev_ind; intros y s HQ; [by apply fwp_ret, (HQ y)|].
  rewrite length_app, Nat.add_1_r, zlen_app, zlen_cons, zlen_nil. cbn [roll_loop]. rewrite <- app_assoc in HQ |- *. cbn [app] in HQ |- *.
  apply fwp_bind, (fwp_stack_get _ _ (S (length w)) _ z).
  { change ((w ++ z :: y :: s) !! length w = Some z). by apply list_lookup_middle. }
  { unfold zlen. lia. }
  apply fwp_bind, (fwp_stack_set _ _ (S (S (length w)))).
  { cbn [length]. rewrite length_app. cbn [length]. lia. }
  { unfold zlen. lia. }
  replace (-2 - (zlen w + (1 + 0)) + 1) with (-2 - zlen w) by lia.
  assert (Ei : <[S (S (length w)) := z]> (n :: w ++ z :: y :: s) = n :: w ++ z :: z :: s).
  { change (n :: w ++ z :: y :: s) with ((n :: w) ++ [z] ++ y :: s). rewrite app_assoc.
    replace (S (S (length w))) with (length ((n :: w) ++ [z]) + 0)%nat by (rewrite length_app; cbn [length]; lia).
    rewrite insert_app_r. cbn [insert list_insert]. by rewrite <- app_assoc. }
  rewrite Ei. by apply IH.
Qed.

Lemma prim_ok f frs st0 s g ls lg out s' o : prim_sem f frs s = Some (s', o) -> stacks_ok frs s g ls lg ->
  (length s <= 998)%nat ->
  fwp (call_primitive f) (fun r st' => r = 0 /\ leaves st0 frs ls s' (out ++ o) st') (view st0 s g ls lg out).
Proof.
  intros He [Hs Hl Hf] Hroom.
  destruct g as [|g1 [|g2 g]]; [simpl in Hs; lia..|].
  assert (Hdone : forall s'' g'' out'', s'' = s' -> out'' = out ++ o -> (length s'' + length g'' = 1000)%nat ->
    0 = 0 /\ leaves st0 frs ls s' (out ++ o) (view st0 s'' g'' ls lg out'')).
  { intros s'' g'' out'' -> -> Hlen. split; [done|]. by exists g'', lg. }
  destruct f; try done; cbn [prim_sem] in He; repeat match type of He with
    | match ?s with [] => _ | _ :: _ => _ end = _ => destruct s; try done
    | (_ ≫= _) = Some _ => apply bind_Some in He as (? & ? & He)
    end; try injection He as <- <-; unfold call_primitive, binary.
  all: try solve [repeat fstep; apply Hdone; [done|by rewrite ?app_nil_r|simpl in *; lia]].
  - do 2 fstep. cbn [view k_sp]. rewrite zlen_cons. pose proof (zlen_nonneg s). zif_false.
    repeat fstep. apply Hdone; [done..|simpl in *; lia].
  - do 3 fstep. cbn [view k_sp k_stack]. unfold zlen. rewrite Nat2Z.id, take_app_length' by (symmetry; apply length_reverse).
    unfold print_numbers. repeat fstep. apply Hdone; [done|by rewrite <- app_assoc|simpl in *; lia].
  - destruct (z <? 0) eqn:Ez; [done|]. zbool. apply bind_Some in He as (x & Hx & [= <- <-]). repeat fstep.
    eapply (fwp_stack_get _ _ (S (Z.to_nat z))); [exact Hx|lia|]. repeat fstep.
    pose proof (lookup_lt_Some _ _ _ Hx) as Hlt. pose proof (take_drop_middle _ _ _ Hx) as Hsplit.
    set (w := take (Z.to_nat z) s) in *. set (s2 := drop (S (Z.to_nat z)) s) in *.
    assert (Hw : Z.to_nat z = length w) by (unfold w; rewrite length_take; lia).
    rewrite <- Hsplit at 1. replace (roll_loop (Z.to_nat z)) with (roll_loop (length w)) by by rewrite Hw.
    replace (-2 - z) with (-2 - zlen w) by (unfold zlen; lia).
    apply fwp_roll_loop. intros h. repeat fstep. apply Hdone.
    + by rewrite <- Hsplit, Hw, delete_middle.
    + by rewrite app_nil_r.
    + rewrite <- Hsplit in Hs. simpl in *. rewrite !length_app in *. simpl in *. lia.
  - destruct (z <? 0) eqn:Ez; [done|]. zbool. apply bind_Some in He as (x & Hx & [= <- <-]). repeat fstep.
    eapply (fwp_stack_get _ _ (S (Z.to_nat z))); [exact Hx|lia|]. repeat fstep. apply Hdone; [done|by rewrite app_nil_r|simpl in *; lia].
  - do 3 fstep. cbn [view k_sp]. destruct s as [|x s].
    + repeat fstep. apply Hdone; [done|by rewrite app_nil_r|simpl in *; lia].
    + rewrite zlen_cons. pose proof (zlen_nonneg s). zif_false. repeat fstep. apply Hdone; [done|by rewrite app_nil_r|simpl in *; lia].
  - do 5 fstep. destruct (z >? z0) eqn:E; repeat fstep; (apply Hdone; [f_equal; lia|by rewrite app_nil_r|simpl in *; lia]).
  - destruct f as [i limit|c b a]; destruct Hf as (l & ls' & -> & Hf); injection He as <- <-;
      repeat fstep; (apply Hdone; [done|by rewrite app_nil_r|simpl in *; lia]).
  - destruct f as [i limit|c b a]; destruct Hf as (l & ls' & -> & Hf); injection He as <- <-;
      repeat fstep; (apply Hdone; [done|by rewrite app_nil_r|simpl in *; lia]).
Qed.
End prims.
