(* ===== verification/KforthCode.v ===== *)
(** The code of structured kforth programs, and what it does when it runs. *)
From Stdlib Require Import Ascii String.
From S2P Require Import Prelude CText Kforth KforthCompile KforthRef KforthRun.

(** * Code *)

(** An item of which only what is stored counts. *)
Inductive pat := PItem (ty : Z) (data : option Z) | PChars (s : bytes).

Definition fits (p : pat) (it : word_list_item) : Prop :=
  match p, it with
  | PItem t None, Item t' _ => t' = t
  | PItem t (Some d), Item t' d' => t' = t /\ d' = Some d
  | PChars s, Chars s' => s' = s
  | _, _ => False
  end.

Fixpoint chunks (n : nat) (s : bytes) : list pat :=
  match n with
  | O => []
  | S n' => match s with [] => [] | _ => PChars (take 16 s) :: chunks n' (drop 16 s) end
  end.

Definition PEnd : pat := PItem END_TYPE None.

Section code.
(** Where the word of a name is. *)
Variable resolve : bytes -> Z.

Definition PWord (x : bytes) : pat := PItem WORD_TYPE (Some (resolve x)).

Fixpoint ccode (c : com) : list pat :=
  let ccodes cs := concat (map ccode cs) in
  match c with
  | CNum t => [PItem LITERAL_TYPE (u64 <$> atoi t)]
  | CWord x => [PWord x]
  | CStr s => PItem STR_TYPE (Some 0) :: chunks (length s + 1) (s ++ [0])
  | CRec => [PItem RECURSIVE_TYPE None]
  | CIf yes no =>
      PItem BRANCH_TYPE (Some (zlen (ccodes yes) + 2)) :: PWord (str_of "if") :: ccodes yes ++
      PItem BRANCH_TYPE (Some (zlen (ccodes no))) :: PWord (str_of "elif") :: ccodes no ++
      [PWord (str_of "endif")]
  | CWhen yes =>
      PItem BRANCH_TYPE (Some (zlen (ccodes yes))) :: PWord (str_of "if") :: ccodes yes ++
      [PWord (str_of "endif")]
  | CDo body =>
      PItem LABEL_TYPE None :: PWord (str_of "do") :: ccodes body ++
      [PItem LABEL_TYPE None; PWord (str_of "loop")]
  | CFor body =>
      PItem LABEL_TYPE None :: PWord (str_of "for") :: ccodes body ++
      [PItem LABEL_TYPE None; PWord (str_of "forloop")]
  end.
Definition ccodes (cs : list com) : list pat := concat (map ccode cs).

End code.

(** [ps] lies in the code from [i] on. *)
Definition seg (code : list word_list_item) (i : Z) (ps : list pat) : Prop :=
  0 <= i /\ Forall2 fits ps (take (length ps) (drop (Z.to_nat i) code)).

Lemma seg_app code i ps qs : seg code i (ps ++ qs) <-> seg code i ps /\ seg code (i + zlen ps) qs.
Proof.
  unfold seg, zlen. split.
  - intros [Hi H]. apply Forall2_app_inv_l in H as (l1 & l2 & H1 & H2 & E).
    pose proof (Forall2_length H1) as E1. pose proof (Forall2_length H2) as E2.
    assert (El : l1 = take (length ps) (drop (Z.to_nat i) code) /\ l2 = take (length qs) (drop (length ps) (drop (Z.to_nat i) code))).
    { rewrite length_app, <- take_take_drop in E. apply app_inj_1 in E as [-> ->]; [done|].
      rewrite <- E1. apply (f_equal length) in E. rewrite !length_app, !length_take, !length_drop in *. lia. }
    destruct El as [-> ->]. split; [done|]. split; [lia|]. rewrite Z2Nat.inj_add, Nat2Z.id by lia. by rewrite <- drop_drop.
  - intros [[Hi H1] [_ H2]]. split; [done|]. rewrite length_app, <- take_take_drop. apply Forall2_app; [done|].
    rewrite Z2Nat.inj_add, Nat2Z.id in H2 by lia. by rewrite <- drop_drop in H2.
Qed.

Lemma seg_nil code i : 0 <= i -> seg code i [].
Proof. split; [done|constructor]. Qed.

Lemma seg_one code i p : seg code i [p] <-> exists it, znth code i = Some it /\ fits p it.
Proof.
  unfold seg, znth. split.
  - intros [Hi H]. cbn [length] in H. destruct (drop (Z.to_nat i) code) as [|it l] eqn:E; [by inversion H|].
    exists it. zif_false. rewrite <- (Nat.add_0_r (Z.to_nat i)), <- lookup_drop, E. split; [done|]. by inversion H.
  - intros (it & Hit & Hf). destruct (i <? 0) eqn:Ei; [done|]. zbool. split; [done|]. cbn [length].
    rewrite <- (Nat.add_0_r (Z.to_nat i)), <- lookup_drop in Hit. destruct (drop _ code); [done|].
    injection Hit as ->. by repeat constructor.
Qed.

Lemma seg_cons code i p ps : seg code i (p :: ps) <->
  (exists it, znth code i = Some it /\ fits p it) /\ seg code (i + 1) ps.
Proof. rewrite (seg_app code i [p] ps), seg_one. by replace (zlen [p]) with 1. Qed.

Lemma seg_length code i ps : seg code i ps -> i + zlen ps <= zlen code \/ ps = [].
Proof.
  intros [Hi H]. apply Forall2_length in H. rewrite length_take, length_drop in H. unfold zlen.
  destruct ps; [by right|left]. cbn [length] in *. lia.
Qed.

(** * Strings *)

Lemma chunks_step s n : exists w rest, chunks (S n) (s ++ [0]) = PChars w :: rest /\
  ((length s <= 15)%nat /\ w = s ++ [0] /\ rest = [] \/
   (16 <= length s)%nat /\ w = take 16 s /\ rest = chunks n (drop 16 s ++ [0])).
Proof.
  cbn [chunks]. destruct (s ++ [0]) as [|c l] eqn:E; [by destruct s|]. rewrite <- E. eexists _, _. split; [done|].
  destruct (decide (length s <= 15)%nat) as [Hl|Hl].
  - left. split; [done|]. rewrite take_ge, drop_ge by (rewrite length_app; cbn; lia). split; [done|]. by destruct n.
  - right. split; [lia|]. rewrite take_app_le, drop_app_le by lia. done.
Qed.

Lemma string_items_step len : 16 <= len -> string_items len = 1 + string_items (len - 16).
Proof.
  intros Hl. unfold string_items. replace (len + 1) with (len - 16 + 1 + 1 * 16) by lia.
  rewrite Z_mod_plus_full, Z_div_plus_full by lia. destruct (_ =? 0); lia.
Qed.

Lemma string_chunks_length n : forall s, (length s < n)%nat -> zlen (chunks n (s ++ [0])) = string_items (zlen s).
Proof.
  induction n as [|n IH]; intros s Hn; [lia|]. destruct (chunks_step s n) as (w & r & -> & Hw). rewrite zlen_cons.
  destruct Hw as [(Hl & -> & ->)|(Hl & -> & ->)].
  - rewrite zlen_nil. unfold zlen, string_items. destruct (decide (length s = 15)%nat) as [->|Hne]; [done|].
    rewrite Z.div_small, Z.mod_small by lia. zif_false. lia.
  - rewrite IH by (rewrite length_drop; lia). unfold zlen. rewrite (string_items_step (Z.of_nat (length s))), length_drop by lia.
    do 2 f_equal. lia.
Qed.

(** * Runs *)

Section runs.
Context `{KforthLib}.

(** The word's loop comes from item [i] to item [j]: it takes some steps of every
    sufficiently deep run. *)
Definition runs (w : word_ref) (i : Z) (st : kforth_t) (j : Z) (st' : kforth_t) : Prop :=
  exists k d, forall f n, (d <= f)%nat ->
    word_loop (execute_word f) (k + n) w i st = word_loop (execute_word f) n w j st'.

Definition calls (w : word_ref) (st : kforth_t) (r : Z) (st' : kforth_t) : Prop :=
  exists k, forall f, (k <= f)%nat -> execute_word f w st = Some (r, st').

Lemma runs_refl w i st : runs w i st i st.
Proof. by exists 0%nat, 0%nat. Qed.
Lemma runs_trans w i st j st1 k st2 : runs w i st j st1 -> runs w j st1 k st2 -> runs w i st k st2.
Proof.
  intros (k1 & d1 & H1) (k2 & d2 & H2). exists (k1 + k2)%nat, (d1 + d2)%nat. intros f n Hf.
  rewrite <- Nat.add_assoc, H1, H2 by lia. done.
Qed.

(** One item. *)
Lemma fbind {A B} (m : F A) (k : A -> F B) st a st' : m st = Some (a, st') -> (m ≫= k) st = k a st'.
Proof. unfold mbind, F_bind. by intros ->. Qed.

Record at_item (w : word_ref) (i : Z) (st : kforth_t) (it : word_list_item) : Prop := {
  ai_exit : k_exit_flag st = 0;
  ai_item : get_item w i st = Some (it, st) }.

#[local] Ltac one_item Ha :=
  cbn [Nat.add word_loop]; rewrite (fbind _ _ _ _ _ eq_refl), (ai_exit _ _ _ _ Ha); cbn [Z.eqb negb];
  rewrite (fbind _ _ _ _ _ (ai_item _ _ _ _ Ha)); rewrite (fbind _ _ _ _ _ eq_refl);
  cbn [item_type item_data Z.eqb Pos.eqb END_TYPE LITERAL_TYPE WORD_TYPE STR_TYPE LABEL_TYPE BRANCH_TYPE RECURSIVE_TYPE].

Lemma runs_push w i st st' t d : at_item w i st (Item t (Some d)) -> t = LITERAL_TYPE \/ t = BRANCH_TYPE ->
  push_int (s32 d) st = Some (tt, st') -> runs w i st (i + 1) st'.
Proof.
  intros Ha [-> | ->] Hp; exists 1%nat, 0%nat; intros f n Hf; one_item Ha;
    rewrite (fbind _ _ _ _ _ eq_refl); by rewrite (fbind _ _ _ _ _ Hp).
Qed.
Lemma runs_word w i st st' d r : at_item w i st (Item WORD_TYPE (Some d)) -> calls (Entry d) st r st' ->
  runs w i st (i + r + 1) st'.
Proof.
  intros Ha [k Hc]. exists 1%nat, k. intros f n Hf. one_item Ha.
  rewrite (fbind _ _ _ _ _ eq_refl). by rewrite (fbind _ _ _ _ _ (Hc f Hf)).
Qed.
Lemma runs_recursive w i st st' d r : at_item w i st (Item RECURSIVE_TYPE d) -> calls w st r st' ->
  runs w i st (i + r + 1) st'.
Proof.
  intros Ha [k Hc]. exists 1%nat, k. intros f n Hf. one_item Ha. by rewrite (fbind _ _ _ _ _ (Hc f Hf)).
Qed.
Lemma runs_str w i st st' d r : at_item w i st (Item STR_TYPE d) -> kforth_print_str w (i + 1) st = Some (r, st') ->
  runs w i st (i + r + 1) st'.
Proof.
  intros Ha Hp. exists 1%nat, 0%nat. intros f n Hf. one_item Ha. by rewrite (fbind _ _ _ _ _ Hp).
Qed.
Lemma runs_label w i st st' d : at_item w i st (Item LABEL_TYPE d) -> loop_push i st = Some (tt, st') ->
  runs w i st (i + 1) st'.
Proof.
  intros Ha Hp. exists 1%nat, 0%nat. intros f n Hf. one_item Ha. unfold loop_push, mbind, F_bind in Hp |- *.
  destruct (loop_set 0 i st) as [[[] st1]|]; [|done]. by rewrite Hp.
Qed.

Lemma calls_prim p e f st r st' : k_words st !! p = Some e -> e_fn e = Fn f ->
  call_primitive f st = Some (r, st') -> calls (Entry p) st r st'.
Proof.
  intros Hp He Hc. exists 1%nat. intros [|f'] Hf; [lia|]. cbn [execute_word word_fn].
  assert (Hg : get_entry p st = Some (e, st)) by (unfold get_entry; by rewrite Hp).
  assert (Hw : (e0 ← get_entry p; mret (e_fn e0)) st = Some (e_fn e, st)) by by rewrite (fbind _ _ _ _ _ Hg).
  rewrite (fbind _ _ _ _ _ Hw). by rewrite He.
Qed.

(** A compiled word, whose loop comes to its end. *)
Definition is_code (w : word_ref) (st : kforth_t) : Prop :=
  match w with Temp => True | Entry p => exists e, k_words st !! p = Some e /\ e_fn e = NoFn end.

Lemma calls_code w st j st' d : is_code w st -> runs w 0 st j st' -> at_item w j st' (Item END_TYPE d) ->
  calls w st 0 st'.
Proof.
  intros Hw (k & dep & Hr) Ha. exists (S (k + dep + 1)). intros [|f] Hf; [lia|]. cbn [execute_word].
  assert (Hfn : word_fn w st = Some (NoFn, st)).
  { destruct w as [|p]; [done|]. destruct Hw as (e & He & En). cbn.
    assert (Hg : get_entry p st = Some (e, st)) by (unfold get_entry; by rewrite He).
    rewrite (fbind _ _ _ _ _ Hg). by rewrite En. }
  rewrite (fbind _ _ _ _ _ Hfn). replace (word_loop (execute_word f) f) with (word_loop (execute_word f) (k + S (f - k - 1))) by (f_equal; lia).
  rewrite Hr by lia. by one_item Ha.
Qed.
End runs.
