(* ===== verification/KforthExec.v ===== *)
(** Structured kforth programs run as the reference says. *)
From Stdlib Require Import Ascii String.
From S2P Require Import Prelude CText Kforth KforthCompile KforthRef KforthRun KforthCode.

Definition keywords : list bytes :=
  map str_of ["if"; "elif"; "endif"; "do"; "loop"; "for"; "forloop"]%string.

Section exec.
Context `{KforthLib}.
Variables (D : list (bytes * list com)) (resolve : bytes -> Z) (st0 : kforth_t).

(** The dictionary: the defined words with their code, the others with their
    functions. *)
Record world : Prop := {
  w_exit : k_exit_flag st0 = 0;
  w_def : forall x body, find_def x D = Some body -> exists e l, k_words st0 !! resolve x = Some e /\
    e_fn e = NoFn /\ e_list e = Some l /\ zlen l <= MAX_COMPILE_WORDS /\ seg l 0 (ccodes resolve body ++ [PEnd]);
  w_prim : forall x f, find_def x D = None -> find_prim x = Some f ->
    exists e, k_words st0 !! resolve x = Some e /\ e_fn e = Fn f;
  w_keyword : forall x, x ∈ keywords -> find_def x D = None }.

Record word_here (w : word_ref) (code : list word_list_item) : Prop := {
  wh_code : word_code st0 w = Some code;
  wh_is : is_code w st0;
  wh_small : zlen code <= MAX_COMPILE_WORDS }.

Hypothesis Hworld : world.

Lemma item_view w code i p ps s g ls lg out : word_here w code -> seg code i (p :: ps) ->
  exists it, fits p it /\ at_item w i (view st0 s g ls lg out) it /\ seg code (i + 1) ps.
Proof.
  intros [Hc _ _] [(it & Hit & Hf) Hs]%seg_cons. exists it. split; [done|]. split; [|done].
  split; [apply Hworld|]. unfold get_item. assert (E : word_code (view st0 s g ls lg out) w = Some code) by by destruct w.
  rewrite E. cbn. by rewrite Hit.
Qed.

Lemma fits_data t d it : fits (PItem t (Some d)) it -> it = Item t (Some d).
Proof. destruct it as [t' d'|]; [|done]. by intros [-> ->]. Qed.
Lemma fits_type t it : fits (PItem t None) it -> exists d, it = Item t d.
Proof. destruct it as [t' d'|]; [|done]. intros ->. by eexists. Qed.

(** The word of a primitive. *)
Lemma calls_keyword x f s g ls lg out r st' : find_def x D = None -> find_prim x = Some f ->
  fwp (call_primitive f) (fun r' st => r' = r /\ st = st') (view st0 s g ls lg out) ->
  calls (Entry (resolve x)) (view st0 s g ls lg out) r st'.
Proof.
  intros Hx Hf Hc. destruct (w_prim Hworld x f Hx Hf) as (e & He & Hfn).
  apply fwp_run in Hc as (r' & st & E & -> & ->). by eapply calls_prim.
Qed.

Lemma runs_keyword w code i x f ps s g ls lg out r st' : word_here w code -> x ∈ keywords -> find_prim x = Some f ->
  seg code i (PWord resolve x :: ps) ->
  fwp (call_primitive f) (fun r' st => r' = r /\ st = st') (view st0 s g ls lg out) ->
  runs w i (view st0 s g ls lg out) (i + r + 1) st'.
Proof.
  intros Hw Hx Hf Hs Hc. destruct (item_view _ _ _ _ _ s g ls lg out Hw Hs) as (it & Hit & Ha & _).
  apply fits_data in Hit as ->. eapply runs_word; [exact Ha|].
  eapply calls_keyword; [by apply (w_keyword Hworld)|done|done].
Qed.

Lemma runs_number w code i t d ps s y g ls lg out : word_here w code -> t = LITERAL_TYPE \/ t = BRANCH_TYPE ->
  seg code i (PItem t (Some d) :: ps) ->
  runs w i (view st0 s (y :: g) ls lg out) (i + 1) (view st0 (s32 d :: s) g ls lg out).
Proof.
  intros Hw Ht Hs. destruct (item_view _ _ _ _ _ s (y :: g) ls lg out Hw Hs) as (it & Hit & Ha & _).
  apply fits_data in Hit as ->. eapply runs_push; [exact Ha|done|].
  assert (Hp : fwp (push_int (s32 d)) (fun r st => r = tt /\ st = view st0 (s32 d :: s) g ls lg out) (view st0 s (y :: g) ls lg out)).
  { by apply fwp_push_int. }
  apply fwp_run in Hp as ([] & st & E & _ & ->). exact E.
Qed.

Lemma runs_label_here w code i ps s g ls y lg out : word_here w code -> seg code i (PItem LABEL_TYPE None :: ps) ->
  runs w i (view st0 s g ls (y :: lg) out) (i + 1) (view st0 s g (i :: ls) lg out).
Proof.
  intros Hw Hs. destruct (item_view _ _ _ _ _ s g ls (y :: lg) out Hw Hs) as (it & Hit & Ha & _).
  apply fits_type in Hit as [d ->]. eapply runs_label; [exact Ha|].
  assert (Hp : fwp (loop_push i) (fun r st => r = tt /\ st = view st0 s g (i :: ls) lg out) (view st0 s g ls (y :: lg) out)).
  { by apply fwp_loop_push. }
  apply fwp_run in Hp as ([] & st & E & _ & ->). exact E.
Qed.

(** * Strings *)

Lemma until_nul_app s rest : Forall (fun c => c <> 0) s -> until_nul (s ++ 0 :: rest) = Some s.
Proof.
  induction 1 as [|c s Hc _ IH]; [done|]. cbn [app until_nul]. zif_false. by rewrite IH.
Qed.
Lemma until_nul_none s : Forall (fun c => c <> 0) s -> until_nul s = None.
Proof. induction 1 as [|c s Hc _ IH]; [done|]. cbn [until_nul]. zif_false. by rewrite IH. Qed.

Lemma read_chunks n : forall s its rest, Forall (fun c => c <> 0) s -> (length s < n)%nat ->
  Forall2 fits (chunks n (s ++ [0])) its -> read_chars (its ++ rest) = Some s.
Proof.
  induction n as [|n IH]; intros s its rest Hs Hn Hf; [lia|].
  destruct (chunks_step s n) as (w & r & E & Hw). rewrite E in Hf.
  apply Forall2_cons_inv_l in Hf as (it & its' & Hit & Hf & ->). destruct it as [|s']; [done|]. cbn in Hit. subst s'.
  cbn [app read_chars]. destruct Hw as [(Hl & -> & ->)|(Hl & -> & ->)].
  - by rewrite until_nul_app.
  - rewrite until_nul_none by by apply Forall_take. rewrite (IH (drop 16 s)); [cbn; by rewrite take_drop|by apply Forall_drop| |done].
    rewrite length_drop. lia.
Qed.

Lemma print_chunks st w code i str : word_code st w = Some code -> Forall (fun c => c <> 0) str ->
  seg code i (chunks (length str + 1) (str ++ [0])) ->
  kforth_print_str w i st = Some (string_items (zlen str), add_output [OText str] st).
Proof.
  intros Ec Hstr [Hi Hseg]. unfold kforth_print_str. rewrite Ec. cbn [mbind option_bind]. zif_false.
  set (l := drop (Z.to_nat i) code) in *.
  rewrite <- (take_drop (length (chunks (length str + 1) (str ++ [0]))) l).
  erewrite (read_chunks _ str); [done|done| |exact Hseg]. lia.
Qed.

Lemma runs_string w code i str s g ls lg out : word_here w code -> Forall (fun c => c <> 0) str ->
  seg code i (ccode resolve (CStr str)) ->
  runs w i (view st0 s g ls lg out) (i + zlen (ccode resolve (CStr str))) (view st0 s g ls lg (out ++ [OText str])).
Proof.
  intros Hw Hstr Hs. cbn [ccode] in *. rewrite zlen_cons, string_chunks_length by lia.
  destruct (item_view _ _ _ _ _ s g ls lg out Hw Hs) as (it & Hit & Ha & Hseg).
  apply fits_data in Hit as ->. replace (i + (1 + string_items (zlen str))) with (i + string_items (zlen str) + 1) by lia.
  eapply runs_str; [exact Ha|]. rewrite (print_chunks _ w code _ str); [done|destruct w; apply Hw|done|done].
Qed.

(** * Programs *)

Lemma s32_u64 z : -2147483648 <= z <= 2147483647 -> s32 (u64 z) = z.
Proof. intros Hz. unfold s32, u64. lia. Qed.
Lemma int_of_Some z x : int_of z = Some x -> x = z /\ -2147483648 <= z <= 2147483647.
Proof. unfold int_of. destruct (_ && _) eqn:E; [|done]. intros [= <-]. zbool. lia. Qed.
Lemma int_of_small z : -2147483648 <= z <= 2147483647 -> int_of z = Some z.
Proof. intros Hz. unfold int_of. by replace (_ && _) with true by (symmetry; apply andb_true_iff; lia). Qed.

Abbreviation codes := (ccodes resolve).

Definition exec_spec (n : nat) : Prop := forall self frs cs s out s' out',
  rexec n D self frs cs (s, out) = Some (s', out') -> forall w code i g ls lg, word_here w code ->
  (forall body, self = Some body -> seg code 0 (codes body ++ [PEnd])) -> seg code i (codes cs) ->
  stacks_ok frs s g ls lg ->
  exists st', leaves st0 frs ls s' out' st' /\ runs w i (view st0 s g ls lg out) (i + zlen (codes cs)) st'.

(** A word is called: its code runs to its end. *)
Lemma calls_body n self frs body s out s' out' w code g ls lg : exec_spec n ->
  rexec n D self frs body (s, out) = Some (s', out') -> word_here w code ->
  (forall b, self = Some b -> seg code 0 (codes b ++ [PEnd])) -> seg code 0 (codes body ++ [PEnd]) ->
  stacks_ok frs s g ls lg ->
  exists st', leaves st0 frs ls s' out' st' /\ calls w (view st0 s g ls lg out) 0 st'.
Proof.
  intros IH He Hw Hself Hseg Hok. pose proof (proj1 (seg_app _ _ _ _) Hseg) as [Hb Hend].
  destruct (IH _ _ _ _ _ _ _ He _ _ _ _ _ _ Hw Hself Hb Hok) as (st' & Hl & Hr). exists st'. split; [done|].
  destruct Hl as (g' & lg' & -> & Hok').
  destruct (item_view _ _ _ _ _ s' g' ls lg' out' Hw Hend) as (it & Hit & Ha & _). apply fits_type in Hit as [d ->].
  eapply calls_code; [|exact Hr|exact Ha]. destruct w; [done|]. apply Hw.
Qed.

Section step.
Variable n : nat.
Hypothesis IH : exec_spec n.
Variables (self : option (list com)) (frs : list frame) (w : word_ref) (code : list word_list_item).
Hypothesis Hw : word_here w code.
Hypothesis Hself : forall body, self = Some body -> seg code 0 (codes body ++ [PEnd]).

Lemma run_word x body i s g ls lg out s' out' : find_def x D = Some body -> seg code i [PWord resolve x] ->
  rexec n D (Some body) frs body (s, out) = Some (s', out') -> stacks_ok frs s g ls lg ->
  exists st', leaves st0 frs ls s' out' st' /\ runs w i (view st0 s g ls lg out) (i + 1) st'.
Proof.
  intros Hx Hs He Hok. destruct (w_def Hworld x body Hx) as (e & l & Hp & Hfn & Hl & Hsm & Hseg).
  assert (Hwx : word_here (Entry (resolve x)) l).
  { split; [cbn; by rewrite Hp|by exists e|done]. }
  assert (Hb : forall b, Some body = Some b -> seg l 0 (codes b ++ [PEnd])) by by intros b [= <-].
  destruct (calls_body n (Some body) frs body s out s' out' _ l g ls lg IH He Hwx Hb Hseg Hok) as (st' & Hlv & Hc).
  exists st'. split; [done|]. destruct (item_view _ _ _ _ _ s g ls lg out Hw Hs) as (it & Hit & Ha & _).
  apply fits_data in Hit as ->. replace (i + 1) with (i + 0 + 1) by lia. by eapply runs_word.
Qed.

Lemma run_recursive body i s g ls lg out s' out' : self = Some body -> seg code i [PItem RECURSIVE_TYPE None] ->
  rexec n D self frs body (s, out) = Some (s', out') -> stacks_ok frs s g ls lg ->
  exists st', leaves st0 frs ls s' out' st' /\ runs w i (view st0 s g ls lg out) (i + 1) st'.
Proof.
  intros Hb Hs He Hok.
  destruct (calls_body n self frs body s out s' out' w code g ls lg IH He Hw Hself (Hself _ Hb) Hok) as (st' & Hlv & Hc).
  exists st'. split; [done|]. destruct (item_view _ _ _ _ _ s g ls lg out Hw Hs) as (it & Hit & Ha & _).
  apply fits_type in Hit as [d ->]. replace (i + 1) with (i + 0 + 1) by lia. by eapply runs_recursive.
Qed.

(** [if], with a branch of [d] items. *)
Lemma run_if d i x s g ls lg out ps : (length s + length g = 999)%nat -> (length s <= 997)%nat -> 0 <= d <= MAX_COMPILE_WORDS ->
  seg code i (PItem BRANCH_TYPE (Some d) :: PWord resolve (str_of "if") :: ps) ->
  exists g', (length s + length g' = 1000)%nat /\
    runs w i (view st0 (x :: s) g ls lg out) (if x =? FORTH_TRUE then i + 2 else i + 2 + d) (view st0 s g' ls lg out).
Proof.
  intros Hlen Hroom Hd Hs. destruct g as [|y g]; [simpl in Hlen; lia|]. exists (x :: d :: g). split; [simpl in *; lia|].
  assert (Ed : s32 d = d) by (unfold MAX_COMPILE_WORDS in Hd; apply s32_id; lia).
  eapply runs_trans; [eapply runs_number; [exact Hw|by right|exact Hs]|]. rewrite Ed.
  apply seg_cons in Hs as [_ Hs].
  set (r := if x =? FORTH_TRUE then 0 else d).
  replace (if x =? FORTH_TRUE then i + 2 else i + 2 + d) with (i + 1 + r + 1) by (unfold r; destruct (x =? FORTH_TRUE); lia).
  eapply (runs_keyword w code _ (str_of "if") fn_if); [exact Hw|by apply (bool_decide_unpack _); vm_compute|reflexivity|exact Hs|].
  unfold call_primitive. apply fwp_bind, (fwp_stack_down _ _ [d; x] s); [done|]. cbn [reverse rev_append app].
  apply fwp_bind, fwp_stack_get_0. unfold r. destruct (x =? FORTH_TRUE); [by apply fwp_ret|].
  unfold fwp, stack_get. cbn [view k_stack k_sp].
  assert (E : znth (reverse s ++ x :: d :: g) (zlen s + 1) = Some d).
  { apply znth_Some. unfold zlen. split; [lia|]. rewrite lookup_app_r by (rewrite length_reverse; lia).
    rewrite length_reverse. by replace (Z.to_nat (Z.of_nat (length s) + 1) - length s)%nat with 1%nat by lia. }
  rewrite E. by cbn.
Qed.

Lemma rexec_room m : forall self frs cs st st', rexec m D self frs cs st = Some st' -> room frs st' = true.
Proof.
  induction m as [|m IHm]; intros sf fr cs st st' E; [done|]. cbn [rexec] in E.
  destruct (room fr st) eqn:Er; [|done]. cbn [negb] in E. destruct cs as [|c cs]; [by injection E as <-|].
  apply bind_Some in E as (st1 & _ & E). by eapply IHm.
Qed.

Lemma room_stack m sf fr cs st s' out' : rexec m D sf fr cs st = Some (s', out') -> (length s' <= 998)%nat /\ (length fr <= 23)%nat.
Proof. intros E%rexec_room. unfold room in E. apply andb_true_iff in E as [E1 E2]. by apply Nat.leb_le in E1, E2. Qed.

Lemma codes_small i ps qs : seg code i (ps ++ qs) -> 0 <= zlen ps <= MAX_COMPILE_WORDS.
Proof.
  intros [Hs _]%seg_app. pose proof (zlen_nonneg ps). destruct (seg_length _ _ _ Hs) as [Hl| ->]; [|done].
  pose proof (wh_small _ _ Hw). destruct Hs. lia.
Qed.

Lemma run_endif i s g ls lg out : seg code i [PWord resolve (str_of "endif")] ->
  runs w i (view st0 s g ls lg out) (i + 1) (view st0 s g ls lg out).
Proof.
  intros Hs. replace (i + 1) with (i + 0 + 1) by lia.
  eapply (runs_keyword w code _ (str_of "endif") fn_endif); [exact Hw|by apply (bool_decide_unpack _); vm_compute|reflexivity|exact Hs|].
  by apply fwp_ret.
Qed.

(** [elif]: the other branch, of [d] items, is passed over. *)
Lemma run_elif d i s y g ls lg out ps : 0 <= d <= MAX_COMPILE_WORDS ->
  seg code i (PItem BRANCH_TYPE (Some d) :: PWord resolve (str_of "elif") :: ps) ->
  runs w i (view st0 s (y :: g) ls lg out) (i + 2 + d) (view st0 s (d :: g) ls lg out).
Proof.
  intros Hd Hs. assert (Ed : s32 d = d) by (unfold MAX_COMPILE_WORDS in Hd; apply s32_id; lia).
  eapply runs_trans; [eapply runs_number; [exact Hw|by right|exact Hs]|]. rewrite Ed. apply seg_cons in Hs as [_ Hs].
  replace (i + 2 + d) with (i + 1 + d + 1) by lia.
  eapply (runs_keyword w code _ (str_of "elif") fn_elif); [exact Hw|by apply (bool_decide_unpack _); vm_compute|reflexivity|exact Hs|].
  by apply fwp_pop_int.
Qed.

Lemma run_branches yes no i x s g ls lg out s' out' : seg code i (ccode resolve (CIf yes no)) ->
  rexec n D self frs (if x =? FORTH_TRUE then yes else no) (s, out) = Some (s', out') ->
  stacks_ok frs (x :: s) g ls lg -> (length s <= 997)%nat ->
  exists st', leaves st0 frs ls s' out' st' /\
    runs w i (view st0 (x :: s) g ls lg out) (i + zlen (ccode resolve (CIf yes no))) st'.
Proof.
  intros Hs He [Hlen Hlp Hfr] Hroom. cbn [ccode] in *. fold (codes yes) (codes no) in *.
  pose proof Hs as [_ [_ Hyes]%seg_cons]%seg_cons. replace (i + 1 + 1) with (i + 2) in Hyes by lia.
  pose proof (codes_small _ _ _ Hyes) as Hsy. apply seg_app in Hyes as [Hy He1].
  pose proof He1 as [_ [_ Hno]%seg_cons]%seg_cons. pose proof (codes_small _ _ _ Hno) as Hsn.
  assert (Hlong : zlen (codes yes) + 2 <= MAX_COMPILE_WORDS).
  { destruct (seg_length _ _ _ He1) as [Hl|?]; [|done]. rewrite !zlen_cons in Hl. pose proof (zlen_nonneg (codes no ++ [PWord resolve (str_of "endif")])).
    pose proof (wh_small _ _ Hw). destruct Hs. lia. }
  apply seg_app in Hno as [Hn Hend].
  cbn [length] in Hlen. assert (Hlen' : (length s + length g = 999)%nat) by lia.
  destruct (run_if (zlen (codes yes) + 2) i x s g ls lg out _ Hlen' Hroom ltac:(lia) Hs) as (g1 & Hg1 & Hif).
  rewrite !zlen_cons, !zlen_app, !zlen_cons, !zlen_app, zlen_cons, zlen_nil.
  destruct (room_stack _ _ _ _ _ _ _ He) as [Hroom' _].
  assert (Hok1 : stacks_ok frs s g1 ls lg) by by split.
  destruct (x =? FORTH_TRUE).
  - destruct (IH _ _ _ _ _ _ _ He _ _ _ _ _ _ Hw Hself Hy Hok1) as (st' & (g2 & lg2 & -> & Hok2) & Hr).
    pose proof Hok2 as [Hl2 Hlp2 _]. destruct g2 as [|y g2]; [simpl in Hl2; lia|].
    eexists. split; [exists (zlen (codes no) :: g2), lg2; split; [done|by split]|].
    eapply runs_trans; [exact Hif|]. eapply runs_trans; [exact Hr|].
    eapply runs_trans; [eapply run_elif; [exact Hsn|exact He1]|].
    replace (i + (1 + (1 + (zlen (codes yes) + (1 + (1 + (zlen (codes no) + (1 + 0)))))))) with
      (i + 2 + zlen (codes yes) + 1 + 1 + zlen (codes no) + 1) by lia.
    replace (i + 2 + zlen (codes yes) + 2 + zlen (codes no)) with (i + 2 + zlen (codes yes) + 1 + 1 + zlen (codes no)) by lia.
    by apply run_endif.
  - destruct (IH _ _ _ _ _ _ _ He _ _ _ _ _ _ Hw Hself Hn Hok1) as (st' & (g2 & lg2 & -> & Hok2) & Hr).
    eexists. split; [by exists g2, lg2|].
    eapply runs_trans; [exact Hif|]. replace (i + 2 + (zlen (codes yes) + 2)) with (i + 2 + zlen (codes yes) + 1 + 1) by lia.
    eapply runs_trans; [exact Hr|].
    replace (i + (1 + (1 + (zlen (codes yes) + (1 + (1 + (zlen (codes no) + (1 + 0)))))))) with
      (i + 2 + zlen (codes yes) + 1 + 1 + zlen (codes no) + 1) by lia.
    by apply run_endif.
Qed.

Lemma run_when yes i x s g ls lg out s' out' : seg code i (ccode resolve (CWhen yes)) ->
  (if x =? FORTH_TRUE then rexec n D self frs yes (s, out) else Some (s, out)) = Some (s', out') ->
  stacks_ok frs (x :: s) g ls lg -> (length s <= 997)%nat ->
  exists st', leaves st0 frs ls s' out' st' /\
    runs w i (view st0 (x :: s) g ls lg out) (i + zlen (ccode resolve (CWhen yes))) st'.
Proof.
  intros Hs He [Hlen Hlp Hfr] Hroom. cbn [ccode] in *. fold (codes yes) in *.
  pose proof Hs as [_ [_ Hyes]%seg_cons]%seg_cons. replace (i + 1 + 1) with (i + 2) in Hyes by lia.
  pose proof (codes_small _ _ _ Hyes) as Hsy. apply seg_app in Hyes as [Hy Hend].
  cbn [length] in Hlen. assert (Hlen' : (length s + length g = 999)%nat) by lia.
  destruct (run_if (zlen (codes yes)) i x s g ls lg out _ Hlen' Hroom Hsy Hs) as (g1 & Hg1 & Hif).
  rewrite !zlen_cons, !zlen_app, zlen_cons, zlen_nil.
  replace (i + (1 + (1 + (zlen (codes yes) + (1 + 0))))) with (i + 2 + zlen (codes yes) + 1) by lia.
  assert (Hok1 : stacks_ok frs s g1 ls lg) by by split.
  destruct (x =? FORTH_TRUE).
  - destruct (IH _ _ _ _ _ _ _ He _ _ _ _ _ _ Hw Hself Hy Hok1) as (st' & (g2 & lg2 & -> & Hok2) & Hr).
    eexists. split; [by exists g2, lg2|]. eapply runs_trans; [exact Hif|]. eapply runs_trans; [exact Hr|]. by apply run_endif.
  - injection He as <- <-. eexists. split; [by exists g1, lg|]. eapply runs_trans; [exact Hif|]. by apply run_endif.
Qed.

(** The end of a [do] loop: one step of the index. *)
Lemma fwp_loop_end st1 i j limit l1 l2 s g ls lg out : int_of (i + 1) = Some j -> int_of (l1 - l2) = Some (l1 - l2) ->
  fwp (call_primitive fn_loop) (fun r st => r = (if j >=? limit then 0 else l1 - l2) /\
      exists lg', st = view st1 s g (if j >=? limit then ls else limit :: j :: l1 :: ls) lg' out /\
        (length lg' = if j >=? limit then 4 + length lg else 1 + length lg)%nat)
    (view st1 s g (l2 :: limit :: i :: l1 :: ls) lg out).
Proof.
  intros Hj Hl. unfold call_primitive. repeat fstep. destruct (j >=? limit).
  - repeat fstep. split; [done|]. by eexists.
  - repeat fstep. split; [done|]. by eexists.
Qed.

Lemma label_diff i k : 0 <= i <= MAX_COMPILE_WORDS -> 0 <= k <= MAX_COMPILE_WORDS -> int_of (i - k) = Some (i - k).
Proof. unfold MAX_COMPILE_WORDS. intros. apply int_of_small. lia. Qed.

Lemma run_do_loop body i ls rest : (length frs <= 23)%nat -> frames_are frs ls -> 0 <= i <= MAX_COMPILE_WORDS ->
  seg code (i + 2) (codes body ++ PItem LABEL_TYPE None :: PWord resolve (str_of "loop") :: rest) ->
  forall m idx limit s out s' out' g lg,
  do_loop (fun frs => rexec n D self frs body) frs m idx limit (s, out) = Some (s', out') ->
  (length s + length g = 1000)%nat -> (length ls + length lg = 97)%nat ->
  exists st', leaves st0 frs ls s' out' st' /\
    runs w (i + 2) (view st0 s g (limit :: idx :: i :: ls) lg out) (i + 2 + zlen (codes body) + 2) st'.
Proof.
  intros Hfr Hls Hi Hs. pose proof (frames_length _ _ Hls) as Hl92.
  pose proof (proj1 (seg_app _ _ _ _) Hs) as [Hb Hend]. pose proof Hend as [_ Hloop]%seg_cons.
  induction m as [|m IHm]; intros idx limit s out s' out' g lg He Hg Hlg; [done|].
  cbn [do_loop] in He. apply bind_Some in He as ([s1 out1] & He1 & He). apply bind_Some in He as (j & Hj & He).
  assert (Hok : stacks_ok (DoFrame idx limit :: frs) s g (limit :: idx :: i :: ls) lg).
  { split; [done|cbn [length]; lia|]. by exists i, ls. }
  destruct (IH _ _ _ _ _ _ _ He1 _ _ _ _ _ _ Hw Hself Hb Hok) as (st' & (g1 & lg1 & -> & Hok1) & Hr).
  destruct Hok1 as [Hg1 Hlg1 _]. cbn [length] in Hlg1. destruct lg1 as [|y lg1]; [simpl in Hlg1; lia|].
  set (k := i + 2 + zlen (codes body)) in *.
  assert (Hk : 0 <= k <= MAX_COMPILE_WORDS).
  { destruct (seg_length _ _ _ Hend) as [Hl|?]; [|done]. rewrite !zlen_cons in Hl. pose proof (zlen_nonneg rest).
    pose proof (wh_small _ _ Hw). destruct Hend. lia. }
  pose proof (fwp_loop_end st0 idx j limit i k s1 g1 ls lg1 out1 Hj (label_diff _ _ Hi Hk)) as Hf.
  apply fwp_run in Hf as (r & st2 & E & -> & lg2 & -> & Hlg2).
  assert (Hrun : forall st3, st3 = view st0 s1 g1 (if j >=? limit then ls else limit :: j :: i :: ls) lg2 out1 ->
    runs w (i + 2) (view st0 s g (limit :: idx :: i :: ls) lg out) (k + 1 + (if j >=? limit then 0 else i - k) + 1) st3).
  { intros st3 ->. eapply runs_trans; [exact Hr|]. eapply runs_trans; [eapply runs_label_here; [exact Hw|exact Hend]|].
    eapply (runs_keyword w code _ (str_of "loop") fn_loop); [exact Hw|by apply (bool_decide_unpack _); vm_compute|reflexivity|exact Hloop|].
    eapply fwp_intro; [exact E|done]. }
  destruct (j >=? limit).
  - injection He as <- <-. eexists. split; [|replace (k + 2) with (k + 1 + 0 + 1) by lia; by apply Hrun].
    exists g1, lg2. split; [done|]. split; [done|cbn [length] in Hlg1; lia|done].
  - assert (Hlg2' : (length ls + length lg2 = 97)%nat) by (cbn [length] in Hlg1; lia).
    destruct (IHm j limit s1 out1 s' out' g1 lg2 He Hg1 Hlg2') as (st' & Hlv & Hr2).
    exists st'. split; [done|]. eapply runs_trans; [by apply Hrun|].
    by replace (k + 1 + (i - k) + 1) with (i + 2) by lia.
Qed.

Lemma run_do body i a b s g ls lg out s' out' : seg code i (ccode resolve (CDo body)) -> (length frs <= 23)%nat ->
  do_loop (fun frs => rexec n D self frs body) frs n a b (s, out) = Some (s', out') ->
  stacks_ok frs (a :: b :: s) g ls lg ->
  exists st', leaves st0 frs ls s' out' st' /\
    runs w i (view st0 (a :: b :: s) g ls lg out) (i + zlen (ccode resolve (CDo body))) st'.
Proof.
  intros Hs Hfr He [Hlen Hlp Hls]. cbn [ccode] in *. fold (codes body) in *. cbn [length] in Hlen.
  pose proof (frames_length _ _ Hls) as Hl92. destruct lg as [|y1 [|y2 [|y3 lg]]]; cbn [length] in Hlp; try lia.
  pose proof Hs as [_ Hs1]%seg_cons. pose proof Hs1 as [_ Hs2]%seg_cons. replace (i + 1 + 1) with (i + 2) in Hs2 by lia.
  assert (Hi : 0 <= i <= MAX_COMPILE_WORDS).
  { destruct (seg_length _ _ _ Hs) as [Hl|?]; [|done]. pose proof (wh_small _ _ Hw). rewrite zlen_cons in Hl. destruct Hs.
    pose proof (zlen_nonneg (PWord resolve (str_of "do") :: codes body ++ [PItem LABEL_TYPE None; PWord resolve (str_of "loop")])). lia. }
  assert (Hg : (length s + length (reverse [a; b] ++ g) = 1000)%nat) by (cbn; lia).
  assert (Hlg : (length ls + length lg = 97)%nat) by lia.
  destruct (run_do_loop body i ls [] Hfr Hls Hi Hs2 n a b s out s' out' (reverse [a; b] ++ g) lg He Hg Hlg) as (st' & Hlv & Hr).
  exists st'. split; [done|]. rewrite !zlen_cons, zlen_app, !zlen_cons, zlen_nil.
  eapply runs_trans; [eapply runs_label_here; [exact Hw|exact Hs]|].
  replace (i + (1 + (1 + (zlen (codes body) + (1 + (1 + 0)))))) with (i + 2 + zlen (codes body) + 2) by lia.
  eapply runs_trans; [|exact Hr]. replace (i + 2) with (i + 1 + 0 + 1) by lia.
  eapply (runs_keyword w code _ (str_of "do") fn_do); [exact Hw|by apply (bool_decide_unpack _); vm_compute|reflexivity|exact Hs1|].
  unfold call_primitive. by repeat fstep.
Qed.

(** The end of a [for] loop. *)
Lemma fwp_forloop_end st1 a b c x l1 l2 s g ls lg out : int_of (a + c) = Some x -> int_of (l1 - l2) = Some (l1 - l2) ->
  let over := ((a <=? b) && (x >=? b)) || ((a >=? b) && (x <=? b)) in
  fwp (call_primitive fn_for_loop) (fun r st => r = (if over then 0 else l1 - l2) /\
      exists lg', st = view st1 s g (if over then ls else x :: b :: c :: l1 :: ls) lg' out /\
        (length lg' = if over then 5 + length lg else 1 + length lg)%nat)
    (view st1 s g (l2 :: a :: b :: c :: l1 :: ls) lg out).
Proof.
  intros Hx Hl over. unfold call_primitive. repeat fstep. fold over. destruct over.
  - repeat fstep. split; [done|]. by eexists.
  - repeat fstep. split; [done|]. by eexists.
Qed.

Lemma run_for_loop body i ls rest : (length frs <= 23)%nat -> frames_are frs ls -> 0 <= i <= MAX_COMPILE_WORDS ->
  seg code (i + 2) (codes body ++ PItem LABEL_TYPE None :: PWord resolve (str_of "forloop") :: rest) ->
  forall m c b a s out s' out' g lg,
  for_loop (fun frs => rexec n D self frs body) frs m c b a (s, out) = Some (s', out') ->
  (length s + length g = 1000)%nat -> (length ls + length lg = 96)%nat ->
  exists st', leaves st0 frs ls s' out' st' /\
    runs w (i + 2) (view st0 s g (a :: b :: c :: i :: ls) lg out) (i + 2 + zlen (codes body) + 2) st'.
Proof.
  intros Hfr Hls Hi Hs. pose proof (frames_length _ _ Hls) as Hl92.
  pose proof (proj1 (seg_app _ _ _ _) Hs) as [Hb Hend]. pose proof Hend as [_ Hloop]%seg_cons.
  induction m as [|m IHm]; intros c b a s out s' out' g lg He Hg Hlg; [done|].
  cbn [for_loop] in He. apply bind_Some in He as ([s1 out1] & He1 & He). apply bind_Some in He as (x & Hx & He).
  assert (Hok : stacks_ok (ForFrame c b a :: frs) s g (a :: b :: c :: i :: ls) lg).
  { split; [done|cbn [length]; lia|]. by exists i, ls. }
  destruct (IH _ _ _ _ _ _ _ He1 _ _ _ _ _ _ Hw Hself Hb Hok) as (st' & (g1 & lg1 & -> & Hok1) & Hr).
  destruct Hok1 as [Hg1 Hlg1 _]. cbn [length] in Hlg1. destruct lg1 as [|y lg1]; [simpl in Hlg1; lia|].
  set (k := i + 2 + zlen (codes body)) in *.
  assert (Hk : 0 <= k <= MAX_COMPILE_WORDS).
  { destruct (seg_length _ _ _ Hend) as [Hl|?]; [|done]. rewrite !zlen_cons in Hl. pose proof (zlen_nonneg rest).
    pose proof (wh_small _ _ Hw). destruct Hend. lia. }
  pose proof (fwp_forloop_end st0 a b c x i k s1 g1 ls lg1 out1 Hx (label_diff _ _ Hi Hk)) as Hf.
  set (over := ((a <=? b) && (x >=? b)) || ((a >=? b) && (x <=? b))) in *.
  apply fwp_run in Hf as (r & st2 & E & -> & lg2 & -> & Hlg2).
  assert (Hrun : forall st3, st3 = view st0 s1 g1 (if over then ls else x :: b :: c :: i :: ls) lg2 out1 ->
    runs w (i + 2) (view st0 s g (a :: b :: c :: i :: ls) lg out) (k + 1 + (if over then 0 else i - k) + 1) st3).
  { intros st3 ->. eapply runs_trans; [exact Hr|]. eapply runs_trans; [eapply runs_label_here; [exact Hw|exact Hend]|].
    eapply (runs_keyword w code _ (str_of "forloop") fn_for_loop); [exact Hw|by apply (bool_decide_unpack _); vm_compute|reflexivity|exact Hloop|].
    eapply fwp_intro; [exact E|done]. }
  destruct over.
  - injection He as <- <-. eexists. split; [|replace (k + 2) with (k + 1 + 0 + 1) by lia; by apply Hrun].
    exists g1, lg2. split; [done|]. split; [done|cbn [length] in Hlg1; lia|done].
  - assert (Hlg2' : (length ls + length lg2 = 96)%nat) by (cbn [length] in Hlg1; lia).
    destruct (IHm c b x s1 out1 s' out' g1 lg2 He Hg1 Hlg2') as (st' & Hlv & Hr2).
    exists st'. split; [done|]. eapply runs_trans; [by apply Hrun|].
    by replace (k + 1 + (i - k) + 1) with (i + 2) by lia.
Qed.

Lemma run_for body i c b a s g ls lg out s' out' : seg code i (ccode resolve (CFor body)) -> (length frs <= 23)%nat ->
  for_loop (fun frs => rexec n D self frs body) frs n c b a (s, out) = Some (s', out') ->
  stacks_ok frs (c :: b :: a :: s) g ls lg ->
  exists st', leaves st0 frs ls s' out' st' /\
    runs w i (view st0 (c :: b :: a :: s) g ls lg out) (i + zlen (ccode resolve (CFor body))) st'.
Proof.
  intros Hs Hfr He [Hlen Hlp Hls]. cbn [ccode] in *. fold (codes body) in *. cbn [length] in Hlen.
  pose proof (frames_length _ _ Hls) as Hl92. destruct lg as [|y1 [|y2 [|y3 [|y4 lg]]]]; cbn [length] in Hlp; try lia.
  pose proof Hs as [_ Hs1]%seg_cons. pose proof Hs1 as [_ Hs2]%seg_cons. replace (i + 1 + 1) with (i + 2) in Hs2 by lia.
  assert (Hi : 0 <= i <= MAX_COMPILE_WORDS).
  { destruct (seg_length _ _ _ Hs) as [Hl|?]; [|done]. pose proof (wh_small _ _ Hw). rewrite zlen_cons in Hl. destruct Hs.
    pose proof (zlen_nonneg (PWord resolve (str_of "for") :: codes body ++ [PItem LABEL_TYPE None; PWord resolve (str_of "forloop")])). lia. }
  assert (Hg : (length s + length (a :: b :: c :: g) = 1000)%nat) by (cbn; lia).
  assert (Hlg : (length ls + length lg = 96)%nat) by lia.
  destruct (run_for_loop body i ls [] Hfr Hls Hi Hs2 n c b a s out s' out' (a :: b :: c :: g) lg He Hg Hlg) as (st' & Hlv & Hr).
  exists st'. split; [done|]. rewrite !zlen_cons, zlen_app, !zlen_cons, zlen_nil.
  eapply runs_trans; [eapply runs_label_here; [exact Hw|exact Hs]|].
  replace (i + (1 + (1 + (zlen (codes body) + (1 + (1 + 0)))))) with (i + 2 + zlen (codes body) + 2) by lia.
  eapply runs_trans; [|exact Hr]. replace (i + 2) with (i + 1 + 0 + 1) by lia.
  eapply (runs_keyword w code _ (str_of "for") fn_for); [exact Hw|by apply (bool_decide_unpack _); vm_compute|reflexivity|exact Hs1|].
  unfold call_primitive. by repeat fstep.
Qed.

(** A primitive. *)
Lemma run_prim x f i s g ls lg out s' o : find_def x D = None -> find_prim x = Some f -> seg code i [PWord resolve x] ->
  prim_sem f frs s = Some (s', o) -> stacks_ok frs s g ls lg -> (length s <= 998)%nat ->
  exists st', leaves st0 frs ls s' (out ++ o) st' /\ runs w i (view st0 s g ls lg out) (i + 1) st'.
Proof.
  intros Hx Hf Hs He Hok Hroom. pose proof (prim_ok f frs st0 s g ls lg out s' o He Hok Hroom) as Hp.
  apply fwp_run in Hp as (r & st' & E & -> & Hl). exists st'. split; [done|].
  destruct (item_view _ _ _ _ _ s g ls lg out Hw Hs) as (it & Hit & Ha & _). apply fits_data in Hit as ->.
  replace (i + 1) with (i + 0 + 1) by lia. eapply runs_word; [exact Ha|].
  eapply calls_keyword; [done|done|]. by eapply fwp_intro.
Qed.

(** One command. *)
Definition run_one (c : com) (st : rstate) : option rstate :=
  match c with
  | CNum t => x ← atoi t; Some (x :: st.1, st.2)
  | CStr s => if no_zero s then Some (st.1, st.2 ++ [OText s]) else None
  | CWord x =>
      match find_def x D with
      | Some body => rexec n D (Some body) frs body st
      | None => f ← find_prim x; '(s, out) ← prim_sem f frs st.1; Some (s, st.2 ++ out)
      end
  | CRec => body ← self; rexec n D self frs body st
  | CIf yes no =>
      match st.1 with
      | x :: s => rexec n D self frs (if x =? FORTH_TRUE then yes else no) (s, st.2)
      | [] => None
      end
  | CWhen yes =>
      match st.1 with
      | x :: s => if x =? FORTH_TRUE then rexec n D self frs yes (s, st.2) else Some (s, st.2)
      | [] => None
      end
  | CDo body =>
      match st.1 with
      | i :: limit :: s => do_loop (fun frs => rexec n D self frs body) frs n i limit (s, st.2)
      | _ => None
      end
  | CFor body =>
      match st.1 with
      | c :: b :: a :: s => for_loop (fun frs => rexec n D self frs body) frs n c b a (s, st.2)
      | _ => None
      end
  end.

Lemma run_one_ok c i s g ls lg out s' out' : seg code i (ccode resolve c) ->
  run_one c (s, out) = Some (s', out') -> stacks_ok frs s g ls lg -> (length s <= 998)%nat -> (length frs <= 23)%nat ->
  exists st', leaves st0 frs ls s' out' st' /\ runs w i (view st0 s g ls lg out) (i + zlen (ccode resolve c)) st'.
Proof.
  intros Hs He Hok Hroom Hfr. pose proof Hok as [Hlen Hlp Hls]. destruct c as [t|x|str| |yes no|yes|body|body]; cbn [run_one fst snd] in He.
  - cbn [ccode] in *. apply bind_Some in He as (x & Hx & [= <- <-]). rewrite Hx in Hs. destruct g as [|y g]; [simpl in Hlen; lia|].
    assert (Es : s32 (u64 x) = x).
    { apply s32_u64. unfold atoi in Hx. by apply int_of_Some in Hx as [-> ?]. }
    eexists. split; [exists g, lg; split; [done|split; [simpl in *; lia|done|done]]|].
    rewrite Hx. rewrite <- Es at 2. eapply runs_number; [exact Hw|by left|exact Hs].
  - cbn [ccode] in *. destruct (find_def x D) as [body|] eqn:Hx; [by eapply run_word|].
    apply bind_Some in He as (f & Hf & He). apply bind_Some in He as ([s1 o] & Hp & [= <- <-]). by eapply run_prim.
  - destruct (no_zero str) eqn:Hz; [|done]. injection He as <- <-. eexists. split; [by exists g, lg|].
    eapply runs_string; [exact Hw| |exact Hs]. unfold no_zero in Hz. rewrite forallb_forall in Hz.
    apply Forall_forall. intros c Hc. specialize (Hz c Hc). lia.
  - cbn [ccode] in *. apply bind_Some in He as (body & Hb & He). by eapply run_recursive.
  - destruct s as [|x s]; [done|]. eapply run_branches; [exact Hs|exact He|done|simpl in Hroom; lia].
  - destruct s as [|x s]; [done|]. eapply run_when; [exact Hs|exact He|done|simpl in Hroom; lia].
  - destruct s as [|a [|b s]]; [done..|]. by eapply run_do.
  - destruct s as [|a [|b [|c s]]]; [done..|]. by eapply run_for.
Qed.

End step.

Lemma exec_ok n : exec_spec n.
Proof.
  induction n as [|n IH]; intros self frs cs s out s' out' He w code i g ls lg Hw Hself Hs Hok; [done|].
  cbn [rexec] in He. destruct (room frs (s, out)) eqn:Hroom; [|done]. cbn [negb] in He.
  apply andb_true_iff in Hroom as [Hr1 Hr2]. apply Nat.leb_le in Hr1, Hr2. cbn [fst] in Hr1.
  destruct cs as [|c cs].
  - injection He as <- <-. eexists. split; [by exists g, lg|]. cbn. rewrite Z.add_0_r. apply runs_refl.
  - change (concat (map (ccode resolve) (c :: cs))) with (ccode resolve c ++ codes cs).
    change (codes (c :: cs)) with (ccode resolve c ++ codes cs) in *.
    apply seg_app in Hs as [Hc Hcs]. apply bind_Some in He as ([s1 out1] & He1 & He).
    assert (He1' : run_one n self frs c (s, out) = Some (s1, out1)) by exact He1.
    destruct (run_one_ok n IH self frs w code Hw Hself c i s g ls lg out s1 out1 Hc He1' Hok Hr1 Hr2)
      as (st1 & (g1 & lg1 & -> & Hok1) & Hrun1).
    destruct (IH _ _ _ _ _ _ _ He _ _ _ _ _ _ Hw Hself Hcs Hok1) as (st' & Hl & Hrun).
    exists st'. split; [done|]. rewrite zlen_app, Z.add_assoc. by eapply runs_trans.
Qed.

(** A statement that was compiled to [new_word_list] is executed. *)
Lemma execute_statement n cs s g ls lg out s' out' : rexec n D None [] cs (s, out) = Some (s', out') ->
  zlen (k_new_word_list st0) = MAX_COMPILE_WORDS -> seg (k_new_word_list st0) 0 (codes cs ++ [PEnd]) ->
  stacks_ok [] s g ls lg ->
  exists st' fuel0, leaves st0 [] ls s' out' st' /\
    forall fuel, (fuel0 <= fuel)%nat -> execute_word fuel Temp (view st0 s g ls lg out) = Some (0, st').
Proof.
  intros He Hlen Hseg Hok. assert (Hw : word_here Temp (k_new_word_list st0)) by (split; [done|done|lia]).
  assert (Hself : forall b, None = Some b -> seg (k_new_word_list st0) 0 (codes b ++ [PEnd])) by done.
  destruct (calls_body n None [] cs s out s' out' Temp _ g ls lg (exec_ok n) He Hw Hself Hseg Hok) as (st' & Hl & k & Hc).
  by exists st', k.
Qed.

End exec.
