(* ===== verification/KforthRead.v ===== *)
(** The kforth compiler turns the text of a structured program into its code. *)
From Stdlib Require Import Ascii String.
From S2P Require Import Prelude CText Kforth KforthCompile KforthRef KforthRun KforthCode.

(** * Tokens *)

(** What can be typed as a word: no blank, zero or opening quote. *)
Definition word_char (c : Z) : bool := negb (c =? 0) && negb (c =? 32).
Definition word_ok (t : bytes) : bool :=
  match t with c :: _ => negb (c =? 34) && forallb word_char t | [] => false end.
(** A string without quotes, backslashes and control characters; a period would
    make it a number. *)
Definition string_char (c : Z) : bool := (32 <=? c) && negb (existsb (Z.eqb c) [34; 92; 46]).
Definition token_ok (t : token) : bool :=
  match t with TWord t => word_ok t | TStr s => forallb string_char s end.
(** The token in the buffer: the closing quote is overwritten. *)
Definition token_string (t : token) : bytes := match t with TWord t => t | TStr s => 34 :: s end.

Lemma at_upd_app txt p a x b y : at_text txt p (a ++ x :: b) -> exists txt',
  zupd txt (p + zlen a) y = Some txt' /\ at_text txt' p (a ++ y :: b) /\ length txt' = length txt.
Proof.
  intros Ha. pose proof (at_app _ _ _ _ Ha) as Hx. destruct (at_upd _ _ _ _ y Hx) as (txt' & Hu & Hx' & Hl).
  exists txt'. split; [done|]. split; [|done]. destruct Ha as [Hp Ha]. split; [done|].
  pose proof (znth_Some_range _ _ _ (at_head _ _ _ _ Hx)) as Hr.
  rewrite zupd_in_range in Hu by done. injection Hu as <-. unfold zlen in *.
  apply at_tail in Hx as [_ Hb]. rewrite !Z2Nat.inj_add, Nat2Z.id in * by lia.
  rewrite insert_take_drop by lia. rewrite drop_app_le by (rewrite length_take; lia).
  rewrite <- take_drop_commute, Ha, take_app_length. f_equal. f_equal. rewrite <- Hb. f_equal. lia.
Qed.

Lemma word_ok_spec t : word_ok t = true -> t <> [] /\ Forall (fun c => negb (c =? 0) && negb (c =? 32) = true) t /\
  (forall c s, t = c :: s -> c <> 34).
Proof.
  unfold word_ok. destruct t as [|c t]; [done|]. intros [Hc Ht]%andb_true_iff. split; [done|]. split.
  - apply Forall_forall. rewrite forallb_forall in Ht. intros x Hx. by apply Ht.
  - intros ? ? [= -> ->]. lia.
Qed.

Lemma until_zero_end s rest : Forall (fun c => c <> 0) s -> until_zero (s ++ 0 :: rest) = s.
Proof. induction 1 as [|c s Hc _ IH]; [done|]. cbn [app until_zero]. zif_false. by rewrite IH. Qed.

Lemma c_string_at txt p s rest : Forall (fun c => c <> 0) s -> at_text txt p (s ++ 0 :: rest) -> c_string txt p = Some s.
Proof.
  intros Hs Ha. rewrite (c_string_spec _ _ _ Ha); [by rewrite until_zero_end|]. apply elem_of_app. right. left.
Qed.

Lemma get_token_word t c rest txt p st : word_ok t = true -> c = 32 \/ c = 0 -> at_text txt p (t ++ c :: rest) ->
  exists txt' p', get_token txt p st = Some ((Some p, txt', p'), st) /\ c_string txt' p = Some t /\
    at_text txt' p' (if c =? 32 then rest else 0 :: rest) /\ length txt' = length txt /\ (c = 32 -> p' = p + zlen t + 1).
Proof.
  intros (Hne & Hall & Hq)%word_ok_spec Hc Ha.
  assert (Hz : Forall (fun c => c <> 0) t) by (eapply Forall_impl; [|exact Hall]; cbn; intros; lia).
  assert (Hhd : exists x, znth txt p = Some x /\ (x =? 0) = false /\ (x =? 34) = false).
  { destruct t as [|x t]; [done|]. exists x. split; [by eapply at_head|]. apply Forall_cons_1 in Hz as [Hx _].
    specialize (Hq _ _ eq_refl). lia. }
  destruct Hhd as (x & Hx & Ex0 & Exq).
  assert (Hskip : skip (fun c => negb (c =? 0) && negb (c =? 32)) txt p = Some (p + zlen t)).
  { eapply skip_spec; [exact Ha|done|]. destruct Hc as [-> | ->]; done. }
  pose proof (at_head _ _ _ _ (at_app _ _ _ _ Ha)) as Hch.
  unfold get_token. rewrite (fbind _ _ _ x st) by (unfold flift; by rewrite Hx). rewrite Ex0, Exq.
  rewrite (fbind _ _ _ (p + zlen t) st) by (unfold flift; by rewrite Hskip).
  rewrite (fbind _ _ _ c st) by (unfold flift; by rewrite Hch).
  destruct Hc as [-> | ->]; cbn [Z.eqb Pos.eqb].
  - destruct (at_upd_app _ _ _ _ _ 0 Ha) as (txt' & Hu & Ha' & Hl). exists txt', (p + zlen t + 1).
    rewrite (fbind _ _ _ txt' st) by (unfold flift; by rewrite Hu). split; [done|]. split; [by eapply c_string_at|].
    split; [|done]. apply (at_tail _ _ 0). by apply at_app.
  - exists txt, (p + zlen t). split; [done|]. split; [by eapply c_string_at|]. split; [by apply at_app|by split].
Qed.

Lemma quote_loop_spec txt s : forall fuel p b rest, Forall (fun c => c <> 0 /\ c <> 34 /\ c <> 92) s -> b <> 92 ->
  at_text txt p (b :: s ++ 34 :: rest) -> (length s < fuel)%nat -> quote_loop fuel txt (p + 1) = Some (p + 1 + zlen s).
Proof.
  induction s as [|c s IH]; intros fuel p b rest Hs Hb Ha Hf; (destruct fuel as [|fuel]; [simpl in Hf; lia|]);
    pose proof (at_tail _ _ _ _ Ha) as Ht; cbn [quote_loop]; rewrite (at_head _ _ _ _ Ht); cbn [mbind option_bind].
  - cbn [Z.eqb Pos.eqb]. replace (p + 1 - 1) with p by lia. rewrite (at_head _ _ _ _ Ha). cbn.
    replace (negb (b =? 92)) with true by lia. rewrite zlen_nil. f_equal. lia.
  - apply Forall_cons_1 in Hs as [(Hc0 & Hcq & Hcb) Hs]. zif_false. zif_false. cbn.
    rewrite (IH fuel (p + 1) c rest); [rewrite zlen_cons; f_equal; lia|done|done|done|simpl in Hf; lia].
Qed.

Lemma get_token_str s c rest txt p st : forallb string_char s = true -> c = 32 \/ c = 0 ->
  at_text txt p (34 :: s ++ 34 :: c :: rest) ->
  exists txt' p', get_token txt p st = Some ((Some p, txt', p'), st) /\ c_string txt' p = Some (34 :: s) /\
    at_text txt' p' (if c =? 32 then rest else 0 :: rest) /\ length txt' = length txt.
Proof.
  intros Hs Hc Ha.
  assert (Hall : Forall (fun c => c <> 0 /\ c <> 34 /\ c <> 92) s).
  { apply Forall_forall. rewrite forallb_forall in Hs. intros x Hx. specialize (Hs x Hx). unfold string_char in Hs.
    cbn [existsb] in Hs. lia. }
  assert (Hz : Forall (fun c => c <> 0) (34 :: s)).
  { constructor; [done|]. eapply Forall_impl; [|exact Hall]. cbn. intros; lia. }
  unfold get_token. rewrite (fbind _ _ _ 34 st) by (unfold flift; by rewrite (at_head _ _ _ _ Ha)). cbn [Z.eqb Pos.eqb].
  assert (Hql : quote_loop (text_fuel txt) txt (p + 1) = Some (p + 1 + zlen s)).
  { eapply (quote_loop_spec txt s _ p 34); [done|done|exact Ha|]. apply at_length in Ha. simpl in Ha.
    rewrite length_app in Ha. unfold text_fuel. lia. }
  rewrite (fbind _ _ _ (p + 1 + zlen s) st) by (unfold flift; by rewrite Hql).
  pose proof (at_app _ _ (34 :: s) _ Ha) as Hq. rewrite zlen_cons in Hq. replace (p + (1 + zlen s)) with (p + 1 + zlen s) in Hq by lia.
  rewrite (fbind _ _ _ 34 st) by (unfold flift; by rewrite (at_head _ _ _ _ Hq)). cbn [Z.eqb Pos.eqb].
  destruct (at_upd_app txt p (34 :: s) 34 (c :: rest) 0 Ha) as (txt1 & Hu1 & Ha1 & Hl1).
  rewrite zlen_cons in Hu1. replace (p + (1 + zlen s)) with (p + 1 + zlen s) in Hu1 by lia.
  rewrite (fbind _ _ _ txt1 st) by (unfold flift; by rewrite Hu1).
  pose proof (at_app _ _ (34 :: s) _ Ha1) as Hq1. rewrite zlen_cons in Hq1. replace (p + (1 + zlen s)) with (p + 1 + zlen s) in Hq1 by lia.
  pose proof (at_tail _ _ _ _ Hq1) as Hc1. rewrite (fbind _ _ _ c st) by (unfold flift; by rewrite (at_head _ _ _ _ Hc1)).
  destruct Hc as [-> | ->]; cbn [Z.eqb Pos.eqb].
  - assert (Ha1' : at_text txt1 p (((34 :: s) ++ [0]) ++ 32 :: rest)) by by rewrite <- app_assoc.
    destruct (at_upd_app txt1 p _ _ _ 0 Ha1') as (txt2 & Hu2 & Ha2 & Hl2).
    rewrite zlen_app, !zlen_cons, zlen_nil in Hu2. replace (p + (1 + zlen s + (1 + 0))) with (p + 1 + zlen s + 1) in Hu2 by lia.
    exists txt2, (p + 1 + zlen s + 2). rewrite (fbind _ _ _ txt2 st) by (unfold flift; by rewrite Hu2).
    split; [done|]. split; [eapply c_string_at; [done|]; rewrite <- app_assoc in Ha2; exact Ha2|]. split; [|congruence].
    apply (at_app _ _ _ (0 :: rest)) in Ha2. rewrite zlen_app, !zlen_cons, zlen_nil in Ha2. apply at_tail in Ha2.
    by replace (p + (1 + zlen s + (1 + 0)) + 1) with (p + 1 + zlen s + 2) in Ha2 by lia.
  - exists txt1, (p + 1 + zlen s + 1). split; [done|]. split; [by eapply c_string_at|]. by split.
Qed.

Lemma get_token_spelled t ts s txt p st : token_ok t = true -> spelled (t :: ts) s -> at_text txt p s ->
  exists txt' p' s', get_token txt p st = Some ((Some p, txt', p'), st) /\ c_string txt' p = Some (token_string t) /\
    at_text txt' p' s' /\ spelled ts s' /\ length txt' = length txt.
Proof.
  intros Ht Hs Ha.
  assert (H : forall c rest, c = 32 \/ c = 0 -> at_text txt p (token_text t ++ c :: rest) -> exists txt' p',
    get_token txt p st = Some ((Some p, txt', p'), st) /\ c_string txt' p = Some (token_string t) /\
    at_text txt' p' (if c =? 32 then rest else 0 :: rest) /\ length txt' = length txt).
  { intros c rest Hc Hat. destruct t as [t|str]; cbn [token_text token_string] in *.
    - destruct (get_token_word t c rest txt p st Ht Hc Hat) as (txt' & p' & H1 & H2 & H3 & H4 & _). by exists txt', p'.
    - apply (get_token_str str c rest); [done|done|]. cbn [app] in Hat. by rewrite <- app_assoc in Hat. }
  inversion Hs as [|t0 junk|t0 ts0 s0 Hs0]; subst.
  - destruct (H 0 junk (or_intror eq_refl) Ha) as (txt' & p' & E & Hc & Hat & Hl).
    exists txt', p', (0 :: junk). split; [done|]. split; [done|]. split; [done|]. split; [constructor|done].
  - destruct (H 32 s0 (or_introl eq_refl) Ha) as (txt' & p' & E & Hc & Hat & Hl).
    exists txt', p', s0. done.
Qed.

Lemma get_token_end txt p st s : spelled [] s -> at_text txt p s -> get_token txt p st = Some ((None, txt, p), st).
Proof.
  intros Hs Ha. inversion Hs; subst. unfold get_token.
  by rewrite (fbind _ _ _ 0 st) by (unfold flift; by rewrite (at_head _ _ _ _ Ha)).
Qed.

(** * Code that is being written *)

Definition with_code (code : list word_list_item) (st : kforth_t) : kforth_t := set_new_word_list code st.

Definition same_below (m : Z) (code code' : list word_list_item) : Prop :=
  length code' = length code /\ forall k, k < m -> znth code' k = znth code k.

Lemma same_below_refl m code : same_below m code code.
Proof. by split. Qed.
Lemma same_below_trans m m' c1 c2 c3 : m <= m' -> same_below m c1 c2 -> same_below m' c2 c3 -> same_below m c1 c3.
Proof. intros Hm [L1 H1] [L2 H2]. split; [congruence|]. intros k Hk. rewrite H2 by lia. by apply H1. Qed.

(** One item is stored. *)
Definition put (i : Z) (it : word_list_item) (code : list word_list_item) : list word_list_item := <[Z.to_nat i := it]> code.

Lemma put_other i it code k : 0 <= i -> k <> i -> znth (put i it code) k = znth code k.
Proof. intros Hi Hk. unfold znth, put. destruct (k <? 0) eqn:E; [done|]. zbool. apply list_lookup_insert_ne. lia. Qed.
Lemma put_same i it code : 0 <= i < zlen code -> znth (put i it code) i = Some it.
Proof. intros Hi. unfold znth, put, zlen in *. zif_false. apply list_lookup_insert_eq. lia. Qed.
Lemma put_length i it code : zlen (put i it code) = zlen code.
Proof. unfold put, zlen. by rewrite length_insert. Qed.
Lemma same_below_put m i it code : 0 <= m <= i -> same_below m code (put i it code).
Proof. intros Hi. split; [apply length_insert|]. intros k Hk. apply put_other; lia. Qed.

Lemma same_below_put2 m i j a b code : 0 <= m <= i -> m <= j -> same_below m code (put i a (put j b code)).
Proof.
  intros Hi Hj. eapply (same_below_trans m m _ (put j b code)); [lia|apply same_below_put; lia|apply same_below_put; lia].
Qed.

Lemma seg_frame code code' ps : forall i, seg code i ps ->
  (forall k, i <= k < i + zlen ps -> znth code' k = znth code k) -> seg code' i ps.
Proof.
  induction ps as [|p ps IH]; intros i Hs Hk; [apply seg_nil; apply Hs|].
  rewrite zlen_cons in Hk. pose proof (zlen_nonneg ps). apply seg_cons in Hs as [(it & Hit & Hf) Hs].
  apply seg_cons. split; [exists it; split; [rewrite Hk by lia; done|done]|]. apply IH; [done|]. intros k Hk'. apply Hk. lia.
Qed.
Lemma seg_below m code code' i ps : same_below m code code' -> i + zlen ps <= m -> seg code i ps -> seg code' i ps.
Proof. intros [_ H] Hm Hs. eapply seg_frame; [exact Hs|]. intros k Hk. apply H. lia. Qed.
Lemma seg_put code i ps j it : 0 <= j -> j < i \/ i + zlen ps <= j -> seg code i ps -> seg (put j it code) i ps.
Proof. intros Hj Hij Hs. eapply seg_frame; [exact Hs|]. intros k Hk. apply put_other; lia. Qed.
Lemma seg_item code i p it ps : znth code i = Some it -> fits p it -> seg code (i + 1) ps -> seg code i (p :: ps).
Proof. intros Hi Hf Hs. apply seg_cons. split; [by exists it|done]. Qed.

Section compiling.
Variables (st0 : kforth_t) (ls lg : list Z) (out : list k_output).
Abbreviation cview code s g := (view (with_code code st0) s g ls lg out).

Lemma fwp_put_item i f it code s g (Q : unit -> kforth_t -> Prop) : 0 <= i < zlen code -> znth code i = Some it ->
  Q tt (cview (put i (f it) code) s g) -> fwp (put_item i f) Q (cview code s g).
Proof.
  intros Hi Hit HQ. unfold fwp, put_item. cbn [view k_new_word_list with_code set_new_word_list]. rewrite Hit. cbn [mbind option_bind].
  rewrite zupd_in_range by done. exact HQ.
Qed.
Lemma fwp_new_item i t d code s g (Q : unit -> kforth_t -> Prop) : 0 <= i < zlen code ->
  Q tt (cview (put i (Item t (Some d)) code) s g) -> fwp (new_item i t d) Q (cview code s g).
Proof. intros Hi HQ. destruct (znth_in_range code i Hi) as [it Hit]. by eapply fwp_put_item. Qed.
Lemma fwp_set_type i t code s g (Q : unit -> kforth_t -> Prop) : 0 <= i < zlen code ->
  (forall d, Q tt (cview (put i (Item t d) code) s g)) -> fwp (put_item i (set_type t)) Q (cview code s g).
Proof. intros Hi HQ. destruct (znth_in_range code i Hi) as [it Hit]. eapply fwp_put_item; [done|done|]. apply HQ. Qed.
Lemma fwp_put_data i d t d' code s g (Q : unit -> kforth_t -> Prop) : 0 <= i < zlen code -> znth code i = Some (Item t d') ->
  Q tt (cview (put i (Item t (Some d)) code) s g) -> fwp (put_data i d) Q (cview code s g).
Proof. intros Hi Hit HQ. by eapply fwp_put_item. Qed.
(** Whatever lay there. *)
Lemma fwp_put_data_any i d code s g (Q : unit -> kforth_t -> Prop) : 0 <= i < zlen code ->
  (forall t, Q tt (cview (put i (Item t (Some d)) code) s g)) -> fwp (put_data i d) Q (cview code s g).
Proof. intros Hi HQ. destruct (znth_in_range code i Hi) as [it Hit]. eapply fwp_put_item; [done|done|]. apply HQ. Qed.

(** [strcpy] of a string. *)
Lemma fwp_put_chars n : forall str i code s g (Q : unit -> kforth_t -> Prop), 0 <= i -> i + zlen (chunks n str) <= zlen code ->
  (length str <= n)%nat ->
  (forall code', same_below i code code' -> seg code' i (chunks n str) -> Q tt (cview code' s g)) ->
  fwp (put_chars n i str) Q (cview code s g).
Proof.
  induction n as [|n IH]; intros str i code s g Q Hi Hl Hn HQ.
  - apply fwp_ret, HQ; [apply same_below_refl|by apply seg_nil].
  - cbn [put_chars chunks] in *. destruct str as [|c str]; [apply fwp_ret, HQ; [apply same_below_refl|by apply seg_nil]|].
    rewrite zlen_cons in Hl. pose proof (zlen_nonneg (chunks n (drop 16 (c :: str)))).
    destruct (znth_in_range code i ltac:(lia)) as [it Hit]. apply fwp_bind. eapply fwp_put_item; [lia|exact Hit|].
    apply IH; [lia|rewrite put_length; lia|rewrite length_drop; cbn [length] in *; lia|].
    intros code' Hb Hs. apply HQ.
    + eapply (same_below_trans i (i + 1)); [lia| |exact Hb]. apply same_below_put; lia.
    + eapply seg_item; [rewrite (proj2 Hb) by lia; apply put_same; lia|done|done].
Qed.
End compiling.

(** * Tokens at the compiler *)

Definition resolve_in (es : list (Z * word_entry)) (x : bytes) : Z :=
  match find_name x es with Some (p, _) => p | None => 0 end.

(** The tokens the compiler treats before it looks them up. *)
Definition specials : list bytes := label_names ++ map str_of ["if"; "elif"; "endif"; "&"; ";"]%string.

Section program.
Context `{KforthLib}.
Variables (st0 : kforth_t) (ls lg : list Z) (out : list k_output) (es : list (Z * word_entry)) (name : bytes).
Hypothesis Hes : dictionary_entries st0 = Some es.
Abbreviation cview code s g := (view (with_code code st0) s g ls lg out).
Abbreviation resolve := (resolve_in es).

Lemma fwp_get_word x code s g (Q : Z -> kforth_t -> Prop) : Q (resolve x) (cview code s g) ->
  fwp (get_word_by_name x) Q (cview code s g).
Proof.
  intros HQ. unfold get_word_by_name. apply fwp_bind. unfold fwp at 1, get_entries.
  assert (E : dictionary_entries (cview code s g) = Some es) by exact Hes. rewrite E. exact HQ.
Qed.

Lemma fwp_prefix_none tok i (Q : Z -> kforth_t -> Prop) st : tok ∉ specials -> Q i st -> fwp (compile_prefix tok i) Q st.
Proof.
  intros Hn HQ. unfold specials in Hn. rewrite elem_of_app in Hn. unfold compile_prefix.
  rewrite bool_decide_eq_false_2 by tauto.
  assert (Hk : forall k, k ∈ map str_of ["if"; "elif"; "endif"; "&"; ";"]%string -> tok <> k) by (intros k Hk ->; tauto).
  rewrite !bool_decide_eq_false_2; [by apply fwp_ret|..]; apply Hk; apply (bool_decide_unpack _); by vm_compute.
Qed.

Lemma fwp_prefix_label tok i code s g (Q : Z -> kforth_t -> Prop) : tok ∈ label_names -> 0 <= i < zlen code ->
  (forall d, Q (i + 1) (cview (put i (Item LABEL_TYPE d) code) s g)) -> fwp (compile_prefix tok i) Q (cview code s g).
Proof.
  intros Ht Hi HQ. unfold compile_prefix. rewrite bool_decide_eq_true_2 by done.
  apply fwp_bind, fwp_set_type; [done|]. intros d. apply fwp_ret, HQ.
Qed.

Lemma fwp_prefix_if i code s y g (Q : Z -> kforth_t -> Prop) : 0 <= i < zlen code ->
  Q (i + 1) (cview (put i (Item BRANCH_TYPE (Some 0)) code) (i :: s) g) ->
  fwp (compile_prefix (str_of "if") i) Q (cview code s (y :: g)).
Proof.
  intros Hi HQ. change (compile_prefix (str_of "if") i) with (new_item i BRANCH_TYPE 0;; push_int i;; mret (i + 1) : F Z).
  apply fwp_bind, fwp_new_item; [done|]. apply fwp_bind, fwp_push_int, fwp_ret, HQ.
Qed.

Lemma fwp_prefix_elif i j code s g d (Q : Z -> kforth_t -> Prop) : 0 <= j < i -> i < zlen code -> zlen code <= MAX_COMPILE_WORDS ->
  znth code j = Some (Item BRANCH_TYPE d) ->
  Q (i + 1) (cview (put i (Item BRANCH_TYPE (Some 0)) (put j (Item BRANCH_TYPE (Some (i - j))) code)) (i :: s) g) ->
  fwp (compile_prefix (str_of "elif") i) Q (cview code (j :: s) g).
Proof.
  intros Hj Hi Hc Hit HQ. unfold MAX_COMPILE_WORDS in Hc.
  change (compile_prefix (str_of "elif") i) with
    (temp ← pop_int; put_data (u32 temp) (u32 (i - u32 temp));; new_item i BRANCH_TYPE 0;; push_int i;; mret (i + 1) : F Z).
  apply fwp_bind, fwp_pop_int. rewrite !(u32_id j), u32_id by lia.
  apply fwp_bind. eapply fwp_put_data; [lia|exact Hit|]. apply fwp_bind, fwp_new_item; [rewrite put_length; lia|].
  apply fwp_bind, fwp_push_int, fwp_ret, HQ.
Qed.

Lemma fwp_prefix_endif i j code s g d (Q : Z -> kforth_t -> Prop) : 0 <= j -> j + 2 <= i -> i < zlen code -> zlen code <= MAX_COMPILE_WORDS ->
  znth code j = Some (Item BRANCH_TYPE d) ->
  Q i (cview (put j (Item BRANCH_TYPE (Some (i - j - 2))) code) s (j :: g)) ->
  fwp (compile_prefix (str_of "endif") i) Q (cview code (j :: s) g).
Proof.
  intros Hj Hji Hi Hc Hit HQ. unfold MAX_COMPILE_WORDS in Hc.
  change (compile_prefix (str_of "endif") i) with
    (temp ← pop_int; put_data (u32 temp) (u32 (i - u32 temp - 2));; mret i : F Z).
  apply fwp_bind, fwp_pop_int. rewrite !(u32_id j), u32_id by lia.
  apply fwp_bind. eapply fwp_put_data; [lia|exact Hit|]. by apply fwp_ret.
Qed.

(** A token that is a word of the dictionary. *)
Lemma fwp_token_found tok txt p1 p2 i (Q : bytes * Z * Z -> kforth_t -> Prop) st : c_string txt p1 = Some tok ->
  tok <> name -> tok <> str_of "&" -> tok <> str_of ";" -> resolve tok <> 0 ->
  fwp (compile_prefix tok i) (fun i' st' => exists code s g, st' = cview code s g /\ 0 <= i' < zlen code /\
    Q (txt, p2, i' + 1) (cview (put i' (Item WORD_TYPE (Some (resolve tok))) code) s g)) st ->
  fwp (compile_token name txt p1 p2 i) Q st.
Proof.
  intros Hc Hn Ha Hs Hr Hp. unfold compile_token. apply fwp_bind. eapply fwp_flift; [exact Hc|]. apply fwp_bind.
  eapply fwp_mono; [exact Hp|]. intros i' st' (code & s & g & -> & Hi & HQ). cbv beta.
  rewrite !bool_decide_eq_false_2 by done. apply fwp_bind, fwp_get_word.
  replace (negb (resolve tok =? 0)) with true by lia. apply fwp_bind, fwp_new_item; [done|]. by apply fwp_ret.
Qed.

(** A token that is none. *)
Lemma fwp_token_other tok txt p1 p2 i (Q : bytes * Z * Z -> kforth_t -> Prop) code s g : c_string txt p1 = Some tok ->
  tok <> name -> tok ∉ specials -> resolve tok = 0 -> 0 <= i < zlen code ->
  (forall t, fwp (if is_int tok then
       n ← flift (atoi tok); new_item i LITERAL_TYPE (u64 n);; mret (txt, p2, i + 1)
     else if is_float tok then new_item i LITERAL_TYPE ret_address;; mret (txt, p2, i + 1)
     else if is_str tok then
       new_item i STR_TYPE 0;;
       let s := drop 1 tok ++ [0] in
       put_chars (length s) (i + 1) s;; mret (txt, p2, i + 1 + string_items (zlen s - 1))
     else fprint (OUnknownWord tok);; mret (txt, p2, i)) Q (cview (put i (Item t (Some 0)) code) s g)) ->
  fwp (compile_token name txt p1 p2 i) Q (cview code s g).
Proof.
  intros Hc Hn Hs Hr Hi HQ. unfold compile_token. apply fwp_bind. eapply fwp_flift; [exact Hc|]. apply fwp_bind.
  apply fwp_prefix_none; [done|]. rewrite bool_decide_eq_false_2 by done.
  assert (Hk : forall k, k ∈ map str_of ["&"; ";"]%string -> tok <> k).
  { assert (Hsub : Forall (fun k => k ∈ specials) (map str_of ["&"; ";"]%string)) by (apply (bool_decide_unpack _); by vm_compute).
    intros k Hk E. apply Hs. rewrite E. by apply (proj1 (Forall_forall _ _) Hsub k), list_elem_of_In. }
  rewrite !bool_decide_eq_false_2; [|apply Hk; apply (bool_decide_unpack _); by vm_compute..].
  apply fwp_bind, fwp_get_word. rewrite Hr. cbn [Z.eqb negb]. apply fwp_bind, fwp_put_data_any; [done|]. exact HQ.
Qed.

(** * Programs at the compiler *)

(** The programs whose text is compiled as they are meant. *)
Fixpoint com_ok (c : com) : bool :=
  match c with
  | CNum t =>
      word_ok t && is_int t && bool_decide (atoi t <> None) && (resolve t =? 0) &&
      bool_decide (t <> name) && bool_decide (t ∉ specials)
  | CWord x =>
      word_ok x && negb (resolve x =? 0) && bool_decide (x <> name) && bool_decide (x ∉ specials)
  | CStr s => forallb string_char s && (resolve (34 :: s) =? 0) && bool_decide (34 :: s <> name)
  | CRec => word_ok name
  | CIf yes no => forallb com_ok yes && forallb com_ok no
  | CWhen body | CDo body | CFor body => forallb com_ok body
  end.

(** From the next token on. *)
Definition compile_from (n : nat) (txt : bytes) (p i : Z) : F (bytes * Z) :=
  '(token, txt, p2) ← get_token txt p; compile_loop n name token txt p2 i.

Definition continues (n : nat) (ts : list token) (i : Z) (code : list word_list_item) (s g : list Z)
    (Q : bytes * Z -> kforth_t -> Prop) : Prop :=
  forall txt p stx, at_text txt p stx -> spelled ts stx -> fwp (compile_from n txt p i) Q (cview code s g).

Lemma cont_token n t ts i code s g Q : token_ok t = true ->
  (forall txt p p2, c_string txt p = Some (token_string t) ->
     fwp (compile_token name txt p p2 i) (fun r st => r.1 = (txt, p2) /\
       exists code' s' g', st = cview code' s' g' /\ continues n ts r.2 code' s' g' Q) (cview code s g)) ->
  continues (S n) (t :: ts) i code s g Q.
Proof.
  intros Ht H1 txt p stx Ha Hsp.
  destruct (get_token_spelled t ts stx txt p (cview code s g) Ht Hsp Ha) as (txt' & p' & s' & E & Hc & Ha' & Hs' & _).
  apply fwp_bind. eapply fwp_intro; [exact E|]. cbv beta iota. cbn [compile_loop]. apply fwp_bind.
  eapply fwp_mono; [exact (H1 txt' p p' Hc)|]. intros [[txt2 p2] i2] st ([= -> ->] & code' & s2 & g' & -> & Hcont).
  cbv beta iota. cbn [snd] in Hcont. exact (Hcont txt' p' s' Ha' Hs').
Qed.

Hypothesis Hname : name ∉ specials.
Hypothesis Hkeywords : forall x, x ∈ specials -> x = str_of "&" \/ x = str_of ";" \/ resolve x <> 0.
Variable Q : bytes * Z -> kforth_t -> Prop.

(** What is known while code is written: where it goes, and room on the stack
    for the branches that are open. *)
Record writing (i : Z) (code : list word_list_item) (s g : list Z) : Prop := {
  wr_pos : 0 <= i;
  wr_code : zlen code = MAX_COMPILE_WORDS;
  wr_stack : (length s + length g = 1000)%nat;
  wr_room : Z.of_nat (length s) <= 900 + i }.

(** The text of [c] is compiled to its code, and the rest follows. *)
Definition compiles (c : com) : Prop := com_ok c = true -> forall n ts i code s g, writing i code s g ->
  i + zlen (ccode resolve c) < MAX_COMPILE_WORDS ->
  (forall code' g', seg code' i (ccode resolve c) -> same_below i code code' ->
     writing (i + zlen (ccode resolve c)) code' s g' ->
     continues n ts (i + zlen (ccode resolve c)) code' s g' Q) ->
  continues (length (tokens name c) + n) (tokens name c ++ ts) i code s g Q.

Lemma one_item it code i p : 0 <= i < zlen code -> fits p it -> seg (put i it code) i [p].
Proof. intros Hi Hf. apply seg_one. exists it. split; [by apply put_same|done]. Qed.

Lemma writing_put i it code s g : writing i code s g -> i < zlen code -> writing (i + 1) (put i it code) s g.
Proof. intros [H1 H2 H3 H4] Hi. split; [lia|by rewrite put_length|done|lia]. Qed.

(** One token that becomes one item. *)
Lemma cont_item t p it n ts i code s g : token_ok t = true -> writing i code s g -> i + 1 < MAX_COMPILE_WORDS ->
  fits p it ->
  (forall txt p1 p2 (Q' : bytes * Z * Z -> kforth_t -> Prop), c_string txt p1 = Some (token_string t) ->
     (forall code', same_below i code code' -> zlen code' = zlen code ->
        Q' (txt, p2, i + 1) (cview (put i it code') s g)) ->
     fwp (compile_token name txt p1 p2 i) Q' (cview code s g)) ->
  (forall code' g', seg code' i [p] -> same_below i code code' -> writing (i + 1) code' s g' ->
     continues n ts (i + 1) code' s g' Q) ->
  continues (S n) (t :: ts) i code s g Q.
Proof.
  intros Ht Hw Hi Hf Htok Hk. pose proof Hw as [H1 H2 H3 H4]. apply cont_token; [done|]. intros txt p1 p2 Hc.
  apply Htok; [done|]. intros code' Hb Hl. split; [done|]. eexists _, s, g. split; [done|]. cbn [snd]. apply Hk.
  - apply one_item; [lia|done].
  - eapply (same_below_trans i i); [lia|exact Hb|]. apply same_below_put. lia.
  - apply writing_put; [split; [done|congruence|done|done]|lia].
Qed.

Lemma compiles_number t : compiles (CNum t).
Proof.
  intros Hok n ts i code s g Hw Hi Hk. cbn [com_ok] in Hok. rewrite !andb_true_iff, !bool_decide_eq_true in Hok.
  destruct Hok as (((((Ht & Hint) & Hat) & Hr) & Hn) & Hs). apply Z.eqb_eq in Hr.
  destruct (atoi t) as [x|] eqn:Ex; [|done]. cbn [ccode tokens length app] in *. rewrite Ex in Hk.
  assert (E1 : forall y, zlen [PItem LITERAL_TYPE y] = 1) by done. rewrite E1 in *.
  pose proof Hw as [H1 H2 H3 H4].
  eapply (cont_item (TWord t) (PItem LITERAL_TYPE (Some (u64 x))) (Item LITERAL_TYPE (Some (u64 x)))); [exact Ht|exact Hw|done|split; done| |exact Hk].
  intros txt p1 p2 Q' Hc HQ. cbn [token_string] in Hc. eapply fwp_token_other; [exact Hc|done|done|done|lia|]. intros ty. rewrite Hint. apply fwp_bind.
  eapply fwp_flift; [exact Ex|]. apply fwp_bind, fwp_new_item; [rewrite put_length; lia|]. apply fwp_ret, HQ.
  - apply same_below_put. lia.
  - by rewrite put_length.
Qed.

Lemma special_ok x : x ∈ map str_of ["&"; ";"]%string -> x ∈ specials.
Proof.
  assert (Hsub : Forall (fun k => k ∈ specials) (map str_of ["&"; ";"]%string)) by (apply (bool_decide_unpack _); by vm_compute).
  intros Hx. by apply (proj1 (Forall_forall _ _) Hsub x), list_elem_of_In.
Qed.

Lemma compiles_word x : compiles (CWord x).
Proof.
  intros Hok n ts i code s g Hw Hi Hk. cbn [com_ok] in Hok. rewrite !andb_true_iff, !bool_decide_eq_true in Hok.
  destruct Hok as (((Ht & Hr) & Hn) & Hs). cbn [ccode tokens length app] in *.
  assert (E1 : zlen [PWord resolve x] = 1) by done. rewrite E1 in *. pose proof Hw as [H1 H2 H3 H4].
  eapply (cont_item (TWord x) (PWord resolve x) (Item WORD_TYPE (Some (resolve x)))); [exact Ht|exact Hw|done|split; done| |exact Hk].
  intros txt p1 p2 Q' Hc HQ. cbn [token_string] in Hc. eapply fwp_token_found; [exact Hc|done| | |lia|].
  - intros ->. apply Hs, special_ok, (bool_decide_unpack _). by vm_compute.
  - intros ->. apply Hs, special_ok, (bool_decide_unpack _). by vm_compute.
  - apply fwp_prefix_none; [done|]. exists code, s, g. split; [done|]. split; [lia|]. apply HQ; [apply same_below_refl|done].
Qed.

Lemma compiles_rec : compiles CRec.
Proof.
  intros Hok n ts i code s g Hw Hi Hk. cbn [com_ok ccode tokens length app] in *.
  assert (E1 : zlen [PItem RECURSIVE_TYPE None] = 1) by done. rewrite E1 in *. pose proof Hw as [H1 H2 H3 H4].
  apply cont_token; [exact Hok|]. intros txt p1 p2 Hc.
  unfold compile_token. apply fwp_bind. eapply fwp_flift; [exact Hc|]. apply fwp_bind. apply fwp_prefix_none; [done|].
  cbn [token_string]. rewrite bool_decide_eq_true_2 by done. apply fwp_bind, fwp_set_type; [lia|]. intros d. apply fwp_ret. split; [done|].
  eexists _, s, g. split; [done|]. apply Hk.
  - apply one_item; [lia|done].
  - apply same_below_put. lia.
  - apply writing_put; [done|lia].
Qed.

Lemma compiles_string str : compiles (CStr str).
Proof.
  intros Hok n ts i code s g Hw Hi Hk. cbn [com_ok] in Hok. rewrite !andb_true_iff, !bool_decide_eq_true in Hok.
  destruct Hok as ((Ht & Hr) & Hn). apply Z.eqb_eq in Hr. cbn [tokens length app] in *. pose proof Hw as [H1 H2 H3 H4].
  assert (Hs : 34 :: str ∉ specials).
  { assert (Hsub : Forall (fun k => head k <> Some 34) specials) by (apply (bool_decide_unpack _); by vm_compute).
    intros Hin. by apply (proj1 (Forall_forall _ _) Hsub (34 :: str)); [apply list_elem_of_In|]. }
  assert (Hflt : is_float (34 :: str) = false).
  { unfold is_float. cbn [unsigned_part Z.eqb Pos.eqb existsb orb]. destruct (existsb (Z.eqb 46) str) eqn:E; [|done].
    apply existsb_exists in E as (c & Hc & E46). rewrite forallb_forall in Ht. specialize (Ht c Hc). unfold string_char in Ht.
    cbn [existsb] in Ht. lia. }
  assert (Hlen : zlen (ccode resolve (CStr str)) = 1 + zlen (chunks (length str + 1) (str ++ [0]))) by (cbn [ccode]; by rewrite zlen_cons).
  apply cont_token; [exact Ht|]. intros txt p1 p2 Hc. cbn [token_string] in Hc.
  pose proof (zlen_nonneg (chunks (length str + 1) (str ++ [0]))) as Hc0.
  eapply fwp_token_other; [exact Hc|done|done|done|lia|]. intros ty.
  replace (is_int (34 :: str)) with false by done. rewrite Hflt. cbn [is_str Z.eqb Pos.eqb drop].
  apply fwp_bind, fwp_new_item; [rewrite put_length; lia|]. cbv zeta. rewrite drop_0. apply fwp_bind. rewrite length_app. cbn [length].
  apply fwp_put_chars; [lia|rewrite !put_length; lia|rewrite length_app; cbn [length]; lia|]. intros code' Hb Hseg. apply fwp_ret.
  split; [done|]. exists code', s, g. split; [done|]. cbn [snd].
  assert (Est : i + 1 + string_items (zlen (str ++ [0]) - 1) = i + zlen (ccode resolve (CStr str))).
  { rewrite Hlen, string_chunks_length by lia. rewrite zlen_app, zlen_cons, zlen_nil.
    replace (zlen str + (1 + 0) - 1) with (zlen str) by lia. lia. }
  rewrite Est. apply Hk.
  - cbn [ccode]. eapply seg_item; [rewrite (proj2 Hb) by lia; apply put_same; rewrite put_length; lia|by split|exact Hseg].
  - eapply (same_below_trans i (i + 1)); [lia| |exact Hb]. apply same_below_put2; lia.
  - destruct Hb as [Hbl _]. split; [lia| |done|lia]. unfold zlen in *. rewrite Hbl. unfold put. rewrite !length_insert. exact H2.
Qed.

Lemma cont_keyword tok n ts i code s g : tok ∈ specials -> tok <> str_of "&" -> tok <> str_of ";" -> word_ok tok = true ->
  fwp (compile_prefix tok i) (fun i' st' => exists code' s' g', st' = cview code' s' g' /\ 0 <= i' < zlen code' /\
    continues n ts (i' + 1) (put i' (Item WORD_TYPE (Some (resolve tok))) code') s' g' Q) (cview code s g) ->
  continues (S n) (TWord tok :: ts) i code s g Q.
Proof.
  intros Hin Ha Hs Ht Hp. apply cont_token; [exact Ht|]. intros txt p1 p2 Hc. cbn [token_string] in Hc.
  eapply fwp_token_found; [exact Hc|by intros ->|done|done|by destruct (Hkeywords tok Hin) as [?|[?|?]]|].
  eapply fwp_mono; [exact Hp|]. intros i' st' (code' & s' & g' & -> & Hi & Hcont).
  exists code', s', g'. split; [done|]. split; [done|]. split; [done|]. by eexists _, s', g'.
Qed.

Lemma compiles_list cs : Forall compiles cs -> forallb com_ok cs = true -> forall n ts i code s g, writing i code s g ->
  i + zlen (ccodes resolve cs) < MAX_COMPILE_WORDS ->
  (forall code' g', seg code' i (ccodes resolve cs) -> same_below i code code' ->
     writing (i + zlen (ccodes resolve cs)) code' s g' -> continues n ts (i + zlen (ccodes resolve cs)) code' s g' Q) ->
  continues (length (concat (map (tokens name) cs)) + n) (concat (map (tokens name) cs) ++ ts) i code s g Q.
Proof.
  induction 1 as [|c cs Hc _ IH]; intros Hok n ts i code s g Hw Hi Hk.
  - cbn in Hk. rewrite Z.add_0_r in Hk. apply Hk; [apply seg_nil; apply Hw|apply same_below_refl|done].
  - cbn [forallb] in Hok. apply andb_true_iff in Hok as [Hokc Hokcs].
    change (ccodes resolve (c :: cs)) with (ccode resolve c ++ ccodes resolve cs) in *. rewrite zlen_app in *.
    pose proof (zlen_nonneg (ccode resolve c)). pose proof (zlen_nonneg (ccodes resolve cs)).
    cbn [map concat]. rewrite length_app, <- Nat.add_assoc, <- app_assoc. apply Hc; [done|done|lia|].
    intros code1 g1 Hs1 Hb1 Hw1. apply IH; [done|done|lia|]. intros code2 g2 Hs2 Hb2 Hw2. rewrite <- Z.add_assoc in *. apply Hk.
    + apply seg_app. split; [eapply seg_below; [exact Hb2|lia|done]|done].
    + eapply (same_below_trans i (i + zlen (ccode resolve c))); [lia|exact Hb1|exact Hb2].
    + done.
Qed.

#[local] Ltac special := first [by apply (bool_decide_unpack _); vm_compute | done].

Lemma znth_kept m code code' k it : same_below m code code' -> k < m -> znth code k = Some it -> znth code' k = Some it.
Proof. intros [_ H'] Hk Hit. by rewrite H'. Qed.

Lemma writing_push i code s g y : writing i code s (y :: g) -> forall x it, i < zlen code -> writing (i + 1) (put i it code) (x :: s) g.
Proof. intros [H1 H2 H3 H4] x it Hi. split; [lia|by rewrite put_length|cbn [length] in *; lia|cbn [length]; lia]. Qed.

Lemma writing_pop i code s g x : writing i code (x :: s) g -> forall it d, 0 <= d -> writing (i + 1) (put i it (put d it code)) s (x :: g).
Proof. intros [H1 H2 H3 H4] it d Hd. split; [lia|by rewrite !put_length|cbn [length] in *; lia|cbn [length] in *; lia]. Qed.

(** [if]: its two items, and the position of the branch on the stack. *)
Lemma cont_if n ts i code s g : writing i code s g -> i + 2 < MAX_COMPILE_WORDS ->
  (forall code' g', znth code' i = Some (Item BRANCH_TYPE (Some 0)) ->
     znth code' (i + 1) = Some (Item WORD_TYPE (Some (resolve (str_of "if")))) -> same_below i code code' ->
     writing (i + 2) code' (i :: s) g' -> continues n ts (i + 2) code' (i :: s) g' Q) ->
  continues (S n) (kw "if" :: ts) i code s g Q.
Proof.
  intros Hw Hi Hk. pose proof Hw as [H1 H2 H3 H4]. unfold MAX_COMPILE_WORDS in *. destruct g as [|y g]; [simpl in H3; lia|].
  apply cont_keyword; [special..|]. apply fwp_prefix_if; [lia|].
  eexists _, (i :: s), g. split; [done|]. split; [rewrite put_length; lia|].
  replace (i + 1 + 1) with (i + 2) by lia. apply Hk.
  - rewrite put_other by lia. apply put_same. lia.
  - apply put_same. rewrite put_length. lia.
  - apply same_below_put2; lia.
  - split; [lia|by rewrite !put_length|cbn [length] in *; lia|cbn [length]; lia].
Qed.

(** [endif]: the branch at [j] is filled in. *)
Lemma cont_endif n ts i j code s g d : writing i code (j :: s) g -> 0 <= j -> j + 2 <= i -> i + 1 < MAX_COMPILE_WORDS ->
  Z.of_nat (length s) <= 900 + j -> znth code j = Some (Item BRANCH_TYPE d) ->
  (forall code' g', (forall k, k < i -> k <> j -> znth code' k = znth code k) ->
     znth code' j = Some (Item BRANCH_TYPE (Some (i - j - 2))) ->
     znth code' i = Some (Item WORD_TYPE (Some (resolve (str_of "endif")))) ->
     writing (i + 1) code' s g' -> continues n ts (i + 1) code' s g' Q) ->
  continues (S n) (kw "endif" :: ts) i code (j :: s) g Q.
Proof.
  intros [H1 H2 H3 H4] Hj Hji Hi Hroom Hb Hk. unfold MAX_COMPILE_WORDS in *. apply cont_keyword; [special..|].
  eapply fwp_prefix_endif; [lia|lia|lia|unfold MAX_COMPILE_WORDS; lia|exact Hb|].
  eexists _, s, (j :: g). split; [done|]. split; [rewrite put_length; lia|]. apply Hk.
  - intros k Hk1 Hk2. rewrite !put_other by lia. done.
  - rewrite put_other by lia. apply put_same. lia.
  - apply put_same. rewrite put_length. lia.
  - split; [lia|by rewrite !put_length|cbn [length] in *; lia|cbn [length] in *; lia].
Qed.

(** [elif]: the branch at [j] is filled in, and the one of [elif] takes its place
    on the stack. *)
Lemma cont_elif n ts i j code s g d : writing i code (j :: s) g -> 0 <= j -> j + 2 <= i -> i + 2 < MAX_COMPILE_WORDS ->
  Z.of_nat (length s) <= 900 + j -> znth code j = Some (Item BRANCH_TYPE d) ->
  (forall code' g', (forall k, k < i -> k <> j -> znth code' k = znth code k) ->
     znth code' j = Some (Item BRANCH_TYPE (Some (i - j))) -> znth code' i = Some (Item BRANCH_TYPE (Some 0)) ->
     znth code' (i + 1) = Some (Item WORD_TYPE (Some (resolve (str_of "elif")))) ->
     writing (i + 2) code' (i :: s) g' -> continues n ts (i + 2) code' (i :: s) g' Q) ->
  continues (S n) (kw "elif" :: ts) i code (j :: s) g Q.
Proof.
  intros [H1 H2 H3 H4] Hj Hji Hi Hroom Hb Hk. unfold MAX_COMPILE_WORDS in *. apply cont_keyword; [special..|].
  eapply fwp_prefix_elif; [lia|lia|unfold MAX_COMPILE_WORDS; lia|exact Hb|].
  eexists _, (i :: s), g. split; [done|]. split; [rewrite !put_length; lia|].
  replace (i + 1 + 1) with (i + 2) by lia. apply Hk.
  - intros k Hk1 Hk2. rewrite !put_other by lia. done.
  - rewrite !put_other by lia. apply put_same. lia.
  - rewrite put_other by lia. apply put_same. rewrite put_length. lia.
  - apply put_same. rewrite !put_length. lia.
  - split; [lia|by rewrite !put_length|cbn [length] in *; lia|cbn [length] in *; lia].
Qed.

(** A word of a loop, with its label. *)
Lemma cont_label x n ts i code s g : str_of x ∈ label_names -> word_ok (str_of x) = true -> writing i code s g ->
  i + 2 < MAX_COMPILE_WORDS ->
  (forall code', seg code' i [PItem LABEL_TYPE None; PWord resolve (str_of x)] -> same_below i code code' ->
     writing (i + 2) code' s g -> continues n ts (i + 2) code' s g Q) ->
  continues (S n) (kw x :: ts) i code s g Q.
Proof.
  intros Hx Hok [H1 H2 H3 H4] Hi Hk. unfold MAX_COMPILE_WORDS in *.
  assert (Hne : Forall (fun k => k <> str_of "&" /\ k <> str_of ";" /\ k ∈ specials) label_names)
    by (apply (bool_decide_unpack _); by vm_compute).
  pose proof (proj1 (Forall_forall _ _) Hne _ (proj1 (list_elem_of_In _ _) Hx)) as (Hn1 & Hn2 & Hn3).
  apply cont_keyword; [done|done|done|done|]. apply fwp_prefix_label; [done|lia|]. intros d.
  eexists _, s, g. split; [done|]. split; [rewrite put_length; lia|]. replace (i + 1 + 1) with (i + 2) by lia. apply Hk.
  - eapply seg_item; [rewrite put_other by lia; apply put_same; lia|done|]. apply one_item; [rewrite put_length; lia|by split].
  - apply same_below_put2; lia.
  - split; [lia|by rewrite !put_length|done|lia].
Qed.

Lemma compiles_loop (open close : string) body : str_of open ∈ label_names -> str_of close ∈ label_names ->
  word_ok (str_of open) = true -> word_ok (str_of close) = true -> Forall compiles body -> forallb com_ok body = true ->
  forall n ts i code s g, writing i code s g ->
  let code_of := PItem LABEL_TYPE None :: PWord resolve (str_of open) :: ccodes resolve body ++
      [PItem LABEL_TYPE None; PWord resolve (str_of close)] in
  let toks := kw open :: concat (map (tokens name) body) ++ [kw close] in
  i + zlen code_of < MAX_COMPILE_WORDS ->
  (forall code' g', seg code' i code_of -> same_below i code code' ->
     writing (i + zlen code_of) code' s g' -> continues n ts (i + zlen code_of) code' s g' Q) ->
  continues (length toks + n) (toks ++ ts) i code s g Q.
Proof.
  intros Ho Hc Hoo Hco Hall Hok n ts i code s g Hw code_of toks Hi Hk.
  assert (El : zlen code_of = 4 + zlen (ccodes resolve body)).
  { unfold code_of. rewrite !zlen_cons, zlen_app, !zlen_cons, zlen_nil. lia. }
  assert (E2 : zlen [PItem LABEL_TYPE None; PWord resolve (str_of open)] = 2) by done.
  rewrite El in *. pose proof (zlen_nonneg (ccodes resolve body)). unfold toks. cbn [length app]. rewrite length_app. cbn [length].
  rewrite <- app_assoc. cbn [app]. replace (S (length (concat (map (tokens name) body)) + 1) + n)%nat with
    (S (length (concat (map (tokens name) body)) + S n)) by lia.
  apply cont_label; [done|done|done|unfold MAX_COMPILE_WORDS in *; lia|]. intros code1 Hs1 Hb1 Hw1.
  apply compiles_list; [done|done|done|lia|]. intros code2 g2 Hs2 Hb2 Hw2.
  apply cont_label; [done|done|done|unfold MAX_COMPILE_WORDS in *; lia|]. intros code3 Hs3 Hb3 Hw3.
  replace (i + (4 + zlen (ccodes resolve body))) with (i + 2 + zlen (ccodes resolve body) + 2) in * by lia. apply Hk; [|..].
  - unfold code_of. change (seg code3 i ([PItem LABEL_TYPE None; PWord resolve (str_of open)] ++ ccodes resolve body ++
      [PItem LABEL_TYPE None; PWord resolve (str_of close)])).
    apply seg_app. split; [|apply seg_app; split; [|exact Hs3]].
    + eapply seg_below; [exact Hb3|rewrite E2; lia|]. eapply seg_below; [exact Hb2|rewrite E2; lia|exact Hs1].
    + eapply seg_below; [exact Hb3|rewrite E2; lia|exact Hs2].
  - eapply (same_below_trans i (i + 2)); [lia|exact Hb1|].
    eapply (same_below_trans (i + 2) (i + 2 + zlen (ccodes resolve body))); [lia|exact Hb2|exact Hb3].
  - exact Hw3.
Qed.

Lemma writing_same i i' m code code' s s' g g' : writing i code s g -> writing i' code' s' g' ->
  (forall k, k < m -> znth code' k = znth code k) -> same_below m code code'.
Proof. intros [_ H1 _ _] [_ H2 _ _] Hk. split; [|done]. unfold zlen in *. lia. Qed.

Lemma compiles_when yes : Forall compiles yes -> compiles (CWhen yes).
Proof.
  intros Hall Hok n ts i code s g Hw Hi Hk. cbn [com_ok] in Hok. pose proof Hw as [H1 H2 H3 H4].
  assert (El : zlen (ccode resolve (CWhen yes)) = 3 + zlen (ccodes resolve yes)).
  { cbn [ccode]. rewrite !zlen_cons, zlen_app, zlen_cons, zlen_nil. unfold ccodes. lia. }
  rewrite El in *. pose proof (zlen_nonneg (ccodes resolve yes)) as Hy0. unfold MAX_COMPILE_WORDS in *.
  cbn [tokens length app]. rewrite length_app, <- app_assoc. cbn [length app].
  replace (S (length (concat (map (tokens name) yes)) + 1) + n)%nat with (S (length (concat (map (tokens name) yes)) + S n)) by lia.
  apply cont_if; [done|unfold MAX_COMPILE_WORDS; lia|]. intros code1 g1 Hb1 Hi1 Hs1 Hw1.
  apply compiles_list; [done|done|done|unfold MAX_COMPILE_WORDS; lia|]. intros code2 g2 Hseg2 Hs2 Hw2.
  set (i3 := i + 2 + zlen (ccodes resolve yes)) in *.
  eapply cont_endif; [exact Hw2|lia|lia|unfold MAX_COMPILE_WORDS; lia|lia|eapply znth_kept; [exact Hs2|lia|exact Hb1]|].
  intros code3 g3 Hk3 Hb3 He3 Hw3. replace (i + (3 + zlen (ccodes resolve yes))) with (i3 + 1) in * by lia.
  apply Hk; [|..|exact Hw3].
  - cbn [ccode]. fold (ccodes resolve yes). eapply seg_item; [exact Hb3|split; [done|f_equal; lia]|].
    eapply seg_item; [rewrite Hk3 by lia; eapply znth_kept; [exact Hs2|lia|exact Hi1]|by split|].
    apply seg_app. replace (i + 1 + 1) with (i + 2) by lia. fold i3. split.
    + eapply seg_frame; [exact Hseg2|]. intros k Hkk. apply Hk3; lia.
    + apply seg_one. eexists. split; [exact He3|by split].
  - eapply writing_same; [exact Hw|exact Hw3|]. intros k Hkk. rewrite Hk3 by lia. rewrite (proj2 Hs2) by lia. apply (proj2 Hs1). lia.
Qed.

Lemma compiles_if yes no : Forall compiles yes -> Forall compiles no -> compiles (CIf yes no).
Proof.
  intros Hally Halln Hok n ts i code s g Hw Hi Hk. cbn [com_ok] in Hok. apply andb_true_iff in Hok as [Hoky Hokn].
  pose proof Hw as [H1 H2 H3 H4].
  assert (El : zlen (ccode resolve (CIf yes no)) = 5 + zlen (ccodes resolve yes) + zlen (ccodes resolve no)).
  { cbn [ccode]. rewrite !zlen_cons, zlen_app, !zlen_cons, zlen_app, zlen_cons, zlen_nil. unfold ccodes. lia. }
  rewrite El in *. pose proof (zlen_nonneg (ccodes resolve yes)) as Hy0. pose proof (zlen_nonneg (ccodes resolve no)) as Hn0.
  unfold MAX_COMPILE_WORDS in *. cbn [tokens length app]. rewrite length_app, <- app_assoc. cbn [length app].
  rewrite length_app, <- app_assoc. cbn [length app].
  replace (S (length (concat (map (tokens name) yes)) + S (length (concat (map (tokens name) no)) + 1)) + n)%nat with
    (S (length (concat (map (tokens name) yes)) + S (length (concat (map (tokens name) no)) + S n))) by lia.
  apply cont_if; [done|unfold MAX_COMPILE_WORDS; lia|]. intros code1 g1 Hb1 Hi1 Hs1 Hw1.
  apply compiles_list; [done|done|done|unfold MAX_COMPILE_WORDS; lia|]. intros code2 g2 Hseg2 Hs2 Hw2.
  set (i3 := i + 2 + zlen (ccodes resolve yes)) in *.
  eapply cont_elif; [exact Hw2|lia|lia|unfold MAX_COMPILE_WORDS; lia|lia|eapply znth_kept; [exact Hs2|lia|exact Hb1]|].
  intros code3 g3 Hk3 Hb3 He3 Hi3 Hw3.
  apply compiles_list; [done|done|done|unfold MAX_COMPILE_WORDS; lia|]. intros code4 g4 Hseg4 Hs4 Hw4.
  set (i5 := i3 + 2 + zlen (ccodes resolve no)) in *.
  eapply cont_endif; [exact Hw4|lia|lia|unfold MAX_COMPILE_WORDS; lia|lia|eapply znth_kept; [exact Hs4|lia|exact He3]|].
  intros code5 g5 Hk5 Hb5 He5 Hw5.
  replace (i + (5 + zlen (ccodes resolve yes) + zlen (ccodes resolve no))) with (i5 + 1) in * by lia.
  assert (Hold : forall k it, k < i3 -> znth code3 k = Some it -> znth code5 k = Some it).
  { intros k it Hkk Hit. rewrite Hk5 by lia. eapply znth_kept; [exact Hs4|lia|exact Hit]. }
  apply Hk; [|..|exact Hw5].
  - cbn [ccode]. fold (ccodes resolve yes) (ccodes resolve no).
    eapply seg_item; [apply Hold; [lia|exact Hb3]|split; [done|f_equal; lia]|].
    eapply seg_item; [apply Hold; [lia|rewrite Hk3 by lia; eapply znth_kept; [exact Hs2|lia|exact Hi1]]|by split|].
    apply seg_app. replace (i + 1 + 1) with (i + 2) by lia. fold i3. split.
    { eapply seg_frame; [exact Hseg2|]. intros k Hkk. rewrite Hk5 by lia. rewrite (proj2 Hs4) by lia. apply Hk3; lia. }
    eapply seg_item; [exact Hb5|split; [done|f_equal; lia]|].
    eapply seg_item; [rewrite Hk5 by lia; eapply znth_kept; [exact Hs4|lia|exact Hi3]|by split|].
    apply seg_app. replace (i3 + 1 + 1) with (i3 + 2) by lia. fold i5. split.
    + eapply seg_frame; [exact Hseg4|]. intros k Hkk. apply Hk5; lia.
    + apply seg_one. eexists. split; [exact He5|by split].
  - eapply writing_same; [exact Hw|exact Hw5|]. intros k Hkk. rewrite Hk5, (proj2 Hs4), Hk3, (proj2 Hs2) by lia. apply (proj2 Hs1). lia.
Qed.

(** A semicolon is dropped. *)
Lemma cont_semicolon n ts i code s g : continues n ts i code s g Q -> continues (S n) (kw ";" :: ts) i code s g Q.
Proof.
  intros Hk. apply cont_token; [special|]. intros txt p p2 Hc. cbn [token_string] in Hc.
  assert (Hne : str_of ";" <> name) by (intros Hn; apply Hname; rewrite <- Hn; special).
  apply fwp_bind. eapply fwp_flift; [exact Hc|]. apply fwp_bind, fwp_ret.
  rewrite bool_decide_eq_false_2 by done. change (bool_decide (str_of ";" = str_of "&")) with false.
  change (bool_decide (str_of ";" = str_of ";")) with true. apply fwp_ret. split; [done|]. by exists code, s, g.
Qed.

Lemma compiles_all c : compiles c.
Proof.
  induction c as [t|x|str| |yes no IHy IHn|yes IH|body IH|body IH] using com_ind.
  - apply compiles_number.
  - apply compiles_word.
  - apply compiles_string.
  - apply compiles_rec.
  - by apply compiles_if.
  - by apply compiles_when.
  - intros Hok n ts i code s g Hw Hi Hk. apply (compiles_loop "do" "loop"); [special..|exact IH|exact Hok|exact Hw|exact Hi|exact Hk].
  - intros Hok n ts i code s g Hw Hi Hk. apply (compiles_loop "for" "forloop"); [special..|exact IH|exact Hok|exact Hw|exact Hi|exact Hk].
Qed.
End program.

(** * Whole statements *)

Lemma fbind_inv {A B} (m : F A) (k : A -> F B) st r : (m ≫= k) st = Some r -> exists a st1, m st = Some (a, st1) /\ k a st1 = Some r.
Proof. unfold mbind, F_bind. destruct (m st) as [[a st1]|]; [eauto|done]. Qed.
Lemma flift_inv {A} (o : option A) st a st' : flift o st = Some (a, st') -> o = Some a /\ st' = st.
Proof. unfold flift. destruct o; [|done]. by intros [= -> ->]. Qed.
Lemma zupd_length {A} (l l' : list A) i x : zupd l i x = Some l' -> length l' = length l.
Proof. unfold zupd. destruct (_ || _); [done|]. intros [= <-]. apply length_insert. Qed.

Lemma get_token_length txt p st tok txt' p2 st' : get_token txt p st = Some ((tok, txt', p2), st') -> length txt' = length txt.
Proof.
  unfold get_token. intros E.
  repeat match goal with
  | E : (flift _ ≫= _) _ = Some _ |- _ =>
      let E1 := fresh "E" in apply fbind_inv in E as (? & ? & [E1 ->]%flift_inv & E); try apply zupd_length in E1
  | E : (fprint _ ≫= _) _ = Some _ |- _ => apply fbind_inv in E as (? & ? & _ & E)
  | E : (if ?b then _ else _) _ = Some _ |- _ => destruct b
  | E : mret _ _ = Some _ |- _ => injection E as <- <- <- <-
  end; congruence.
Qed.

Lemma spelled_length ts s : spelled ts s -> (length ts <= length s)%nat.
Proof.
  induction 1 as [junk|t junk|t ts s _ IH]; cbn [length]; [lia|..]; rewrite length_app; cbn [length]; lia.
Qed.

Section lengths.
Context `{KforthLib}.

#[local] Ltac inv_step :=
  match goal with
  | E : (flift _ ≫= _) _ = Some _ |- _ => apply fbind_inv in E as (? & ? & [_ ->]%flift_inv & E)
  | E : (get_token _ _ ≫= _) _ = Some _ |- _ =>
      let E1 := fresh "E" in apply fbind_inv in E as ([[? ?] ?] & ? & E1 & E); apply get_token_length in E1
  | E : (_ ≫= _) _ = Some _ |- _ => apply fbind_inv in E as (? & ? & _ & E)
  | E : (if ?b then _ else _) _ = Some _ |- _ => destruct b
  | E : (let _ := _ in _) _ = Some _ |- _ => cbv zeta in E
  | E : mret _ _ = Some _ |- _ => injection E as <- <- <- <-
  end.

Lemma compile_token_length name txt p1 p2 i st txt' p2' i' st' :
  compile_token name txt p1 p2 i st = Some ((txt', p2', i'), st') -> length txt' = length txt.
Proof. unfold compile_token. intros E. repeat inv_step; congruence. Qed.

Lemma compile_loop_length name n : forall token txt p2 i st txt' i' st',
  compile_loop n name token txt p2 i st = Some ((txt', i'), st') -> length txt' = length txt.
Proof.
  induction n as [|n IH]; intros [p1|] txt p2 i st txt' i' st' E; cbn [compile_loop] in E;
    [done|by injection E as <- <- <-| |by injection E as <- <- <-].
  apply fbind_inv in E as ([[txt1 p3] i1] & st1 & E1%compile_token_length & E).
  apply fbind_inv in E as ([[tok txt2] p4] & st2 & E2%get_token_length & E). apply IH in E. congruence.
Qed.

Lemma kforth_compile_word_length name txt p st txt' i' st' :
  kforth_compile_word name txt p st = Some ((txt', i'), st') -> length txt' = length txt.
Proof.
  unfold kforth_compile_word. intros E. apply fbind_inv in E as ([[tok txt1] p2] & st1 & E1%get_token_length & E).
  apply fbind_inv in E as ([txt2 i] & st2 & E2%compile_loop_length & E).
  apply fbind_inv in E as (? & ? & _ & E). injection E as <- <- <-. congruence.
Qed.
End lengths.

(** The text of a program is compiled to its code and the end of a word. *)
Lemma compile_program `{KforthLib} st0 ls lg out es name cs tail txt p stx code s g (Q : bytes * Z -> kforth_t -> Prop) :
  dictionary_entries st0 = Some es -> name ∉ specials ->
  (forall x, x ∈ specials -> x = str_of "&" \/ x = str_of ";" \/ resolve_in es x <> 0) ->
  forallb (com_ok es name) cs = true -> zlen (ccodes (resolve_in es) cs) < MAX_COMPILE_WORDS ->
  tail = [] \/ tail = [kw ";"] -> at_text txt p stx -> spelled (concat (map (tokens name) cs) ++ tail) stx ->
  zlen code = MAX_COMPILE_WORDS -> (length s + length g = 1000)%nat -> (length s <= 900)%nat ->
  (forall txt' code' g', seg code' 0 (ccodes (resolve_in es) cs ++ [PEnd]) -> zlen code' = MAX_COMPILE_WORDS ->
     (length s + length g' = 1000)%nat -> length txt' = length txt ->
     Q (txt', zlen (ccodes (resolve_in es) cs) + 1) (view (with_code code' st0) s g' ls lg out)) ->
  fwp (kforth_compile_word name txt p) Q (view (with_code code st0) s g ls lg out).
Proof.
  intros Hes Hname Hkw Hok Hlen Htail Ha Hsp Hc Hg Hs HQ. set (ts := concat (map (tokens name) cs) ++ tail) in *.
  set (Q0 := fun (r : bytes * Z) st => length r.1 = length txt -> Q r st).
  set (Q1 := fun (r : bytes * Z) st => fwp (put_item r.2 (set_type END_TYPE);; mret (r.1, r.2 + 1)) Q0 st).
  pose proof (zlen_nonneg (ccodes (resolve_in es) cs)) as Hn0.
  assert (Hend : forall m code' g', seg code' 0 (ccodes (resolve_in es) cs) -> zlen code' = MAX_COMPILE_WORDS ->
    (length s + length g' = 1000)%nat ->
    continues st0 ls lg out name m [] (zlen (ccodes (resolve_in es) cs)) code' s g' Q1).
  { intros m code' g' Hseg Hc' Hg' txt2 p2 s2 Ha2 Hs2. apply fwp_bind. eapply fwp_intro; [by eapply get_token_end|].
    cbv beta iota. destruct m; apply fwp_ret; unfold Q1; cbn [fst snd]; (apply fwp_bind, fwp_set_type; [lia|]);
      intros d; apply fwp_ret; intros Hl; apply HQ; try done; try (by rewrite put_length);
      (apply seg_app; split; [apply seg_put; [lia|by right|done]|apply one_item; [lia|done]]). }
  assert (Hcont : forall m, continues st0 ls lg out name (length ts + m) ts 0 code s g Q1).
  { intros m. unfold ts. rewrite length_app, <- Nat.add_assoc.
    apply (compiles_list st0 ls lg out es name Q1 cs); [apply Forall_forall; intros c _; by apply compiles_all|done|by split; lia|lia|].
    intros code' g' Hseg Hb [_ Hc' Hg' _]. rewrite Z.add_0_l.
    destruct Htail as [-> | ->]; cbn [length Nat.add]; [by apply Hend|]. by apply cont_semicolon, Hend. }
  pose proof (spelled_length _ _ Hsp) as Hl1. pose proof (at_length _ _ _ Ha) as Hl2.
  specialize (Hcont (text_fuel txt - length ts)%nat txt p stx Ha Hsp).
  replace (length ts + (text_fuel txt - length ts))%nat with (text_fuel txt) in Hcont by (unfold text_fuel; lia).
  assert (HQ0 : fwp (kforth_compile_word name txt p) Q0 (view (with_code code st0) s g ls lg out)).
  { unfold compile_from, kforth_compile_word in *. unfold fwp in Hcont |- *. unfold mbind, F_bind in Hcont |- *.
    destruct (get_token txt p _) as [[[[token txt'] p2] st1]|] eqn:E; [|done].
    apply get_token_length in E. unfold text_fuel in *. rewrite E.
    destruct (compile_loop _ _ _ _ _ _ _) as [[[txt2 i2] st2]|] eqn:E2; [|done]. exact Hcont. }
  apply fwp_run in HQ0 as ([txt' i'] & st' & E & HQ0). eapply fwp_intro; [exact E|]. apply HQ0. by eapply kforth_compile_word_length.
Qed.
