(* ===== verification/KforthDict.v ===== *)
(** The dictionary of kforth: its entries as a list, what [store_word] does to it,
    and the words it stands for. *)
From Stdlib Require Import Ascii String.
From S2P Require Import Prelude CText Kforth KforthCompile KforthRef KforthRun KforthCode KforthExec KforthRead.

(** What the memory promises: distinct constant entries, and blocks that are not in use.
    Nothing is said of what a block holds, and there may be no more memory. *)
Class KforthLibOk `{KforthLib} := {
  address_inj : forall f f', entry_address f = entry_address f' -> f = f';
  address_nonzero : forall f, entry_address f <> 0;
  malloc_fresh : forall live n, platform_malloc live n <> 0 -> platform_malloc live n ∉ live }.

(** A block in which a word can be stored: there is one, and the place of [word_fn],
    which [store_word] leaves as it is, holds NULL. *)
Definition served `{KforthLib} (p : Z) : Prop := p <> 0 /\ malloc_word_fn p = NoFn.
#[export] Instance function_pointer_eq : EqDecision function_pointer.
Proof. solve_decision. Defined.
#[export] Instance served_dec `{KforthLib} p : Decision (served p).
Proof. unfold served. apply _. Defined.

(** * Linked entries *)

Definition entries : Type := list (Z * word_entry).

Fixpoint links (p : Z) (es : entries) : Prop :=
  match es with
  | [] => p = 0
  | (q, e) :: es' => p = q /\ q <> 0 /\ links (e_next e) es'
  end.
Definition holds (words : gmap Z word_entry) (es : entries) : Prop := Forall (fun x => words !! x.1 = Some x.2) es.

Lemma entries_from_links words es : forall fuel p, links p es -> holds words es -> (length es <= fuel)%nat ->
  entries_from fuel words p = Some es.
Proof.
  induction es as [|[q e] es IH]; intros fuel p Hl Hh Hf.
  - simpl in Hl. subst p. by destruct fuel.
  - destruct Hl as (-> & Hq & Hl). destruct fuel as [|fuel]; [simpl in Hf; lia|]. cbn [entries_from]. zif_false.
    apply Forall_cons_1 in Hh as [He Hh]. cbn in He. rewrite He. cbn [mbind option_bind].
    rewrite (IH fuel); [done|done|done|simpl in Hf; lia].
Qed.

Lemma holds_size words es : holds words es -> NoDup es.*1 -> (length es <= size words)%nat.
Proof.
  intros Hh Hnd. rewrite <- (length_fmap fst es), <- size_dom. rewrite <- (size_list_to_set (C := gset Z) es.*1) by done.
  apply subseteq_size. intros p Hp. apply elem_of_list_to_set, list_elem_of_fmap in Hp as ([q e] & -> & Hin).
  apply elem_of_dom. exists e. unfold holds in Hh. rewrite Forall_forall in Hh. by apply (Hh (q, e)), list_elem_of_In.
Qed.

Lemma dictionary_links st es : links (k_dictionary st) es -> holds (k_words st) es -> NoDup es.*1 ->
  dictionary_entries st = Some es.
Proof. intros Hl Hh Hnd. apply entries_from_links; [done|done|by apply holds_size]. Qed.

(** * Names *)

Definition signature (es : entries) : list (Z * bytes) := map (fun x => (x.1, e_name x.2)) es.
Definition find_sig (x : bytes) (l : list (Z * bytes)) : Z :=
  match head (filter (fun y => y.2 = x) l) with Some (p, _) => p | None => 0 end.

Lemma find_name_cons x p e es : find_name x ((p, e) :: es) = if decide (e_name e = x) then Some (p, e) else find_name x es.
Proof. unfold find_name. rewrite filter_cons. cbn [snd]. by destruct (decide (e_name e = x)). Qed.

Lemma resolve_sig es x : resolve_in es x = find_sig x (signature es).
Proof.
  unfold resolve_in, find_sig. induction es as [|[p e] es IH]; [done|]. rewrite find_name_cons. cbn [signature map fst snd].
  rewrite filter_cons. cbn [snd]. by destruct (decide (e_name e = x)).
Qed.

Lemma find_sig_cons x p y l : find_sig x ((p, y) :: l) = if decide (y = x) then p else find_sig x l.
Proof. unfold find_sig. rewrite filter_cons. cbn [snd]. by destruct (decide (y = x)). Qed.

Lemma find_sig_app x l1 l2 : (forall p, (p, x) ∉ l1) -> find_sig x (l1 ++ l2) = find_sig x l2.
Proof.
  induction l1 as [|[p y] l1 IH]; intros Hx; [done|]. cbn [app]. rewrite find_sig_cons, decide_False.
  - apply IH. intros q Hq. apply (Hx q). by right.
  - intros ->. apply (Hx p). by left.
Qed.

(** Leaving out another name changes nothing. *)
Lemma find_sig_without x y p l1 l2 : y <> x -> find_sig x (l1 ++ (p, y) :: l2) = find_sig x (l1 ++ l2).
Proof.
  intros Hy. induction l1 as [|[q z] l1 IH]; cbn [app]; rewrite ?find_sig_cons; [by rewrite decide_False|].
  rewrite IH. done.
Qed.

Lemma find_sig_in x l : find_sig x l <> 0 -> (find_sig x l, x) ∈ l.
Proof.
  induction l as [|[p y] l IH]; [done|]. rewrite find_sig_cons. destruct (decide (y = x)) as [->|Hy]; [by left|].
  intros H. right. by apply IH.
Qed.

(** * The constant part *)

Section const.
Context `{KforthLibOk}.

Fixpoint const_list (l : list (bytes * primitive)) : entries :=
  match l with
  | [] => []
  | (x, f) :: l' =>
      (entry_address f, mk_entry (match l' with (_, f') :: _ => entry_address f' | [] => 0 end) x (Fn f) None)
        :: const_list l'
  end.
Definition consts : entries := const_list dictionary_1.

Lemma const_addresses l : (const_list l).*1 = map entry_address (map snd l).
Proof. induction l as [|[x f] l IH]; [done|]. cbn [const_list fmap list_fmap map fst snd]. by f_equal. Qed.

Lemma const_links l : links (match l with (_, f) :: _ => entry_address f | [] => 0 end) (const_list l).
Proof.
  induction l as [|[x f] l IH]; [done|]. cbn [const_list links e_next]. split; [done|]. split; [apply address_nonzero|exact IH].
Qed.

Lemma const_nodup : NoDup consts.*1.
Proof.
  unfold consts. rewrite const_addresses. apply NoDup_fmap_2; [intros f f'; apply address_inj|].
  apply (bool_decide_unpack _). by vm_compute.
Qed.

Lemma holds_insert words es p e : p ∉ es.*1 -> holds words es -> holds (<[p := e]> words) es.
Proof.
  intros Hp Hh. unfold holds in *. rewrite Forall_forall in Hh |- *. intros [q e'] Hin. cbn [fst snd].
  rewrite lookup_insert_ne; [by apply (Hh (q, e'))|]. intros ->. apply Hp, list_elem_of_fmap. exists (q, e'). split; [done|].
  by apply list_elem_of_In.
Qed.

Lemma const_holds l : NoDup (const_list l).*1 -> holds (const_entries l) (const_list l).
Proof.
  induction l as [|[x f] l IH]; intros Hnd; [constructor|]. cbn [const_list const_entries fmap list_fmap fst] in *.
  pose proof (NoDup_cons_1_1 _ _ Hnd) as Hf. apply NoDup_cons_1_2 in Hnd. constructor; [apply lookup_insert_eq|]. by apply holds_insert, IH.
Qed.

Lemma const_find l x : resolve_in (const_list l) x =
  match head (filter (fun y => y.1 = x) l) with Some (_, f) => entry_address f | None => 0 end.
Proof.
  unfold resolve_in. induction l as [|[y f] l IH]; [done|]. cbn [const_list]. rewrite find_name_cons, filter_cons. cbn [e_name fst].
  by destruct (decide (y = x)).
Qed.

Lemma const_prim x : resolve_in consts x = match find_prim x with Some f => entry_address f | None => 0 end.
Proof. unfold consts, find_prim. rewrite const_find. by destruct (head _) as [[y f]|]. Qed.

Lemma const_entry x f : find_prim x = Some f -> exists e, (entry_address f, e) ∈ consts /\ e_fn e = Fn f /\ e_name e = x.
Proof.
  unfold find_prim, consts. generalize dictionary_1 as l. induction l as [|[y f'] l IH]; [done|]. rewrite filter_cons. cbn [fst const_list].
  destruct (decide (y = x)) as [->|Hy].
  - intros [= ->]. eexists. split; [by left|]. done.
  - intros (e & He & ?)%IH. exists e. split; [by right|done].
Qed.
End const.
