(* ===== verification/KforthStore.v ===== *)
(** [store_word] of kforth: the references of the stored words follow a word that
    is defined again, and the dictionary holds the new definition in its place. *)
From Stdlib Require Import Ascii String.
From S2P Require Import Prelude CText Kforth KforthCompile KforthRef KforthRun KforthCode KforthExec KforthRead KforthDict.

(** * The code under another dictionary *)

(** The words whose addresses lie in the code of a program. *)
Fixpoint uses (c : com) : list bytes :=
  match c with
  | CNum _ | CStr _ | CRec => []
  | CWord x => [x]
  | CIf yes no => map str_of ["if"; "elif"; "endif"]%string ++ concat (map uses yes) ++ concat (map uses no)
  | CWhen yes => map str_of ["if"; "endif"]%string ++ concat (map uses yes)
  | CDo body => map str_of ["do"; "loop"]%string ++ concat (map uses body)
  | CFor body => map str_of ["for"; "forloop"]%string ++ concat (map uses body)
  end.

(** Numbers that fit, and strings without control characters, which are no items. *)
Fixpoint plain_com (c : com) : bool :=
  match c with
  | CNum t => bool_decide (atoi t <> None)
  | CStr s => forallb string_char s
  | CWord _ | CRec => true
  | CIf yes no => forallb plain_com yes && forallb plain_com no
  | CWhen body | CDo body | CFor body => forallb plain_com body
  end.

Definition pat_map (g : Z -> Z) (p : pat) : pat :=
  match p with PItem t (Some d) => PItem t (Some (if t =? WORD_TYPE then g d else d)) | _ => p end.

Lemma pat_map_chunks g n : forall s, map (pat_map g) (chunks n s) = chunks n s.
Proof. induction n as [|n IH]; intros s; [done|]. destruct s as [|c s]; [done|]. cbn [chunks map]. by rewrite IH. Qed.

Lemma pat_map_id ps : map (pat_map id) ps = ps.
Proof. induction ps as [|[t [d|]|s] ps IH]; [done|..]; cbn [map pat_map]; rewrite IH; [|done..]. by destruct (t =? WORD_TYPE). Qed.

Section resolve.
Variables (r r' : bytes -> Z) (g : Z -> Z).

Lemma codes_map_list cs : Forall (fun c => (forall y, y ∈ uses c -> r' y = g (r y)) -> ccode r' c = map (pat_map g) (ccode r c)) cs ->
  (forall y, y ∈ concat (map uses cs) -> r' y = g (r y)) -> concat (map (ccode r') cs) = map (pat_map g) (concat (map (ccode r) cs)).
Proof.
  induction 1 as [|c cs Hc _ IH]; intros Hy; [done|]. cbn [map concat] in *. rewrite map_app, Hc, IH; [done|..];
    intros y Hin; apply Hy, elem_of_app; auto.
Qed.

Lemma code_map c : (forall y, y ∈ uses c -> r' y = g (r y)) -> ccode r' c = map (pat_map g) (ccode r c).
Proof.
  induction c as [t|x|str| |yes no IHy IHn|yes IH|body IH|body IH] using com_ind; intros Hy; cbn [ccode uses] in *.
  - cbn [map pat_map]. by destruct (atoi t).
  - unfold PWord. cbn [map pat_map]. rewrite (Hy x) by by left. done.
  - cbn [map pat_map]. by rewrite pat_map_chunks.
  - done.
  - assert (E : concat (map (ccode r') yes) = map (pat_map g) (concat (map (ccode r) yes))).
    { apply codes_map_list; [done|]. intros y Hin. apply Hy. rewrite !elem_of_app. auto. }
    assert (E' : concat (map (ccode r') no) = map (pat_map g) (concat (map (ccode r) no))).
    { apply codes_map_list; [done|]. intros y Hin. apply Hy. rewrite !elem_of_app. auto. }
    rewrite E, E'. unfold PWord. rewrite (Hy (str_of "if")), (Hy (str_of "elif")), (Hy (str_of "endif")) by set_solver.
    cbn [map pat_map]. rewrite !map_app. cbn [map pat_map]. rewrite map_app. unfold zlen. by rewrite !length_map.
  - assert (E : concat (map (ccode r') yes) = map (pat_map g) (concat (map (ccode r) yes))).
    { apply codes_map_list; [done|]. intros y Hin. apply Hy. rewrite !elem_of_app. auto. }
    rewrite E. unfold PWord. rewrite (Hy (str_of "if")), (Hy (str_of "endif")) by set_solver.
    cbn [map pat_map]. rewrite !map_app. unfold zlen. by rewrite !length_map.
  - assert (E : concat (map (ccode r') body) = map (pat_map g) (concat (map (ccode r) body))).
    { apply codes_map_list; [done|]. intros y Hin. apply Hy. rewrite !elem_of_app. auto. }
    rewrite E. unfold PWord. rewrite (Hy (str_of "do")), (Hy (str_of "loop")) by set_solver.
    cbn [map pat_map]. by rewrite !map_app.
  - assert (E : concat (map (ccode r') body) = map (pat_map g) (concat (map (ccode r) body))).
    { apply codes_map_list; [done|]. intros y Hin. apply Hy. rewrite !elem_of_app. auto. }
    rewrite E. unfold PWord. rewrite (Hy (str_of "for")), (Hy (str_of "forloop")) by set_solver.
    cbn [map pat_map]. by rewrite !map_app.
Qed.

Lemma codes_map cs : (forall y, y ∈ concat (map uses cs) -> r' y = g (r y)) -> ccodes r' cs = map (pat_map g) (ccodes r cs).
Proof. apply codes_map_list, Forall_forall. intros c _. apply code_map. Qed.
End resolve.

(** * Items *)

(** An item that [update_items] reads as it was meant. *)
Definition plain (p : pat) : Prop :=
  match p with
  | PItem t d => t <> END_TYPE /\ (t = WORD_TYPE -> d <> None)
  | PChars s => exists c s', s = c :: s' /\ c <> END_TYPE /\ c <> WORD_TYPE
  end.

Lemma plain_chunks n : forall s, forallb string_char s = true -> (length s < n)%nat -> Forall plain (chunks n (s ++ [0])).
Proof.
  induction n as [|n IH]; intros s Hs Hn; [lia|]. destruct (chunks_step s n) as (w & rest & -> & Hw).
  assert (Hhd : forall c s', s = c :: s' -> c <> END_TYPE /\ c <> WORD_TYPE).
  { intros c s' ->. cbn [forallb] in Hs. apply andb_true_iff in Hs as [Hc _]. unfold string_char in Hc. unfold END_TYPE, WORD_TYPE. lia. }
  destruct Hw as [(Hl & -> & ->)|(Hl & -> & ->)]; constructor.
  - destruct s as [|c s]; [by exists 0, []|]. exists c, (s ++ [0]). split; [done|by eapply Hhd].
  - constructor.
  - destruct s as [|c s]; [simpl in Hl; lia|]. exists c, (take 15 s). split; [done|by eapply Hhd].
  - apply IH; [|rewrite length_drop; lia]. rewrite forallb_forall in Hs |- *. intros x Hx. apply Hs.
    rewrite <- (take_drop 16 s). apply in_or_app. by right.
Qed.

Lemma plain_codes_list r cs : Forall (fun c => plain_com c = true -> Forall plain (ccode r c)) cs ->
  forallb plain_com cs = true -> Forall plain (concat (map (ccode r) cs)).
Proof.
  induction 1 as [|c cs Hc _ IH]; intros Hp; [constructor|]. cbn [forallb map concat] in *.
  apply andb_true_iff in Hp as [Hp1 Hp2]. apply Forall_app; split; auto.
Qed.

Lemma plain_code r c : plain_com c = true -> Forall plain (ccode r c).
Proof.
  assert (Hw : forall x, plain (PWord r x)) by done.
  assert (Hb : forall d, plain (PItem BRANCH_TYPE (Some d))) by done.
  assert (Hl : plain (PItem LABEL_TYPE None)) by done.
  induction c as [t|x|str| |yes no IHy IHn|yes IH|body IH|body IH] using com_ind; intros Hp; cbn [ccode plain_com] in *.
  - by repeat constructor.
  - by repeat constructor.
  - constructor; [done|]. apply plain_chunks; [done|lia].
  - by repeat constructor.
  - apply andb_true_iff in Hp as [Hp1 Hp2]. pose proof (plain_codes_list r _ IHy Hp1). pose proof (plain_codes_list r _ IHn Hp2).
    repeat first [apply Forall_app; split | constructor]; auto.
  - pose proof (plain_codes_list r _ IH Hp). repeat first [apply Forall_app; split | constructor]; auto.
  - pose proof (plain_codes_list r _ IH Hp). repeat first [apply Forall_app; split | constructor]; auto.
  - pose proof (plain_codes_list r _ IH Hp). repeat first [apply Forall_app; split | constructor]; auto.
Qed.

Lemma plain_codes r cs : forallb plain_com cs = true -> Forall plain (ccodes r cs).
Proof. apply plain_codes_list, Forall_forall. intros c _. apply plain_code. Qed.

Definition renamed (old new : Z) (d : Z) : Z := if d =? old then new else d.

Lemma update_items_ok old new ps : Forall plain ps -> forall its, Forall2 fits (ps ++ [PEnd]) its ->
  exists its', update_items old new its = Some its' /\ Forall2 fits (map (pat_map (renamed old new)) ps ++ [PEnd]) its'.
Proof.
  induction 1 as [|p ps Hp _ IH]; intros its Hf; cbn [app map] in *.
  - inversion Hf as [|? it ? l Hit Hl]; subst. inversion Hl; subst. destruct it as [t d|]; [|done]. cbn in Hit. subst t.
    exists [Item END_TYPE d]. split; [done|]. by repeat constructor.
  - inversion Hf as [|? it ? l Hit Hl]; subst. destruct (IH l Hl) as (its' & E & Hf'). cbn [update_items].
    destruct p as [t d|s].
    + destruct it as [t' d'|]; [|by destruct d]. assert (t' = t) as -> by by destruct d, Hit. destruct Hp as [Hne Hd].
      cbn [item_type item_data mbind option_bind]. zif_false. rewrite E. destruct (t =? WORD_TYPE) eqn:Et.
      * zbool. destruct d as [d|]; [|by destruct (Hd Et)]. destruct Hit as [_ ->]. cbn [mbind option_bind].
        eexists. split; [done|]. constructor; [|done]. subst t. cbn. unfold renamed. by destruct (d =? old).
      * eexists. split; [done|]. constructor; [|done]. destruct d as [d|]; [|done]. cbn [pat_map]. by rewrite Et.
    + destruct it as [|s']; [done|]. cbn in Hit. subst s'. destruct Hp as (c & s' & -> & Hc1 & Hc2).
      cbn [item_type head mbind option_bind]. zif_false. zif_false. rewrite E. eexists. split; [done|]. by constructor.
Qed.

(** * Entries *)

(** The entry keeps its place, and may have other code. *)
Definition recoded (x y : Z * word_entry) : Prop :=
  y.1 = x.1 /\ e_next y.2 = e_next x.2 /\ e_name y.2 = e_name x.2.

Lemma recoded_links es es' p : Forall2 recoded es es' -> links p es -> links p es'.
Proof.
  intros Hr. revert p. induction Hr as [|[q e] [q' e'] es es' (Hq & Hn & _) _ IH]; intros p Hl; [done|]. cbn in *. subst q'.
  destruct Hl as (-> & Hq & Hl). rewrite Hn. auto.
Qed.
Lemma recoded_signature es es' : Forall2 recoded es es' -> signature es' = signature es.
Proof. induction 1 as [|[q e] [q' e'] es es' (Hq & _ & Hn) _ IH]; [done|]. cbn in *. by rewrite Hq, Hn; f_equal. Qed.
Lemma signature_app es1 es2 : signature (es1 ++ es2) = signature es1 ++ signature es2.
Proof. apply map_app. Qed.
Lemma signature_keys es es' : signature es' = signature es -> es'.*1 = es.*1.
Proof.
  intros E. assert (H : forall l : entries, l.*1 = map fst (signature l)).
  { intros l. unfold signature. rewrite map_map. by induction l as [|x l IH]; [|cbn; f_equal]. }
  by rewrite (H es'), (H es), E.
Qed.

(** Every entry is stored again. *)
Lemma update_references_ok old new es es' : Forall2 (fun x y => y.1 = x.1 /\ update_entry old new x.2 = Some y.2) es es' ->
  NoDup es.*1 -> forall words, holds words es -> exists words', update_references old new es words = Some words' /\
    holds words' es' /\ (forall q, q ∉ es.*1 -> words' !! q = words !! q) /\ dom words' = dom words.
Proof.
  induction 1 as [|[p e] [p' e'] es es' [Hp He] Hf IH]; intros Hnd words Hh.
  - exists words. split; [done|]. split; [constructor|done].
  - cbn [fst snd] in *. subst p'. rewrite fmap_cons in *. cbn [fst] in *. pose proof (NoDup_cons_1_1 _ _ Hnd) as Hn. apply NoDup_cons_1_2 in Hnd.
    apply Forall_cons_1 in Hh as [Hpe Hh]. cbn [fst snd] in Hpe.
    destruct (IH Hnd (<[p := e']> words)) as (words' & E & Hh' & Ho & Hd); [by apply holds_insert|].
    exists words'. cbn [update_references]. rewrite He. cbn [mbind option_bind]. split; [exact E|]. split; [|split].
    + constructor; [|done]. cbn [fst snd]. rewrite Ho by done. apply lookup_insert_eq.
    + intros q Hq. apply not_elem_of_cons in Hq as [Hq1 Hq2]. rewrite Ho by done. by apply lookup_insert_ne.
    + rewrite Hd. apply dom_insert_lookup_L. by exists e.
Qed.

(** The entry before the one that is taken out. *)
Fixpoint relink (es : entries) (next : Z) : entries :=
  match es with
  | [] => []
  | (p, e) :: es' =>
      match es' with
      | [] => [(p, mk_entry next (e_name e) (e_fn e) (e_list e))]
      | _ => (p, e) :: relink es' next
      end
  end.

Lemma relink_recoded (P : Z * word_entry -> Z * word_entry -> Prop) es next :
  (forall x, P x x) -> (forall p e, P (p, e) (p, mk_entry next (e_name e) (e_fn e) (e_list e))) -> Forall2 P es (relink es next).
Proof.
  intros H1 H2. induction es as [|[p e] es IH]; [constructor|]. destruct es; constructor; auto; constructor.
Qed.
Lemma relink_signature es next : signature (relink es next) = signature es.
Proof. induction es as [|[p e] es IH]; [done|]. destruct es; [done|]. cbn [relink signature map] in *. f_equal. exact IH. Qed.

Lemma links_app p es1 q e es2 : links p (es1 ++ (q, e) :: es2) -> links (e_next e) es2.
Proof. revert p. induction es1 as [|[p' e'] es1 IH]; intros p; cbn [app links]; [tauto|]. intros (_ & _ & H). by eapply IH. Qed.

Lemma links_address p es1 q e es2 : links p (es1 ++ (q, e) :: es2) -> q <> 0.
Proof. revert p. induction es1 as [|[p' e'] es1 IH]; intros p; cbn [app links]; [tauto|]. intros (_ & _ & H). by eapply IH. Qed.

Lemma links_relink p es1 q e es2 : links p (es1 ++ (q, e) :: es2) -> es1 <> [] -> links p (relink es1 (e_next e) ++ es2).
Proof.
  revert p. induction es1 as [|[p' e'] es1 IH]; intros p Hl Hne; [done|]. destruct Hl as (-> & Hp & Hl).
  destruct es1 as [|x es1]; cbn [relink app links e_next].
  - split; [done|]. split; [done|]. by destruct Hl as (_ & _ & Hl).
  - split; [done|]. split; [done|]. by apply IH.
Qed.

Lemma unlink_loop_ok old eo next es2 : forall es1 p words, links p (es1 ++ (old, eo) :: es2) -> es1 <> [] ->
  NoDup (es1 ++ (old, eo) :: es2).*1 -> holds words es1 ->
  exists words', unlink_loop (es1 ++ (old, eo) :: es2) old next words = Some words' /\ holds words' (relink es1 next) /\
    (forall q, q ∉ es1.*1 -> words' !! q = words !! q) /\ dom words' = dom words.
Proof.
  induction es1 as [|[p1 e1] es1 IH]; intros p words Hl Hne Hnd Hh; [done|]. destruct Hl as (-> & Hp & Hl). cbn [app unlink_loop].
  apply Forall_cons_1 in Hh as [He Hh]. cbn [fst snd] in He. cbn [app] in Hnd. rewrite fmap_cons in Hnd. cbn [fst] in Hnd.
  pose proof (NoDup_cons_1_1 _ _ Hnd) as Hn. apply NoDup_cons_1_2 in Hnd.
  destruct es1 as [|[p2 e2] es1].
  - cbn [app links] in Hl. destruct Hl as (-> & _ & _). rewrite Z.eqb_refl, He. cbn [mbind option_bind]. eexists. split; [done|].
    split; [|split].
    + constructor; [|constructor]. apply lookup_insert_eq.
    + intros q Hq. apply lookup_insert_ne. intros ->. apply Hq. by left.
    + apply dom_insert_lookup_L. by exists e1.
  - pose proof Hl as Hl'. cbn [app links] in Hl'. destruct Hl' as (En & _ & _). rewrite En.
    assert (Hneq : p2 <> old).
    { intros ->. cbn [app] in Hnd. rewrite fmap_cons in Hnd. apply NoDup_cons_1_1 in Hnd. apply Hnd. rewrite fmap_app. apply elem_of_app. right. by left. }
    zif_false. destruct (IH _ words Hl) as (words' & E & Hh' & Ho & Hd); [done|done|done|].
    exists words'. split; [exact E|]. split; [|split; [|done]].
    + cbn [relink]. constructor; [|exact Hh']. cbn [fst snd]. rewrite Ho; [done|].
      intros Hin. apply Hn. rewrite fmap_app. apply elem_of_app. by left.
    + intros q Hq. apply Ho. intros Hin. apply Hq. by right.
Qed.

Lemma holds_app words es1 es2 : holds words (es1 ++ es2) <-> holds words es1 /\ holds words es2.
Proof. apply Forall_app. Qed.
Lemma holds_other words words' es : (forall q, q ∈ es.*1 -> words' !! q = words !! q) -> holds words es -> holds words' es.
Proof.
  unfold holds. rewrite !Forall_forall. intros Ho Hh [q e] Hin. cbn [fst snd]. rewrite Ho; [by apply (Hh (q, e))|].
  apply list_elem_of_fmap. exists (q, e). split; [done|]. by apply list_elem_of_In.
Qed.
Lemma relink_keys es next : (relink es next).*1 = es.*1.
Proof. apply signature_keys, relink_signature. Qed.

Lemma unlink_ok d es1 old eo es2 words : let es := es1 ++ (old, eo) :: es2 in
  links d es -> NoDup es.*1 -> holds words es -> exists words' d',
  unlink es d old (e_next eo) words = Some (words', d') /\ links d' (relink es1 (e_next eo) ++ es2) /\
  holds (delete old words') (relink es1 (e_next eo) ++ es2) /\ dom words' = dom words.
Proof.
  intros es Hl Hnd Hh. unfold es, unlink in *. pose proof Hnd as Hnd'. rewrite fmap_app, fmap_cons in Hnd'. cbn [fst] in Hnd'.
  apply list.NoDup_app in Hnd' as (Hn1 & Hn2 & Hn3). pose proof (NoDup_cons_1_1 _ _ Hn3) as Hn4.
  apply holds_app in Hh as [Hh1 Hh2]. apply Forall_cons_1 in Hh2 as [_ Hh2].
  destruct es1 as [|[p e] es1].
  - cbn [app links relink] in *. destruct Hl as (-> & _ & Hl). rewrite Z.eqb_refl. exists words, (e_next eo).
    split; [done|]. split; [done|]. split; [|done]. eapply holds_other; [|exact Hh2]. intros q Hq. apply lookup_delete_ne. by intros ->.
  - pose proof Hl as (-> & _ & _). assert (Hne : p <> old).
    { intros ->. apply (Hn2 old); [rewrite fmap_cons; by left|by left]. }
    rewrite (proj2 (Z.eqb_neq p old)) by done.
    destruct (unlink_loop_ok old eo (e_next eo) es2 ((p, e) :: es1) p words) as (words' & E & Hh' & Ho & Hd); try done.
    rewrite E. cbn [mbind option_bind]. exists words', p. split; [done|]. split; [by eapply links_relink|]. split; [|done].
    apply holds_app. split.
    + eapply holds_other; [|exact Hh']. intros q Hq. rewrite relink_keys in Hq. apply lookup_delete_ne. intros ->. apply (Hn2 q Hq). by left.
    + eapply holds_other; [|exact Hh2]. intros q Hq. rewrite lookup_delete_ne by by intros ->. apply Ho.
      intros Hin. apply (Hn2 q Hin). by right.
Qed.

(** * The dictionary of the definitions [D] *)

Section store.
Context `{KforthLibOk}.

(** A compiled word holds the code of its definition. *)
Definition word_at (r : bytes -> Z) (d : bytes * list com) (x : Z * word_entry) : Prop :=
  e_name x.2 = d.1 /\ e_fn x.2 = NoFn /\ exists l, e_list x.2 = Some l /\ zlen l <= MAX_COMPILE_WORDS /\
    Forall2 fits (ccodes r d.2 ++ [PEnd]) l /\ forallb plain_com d.2 = true /\
    Forall (fun y => r y <> 0) (concat (map uses d.2)).

Record dict_ok (D : list (bytes * list com)) (ram : entries) (st : kforth_t) : Prop := {
  do_links : links (k_dictionary st) (ram ++ consts);
  do_holds : holds (k_words st) (ram ++ consts);
  do_nodup : NoDup (ram ++ consts).*1;
  do_words : Forall2 (word_at (resolve_in (ram ++ consts))) D ram;
  do_names : NoDup D.*1;
  do_special : Forall (fun d => (d.1 ∉ specials) /\ word_ok d.1 = true) D }.

Lemma dict_entries D ram st : dict_ok D ram st -> dictionary_entries st = Some (ram ++ consts).
Proof. intros [H1 H2 H3 _ _ _]. by apply dictionary_links. Qed.

Lemma words_names r D ram : Forall2 (word_at r) D ram -> map snd (signature ram) = (D.*1).
Proof. induction 1 as [|[x b] [p e] D ram (Hn & _) _ IH]; [done|]. cbn in *. by rewrite Hn; f_equal. Qed.

Lemma signature_name (l : list (Z * bytes)) p x : (p, x) ∈ l -> x ∈ map snd l.
Proof. intros Hin. apply list_elem_of_In, in_map_iff. exists (p, x). split; [done|]. by apply list_elem_of_In. Qed.

(** A name that is not defined is looked for among the primitives. *)
Lemma resolve_undefined r D ram x : Forall2 (word_at r) D ram -> x ∉ D.*1 -> resolve_in (ram ++ consts) x = resolve_in consts x.
Proof.
  intros Hw Hx. rewrite !resolve_sig, signature_app. apply find_sig_app. intros p Hp. apply Hx.
  rewrite <- (words_names _ _ _ Hw). by eapply signature_name.
Qed.

(** A defined one is found in its place. *)
Lemma resolve_defined r D1 ram1 ram2 x p e : Forall2 (word_at r) D1 ram1 -> x ∉ D1.*1 -> e_name e = x ->
  resolve_in ((ram1 ++ (p, e) :: ram2) ++ consts) x = p.
Proof.
  intros Hw Hx He. rewrite <- app_assoc, resolve_sig, signature_app, find_sig_app.
  - cbn [signature app map fst snd]. by rewrite find_sig_cons, He, decide_True.
  - intros q Hq. apply Hx. rewrite <- (words_names _ _ _ Hw). by eapply signature_name.
Qed.

(** An address belongs to one name. *)
Lemma resolve_in_list es x : resolve_in es x <> 0 -> exists e, (resolve_in es x, e) ∈ es /\ e_name e = x.
Proof.
  unfold resolve_in. induction es as [|[p e] es IH]; [done|]. rewrite find_name_cons. destruct (decide (e_name e = x)) as [He|He].
  - intros _. exists e. split; [by left|done].
  - intros (e' & Hin & ?)%IH. exists e'. split; [by right|done].
Qed.

Lemma entry_unique (es : entries) p e e' : NoDup es.*1 -> (p, e) ∈ es -> (p, e') ∈ es -> e = e'.
Proof.
  intros Hnd H1 H2. apply list_elem_of_lookup in H1 as [i Hi]. apply list_elem_of_lookup in H2 as [j Hj].
  assert (i = j) as <-.
  { eapply (NoDup_lookup es.*1); [done|by rewrite list_lookup_fmap, Hi|by rewrite list_lookup_fmap, Hj]. }
  by simplify_eq.
Qed.

Lemma resolve_inj es x y : NoDup es.*1 -> resolve_in es x <> 0 -> resolve_in es y = resolve_in es x -> y = x.
Proof.
  intros Hnd Hx E. destruct (resolve_in_list es x Hx) as (e & Hin & <-).
  destruct (resolve_in_list es y) as (e' & Hin' & <-); [congruence|]. rewrite E in Hin'. by rewrite (entry_unique _ _ _ _ Hnd Hin Hin').
Qed.

(** * Another dictionary *)

Section update.
Variables (r : bytes -> Z) (old new : Z).
Hypothesis Hnew : new <> 0.

(** The names that meant [old] mean [new]. *)
Definition moves (r' : bytes -> Z) : Prop := forall y, r y <> 0 -> r' y = renamed old new (r y).

Lemma moves_nonzero r' y : moves r' -> r y <> 0 -> r' y <> 0.
Proof. intros Hr' Hy. rewrite Hr' by done. unfold renamed. by destruct (r y =? old). Qed.

Lemma word_updated d p e : word_at r d (p, e) -> exists e', update_entry old new e = Some e' /\
  recoded (p, e) (p, e') /\ forall r', moves r' -> word_at r' d (p, e').
Proof.
  intros (Hn & Hf & l & Hl & Hlen & Hits & Hp & Hu). cbn [fst snd] in *.
  destruct (update_items_ok old new _ (plain_codes r _ Hp) l Hits) as (l' & E & Hits').
  exists (mk_entry (e_next e) (e_name e) (e_fn e) (Some l')). unfold update_entry. rewrite Hf, Hl, E. split; [done|].
  split; [done|]. intros r' Hr'. split; [done|]. split; [done|]. exists l'. split; [done|]. cbn [fst snd].
  rewrite Forall_forall in Hu. split; [|split; [|split; [done|]]].
  - apply Forall2_length in Hits, Hits'. unfold zlen in *. rewrite length_app, ?length_map in *. lia.
  - rewrite (codes_map r r' (renamed old new)); [done|]. intros y Hy. by apply Hr', Hu, list_elem_of_In.
  - apply Forall_forall. intros y Hy. apply moves_nonzero, Hu, Hy. done.
Qed.

Lemma words_updated D ram : Forall2 (word_at r) D ram -> exists ram',
  Forall2 (fun x y => y.1 = x.1 /\ update_entry old new x.2 = Some y.2) ram ram' /\ Forall2 recoded ram ram' /\
  forall r', moves r' -> Forall2 (word_at r') D ram'.
Proof.
  induction 1 as [|d [p e] D ram Hw _ (ram' & H1 & H2 & H3)]; [by exists []|].
  destruct (word_updated _ _ _ Hw) as (e' & He & Hre & Hw'). exists ((p, e') :: ram').
  split; [by constructor|]. split; [by constructor|]. constructor; auto.
Qed.

Lemma consts_updated : Forall2 (fun x y => y.1 = x.1 /\ update_entry old new x.2 = Some y.2) consts consts.
Proof. unfold consts. induction dictionary_1 as [|[x f] l IH]; constructor; [done|exact IH]. Qed.

(** Without a word to replace, nothing is stored. *)
Lemma word_same d x r' : old = 0 -> moves r' -> word_at r d x -> word_at r' d x.
Proof.
  intros Hold Hr' (Hn & Hf & l & Hl & Hlen & Hits & Hp & Hu). split; [done|]. split; [done|]. exists l. split; [done|]. split; [done|].
  assert (Hsame : forall y, y ∈ concat (map uses d.2) -> r' y = id (r y)).
  { intros y Hy. rewrite Forall_forall in Hu. pose proof (Hu y (proj1 (list_elem_of_In _ _) Hy)). rewrite Hr' by done. unfold renamed. by rewrite Hold, (proj2 (Z.eqb_neq (r y) 0)). }
  rewrite (codes_map r r' id), pat_map_id by done. split; [done|]. split; [done|]. eapply Forall_impl; [|exact Hu]. intros y. by apply moves_nonzero.
Qed.
End update.

(** * A definition is stored *)

Definition without (x : bytes) (D : list (bytes * list com)) : list (bytes * list com) := filter (fun d => d.1 <> x) D.

Lemma without_none x D : x ∉ D.*1 -> without x D = D.
Proof.
  unfold without. induction D as [|[y b] D IH]; intros Hx; [done|]. rewrite fmap_cons in Hx. apply not_elem_of_cons in Hx as [Hx1 Hx2].
  rewrite filter_cons, decide_True by (cbn in *; congruence). by rewrite IH.
Qed.
Lemma without_middle x b D1 D2 : NoDup (D1 ++ (x, b) :: D2).*1 -> without x (D1 ++ (x, b) :: D2) = D1 ++ D2.
Proof.
  intros Hnd. rewrite fmap_app, fmap_cons in Hnd. apply list.NoDup_app in Hnd as (_ & Hd & Hnd2). apply NoDup_cons_1_1 in Hnd2.
  unfold without. rewrite list.filter_app, filter_cons, decide_False by (cbn; tauto). f_equal; apply without_none; [|done].
  intros Hx. apply (Hd x Hx). by left.
Qed.
Lemma without_names x D : x ∉ (without x D).*1.
Proof. intros ([y b] & -> & Hin)%list_elem_of_fmap. unfold without in Hin. apply list_elem_of_filter in Hin as [Hne _]. done. Qed.
Lemma Forall_sublist {A} (P : A -> Prop) l1 l2 : sublist l1 l2 -> Forall P l2 -> Forall P l1.
Proof.
  induction 1 as [|y l1 l2 _ IH|y l1 l2 _ IH]; intros Hf; [done|..]; apply Forall_cons_1 in Hf as [Hy Hf]; auto.
Qed.
Lemma without_sub x D : sublist (without x D) D.
Proof.
  unfold without. induction D as [|d D IH]; [constructor|]. rewrite filter_cons. destruct (decide (d.1 <> x)); by constructor.
Qed.

(** The stored code of the new word. *)
Record storable (D : list (bytes * list com)) (r : bytes -> Z) (x : bytes) (body : list com) (len : Z) (st : kforth_t) : Prop := {
  sb_special : x ∉ specials;
  sb_word : word_ok x = true;
  sb_len : len = zlen (ccodes r body) + 1;
  sb_small : len <= MAX_COMPILE_WORDS;
  sb_code : seg (k_new_word_list st) 0 (ccodes r body ++ [PEnd]);
  sb_plain : forallb plain_com body = true;
  sb_uses : Forall (fun y => r y <> 0 /\ y <> x) (concat (map uses body)) }.

Lemma storable_word D r r' x body len st e : storable D r x body len st -> (forall y, y <> x -> r' y = r y) ->
  e_name e = x -> e_fn e = NoFn -> e_list e = Some (take (Z.to_nat len) (k_new_word_list st)) -> forall p, word_at r' (x, body) (p, e).
Proof.
  intros [_ _ Hlen Hsmall Hcode Hp Hu] Hr Hn Hf Hl p. split; [done|]. split; [done|]. eexists. split; [exact Hl|]. cbn [fst snd].
  rewrite Forall_forall in Hu. rewrite (codes_map r r' id), pat_map_id.
  2: { intros y Hy. apply Hr. by apply (Hu y), list_elem_of_In. }
  assert (El : length (ccodes r body ++ [PEnd]) = Z.to_nat len) by (rewrite length_app; cbn [length]; unfold zlen in Hlen; lia).
  split; [unfold zlen; rewrite length_take; unfold MAX_COMPILE_WORDS in *; lia|]. split; [|split; [done|]].
  - destruct Hcode as [_ Hcode]. by rewrite El in Hcode.
  - apply Forall_forall. intros y Hy. destruct (Hu y Hy) as [H1 H2]. by rewrite Hr.
Qed.

(** The new entry at the head of the others. *)
Lemma dict_ok_new D ram words d st x body len new e : x ∉ D.*1 -> new <> 0 -> words !! new = None ->
  let r' := resolve_in ((new, e) :: ram ++ consts) in
  e = mk_entry d x NoFn (Some (take (Z.to_nat len) (k_new_word_list st))) ->
  word_at r' (x, body) (new, e) -> x ∉ specials -> word_ok x = true ->
  links d (ram ++ consts) -> holds words (ram ++ consts) -> NoDup (ram ++ consts).*1 -> Forall2 (word_at r') D ram ->
  NoDup D.*1 -> Forall (fun d => (d.1 ∉ specials) /\ word_ok d.1 = true) D ->
  dict_ok ((x, body) :: D) ((new, e) :: ram) (set_words (<[new := e]> words) new st).
Proof.
  intros Hx Hnew Hn r' -> Hw Hsp Hok Hl Hh Hnd HD HDn HDs.
  assert (Hfresh : new ∉ (ram ++ consts).*1).
  { intros ([q e] & -> & Hin)%list_elem_of_fmap. unfold holds in Hh. rewrite Forall_forall in Hh.
    pose proof (Hh _ (proj1 (list_elem_of_In _ _) Hin)) as E. cbn in *. congruence. }
  split.
  - cbn. done.
  - constructor; [apply lookup_insert_eq|]. by apply holds_insert.
  - cbn [app]. rewrite fmap_cons. by constructor.
  - cbn [app]. by constructor.
  - rewrite fmap_cons. by constructor.
  - by constructor.
Qed.

Section stored.
Variables (D : list (bytes * list com)) (ram : entries) (st : kforth_t) (x : bytes) (body : list com) (len : Z).
Hypothesis Hd : dict_ok D ram st.
Abbreviation es := (ram ++ consts).
Abbreviation r := (resolve_in es).
Hypothesis Hs : storable D r x body len st.

Definition new_address : Z := platform_malloc (map_to_list (k_words st)).*1 (word_size len x).
Abbreviation new := new_address.

Hypothesis new_nonzero : new <> 0.
Lemma new_fresh : k_words st !! new = None.
Proof.
  destruct (k_words st !! new) as [e|] eqn:E; [|done]. destruct (malloc_fresh (map_to_list (k_words st)).*1 (word_size len x) new_nonzero).
  apply list_elem_of_fmap. exists (new, e). split; [done|]. by apply elem_of_map_to_list.
Qed.

Lemma get_word_here : get_word_by_name x st = Some (r x, st).
Proof.
  unfold get_word_by_name. assert (E : get_entries st = Some (es, st)) by (unfold get_entries; by rewrite (dict_entries _ _ _ Hd)).
  by rewrite (fbind _ _ _ _ _ E).
Qed.

(** What the names mean afterwards. *)
Lemma names_after es1 e : e_name e = x -> (forall y, y <> x -> resolve_in es1 y = r y) ->
  let r' := resolve_in ((new, e) :: es1) in
  (forall y, y <> x -> r' y = r y) /\ moves r (r x) new r'.
Proof.
  intros He H1 r'. assert (Hne : forall y, y <> x -> r' y = r y).
  { intros y Hy. unfold r'. unfold resolve_in at 1. rewrite find_name_cons, decide_False by congruence. by apply H1. }
  split; [done|]. intros y Hy. unfold renamed. destruct (decide (y = x)) as [->|Hyx].
  - rewrite Z.eqb_refl. unfold r', resolve_in at 1. by rewrite find_name_cons, decide_True.
  - rewrite (proj2 (Z.eqb_neq (r y) (r x))); [by apply Hne|]. intros E. apply Hyx.
    symmetry. eapply (resolve_inj es); [apply (do_nodup _ _ _ Hd)|exact Hy|done].
Qed.

(** What is stored: the entry with the code and whatever the block held, and where that
    is NULL the dictionary stands for the definitions. *)
Definition stored_as (words' : gmap Z word_entry) (D' : list (bytes * list com)) (ram' : entries) : Prop :=
  (exists next, words' !! new = Some (mk_entry next x (malloc_word_fn new) (Some (take (Z.to_nat len) (k_new_word_list st))))) /\
  (malloc_word_fn new = NoFn -> dict_ok D' ram' (set_words words' new st)).

(** The last part of [store_word]. *)
Lemma store_new ram1 D1 words d : x ∉ D1.*1 -> NoDup D1.*1 -> Forall (fun d => (d.1 ∉ specials) /\ word_ok d.1 = true) D1 ->
  words !! new = None -> links d (ram1 ++ consts) -> holds words (ram1 ++ consts) -> NoDup (ram1 ++ consts).*1 ->
  (forall y, y <> x -> resolve_in (ram1 ++ consts) y = r y) ->
  (forall r', moves r (r x) new r' -> Forall2 (word_at r') D1 ram1) ->
  exists words' ram',
    (if new =? 0 then fundef
     else
       code ← fgets (fun st => take (Z.to_nat len) (k_new_word_list st));
       fmodify (fun st => set_words (<[new := mk_entry (k_dictionary st) x (malloc_word_fn new) (Some code)]> (k_words st)) new st))
      (set_words words d st) = Some (tt, set_words words' new st) /\
    stored_as words' ((x, body) :: D1) ram'.
Proof.
  intros Hx HDn HDs Hw Hl Hh Hnd Hne HD. pose proof new_nonzero as Hn0. rewrite (proj2 (Z.eqb_neq new 0)) by done.
  set (e := mk_entry d x (malloc_word_fn new) (Some (take (Z.to_nat len) (k_new_word_list st)))).
  destruct (names_after (ram1 ++ consts) e eq_refl Hne) as [H1 H2].
  exists (<[new := e]> words), ((new, e) :: ram1). split.
  - by rewrite (fbind _ _ _ _ _ eq_refl).
  - split; [exists d; apply lookup_insert_eq|]. intros Hc. unfold e in *. rewrite Hc in *.
    eapply (dict_ok_new D1 ram1 words d st x body len new); try done; [|apply Hs..|by apply HD].
    by eapply storable_word.
Qed.

Lemma nodup_recoded l : Forall2 recoded ram l -> NoDup (l ++ consts).*1 /\ (forall y, resolve_in (l ++ consts) y = r y).
Proof.
  intros Hr. apply recoded_signature in Hr. split.
  - rewrite (signature_keys es); [apply (do_nodup _ _ _ Hd)|]. by rewrite !signature_app, Hr.
  - intros y. by rewrite !resolve_sig, !signature_app, Hr.
Qed.

(** A new name. *)
Lemma store_unknown : r x = 0 -> exists words' ram', store_word x len st = Some (tt, set_words words' new st) /\
  stored_as words' ((x, body) :: without x D) ram'.
Proof.
  intros H0'. assert (Hx : x ∉ D.*1).
  { intros ([y b] & -> & Hin)%list_elem_of_fmap. apply list_elem_of_split in Hin as (D1 & D2 & E).
    pose proof (do_words _ _ _ Hd) as Hw. pose proof (do_names _ _ _ Hd) as Hnd. rewrite E in Hw, Hnd.
    apply Forall2_app_inv_l in Hw as (ram1 & l & Hw1 & Hw2 & El). inversion Hw2 as [|? [p e] ? ram2 (Hn & _) _]; subst l. cbn [fst] in *.
    assert (Hp : p <> 0).
    { pose proof (do_links _ _ _ Hd) as Hl. rewrite El, <- app_assoc in Hl. by eapply links_address. }
    apply Hp. rewrite <- H0', El. symmetry. eapply resolve_defined; [exact Hw1| |done].
    rewrite fmap_app in Hnd. apply list.NoDup_app in Hnd as (_ & Hd1 & _). intros Hin. apply (Hd1 _ Hin). by left. }
  rewrite without_none by done. pose proof Hd as [Hl Hh Hnd HD HDn HDs].
  destruct (store_new ram D (k_words st) (k_dictionary st)) as (words' & ram' & E & Hok); try done; [apply new_fresh| |].
  - intros r' Hm. eapply Forall2_impl; [|exact HD]. intros d y. by apply (word_same r (r x) new new_nonzero).
  - exists words', ram'. split; [|done]. unfold store_word. rewrite (fbind _ _ _ _ _ eq_refl). cbv zeta. fold new.
    rewrite (fbind _ _ _ _ _ get_word_here), H0'. cbn [Z.eqb]. rewrite (fbind _ _ _ _ _ eq_refl).
    destruct st. exact E.
Qed.

Lemma all_updated : exists ram' words, Forall2 recoded ram ram' /\
  update_references (r x) new es (k_words st) = Some words /\ holds words (ram' ++ consts) /\
  words !! new = None /\ forall r', moves r (r x) new r' -> Forall2 (word_at r') D ram'.
Proof.
  destruct (words_updated r (r x) new new_nonzero D ram (do_words _ _ _ Hd)) as (ram' & Hup & Hre & Hw).
  destruct (update_references_ok (r x) new es (ram' ++ consts)) with (words := k_words st) as (words & E & Hh & _ & Hdom);
    [by apply Forall2_app, consts_updated|apply Hd..|].
  exists ram', words. split; [done|]. split; [done|]. split; [done|]. split; [|done].
  apply not_elem_of_dom. rewrite Hdom. apply not_elem_of_dom, new_fresh.
Qed.

Lemma holds_entry words (l : entries) p e : holds words l -> (p, e) ∈ l -> words !! p = Some e.
Proof. unfold holds. rewrite Forall_forall. intros Hh Hin. by apply (Hh (p, e)), list_elem_of_In. Qed.

(** The beginning, when there is a word of this name. *)
Lemma store_found (words : gmap Z word_entry) e (a : kforth_t) : r x <> 0 ->
  update_references (r x) new es (k_words st) = Some words -> words !! r x = Some e ->
  (match e_fn e with
   | NoFn =>
       l ← get_entries;
       y ← flift (unlink l (k_dictionary st) (r x) (e_next e) words);
       set_dictionary y;;
       fmodify (fun st => set_words (delete (r x) (k_words st)) (k_dictionary st) st)
   | _ => mret tt
   end) (set_words words (k_dictionary st) st) = Some (tt, a) ->
  store_word x len st =
    (if new =? 0 then fundef
     else
       code ← fgets (fun st => take (Z.to_nat len) (k_new_word_list st));
       fmodify (fun st => set_words (<[new := mk_entry (k_dictionary st) x (malloc_word_fn new) (Some code)]> (k_words st)) new st)) a.
Proof.
  intros Hx Hup He Hrest. unfold store_word. rewrite (fbind _ _ _ _ _ eq_refl). cbv zeta. fold new.
  rewrite (fbind _ _ _ _ _ get_word_here). rewrite (proj2 (Z.eqb_neq (r x) 0)) by done.
  assert (Hes : get_entries st = Some (es, st)) by (unfold get_entries; by rewrite (dict_entries _ _ _ Hd)).
  assert (Hge : get_entry (r x) (set_words words (k_dictionary st) st) = Some (e, set_words words (k_dictionary st) st))
    by (unfold get_entry; cbn [k_words set_words]; by rewrite He).
  match goal with |- (?m ≫= _) _ = _ => assert (E : m st = Some (tt, a)) end; [|by rewrite (fbind _ _ _ _ _ E)].
  rewrite (fbind _ _ _ _ _ Hes). rewrite (fbind _ _ _ _ _ eq_refl).
  rewrite (fbind _ _ _ words st) by (unfold flift; by rewrite Hup). rewrite (fbind _ _ _ _ _ eq_refl).
  rewrite (fbind _ _ _ _ _ eq_refl). cbn [fst snd]. rewrite (fbind _ _ _ _ _ Hge). exact Hrest.
Qed.

(** The name of a primitive. *)
Lemma store_primitive : x ∉ D.*1 -> r x <> 0 -> exists words' ram',
  store_word x len st = Some (tt, set_words words' new st) /\
  stored_as words' ((x, body) :: without x D) ram'.
Proof.
  intros Hx Hrx. rewrite without_none by done. pose proof Hd as [Hl Hh Hnd HD HDn HDs].
  destruct all_updated as (ram1 & words & Hre & Hup & Hh1 & Hn & Hw).
  destruct (nodup_recoded ram1 Hre) as [Hnd1 Hsame].
  assert (He : exists f e, (r x, e) ∈ consts /\ e_fn e = Fn f).
  { pose proof Hrx as Hp. rewrite (resolve_undefined _ _ _ _ HD Hx), const_prim in Hp |- *.
    destruct (find_prim x) as [f|] eqn:E; [|done]. destruct (const_entry x f E) as (e & Hin & Hf & _). by exists f, e. }
  destruct He as (f & e & Hin & Hf).
  assert (Hwe : words !! r x = Some e) by (eapply holds_entry; [exact Hh1|apply elem_of_app; by right]).
  destruct (store_new ram1 D words (k_dictionary st)) as (words' & ram' & E & Hok); try done.
  - eapply recoded_links; [|exact Hl]. apply Forall2_app; [done|]. clear. induction consts; constructor; [done|exact IHe].
  - exists words', ram'. split; [|done]. rewrite (store_found words e (set_words words (k_dictionary st) st)); [exact E|done..|].
    by rewrite Hf.
Qed.

(** A word that is defined again. *)
Lemma store_again D1 b D2 : D = D1 ++ (x, b) :: D2 -> exists words' ram',
  store_word x len st = Some (tt, set_words words' new st) /\
  stored_as words' ((x, body) :: without x D) ram'.
Proof.
  intros ED. pose proof Hd as [Hl Hh Hnd HD HDn HDs].
  destruct all_updated as (ram1 & words & Hre & Hup & Hh1 & Hn & Hw).
  destruct (nodup_recoded ram1 Hre) as [Hnd1 Hsame].
  assert (Hl1 : links (k_dictionary st) (ram1 ++ consts)).
  { eapply recoded_links; [|exact Hl]. apply Forall2_app; [done|]. clear. induction consts; constructor; [done|exact IHe]. }
  assert (Hw1 : Forall2 (word_at (fun y => renamed (r x) new (r y))) D ram1) by (apply Hw; by intros y _).
  assert (Hx : x ∉ D1.*1).
  { rewrite ED, fmap_app in HDn. apply list.NoDup_app in HDn as (_ & Hd1 & _). intros Hin. apply (Hd1 _ Hin). by left. }
  pose proof Hw1 as Hw1'. rewrite ED in Hw1'. apply Forall2_app_inv_l in Hw1' as (u1 & l & Hu1 & Hu2 & Eu).
  inversion Hu2 as [|? [p eo] ? u2 (Hn1 & Hf & _) Hu2']; subst l. cbn [fst snd] in *.
  assert (Hrx : r x = p) by (rewrite <- Hsame, Eu; by eapply resolve_defined).
  rewrite Eu, <- app_assoc in Hl1, Hnd1, Hh1. cbn [app] in *.
  assert (Hp : p <> 0) by by eapply links_address.
  destruct (unlink_ok _ _ _ _ _ _ Hl1 Hnd1 Hh1) as (words2 & d2 & Eun & Hl2 & Hh2 & Hdom).
  assert (Ed : without x D = D1 ++ D2) by (rewrite ED; apply without_middle; by rewrite <- ED).
  destruct (store_new (relink u1 (e_next eo) ++ u2) (D1 ++ D2) (delete p words2) d2) as (words' & ram' & E & Hok).
  - rewrite <- Ed. apply without_names.
  - rewrite <- Ed. eapply sublist_NoDup; [exact HDn|]. apply fmap_sublist, without_sub.
  - rewrite <- Ed. eapply Forall_sublist; [apply without_sub|exact HDs].
  - apply not_elem_of_dom. rewrite dom_delete_L, Hdom. intros [Hin _]%elem_of_difference. by apply elem_of_dom in Hin as [? ?]; congruence.
  - by rewrite <- app_assoc.
  - by rewrite <- app_assoc.
  - rewrite <- app_assoc, fmap_app, relink_keys, <- fmap_app. eapply sublist_NoDup; [exact Hnd1|].
    apply fmap_sublist, sublist_app; [done|]. by constructor.
  - intros y Hy. rewrite <- Hsame, Eu, !resolve_sig, !signature_app, relink_signature, <- !app_assoc. cbn [signature map fst snd app].
    symmetry. apply find_sig_without. by rewrite Hn1.
  - intros r' Hm. specialize (Hw r' Hm). rewrite ED, Eu in Hw. apply Forall2_app_inv in Hw as [Ha Hb]; [|by eapply Forall2_length].
    inversion Hb; subst. apply Forall2_app; [|done].
    assert (Hrl : Forall2 (fun x y => e_name y.2 = e_name x.2 /\ e_fn y.2 = e_fn x.2 /\ e_list y.2 = e_list x.2) u1 (relink u1 (e_next eo)))
      by by apply relink_recoded.
    clear -Ha Hrl. revert Ha. generalize D1. induction Hrl as [|y z l l' (E1 & E2 & E3) _ IH]; intros D0 Ha; inversion Ha; subst; constructor; [|auto].
    unfold word_at. by rewrite E1, E2, E3.
  - exists words', ram'. rewrite Ed. split; [|done].
    rewrite (store_found words eo (set_words (delete p words2) d2 st)); [exact E|by rewrite Hrx|done|rewrite Hrx; eapply holds_entry; [exact Hh1|apply elem_of_app; right; by left]|].
    rewrite Hf, Hrx.
    assert (Hes : get_entries (set_words words (k_dictionary st) st) = Some (u1 ++ (p, eo) :: u2 ++ consts, set_words words (k_dictionary st) st)).
    { unfold get_entries. by rewrite (dictionary_links _ (u1 ++ (p, eo) :: u2 ++ consts)). }
    rewrite (fbind _ _ _ _ _ Hes). rewrite (fbind _ _ _ (words2, d2) (set_words words (k_dictionary st) st)); [done|]. unfold flift. by rewrite Eun.
Qed.

(** * The whole operation *)

Lemma store_word_ok : exists words' ram', store_word x len st = Some (tt, set_words words' new st) /\
  stored_as words' ((x, body) :: without x D) ram'.
Proof.
  destruct (decide (r x = 0)); [by apply store_unknown|]. destruct (decide (x ∈ D.*1)) as [Hin|]; [|by apply store_primitive].
  apply list_elem_of_fmap in Hin as ([y b] & Ex & Hin). cbn [fst] in Ex.
  apply list_elem_of_split in Hin as (D1 & D2 & E). rewrite <- Ex in E. by eapply store_again.
Qed.
End stored.
End store.
