(* ===== verification/KforthSession.v ===== *)
(** The statements of kforth against the reference: a line is compiled and runs, or
    defines a word, and the console goes on to the next one. *)
From Stdlib Require Import Ascii String.
From S2P Require Import Prelude CText Kforth KforthCompile KforthRef KforthRun KforthCode KforthExec KforthRead KforthDict KforthStore.

(** * The reference for lines *)

Definition defs : Type := list (bytes * list com).

Definition known (D : defs) (x : bytes) : bool :=
  match find_def x D, find_prim x with None, None => false | _, _ => true end.

(** What the compiler reads as it is meant, in the definition of [name]. *)
Fixpoint readable (D : defs) (name : bytes) (c : com) : bool :=
  match c with
  | CNum t =>
      word_ok t && is_int t && bool_decide (atoi t <> None) && negb (known D t) && bool_decide (t <> name) &&
      bool_decide (t ∉ specials)
  | CWord x => word_ok x && known D x && bool_decide (x <> name) && bool_decide (x ∉ specials)
  | CStr s => forallb string_char s
  | CRec => word_ok name
  | CIf yes no => forallb (readable D name) yes && forallb (readable D name) no
  | CWhen body | CDo body | CFor body => forallb (readable D name) body
  end.

(** The items of its code. *)
Definition code_size (cs : list com) : Z := zlen (ccodes (fun _ => 0) cs).

Inductive line := LRun (cs : list com) | LDefine (x : bytes) (body : list com).

Definition line_ok (D : defs) (l : line) : bool :=
  match l with
  | LRun cs => forallb (readable D []) cs && (code_size cs <? MAX_COMPILE_WORDS)
  | LDefine x body =>
      word_ok x && bool_decide (x ∉ specials) && forallb (readable D x) body && (code_size body <? MAX_COMPILE_WORDS)
  end.

(** A line: the definitions, the stack and what is printed. *)
Definition rline (n : nat) (D : defs) (st : rstate) (l : line) : option (defs * rstate) :=
  if line_ok D l && (length st.1 <=? 900)%nat then
    match l with
    | LRun cs => st' ← rexec n D None [] cs st; Some (D, st')
    | LDefine x body => Some ((x, body) :: without x D, (st.1, st.2 ++ [OCompiled x]))
    end
  else None.

(** * Texts of lines *)

(** The line is these tokens, whatever lies behind its zero. *)
Definition spells (ts : list token) (text : bytes) : Prop := forall junk, spelled ts (text ++ 0 :: junk).

Definition line_of (ts : list token) : bytes := concat (map (fun t => token_text t ++ [32]) ts).
Lemma line_of_spells ts : spells ts (line_of ts).
Proof.
  intros junk. unfold line_of. induction ts as [|t ts IH]; cbn [map concat app]; [constructor|].
  rewrite <- !app_assoc. cbn [app]. by constructor.
Qed.

Fixpoint starts (w s : bytes) : bool :=
  match w, s with
  | [], _ => true
  | x :: w', y :: s' => (x =? y) && starts w' s'
  | _ :: _, [] => false
  end.

(** A line that is neither a definition nor one of the two commands. *)
Definition direct (text : bytes) : bool :=
  negb (starts (str_of ": ") text) && negb (starts (str_of "see ") text) && negb (starts (str_of "reset") text).

Inductive written : line -> bytes -> Prop :=
  | written_run cs text : spells (concat (map (tokens []) cs)) text -> direct text = true -> written (LRun cs) text
  | written_define x body tail text : tail = [] \/ tail = [kw ";"] ->
      spells (concat (map (tokens x) body) ++ tail) text ->
      written (LDefine x body) (str_of ": " ++ x ++ [32] ++ text).

Lemma begins_with_at w : forall txt p text junk, Forall (fun c => c <> 0) w -> at_text txt p (text ++ 0 :: junk) ->
  begins_with txt p w = Some (starts w text).
Proof.
  induction w as [|x w IH]; intros txt p text junk Hw Ha; [done|]. apply Forall_cons_1 in Hw as [Hx Hw]. cbn [begins_with starts].
  destruct text as [|c text]; cbn [app] in Ha; rewrite (at_head _ _ _ _ Ha); cbn [mbind option_bind].
  - by rewrite (proj2 (Z.eqb_neq 0 x)) by done.
  - rewrite (Z.eqb_sym x c). destruct (c =? x); [|done]. eapply IH; [done|by eapply at_tail].
Qed.

(** * The names of the dictionary *)

Section session.
Context `{KforthLibOk}.

Lemma find_def_split x D body : find_def x D = Some body -> exists D1 D2, D = D1 ++ (x, body) :: D2 /\ (x ∉ D1.*1).
Proof.
  unfold find_def. induction D as [|[y b] D IH]; [done|]. rewrite filter_cons. cbn [fst]. destruct (decide (y = x)) as [->|Hy].
  - intros [= ->]. exists [], D. split; [done|]. by intros Hin%elem_of_nil.
  - intros (D1 & D2 & -> & Hx)%IH. exists ((y, b) :: D1), D2. split; [done|]. rewrite fmap_cons. apply not_elem_of_cons. by split.
Qed.
Lemma find_def_none x D : find_def x D = None -> x ∉ D.*1.
Proof.
  unfold find_def. induction D as [|[y b] D IH]; intros E; [by intros Hin%elem_of_nil|]. rewrite filter_cons in E. cbn [fst] in E.
  destruct (decide (y = x)) as [->|Hy]; [done|]. rewrite fmap_cons. apply not_elem_of_cons. split; [by intros ->|by apply IH].
Qed.

Section dict.
Variables (D : defs) (ram : entries) (st : kforth_t).
Hypothesis Hd : dict_ok D ram st.
Abbreviation r := (resolve_in (ram ++ consts)).

Lemma resolve_def x body : find_def x D = Some body -> exists e, k_words st !! r x = Some e /\ word_at r (x, body) (r x, e) /\ r x <> 0.
Proof.
  intros (D1 & D2 & E & Hx)%find_def_split. pose proof Hd as [Hl Hh _ HD _ _]. rewrite E in HD.
  apply Forall2_app_inv_l in HD as (ram1 & l & Hw1 & Hw2 & El). inversion Hw2 as [|? [p e] ? ram2 Hw Hw2']; subst l.
  assert (Er : r x = p) by (rewrite El at 1; eapply resolve_defined; [exact Hw1|done|by destruct Hw]).
  exists e. rewrite Er. split; [|split; [exact Hw|]].
  - eapply holds_entry; [exact Hh|]. rewrite El, <- app_assoc. apply elem_of_app. right. by left.
  - rewrite El, <- app_assoc in Hl. by eapply links_address.
Qed.
Lemma resolve_prim x : find_def x D = None -> r x = match find_prim x with Some f => entry_address f | None => 0 end.
Proof. intros Hx%find_def_none. rewrite (resolve_undefined _ _ _ _ (do_words _ _ _ Hd) Hx). apply const_prim. Qed.

Lemma known_resolve x : known D x = negb (r x =? 0).
Proof.
  unfold known. destruct (find_def x D) as [body|] eqn:E.
  - destruct (resolve_def _ _ E) as (e & _ & _ & Hx). lia.
  - rewrite resolve_prim by done. destruct (find_prim x) as [f|]; [|done]. pose proof (address_nonzero f). lia.
Qed.

Lemma dict_world : k_exit_flag st = 0 -> world D r st.
Proof.
  intros Hex. split; [done|..].
  - intros x body Hx. destruct (resolve_def _ _ Hx) as (e & He & (_ & Hf & l & Hl & Hlen & Hits & _) & _). cbn [fst snd] in *.
    exists e, l. split; [done|]. split; [done|]. split; [done|]. split; [done|].
    split; [done|]. pose proof (Forall2_length Hits) as El. rewrite El. cbn [drop Z.to_nat]. by rewrite take_ge.
  - intros x f Hx Hp. rewrite resolve_prim, Hp by done. destruct (const_entry x f Hp) as (e & Hin & Hf & _). exists e. split; [|done].
    eapply holds_entry; [apply Hd|]. apply elem_of_app. by right.
  - intros x Hx. destruct (find_def x D) as [body|] eqn:E; [|done]. apply find_def_split in E as (D1 & D2 & ED & _).
    pose proof (do_special _ _ _ Hd) as Hs. rewrite ED in Hs. apply Forall_app in Hs as [_ Hs]. apply Forall_cons_1 in Hs as [[Hs _] _].
    destruct Hs. cbn [fst]. assert (Hk : Forall (fun k => k ∈ specials) keywords) by (apply (bool_decide_unpack _); by vm_compute).
    rewrite Forall_forall in Hk. by apply Hk, list_elem_of_In.
Qed.

(** The words of the compiler are in the dictionary. *)
Lemma specials_known x : x ∈ specials -> x = str_of "&" \/ x = str_of ";" \/ r x <> 0.
Proof.
  intros Hx. assert (Hk : Forall (fun k => k = str_of "&" \/ k = str_of ";" \/ is_Some (find_prim k)) specials)
    by (apply (bool_decide_unpack _); by vm_compute).
  rewrite Forall_forall in Hk. destruct (Hk x) as [?|[?|[f Hf]]]; [by apply list_elem_of_In|auto|auto|].
  right. right. intros E. pose proof (known_resolve x) as Hkn. rewrite E in Hkn. unfold known in Hkn. rewrite Hf in Hkn. by destruct (find_def x D).
Qed.

Lemma quote_unknown s : r (34 :: s) = 0.
Proof.
  pose proof (known_resolve (34 :: s)) as Hk. unfold known in Hk.
  destruct (find_def (34 :: s) D) as [body|] eqn:E.
  - apply find_def_split in E as (D1 & D2 & ED & _). pose proof (do_special _ _ _ Hd) as Hs. rewrite ED in Hs.
    apply Forall_app in Hs as [_ Hs]. apply Forall_cons_1 in Hs as [[_ Hs] _]. done.
  - rewrite resolve_prim by done. unfold find_prim.
    assert (Hq : Forall (fun y => head y.1 <> Some 34) dictionary_1) by (apply (bool_decide_unpack _); by vm_compute).
    clear -Hq. induction Hq as [|[y f] l Hy _ IH]; [done|]. rewrite filter_cons. cbn [fst] in *. destruct (decide (y = 34 :: s)) as [->|]; [done|exact IH].
Qed.

(** What the reference finds readable, the compiler reads. *)
Lemma readable_ok name c : name = [] \/ word_ok name = true -> readable D name c = true -> com_ok (ram ++ consts) name c = true.
Proof.
  intros Hname. assert (Hlist : forall cs, Forall (fun c => readable D name c = true -> com_ok (ram ++ consts) name c = true) cs ->
    forallb (readable D name) cs = true -> forallb (com_ok (ram ++ consts) name) cs = true).
  { induction 1 as [|c' cs Hc _ IH]; [done|]. cbn [forallb]. rewrite !andb_true_iff. tauto. }
  induction c as [t|x|str| |yes no IHy IHn|yes IH|body IH|body IH] using com_ind; cbn [readable com_ok]; auto.
  - rewrite known_resolve, negb_involutive. done.
  - by rewrite known_resolve.
  - intros ->. rewrite quote_unknown. cbn. apply bool_decide_eq_true. intros E. destruct Hname as [->|Hn]; [done|]. by rewrite <- E in Hn.
  - rewrite !andb_true_iff. intros [H1 H2]. auto.
Qed.

Lemma readable_plain name c : readable D name c = true -> plain_com c = true.
Proof.
  assert (Hlist : forall cs, Forall (fun c => readable D name c = true -> plain_com c = true) cs ->
    forallb (readable D name) cs = true -> forallb plain_com cs = true).
  { induction 1 as [|c' cs Hc _ IH]; [done|]. cbn [forallb]. rewrite !andb_true_iff. tauto. }
  induction c as [t|x|str| |yes no IHy IHn|yes IH|body IH|body IH] using com_ind; cbn [readable plain_com]; auto;
    rewrite !andb_true_iff; [by intros (((((_ & _) & Ha) & _) & _) & _)|].
  intros [H1 H2]. auto.
Qed.

Lemma keyword_use name y : name ∉ specials -> y ∈ keywords -> r y <> 0 /\ y <> name.
Proof.
  intros Hn Hy.
  assert (Hk : Forall (fun k => k ∈ specials /\ k <> str_of "&" /\ k <> str_of ";") keywords) by (apply (bool_decide_unpack _); by vm_compute).
  rewrite Forall_forall in Hk. destruct (Hk y) as (H1 & H2 & H3); [by apply list_elem_of_In|].
  split; [|by intros ->]. by destruct (specials_known y H1) as [?|[?|?]].
Qed.

Lemma readable_uses name c : name ∉ specials -> readable D name c = true -> Forall (fun y => r y <> 0 /\ y <> name) (uses c).
Proof.
  intros Hn. pose proof (keyword_use name) as Hk.
  assert (Hlist : forall cs, Forall (fun c => readable D name c = true -> Forall (fun y => r y <> 0 /\ y <> name) (uses c)) cs ->
    forallb (readable D name) cs = true -> Forall (fun y => r y <> 0 /\ y <> name) (concat (map uses cs))).
  { induction 1 as [|c' cs Hc _ IH]; [constructor|]. cbn [forallb map concat]. rewrite andb_true_iff. intros [H1 H2]. apply Forall_app. auto. }
  assert (Hkeys : forall l, forallb (fun k => bool_decide (k ∈ keywords)) l = true -> Forall (fun y => r y <> 0 /\ y <> name) l).
  { intros l Hl. apply Forall_forall. intros y Hy. rewrite forallb_forall in Hl. specialize (Hl y Hy). apply bool_decide_eq_true in Hl. auto. }
  induction c as [t|x|str| |yes no IHy IHn|yes IH|body IH|body IH] using com_ind; cbn [readable uses]; try (intros; by constructor).
  - rewrite !andb_true_iff, !bool_decide_eq_true. intros (((_ & Hx) & Hne) & _). rewrite known_resolve in Hx. constructor; [|constructor]. split; [lia|done].
  - rewrite andb_true_iff. intros [H1 H2]. apply Forall_app. split; [apply Hkeys; by vm_compute|]. apply Forall_app. auto.
  - intros H1. apply Forall_app. split; [apply Hkeys; by vm_compute|auto].
  - intros H1. apply Forall_app. split; [apply Hkeys; by vm_compute|auto].
  - intros H1. apply Forall_app. split; [apply Hkeys; by vm_compute|auto].
Qed.
End dict.

Lemma code_size_any r cs : zlen (ccodes r cs) = code_size cs.
Proof.
  unfold code_size. rewrite (codes_map r (fun _ => 0) (fun _ => 0)) by done. unfold zlen. by rewrite length_map.
Qed.

(** * Statements *)

(** The machine between two statements. *)
Definition ready (D : defs) (st : rstate) (k : kforth_t) : Prop :=
  exists ram st0 g lg, k = view st0 st.1 g [] lg st.2 /\ dict_ok D ram st0 /\ k_exit_flag st0 = 0 /\
    zlen (k_new_word_list st0) = MAX_COMPILE_WORDS /\ (length st.1 + length g = 1000)%nat /\ (length lg = 100)%nat.

Lemma dict_ok_same D ram st st' : k_words st' = k_words st -> k_dictionary st' = k_dictionary st -> dict_ok D ram st -> dict_ok D ram st'.
Proof. intros Ew Ed [H1 H2 H3 H4 H5 H6]. split; [by rewrite Ed|by rewrite Ew|done..]. Qed.

Lemma ready_output D st k o : ready D st k -> ready D (st.1, st.2 ++ o) (add_output o k).
Proof. intros (ram & st0 & g & lg & -> & Hrest). exists ram, st0, g, lg. split; [done|exact Hrest]. Qed.

(** A program is compiled, from any name but a special one. *)
Lemma compile_ready D st k name cs tail txt p stx (Q : bytes * Z -> kforth_t -> Prop) :
  ready D st k -> name = [] \/ word_ok name = true -> name ∉ specials ->
  forallb (readable D name) cs = true -> code_size cs < MAX_COMPILE_WORDS -> tail = [] \/ tail = [kw ";"] -> (length st.1 <= 900)%nat ->
  at_text txt p stx -> spelled (concat (map (tokens name) cs) ++ tail) stx ->
  (forall ram st0 g lg txt', let r := resolve_in (ram ++ consts) in
     dict_ok D ram st0 -> k_words st0 = k_words k -> k_exit_flag st0 = 0 -> zlen (k_new_word_list st0) = MAX_COMPILE_WORDS ->
     seg (k_new_word_list st0) 0 (ccodes r cs ++ [PEnd]) -> (length st.1 + length g = 1000)%nat -> (length lg = 100)%nat ->
     length txt' = length txt -> Q (txt', zlen (ccodes r cs) + 1) (view st0 st.1 g [] lg st.2)) ->
  fwp (kforth_compile_word name txt p) Q k.
Proof.
  intros (ram & st0 & g & lg & -> & Hd & Hex & Hcode & Hg & Hlg) Hname Hsp Hr Hsize Htail Hs Ha Hspelled HQ.
  change (view st0 st.1 g [] lg st.2) with (view (with_code (k_new_word_list st0) st0) st.1 g [] lg st.2).
  eapply (compile_program st0 [] lg st.2 (ram ++ consts) name cs tail txt p stx); try done.
  - by apply dict_entries in Hd.
  - intros x. by apply (specials_known D ram st0).
  - rewrite forallb_forall in Hr |- *. intros c Hc. eapply readable_ok; [exact Hd|done|by apply Hr].
  - by rewrite code_size_any.
  - intros txt' code' g' Hseg Hcode' Hg' Hl. apply (HQ ram (with_code code' st0) g' lg txt'); try done.
    by eapply dict_ok_same; [| |exact Hd].
Qed.

(** A line that runs. *)
Lemma run_line n D st st' k cs text txt : ready D st k -> line_ok D (LRun cs) = true -> (length st.1 <= 900)%nat ->
  rexec n D None [] cs st = Some st' -> written (LRun cs) text -> (exists junk, txt = text ++ 0 :: junk) ->
  exists fuel0 k' txt', ready D st' k' /\ length txt' = length txt /\
    forall fuel, (fuel0 <= fuel)%nat -> kforth_execute_statement fuel txt k = Some ((0, txt'), k').
Proof.
  intros Hready [Hr Hsize]%andb_true_iff Hs He Hw [junk ->]. inversion Hw as [? ? Hspells Hdirect|]; subst.
  apply andb_true_iff in Hdirect as [Hdirect Hd3]. apply andb_true_iff in Hdirect as [Hd1 Hd2].
  assert (Ha : at_text (text ++ 0 :: junk) 0 (text ++ 0 :: junk)) by by split.
  assert (Hb : forall w, Forall (fun c => c <> 0) (str_of w) -> starts (str_of w) text = false ->
    begins_with (text ++ 0 :: junk) 0 (str_of w) = Some false).
  { intros w Hnz E. rewrite <- E. by eapply begins_with_at. }
  assert (Hc : fwp (kforth_compile_word [] (text ++ 0 :: junk) 0)
    (fun a k1 => length a.1 = length (text ++ 0 :: junk) /\ exists ram st0 g lg, k1 = view st0 st.1 g [] lg st.2 /\
       dict_ok D ram st0 /\ k_exit_flag st0 = 0 /\ zlen (k_new_word_list st0) = MAX_COMPILE_WORDS /\
       seg (k_new_word_list st0) 0 (ccodes (resolve_in (ram ++ consts)) cs ++ [PEnd]) /\
       (length st.1 + length g = 1000)%nat /\ (length lg = 100)%nat) k).
  { eapply (compile_ready D st k [] cs []); [exact Hready|by left| |done|lia|by left|done|exact Ha|by rewrite app_nil_r|].
    - apply (bool_decide_unpack _). by vm_compute.
    - intros ram st0 g lg txt' r Hd _ Hex Hcode Hseg Hg Hlg Hl. split; [done|]. by exists ram, st0, g, lg. }
  apply fwp_run in Hc as ([txt' i] & k1 & Ec & Hl & ram & st0 & g & lg & -> & Hd & Hex & Hcode & Hseg & Hg & Hlg).
  destruct st as [s out], st' as [s' out']. cbn [fst snd] in *.
  destruct (execute_statement D (resolve_in (ram ++ consts)) st0 (dict_world D ram st0 Hd Hex) n cs s g [] lg out s' out' He Hcode Hseg)
    as (k' & fuel0 & (g' & lg' & -> & Hso) & Hrun); [by split|].
  exists fuel0, (view st0 s' g' [] lg' out'), txt'. split; [|split; [done|]].
  - destruct Hso as [Hs1 Hs2 _]. exists ram, st0, g', lg'. done.
  - intros fuel Hf. unfold kforth_execute_statement.
    rewrite (fbind _ _ _ false k) by (unfold flift; rewrite Hb; [done|by repeat constructor|by apply negb_true_iff]).
    rewrite (fbind _ _ _ false k) by (unfold flift; rewrite Hb; [done|by repeat constructor|by apply negb_true_iff]).
    rewrite (fbind _ _ _ false k) by (unfold flift; rewrite Hb; [done|by repeat constructor|by apply negb_true_iff]).
    rewrite (fbind _ _ _ _ _ Ec). rewrite (fbind _ _ _ _ _ (Hrun fuel Hf)). rewrite (fbind _ _ _ _ _ eq_refl).
    cbn [view k_exit_flag]. by rewrite Hex.
Qed.

(** The block that a definition asks for. *)
Definition block_of (k : kforth_t) (x : bytes) (body : list com) : Z :=
  platform_malloc (map_to_list (k_words k)).*1 (word_size (code_size body + 1) x).

(** A definition is compiled, and then stored. *)
Lemma define_compiled D st k x body text txt : ready D st k -> line_ok D (LDefine x body) = true -> (length st.1 <= 900)%nat ->
  written (LDefine x body) text -> (exists junk, txt = text ++ 0 :: junk) ->
  exists k1 (txt' : bytes), ready D st k1 /\ k_words k1 = k_words k /\ length txt' = length txt /\
    (exists ram, dict_ok D ram k1 /\ storable D (resolve_in (ram ++ consts)) x body (code_size body + 1) k1) /\
    forall fuel, kforth_execute_statement fuel txt k =
      (store_word x (code_size body + 1);; fprint (OCompiled x);; mret (0, txt')) k1.
Proof.
  intros Hready Hok Hs Hw [junk ->]. inversion Hw as [|? ? tail rest Htail Hspells]; subst.
  unfold line_ok in Hok. rewrite !andb_true_iff, bool_decide_eq_true in Hok. destruct Hok as (((Hx & Hsp) & Hr) & Hsize).
  rewrite <- !app_assoc in *. cbn [app] in *. set (txt := str_of ": " ++ x ++ 32 :: rest ++ 0 :: junk).
  assert (Ha : at_text txt 0 (str_of ":" ++ 32 :: x ++ 32 :: rest ++ 0 :: junk)) by by split.
  destruct (get_token_word (str_of ":") 32 _ txt 0 k eq_refl (or_introl eq_refl) Ha) as (txt1 & p1 & E1 & _ & Ha1 & Hl1 & _).
  cbn [Z.eqb Pos.eqb] in Ha1.
  destruct (get_token_word x 32 _ txt1 p1 k Hx (or_introl eq_refl) Ha1) as (txt2 & p2 & E2 & Hc2 & Ha2 & Hl2 & Hp2).
  cbn [Z.eqb Pos.eqb] in Ha2. specialize (Hp2 eq_refl).
  assert (Hc : fwp (kforth_compile_word x txt2 p2)
    (fun a k1 => length a.1 = length txt2 /\ exists ram st0 g lg, k1 = view st0 st.1 g [] lg st.2 /\
       a.2 = code_size body + 1 /\ k_words st0 = k_words k /\
       dict_ok D ram st0 /\ k_exit_flag st0 = 0 /\ zlen (k_new_word_list st0) = MAX_COMPILE_WORDS /\
       seg (k_new_word_list st0) 0 (ccodes (resolve_in (ram ++ consts)) body ++ [PEnd]) /\
       (length st.1 + length g = 1000)%nat /\ (length lg = 100)%nat) k).
  { eapply (compile_ready D st k x body tail); [exact Hready|by right|done|done|lia|done|done|exact Ha2|apply Hspells|].
    intros ram st0 g lg txt' r Hd Hwords Hex Hcode Hseg Hg Hlg Hl. split; [done|]. exists ram, st0, g, lg.
    cbn [snd]. by rewrite code_size_any. }
  apply fwp_run in Hc as ([txt3 i] & k1 & Ec & Hl & ram & st0 & g & lg & -> & Ei & Hwords & Hd & Hex & Hcode & Hseg & Hg & Hlg).
  cbn [fst snd] in *. subst i. exists (view st0 st.1 g [] lg st.2), txt3. split; [by exists ram, st0, g, lg|].
  split; [done|]. split; [congruence|]. split.
  - exists ram. split; [by eapply dict_ok_same; [| |exact Hd]|]. split; [done|done|by rewrite code_size_any|lia|exact Hseg|..].
    + rewrite forallb_forall in Hr |- *. intros c Hc. eapply readable_plain, Hr, Hc.
    + clear Hw Hspells Hsize Hseg E2 Ec. induction body as [|c body IH]; [constructor|]. cbn [forallb map concat] in *.
      apply andb_true_iff in Hr as [Hr1 Hr2]. apply Forall_app. split; [by eapply readable_uses|by apply IH].
  - intros fuel. unfold kforth_execute_statement. fold txt.
    rewrite (fbind _ _ _ true k) by done.
    rewrite (fbind _ _ _ _ _ E1). rewrite (fbind _ _ _ _ _ E2). rewrite (fbind _ _ _ p1 k) by done.
    rewrite (fbind _ _ _ x k) by (unfold flift; by rewrite Hc2). rewrite <- Hp2.
    by rewrite (fbind _ _ _ _ _ Ec).
Qed.

(** A line that defines a word, in a block that serves. *)
Lemma define_line D st k x body text txt : ready D st k -> line_ok D (LDefine x body) = true -> (length st.1 <= 900)%nat ->
  written (LDefine x body) text -> (exists junk, txt = text ++ 0 :: junk) -> served (block_of k x body) ->
  exists k' txt', ready ((x, body) :: without x D) (st.1, st.2 ++ [OCompiled x]) k' /\ length txt' = length txt /\
    forall fuel, kforth_execute_statement fuel txt k = Some ((0, txt'), k').
Proof.
  intros Hready Hok Hs Hw Htxt [Hn Hfn].
  destruct (define_compiled D st k x body text txt Hready Hok Hs Hw Htxt)
    as (k1 & txt' & (ram0 & st0 & g & lg & -> & _ & Hex & Hcode & Hg & Hlg) & Hwords & Hl & (ram & Hd & Hst) & Hrun).
  unfold block_of in *. rewrite <- Hwords in *. set (k1 := view st0 st.1 g [] lg st.2) in *.
  destruct (store_word_ok D ram k1 x body _ Hd Hst Hn) as (words & ram' & Estore & _ & Hd').
  specialize (Hd' Hfn). set (k2 := set_words words _ k1) in *. exists (add_output [OCompiled x] k2), txt'. split; [|split; [done|]].
  - apply (ready_output _ st). exists ram', (set_words words (k_dictionary k2) st0), g, lg. split; [done|].
    split; [by eapply dict_ok_same; [| |exact Hd']|done].
  - intros fuel. rewrite Hrun. rewrite (fbind _ _ _ _ _ Estore). by rewrite (fbind _ _ _ _ _ eq_refl).
Qed.

(** What is followed by what goes wrong, goes wrong. *)
Lemma fbind_None {A B} (m : F A) (f : A -> F B) st : (forall a st', f a st' = None) -> (m ≫= f) st = None.
Proof. intros Hf. unfold mbind, F_bind. destruct (m st) as [[a st']|]; [apply Hf|done]. Qed.
Lemma store_word_null x len k : platform_malloc (map_to_list (k_words k)).*1 (word_size len x) = 0 -> store_word x len k = None.
Proof.
  intros E. unfold store_word. rewrite (fbind _ _ _ _ _ eq_refl). cbv zeta. rewrite E.
  apply fbind_None. intros a st1. by apply fbind_None.
Qed.

(** A line that defines a word where there is no memory: the name is written through NULL. *)
Lemma define_no_memory D st k x body text txt : ready D st k -> line_ok D (LDefine x body) = true -> (length st.1 <= 900)%nat ->
  written (LDefine x body) text -> (exists junk, txt = text ++ 0 :: junk) -> block_of k x body = 0 ->
  forall fuel, kforth_execute_statement fuel txt k = None.
Proof.
  intros Hready Hok Hs Hw Htxt Hn fuel.
  destruct (define_compiled D st k x body text txt Hready Hok Hs Hw Htxt) as (k1 & txt' & _ & Hwords & _ & _ & Hrun).
  unfold block_of in Hn. rewrite <- Hwords in Hn. rewrite Hrun. unfold mbind at 1, F_bind. by rewrite store_word_null.
Qed.
End session.
