(* ===== verification/KforthSee.v ===== *)
(** The listing of a word ([kforth_see]) gives back the definition. *)
From Stdlib Require Import Ascii String.
From S2P Require Import Prelude CText Kforth KforthCompile KforthRef KforthRun KforthCode KforthExec KforthRead KforthDict KforthStore KforthSession.

(** * The listing *)

Definition listed (x : bytes) : k_output := OText (x ++ [32]).
Definition listed_kw (s : string) : k_output := listed (str_of s).

Section listing.
Variable name : bytes.

(** The tokens of a command, as they are listed. *)
Fixpoint listing (c : com) : list k_output :=
  match c with
  | CNum t => [OInt (default 0 (atoi t))]
  | CWord x => [listed x]
  | CStr s => [OText [34]; OText s; OText [34; 32]]
  | CRec => [listed name]
  | CIf yes no =>
      listed_kw "if" :: concat (map listing yes) ++ listed_kw "elif" :: concat (map listing no) ++ [listed_kw "endif"]
  | CWhen yes => listed_kw "if" :: concat (map listing yes) ++ [listed_kw "endif"]
  | CDo body => listed_kw "do" :: concat (map listing body) ++ [listed_kw "loop"]
  | CFor body => listed_kw "for" :: concat (map listing body) ++ [listed_kw "forloop"]
  end.

(** What [%d] and the texts put on the screen is the program again. *)
Fixpoint digits (fuel : nat) (n : Z) : bytes :=
  match fuel with
  | O => []
  | S fuel' => (if n <? 10 then [] else digits fuel' (n / 10)) ++ [48 + n mod 10]
  end.
Definition decimal (n : Z) : bytes := if n <? 0 then 45 :: digits 11 (- n) else digits 11 n.
Definition shown (o : k_output) : bytes :=
  match o with OText s => s | OInt n => decimal n ++ [32] | _ => [] end.
End listing.

(** Numbers as [%d] prints them. *)
Fixpoint canonical (c : com) : bool :=
  match c with
  | CNum t => match atoi t with Some n => bool_decide (decimal n = t) | None => false end
  | CWord _ | CStr _ | CRec => true
  | CIf yes no => forallb canonical yes && forallb canonical no
  | CWhen body | CDo body | CFor body => forallb canonical body
  end.

Lemma line_of_app ts1 ts2 : line_of (ts1 ++ ts2) = line_of ts1 ++ line_of ts2.
Proof. unfold line_of. by rewrite map_app, concat_app. Qed.

Lemma shown_app o1 o2 : concat (map shown (o1 ++ o2)) = concat (map shown o1) ++ concat (map shown o2).
Proof. by rewrite map_app, concat_app. Qed.

(** The program with its numbers as [%d] prints them. *)
Fixpoint normal (c : com) : com :=
  match c with
  | CNum t => CNum (decimal (default 0 (atoi t)))
  | CWord _ | CStr _ | CRec => c
  | CIf yes no => CIf (map normal yes) (map normal no)
  | CWhen body => CWhen (map normal body)
  | CDo body => CDo (map normal body)
  | CFor body => CFor (map normal body)
  end.

(** The listing on the screen is the text of the program. *)
Lemma listing_text name c : concat (map shown (listing name c)) = line_of (tokens name (normal c)).
Proof.
  assert (Hlist : forall cs, Forall (fun c => concat (map shown (listing name c)) = line_of (tokens name (normal c))) cs ->
    concat (map shown (concat (map (listing name) cs))) = line_of (concat (map (tokens name) (map normal cs)))).
  { induction 1 as [|c' cs Hc _ IH]; [done|]. cbn [map concat]. by rewrite shown_app, line_of_app, Hc, IH. }
  assert (Hkw : forall s o ts, concat (map shown o) = line_of ts -> concat (map shown (listed_kw s :: o)) = line_of (kw s :: ts)).
  { intros s o ts E. cbn [map concat]. rewrite E. done. }
  assert (Happ : forall o1 o2 ts1 ts2, concat (map shown o1) = line_of ts1 -> concat (map shown o2) = line_of ts2 ->
    concat (map shown (o1 ++ o2)) = line_of (ts1 ++ ts2)) by (intros o1 o2 ts1 ts2 E1 E2; by rewrite shown_app, line_of_app, E1, E2).
  induction c as [t|x|str| |yes no IHy IHn|yes IH|body IH|body IH] using com_ind; cbn [normal listing tokens] in *; try done.
  - cbn. by rewrite app_nil_r, <- app_assoc.
  - apply (Hkw "if"%string), Happ; [auto|]. apply (Hkw "elif"%string), Happ; [auto|done].
  - apply (Hkw "if"%string), Happ; [auto|done].
  - apply (Hkw "do"%string), Happ; [auto|done].
  - apply (Hkw "for"%string), Happ; [auto|done].
Qed.

Lemma listing_texts name cs : concat (map shown (concat (map (listing name) cs))) = line_of (concat (map (tokens name) (map normal cs))).
Proof.
  induction cs as [|c cs IH]; [done|]. cbn [map concat]. by rewrite shown_app, line_of_app, listing_text, IH.
Qed.

(** A canonical program is normal. *)
Lemma canonical_normal cs : forallb canonical cs = true -> map normal cs = cs.
Proof.
  assert (Hlist : forall cs, Forall (fun c => canonical c = true -> normal c = c) cs -> forallb canonical cs = true -> map normal cs = cs).
  { induction 1 as [|c' cs' Hc _ IH]; [done|]. cbn [forallb map]. rewrite andb_true_iff. intros [H1 H2]. by rewrite Hc, IH. }
  apply Hlist, Forall_forall. intros c _.
  induction c as [t|x|str| |yes no IHy IHn|yes IH|body IH|body IH] using com_ind; cbn [canonical normal]; intros Hc; try done.
  - destruct (atoi t) as [n|]; [|done]. apply bool_decide_eq_true in Hc. cbn. by rewrite Hc.
  - apply andb_true_iff in Hc as [Hy Hn]. by rewrite !Hlist.
  - by rewrite Hlist.
  - by rewrite Hlist.
  - by rewrite Hlist.
Qed.

Lemma add_output_app o1 o2 st : add_output o2 (add_output o1 st) = add_output (o1 ++ o2) st.
Proof. unfold add_output. cbn. by rewrite app_assoc. Qed.

Section see.
Context `{KforthLibOk}.
Variables (es : entries) (name : bytes) (w : word_ref) (code : list word_list_item).
Abbreviation r := (resolve_in es).
Hypothesis Hnodup : NoDup es.*1.

(** The listing comes from one item to another. *)
Definition sees (i j : Z) (o : list k_output) : Prop := exists k : nat, Z.of_nat k <= j - i /\ forall n st, word_code st w = Some code ->
  see_loop (k + n) es name w i st = see_loop n es name w j (add_output o st).

Lemma sees_nil i : sees i i [].
Proof.
  exists 0%nat. split; [lia|]. intros n [] Hw. unfold add_output. cbn. by rewrite app_nil_r.
Qed.
Lemma sees_app i j k o1 o2 : sees i j o1 -> sees j k o2 -> sees i k (o1 ++ o2).
Proof.
  intros (k1 & Hk1 & E1) (k2 & Hk2 & E2). exists (k1 + k2)%nat. split; [lia|]. intros n st Hw.
  rewrite <- Nat.add_assoc, E1, E2 by (try done; by destruct w). unfold add_output. cbn. by rewrite app_assoc.
Qed.

Lemma name_of x : r x <> 0 -> get_name_by_word es (r x) = x.
Proof.
  intros Hx. destruct (resolve_in_list es x Hx) as (e & Hin & He). unfold get_name_by_word.
  match goal with |- context [head ?f] => set (l := f) end.
  assert (Hf : (r x, e) ∈ l) by by apply list_elem_of_filter. assert (Hl : forall y, y ∈ l -> y.1 = r x /\ y ∈ es).
  { intros y Hy. by apply list_elem_of_filter in Hy. }
  destruct l as [|[p e'] l']; [by apply elem_of_nil in Hf|]. cbn [head].
  destruct (Hl (p, e')) as [Hp Hin']; [by left|].
  cbn in Hp. subst p. pose proof (entry_unique _ _ _ _ Hnodup Hin' Hin) as ->. done.
Qed.

Lemma item_here i p ps : seg code i (p :: ps) -> exists it, fits p it /\ (forall st, word_code st w = Some code -> get_item w i st = Some (it, st)) /\
  seg code (i + 1) ps.
Proof.
  intros [(it & Hit & Hf) Hs]%seg_cons. exists it. split; [done|]. split; [|done]. intros st Hw. unfold get_item. rewrite Hw. cbn. by rewrite Hit.
Qed.

#[local] Ltac one_see Hi Hw :=
  cbn [Nat.add see_loop]; rewrite (fbind _ _ _ _ _ (Hi _ Hw)); rewrite (fbind _ _ _ _ _ eq_refl);
  cbn [item_type item_data Z.eqb Pos.eqb END_TYPE LITERAL_TYPE WORD_TYPE STR_TYPE LABEL_TYPE BRANCH_TYPE RECURSIVE_TYPE orb].

Lemma sees_number i d ps : seg code i (PItem LITERAL_TYPE (Some d) :: ps) -> sees i (i + 1) [OInt (s32 d)].
Proof.
  intros (it & ->%fits_data & Hi & _)%item_here. exists 1%nat. split; [lia|]. intros n st Hw. one_see Hi Hw.
  rewrite (fbind _ _ _ _ _ eq_refl). by rewrite (fbind _ _ _ _ _ eq_refl).
Qed.
Lemma sees_word i x ps : seg code i (PWord r x :: ps) -> r x <> 0 -> sees i (i + 1) [listed x].
Proof.
  intros (it & ->%fits_data & Hi & _)%item_here Hx. exists 1%nat. split; [lia|]. intros n st Hw. one_see Hi Hw.
  rewrite (fbind _ _ _ _ _ eq_refl). rewrite name_of by done. by rewrite (fbind _ _ _ _ _ eq_refl).
Qed.
Lemma sees_recursive i ps : seg code i (PItem RECURSIVE_TYPE None :: ps) -> sees i (i + 1) [listed name].
Proof.
  intros (it & [d ->]%fits_type & Hi & _)%item_here. exists 1%nat. split; [lia|]. intros n st Hw. one_see Hi Hw.
  by rewrite (fbind _ _ _ _ _ eq_refl).
Qed.
Lemma sees_mark i t d ps : t = LABEL_TYPE \/ t = BRANCH_TYPE -> seg code i (PItem t d :: ps) -> sees i (i + 1) [].
Proof.
  intros Ht (it & Hit & Hi & _)%item_here. assert (Eit : exists d', it = Item t d') by (destruct d; [apply fits_data in Hit|apply fits_type in Hit as [? Hit]]; eauto).
  destruct Eit as [d' ->]. exists 1%nat. split; [lia|]. intros n st Hw.
  assert (E : add_output [] st = st) by (destruct st; unfold add_output; cbn; by rewrite app_nil_r). rewrite E.
  destruct Ht as [-> | ->]; by one_see Hi Hw.
Qed.
Lemma sees_string i str : forallb string_char str = true -> seg code i (ccode r (CStr str)) ->
  sees i (i + zlen (ccode r (CStr str))) [OText [34]; OText str; OText [34; 32]].
Proof.
  intros Hs Hseg. cbn [ccode] in *. apply item_here in Hseg as (it & ->%fits_data & Hi & Hseg). rewrite zlen_cons, string_chunks_length by lia.
  assert (H0' : 0 <= string_items (zlen str)).
  { unfold string_items. pose proof (zlen_nonneg str). pose proof (Z.div_pos (zlen str + 1) 16). destruct (_ =? 0); lia. }
  exists 1%nat. split; [lia|]. intros n st Hw. one_see Hi Hw. rewrite (fbind _ _ _ _ _ eq_refl).
  rewrite (fbind _ _ _ (string_items (zlen str)) (add_output [OText str] (add_output [OText [34]] st))).
  - rewrite (fbind _ _ _ _ _ eq_refl). replace (i + (1 + string_items (zlen str))) with (i + string_items (zlen str) + 1) by lia.
    f_equal. unfold add_output. cbn. by rewrite <- !app_assoc.
  - apply (print_chunks _ w code); [by destruct w| |done]. apply Forall_forall. rewrite forallb_forall in Hs. intros c Hc.
    specialize (Hs c Hc). unfold string_char in Hs. lia.
Qed.

(** A command that is in the code is listed as it was written. *)
Definition lists (c : com) : Prop := forall i, Forall (fun y => r y <> 0) (uses c) -> plain_com c = true ->
  seg code i (ccode r c) -> sees i (i + zlen (ccode r c)) (listing name c).

Lemma lists_all cs : Forall lists cs -> forall i, Forall (fun y => r y <> 0) (concat (map uses cs)) -> forallb plain_com cs = true ->
  seg code i (ccodes r cs) -> sees i (i + zlen (ccodes r cs)) (concat (map (listing name) cs)).
Proof.
  unfold ccodes. induction 1 as [|c cs Hc _ IH]; intros i Hu Hp Hs; cbn [map concat forallb] in *.
  - rewrite zlen_nil, Z.add_0_r. apply sees_nil.
  - apply Forall_app in Hu as [Hu1 Hu2]. apply andb_true_iff in Hp as [Hp1 Hp2]. apply seg_app in Hs as [Hs1 Hs2].
    rewrite zlen_app, Z.add_assoc. eapply sees_app; [by apply Hc|by apply IH].
Qed.

(** A marked word: a branch or a label, and the word. *)
Lemma sees_marked i t d x ps : t = LABEL_TYPE \/ t = BRANCH_TYPE -> seg code i (PItem t d :: PWord r x :: ps) -> r x <> 0 ->
  sees i (i + 2) [listed x] /\ seg code (i + 2) ps.
Proof.
  intros Ht Hs Hx. pose proof Hs as [_ Hs1]%seg_cons. pose proof Hs1 as [_ Hs2]%seg_cons.
  replace (i + 1 + 1) with (i + 2) in Hs2 by lia. split; [|done]. change [listed x] with ([] ++ [listed x]).
  eapply sees_app; [by eapply sees_mark|]. replace (i + 2) with (i + 1 + 1) by lia. by eapply sees_word.
Qed.

Lemma sees_last i j x ps o : sees i j o -> seg code j (PWord r x :: ps) -> r x <> 0 -> sees i (j + 1) (o ++ [listed x]).
Proof. intros Ho Hs Hx. eapply sees_app; [exact Ho|by eapply sees_word]. Qed.

Lemma lists_loop (op close : string) body i : Forall lists body -> r (str_of op) <> 0 -> r (str_of close) <> 0 ->
  Forall (fun y => r y <> 0) (concat (map uses body)) -> forallb plain_com body = true ->
  let code_of := PItem LABEL_TYPE None :: PWord r (str_of op) :: ccodes r body ++ [PItem LABEL_TYPE None; PWord r (str_of close)] in
  seg code i code_of -> sees i (i + zlen code_of) (listed_kw op :: concat (map (listing name) body) ++ [listed_kw close]).
Proof.
  intros Hall Ho Hc Hu Hp code_of Hs. assert (El : zlen code_of = 2 + zlen (ccodes r body) + 2).
  { unfold code_of. rewrite !zlen_cons, zlen_app, !zlen_cons, zlen_nil. lia. }
  rewrite El. destruct (sees_marked _ _ _ _ _ (or_introl eq_refl) Hs Ho) as [H1 [H2 H3]%seg_app].
  destruct (sees_marked _ _ _ _ _ (or_introl eq_refl) H3 Hc) as [H4 _].
  change (listed_kw op :: ?l) with ([listed_kw op] ++ l). rewrite !Z.add_assoc.
  eapply sees_app; [exact H1|]. eapply sees_app; [by apply lists_all|exact H4].
Qed.

Lemma lists_com c : lists c.
Proof.
  induction c as [t|x|str| |yes no IHy IHn|yes IH|body IH|body IH] using com_ind; intros i Hu Hp Hs; cbn [ccode uses plain_com listing] in *.
  - destruct (atoi t) as [z|] eqn:Ez; [|by apply bool_decide_eq_true in Hp]. cbn [default].
    assert (Ei : s32 (u64 z) = z) by (apply s32_u64; unfold atoi in Ez; by apply int_of_Some in Ez as [-> ?]).
    rewrite <- Ei at 2. by eapply sees_number.
  - apply Forall_cons_1 in Hu as [Hx _]. by eapply sees_word.
  - by apply sees_string.
  - by eapply sees_recursive.
  - apply Forall_app in Hu as [Hk Hu]. apply Forall_app in Hu as [Huy Hun]. apply andb_true_iff in Hp as [Hpy Hpn].
    apply Forall_cons_1 in Hk as [Hk1 Hk]. apply Forall_cons_1 in Hk as [Hk2 Hk]. apply Forall_cons_1 in Hk as [Hk3 _].
    destruct (sees_marked _ _ _ _ _ (or_intror eq_refl) Hs Hk1) as [H1 [H2 H3]%seg_app].
    destruct (sees_marked _ _ _ _ _ (or_intror eq_refl) H3 Hk2) as [H4 [H5 H6]%seg_app].
    fold (ccodes r yes) (ccodes r no) in *.
    rewrite !zlen_cons, zlen_app, !zlen_cons, zlen_app, !zlen_cons, zlen_nil. set (a := zlen (ccodes r yes)) in *. set (b := zlen (ccodes r no)) in *.
    replace (i + (1 + (1 + (a + (1 + (1 + (b + (1 + 0)))))))) with (i + 2 + a + 2 + b + 1) by lia.
    change (listed_kw "if" :: ?l) with ([listed_kw "if"] ++ l). eapply sees_app; [exact H1|].
    eapply sees_app; [by apply lists_all|]. change (listed_kw "elif" :: ?l) with ([listed_kw "elif"] ++ l).
    eapply sees_app; [exact H4|]. eapply sees_last; [by apply lists_all|exact H6|done].
  - apply Forall_app in Hu as [Hk Hu]. apply Forall_cons_1 in Hk as [Hk1 Hk]. apply Forall_cons_1 in Hk as [Hk2 _].
    destruct (sees_marked _ _ _ _ _ (or_intror eq_refl) Hs Hk1) as [H1 [H2 H3]%seg_app]. fold (ccodes r yes) in *.
    rewrite !zlen_cons, zlen_app, !zlen_cons, zlen_nil. set (a := zlen (ccodes r yes)) in *.
    replace (i + (1 + (1 + (a + (1 + 0))))) with (i + 2 + a + 1) by lia.
    change (listed_kw "if" :: ?l) with ([listed_kw "if"] ++ l). eapply sees_app; [exact H1|].
    eapply sees_last; [by apply lists_all|exact H3|done].
  - apply Forall_app in Hu as [Hk Hu]. apply Forall_cons_1 in Hk as [Hk1 Hk]. apply Forall_cons_1 in Hk as [Hk2 _]. by apply lists_loop.
  - apply Forall_app in Hu as [Hk Hu]. apply Forall_cons_1 in Hk as [Hk1 Hk]. apply Forall_cons_1 in Hk as [Hk2 _]. by apply lists_loop.
Qed.

(** Up to the end of the word. *)
Lemma see_word_list body st : seg code 0 (ccodes r body ++ [PEnd]) -> Forall (fun y => r y <> 0) (concat (map uses body)) ->
  forallb plain_com body = true -> word_code st w = Some code ->
  see_loop (S (length code)) es name w 0 st = Some (tt, add_output (concat (map (listing name) body)) st).
Proof.
  intros Hs Hu Hp Hw. pose proof Hs as [Hs1 Hs2]%seg_app.
  destruct (lists_all body (proj2 (Forall_forall _ _) (fun c _ => lists_com c)) 0 Hu Hp Hs1) as (k & Hk & E).
  apply item_here in Hs2 as (it & [d ->]%fits_type & Hi & _).
  pose proof (seg_length _ _ _ Hs) as [Hl|Hl]; [|by destruct (ccodes r body)].
  unfold zlen in *. rewrite length_app in Hl. cbn [length] in Hl.
  replace (S (length code)) with (k + S (length code - k))%nat by lia. rewrite E by done. 
  assert (Hw' : word_code (add_output (concat (map (listing name) body)) st) w = Some code) by by destruct w.
  by one_see Hi Hw'.
Qed.
End see.

(** * The command *)

Section command.
Context `{KforthLibOk}.

Lemma find_name_defined r D1 ram1 rest x p e : Forall2 (word_at r) D1 ram1 -> x ∉ D1.*1 -> e_name e = x ->
  find_name x (ram1 ++ (p, e) :: rest) = Some (p, e).
Proof.
  intros Hw Hx He. induction Hw as [|[y b] [q e1] D1 ram1 (Hn & _) _ IH]; cbn [app]; rewrite find_name_cons.
  - by rewrite decide_True.
  - cbn [fst snd] in Hn. rewrite fmap_cons in Hx. apply not_elem_of_cons in Hx as [Hx1 Hx2]. rewrite decide_False; [by apply IH|].
    cbn in Hx1. congruence.
Qed.

(** The listing of a word that is defined. *)
Lemma see_defined D st k x body : ready D st k -> find_def x D = Some body ->
  kforth_see x k = Some (tt, add_output (concat (map (listing x) body) ++ [OText [13; 10]]) k).
Proof.
  intros (ram & st0 & g & lg & -> & Hd & _) (D1 & D2 & ED & Hx)%find_def_split. set (k := view _ _ _ _ _ _).
  assert (Hes : dictionary_entries k = Some (ram ++ consts)) by (by apply dict_entries in Hd).
  pose proof Hd as [Hl Hh Hnd HD _ _]. rewrite ED in HD.
  apply Forall2_app_inv_l in HD as (ram1 & l & Hw1 & Hw2 & El). inversion Hw2 as [|? [p e] ? ram2 Hw Hw2']; subst l.
  destruct Hw as (Hn & Hf & code & Hcode & _ & Hits & Hp & Hu). cbn [fst snd] in *.
  assert (Hfind : find_name x (ram ++ consts) = Some (p, e)) by (rewrite El, <- app_assoc; by eapply find_name_defined).
  assert (Hpe : k_words k !! p = Some e).
  { eapply holds_entry; [exact Hh|]. rewrite El, <- app_assoc. apply elem_of_app. right. by left. }
  unfold kforth_see. rewrite (fbind _ _ _ (ram ++ consts) k) by (unfold get_entries; by rewrite Hes).
  rewrite Hfind, Hf, Hcode. rewrite Hn.
  rewrite (fbind _ _ _ tt (add_output (concat (map (listing x) body)) k)).
  - unfold fprint, fmodify. by rewrite add_output_app.
  - apply see_word_list; [done| |done|done|cbn [word_code]; rewrite Hpe; done].
    split; [done|]. pose proof (Forall2_length Hits) as Elen. rewrite Elen. cbn [drop Z.to_nat]. by rewrite take_ge.
Qed.
End command.
