(* ===== verification/KforthTheorems.v ===== *)
(** The kforth console against the reference, and what modelling showed of it. *)
From Stdlib Require Import Ascii String.
From S2P Require Import Prelude CText Kforth KforthCompile KforthRef KforthRun KforthCode KforthExec KforthRead KforthDict KforthStore KforthSession KforthSee.

(** * Typing *)

Definition echo (s : bytes) : list k_output := map (fun c => OText [c]) s.
Definition BUFFER_SIZE : Z := 200.

(** The reference for lines that are typed: the characters are echoed, and each
    line is answered. *)
Fixpoint rsession (n : nat) (D : defs) (st : rstate) (ls : list (line * bytes)) : option (defs * rstate) :=
  match ls with
  | [] => Some (D, st)
  | (l, text) :: ls' =>
      '(D, st) ← rline n D (st.1, st.2 ++ echo text ++ [OText [10%Z]]) l;
      rsession n D (st.1, st.2 ++ [OText ok_text]) ls'
  end.

(** What is typed: each line and its end. *)
Definition typed (ls : list (line * bytes)) : bytes := concat (map (fun x => x.2 ++ [13]) ls).
Definition typable (x : line * bytes) : Prop :=
  written x.1 x.2 /\ forallb ordinary x.2 = true /\ zlen x.2 <= LINE_LEN - 2.

Section console.
Context `{KforthLibOk}.

Lemma kforth_put_at pre B c e : zlen B = BUFFER_SIZE -> 0 <= c <= 255 -> take (length pre) B = pre -> zlen pre < BUFFER_SIZE ->
  exists B', zlen B' = BUFFER_SIZE /\ take (length (pre ++ [c])) B' = pre ++ [c] /\
    forall st, console_put (mk_console (zlen pre) e B) c st = Some (mk_console (zlen (pre ++ [c])) e B', st).
Proof.
  intros HB Hc Ht Hp. pose proof (zlen_nonneg pre).
  assert (E : Z.to_nat (zlen pre) = length pre) by (unfold zlen; lia).
  exists (<[length pre := c]> B). split; [|split].
  - unfold zlen in *. by rewrite length_insert.
  - rewrite length_app. cbn [length]. rewrite Nat.add_1_r. erewrite take_S_r;
      [|apply list_lookup_insert_eq; unfold zlen in *; lia]. by rewrite take_insert_ge, Ht by lia.
  - intros st. unfold console_put. cbn [kc_pos kc_escape kc_buffer]. rewrite u8_id by lia.
    rewrite (fbind _ _ _ (<[length pre := c]> B) st) by (unfold flift; rewrite zupd_in_range by lia; by rewrite E).
    unfold mret, F_ret. do 3 f_equal. rewrite zlen_app, zlen_cons, zlen_nil. lia.
Qed.

Lemma typed_text body : forall pre B, zlen B = BUFFER_SIZE -> take (length pre) B = pre ->
  forallb ordinary body = true -> zlen (pre ++ body) <= LINE_LEN - 2 ->
  exists B', zlen B' = BUFFER_SIZE /\ take (length (pre ++ body)) B' = pre ++ body /\
    forall fuel rest st, kforth_loop fuel (mk_console (zlen pre) 0 B) (body ++ rest) st =
    kforth_loop fuel (mk_console (zlen (pre ++ body)) 0 B') rest (add_output (echo body) st).
Proof.
  unfold LINE_LEN. induction body as [|c body IH]; intros pre B HB Ht Hb Hl.
  - exists B. rewrite !app_nil_r. split; [done|]. split; [done|]. intros fuel rest [].
    unfold add_output. cbn. by rewrite app_nil_r.
  - cbn [forallb] in Hb. apply andb_true_iff in Hb as [Hc Hb]. apply ordinary_switch in Hc as (Hr & E1 & E2 & E3 & _).
    rewrite zlen_app, zlen_cons in Hl. pose proof (zlen_nonneg body).
    assert (Hlp : zlen (pre ++ [c]) = zlen pre + 1) by by rewrite zlen_app, zlen_cons, zlen_nil.
    destruct (kforth_put_at pre B c 0 HB Hr Ht) as (B1 & HB1 & Ht1 & Ep); [unfold BUFFER_SIZE; lia|].
    destruct (IH (pre ++ [c]) B1) as (B' & HB' & Ht' & E); [done|done|done|rewrite zlen_app; lia|].
    exists B'. rewrite <- (app_assoc pre [c] body) in *. split; [done|]. split; [done|]. intros fuel rest st. cbn [app] in *.
    change (echo (c :: body)) with ([OText [c]] ++ echo body). rewrite <- add_output_app, <- E. cbn [kforth_loop].
    assert (Es : kforth_switch fuel (mk_console (zlen pre) 0 B) c st =
      Some ((mk_console (zlen (pre ++ [c])) 0 B1, false), add_output [OText [c]] st)).
    { unfold kforth_switch. cbn [kc_escape Z.eqb]. rewrite E1, E2, E3. by rewrite (fbind _ _ _ _ _ (Ep st)). }
    assert (Ec : kforth_char fuel (mk_console (zlen pre) 0 B) c st =
      Some ((mk_console (zlen (pre ++ [c])) 0 B1, false), add_output [OText [c]] st)).
    { unfold kforth_char. rewrite (fbind _ _ _ _ _ Es). cbn [kc_pos]. unfold LINE_LEN.
      replace (zlen (pre ++ [c]) =? 64 - 1) with false by (symmetry; apply Z.eqb_neq; lia). done. }
    by rewrite (fbind _ _ _ _ _ Ec).
Qed.

(** A line and its end: the buffer holds the text and its zero. *)
Lemma typed_line text B : zlen B = BUFFER_SIZE -> forallb ordinary text = true -> zlen text <= LINE_LEN - 2 ->
  exists B1, zlen B1 = BUFFER_SIZE /\ (exists junk, B1 = text ++ 0 :: junk) /\
    forall fuel rest k, let k1 := add_output (echo text ++ [OText [10%Z]]) k in
      (forall k2 b, process_buffer fuel B1 k1 = Some ((false, b), k2) ->
        kforth_loop fuel (mk_console 0 0 B) (text ++ 13 :: rest) k = kforth_loop fuel (mk_console 0 0 b) rest k2) /\
      (process_buffer fuel B1 k1 = None -> kforth_loop fuel (mk_console 0 0 B) (text ++ 13 :: rest) k = None).
Proof.
  intros HB Ho Hlen. unfold LINE_LEN in Hlen. destruct (typed_text text [] B HB eq_refl Ho Hlen) as (B0 & HB0 & Ht0 & E). cbn [app] in *.
  destruct (kforth_put_at text B0 0 0 HB0 ltac:(lia) Ht0) as (B1 & HB1 & Ht1 & Ep); [unfold BUFFER_SIZE; lia|].
  exists B1. split; [done|]. split.
  - exists (drop (length (text ++ [0])) B1). rewrite <- (take_drop (length (text ++ [0])) B1), Ht1 at 1. by rewrite <- app_assoc.
  - intros fuel rest k. set (k1 := add_output (echo text ++ [OText [10]]) k). change (mk_console 0 0 B) with (mk_console (zlen (@nil Z)) 0 B). rewrite E. cbn [kforth_loop].
    split; [intros k2 b Epb|intros Epb].
    + assert (Es : kforth_switch fuel (mk_console (zlen text) 0 B0) 13 (add_output (echo text) k) = Some ((mk_console 0 0 b, false), k2)).
      { unfold kforth_switch. cbn [kc_escape Z.eqb Pos.eqb orb]. rewrite (fbind _ _ _ _ _ (Ep _)). rewrite (fbind _ _ _ _ _ eq_refl).
        rewrite add_output_app. cbn [kc_buffer]. by rewrite (fbind _ _ _ _ _ Epb). }
      assert (Ec : kforth_char fuel (mk_console (zlen text) 0 B0) 13 (add_output (echo text) k) = Some ((mk_console 0 0 b, false), k2)).
      { unfold kforth_char. by rewrite (fbind _ _ _ _ _ Es). }
      by rewrite (fbind _ _ _ _ _ Ec).
    + assert (Es : kforth_switch fuel (mk_console (zlen text) 0 B0) 13 (add_output (echo text) k) = None).
      { unfold kforth_switch. cbn [kc_escape Z.eqb Pos.eqb orb]. rewrite (fbind _ _ _ _ _ (Ep _)). rewrite (fbind _ _ _ _ _ eq_refl).
        rewrite add_output_app. cbn [kc_buffer]. unfold mbind, F_bind, k1 in *. by rewrite Epb. }
      unfold kforth_char, mbind, F_bind in *. by rewrite Es.
Qed.

(** The block that a definition is stored in, if the line is one, serves. *)
Definition serves (k : kforth_t) (l : line) : Prop :=
  match l with LRun _ => True | LDefine x body => served (block_of k x body) end.
#[local] Instance serves_dec k l : Decision (serves k l).
Proof. destruct l; apply _. Defined.

(** One line is answered. *)
Lemma answered n D st k l text B D' st' : ready D st k -> typable (l, text) ->
  rline n D (st.1, st.2 ++ echo text ++ [OText [10%Z]]) l = Some (D', st') -> zlen B = BUFFER_SIZE -> serves k l ->
  exists fuel0 k' B', ready D' (st'.1, st'.2 ++ [OText ok_text]) k' /\ zlen B' = BUFFER_SIZE /\
    forall fuel rest, (fuel0 <= fuel)%nat ->
      kforth_loop fuel (mk_console 0 0 B) (text ++ 13 :: rest) k = kforth_loop fuel (mk_console 0 0 B') rest k'.
Proof.
  intros Hk (Hw & Ho & Hlen) He HB Hserves. cbn [fst snd] in *. unfold rline in He.
  destruct (line_ok D l && (length (st.1, st.2 ++ echo text ++ [OText [10%Z]]).1 <=? 900)%nat) eqn:Eok; [|done].
  apply andb_true_iff in Eok as [Hok Hs]. cbn [fst snd] in *. apply Nat.leb_le in Hs.
  set (k1 := add_output (echo text ++ [OText [10%Z]]) k).
  assert (Hk1 : ready D (st.1, st.2 ++ echo text ++ [OText [10%Z]]) k1) by by apply ready_output.
  destruct (typed_line text B HB Ho Hlen) as (B1 & HB1 & Htxt & Hloop).
  assert (Hstep : exists fuel0 k2 B2, ready D' st' k2 /\ length B2 = length B1 /\
    forall fuel, (fuel0 <= fuel)%nat -> kforth_execute_statement fuel B1 k1 = Some ((0, B2), k2)).
  { destruct l as [cs|x body].
    - apply bind_Some in He as (st1 & He & [= <- <-]). by eapply run_line.
    - injection He as <- <-. destruct (define_line D _ k1 x body text B1 Hk1 Hok Hs Hw Htxt Hserves) as (k2 & B2 & H1 & H2 & H3).
      exists 0%nat, k2, B2. split; [exact H1|]. split; [done|]. intros fuel _. apply H3. }
  destruct Hstep as (fuel0 & k2 & B2 & Hk2 & HB2 & Hrun). exists fuel0, (add_output [OText ok_text] k2), B2.
  split; [by apply ready_output|]. split; [unfold zlen in *; by rewrite HB2|]. intros fuel rest Hf. apply Hloop.
  unfold process_buffer. fold k1. by rewrite (fbind _ _ _ _ _ (Hrun fuel Hf)).
Qed.

(** A definition that gets no memory. *)
Lemma not_answered n D st k x body text B r : ready D st k -> typable (LDefine x body, text) ->
  rline n D (st.1, st.2 ++ echo text ++ [OText [10%Z]]) (LDefine x body) = Some r -> zlen B = BUFFER_SIZE ->
  block_of k x body = 0 -> forall fuel rest, kforth_loop fuel (mk_console 0 0 B) (text ++ 13 :: rest) k = None.
Proof.
  intros Hk (Hw & Ho & Hlen) He HB Hn fuel rest. cbn [fst snd] in *. unfold rline in He.
  destruct (line_ok D (LDefine x body) && (length (st.1, st.2 ++ echo text ++ [OText [10%Z]]).1 <=? 900)%nat) eqn:Eok; [|done].
  apply andb_true_iff in Eok as [Hok Hs]. cbn [fst snd] in *. apply Nat.leb_le in Hs.
  destruct (typed_line text B HB Ho Hlen) as (B1 & HB1 & Htxt & Hloop). apply Hloop.
  set (k1 := add_output _ k). unfold process_buffer, mbind, F_bind.
  rewrite (define_no_memory D (st.1, st.2 ++ echo text ++ [OText [10%Z]]) k1 x body text B1); try done. by apply ready_output.
Qed.

(** The lines are typed at a machine in this state: it gets to the state of the reference. *)
Definition reaches (n : nat) (D : defs) (st : rstate) (k : kforth_t) (B : bytes) (ls : list (line * bytes))
    (fuel0 : nat) (st' : rstate) (k' : kforth_t) (B' : bytes) : Prop :=
  exists D', rsession n D st ls = Some (D', st') /\ ready D' st' k' /\ zlen B' = BUFFER_SIZE /\
    forall fuel rest, (fuel0 <= fuel)%nat ->
      kforth_loop fuel (mk_console 0 0 B) (typed ls ++ rest) k = kforth_loop fuel (mk_console 0 0 B') rest k'.

(** All of them, or those before a definition whose block does not serve. *)
Lemma session_answered n ls : forall D st k B D' st', ready D st k -> Forall typable ls -> rsession n D st ls = Some (D', st') ->
  zlen B = BUFFER_SIZE ->
  (exists fuel0 k' B', reaches n D st k B ls fuel0 st' k' B') \/
  (exists ls1 x body text ls2 fuel0 st1 k1 B1, ls = ls1 ++ (LDefine x body, text) :: ls2 /\ reaches n D st k B ls1 fuel0 st1 k1 B1 /\
     ~ served (block_of k1 x body) /\
     (block_of k1 x body = 0 -> forall fuel rest, kforth_loop fuel (mk_console 0 0 B1) (text ++ 13 :: rest) k1 = None)).
Proof.
  induction ls as [|[l text] ls IH]; intros D st k B D' st' Hk Ht He HB.
  - left. exists 0%nat, k, B. by exists D'; injection He as <- <-.
  - apply Forall_cons_1 in Ht as [Htl Ht]. pose proof He as He0. cbn [rsession] in He. apply bind_Some in He as ([D1 st1] & He1 & He).
    destruct (decide (serves k l)) as [Hsv|Hsv].
    + destruct (answered _ _ _ _ _ _ _ _ _ Hk Htl He1 HB Hsv) as (f1 & k1 & B1 & Hk1 & HB1 & Hrun1).
      assert (Hgo : forall ls' f2 st2 k2 B2, reaches n D1 (st1.1, st1.2 ++ [OText ok_text]) k1 B1 ls' f2 st2 k2 B2 ->
        reaches n D st k B ((l, text) :: ls') (max f1 f2) st2 k2 B2).
      { intros ls' f2 st2 k2 B2 (D2 & E2 & Hk2 & HB2 & Hrun2). exists D2. cbn [rsession]. rewrite He1. split; [exact E2|].
        split; [done|]. split; [done|]. intros fuel rest Hf. unfold typed. cbn [map concat snd]. rewrite <- !app_assoc. cbn [app].
        fold (typed ls'). rewrite Hrun1 by lia. apply Hrun2. lia. }
      destruct (IH _ _ _ _ _ _ Hk1 Ht He HB1) as [(f2 & k2 & B2 & Hr)|(ls1 & x & body & t & ls2 & f2 & st2 & k2 & B2 & -> & Hr & Hn)].
      * left. exists (max f1 f2), k2, B2. by apply Hgo.
      * right. exists ((l, text) :: ls1), x, body, t, ls2, (max f1 f2), st2, k2, B2. split; [done|]. split; [by apply Hgo|done].
    + destruct l as [cs|x body]; [by destruct Hsv|]. right. exists [], x, body, text, ls, 0%nat, st, k, B.
      split; [done|]. split; [by exists D|]. split; [done|]. intros Hn. by eapply not_answered.
Qed.

(** What is printed, and what lies on the stack. *)
Definition shows (k : kforth_t) (st : rstate) : Prop :=
  k_printed k = st.2 /\ take (Z.to_nat (k_sp k)) (k_stack k) = reverse st.1.
Lemma ready_shows D st k : ready D st k -> shows k st.
Proof.
  intros (ram & st0 & g & lg & -> & _). split; [done|].
  cbn [view k_sp k_stack]. unfold zlen. by rewrite Nat2Z.id, take_app_length' by (by rewrite length_reverse).
Qed.

(** The command starts with the primitives, and empty stacks. *)
Lemma ready_init D st k : ready D st k -> ready [] ([], st.2) (kforth_init_context k).
Proof.
  intros (ram & st0 & g & lg & -> & Hd & Hex & Hcode & Hg & Hlg). pose proof Hd as [Hl Hh Hnd _ _ _].
  exists [], (kforth_init_context st0), (reverse st.1 ++ g), lg. split; [done|]. split; [|split; [done|split; [done|split; [|done]]]].
  - split; cbn [app]; [exact (const_links dictionary_1)|by apply holds_app in Hh as [_ Hh]|apply const_nodup|constructor..].
  - cbn [fst length]. rewrite length_app, length_reverse. lia.
Qed.

Lemma ready_static o : ready [] ([], o) (add_output o (kforth_init_context kforth_static)).
Proof.
  exists [], (kforth_init_context kforth_static), (repeat 0 1000), (repeat 0 100). split; [done|]. split; [|done].
  split; cbn [app]; [exact (const_links dictionary_1)|apply const_holds, const_nodup|apply const_nodup|constructor..].
Qed.
End console.

(** * The properties *)

Section properties.
Context `{KforthLibOk}.

(** C16: the primitives: on stacks with room, a function of dictionary_1.c that the
    reference knows leaves the stack, the loop stack and the output the reference
    says, and returns 0. *)
Theorem call_primitive_refines f frs st0 s g ls lg out s' o : prim_sem f frs s = Some (s', o) -> stacks_ok frs s g ls lg ->
  (length s <= 998)%nat -> exists st', call_primitive f (view st0 s g ls lg out) = Some (0, st') /\ leaves st0 frs ls s' (out ++ o) st'.
Proof. intros He Hok Hs. destruct (fwp_run _ _ _ (prim_ok f frs st0 s g ls lg out s' o He Hok Hs)) as (r & st' & E & -> & Hl). by exists st'. Qed.

(** C13: the compiler: the tokens of a structured program become its items, with
    the offsets of its branches, and the stack is as it was. *)
Theorem kforth_compile_word_code D st k name cs tail txt p stx : ready D st k -> name = [] \/ word_ok name = true -> name ∉ specials ->
  forallb (readable D name) cs = true -> code_size cs < MAX_COMPILE_WORDS -> tail = [] \/ tail = [kw ";"] -> (length st.1 <= 900)%nat ->
  at_text txt p stx -> spelled (concat (map (tokens name) cs) ++ tail) stx ->
  exists txt' k' ram, kforth_compile_word name txt p k = Some ((txt', code_size cs + 1), k') /\ ready D st k' /\
    dictionary_entries k = Some (ram ++ consts) /\
    seg (k_new_word_list k') 0 (ccodes (resolve_in (ram ++ consts)) cs ++ [PEnd]).
Proof.
  intros Hk Hname Hsp Hr Hsize Htail Hs Ha Hspelled.
  assert (Hes : exists es, dictionary_entries k = Some es).
  { destruct Hk as (ram & st0 & g & lg & -> & Hd & _). exists (ram ++ consts). by apply dict_entries in Hd. }
  destruct Hk as (ram & st0 & g & lg & -> & Hd & Hex & Hcode & Hg & Hlg).
  assert (Hc : fwp (kforth_compile_word name txt p) (fun a k' => a.2 = code_size cs + 1 /\ exists g' code', k' = view (with_code code' st0) st.1 g' [] lg st.2 /\
     seg code' 0 (ccodes (resolve_in (ram ++ consts)) cs ++ [PEnd]) /\ zlen code' = MAX_COMPILE_WORDS /\ (length st.1 + length g' = 1000)%nat)
     (view st0 st.1 g [] lg st.2)).
  { change (view st0 st.1 g [] lg st.2) with (view (with_code (k_new_word_list st0) st0) st.1 g [] lg st.2).
    eapply (compile_program st0 [] lg st.2 (ram ++ consts) name cs tail txt p stx); try done.
    - by apply dict_entries in Hd.
    - intros x. by apply (specials_known D ram st0).
    - rewrite forallb_forall in Hr |- *. intros c Hc. eapply readable_ok; [exact Hd|done|by apply Hr].
    - by rewrite code_size_any.
    - intros txt' code' g' Hseg Hcode' Hg' Hl. cbn [snd]. rewrite code_size_any. split; [done|]. by exists g', code'. }
  apply fwp_run in Hc as ([txt' i] & k' & Ec & Ei & g' & code' & -> & Hseg & Hcode' & Hg'). cbn [snd] in Ei. subst i.
  exists txt', (view (with_code code' st0) st.1 g' [] lg st.2), ram. split; [exact Ec|]. split; [|split; [|exact Hseg]].
  - exists ram, (with_code code' st0), g', lg. split; [done|]. split; [by eapply dict_ok_same; [| |exact Hd]|done].
  - by apply dict_entries in Hd.
Qed.

(** C14: a word is defined (again).  Where malloc has returned NULL, [store_word] goes
    wrong.  Else the block holds the entry, with the code of the word and whatever
    [word_fn] held; where that was NULL, the code of every word that used the old entry
    holds the new one's address, the old entry is taken out of the list, and the
    dictionary stands for the definitions with the new one in front. *)
Theorem store_word_redefines D ram st x body len : dict_ok D ram st -> storable D (resolve_in (ram ++ consts)) x body len st ->
  let p := platform_malloc (map_to_list (k_words st)).*1 (word_size len x) in
  (p = 0 /\ store_word x len st = None) \/
  (p <> 0 /\ exists words ram', store_word x len st = Some (tt, set_words words p st) /\
     (exists next, words !! p = Some (mk_entry next x (malloc_word_fn p) (Some (take (Z.to_nat len) (k_new_word_list st))))) /\
     (malloc_word_fn p = NoFn -> dict_ok ((x, body) :: without x D) ram' (set_words words p st))).
Proof.
  intros Hd Hs p. destruct (decide (p = 0)) as [Hp|Hp]; [left|right]; split; [done| |done|].
  - by apply store_word_null.
  - exact (store_word_ok D ram st x body len Hd Hs Hp).
Qed.

(** C12: the console: lines of programs and definitions are typed after the command
    has started, and each is compiled, runs and is answered as the reference says:
    the same transcript, and the same numbers left on the stack.  That is so for all
    the lines, or for those before a definition whose block does not serve: malloc
    has returned NULL, and then typing that line is undefined (a write through NULL),
    or a block that does not hold NULL where [word_fn] lies, which nothing sets. *)
Theorem kforth_answers n B ls D st : zlen B = BUFFER_SIZE -> Forall typable ls -> rsession n [] ([], greeting) ls = Some (D, st) ->
  (exists fuel0 k' B', shows k' st /\
     forall fuel, (fuel0 <= fuel)%nat -> kforth fuel 0 B (typed ls) kforth_static = Some ((mk_console 0 0 B', false), k')) \/
  (exists ls1 x body text ls2 D1 st1 fuel0 k1 B1, ls = ls1 ++ (LDefine x body, text) :: ls2 /\
     rsession n [] ([], greeting) ls1 = Some (D1, st1) /\ shows k1 st1 /\
     (forall fuel, (fuel0 <= fuel)%nat -> kforth fuel 0 B (typed ls1) kforth_static = Some ((mk_console 0 0 B1, false), k1)) /\
     let p := block_of k1 x body in
     (p = 0 /\ forall fuel, (fuel0 <= fuel)%nat -> kforth fuel 0 B (typed (ls1 ++ [(LDefine x body, text)])) kforth_static = None) \/
     (p <> 0 /\ malloc_word_fn p <> NoFn)).
Proof.
  intros HB Ht He.
  assert (Hkf : forall fuel input, kforth fuel 0 B input kforth_static =
    kforth_loop fuel (mk_console 0 0 B) input (kforth_init_context (add_output greeting kforth_static))).
  { intros fuel input. unfold kforth. rewrite (fbind _ _ _ _ _ eq_refl). by rewrite (fbind _ _ _ _ _ eq_refl). }
  destruct (session_answered n ls [] ([], greeting) (kforth_init_context (add_output greeting kforth_static)) B D st)
    as [(fuel0 & k' & B' & D' & _ & Hk & _ & Hrun)|(ls1 & x & body & text & ls2 & fuel0 & st1 & k1 & B1 & -> & (D1 & E1 & Hk & _ & Hrun) & Hn & Hnull)];
    [exact (ready_static greeting)|done|done|done|left|right].
  - exists fuel0, k', B'. split; [by eapply ready_shows|]. intros fuel Hf. rewrite Hkf, <- (app_nil_r (typed ls)). by apply Hrun.
  - exists ls1, x, body, text, ls2, D1, st1, fuel0, k1, B1. split; [done|]. split; [done|]. split; [by eapply ready_shows|]. split.
    { intros fuel Hf. rewrite Hkf, <- (app_nil_r (typed ls1)). by apply Hrun. }
    intros p. destruct (decide (p = 0)) as [Hp|Hp]; [left; split; [done|]|right; split; [done|]; by intros Hc; apply Hn].
    intros fuel Hf. unfold typed. rewrite Hkf, map_app, concat_app. fold (typed ls1). rewrite Hrun by done. cbn [map concat snd].
    rewrite <- !app_assoc. cbn [app]. by apply Hnull.
Qed.

(** C15: [see] prints a definition back: what it shows on the screen is the text of
    the program, token for token, with its numbers as [%d] prints them, and reads as
    that program.  For an entry whose [word_fn] is set, as it can be after
    [store_word], it prints PRIMITIVE instead. *)
Theorem kforth_see_text D st k x : ready D st k ->
  (forall body, find_def x D = Some body -> exists o, kforth_see x k = Some (tt, add_output (o ++ [OText [13; 10]]) k) /\
    concat (map shown o) = line_of (concat (map (tokens x) (map normal body))) /\
    spells (concat (map (tokens x) (map normal body))) (concat (map shown o)) /\
    (forallb canonical body = true -> map normal body = body)) /\
  (forall es p e, dictionary_entries k = Some es -> find_name x es = Some (p, e) -> e_fn e <> NoFn ->
    kforth_see x k = Some (tt, add_output [OText (str_of "PRIMITIVE" ++ [13; 10]); OText [13; 10]] k)).
Proof.
  intros Hk. split.
  - intros body Hx. eexists. split; [by eapply see_defined|]. rewrite listing_texts. split; [done|]. split; [apply line_of_spells|apply canonical_normal].
  - intros es p e Hes Hf Hfn. unfold kforth_see. rewrite (fbind _ _ _ es k) by (unfold get_entries; by rewrite Hes). rewrite Hf.
    rewrite (fbind _ _ _ tt (add_output [OText (str_of "PRIMITIVE" ++ [13; 10])] k)) by (by destruct (e_fn e), (e_list e)).
    unfold fprint, fmodify. by rewrite add_output_app.
Qed.

(** * The line editor *)

(** Is the character (or the blank of the "right" key) put into the buffer? *)
Definition stores (s : console) (c : Z) : bool :=
  if kc_escape s =? 0 then negb ((c =? 127) || (c =? 8) || (c =? 27)) else negb (kc_escape s =? 1) && (c =? 67).
Definition erases (s : console) (c : Z) : bool :=
  if kc_escape s =? 0 then (c =? 127) || (c =? 8) else negb (kc_escape s =? 1) && (c =? 68).
(** The position after it. *)
Definition moved (s : console) (c : Z) : Z :=
  if stores s c then kc_pos s + 1 else if erases s c && (kc_pos s >? 0) then kc_pos s - 1 else kc_pos s.

Lemma add_output_nil st : add_output [] st = st.
Proof. destruct st. unfold add_output. cbn. by rewrite app_nil_r. Qed.
Lemma console_put_ok s c st : 0 <= kc_pos s < zlen (kc_buffer s) ->
  exists b, zlen b = zlen (kc_buffer s) /\ console_put s c st = Some (mk_console (kc_pos s + 1) (kc_escape s) b, st).
Proof.
  intros Hp. exists (<[Z.to_nat (kc_pos s) := u8 c]> (kc_buffer s)). split; [unfold zlen; by rewrite length_insert|].
  unfold console_put. rewrite (fbind _ _ _ (<[Z.to_nat (kc_pos s) := u8 c]> (kc_buffer s)) st); [done|].
  unfold flift. by rewrite zupd_in_range by lia.
Qed.
Lemma console_put_over s c st : kc_pos s = zlen (kc_buffer s) -> console_put s c st = None.
Proof. intros E. unfold console_put, flift, mbind, F_bind. unfold zupd. by rewrite (proj2 (Z.leb_le _ _)), orb_true_r by lia. Qed.
Lemma console_erase_ok s st : exists o,
  console_erase s st = Some (mk_console (if kc_pos s >? 0 then kc_pos s - 1 else kc_pos s) (kc_escape s) (kc_buffer s), add_output o st).
Proof.
  unfold console_erase. destruct (kc_pos s >? 0).
  - eexists. by rewrite (fbind _ _ _ _ _ eq_refl).
  - exists []. rewrite add_output_nil. by destruct s.
Qed.

(** What the switch does with it. *)
Lemma kforth_switch_ok fuel s c st : 0 <= kc_pos s <= zlen (kc_buffer s) -> (kc_escape s = 0 -> c <> 13 /\ c <> 10) ->
  stores s c = false \/ kc_pos s < zlen (kc_buffer s) ->
  exists e b o, zlen b = zlen (kc_buffer s) /\
    kforth_switch fuel s c st = Some ((mk_console (moved s c) e b, false), add_output o st).
Proof.
  intros Hp Hc Hroom. unfold kforth_switch, moved, stores, erases in *. destruct (kc_escape s =? 0) eqn:E0.
  - apply Z.eqb_eq in E0. destruct (Hc E0) as [H13 H10]. rewrite (proj2 (Z.eqb_neq c 13)), (proj2 (Z.eqb_neq c 10)) by done. cbn [orb].
    destruct ((c =? 127) || (c =? 8)) eqn:Ed.
    + destruct (console_erase_ok s st) as [o Eo]. cbn [orb negb andb]. eexists _, _, o. split; [|by rewrite (fbind _ _ _ _ _ Eo)]. done.
    + cbn [orb]. destruct (c =? 27); cbn [negb andb].
      * eexists _, _, []. rewrite add_output_nil. by split.
      * destruct Hroom as [Hroom|Hroom]; [done|]. destruct (console_put_ok s c st) as (b & Hb & Eo); [lia|].
        eexists _, b, _. split; [done|]. rewrite (fbind _ _ _ _ _ Eo). by rewrite (fbind _ _ _ _ _ eq_refl).
  - destruct (kc_escape s =? 1); cbn [negb andb].
    + eexists _, _, []. rewrite add_output_nil. by split.
    + destruct (c =? 67) eqn:Er.
      * destruct Hroom as [Hroom|Hroom]; [done|]. destruct (console_put_ok s 32 st) as (b & Hb & Eo); [lia|].
        eexists _, b, _. split; [done|].
        rewrite (fbind _ _ _ (mk_console (kc_pos s + 1) (kc_escape s) b) (add_output [OText [32]] st)); [done|].
        rewrite (fbind _ _ _ _ _ Eo). by rewrite (fbind _ _ _ _ _ eq_refl).
      * destruct (c =? 68); cbn [andb].
        -- destruct (console_erase_ok s st) as [o Eo]. eexists _, _, o. split; [|by rewrite (fbind _ _ _ _ _ Eo)]. done.
        -- eexists _, _, []. rewrite add_output_nil. by split.
Qed.

Lemma kforth_switch_over fuel s c st : (kc_escape s = 0 -> c <> 13 /\ c <> 10) -> stores s c = true ->
  kc_pos s = zlen (kc_buffer s) -> kforth_switch fuel s c st = None.
Proof.
  intros Hc Hst E. unfold kforth_switch, stores in *. destruct (kc_escape s =? 0) eqn:E0.
  - apply Z.eqb_eq in E0. destruct (Hc E0) as [H13 H10]. rewrite (proj2 (Z.eqb_neq c 13)), (proj2 (Z.eqb_neq c 10)) by done. cbn [orb].
    rewrite !negb_orb, !andb_true_iff, !negb_true_iff in Hst. destruct Hst as [[-> ->] ->]. cbn [orb].
    unfold mbind, F_bind. by rewrite console_put_over.
  - apply andb_true_iff in Hst as [H1 ->]. apply negb_true_iff in H1 as ->. unfold mbind, F_bind. by rewrite console_put_over.
Qed.

(** C37: a character that does not end a line, at every position of the 200 bytes: it
    is undefined exactly where it is to be stored behind the last byte; else it does
    nothing but print, the buffer keeps its length, and the session ends with "line too
    long" exactly when the position gets to 63.  From a position of at most 62, where
    the first session starts, the position stays at most 62; the test is for equality,
    so from 63, where a [bye] line of 62 characters leaves it, nothing ends the line. *)
Theorem kforth_char_safe fuel s c st : 0 <= kc_pos s <= BUFFER_SIZE -> zlen (kc_buffer s) = BUFFER_SIZE ->
  (kc_escape s = 0 -> c <> 13 /\ c <> 10) ->
  (stores s c = true /\ kc_pos s = BUFFER_SIZE /\ kforth_char fuel s c st = None) \/
  (exists s' over o, kforth_char fuel s c st = Some ((s', over), add_output o st) /\ zlen (kc_buffer s') = BUFFER_SIZE /\
     over = (moved s c =? LINE_LEN - 1) /\ kc_pos s' = (if over then 0 else moved s c) /\
     0 <= kc_pos s' <= BUFFER_SIZE /\ (kc_pos s <= LINE_LEN - 2 -> kc_pos s' <= LINE_LEN - 2)).
Proof.
  intros Hp Hb Hc. destruct (decide (stores s c = true /\ kc_pos s = BUFFER_SIZE)) as [[Hst E]|Hn]; [left|right].
  - split; [done|]. split; [done|]. unfold kforth_char, mbind, F_bind. by rewrite kforth_switch_over by (done || congruence).
  - destruct (kforth_switch_ok fuel s c st) as (e & b & o & Hb' & E); [by rewrite Hb|done| |].
    { rewrite Hb. destruct (stores s c); [right|by left]. assert (kc_pos s <> BUFFER_SIZE) by (intros E; by apply Hn). lia. }
    assert (Hm : 0 <= moved s c <= BUFFER_SIZE /\ moved s c <= kc_pos s + 1).
    { unfold moved. destruct (stores s c) eqn:Est.
      - assert (kc_pos s <> BUFFER_SIZE) by (intros ?; by apply Hn). lia.
      - destruct (erases s c); cbn [andb]; [|lia]. destruct (kc_pos s >? 0) eqn:E0; zbool; lia. }
    unfold kforth_char. rewrite (fbind _ _ _ _ _ E). cbn [kc_pos kc_escape kc_buffer].
    destruct (moved s c =? LINE_LEN - 1) eqn:Eo; unfold LINE_LEN, BUFFER_SIZE in *.
    + eexists _, true, _. split; [rewrite (fbind _ _ _ _ _ eq_refl); by rewrite add_output_app|]. cbn. split; [congruence|]. repeat split; lia.
    + eexists _, false, o. split; [done|]. cbn. split; [congruence|]. apply Z.eqb_neq in Eo. repeat split; lia.
Qed.

(** * A blank too many *)

Lemma recursive_never_ends st d : k_exit_flag st = 0 -> head (k_new_word_list st) = Some (Item RECURSIVE_TYPE d) ->
  forall fuel, execute_word fuel Temp st = None.
Proof.
  intros Hex Hit. induction fuel as [|fuel IH]; [done|]. cbn [execute_word]. rewrite (fbind _ _ _ _ _ eq_refl).
  destruct fuel as [|n]; [done|]. cbn [word_loop]. rewrite (fbind _ _ _ _ _ eq_refl), Hex. cbn [Z.eqb negb].
  assert (Hg : get_item Temp 0 st = Some (Item RECURSIVE_TYPE d, st)).
  { unfold get_item. cbn [word_code mbind option_bind]. destruct (k_new_word_list st) as [|it l]; [done|]. injection Hit as ->. done. }
  rewrite (fbind _ _ _ _ _ Hg). rewrite (fbind _ _ _ _ _ eq_refl). cbn [item_type Z.eqb Pos.eqb END_TYPE LITERAL_TYPE WORD_TYPE STR_TYPE LABEL_TYPE BRANCH_TYPE RECURSIVE_TYPE].
  unfold mbind at 1, F_bind. by rewrite IH.
Qed.

(** a statement that is a single blank is compiled to a call of itself: the
    empty token is the empty name of the statement.  It never returns. *)
Theorem blank_statement_hangs D st k fuel junk : ready D st k -> kforth_execute_statement fuel (32 :: 0 :: junk) k = None.
Proof.
  intros (ram & st0 & g & lg & -> & _ & Hex & Hcode & _). unfold MAX_COMPILE_WORDS in Hcode.
  assert (Hc : fwp (kforth_compile_word [] (32 :: 0 :: junk) 0) (fun _ st' => k_exit_flag st' = 0 /\
    exists d, head (k_new_word_list st') = Some (Item RECURSIVE_TYPE d)) (view st0 st.1 g [] lg st.2)).
  { change (view st0 st.1 g [] lg st.2) with (view (with_code (k_new_word_list st0) st0) st.1 g [] lg st.2).
    set (code := k_new_word_list st0) in *. unfold kforth_compile_word.
    apply fwp_bind. eapply fwp_intro; [reflexivity|]. cbv beta iota. apply fwp_bind. cbn [text_fuel length compile_loop].
    apply fwp_bind. unfold compile_token. apply fwp_bind. eapply fwp_flift; [reflexivity|]. apply fwp_bind.
    apply fwp_prefix_none; [apply (bool_decide_unpack _); by vm_compute|]. rewrite bool_decide_eq_true_2 by done.
    apply fwp_bind, fwp_set_type; [lia|]. intros d. apply fwp_ret. cbv beta iota. apply fwp_bind.
    eapply fwp_intro; [reflexivity|]. cbv beta iota. cbn [compile_loop]. apply fwp_ret. cbv beta iota.
    apply fwp_bind, fwp_set_type; [rewrite put_length; lia|]. intros d'. apply fwp_ret. split; [done|]. exists d. cbn.
    destruct code as [|c1 [|c2 code']]; [done|done|]. done. }
  apply fwp_run in Hc as ([txt' i] & k1 & Ec & Hex1 & d & Hd).
  unfold kforth_execute_statement. do 3 (rewrite (fbind _ _ _ _ _ eq_refl)). rewrite (fbind _ _ _ _ _ Ec).
  unfold mbind at 1, F_bind. by rewrite (recursive_never_ends k1 d).
Qed.
End properties.

(** * A memory *)

(** The table at one place, and blocks that are taken one above the other. *)
Definition example_index (f : primitive) : Z :=
  match list_find (fun y => y = f) (map snd dictionary_1) with Some (i, _) => Z.of_nat i | None => -1 end.
#[export] Instance example_lib : KforthLib := {
  entry_address := fun f => 4096 + 32 * example_index f;
  platform_malloc := fun live n => 65536 + foldr Z.max 0 live;
  malloc_word_fn := fun _ => NoFn;
  ret_address := 1024 }.

Lemma example_index_lookup f : znth (map snd dictionary_1) (example_index f) = Some f.
Proof. by destruct f. Qed.

#[export] Instance example_lib_ok : KforthLibOk.
Proof.
  split; cbn.
  - intros f f' E. assert (Ei : example_index f = example_index f') by lia.
    pose proof (example_index_lookup f) as H1. rewrite Ei, example_index_lookup in H1. by injection H1.
  - intros f. pose proof (znth_Some_range _ _ _ (example_index_lookup f)). lia.
  - intros live n _ Hin. assert (H : forall z, z ∈ live -> z <= foldr Z.max 0 live).
    { clear. induction live as [|y live IH]; intros z Hz; [by apply elem_of_nil in Hz|]. cbn.
      apply elem_of_cons in Hz as [->|Hz]; [lia|]. specialize (IH z Hz). lia. }
    specialize (H _ Hin). lia.
Qed.

Definition w (s : string) : com := CWord (str_of s).
Definition num (s : string) : com := CNum (str_of s).
Definition square : list com := [w "dup"; w "*"].
(** The squares up to a bound, and a word that is defined again. *)
Definition squares : list com := [num "0"; CDo [w "I"; w "square"; w "."]].
Definition session_lines : list (line * bytes) :=
  map (fun x => (x.1, str_of x.2))
    [(LDefine (str_of "square") square, ": square dup * ;"%string);
     (LDefine (str_of "squares") squares, ": squares 0 do I square . loop ;"%string);
     (LRun [num "4"; w "squares"], "4 squares"%string);
     (LDefine (str_of "square") [w "dup"; w "dup"; w "*"; w "*"], ": square dup dup * * "%string);
     (LRun [num "4"; w "squares"; num "7"], "4 squares 7"%string)].

Lemma spells_last ts text : forall t, text = line_of ts ++ token_text t -> spells (ts ++ [t]) text.
Proof.
  intros t -> junk. unfold line_of. induction ts as [|t' ts IH]; cbn [map concat app]; [constructor|].
  rewrite <- !app_assoc. cbn [app]. constructor. by rewrite app_assoc.
Qed.

Lemma session_typable : Forall typable session_lines.
Proof.
  repeat constructor; try reflexivity; try (vm_compute; discriminate).
  - apply (written_define (str_of "square") square [kw ";"]); [by right|]. by apply (spells_last [kw "dup"; kw "*"]).
  - apply (written_define (str_of "squares") squares [kw ";"]); [by right|].
    by apply (spells_last [kw "0"; kw "do"; kw "I"; kw "square"; kw "."; kw "loop"]).
  - by apply (spells_last [kw "4"]).
  - apply (written_define (str_of "square") [w "dup"; w "dup"; w "*"; w "*"] []); [by left|].
    apply (line_of_spells [kw "dup"; kw "dup"; kw "*"; kw "*"]).
  - by apply (spells_last [kw "4"; kw "squares"]).
Qed.

(** What is left of the transcript without the echo. *)
Definition numbers (o : list k_output) : list Z := omap (fun x => match x with OInt z => Some z | _ => None end) o.

Lemma session_result : match rsession 30 [] ([], greeting) session_lines with
  | Some (D, st) => st.1 = [7] /\ numbers st.2 = [0; 1; 4; 9; 0; 1; 8; 27]
  | None => False
  end.
Proof. vm_compute. split; reflexivity. Qed.

Lemma example_served p : p <> 0 -> served p.
Proof. by split. Qed.
Lemma example_block live n : platform_malloc live n <> 0.
Proof. cbn. assert (0 <= foldr Z.max 0 live) by (induction live; cbn; lia). lia. Qed.
Lemma example_block_of k x body : block_of k x body <> 0.
Proof. unfold block_of. apply example_block. Qed.

Lemma kforth_answers_witness : exists (st : rstate) fuel0 k' B',
  numbers st.2 = [0; 1; 4; 9; 0; 1; 8; 27] /\ k_printed k' = st.2 /\
  take (Z.to_nat (k_sp k')) (k_stack k') = [7] /\
  forall fuel, (fuel0 <= fuel)%nat -> kforth fuel 0 (repeat 0 200) (typed session_lines) kforth_static = Some ((mk_console 0 0 B', false), k').
Proof.
  pose proof session_result as R. destruct (rsession 30 [] ([], greeting) session_lines) as [[D st]|] eqn:E; [|contradiction].
  destruct R as [H1 H2]. destruct (kforth_answers 30 (repeat 0 200) session_lines D st)
    as [(fuel0 & k' & B' & [Hp Hs] & Hrun)|(ls1 & x & body & text & ls2 & D1 & st1 & fuel0 & k1 & B1 & _ & _ & _ & _ & [[Hp _]|[Hp Hn]])];
    [reflexivity|apply session_typable|exact E| | |].
  - exists st, fuel0, k', B'. rewrite H1 in Hs. split; [exact H2|]. split; [exact Hp|]. split; [exact Hs|exact Hrun].
  - destruct (example_block_of k1 x body Hp).
  - destruct (Hn eq_refl).
Defined.

Lemma call_primitive_refines_witness : exists st',
  call_primitive fn_rot (view kforth_static [3; 2; 1] (repeat 0 997) [] (repeat 0 100) []) = Some (0, st') /\
  leaves kforth_static [] [] [1; 3; 2] [] st'.
Proof. apply (call_primitive_refines fn_rot [] kforth_static [3; 2; 1] (repeat 0 997) [] (repeat 0 100) [] [1; 3; 2] []); [reflexivity|by split|cbn; lia]. Defined.

(** The machine after the start of the command. *)
Definition started : kforth_t := add_output [] (kforth_init_context kforth_static).

Lemma kforth_compile_word_code_witness : exists txt' k' ram,
  kforth_compile_word [] (str_of "1 if 2 elif 3 endif" ++ [0]) 0 started = Some ((txt', 9), k') /\ ready [] ([], []) k' /\
  dictionary_entries started = Some (ram ++ consts) /\
  seg (k_new_word_list k') 0 (ccodes (resolve_in (ram ++ consts)) [num "1"; CIf [num "2"] [num "3"]] ++ [PEnd]).
Proof.
  change 9 with (code_size [num "1"; CIf [num "2"] [num "3"]] + 1).
  apply (kforth_compile_word_code [] ([], []) started [] [num "1"; CIf [num "2"] [num "3"]] [] _ 0 (str_of "1 if 2 elif 3 endif" ++ [0]));
    [apply (ready_static [])|by left|apply (bool_decide_unpack _); by vm_compute|reflexivity|reflexivity|by left|cbn; lia|by split|].
  apply (spells_last [kw "1"; kw "if"; kw "2"; kw "elif"; kw "3"] _ (kw "endif")). reflexivity.
Defined.

(** [square] is defined. *)
Lemma square_written : written (LDefine (str_of "square") square) (str_of ": square dup * ;").
Proof. apply (written_define (str_of "square") square [kw ";"]); [by right|]. by apply (spells_last [kw "dup"; kw "*"]). Qed.

Lemma square_defined : exists k, ready [(str_of "square", square)] ([], [OCompiled (str_of "square")]) k.
Proof.
  destruct (define_line [] ([], []) started (str_of "square") square (str_of ": square dup * ;") (str_of ": square dup * ;" ++ [0]))
    as (k & txt & Hk & _); [apply (ready_static [])|reflexivity|cbn; lia|apply square_written|by exists []|apply example_served, example_block_of|by exists k].
Qed.

Lemma store_word_redefines_witness : exists ram st words p ram', dict_ok [(str_of "square", square)] ram st /\
  store_word (str_of "square") 1 st = Some (tt, set_words words p st) /\
  dict_ok [(str_of "square", [])] ram' (set_words words p st).
Proof.
  destruct square_defined as (k & ram & st0 & g & lg & -> & Hd & _).
  exists ram, (set_new_word_list [Item END_TYPE None] st0).
  assert (Hd' : dict_ok [(str_of "square", square)] ram (set_new_word_list [Item END_TYPE None] st0)) by by eapply dict_ok_same; [| |exact Hd].
  destruct (store_word_redefines [(str_of "square", square)] ram (set_new_word_list [Item END_TYPE None] st0) (str_of "square") [] 1)
    as [[Hp _]|(_ & words & ram' & H1 & _ & H2)]; [exact Hd'| |destruct (example_block _ _ Hp)|].
  - split; [apply (bool_decide_unpack _); by vm_compute|reflexivity|reflexivity|vm_compute; discriminate| |reflexivity|constructor].
    apply seg_one. by eexists.
  - eexists words, _, ram'. split; [exact Hd'|]. split; [exact H1|]. by apply H2.
Defined.

Lemma kforth_see_text_witness : exists k o, ready [(str_of "square", square)] ([], [OCompiled (str_of "square")]) k /\
  kforth_see (str_of "square") k = Some (tt, add_output (o ++ [OText [13; 10]]) k) /\
  concat (map shown o) = str_of "dup * " /\ spells [kw "dup"; kw "*"] (concat (map shown o)).
Proof.
  destruct square_defined as (k & Hk). exists k.
  destruct (kforth_see_text [(str_of "square", square)] ([], [OCompiled (str_of "square")]) k (str_of "square")) as [H _]; [exact Hk|].
  destruct (H square) as (o & H1 & H2 & H3 & _); [reflexivity|by exists o].
Defined.

Lemma kforth_char_safe_witness :
  (exists s' o, kforth_char 0 (mk_console 62 0 (repeat 0 200)) 65 started = Some ((s', true), add_output o started) /\ kc_pos s' = 0) /\
  (exists s' o, kforth_char 0 (mk_console 63 0 (repeat 0 200)) 65 started = Some ((s', false), add_output o started) /\ kc_pos s' = 64) /\
  kforth_char 0 (mk_console 200 0 (repeat 0 200)) 65 started = None.
Proof.
  split; [|split].
  - destruct (kforth_char_safe 0 (mk_console 62 0 (repeat 0 200)) 65 started) as [(_ & E & _)|(s' & over & o & E & _ & -> & Ep & _)];
      [vm_compute; split; discriminate|reflexivity|intros _; split; discriminate|discriminate E|by exists s', o].
  - destruct (kforth_char_safe 0 (mk_console 63 0 (repeat 0 200)) 65 started) as [(_ & E & _)|(s' & over & o & E & _ & -> & Ep & _)];
      [vm_compute; split; discriminate|reflexivity|intros _; split; discriminate|discriminate E|by exists s', o].
  - destruct (kforth_char_safe 0 (mk_console 200 0 (repeat 0 200)) 65 started) as [(_ & _ & E)|(s' & over & o & _ & _ & -> & Ep & Hr & _)];
      [vm_compute; split; discriminate|reflexivity|intros _; split; discriminate|exact E|].
    exfalso. change (kc_pos s' = 201) in Ep. unfold BUFFER_SIZE in Hr. lia.
Defined.

Lemma blank_statement_hangs_witness : kforth_execute_statement 50 [32; 0] started = None.
Proof. apply (blank_statement_hangs [] ([], []) started 50 []). apply (ready_static []). Defined.
