(* ===== verification/KforthFindings.v ===== *)
(** What modelling showed of kforth: behaviour that its comments and its use do not
    suggest, on concrete sessions. *)
From Stdlib Require Import Ascii String.
From S2P Require Import Prelude CText Kforth KforthCompile KforthRef KforthRun KforthCode KforthExec KforthRead KforthDict KforthStore KforthSession KforthSee KforthTheorems.

(** Lines that are typed, from a state and a position: the position, whether the
    command was left, the numbers printed and the unknown words. *)
Definition lines (ls : list string) : bytes := concat (map (fun l => str_of l ++ [13]) ls).
Definition reported (o : list k_output) : list (Z + bytes) :=
  omap (fun x => match x with OInt z => Some (inl z) | OUnknownWord s => Some (inr s) | _ => None end) o.
Definition session (L : KforthLib) (pos : Z) (b : bytes) (ls : list string) (st : kforth_t) : option (Z * bool * list (Z + bytes) * kforth_t) :=
  '((s, over), st') ← kforth 200 pos b (lines ls) st;
  Some (kc_pos s, over, reported (k_printed st'), st').
Definition result {A} (r : option (Z * bool * list (Z + bytes) * A)) : option (Z * bool * list (Z + bytes)) :=
  option_map (fun x => x.1) r.
Definition clean : bytes := repeat 0 200.
(** The first session. *)
Definition started_with (L : KforthLib) (ls : list string) := session L 0 clean ls (kforth_static (H := L)).

(** [store_word] stores nothing to [word_fn]: when the block holds something else
    there, the word can be defined, and its first call is a jump to that. *)
Definition wild_lib : KforthLib := {|
  entry_address := @entry_address example_lib; platform_malloc := @platform_malloc example_lib;
  malloc_word_fn := fun _ => WildFn; ret_address := 1024 |}.
Example word_fn_not_set : result (started_with wild_lib [": sq dup * ;"]%string) = Some (0, false, []) /\
  started_with wild_lib [": sq dup * ;"; "3 sq ."]%string = None /\
  result (started_with example_lib [": sq dup * ;"; "3 sq ."]%string) = Some (0, false, [inl 9]).
Proof. vm_compute. repeat split. Qed.

(** After [bye] the flag stays set and the position stays behind the four
    characters: the next session ends at its first line, which is read from a buffer
    whose beginning was not written. *)
Example bye_stays : exists st, started_with example_lib ["bye"]%string = Some (4, true, [], st) /\
  k_exit_flag st = 1 /\ result (session example_lib 4 (str_of "1 . " ++ clean) ["2 ."; "3 ."]%string st) = Some (8, true, []).
Proof. eexists. split; [vm_compute; reflexivity|]. vm_compute. split; reflexivity. Qed.

(** A second blank inside a definition is an empty token, and an empty token is a
    number: 0 is pushed. *)
Example blank_pushes_zero : result (started_with example_lib [": two  1 ;"; "two . ."]%string) =
  Some (0, false, [inl 1; inl 0]).
Proof. vm_compute. reflexivity. Qed.

(** A text with a period is a float, whose value is the address of a local variable,
    and [f+] returns a [double] through a pointer to a function that returns [int]. *)
Example float_is_address : result (started_with example_lib ["1.5 ."; "2 3 f+"]%string) = None /\
  result (started_with example_lib ["1.5 ."]%string) = Some (0, false, [inl 1024]).
Proof. vm_compute. split; reflexivity. Qed.

(** A definition without a body: the text is read from behind its zero, where the
    last line is. *)
Example define_reads_last_line : result (started_with example_lib ["1 2 3 4 5 . . . . ."; ": x"; "x ."]%string) =
  Some (0, false, map inl [5; 4; 3; 2; 1] ++ map inl [3]).
Proof. vm_compute. reflexivity. Qed.

(** [&] puts an address on a stack of [int]: with the entries above 2 GB, where the
    memory of the 64-bit board is, [get] follows the extended sign. *)
Definition board_lib : KforthLib := {|
  entry_address := fun f => 2147483648 + @entry_address example_lib f;
  platform_malloc := fun live n => 2147483648 + @platform_malloc example_lib (map (fun z => z - 2147483648) live) n;
  malloc_word_fn := fun _ => NoFn; ret_address := 1024 |}.
Example address_does_not_fit : result (started_with example_lib [": v 7 ;"; "& v get ."]%string) = Some (0, false, [inl 7]) /\
  started_with board_lib [": v 7 ;"; "& v get ."]%string = None /\
  result (started_with board_lib [": v 7 ;"; "v ."]%string) = Some (0, false, [inl 7]).
Proof. vm_compute. repeat split. Qed.

(** [endif] without [if] takes the user's number for the index of a branch. *)
Example endif_takes_number : result (started_with example_lib ["7 8"; "endif ."]%string) = Some (0, false, [inl 7]) /\
  started_with example_lib ["endif"]%string = None.
Proof. vm_compute. split; reflexivity. Qed.

(** [while] has a label of its own, and no word opens its loop: alone it takes a
    number below the loop stack; after [do] it leaves two of that loop's numbers. *)
Example while_has_no_opener : started_with example_lib [": w 0 while ;"; "w"]%string = None /\
  option_map (fun x => k_lsp x.2) (started_with example_lib [": w do 0 while ;"; "2 1 w"]%string) = Some 2.
Proof. vm_compute. split; reflexivity. Qed.

(** After a [bye] line of 62 characters the position stays at 63, the test for 63 is
    not met again, and the next session writes behind the 200 bytes of its buffer. *)
Example bye_overruns : exists st, started_with example_lib [("bye" ++ String.concat "" (repeat " " 59))%string] = Some (63, true, map inl [], st) /\
  option_map (fun x => kc_pos x.1.1) (kforth (H := example_lib) 200 63 clean (repeat 97 137) st) = Some 200 /\
  kforth (H := example_lib) 200 63 clean (repeat 97 138) st = None.
Proof. eexists. split; [vm_compute; reflexivity|]. vm_compute. split; reflexivity. Qed.

(** A definition when there is no memory: the name is written through NULL. *)
Definition full_lib : KforthLib := {|
  entry_address := @entry_address example_lib; platform_malloc := fun _ _ => 0;
  malloc_word_fn := fun _ => NoFn; ret_address := 1024 |}.
Example no_memory : started_with full_lib [": x 1 ;"]%string = None.
Proof. vm_compute. reflexivity. Qed.
