(* ===== verification/PusApi.v ===== *)
(** pusapi (src/pus/app/pusapi/pusapi.c): a small HTTP server.  A worker reads from
    a TCP connection, gives what it read to the llhttp parser, whose callbacks choose
    the reply, and writes the reply back.

    The HTTP parser (src/pus/lib/llhttp, generated code of another project), the
    block device and the formatting of a [float] are parameters. *)
From Stdlib Require Import Ascii String.
From S2P Require Import Prelude CText Digits.

(** * Data *)

(** What llhttp calls back with: a span of the request is its bytes. *)
Inductive http_event :=
  | EMessageBegin | EUrl (at_ : bytes) | EHeaderField (at_ : bytes) | EHeaderValue (at_ : bytes)
  | EHeadersComplete | EBody (at_ : bytes) | EMessageComplete.

Class HttpLib := {
  (** [llhttp_execute], from a parser that has just been initialised. *)
  llhttp_execute : bytes -> list http_event;
  (** [%f] of the [float] with these four bytes, lowest first. *)
  show_float : bytes -> bytes }.

(** A response that is built for /info. *)
Record http_response_t := mk_response {
  headers : list (bytes * bytes); rbody : option bytes; content_length : Z; status : Z }.

(** The pointer [reply]: to a text of the program, or to the static [buffer]. *)
Inductive reply_pointer := RNull | RText (s : bytes) | RBuffer.

(** The static variables, the responses on the heap, and what was written to the
    connection. *)
Record api_state := mk_api {
  reply : reply_pointer; buffer : bytes; responses : list http_response_t; sent : list bytes }.

Definition MAX_LEN : Z := 1024.
Definition BUFSIZE : Z := 1024.
Definition API_BUFFER : Z := 1200.

(** * The texts *)

(** Lines that end in a line feed. *)
Definition unlines (ls : list bytes) : bytes := concat (map (fun l => l ++ [10]) ls).
Definition quoted (s : string) : bytes := [34] ++ str_of s ++ [34].
Definition hello_json : bytes :=
  str_of "{" ++ quoted "data" ++ str_of ":" ++ quoted "hello world from PusOS" ++ str_of "}".

Definition API : bytes := str_of "/api".
Definition INFO : bytes := str_of "/info".
Definition DATA : bytes := str_of "/data".
Definition RESPONSE : bytes := str_of "hello_world".

Definition reply1 : bytes :=
  unlines [str_of "HTTP/1.1 200 OK"; str_of "Date: Fri, 23 Sep 2022 21:27:04 GMT"; str_of "Server: LK/0.0.1";
    str_of "Last-Modified: Wed, 18 Jun 2023 16:05:58 GMT"; str_of "ETag: " ++ quoted "56d-9989200-1132c580";
    str_of "Content-Type: application/json"; str_of "Accept-Ranges: bytes"; str_of "Connection: close";
    str_of "Content-Length: 16"; []] ++ hello_json.
Definition reply3 : bytes :=
  unlines (map str_of ["HTTP/1.1 404 Not Found"; "Content-Type: text/html"; "Content-Length: 120"; "Accept-Ranges: bytes";
    "Connection: close"]%string ++ [[]]) ++
  str_of "<html><head><title>404 Not Found</title></head><body bgcolor=white><center><h1>404 Not Found</h1></center></body></html>".
Definition reply_bas : bytes :=
  unlines (map str_of ["HTTP/1.1 200 OK"; "Server: LK/0.0.1"; "Content-Type: text/html"; "Accept-Ranges: bytes"])%string.

(** * Responses on the heap *)

Definition http_response_init : http_response_t := mk_response [] None 0 200.
Definition http_response_header (r : http_response_t) (key value : bytes) : http_response_t :=
  mk_response ((key, value) :: headers r) (rbody r) (content_length r) (status r).
Definition http_response_status (r : http_response_t) (s : Z) : http_response_t :=
  mk_response (headers r) (rbody r) (content_length r) (if (s >? 599) || (s <? 100) then 500 else s).
Definition http_response_body (r : http_response_t) (b : bytes) (length : Z) : http_response_t :=
  mk_response (headers r) (Some b) length (status r).

(** * The sensor page *)

Section api.
Context `{HttpLib}.

(** [memcpy] into the static buffer. *)
Definition put_text (b : bytes) (at_ : Z) (s : bytes) : option bytes :=
  if at_ + zlen s <=? zlen b then Some (take (Z.to_nat at_) b ++ s ++ drop (Z.to_nat (at_ + zlen s)) b) else None.

(** One record: [sprintf] to [aras[128]]. *)
Definition sensor_line (ptr : bytes) (dptr : Z) : option bytes :=
  d0 ← znth ptr dptr; d1 ← znth ptr (dptr + 1); d2 ← znth ptr (dptr + 2);
  b0 ← znth ptr (dptr + 4); b1 ← znth ptr (dptr + 5); b2 ← znth ptr (dptr + 6); b3 ← znth ptr (dptr + 7);
  d8 ← znth ptr (dptr + 8);
  let message_id := d0 + Z.shiftl d1 8 in
  let aras := str_of "blockid: time:" ++ show_d d8 ++ str_of " msg:" ++ show_02x message_id ++ str_of " type:" ++
    show_x d2 ++ str_of " temp(C):" ++ show_float [b0; b1; b2; b3] ++ str_of "<br>" in
  if zlen aras <? 128 then Some aras else None.

(** The loop over the records: [strcat] to [body[700]]. *)
Fixpoint sensor_lines (n : nat) (ptr : bytes) (dptr : Z) (body : bytes) : option bytes :=
  match n with
  | O => Some body
  | S n' =>
      aras ← sensor_line ptr dptr;
      if zlen body + zlen aras <? 700 then sensor_lines n' ptr (dptr + 16) (body ++ aras) else None
  end.

(** What the block device gives: NULL from [bio_open]; or the memory at [ptr] after
    [bio_read], whose result is not looked at (NULL when [memalign] fails). *)
Inductive device := NoDevice | Device (ptr : option bytes).

Definition get_sensor_data (dev : device) (b : bytes) : option (Z * bytes) :=
  b ← put_text b 0 reply_bas;
  let bfw := zlen reply_bas in
  match dev with
  | NoDevice => Some (-1, b)
  | Device ptr =>
      ptr ← ptr;
      body ← sensor_lines 9 ptr 0 [];
      let aras := str_of "Content-Length: " ++ show_d (zlen body) ++ [10] in
      b ← put_text b bfw aras;
      let bfw := bfw + zlen aras in
      let aras := str_of "Connection: close" ++ [10; 10] in
      b ← put_text b bfw aras;
      let bfw := bfw + zlen aras in
      b ← put_text b bfw body;
      let bfw := bfw + zlen body in
      b ← zupd b bfw 0;
      Some (0, b)
  end.

(** * The callbacks *)

(** [strncpy(x, at, length); x[length] = '\0'] with [x[MAX_LEN]]. *)
Definition copy_span (s : bytes) : option bytes := if zlen s <? MAX_LEN then Some (until_zero s) else None.

Definition set_reply (r : reply_pointer) (st : api_state) : api_state := mk_api r (buffer st) (responses st) (sent st).

(** The response for /info is built and left. *)
Definition info_response : http_response_t :=
  http_response_body
    (http_response_header (http_response_status http_response_init 200) (str_of "Content-Type") (str_of "text/plain"))
    RESPONSE (zlen RESPONSE).

Definition on_url (dev : device) (at_ : bytes) (st : api_state) : option api_state :=
  url ← copy_span at_;
  if strcmp API url =? 0 then Some (set_reply (RText reply1) st)
  else if strcmp INFO url =? 0 then Some (mk_api (reply st) (buffer st) (info_response :: responses st) (sent st))
  else if strcmp DATA url =? 0 then
    '(_, b) ← get_sensor_data dev (buffer st);
    Some (mk_api RBuffer b (responses st) (sent st))
  else Some (set_reply (RText reply3) st).

(** The other three that copy, and print. *)
Definition on_span (at_ : bytes) (st : api_state) : option api_state := _ ← copy_span at_; Some st.

Definition on_event (dev : device) (e : http_event) (st : api_state) : option api_state :=
  match e with
  | EUrl s => on_url dev s st
  | EHeaderField s | EHeaderValue s | EBody s => on_span s st
  | EMessageBegin | EHeadersComplete | EMessageComplete => Some st
  end.
Fixpoint on_events (dev : device) (es : list http_event) (st : api_state) : option api_state :=
  match es with [] => Some st | e :: es' => st ← on_event dev e st; on_events dev es' st end.

(** The text [reply] points to. *)
Definition reply_text (st : api_state) : option bytes :=
  match reply st with RNull => None | RText s => Some s | RBuffer => c_string (buffer st) 0 end.

(** [parse_request]: the request is a string. *)
Definition parse_request (dev : device) (request : bytes) (st : api_state) : option api_state :=
  st ← on_events dev (llhttp_execute request) st;
  s ← reply_text st;
  Some (mk_api (reply st) (buffer st) (responses st) (sent st ++ [s])).

(** * The worker *)

(** [tcp_read]: an error, or bytes. *)
Inductive tcp_result := ReadError (err : Z) | ReadData (s : bytes).

(** The search for an exclamation mark, which changes nothing. *)
Fixpoint bang_loop (n : nat) (readbuf : bytes) (i : Z) : option Z :=
  match n with
  | O => Some i
  | S n' =>
      if i <? 8 then c ← znth readbuf (i + 1); if c =? 33 then Some (i + 1) else bang_loop n' readbuf (i + 1)
      else Some i
  end.

(** The bytes go to the start of the buffer, and what was behind them stays. *)
Definition received (readbuf s : bytes) : option bytes :=
  if zlen s <=? BUFSIZE then Some (s ++ drop (length s) readbuf) else None.

(** The loop, with the devices as they are at each round: [true] when it was left. *)
Fixpoint worker_loop (readbuf : bytes) (rs : list (tcp_result * device)) (st : api_state) : option (bool * api_state) :=
  match rs with
  | [] => Some (false, st)
  | (ReadError _, _) :: _ => Some (true, st)
  | (ReadData s, dev) :: rs' =>
      readbuf ← received readbuf s;
      _ ← bang_loop 8 readbuf 0;
      request ← c_string readbuf 0;
      st ← parse_request dev request st;
      worker_loop readbuf rs' st
  end.

(** [pusapi_worker], with the block [malloc] returns. *)
Definition ERR_NO_MEMORY : Z := -5.
Definition pusapi_worker (readbuf : option bytes) (rs : list (tcp_result * device)) (st : api_state) : option (Z * bool * api_state) :=
  match readbuf with
  | None => Some (ERR_NO_MEMORY, true, st)
  | Some b => '(over, st) ← worker_loop b rs st; Some (0, over, st)
  end.

(** The static variables before the first connection. *)
Definition api_static : api_state := mk_api RNull (repeat 0 (Z.to_nat API_BUFFER)) [] [].

End api.
