(* ===== verification/PusApiSpec.v ===== *)
(** pusapi against a reader of HTTP responses: what each path is answered with, and
    which answers announce the length they have. *)
From Stdlib Require Import Ascii String.
From S2P Require Import Prelude CText Digits PusApi.

(** * A reader of responses *)

(** The first line, and what follows its line feed. *)
Fixpoint first_line (s : bytes) : option (bytes * bytes) :=
  match s with
  | [] => None
  | c :: s' => if c =? 10 then Some ([], s') else '(l, r) ← first_line s'; Some (c :: l, r)
  end.
(** The lines up to an empty one, and the body. *)
Fixpoint read_response (fuel : nat) (s : bytes) : option (list bytes * bytes) :=
  match fuel with
  | O => None
  | S fuel' =>
      '(l, r) ← first_line s;
      match l with
      | [] => Some ([], r)
      | _ => '(ls, body) ← read_response fuel' r; Some (l :: ls, body)
      end
  end.

Fixpoint after (prefix s : bytes) : option bytes :=
  match prefix, s with
  | [], _ => Some s
  | x :: prefix', y :: s' => if x =? y then after prefix' s' else None
  | _ :: _, [] => None
  end.
Fixpoint announced (ls : list bytes) : option Z :=
  match ls with
  | [] => None
  | l :: ls' => match after (str_of "Content-Length: ") l with Some n => Some (digits_value n) | None => announced ls' end
  end.

(** A response that announces the length of its body. *)
Definition response_ok (s : bytes) : Prop := exists ls body, read_response (length s) s = Some (ls, body) /\ announced ls = Some (zlen body).

Lemma first_line_spec l rest : ~ (10 ∈ l) -> first_line (l ++ 10 :: rest) = Some (l, rest).
Proof.
  induction l as [|c l IH]; intros Hl; [done|]. cbn [app first_line]. apply not_elem_of_cons in Hl as [Hc Hl].
  rewrite (proj2 (Z.eqb_neq c 10)) by congruence. by rewrite IH.
Qed.

Lemma unlines_cons l ls : unlines (l :: ls) = l ++ 10 :: unlines ls.
Proof. unfold unlines. cbn [map concat]. by rewrite <- app_assoc. Qed.
Lemma unlines_app ls1 ls2 : unlines (ls1 ++ ls2) = unlines ls1 ++ unlines ls2.
Proof. unfold unlines. by rewrite map_app, concat_app. Qed.

Lemma read_response_spec ls body : Forall (fun l => l <> [] /\ ~ (10 ∈ l)) ls -> forall fuel, (length ls < fuel)%nat ->
  read_response fuel (unlines ls ++ 10 :: body) = Some (ls, body).
Proof.
  induction 1 as [|l ls [Hne Hl] _ IH]; intros fuel Hf; (destruct fuel as [|fuel]; [lia|]); cbn [read_response]; [done|].
  rewrite unlines_cons, <- app_assoc. cbn [app]. rewrite first_line_spec by done. cbn [mbind option_bind].
  destruct l as [|c l]; [done|]. rewrite IH by (cbn [length] in Hf; lia). done.
Qed.

(** * Strings without a zero *)

Lemma until_zero_cat s rest : Forall (fun c => c <> 0) s -> until_zero (s ++ rest) = s ++ until_zero rest.
Proof. induction 1 as [|c s Hc _ IH]; [done|]. cbn [app until_zero]. rewrite (proj2 (Z.eqb_neq c 0)) by done. by rewrite IH. Qed.

(** * Numbers *)

(** Characters of a text: neither a zero nor a line feed. *)
Definition plain (c : Z) : Prop := c <> 0 /\ c <> 10.
Lemma digits_plain base fuel : forall n, 1 < base -> Forall plain (digits_of base fuel n).
Proof.
  induction fuel as [|fuel IH]; intros n Hb; [constructor|]. cbn [digits_of]. apply Forall_app. split.
  - destruct (n <? base); [constructor|by apply IH].
  - constructor; [|constructor]. pose proof (Z.mod_pos_bound n base). unfold plain. destruct (n mod base <? 10); lia.
Qed.
Lemma plain_text s : forallb (fun c => negb (c =? 0) && negb (c =? 10)) s = true -> Forall plain s.
Proof. rewrite forallb_forall. intros Hs. apply Forall_forall. intros c Hc. specialize (Hs c Hc). unfold plain. lia. Qed.

(** * The sensor page *)

(** A record of sixteen bytes on the device, as the CoAP client's structure has it:
    the number, the type, a byte that is not used, the float, the time. *)
Record reading := mk_reading { r_id : Z; r_type : Z; r_unused : Z; r_value : bytes; r_time : Z; r_rest : bytes }.
Definition encode (r : reading) : bytes :=
  [r_id r mod 256; r_id r / 256; r_type r; r_unused r] ++ r_value r ++ [r_time r] ++ r_rest r.

Section page.
Context `{HttpLib}.

Record reading_ok (r : reading) : Prop := {
  ro_id : 0 <= r_id r < 65536; ro_type : 0 <= r_type r < 256; ro_time : 0 <= r_time r < 256;
  ro_value : length (r_value r) = 4%nat; ro_rest : length (r_rest r) = 7%nat;
  ro_text : Forall plain (show_float (r_value r)) /\ zlen (show_float (r_value r)) <= 60 }.

(** How a reading is shown. *)
Definition shown (r : reading) : bytes :=
  str_of "blockid: time:" ++ show_d (r_time r) ++ str_of " msg:" ++ show_02x (r_id r) ++ str_of " type:" ++
  show_x (r_type r) ++ str_of " temp(C):" ++ show_float (r_value r) ++ str_of "<br>".
Definition page_body (rs : list reading) : bytes := concat (map shown rs).
Definition page_lines (n : Z) : list bytes :=
  map str_of ["HTTP/1.1 200 OK"; "Server: LK/0.0.1"; "Content-Type: text/html"; "Accept-Ranges: bytes"]%string ++
  [str_of "Content-Length: " ++ show_d n; str_of "Connection: close"].
Definition page (rs : list reading) : bytes := unlines (page_lines (zlen (page_body rs))) ++ 10 :: page_body rs.

Lemma shown_length r : reading_ok r -> zlen (shown r) <= 47 + zlen (show_float (r_value r)).
Proof.
  intros [Hi Ht Htm _ _ _]. unfold shown, show_d, show_02x, show_x.
  pose proof (digits_small 10 3 (r_time r) 10 ltac:(lia) ltac:(lia) ltac:(lia) ltac:(lia)) as H1.
  pose proof (digits_small 16 4 (r_id r) 8 ltac:(lia) ltac:(lia) ltac:(lia) ltac:(lia)) as H2.
  pose proof (digits_small 16 2 (r_type r) 8 ltac:(lia) ltac:(lia) ltac:(lia) ltac:(lia)) as H3.
  set (d := digits_of 10 10 (r_time r)) in *. set (x := digits_of 16 8 (r_id r)) in *. set (y := digits_of 16 8 (r_type r)) in *.
  assert (H4 : zlen (if zlen x <? 2 then 48 :: x else x) <= 4).
  { destruct (zlen x <? 2) eqn:E; [rewrite zlen_cons; lia|unfold zlen; lia]. }
  rewrite !zlen_app. unfold zlen in H4 |- *. change (length (str_of "blockid: time:")) with 14%nat. change (length (str_of " msg:")) with 5%nat.
  change (length (str_of " type:")) with 6%nat. change (length (str_of " temp(C):")) with 9%nat. change (length (str_of "<br>")) with 4%nat. lia.
Qed.

Lemma shown_plain r : reading_ok r -> Forall plain (shown r).
Proof.
  intros [_ _ _ _ _ [Hp _]].
  assert (Hd : forall n, Forall plain (show_d n)) by (intros; apply digits_plain; lia).
  assert (Hx : forall n, Forall plain (show_x n)) by (intros; apply digits_plain; lia).
  assert (Hxx : Forall plain (show_02x (r_id r))).
  { unfold show_02x. destruct (_ <? 2); [constructor; [split; discriminate|apply Hx]|apply Hx]. }
  unfold shown. rewrite !Forall_app. repeat split; auto; apply plain_text; reflexivity.
Qed.

Lemma sensor_line_spec ptr p r rest : reading_ok r -> at_text ptr p (encode r ++ rest) -> sensor_line ptr p = Some (shown r).
Proof.
  intros Hr Ha. pose proof (shown_length r Hr) as Hl. pose proof Hr as [Hi Ht Htm Hv _ [_ Hf]]. unfold encode in Ha.
  assert (Eid : r_id r mod 256 + Z.shiftl (r_id r / 256) 8 = r_id r).
  { rewrite Z.shiftl_mul_pow2 by lia. pose proof (Z.div_mod (r_id r) 256). lia. }
  unfold shown in *. destruct (r_value r) as [|v0 [|v1 [|v2 [|v3 [|]]]]] eqn:Ev; try discriminate Hv. cbn [app] in Ha.
  pose proof (at_tail _ _ _ _ Ha) as A1. pose proof (at_tail _ _ _ _ A1) as A2. pose proof (at_tail _ _ _ _ A2) as A3.
  pose proof (at_tail _ _ _ _ A3) as A4. pose proof (at_tail _ _ _ _ A4) as A5. pose proof (at_tail _ _ _ _ A5) as A6.
  pose proof (at_tail _ _ _ _ A6) as A7. pose proof (at_tail _ _ _ _ A7) as A8.
  replace (p + 1 + 1) with (p + 2) in * by lia. replace (p + 2 + 1) with (p + 3) in * by lia. replace (p + 3 + 1) with (p + 4) in * by lia.
  replace (p + 4 + 1) with (p + 5) in * by lia. replace (p + 5 + 1) with (p + 6) in * by lia. replace (p + 6 + 1) with (p + 7) in * by lia.
  replace (p + 7 + 1) with (p + 8) in * by lia.
  unfold sensor_line. rewrite (at_head _ _ _ _ Ha), (at_head _ _ _ _ A1), (at_head _ _ _ _ A2), (at_head _ _ _ _ A4),
    (at_head _ _ _ _ A5), (at_head _ _ _ _ A6), (at_head _ _ _ _ A7), (at_head _ _ _ _ A8).
  cbn [mbind option_bind]. rewrite Eid. cbv zeta. by rewrite (proj2 (Z.ltb_lt _ 128)) by lia.
Qed.

Lemma encode_length r : reading_ok r -> zlen (encode r) = 16.
Proof. intros [_ _ _ Hv Hrest _]. unfold encode, zlen. rewrite !length_app. cbn [length]. rewrite Hv, Hrest. done. Qed.

(** The body has 700 bytes for its lines and a zero. *)
Lemma sensor_lines_spec ptr rs : forall p body rest, Forall reading_ok rs -> at_text ptr p (concat (map encode rs) ++ rest) -> zlen body < 700 ->
  sensor_lines (length rs) ptr p body =
  if zlen (body ++ page_body rs) <? 700 then Some (body ++ page_body rs) else None.
Proof.
  induction rs as [|r rs IH]; intros p body rest Hrs Ha Hb.
  - cbn. rewrite app_nil_r. by rewrite (proj2 (Z.ltb_lt _ _) Hb).
  - apply Forall_cons_1 in Hrs as [Hr Hrs]. cbn [map concat] in Ha. rewrite <- app_assoc in Ha. cbn [length sensor_lines].
    rewrite (sensor_line_spec _ _ _ _ Hr Ha). cbn [mbind option_bind]. unfold page_body. cbn [map concat]. fold (page_body rs).
    apply at_app in Ha. rewrite encode_length in Ha by done. rewrite app_assoc. pose proof (zlen_nonneg (page_body rs)).
    destruct (zlen body + zlen (shown r) <? 700) eqn:E.
    + rewrite (IH _ _ _ Hrs Ha); [done|rewrite zlen_app; lia].
    + rewrite (zlen_app (body ++ shown r)), zlen_app. by rewrite (proj2 (Z.ltb_ge _ 700)) by lia.
Qed.

Lemma put_text_at b p pre s : zlen pre = p -> take (length pre) b = pre -> p + zlen s <= zlen b ->
  exists b', put_text b p s = Some b' /\ zlen b' = zlen b /\ take (length (pre ++ s)) b' = pre ++ s.
Proof.
  intros <- Ht Hl. unfold put_text. rewrite (proj2 (Z.leb_le _ _) Hl).
  assert (En : Z.to_nat (zlen pre) = length pre) by (unfold zlen; lia). rewrite En, Ht.
  eexists. split; [done|]. unfold zlen in *. split.
  - rewrite !length_app, length_drop. lia.
  - rewrite app_assoc. by rewrite take_app_length.
Qed.

Lemma page_lines_plain n : Forall (fun l => l <> [] /\ ~ (10 ∈ l)) (page_lines n).
Proof.
  assert (Hp : forall l, Forall plain l -> ~ (10 ∈ l)).
  { intros l Hl Hin. rewrite Forall_forall in Hl. apply list_elem_of_In in Hin. by destruct (Hl 10 Hin). }
  unfold page_lines. apply Forall_app. split; [repeat constructor; try discriminate; apply Hp, plain_text; reflexivity|].
  constructor; [split; [done|]|repeat constructor; [discriminate|]; apply Hp, plain_text; reflexivity].
  apply Hp, Forall_app. split; [apply plain_text; reflexivity|apply digits_plain; lia].
Qed.

Lemma page_announced rs : zlen (page_body rs) < 700 -> response_ok (page rs).
Proof.
  intros Hl. exists (page_lines (zlen (page_body rs))), (page_body rs). split.
  - apply read_response_spec; [apply page_lines_plain|]. unfold page. rewrite length_app. cbn [length].
    unfold page_lines. rewrite unlines_app, !length_app. cbn [length]. rewrite length_map. cbn [length].
    change (length (unlines (map str_of ["HTTP/1.1 200 OK"%string; "Server: LK/0.0.1"%string; "Content-Type: text/html"%string; "Accept-Ranges: bytes"%string]))) with 78%nat. lia.
  - unfold page_lines. cbn [map app announced]. 
    assert (Ea : forall l, after (str_of "Content-Length: ") (str_of "Content-Length: " ++ l) = Some l) by done.
    assert (E : announced [str_of "Content-Length: " ++ show_d (zlen (page_body rs)); str_of "Connection: close"] = Some (zlen (page_body rs))).
    { cbn [announced]. rewrite Ea. f_equal. unfold show_d. apply (digits_10 _ 10). pose proof (zlen_nonneg (page_body rs)). lia. }
    exact E.
Qed.

Lemma unlines_plain ls : Forall (fun l => Forall plain l) ls -> Forall (fun c => c <> 0) (unlines ls).
Proof.
  induction 1 as [|l ls Hl _ IH]; [constructor|]. rewrite unlines_cons. apply Forall_app. split.
  - eapply Forall_impl; [|exact Hl]. by intros c [].
  - by constructor.
Qed.
Lemma page_body_plain rs : Forall reading_ok rs -> Forall plain (page_body rs).
Proof.
  unfold page_body. induction 1 as [|r rs Hr _ IH]; [constructor|]. cbn [map concat]. apply Forall_app. split; [by apply shown_plain|done].
Qed.
Lemma page_nonzero rs : Forall reading_ok rs -> Forall (fun c => c <> 0) (page rs).
Proof.
  intros Hrs. unfold page. apply Forall_app. split.
  - apply unlines_plain. unfold page_lines. apply Forall_app. split; [repeat constructor; discriminate|].
    constructor; [|constructor; [apply plain_text; reflexivity|constructor]].
    apply Forall_app. split; [apply plain_text; reflexivity|apply digits_plain; lia].
  - constructor; [done|]. eapply Forall_impl; [|by apply page_body_plain]. by intros c [].
Qed.

(** The whole function, while the body has room and when it has none. *)
Lemma get_sensor_data_spec rs more b : Forall reading_ok rs -> length rs = 9%nat -> zlen b = API_BUFFER ->
  if zlen (page_body rs) <? 700
  then exists b', get_sensor_data (Device (Some (concat (map encode rs) ++ more))) b = Some (0, b') /\ zlen b' = API_BUFFER /\
         c_string b' 0 = Some (page rs)
  else get_sensor_data (Device (Some (concat (map encode rs) ++ more))) b = None.
Proof.
  intros Hrs Hn Hb. unfold API_BUFFER in *. set (ptr := concat (map encode rs) ++ more).
  assert (Hs : sensor_lines 9 ptr 0 [] = if zlen (page_body rs) <? 700 then Some (page_body rs) else None).
  { rewrite <- Hn. apply (sensor_lines_spec ptr rs 0 [] more Hrs); [by split|done]. }
  assert (E0 : exists b0, put_text b 0 reply_bas = Some b0 /\ zlen b0 = 1200 /\ take (length reply_bas) b0 = reply_bas).
  { destruct (put_text_at b 0 [] reply_bas) as (b0 & E & Hl & Ht); [done|done|change (zlen reply_bas) with 78; lia|].
    exists b0. split; [exact E|]. split; [lia|exact Ht]. }
  destruct E0 as (b0 & E0 & Hl0 & Ht0). unfold get_sensor_data. rewrite E0. cbn [mbind option_bind]. rewrite Hs.
  destruct (zlen (page_body rs) <? 700) eqn:Hlt; [|done]. cbn [mbind option_bind].
  pose proof (digits_length 10 10 (zlen (page_body rs)) ltac:(lia)) as Hd. fold (show_d (zlen (page_body rs))) in Hd.
  set (l1 := str_of "Content-Length: " ++ show_d (zlen (page_body rs)) ++ [10]). set (l2 := str_of "Connection: close" ++ [10; 10]).
  assert (Hl1 : zlen l1 <= 27).
  { assert (E : zlen l1 = 16 + (zlen (show_d (zlen (page_body rs))) + 1)) by (unfold l1; by rewrite !zlen_app).
    rewrite E. unfold zlen at 1. lia. }
  assert (Hl2 : zlen l2 = 19) by done. change (zlen reply_bas) with 78. pose proof (zlen_nonneg l1). pose proof (zlen_nonneg (page_body rs)).
  destruct (put_text_at b0 78 reply_bas l1) as (b1 & E1 & Hz1 & Ht1); [done|done|lia|]. rewrite E1. cbn [mbind option_bind].
  destruct (put_text_at b1 (78 + zlen l1) (reply_bas ++ l1) l2) as (b2 & E2 & Hz2 & Ht2); [by rewrite zlen_app|done|lia|]. rewrite E2. cbn [mbind option_bind].
  destruct (put_text_at b2 (78 + zlen l1 + zlen l2) ((reply_bas ++ l1) ++ l2) (page_body rs)) as (b3 & E3 & Hz3 & Ht3);
    [by rewrite !zlen_app|done|lia|]. rewrite E3. cbn [mbind option_bind].
  set (text := ((reply_bas ++ l1) ++ l2) ++ page_body rs) in *.
  assert (Htext : text = page rs).
  { unfold text, page, page_lines, l1, l2. rewrite unlines_app. rewrite <- !app_assoc. f_equal. unfold unlines. cbn [map concat].
    rewrite <- !app_assoc. done. }
  assert (Hzt : zlen text = 78 + zlen l1 + zlen l2 + zlen (page_body rs)) by (unfold text; by rewrite !zlen_app).
  rewrite <- Hzt. rewrite zupd_in_range by lia. cbn [mbind option_bind]. eexists. split; [done|]. split; [unfold zlen in *; rewrite length_insert; lia|].
  assert (Hat : <[Z.to_nat (zlen text) := 0]> b3 = text ++ 0 :: drop (S (length text)) b3).
  { assert (En : Z.to_nat (zlen text) = length text) by (unfold zlen; lia). rewrite En.
    rewrite insert_take_drop by (unfold zlen in *; lia). by rewrite Ht3. }
  rewrite Hat, (c_string_spec _ 0 (text ++ 0 :: drop (S (length text)) b3)); [|by split|apply elem_of_app; right; by left].
  rewrite Htext, until_zero_cat by (by apply page_nonzero). cbn. by rewrite app_nil_r.
Qed.

(** Texts of thirty characters always fit. *)
Lemma page_fits rs : Forall reading_ok rs -> length rs = 9%nat -> Forall (fun r => zlen (show_float (r_value r)) <= 30) rs ->
  zlen (page_body rs) < 700.
Proof.
  intros Hrs Hn Hf. assert (H1 : forall l, Forall reading_ok l -> Forall (fun r => zlen (show_float (r_value r)) <= 30) l ->
    zlen (page_body l) <= 77 * zlen l).
  { unfold page_body. induction 1 as [|r l Hr _ IH]; intros Hl; [done|]. apply Forall_cons_1 in Hl as [Hr30 Hl]. cbn [map concat].
    rewrite zlen_app, zlen_cons. specialize (IH Hl). pose proof (shown_length r Hr). lia. }
  specialize (H1 rs Hrs Hf). unfold zlen in *. lia.
Qed.
End page.

(** * Requests *)

Definition span (e : http_event) : bytes :=
  match e with EUrl s | EHeaderField s | EHeaderValue s | EBody s => s | _ => [] end.
Definition urls (es : list http_event) : list bytes := omap (fun e => match e with EUrl s => Some s | _ => None end) es.
(** What llhttp promises: a span is a part of the request. *)
Class HttpLibOk `{HttpLib} := {
  span_within : forall q e, e ∈ llhttp_execute q -> exists a b, q = a ++ span e ++ b }.

Section requests.
Context `{HttpLibOk}.

Lemma urls_spans es u : u ∈ urls es -> exists e, e ∈ es /\ span e = u.
Proof. unfold urls. intros (e & Hin & He)%list_elem_of_omap. exists e. split; [done|]. by destruct e; simplify_eq. Qed.


(** * The reference *)


Definition device_of (rs : list reading) (more : bytes) : device := Device (Some (concat (map encode rs) ++ more)).





(** * Connections *)

(** One read: what arrives, and what the device holds. *)
Record round := mk_round { rd_chunk : bytes; rd_readings : list reading; rd_more : bytes }.
Definition buffer_after (readbuf : bytes) (rd : round) : bytes := rd_chunk rd ++ drop (length (rd_chunk rd)) readbuf.





End requests.

(** * The properties *)

Section properties.
Context `{HttpLibOk}.

(** C23: the sensor page: with nine records on the device whose lines fit the 700 bytes
    of the body, the static buffer holds a response that shows each record and
    announces exactly the length of its body; with longer lines the body
    overflows. *)
Theorem get_sensor_data_page rs more b : Forall reading_ok rs -> length rs = 9%nat -> zlen b = API_BUFFER ->
  (zlen (page_body rs) < 700 /\ exists b', get_sensor_data (device_of rs more) b = Some (0, b') /\ zlen b' = API_BUFFER /\
     c_string b' 0 = Some (page rs) /\ response_ok (page rs)) \/
  (700 <= zlen (page_body rs) /\ get_sensor_data (device_of rs more) b = None).
Proof.
  intros Hrs Hn Hb. pose proof (get_sensor_data_spec rs more b Hrs Hn Hb) as Hg.
  destruct (zlen (page_body rs) <? 700) eqn:E; [left|right; split; [lia|exact Hg]]. split; [lia|].
  destruct Hg as (b' & E1 & E2 & E3). exists b'. split; [exact E1|]. split; [exact E2|]. split; [exact E3|]. apply page_announced. lia.
Qed.


(** what a read leaves in the buffer: the request that is parsed is what arrived
    and, up to the first zero, what earlier reads left behind it. *)
Theorem request_keeps_tail b rd : Forall (fun c => c <> 0) (rd_chunk rd) -> 0 ∈ drop (length (rd_chunk rd)) b ->
  c_string (buffer_after b rd) 0 = Some (rd_chunk rd ++ until_zero (drop (length (rd_chunk rd)) b)).
Proof.
  intros Hc Hz. unfold buffer_after. rewrite (c_string_spec _ 0 (rd_chunk rd ++ drop (length (rd_chunk rd)) b)); [|by split|apply elem_of_app; by right].
  by rewrite until_zero_cat.
Qed.
End properties.

(** The two fixed answers announce other lengths than they have. *)
Example fixed_lengths : ~ response_ok reply1 /\ response_ok reply3 /\
  (exists ls, read_response (length reply1) reply1 = Some (ls, hello_json) /\ announced ls = Some 16) /\ zlen hello_json = 33.
Proof.
  split; [|split; [|split]].
  - intros (ls & body & E & Ha). vm_compute in E. injection E as <- <-. vm_compute in Ha. discriminate.
  - eexists _, _. split; [vm_compute; reflexivity|vm_compute; reflexivity].
  - eexists. split; [vm_compute; reflexivity|vm_compute; reflexivity].
  - reflexivity.
Qed.

(** * A parser *)

(** The second word of the text is the URL. *)
Fixpoint words (s : bytes) : list bytes :=
  match s with
  | [] => [[]]
  | c :: s' => if c =? 32 then [] :: words s' else match words s' with w :: ws => (c :: w) :: ws | [] => [[c]] end
  end.
#[export] Instance example_http : HttpLib := {
  llhttp_execute := fun q => match words q with _ :: u :: _ => [EMessageBegin; EUrl u; EMessageComplete] | _ => [EMessageBegin] end;
  show_float := fun v => if bool_decide (v = [0; 0; 200; 65]) then str_of "25.000000" else str_of "0.000000" }.
Lemma words_within q : exists ws, words q <> [] /\ ws = words q /\ forall w, w ∈ ws -> exists a b, q = a ++ w ++ b.
Proof.
  eexists. split; [|split; [reflexivity|]].
  - destruct q as [|c q]; cbn; [done|]. destruct (c =? 32); [done|]. by destruct (words q).
  - assert (Hw : forall q w ws, words q = w :: ws -> exists b, q = w ++ b).
    { induction q0 as [|c q0 IH]; intros w ws; cbn; [intros [= <- <-]; by exists []|]. destruct (c =? 32); [intros [= <- <-]; by eexists|].
      destruct (words q0) as [|w0 ws0]; [intros [= <- <-]; by eexists|]. intros [= <- <-]. destruct (IH w0 ws0 eq_refl) as [b ->]. by exists b. }
    induction q as [|c q IH]; intros w; cbn.
    + intros ->%list_elem_of_singleton. by exists [], [].
    + destruct (c =? 32).
      * intros [->|Hin]%elem_of_cons; [by exists [], (c :: q)|]. destruct (IH w Hin) as (a & b & ->). by exists (c :: a), b.
      * destruct (words q) as [|w0 ws0] eqn:E; [intros ->%list_elem_of_singleton; by exists [], q|]. intros [->|Hin]%elem_of_cons.
        -- destruct (Hw q w0 ws0 E) as [b ->]. by exists [], b.
        -- destruct (IH w) as (a & b & ->); [by right|]. by exists (c :: a), b.
Qed.
#[export] Instance example_http_ok : HttpLibOk.
Proof.
  split. intros q e Hin. destruct (words_within q) as (ws & _ & E & Hw). cbn [llhttp_execute example_http] in Hin. rewrite <- E in Hin.
  assert (Hnil : exists a b, q = a ++ [] ++ b) by by exists [], q.
  destruct ws as [|w1 [|w2 ws]]; repeat (apply elem_of_cons in Hin as [-> | Hin]; [try exact Hnil|]); try by apply elem_of_nil in Hin.
  cbn [span]. apply Hw. right. by left.
Qed.

Definition warm : reading := mk_reading 258 10 0 [0; 0; 200; 65] 7 (repeat 0 7).
Definition none : reading := mk_reading 0 0 0 [0; 0; 0; 0] 0 (repeat 0 7).
Definition nine : list reading := [warm; warm] ++ repeat none 7.

Lemma reading_ok_example r : 0 <= r_id r < 65536 -> 0 <= r_type r < 256 -> 0 <= r_time r < 256 ->
  length (r_value r) = 4%nat -> length (r_rest r) = 7%nat -> reading_ok r.
Proof.
  intros. split; try done. cbn [show_float example_http]. destruct (bool_decide _); (split; [apply plain_text; vm_compute; reflexivity|vm_compute; discriminate]).
Qed.
Lemma nine_ok : Forall reading_ok nine.
Proof. unfold nine. cbn [repeat app]. repeat (apply Forall_cons_2; [apply reading_ok_example; cbn; lia|]). apply Forall_nil_2. Qed.

Lemma get_sensor_data_page_witness : exists b', get_sensor_data (device_of nine []) (repeat 0 1200) = Some (0, b') /\
  c_string b' 0 = Some (page nine) /\ response_ok (page nine).
Proof.
  destruct (get_sensor_data_page nine [] (repeat 0 1200)) as [(_ & b' & H1 & _ & H3 & H4)|[H1 _]];
    [apply nine_ok|reflexivity|reflexivity|exists b'; split; [exact H1|split; [exact H3|exact H4]]|].
  exfalso. vm_compute in H1. by apply H1.
Defined.



Lemma request_keeps_tail_witness :
  c_string (buffer_after (str_of "GET /data HTTP/1.1" ++ repeat 0 1006) (mk_round (str_of "GET /api ") [] [])) 0 =
  Some (str_of "GET /api " ++ str_of " HTTP/1.1").
Proof.
  rewrite (request_keeps_tail (str_of "GET /data HTTP/1.1" ++ repeat 0 1006) (mk_round (str_of "GET /api ") [] [])).
  - vm_compute. reflexivity.
  - repeat constructor; discriminate.
  - change (0 ∈ drop 9 (str_of "GET /data HTTP/1.1") ++ repeat 0 1006). apply elem_of_app. right. by left.
Defined.

(** The first request for /info is answered through a null pointer. *)
Example info_first : pusapi_worker (Some (repeat 0 1024)) [(ReadData (str_of "GET /info HTTP/1.1"), NoDevice)] api_static = None.
Proof. vm_compute. reflexivity. Qed.
(** Without a device the data page is its first lines, with nothing behind them. *)
Example no_device : exists st, pusapi_worker (Some (repeat 0 1024)) [(ReadData (str_of "GET /data HTTP/1.1"), NoDevice)] api_static = Some (0, false, st) /\
  sent st = [reply_bas].
Proof. eexists. split; vm_compute; reflexivity. Qed.
