(* ===== verification/Threads.v ===== *)
(** Threads of the LK kernel, for the commands that start several: the mutexes and
    semaphores they use, as an interface with the documented behaviour, and runs of a
    program under a schedule that says which thread moves next.

    The kernel is not part of the repository.  A call that waits is a step that the
    thread cannot make yet; a wait with a time limit can also end by the time limit,
    whenever the schedule says so. *)
From S2P Require Import Prelude.

(** * Mutexes and semaphores *)

Class KernelSync := {
  mutex : Type;
  mutex_init : mutex;
  (** [mutex_acquire] by a thread: nothing while it has to wait. *)
  mutex_acquire : nat -> mutex -> option mutex;
  mutex_release : nat -> mutex -> mutex;
  semaphore : Type;
  sem_init : Z -> semaphore;
  (** [sem_timedwait] that gets the semaphore: nothing while it has to wait. *)
  sem_take : semaphore -> option semaphore;
  sem_post : semaphore -> semaphore }.

(** What the kernel promises: who holds a mutex, and how many waits a semaphore still
    lets through.  A thread that ends keeps its mutexes. *)
Class KernelSyncOk `{KernelSync} := {
  holder : mutex -> option nat;
  holder_init : holder mutex_init = None;
  acquire_free : forall t m, holder m = None -> exists m', mutex_acquire t m = Some m' /\ holder m' = Some t;
  acquire_held : forall t u m, holder m = Some u -> mutex_acquire t m = None;
  release_own : forall t m, holder m = Some t -> holder (mutex_release t m) = None;
  sem_value : semaphore -> Z;
  value_init : forall n, 0 <= n -> sem_value (sem_init n) = n;
  value_nonneg : forall s, 0 <= sem_value s;
  take_some : forall s, 0 < sem_value s -> exists s', sem_take s = Some s' /\ sem_value s' = sem_value s - 1;
  take_none : forall s, sem_value s = 0 -> sem_take s = None;
  value_post : forall s, sem_value (sem_post s) = sem_value s + 1 }.

Section sync.
Context `{KernelSyncOk}.

Lemma acquire_inv t m m' : mutex_acquire t m = Some m' -> holder m = None /\ holder m' = Some t.
Proof.
  intros Ha. destruct (holder m) as [u|] eqn:Eh; [by rewrite (acquire_held t u m Eh) in Ha|].
  destruct (acquire_free t m Eh) as (m1 & E & Hm). by simplify_eq.
Qed.
Lemma take_inv s s' : sem_take s = Some s' -> 0 < sem_value s /\ sem_value s' = sem_value s - 1.
Proof.
  intros Ht. pose proof (value_nonneg s). destruct (decide (sem_value s = 0)) as [E|E]; [by rewrite take_none in Ht|].
  assert (Hs : 0 < sem_value s) by lia. destruct (take_some s Hs) as (s1 & E1 & Hv). by simplify_eq.
Qed.
End sync.

(** The kernel of the examples: a holder, and a count. *)
#[export] Instance plain_sync : KernelSync := {
  mutex := option nat; mutex_init := None;
  mutex_acquire := fun t m => match m with None => Some (Some t) | Some _ => None end;
  mutex_release := fun t m => match m with Some u => if decide (u = t) then None else m | None => None end;
  semaphore := N; sem_init := Z.to_N;
  sem_take := fun s => if (s =? 0)%N then None else Some (N.pred s);
  sem_post := N.succ }.
#[export] Program Instance plain_sync_ok : KernelSyncOk := {| holder := fun m => m; sem_value := Z.of_N |}.
Next Obligation. reflexivity. Qed.
Next Obligation. intros t m ->. by exists (Some t). Qed.
Next Obligation. by intros t u m ->. Qed.
Next Obligation. intros t m ->. cbn. by rewrite decide_True. Qed.
Next Obligation. intros n Hn. cbn. lia. Qed.
Next Obligation. intros s. lia. Qed.
Next Obligation. intros s Hs. cbn in *. destruct (N.eqb_spec s 0); [lia|]. eexists. split; [done|]. lia. Qed.
Next Obligation. intros s Hs. cbn in *. by replace s with 0%N by lia. Qed.
Next Obligation. intros s. cbn. lia. Qed.

(** * Runs *)

(** A thread cannot move, reads or writes what it must not, or moves. *)
Inductive outcome (S : Type) := Blocked | Crashed | Next (s : S).
Arguments Blocked {S}.
Arguments Crashed {S}.
Arguments Next {S} s.
Definition obind {A B} (f : A -> outcome B) (o : outcome A) : outcome B :=
  match o with Blocked => Blocked | Crashed => Crashed | Next a => f a end.
(** What a memory access gives. *)
Definition access {A} (o : option A) : outcome A := match o with None => Crashed | Some a => Next a end.
(** What a call that may have to wait gives. *)
Definition wait {A} (o : option A) : outcome A := match o with None => Blocked | Some a => Next a end.
#[export] Instance outcome_bind : MBind outcome := @obind.

Section runs.
Context {state choice : Type} (step : nat -> choice -> state -> outcome state).

(** The schedule: the thread that moves and what happens to it. *)
Fixpoint run (sched : list (nat * choice)) (s : state) : outcome state :=
  match sched with [] => Next s | (t, c) :: sched' => s ← step t c s; run sched' s end.
Definition finished (s : state) : Prop := forall t c s', step t c s <> Next s'.

Section invariant.
Context (ok : choice -> Prop) (I : state -> Prop).
Context (I_step : forall t c s s', ok c -> I s -> step t c s = Next s' -> I s').

Lemma run_invariant sched : forall s s', Forall (fun tc => ok tc.2) sched -> I s -> run sched s = Next s' -> I s'.
Proof.
  induction sched as [|[t c] sched IH]; intros s s' Hok Hs; cbn [run]; [by intros [= <-]|].
  apply Forall_cons_1 in Hok as [Hc Hok]. destruct (step t c s) as [| |s1] eqn:E; [done|done|]. cbn. by apply IH, (I_step t c s).
Qed.
Lemma run_safe sched : (forall t c s, I s -> step t c s <> Crashed) ->
  forall s, Forall (fun tc => ok tc.2) sched -> I s -> run sched s <> Crashed.
Proof.
  intros Hsafe. induction sched as [|[t c] sched IH]; intros s Hok Hs; [done|]. cbn [run].
  apply Forall_cons_1 in Hok as [Hc Hok]. specialize (Hsafe t c s Hs). destruct (step t c s) as [| |s1] eqn:E; [done|done|].
  cbn. by apply IH, (I_step t c s).
Qed.

(** A measure that every step makes smaller bounds the length of every schedule. *)
Lemma run_bounded (measure : state -> nat) sched : (forall t c s s', I s -> step t c s = Next s' -> (measure s' < measure s)%nat) ->
  forall s s', Forall (fun tc => ok tc.2) sched -> I s -> run sched s = Next s' -> (length sched + measure s' <= measure s)%nat.
Proof.
  intros Hm. induction sched as [|[t c] sched IH]; intros s s' Hok Hs; cbn [run length]; [intros [= <-]; lia|].
  apply Forall_cons_1 in Hok as [Hc Hok]. destruct (step t c s) as [| |s1] eqn:E; [done|done|]. cbn. intros Hr.
  pose proof (Hm t c s s1 Hs E). specialize (IH s1 s' Hok (I_step _ _ _ _ Hc Hs E) Hr). lia.
Qed.
End invariant.

Lemma run_app sched1 sched2 s s' : run (sched1 ++ sched2) s = Next s' <-> exists s1, run sched1 s = Next s1 /\ run sched2 s1 = Next s'.
Proof.
  revert s. induction sched1 as [|[t c] sched1 IH]; intros s; cbn [app run].
  - split; [by exists s|]. by intros (s1 & [= <-] & Hr).
  - destruct (step t c s) as [| |s2]; cbn; [by split; [|intros (? & ? & ?)]..|]. apply IH.
Qed.
Lemma run_after sched1 sched2 s s1 : run sched1 s = Next s1 -> run (sched1 ++ sched2) s = run sched2 s1.
Proof.
  revert s. induction sched1 as [|[t c] sched1 IH]; intros s; cbn [app run]; [by intros [= ->]|].
  destruct (step t c s) as [| |s2]; [done..|]. apply IH.
Qed.
End runs.

(** * Sums over the threads *)

Section sums.
Context {A : Type} (f : A -> nat).
Definition total (l : list A) : nat := sum_list_with f l.
Lemma total_app l1 l2 : total (l1 ++ l2) = (total l1 + total l2)%nat.
Proof. apply sum_list_with_app. Qed.
Lemma total_insert l i x y : l !! i = Some x -> (total (<[i := y]> l) + f x = total l + f y)%nat.
Proof.
  intros Hl. rewrite insert_take_drop by (by eapply lookup_lt_Some). rewrite <- (take_drop_middle l i x Hl) at 3.
  rewrite !total_app. unfold total. cbn. lia.
Qed.
Lemma total_ge l i x : l !! i = Some x -> (f x <= total l)%nat.
Proof. intros Hl. rewrite <- (take_drop_middle l i x Hl), total_app. unfold total. cbn. lia. Qed.
Lemma total_zero l : Forall (fun x => f x = 0%nat) l -> total l = 0%nat.
Proof. unfold total. induction 1 as [|x l Hx _ IH]; [done|]. cbn. lia. Qed.
Lemma total_at_most_one l : (forall x, f x <= 1)%nat ->
  (forall n1 n2 x y, l !! n1 = Some x -> l !! n2 = Some y -> f x = 1%nat -> f y = 1%nat -> n1 = n2) -> (total l <= 1)%nat.
Proof.
  intros H1. induction l as [|x l IH]; intros Hu; [cbn; lia|]. change (total (x :: l)) with (f x + total l)%nat.
  pose proof (H1 x). destruct (decide (f x = 1%nat)) as [E|E].
  - rewrite total_zero; [lia|]. apply list.Forall_lookup. intros i y Hy. pose proof (H1 y). destruct (decide (f y = 1%nat)) as [Ey|Ey]; [|lia].
    by specialize (Hu 0%nat (S i) x y eq_refl Hy E Ey).
  - assert (total l <= 1)%nat; [|lia]. apply IH. intros n1 n2 y z Hy Hz E1 E2. specialize (Hu (S n1) (S n2) y z Hy Hz E1 E2). lia.
Qed.
Lemma total_const n l : Forall (fun x => f x = n) l -> total l = (n * length l)%nat.
Proof. unfold total. induction 1 as [|x l Hx _ IH]; cbn; lia. Qed.
End sums.

(** * All the threads *)

Section each.
Context {A : Type} (P : nat -> A -> Prop).
Definition each (l : list A) : Prop := forall n x, l !! n = Some x -> P n x.
Lemma each_nil : each [].
Proof. by intros n x. Qed.
Lemma each_insert l n x : each l -> P n x -> each (<[n := x]> l).
Proof. intros Hl Hx m y. rewrite list_lookup_insert_Some. by intros [(<- & <- & _)|[_ ?%Hl]]. Qed.
Lemma each_snoc l x : each l -> P (length l) x -> each (l ++ [x]).
Proof.
  intros Hl Hx n y. rewrite lookup_app_Some. intros [?%Hl|[Hn Hy]]; [done|]. apply list_lookup_singleton_Some in Hy as [Hn' <-].
  by replace n with (length l) by lia.
Qed.
End each.

(** * A mutex among the threads *)

(** Who holds it, when the points of the threads say so; threads are numbered from 1,
    number 0 is the command that starts them. *)
Section locks.
Context `{KernelSyncOk} {A : Type} (holds : A -> Prop).
Record lock_ok (l : list A) (m : mutex) : Prop := {
  lk_held : forall u, holder m = Some u -> exists n th, u = S n /\ l !! n = Some th /\ holds th;
  lk_holder : each (fun n th => holds th -> holder m = Some (S n)) l }.

Lemma lock_ok_step l n th th' m m' : l !! n = Some th ->
  (m' = m /\ (holds th' <-> holds th)) \/ (~ holds th /\ holds th' /\ mutex_acquire (S n) m = Some m') \/
  (holds th /\ ~ holds th' /\ m' = mutex_release (S n) m) ->
  lock_ok l m -> lock_ok (<[n := th']> l) m'.
Proof.
  intros Hl Hm [Hheld Hholder]. assert (Hn : <[n := th']> l !! n = Some th') by (apply list_lookup_insert_eq; by eapply lookup_lt_Some).
  destruct Hm as [(-> & Hc)|[(Hc & Hc' & Ha)|(Hc & Hc' & ->)]].
  - split; [|apply each_insert; [done|by intros ?%Hc; apply (Hholder n th)]].
    intros u Hu. destruct (Hheld u Hu) as (k & th1 & -> & Hk & Hc1). destruct (decide (k = n)) as [->|Hne].
    + exists n, th'. simplify_eq. split; [done|]. split; [done|]. by apply Hc.
    + exists k, th1. by rewrite list_lookup_insert_ne.
  - apply acquire_inv in Ha as [Hf Ha]. split.
    + intros u Hu. simplify_eq. by exists n, th'.
    + apply each_insert; [|done]. intros k th1 Hk Hc1. specialize (Hholder k th1 Hk Hc1). congruence.
  - pose proof (release_own _ _ (Hholder n th Hl Hc)) as Hr. split; [intros u Hu; congruence|].
    intros k th1. rewrite list_lookup_insert_Some. intros [(<- & <- & _)|[Hne Hk]] Hc1; [done|].
    pose proof (Hholder n th Hl Hc). pose proof (Hholder k th1 Hk Hc1). congruence.
Qed.
Lemma lock_ok_snoc l th m : ~ holds th -> lock_ok l m -> lock_ok (l ++ [th]) m.
Proof.
  intros Hc [Hlk Hlh]. split; [|by apply each_snoc].
  intros u Hu. destruct (Hlk u Hu) as (n & th1 & -> & Hn & Hcr). exists n, th1. split; [done|]. split; [|done]. by apply lookup_app_l_Some.
Qed.
Lemma lock_ok_nil : lock_ok [] mutex_init.
Proof. split; [|by intros n th]. intros u. by rewrite holder_init. Qed.
(** Two threads that hold it are one. *)
Lemma lock_ok_unique l m n1 n2 th1 th2 : lock_ok l m -> l !! n1 = Some th1 -> l !! n2 = Some th2 -> holds th1 -> holds th2 -> n1 = n2.
Proof. intros [_ Hh] H1 H2 Hc1 Hc2. pose proof (Hh n1 th1 H1 Hc1). pose proof (Hh n2 th2 H2 Hc2). congruence. Qed.
End locks.
