(* ===== verification/App501.v ===== *)
(** app501 (src/pus/exp/app500/myapp2.c): one producer and three consumers around a
    ring of nine items, with a mutex and two semaphores.  The waits have a time limit
    and their results are not looked at.

    A step is what a thread does between two accesses to the variables it shares;
    copying an item is one step per byte. *)
From S2P Require Import Prelude Threads.

Section app501.
Context `{KernelSync}.

(** * Data *)

Definition BUFFER_SIZE : Z := 9.

(** Which function a thread runs. *)
Inductive routine := Pub501 | Sub501.
(** Where it is in it: at the head of the loop, at the semaphore, at the mutex, before
    byte [k] of the copy (the item is shown when there is none left), at the release,
    at the post; returned. *)
Inductive point := AtLoop | AtWait | AtLock | AtCopy (k : Z) | AtUnlock | AtPost | AtEnd.
(** A thread: its routine, its argument, the loop's counter and the local [item]. *)
Record thread := mk_thread { t_routine : routine; t_arg : Z; t_i : Z; t_item : bytes; t_point : point }.

(** What is printed.  The count of [full_sem], which also counts the threads that wait
    for it, is left out. *)
Inductive ring_line :=
  | OWaitEnded | OPub (id i : Z) (item : bytes) | OInX (n : Z) | OFullCount
  | ODataWaiting (id : Z) | OSub (id i : Z) (item : bytes) | OOutX (n : Z) | OPubJoin | OSubJoin (n : Z).

(** The global variables. *)
Record shared := mk_shared {
  buffer_501 : bytes; producer_item : bytes; out_x : Z; in_x : Z;
  empty_sem : semaphore; full_sem : semaphore; pipe_lock_501 : mutex }.

(** Where the command is: it starts thread [k]; it waits for thread [k]; it returned. *)
Inductive main_point := Create (k : Z) | Join (k : Z) | Returned.
Record ring := mk_ring { sh : shared; threads : list thread; main : main_point; printed : list ring_line }.

(** What happens to a thread at a step: it goes on; its wait ends by the time limit;
    [rand] gives it these six numbers. *)
Inductive choice := CRun | CTimeout | CRand (rs : list Z).

#[export] Instance point_eq_dec : EqDecision point.
Proof. solve_decision. Defined.
Definition at_point (p : point) (th : thread) : thread := mk_thread (t_routine th) (t_arg th) (t_i th) (t_item th) p.
Definition next_round (th : thread) : thread := mk_thread (t_routine th) (t_arg th) (t_i th + 1) (t_item th) AtLoop.
Definition with_item (item : bytes) (k : Z) (th : thread) : thread := mk_thread (t_routine th) (t_arg th) (t_i th) item (AtCopy k).
Definition set_buffer b g := mk_shared b (producer_item g) (out_x g) (in_x g) (empty_sem g) (full_sem g) (pipe_lock_501 g).
Definition set_producer p g := mk_shared (buffer_501 g) p (out_x g) (in_x g) (empty_sem g) (full_sem g) (pipe_lock_501 g).
Definition set_out_x n g := mk_shared (buffer_501 g) (producer_item g) n (in_x g) (empty_sem g) (full_sem g) (pipe_lock_501 g).
Definition set_in_x n g := mk_shared (buffer_501 g) (producer_item g) (out_x g) n (empty_sem g) (full_sem g) (pipe_lock_501 g).
Definition set_empty s g := mk_shared (buffer_501 g) (producer_item g) (out_x g) (in_x g) s (full_sem g) (pipe_lock_501 g).
Definition set_full s g := mk_shared (buffer_501 g) (producer_item g) (out_x g) (in_x g) (empty_sem g) s (pipe_lock_501 g).
Definition set_lock m g := mk_shared (buffer_501 g) (producer_item g) (out_x g) (in_x g) (empty_sem g) (full_sem g) m.

(** * The threads *)

(** The bits of a pointer, and where the array [a] of the command is. *)
Context (xlen a_addr : Z).

(** [*((int * )id)]: the argument went through an [int], which is made a pointer again. *)
Definition load_id (arg : Z) : option Z :=
  let p := s32 arg mod 2 ^ xlen in
  if p =? a_addr then Some 1 else if p =? a_addr + 4 then Some 2 else if p =? a_addr + 8 then Some 3 else None.

(** [gen_rdm_bytestream_501(6)] with the numbers of [rand]. *)
Definition gen_rdm_bytestream_501 (rs : list Z) (g : shared) : shared := set_producer (map u8 rs) g.

(** [sem_timedwait], whose result is not used: it ends by the time limit only when it
    has to wait. *)
Definition sem_timedwait (c : choice) (s : semaphore) : outcome semaphore :=
  match sem_take s, c with Some s', _ => Next s' | None, CTimeout => Next s | None, _ => Blocked end.

Definition pub501 (t : nat) (c : choice) (th : thread) (g : shared) : outcome (thread * shared * list ring_line) :=
  match t_point th with
  | AtLoop =>
      if t_i th <? 20 then
        match c with
        | CRand rs => if (length rs =? 6)%nat then Next (at_point AtWait th, gen_rdm_bytestream_501 rs g, []) else Blocked
        | _ => Blocked
        end
      else Next (at_point AtEnd th, g, [])
  | AtWait => s ← sem_timedwait c (empty_sem g); Next (at_point AtLock th, set_empty s g, [OWaitEnded])
  | AtLock => m ← wait (mutex_acquire t (pipe_lock_501 g)); Next (at_point (AtCopy 0) th, set_lock m g, [])
  | AtCopy k =>
      if k <? 6 then
        x ← access (znth (producer_item g) k);
        b ← access (zupd (buffer_501 g) (in_x g * 6 + k) x);
        Next (at_point (AtCopy (k + 1)) th, set_buffer b g, [])
      else
        id ← access (load_id (t_arg th));
        let n := Z.rem (in_x g + 1) BUFFER_SIZE in
        Next (at_point AtUnlock th, set_in_x n g, [OPub id (t_i th + 1) (producer_item g); OInX n])
  | AtUnlock => Next (at_point AtPost th, set_lock (mutex_release t (pipe_lock_501 g)) g, [])
  | AtPost => Next (next_round th, set_full (sem_post (full_sem g)) g, [OFullCount])
  | AtEnd => Blocked
  end.

Definition sub501 (t : nat) (c : choice) (th : thread) (g : shared) : outcome (thread * shared * list ring_line) :=
  match t_point th with
  | AtLoop =>
      if t_i th <? 22 then
        id ← access (load_id (t_arg th));
        Next (at_point AtWait th, g, [ODataWaiting id])
      else Next (at_point AtEnd th, g, [])
  | AtWait => s ← sem_timedwait c (full_sem g); Next (at_point AtLock th, set_full s g, [])
  | AtLock => m ← wait (mutex_acquire t (pipe_lock_501 g)); Next (with_item [] 0 th, set_lock m g, [])
  | AtCopy k =>
      if k <? 6 then
        x ← access (znth (buffer_501 g) (out_x g * 6 + k));
        Next (with_item (t_item th ++ [x]) (k + 1) th, g, [])
      else
        id ← access (load_id (t_arg th));
        let n := Z.rem (out_x g + 1) BUFFER_SIZE in
        Next (at_point AtUnlock th, set_out_x n g, [OSub id (t_i th + 1) (t_item th); OOutX n])
  | AtUnlock => Next (at_point AtPost th, set_lock (mutex_release t (pipe_lock_501 g)) g, [])
  | AtPost => Next (next_round th, set_empty (sem_post (empty_sem g)) g, [])
  | AtEnd => Blocked
  end.

Definition run_routine (r : routine) := match r with Pub501 => pub501 | Sub501 => sub501 end.

(** * The command *)

(** The [k]-th thread that is started: the producer, then the three consumers. *)
Definition thread_create (k : Z) : thread :=
  if k <? 1 then mk_thread Pub501 (a_addr + 4 * k) 0 [] AtLoop else mk_thread Sub501 (a_addr + 4 * (k - 1)) 0 [] AtLoop.

Definition app501_main (s : ring) : outcome ring :=
  match main s with
  | Create k =>
      Next (mk_ring (sh s) (threads s ++ [thread_create k]) (if k <? 3 then Create (k + 1) else Join 0) (printed s))
  | Join k =>
      th ← access (znth (threads s) k);
      match t_point th with
      | AtEnd =>
          Next (mk_ring (sh s) (threads s) (if k <? 3 then Join (k + 1) else Returned)
                  (printed s ++ [if k <? 1 then OPubJoin else OSubJoin k]))
      | _ => Blocked
      end
  | Returned => Blocked
  end.

(** A step of the command (number 0) or of one of its threads. *)
Definition app501_step (t : nat) (c : choice) (s : ring) : outcome ring :=
  match t with
  | O => app501_main s
  | S n =>
      th ← wait (threads s !! n);
      '(th', g, ls) ← run_routine (t_routine th) t c th (sh s);
      Next (mk_ring g (<[n := th']> (threads s)) (main s) (printed s ++ ls))
  end.

(** The start of the command, with the arrays and indices as they are then. *)
Definition app501 (buffer item : bytes) (out in_ : Z) : ring :=
  mk_ring (mk_shared buffer item out in_ (sem_init BUFFER_SIZE) (sem_init 0) mutex_init) [] (Create 0) [].

(** The first time. *)
Definition app501_first : ring := app501 (repeat 0 54) (repeat 0 6) 0 0.
End app501.
