(* ===== verification/App501Spec.v ===== *)
(** app501: as long as no wait ends by its time limit the ring delivers what its slots
    have held, and in the order of production when the indices start equal; the command
    returns, after as many lines as its loops have, when the addresses it passes fit an
    [int], and never when they do not; and what it leaves makes the next session start
    with indices that differ. *)
From S2P Require Import Prelude Threads App501.

(** The items shown, in the order they were shown. *)
Definition pub_lines (ls : list ring_line) : list bytes := omap (fun l => match l with OPub _ _ x => Some x | _ => None end) ls.
Definition sub_lines (ls : list ring_line) : list bytes := omap (fun l => match l with OSub _ _ x => Some x | _ => None end) ls.

Lemma pub_lines_app ls1 ls2 : pub_lines (ls1 ++ ls2) = pub_lines ls1 ++ pub_lines ls2.
Proof. apply omap_app. Qed.
Lemma sub_lines_app ls1 ls2 : sub_lines (ls1 ++ ls2) = sub_lines ls1 ++ sub_lines ls2.
Proof. apply omap_app. Qed.

Section spec.
Context `{KernelSyncOk} (xlen a_addr : Z).

(** The addresses of the array [a] are the same after the way through an [int]. *)
Definition int_address : Prop := forall k, 0 <= k <= 2 -> s32 (a_addr + 4 * k) mod 2 ^ xlen = a_addr + 4 * k.

(** * The steps as rules *)

Definition rounds (r : routine) : Z := match r with Pub501 => 20 | Sub501 => 22 end.

Inductive moved (t : nat) (c : choice) (th : thread) (g : shared) : thread -> shared -> list ring_line -> Prop :=
  | moved_produce rs : t_routine th = Pub501 -> t_point th = AtLoop -> t_i th < 20 -> length rs = 6%nat ->
      moved t c th g (at_point AtWait th) (set_producer (map u8 rs) g) []
  | moved_hello id : t_routine th = Sub501 -> t_point th = AtLoop -> t_i th < 22 ->
      moved t c th g (at_point AtWait th) g [ODataWaiting id]
  | moved_end : t_point th = AtLoop -> rounds (t_routine th) <= t_i th -> moved t c th g (at_point AtEnd th) g []
  | moved_take_empty s : t_routine th = Pub501 -> t_point th = AtWait -> sem_take (empty_sem g) = Some s ->
      moved t c th g (at_point AtLock th) (set_empty s g) [OWaitEnded]
  | moved_take_full s : t_routine th = Sub501 -> t_point th = AtWait -> sem_take (full_sem g) = Some s ->
      moved t c th g (at_point AtLock th) (set_full s g) []
  | moved_timeout ls : c = CTimeout -> t_point th = AtWait -> pub_lines ls = [] -> sub_lines ls = [] ->
      moved t c th g (at_point AtLock th) g ls
  | moved_lock_pub m : t_routine th = Pub501 -> t_point th = AtLock -> mutex_acquire t (pipe_lock_501 g) = Some m ->
      moved t c th g (at_point (AtCopy 0) th) (set_lock m g) []
  | moved_lock_sub m : t_routine th = Sub501 -> t_point th = AtLock -> mutex_acquire t (pipe_lock_501 g) = Some m ->
      moved t c th g (with_item [] 0 th) (set_lock m g) []
  | moved_copy_pub k x b : t_routine th = Pub501 -> t_point th = AtCopy k -> k < 6 ->
      znth (producer_item g) k = Some x -> zupd (buffer_501 g) (in_x g * 6 + k) x = Some b ->
      moved t c th g (at_point (AtCopy (k + 1)) th) (set_buffer b g) []
  | moved_copy_sub k x : t_routine th = Sub501 -> t_point th = AtCopy k -> k < 6 ->
      znth (buffer_501 g) (out_x g * 6 + k) = Some x ->
      moved t c th g (with_item (t_item th ++ [x]) (k + 1) th) g []
  | moved_show_pub k id : t_routine th = Pub501 -> t_point th = AtCopy k -> 6 <= k ->
      moved t c th g (at_point AtUnlock th) (set_in_x (Z.rem (in_x g + 1) 9) g)
        [OPub id (t_i th + 1) (producer_item g); OInX (Z.rem (in_x g + 1) 9)]
  | moved_show_sub k id : t_routine th = Sub501 -> t_point th = AtCopy k -> 6 <= k ->
      moved t c th g (at_point AtUnlock th) (set_out_x (Z.rem (out_x g + 1) 9) g)
        [OSub id (t_i th + 1) (t_item th); OOutX (Z.rem (out_x g + 1) 9)]
  | moved_unlock : t_point th = AtUnlock ->
      moved t c th g (at_point AtPost th) (set_lock (mutex_release t (pipe_lock_501 g)) g) []
  | moved_post_full : t_routine th = Pub501 -> t_point th = AtPost ->
      moved t c th g (next_round th) (set_full (sem_post (full_sem g)) g) [OFullCount]
  | moved_post_empty : t_routine th = Sub501 -> t_point th = AtPost ->
      moved t c th g (next_round th) (set_empty (sem_post (empty_sem g)) g) [].


Lemma set_empty_same g : set_empty (empty_sem g) g = g.
Proof. by destruct g. Qed.
Lemma set_full_same g : set_full (full_sem g) g = g.
Proof. by destruct g. Qed.

Lemma timed_wait c s s' : sem_timedwait c s = Next s' -> (c = CTimeout /\ s' = s) \/ sem_take s = Some s'.
Proof. unfold sem_timedwait. destruct (sem_take s), c; intros [= <-]; auto. Qed.

Lemma pub_moved t c th g th' g' ls : t_routine th = Pub501 -> pub501 xlen a_addr t c th g = Next (th', g', ls) -> moved t c th g th' g' ls.
Proof.
  intros Hr. unfold pub501. destruct (t_point th) as [| | |k| | |] eqn:Ep; [| | | | | |done].
  - destruct (t_i th <? 20) eqn:Ei; [|intros [= <- <- <-]; apply moved_end; [done|rewrite Hr; cbn; lia]].
    destruct c as [| |rs]; [done|done|]. destruct (length rs =? 6)%nat eqn:El; [|done]. intros [= <- <- <-].
    apply moved_produce; [done|done|lia|by apply Nat.eqb_eq].
  - destruct (sem_timedwait c (empty_sem g)) as [| |s] eqn:Es; [done|done|]. intros [= <- <- <-].
    destruct (timed_wait _ _ _ Es) as [[-> ->]|Et]; [rewrite set_empty_same; by apply moved_timeout|by apply moved_take_empty].
  - destruct (mutex_acquire t (pipe_lock_501 g)) as [m|] eqn:Em; [|done]. intros [= <- <- <-]. by apply moved_lock_pub.
  - destruct (k <? 6) eqn:Ek.
    + destruct (znth (producer_item g) k) as [x|] eqn:Ex; [|done]. cbn. destruct (zupd _ _ x) as [b|] eqn:Eb; [|done].
      intros [= <- <- <-]. eapply moved_copy_pub; [done|done|lia|done|done].
    + destruct (load_id xlen a_addr (t_arg th)) as [id|]; [|done]. intros [= <- <- <-]. eapply moved_show_pub; [done|done|lia].
  - intros [= <- <- <-]. by apply moved_unlock.
  - intros [= <- <- <-]. by apply moved_post_full.
Qed.

Lemma sub_moved t c th g th' g' ls : t_routine th = Sub501 -> sub501 xlen a_addr t c th g = Next (th', g', ls) -> moved t c th g th' g' ls.
Proof.
  intros Hr. unfold sub501. destruct (t_point th) as [| | |k| | |] eqn:Ep; [| | | | | |done].
  - destruct (t_i th <? 22) eqn:Ei; [|intros [= <- <- <-]; apply moved_end; [done|rewrite Hr; cbn; lia]].
    destruct (load_id xlen a_addr (t_arg th)) as [id|]; [|done]. intros [= <- <- <-]. apply moved_hello; [done|done|lia].
  - destruct (sem_timedwait c (full_sem g)) as [| |s] eqn:Es; [done|done|]. intros [= <- <- <-].
    destruct (timed_wait _ _ _ Es) as [[-> ->]|Et]; [rewrite set_full_same; by apply moved_timeout|by apply moved_take_full].
  - destruct (mutex_acquire t (pipe_lock_501 g)) as [m|] eqn:Em; [|done]. intros [= <- <- <-]. by apply moved_lock_sub.
  - destruct (k <? 6) eqn:Ek.
    + destruct (znth (buffer_501 g) _) as [x|] eqn:Ex; [|done]. intros [= <- <- <-]. eapply moved_copy_sub; [done|done|lia|done].
    + destruct (load_id xlen a_addr (t_arg th)) as [id|]; [|done]. intros [= <- <- <-]. eapply moved_show_sub; [done|done|lia].
  - intros [= <- <- <-]. by apply moved_unlock.
  - intros [= <- <- <-]. by apply moved_post_empty.
Qed.

Lemma routine_moved t c th g th' g' ls : run_routine xlen a_addr (t_routine th) t c th g = Next (th', g', ls) -> moved t c th g th' g' ls.
Proof. destruct (t_routine th) eqn:Hr; [by apply pub_moved|by apply sub_moved]. Qed.
(** * What always holds *)

Definition critical (th : thread) : Prop := match t_point th with AtCopy _ | AtUnlock => True | _ => False end.

(** The arrays have their sizes, and the indices are theirs. *)
Record shape_ok (g : shared) : Prop := {
  sh_buffer : zlen (buffer_501 g) = 54; sh_item : length (producer_item g) = 6%nat;
  sh_out : 0 <= out_x g < 9; sh_in : 0 <= in_x g < 9 }.

(** The [n]-th thread runs its routine with its argument, within the bounds of its
    loops. *)
Record thread_ok (n : nat) (th : thread) : Prop := {
  th_routine : t_routine th = t_routine (thread_create a_addr (Z.of_nat n));
  th_arg : t_arg th = t_arg (thread_create a_addr (Z.of_nat n));
  th_i : 0 <= t_i th;
  th_point : match t_point th with
    | AtLoop => t_i th <= rounds (t_routine th)
    | AtEnd => t_i th = rounds (t_routine th)
    | AtCopy k => 0 <= k <= 6 /\ t_i th < rounds (t_routine th) /\ (t_routine th = Sub501 -> zlen (t_item th) = k)
    | _ => t_i th < rounds (t_routine th)
    end }.

Lemma moved_shape t c th g th' g' ls n : thread_ok n th -> moved t c th g th' g' ls -> shape_ok g -> shape_ok g'.
Proof.
  intros Hth Hm [Hb Hi Ho Hn]. destruct Hm; try (by split); split; cbn [buffer_501 producer_item out_x in_x set_producer set_buffer set_in_x set_out_x]; try done.
  - by rewrite length_map.
  - by erewrite zupd_zlen.
  - lia.
  - lia.
Qed.

Lemma moved_thread t c th g th' g' ls n : moved t c th g th' g' ls -> thread_ok n th -> thread_ok n th'.
Proof.
  intros Hm [Hr Ha Hi Hp].
  destruct Hm; split; cbn [at_point with_item next_round t_routine t_arg t_i t_item t_point] in *; try done; clear Hr Ha;
    repeat match goal with E : t_point th = _ |- _ => rewrite E in Hp end;
    try match goal with E : t_routine th = _ |- _ => rewrite E in Hp |- * end; cbn [rounds] in *; try lia.
  - split; [lia|]. split; [lia|done].
  - split; [lia|]. split; [lia|done].
  - split; [lia|]. split; [lia|done].
  - destruct Hp as (Hk & Hl & Hz). split; [lia|]. split; [lia|]. intros _. specialize (Hz eq_refl). unfold zlen in *. rewrite length_app. cbn. lia.
Qed.
(** A step keeps the lock and stays where it is, or takes the lock, or gives it back. *)
Lemma moved_lock t c th g th' g' ls : moved t c th g th' g' ls ->
  (pipe_lock_501 g' = pipe_lock_501 g /\ (critical th' <-> critical th)) \/
  (~ critical th /\ critical th' /\ mutex_acquire t (pipe_lock_501 g) = Some (pipe_lock_501 g')) \/
  (critical th /\ ~ critical th' /\ pipe_lock_501 g' = mutex_release t (pipe_lock_501 g)).
Proof.
  unfold critical. destruct 1; cbn [t_point at_point with_item next_round pipe_lock_501 set_producer set_buffer set_in_x set_out_x set_empty set_full set_lock];
    match goal with E : t_point th = _ |- _ => rewrite E end; tauto.
Qed.

(** How many items a thread has shown. *)
Definition shown_in_round (th : thread) : nat := match t_point th with AtUnlock | AtPost => 1 | _ => 0 end.
Definition pub_shown (th : thread) : nat := match t_routine th with Pub501 => Z.to_nat (t_i th) + shown_in_round th | Sub501 => 0 end.
Definition sub_shown (th : thread) : nat := match t_routine th with Sub501 => Z.to_nat (t_i th) + shown_in_round th | Pub501 => 0 end.

Lemma moved_counts t c th g th' g' ls n : thread_ok n th -> shape_ok g -> moved t c th g th' g' ls ->
  (pub_shown th' = pub_shown th + length (pub_lines ls))%nat /\ (sub_shown th' = sub_shown th + length (sub_lines ls))%nat /\
  in_x g' = (in_x g + zlen (pub_lines ls)) mod 9 /\ out_x g' = (out_x g + zlen (sub_lines ls)) mod 9.
Proof.
  intros [_ _ Hi _] [_ _ Ho Hn] Hm. unfold pub_shown, sub_shown, shown_in_round, zlen.
  destruct Hm; cbn [t_routine t_point t_i at_point with_item next_round in_x out_x set_producer set_buffer set_in_x set_out_x set_empty set_full set_lock];
    repeat match goal with E : t_routine th = _ |- _ => rewrite E end; try match goal with E : t_point th = _ |- _ => rewrite E end;
    repeat match goal with E : pub_lines _ = _ |- _ => rewrite E end; repeat match goal with E : sub_lines _ = _ |- _ => rewrite E end;
    cbn [pub_lines sub_lines omap list_omap length Z.of_nat Pos.of_succ_nat]; try (destruct (t_routine th)); (split; [lia|]); (split; [lia|]); (split; lia).
Qed.

Lemma moved_running t c th g th' g' ls : moved t c th g th' g' ls -> t_point th <> AtEnd.
Proof. by destruct 1; congruence. Qed.

(** Everything that holds in every state, for a session that starts with the indices
    [x0] and [y0]. *)
Record ring_ok (x0 y0 : Z) (s : ring) : Prop := {
  ok_shape : shape_ok (sh s);
  ok_threads : each thread_ok (threads s);
  ok_lock : lock_ok critical (threads s) (pipe_lock_501 (sh s));
  ok_main : match main s with
    | Create k => 0 <= k <= 3 /\ zlen (threads s) = k
    | Join k => 0 <= k <= 3 /\ zlen (threads s) = 4 /\ each (fun n th => Z.of_nat n < k -> t_point th = AtEnd) (threads s)
    | Returned => zlen (threads s) = 4 /\ each (fun _ th => t_point th = AtEnd) (threads s)
    end;
  ok_pubs : length (pub_lines (printed s)) = total pub_shown (threads s);
  ok_subs : length (sub_lines (printed s)) = total sub_shown (threads s);
  ok_in : in_x (sh s) = (x0 + zlen (pub_lines (printed s))) mod 9;
  ok_out : out_x (sh s) = (y0 + zlen (sub_lines (printed s))) mod 9 }.

Lemma thread_created n : thread_ok n (thread_create a_addr (Z.of_nat n)) /\ ~ critical (thread_create a_addr (Z.of_nat n)) /\
  pub_shown (thread_create a_addr (Z.of_nat n)) = 0%nat /\ sub_shown (thread_create a_addr (Z.of_nat n)) = 0%nat.
Proof.
  destruct (Z.of_nat n <? 1) eqn:E; (split; [split; [done|done|unfold thread_create; rewrite E; cbn; lia..]|]);
    unfold thread_create; rewrite E; (split; [by intros []|done]).
Qed.

Lemma main_step_ok x0 y0 s s' : ring_ok x0 y0 s -> app501_main a_addr s = Next s' -> ring_ok x0 y0 s'.
Proof.
  intros [Hsh Hth Hlk Hm Hp Hs Hi Ho]. unfold app501_main. destruct (main s) as [k|k|] eqn:Em; [| |done].
  - intros [= <-]. destruct Hm as [Hk Hl]. assert (Hn : k = Z.of_nat (length (threads s))) by (unfold zlen in Hl; lia).
    destruct (thread_created (length (threads s))) as (Hok & Hc & H1 & H2). rewrite <- Hn in *.
    split; cbn [sh threads main printed]; [done|by apply each_snoc|by apply lock_ok_snoc| | | |done|done].
    + destruct (k <? 3) eqn:E; unfold zlen in *; rewrite length_app; cbn; [lia|]. split; [lia|]. split; [lia|]. intros n th Hn' Hlt. lia.
    + rewrite total_app. unfold total at 2. cbn. lia.
    + rewrite total_app. unfold total at 2. cbn. lia.
  - destruct Hm as (Hk & Hl & Hj). destruct (znth (threads s) k) as [th|] eqn:Et; [|done]. cbn.
    destruct (t_point th) eqn:Ep; try done. intros [= <-]. apply znth_Some in Et as [_ Et].
    assert (Hj' : each (fun n th => Z.of_nat n < k + 1 -> t_point th = AtEnd) (threads s)).
    { intros n th1 Hn Hlt. destruct (decide (Z.of_nat n = k)) as [E|E]; [|apply (Hj n th1 Hn); lia].
      replace (Z.to_nat k) with n in Et by lia. congruence. }
    split; cbn [sh threads main printed]; rewrite ?pub_lines_app, ?sub_lines_app;
      try done.
    + destruct (k <? 3) eqn:E; [split; [lia|]; by split|]. split; [done|]. intros n th1 Hn. apply (Hj' n th1 Hn).
      apply lookup_lt_Some in Hn. unfold zlen in Hl. lia.
    + destruct (k <? 1); cbn; by rewrite app_nil_r.
    + destruct (k <? 1); cbn; by rewrite app_nil_r.
    + destruct (k <? 1); cbn; by rewrite app_nil_r.
    + destruct (k <? 1); cbn; by rewrite app_nil_r.
Qed.
(** What a step of a thread is: the thread, its move, and the state after it. *)
Lemma thread_step n c s s' : app501_step xlen a_addr (S n) c s = Next s' ->
  exists th th' g ls, threads s !! n = Some th /\ moved (S n) c th (sh s) th' g ls /\
    s' = mk_ring g (<[n := th']> (threads s)) (main s) (printed s ++ ls).
Proof.
  cbn [app501_step]. destruct (threads s !! n) as [th|] eqn:Et; [|done]. cbn.
  destruct (run_routine xlen a_addr (t_routine th) (S n) c th (sh s)) as [| |[[th' g] ls]] eqn:E; [done|done|]. intros [= <-].
  exists th, th', g, ls. split; [done|]. split; [by apply routine_moved|done].
Qed.

Lemma ring_step_ok x0 y0 t c s s' : ring_ok x0 y0 s -> app501_step xlen a_addr t c s = Next s' -> ring_ok x0 y0 s'.
Proof.
  intros Hok Hs. destruct t as [|n]; [by apply (main_step_ok x0 y0 s)|].
  apply thread_step in Hs as (th & th' & g & ls & Ht & Hm & ->). destruct Hok as [Hsh Hth Hlk Hmain Hp Hsb Hi Ho].
  pose proof (Hth n th Ht) as Hthn. destruct (moved_counts _ _ _ _ _ _ _ _ Hthn Hsh Hm) as (Hc1 & Hc2 & Hc3 & Hc4).
  pose proof (moved_running _ _ _ _ _ _ _ Hm) as Hrun.
  split; cbn [sh threads main printed]; rewrite ?pub_lines_app, ?sub_lines_app, ?zlen_app, ?length_app.
  - by apply (moved_shape _ _ _ _ _ _ _ n Hthn Hm).
  - apply each_insert; [done|]. by apply (moved_thread _ _ _ _ _ _ _ n Hm).
  - eapply lock_ok_step; [exact Ht|by eapply moved_lock|exact Hlk].
  - unfold zlen in *. rewrite length_insert. destruct (main s) as [k|k|]; [done| |].
    + destruct Hmain as (Hk & Hl & Hj). split; [done|]. split; [done|]. apply each_insert; [done|]. intros Hlt. by destruct Hrun; apply (Hj n th Ht).
    + destruct Hmain as (Hl & Hj). by destruct Hrun; apply (Hj n th Ht).
  - pose proof (total_insert pub_shown _ _ _ th' Ht). lia.
  - pose proof (total_insert sub_shown _ _ _ th' Ht). lia.
  - rewrite Hc3, Hi. rewrite Zplus_mod_idemp_l. f_equal. lia.
  - rewrite Hc4, Ho. rewrite Zplus_mod_idemp_l. f_equal. lia.
Qed.

(** * No step goes wrong, and somebody can move *)

Section fitting.
Context (Hfit : int_address).

Lemma load_id_ok n th : (n < 4)%nat -> thread_ok n th -> exists id, load_id xlen a_addr (t_arg th) = Some id.
Proof.
  intros Hn [_ -> _ _]. unfold load_id. assert (Ha : exists j, 0 <= j <= 2 /\ t_arg (thread_create a_addr (Z.of_nat n)) = a_addr + 4 * j).
  { unfold thread_create. destruct (Z.of_nat n <? 1) eqn:E; cbn [t_arg]; eexists; (split; [|done]); lia. }
  destruct Ha as (j & Hj & ->). rewrite (Hfit j Hj).
  destruct (_ =? a_addr) eqn:E0; [by eexists|]. destruct (_ =? a_addr + 4) eqn:E1; [by eexists|]. destruct (_ =? a_addr + 8) eqn:E2; [by eexists|].
  assert (j = 0 \/ j = 1 \/ j = 2) by lia. exfalso. intuition lia.
Qed.

Lemma routine_safe n c th g : (n < 4)%nat -> thread_ok n th -> shape_ok g ->
  run_routine xlen a_addr (t_routine th) (S n) c th g <> Crashed.
Proof.
  intros Hn Hth [Hb Hi Ho Hx]. destruct (load_id_ok n th Hn Hth) as [id Hid]. destruct Hth as [_ _ _ Hp].
  destruct (t_routine th) eqn:Er; cbn [run_routine]; unfold pub501, sub501; rewrite Hid; destruct (t_point th) as [| | |k| | |]; try done.
  - destruct (_ <? _); [|done]. destruct c; [done|done|]. by destruct (_ =? _)%nat.
  - unfold sem_timedwait. by destruct (sem_take _), c.
  - by destruct (mutex_acquire _ _).
  - destruct (k <? 6) eqn:Ek; [|done]. destruct (znth_in_range (producer_item g) k) as [x ->]; [unfold zlen; lia|]. cbn.
    rewrite zupd_in_range by lia. done.
  - by destruct (_ <? _).
  - unfold sem_timedwait. by destruct (sem_take _), c.
  - by destruct (mutex_acquire _ _).
  - destruct (k <? 6) eqn:Ek; [|done]. destruct (znth_in_range (buffer_501 g) (out_x g * 6 + k)) as [x ->]; [lia|]. done.
Qed.

Lemma routine_moves n th g : (n < 4)%nat -> thread_ok n th -> shape_ok g -> t_point th <> AtEnd ->
  (t_point th = AtLock -> holder (pipe_lock_501 g) = None) ->
  exists c r, run_routine xlen a_addr (t_routine th) (S n) c th g = Next r.
Proof.
  intros Hn Hth Hsh He Hl.
  assert (Hsafe : forall c, run_routine xlen a_addr (t_routine th) (S n) c th g <> Blocked -> exists r, run_routine xlen a_addr (t_routine th) (S n) c th g = Next r).
  { intros c Hb. pose proof (routine_safe n c th g Hn Hth Hsh). destruct (run_routine _ _ _ _ _ _) as [| |r]; [done|done|by exists r]. }
  exists (match t_point th with AtLoop => CRand (repeat 0 6) | AtWait => CTimeout | _ => CRun end). apply Hsafe.
  destruct (load_id_ok n th Hn Hth) as [id Hid].
  destruct (t_routine th); cbn [run_routine]; unfold pub501, sub501; rewrite Hid; destruct (t_point th) as [| | |k| | |]; try done.
  - by destruct (_ <? _).
  - unfold sem_timedwait. by destruct (sem_take _).
  - destruct (acquire_free (S n) _ (Hl eq_refl)) as (m & -> & _). done.
  - destruct (k <? 6); [|done]. destruct (znth _ k); [|done]. cbn. by destruct (zupd _ _ _).
  - by destruct (_ <? _).
  - unfold sem_timedwait. by destruct (sem_take _).
  - destruct (acquire_free (S n) _ (Hl eq_refl)) as (m & -> & _). done.
  - destruct (k <? 6); [|done]. by destruct (znth _ _).
Qed.

Lemma thread_moves x0 y0 s n th : ring_ok x0 y0 s -> threads s !! n = Some th -> t_point th <> AtEnd ->
  (t_point th = AtLock -> holder (pipe_lock_501 (sh s)) = None) -> exists c s', app501_step xlen a_addr (S n) c s = Next s'.
Proof.
  intros Hok Ht He Hl. assert (Hn : (n < 4)%nat).
  { pose proof (lookup_lt_Some _ _ _ Ht). pose proof (ok_main _ _ _ Hok) as Hm. unfold zlen in Hm. destruct (main s); lia. }
  destruct (routine_moves n th (sh s) Hn (ok_threads _ _ _ Hok n th Ht) (ok_shape _ _ _ Hok) He Hl) as (c & [[th' g] ls] & E).
  exists c. cbn [app501_step]. rewrite Ht. cbn. rewrite E. by eexists.
Qed.

(** In every state the command has returned, or some step is possible. *)
Lemma ring_moves x0 y0 s : ring_ok x0 y0 s -> main s = Returned \/ exists t c s', app501_step xlen a_addr t c s = Next s'.
Proof.
  intros Hok. pose proof (ok_main _ _ _ Hok) as Hm. destruct (main s) as [k|k|] eqn:Em; [| |by left]; right.
  - exists 0%nat, CRun. cbn. unfold app501_main. rewrite Em. by eexists.
  - destruct Hm as (Hk & Hl & _). destruct (znth_in_range (threads s) k) as [th Ht]; [lia|].
    destruct (holder (pipe_lock_501 (sh s))) as [u|] eqn:Eh.
    + destruct (lk_held _ _ _ (ok_lock _ _ _ Hok) u Eh) as (n & th1 & -> & Hn & Hc). exists (S n).
      apply (thread_moves x0 y0 s n th1 Hok Hn); [by intros E; unfold critical in Hc; rewrite E in Hc|].
      intros E. unfold critical in Hc. by rewrite E in Hc.
    + pose proof Ht as [_ Ht']%znth_Some. destruct (decide (t_point th = AtEnd)) as [E|E].
      * exists 0%nat, CRun. cbn. unfold app501_main. rewrite Em, Ht. cbn. rewrite E. by eexists.
      * exists (S (Z.to_nat k)). by apply (thread_moves x0 y0 s _ th Hok Ht').
Qed.

Lemma ring_safe x0 y0 t c s : ring_ok x0 y0 s -> app501_step xlen a_addr t c s <> Crashed.
Proof.
  intros Hok. pose proof (ok_main _ _ _ Hok) as Hm. destruct t as [|n]; cbn [app501_step].
  - unfold app501_main. destruct (main s) as [k|k|]; [done| |done]. destruct Hm as (Hk & Hl & _).
    destruct (znth_in_range (threads s) k) as [th ->]; [lia|]. cbn. by destruct (t_point th).
  - destruct (threads s !! n) as [th|] eqn:Ht; [|done]. cbn. assert (Hn : (n < 4)%nat).
    { pose proof (lookup_lt_Some _ _ _ Ht). unfold zlen in Hm. destruct (main s); lia. }
    pose proof (routine_safe n c th (sh s) Hn (ok_threads _ _ _ Hok n th Ht) (ok_shape _ _ _ Hok)).
    by destruct (run_routine _ _ _ _ _ _) as [| |[[th' g] ls]].
Qed.
End fitting.
(** * Every run is short *)

Definition steps_left (th : thread) : nat :=
  let r := rounds (t_routine th) - t_i th in
  match t_point th with
  | AtLoop => Z.to_nat (13 * r + 1) | AtWait => Z.to_nat (13 * r) | AtLock => Z.to_nat (13 * r - 1)
  | AtCopy k => Z.to_nat (13 * r - 2 - k) | AtUnlock => Z.to_nat (13 * r - 9) | AtPost => Z.to_nat (13 * r - 10)
  | AtEnd => 0
  end.
Definition ring_left (s : ring) : nat :=
  total steps_left (threads s) + match main s with Create k => Z.to_nat (300 * (4 - k) + 5) | Join k => Z.to_nat (4 - k) | Returned => 0 end.

Lemma moved_left t c th g th' g' ls n : thread_ok n th -> moved t c th g th' g' ls -> (steps_left th' < steps_left th)%nat.
Proof.
  intros [_ _ Hi Hp] Hm. unfold steps_left.
  destruct Hm; cbn [t_routine t_point t_i at_point with_item next_round];
    match goal with E : t_point th = _ |- _ => rewrite E in Hp |- * end; try match goal with E : t_routine th = _ |- _ => rewrite E in Hp |- * end;
    try (destruct (t_routine th)); cbn [rounds] in *; lia.
Qed.

Lemma ring_left_step x0 y0 t c s s' : ring_ok x0 y0 s -> app501_step xlen a_addr t c s = Next s' -> (ring_left s' < ring_left s)%nat.
Proof.
  intros Hok Hs. destruct t as [|n].
  - cbn in Hs. pose proof (ok_main _ _ _ Hok) as Hm. unfold app501_main in Hs. unfold ring_left. destruct (main s) as [k|k|]; [| |done].
    + injection Hs as <-. cbn [threads main]. rewrite total_app. unfold total at 2. unfold thread_create.
      destruct (k <? 1), (k <? 3) eqn:E; cbn; lia.
    + destruct (znth (threads s) k) as [th|]; [|done]. cbn in Hs. destruct (t_point th); try done. injection Hs as <-. cbn [threads main].
      destruct (k <? 3) eqn:E; lia.
  - apply thread_step in Hs as (th & th' & g & ls & Ht & Hm & ->). unfold ring_left. cbn [threads main].
    pose proof (total_insert steps_left _ _ _ th' Ht). pose proof (moved_left _ _ _ _ _ _ _ n (ok_threads _ _ _ Hok n th Ht) Hm). lia.
Qed.

Lemma app501_ok buffer item x y : length buffer = 54%nat -> length item = 6%nat -> 0 <= x < 9 -> 0 <= y < 9 ->
  ring_ok x y (app501 buffer item y x).
Proof.
  intros Hb Hi Hx Hy. split; cbn; try done.
  - split; cbn; [unfold zlen; lia|done|lia|lia].
  - apply lock_ok_nil.
  - rewrite Z.add_0_r, Z.mod_small; lia.
  - rewrite Z.add_0_r, Z.mod_small; lia.
Qed.

(** * First in, first out *)

Definition same_routine (a b : routine) : bool := match a, b with Pub501, Pub501 | Sub501, Sub501 => true | _, _ => false end.
Definition claims (r : routine) (th : thread) : nat :=
  if same_routine (t_routine th) r then match t_point th with AtLock | AtCopy _ => 1 | _ => 0 end else 0.
Definition owes (r : routine) (th : thread) : nat := if same_routine (t_routine th) r then shown_in_round th else 0.

(** What a step without the time limit does to the semaphores. *)
Lemma moved_tokens t c th g th' g' ls : c <> CTimeout -> moved t c th g th' g' ls ->
  sem_value (empty_sem g') + Z.of_nat (claims Pub501 th') + Z.of_nat (owes Sub501 th') + zlen (pub_lines ls) - zlen (sub_lines ls) =
  sem_value (empty_sem g) + Z.of_nat (claims Pub501 th) + Z.of_nat (owes Sub501 th) /\
  sem_value (full_sem g') + Z.of_nat (claims Sub501 th') + Z.of_nat (owes Pub501 th') + zlen (sub_lines ls) - zlen (pub_lines ls) =
  sem_value (full_sem g) + Z.of_nat (claims Sub501 th) + Z.of_nat (owes Pub501 th).
Proof.
  intros Hc Hm. unfold claims, owes, shown_in_round.
  destruct Hm; try done; cbn [t_routine t_point t_i at_point with_item next_round empty_sem full_sem set_producer set_buffer set_in_x set_out_x set_empty set_full set_lock];
    repeat match goal with E : t_point th = _ |- _ => rewrite E end;
    repeat match goal with E : t_routine th = _ |- _ => rewrite E end;
    repeat match goal with E : sem_take _ = Some _ |- _ => apply take_inv in E as [? ->] end; rewrite ?value_post;
    try (destruct (t_routine th)); unfold zlen; cbn; lia.
Qed.
(** The slot an index stands for holds an item. *)
Definition slot_holds (b : bytes) (x : Z) (item : bytes) (k : Z) : Prop := forall j, 0 <= j < k -> znth b (x * 6 + j) = znth item j.
(** A copy that is under way. *)
Definition copied (g : shared) (th : thread) : Prop :=
  match t_point th, t_routine th with
  | AtCopy k, Pub501 => slot_holds (buffer_501 g) (in_x g) (producer_item g) k
  | AtCopy k, Sub501 => slot_holds (buffer_501 g) (out_x g) (t_item th) k
  | _, _ => True
  end.

(** What the slots have held: at the start, from the one to be filled first, and then
    what was produced. *)
Definition slot_item (b : bytes) (x : Z) : bytes := take 6 (drop (Z.to_nat (x * 6)) b).
Definition history (b : bytes) (x0 : Z) (ls : list ring_line) : list bytes :=
  map (fun m => slot_item b ((x0 + m) mod 9)) (seqZ 0 9) ++ pub_lines ls.

(** A producer is about to fill its slot. *)
Definition filling (th : thread) : Prop := t_routine th = Pub501 /\ exists k, t_point th = AtCopy k.

(** For a session that starts with this buffer and these indices. *)
Record fifo_ok (b0 : bytes) (x0 y0 : Z) (s : ring) : Prop := {
  fi_empty : sem_value (empty_sem (sh s)) + Z.of_nat (total (claims Pub501) (threads s)) + Z.of_nat (total (owes Sub501) (threads s)) +
             zlen (pub_lines (printed s)) = 9 + zlen (sub_lines (printed s));
  fi_full : sem_value (full_sem (sh s)) + Z.of_nat (total (claims Sub501) (threads s)) + Z.of_nat (total (owes Pub501) (threads s)) +
            zlen (sub_lines (printed s)) = zlen (pub_lines (printed s));
  fi_items : Forall (fun x => zlen x = 6) (history b0 x0 (printed s));
  (** The ring holds the last nine; the oldest, as long as it is not being overwritten. *)
  fi_slots : forall i x, zlen (pub_lines (printed s)) <= i ->
             (i = zlen (pub_lines (printed s)) -> each (fun _ th => ~ filling th) (threads s)) ->
             znth (history b0 x0 (printed s)) i = Some x -> slot_holds (buffer_501 (sh s)) ((x0 + i) mod 9) x 6;
  (** Each item shown is the one that its slot held then. *)
  fi_shown : forall j item, znth (sub_lines (printed s)) j = Some item -> exists i, j < i <= j + 17 /\
             (x0 + i) mod 9 = (y0 + j) mod 9 /\ znth (history b0 x0 (printed s)) i = Some item;
  fi_copied : each (fun _ th => copied (sh s) th) (threads s) }.

Lemma history_app b x0 ls1 ls2 : history b x0 (ls1 ++ ls2) = history b x0 ls1 ++ pub_lines ls2.
Proof. unfold history. by rewrite pub_lines_app, app_assoc. Qed.
Lemma history_length b x0 ls : zlen (history b x0 ls) = 9 + zlen (pub_lines ls).
Proof. unfold history. by rewrite zlen_app. Qed.
Lemma slot_item_holds b x : length b = 54%nat -> 0 <= x < 9 -> zlen (slot_item b x) = 6 /\ slot_holds b x (slot_item b x) 6.
Proof.
  intros Hb Hx. unfold slot_item, slot_holds, zlen. split; [rewrite length_take, length_drop; lia|]. intros j Hj.
  unfold znth. rewrite !(proj2 (Z.ltb_ge _ 0)) by lia. rewrite lookup_take_lt, lookup_drop by lia. f_equal. lia.
Qed.

(** How far apart the two ends are. *)
Lemma fifo_counts b0 x0 y0 s : fifo_ok b0 x0 y0 s -> zlen (sub_lines (printed s)) <= zlen (pub_lines (printed s)) <= zlen (sub_lines (printed s)) + 9.
Proof.
  intros [He Hf _ _ _ _]. pose proof (value_nonneg (empty_sem (sh s))). pose proof (value_nonneg (full_sem (sh s))). lia.
Qed.
Lemma fifo_claim_sub b0 x0 y0 s n th k : fifo_ok b0 x0 y0 s -> threads s !! n = Some th -> t_routine th = Sub501 -> t_point th = AtCopy k ->
  zlen (sub_lines (printed s)) < zlen (pub_lines (printed s)).
Proof.
  intros [_ Hf _ _ _ _] Ht Hr Hp. pose proof (value_nonneg (full_sem (sh s))). pose proof (total_ge (claims Sub501) _ _ _ Ht) as Hc.
  unfold claims at 1 in Hc. rewrite Hr, Hp in Hc. cbn in Hc. lia.
Qed.

(** Only the thread that holds the mutex changes what the others copy. *)
Lemma moved_copied t c th g th' g' ls n m th2 : thread_ok n th -> thread_ok m th2 -> n <> m -> (critical th2 -> ~ critical th) ->
  moved t c th g th' g' ls -> copied g th2 -> copied g' th2.
Proof.
  intros [Hr _ _ _] [Hr2 _ _ _] Hne Hcr Hm. unfold copied. unfold critical in Hcr. destruct (t_point th2) as [| | |k2| | |]; try done.
  destruct Hm; cbn [buffer_501 producer_item out_x in_x set_producer set_buffer set_in_x set_out_x set_empty set_full set_lock];
    try done; try (by exfalso; apply Hcr; [done|]; match goal with E : t_point th = _ |- _ => rewrite E end).
  destruct (t_routine th2); [|done]. exfalso. apply Hne. rename select (t_routine th = Pub501) into Hp. rewrite Hp in Hr. clear -Hr Hr2. unfold thread_create in *.
  destruct (Z.of_nat n <? 1) eqn:E1, (Z.of_nat m <? 1) eqn:E2; cbn in *; (lia || done).
Qed.

(** What the thread that moves has copied. *)
Lemma moved_copied_own t c th g th' g' ls n : thread_ok n th -> shape_ok g -> moved t c th g th' g' ls -> copied g th -> copied g' th'.
Proof.
  intros [_ _ _ Hp] [Hb Hi Ho Hn] Hm Hc. unfold copied in *. destruct Hm; cbn [t_point t_routine at_point with_item next_round]; try done;
    match goal with E : t_routine th = _ |- _ => rewrite E in * end; try (by intros j Hj; lia).
  - rename select (t_point th = AtCopy k) into Hk. rename select (zupd _ _ _ = Some _) into Hz. rewrite Hk in *.
    intros j Hj. cbn [buffer_501 in_x producer_item set_buffer]. destruct (decide (j = k)) as [->|Hne].
    + by rewrite (znth_zupd_eq _ _ _ _ Hz).
    + rewrite (znth_zupd_ne _ _ _ _ _ Hz) by lia. apply Hc. lia.
  - rename select (t_point th = AtCopy k) into Hpk. rename select (znth _ _ = Some x) into Hx. rewrite Hpk in *.
    destruct Hp as (Hk & _ & Hz). specialize (Hz eq_refl). intros j Hj. cbn [with_item t_item]. destruct (decide (j = k)) as [->|Hne].
    + rewrite znth_app_r by lia. by rewrite Hz, Z.sub_diag.
    + rewrite znth_app_l by lia. apply Hc. lia.
Qed.
(** The buffer only changes in the slot a producer fills. *)
Lemma moved_slots t c th g th' g' ls x item : moved t c th g th' g' ls ->
  (t_routine th = Pub501 -> forall k, t_point th = AtCopy k -> 0 <= k -> x <> in_x g) -> 0 <= x ->
  (forall k, t_point th = AtCopy k -> 0 <= k) ->
  slot_holds (buffer_501 g) x item 6 -> slot_holds (buffer_501 g') x item 6.
Proof.
  intros Hm Hx Hx0 Hk Hs. destruct Hm; cbn [buffer_501 set_producer set_buffer set_in_x set_out_x set_empty set_full set_lock]; try done.
  rename select (t_point th = AtCopy k) into Hpk. rename select (zupd _ _ _ = Some _) into Hz. specialize (Hk _ Hpk).
  specialize (Hx ltac:(done) k Hpk Hk). intros j Hj. rewrite (znth_zupd_ne _ _ _ _ _ Hz) by lia. by apply Hs.
Qed.

(** What a thread shows: the producer the item of its slot, a consumer the item in
    front. *)
Lemma moved_shows t c th g th' g' ls n : thread_ok n th -> shape_ok g -> copied g th -> moved t c th g th' g' ls ->
  (pub_lines ls = [] /\ sub_lines ls = []) \/
  (sub_lines ls = [] /\ t_routine th = Pub501 /\ exists x k, t_point th = AtCopy k /\ pub_lines ls = [x] /\ zlen x = 6 /\ slot_holds (buffer_501 g) (in_x g) x 6 /\ buffer_501 g' = buffer_501 g) \/
  (pub_lines ls = [] /\ t_routine th = Sub501 /\ exists x k, t_point th = AtCopy k /\ sub_lines ls = [x] /\ zlen x = 6 /\ slot_holds (buffer_501 g) (out_x g) x 6 /\ buffer_501 g' = buffer_501 g).
Proof.
  intros [_ _ _ Hp] [_ Hi _ _] Hc Hm. unfold copied in Hc. destruct Hm; try (by left); [right; left|right; right];
    rename select (t_point th = AtCopy k) into Hpk; rename select (t_routine th = _) into Hr; rewrite Hpk, Hr in *; destruct Hp as (Hk & _ & Hz);
    assert (k = 6) as -> by lia; (split; [done|]); (split; [done|]); eexists _, _; (split; [done|]); (split; [done|]); (split; [|by split]).
  - unfold zlen. lia.
  - by apply Hz.
Qed.
Lemma main_step_fifo b0 x0 y0 s s' : fifo_ok b0 x0 y0 s -> app501_main a_addr s = Next s' -> fifo_ok b0 x0 y0 s'.
Proof.
  intros [He Hf Hi Hs Hp Hc]. unfold app501_main. destruct (main s) as [k|k|] eqn:Em; [| |done].
  - intros [= <-]. split; cbn [sh threads main printed]; [| |done| |done|].
    + rewrite !total_app. unfold total at 2 4, thread_create. destruct (k <? 1); cbn; lia.
    + rewrite !total_app. unfold total at 2 4, thread_create. destruct (k <? 1); cbn; lia.
    + intros i x Hle Hfill. apply Hs; [done|]. intros E n th Hn. apply (Hfill E n th). by apply lookup_app_l_Some.
    + apply each_snoc; [done|]. unfold thread_create. by destruct (k <? 1).
  - destruct (znth (threads s) k) as [th|] eqn:Et; [|done]. cbn. destruct (t_point th) eqn:Ep; try done. intros [= <-].
    set (l := if k <? 1 then OPubJoin else OSubJoin k).
    assert (E0 : pub_lines [l] = [] /\ sub_lines [l] = []) by (unfold l; by destruct (k <? 1)). destruct E0 as [E1 E2].
    split; cbn [sh threads main printed]; rewrite ?history_app, ?pub_lines_app, ?sub_lines_app, ?E1, ?E2, ?app_nil_r; done.
Qed.

(** The slots of two items that are in the ring together differ. *)
Lemma slots_differ x0 a b : a < b < a + 9 -> (x0 + a) mod 9 <> (x0 + b) mod 9.
Proof. lia. Qed.

(** A producer that fills its slot goes on, unless it shows its item. *)
Lemma moved_filling t c th g th' g' ls : moved t c th g th' g' ls -> pub_lines ls = [] -> filling th -> filling th'.
Proof.
  intros Hm Hl [Hr [k Hk]]. destruct Hm; try congruence; try done. split; [done|by eexists].
Qed.

Lemma item_eq (b x y : bytes) p : zlen x = 6 -> zlen y = 6 -> slot_holds b p x 6 -> slot_holds b p y 6 -> x = y.
Proof.
  intros Hx Hy Sx Sy. apply list_eq_same_length with 6%nat; [unfold zlen in *; lia..|].
  intros i a1 b1 Hi H1' H2'. specialize (Sx (Z.of_nat i) ltac:(lia)). specialize (Sy (Z.of_nat i) ltac:(lia)).
  rewrite Sx in Sy. unfold znth in Sy. rewrite (proj2 (Z.ltb_ge (Z.of_nat i) 0)), Nat2Z.id in Sy by lia. congruence.
Qed.

Section step.
Variables (b0 : bytes) (x0 y0 : Z) (n : nat) (c : choice) (s : ring) (th th' : thread) (g : shared) (ls : list ring_line).
Hypothesis (Hc : c <> CTimeout) (Hok : ring_ok x0 y0 s) (Ht : threads s !! n = Some th).
Hypothesis (Hm : moved (S n) c th (sh s) th' g ls) (Hfi : fifo_ok b0 x0 y0 s).
Abbreviation pubs := (zlen (pub_lines (printed s))).
Abbreviation hist := (history b0 x0 (printed s)).

(** The slots that are not overwritten keep their items. *)
Lemma step_slots i x : pub_lines ls = [] -> pubs <= i -> (i = pubs -> each (fun _ th => ~ filling th) (<[n := th']> (threads s))) ->
  znth hist i = Some x -> slot_holds (buffer_501 g) ((x0 + i) mod 9) x 6.
Proof.
  intros Hl Hi Hfill Hx. pose proof (ok_threads _ _ _ Hok n th Ht) as Hth.
  assert (Hnf : i = pubs -> ~ filling th).
  { intros E Hf. apply (Hfill E n th'); [apply list_lookup_insert_eq; by eapply lookup_lt_Some|]. by eapply moved_filling. }
  eapply moved_slots; [exact Hm| |lia| |].
  - intros Hr k Hk _. rewrite (ok_in _ _ _ Hok). destruct (decide (i = pubs)) as [E|E]; [destruct (Hnf E); by split; [|eexists]|].
    intros E'. symmetry in E'. revert E'. apply slots_differ. apply znth_Some_range in Hx. rewrite history_length in Hx. lia.
  - intros k E. pose proof (th_point _ _ Hth) as Hp. rewrite E in Hp. lia.
  - apply (fi_slots _ _ _ _ Hfi); [done| |done]. intros E m th2 Hm2. destruct (decide (n = m)) as [->|Hne]; [replace th2 with th by congruence; by apply Hnf|].
    apply (Hfill E m th2). by rewrite list_lookup_insert_ne.
Qed.

(** What a consumer shows is what its slot has held. *)
Lemma step_shown x k : t_routine th = Sub501 -> t_point th = AtCopy k -> zlen x = 6 -> slot_holds (buffer_501 (sh s)) (out_x (sh s)) x 6 ->
  let j := zlen (sub_lines (printed s)) in
  exists i, j < i <= j + 17 /\ (x0 + i) mod 9 = (y0 + j) mod 9 /\ znth hist i = Some x.
Proof.
  intros Hr Hk Hx Hslot j. pose proof (fifo_claim_sub _ _ _ _ _ _ _ Hfi Ht Hr Hk) as Hlt. pose proof (fifo_counts _ _ _ _ Hfi) as Hcount.
  fold j in Hlt, Hcount. exists (pubs + (y0 + j - x0 - pubs) mod 9). assert (Hd : (x0 + (pubs + (y0 + j - x0 - pubs) mod 9)) mod 9 = (y0 + j) mod 9) by lia.
  split; [lia|]. split; [done|]. pose proof (zlen_nonneg (pub_lines (printed s))).
  destruct (znth_in_range hist (pubs + (y0 + j - x0 - pubs) mod 9)) as [y Hy]; [rewrite history_length; lia|]. rewrite Hy. f_equal.
  eapply item_eq; [|exact Hx| |exact Hslot].
  - pose proof Hy as [_ Hy']%znth_Some. exact (Forall_lookup_1 _ _ _ _ (fi_items _ _ _ _ Hfi) Hy').
  - rewrite (ok_out _ _ _ Hok). fold j. rewrite <- Hd. apply (fi_slots _ _ _ _ Hfi); [lia| |done]. intros _ m th2 Hm2 [Hr2 [k2 Hk2]].
    assert (m = n).
    { pose proof (lk_holder _ _ _ (ok_lock _ _ _ Hok) m th2 Hm2) as H1'. pose proof (lk_holder _ _ _ (ok_lock _ _ _ Hok) n th Ht) as H2'.
      unfold critical in H1', H2'. rewrite Hk2 in H1'. rewrite Hk in H2'. specialize (H1' I). specialize (H2' I). congruence. }
    subst m. congruence.
Qed.

Lemma thread_step_fifo : fifo_ok b0 x0 y0 (mk_ring g (<[n := th']> (threads s)) (main s) (printed s ++ ls)).
Proof.
  pose proof (ok_threads _ _ _ Hok n th Ht) as Hth. pose proof (ok_shape _ _ _ Hok) as Hsh.
  pose proof (fi_copied _ _ _ _ Hfi n th Ht) as Hcp. destruct (moved_tokens _ _ _ _ _ _ _ Hc Hm) as [He Hf].
  pose proof step_slots as Hkeep. pose proof Hfi as [Hfe Hff Hit Hsl Hpre Hcop].
  pose proof (total_insert (claims Pub501) _ _ _ th' Ht). pose proof (total_insert (claims Sub501) _ _ _ th' Ht).
  pose proof (total_insert (owes Pub501) _ _ _ th' Ht). pose proof (total_insert (owes Sub501) _ _ _ th' Ht).
  pose proof (ok_in _ _ _ Hok) as Hin. pose proof (zlen_nonneg (sub_lines (printed s))) as Hnn.
  assert (Hcop' : each (fun _ th0 => copied g th0) (<[n := th']> (threads s))).
  { intros m th2. rewrite list_lookup_insert_Some. intros [(<- & <- & _)|[Hne Hm2]].
    - by eapply moved_copied_own; [exact Hth|exact Hsh|exact Hm|].
    - eapply moved_copied; [exact Hth|exact (ok_threads _ _ _ Hok m th2 Hm2)|exact Hne| |exact Hm|by apply (Hcop m)].
      intros Hc2 Hc1. pose proof (lk_holder _ _ _ (ok_lock _ _ _ Hok) m th2 Hm2 Hc2). pose proof (lk_holder _ _ _ (ok_lock _ _ _ Hok) n th Ht Hc1). congruence. }
  assert (Hold : forall l, forall j item, znth (sub_lines (printed s)) j = Some item -> exists i, j < i <= j + 17 /\
    (x0 + i) mod 9 = (y0 + j) mod 9 /\ znth (hist ++ l) i = Some item).
  { intros l j item (i & Hi & Hmod & Hx)%Hpre. exists i. split; [done|]. split; [done|].
    rewrite znth_app_l; [done|]. apply znth_Some_range in Hx; lia. }
  split; cbn [sh threads main printed]; rewrite ?history_app, ?pub_lines_app, ?sub_lines_app, ?zlen_app; [lia|lia| | | |done];
    destruct (moved_shows _ _ _ _ _ _ _ n Hth Hsh Hcp Hm) as [[E1 E2]|[(E2 & Hr & x & k & Hpk & E1 & Hx & Hslot & Eb)|(E1 & Hr & x & k & Hpk & E2 & Hx & Hslot & Eb)]];
    rewrite ?E1, ?E2, ?app_nil_r, ?Z.add_0_r; try done; try (by apply Hold); try (intros i y; by apply Hkeep).
  - apply Forall_app. split; [done|]. by repeat constructor.
  - intros i y Hi _ Hy. change (zlen [x]) with 1 in Hi. destruct (decide (i < pubs + 9)) as [Hlt|Hge].
    + rewrite znth_app_l in Hy by (rewrite history_length; lia). rewrite Eb. apply Hsl; [lia|lia|done].
    + pose proof (znth_Some_range _ _ _ Hy) as Hlen. rewrite zlen_app, history_length in Hlen. change (zlen [x]) with 1 in Hlen.
      assert (i = 9 + pubs) as -> by lia. rewrite znth_app_r, history_length, Z.sub_diag in Hy by (rewrite history_length; lia).
      injection Hy as <-. rewrite Eb. replace ((x0 + (9 + pubs)) mod 9) with (in_x (sh s)) by (rewrite Hin; lia). done.
  - specialize (Hold []). rewrite app_nil_r in Hold. intros j item Hj. destruct (decide (j < zlen (sub_lines (printed s)))) as [Hlt|Hge].
    + rewrite znth_app_l in Hj by done. by apply Hold.
    + pose proof (znth_Some_range _ _ _ Hj) as Hlen. rewrite zlen_app in Hlen. change (zlen [x]) with 1 in Hlen.
      assert (j = zlen (sub_lines (printed s))) as -> by lia. rewrite znth_app_r, Z.sub_diag in Hj by lia. injection Hj as <-.
      by eapply step_shown.
Qed.
End step.

Lemma ring_step_fifo b0 x0 y0 t c s s' : c <> CTimeout -> ring_ok x0 y0 s /\ fifo_ok b0 x0 y0 s -> app501_step xlen a_addr t c s = Next s' ->
  ring_ok x0 y0 s' /\ fifo_ok b0 x0 y0 s'.
Proof.
  intros Hc [Hok Hfi] Hs. split; [by apply (ring_step_ok x0 y0 t c s)|]. destruct t as [|n]; [by apply (main_step_fifo b0 x0 y0 s)|].
  apply thread_step in Hs as (th & th' & g & ls & Ht & Hm & ->). by apply (thread_step_fifo b0 x0 y0 n c s th).
Qed.
Lemma app501_fifo_ok buffer item x y : length buffer = 54%nat -> fifo_ok buffer x y (app501 buffer item y x).
Proof.
  intros Hb. assert (Hh : forall i z, znth (history buffer x []) i = Some z -> zlen z = 6 /\ slot_holds buffer ((x + i) mod 9) z 6).
  { intros i z [Hi Hz]%znth_Some. unfold history in Hz. rewrite app_nil_r in Hz.
    apply list_lookup_fmap_Some in Hz as (m & -> & [Hm _]%lookup_seqZ). replace m with i by lia. apply slot_item_holds; [done|lia]. }
  split; cbn; try done.
  - rewrite value_init by (unfold BUFFER_SIZE; lia). done.
  - rewrite value_init by lia. done.
  - apply Forall_lookup_2. intros i z Hz. apply (Hh (Z.of_nat i)). apply znth_Some. rewrite Nat2Z.id. split; [lia|done].
  - intros i z _ _ Hz. by apply Hh.
  - intros j z Hz. apply znth_Some_range in Hz. unfold zlen in Hz. cbn in Hz. lia.
Qed.

(** What is left when the command has returned. *)
Lemma returned_counts x y s : ring_ok x y s -> main s = Returned ->
  length (pub_lines (printed s)) = 20%nat /\ length (sub_lines (printed s)) = 66%nat /\
  in_x (sh s) = (x + 20) mod 9 /\ out_x (sh s) = (y + 66) mod 9.
Proof.
  intros Hok Hr. pose proof Hok as [_ Hth _ Hm Hp Hs Hi Ho]. rewrite Hr in Hm. destruct Hm as [Hl He].
  destruct (threads s) as [|t0 [|t1 [|t2 [|t3 [|]]]]] eqn:E; unfold zlen in Hl; cbn in Hl; try lia.
  assert (Hdone : forall n th, [t0; t1; t2; t3] !! n = Some th ->
    pub_shown th = (if (n <? 1)%nat then 20 else 0)%nat /\ sub_shown th = (if (n <? 1)%nat then 0 else 22)%nat).
  { intros n th Hn. pose proof (He n th Hn) as Hend. destruct (Hth n th Hn) as [Hr0 _ _ Hp0]. rewrite Hend in Hp0.
    unfold pub_shown, sub_shown, shown_in_round. rewrite Hend, Hp0. rewrite Hr0. unfold thread_create.
    destruct (Nat.ltb_spec n 1); [rewrite (proj2 (Z.ltb_lt _ 1)) by lia|rewrite (proj2 (Z.ltb_ge _ 1)) by lia]; by cbn. }
  destruct (Hdone 0%nat t0 eq_refl) as [P0 S0], (Hdone 1%nat t1 eq_refl) as [P1 S1], (Hdone 2%nat t2 eq_refl) as [P2 S2], (Hdone 3%nat t3 eq_refl) as [P3 S3].
  unfold total in Hp, Hs. cbn in Hp, Hs, P0, S0, P1, S1, P2, S2, P3, S3. assert (Hp' : length (pub_lines (printed s)) = 20%nat) by lia.
  assert (Hs' : length (sub_lines (printed s)) = 66%nat) by lia. split; [done|]. split; [done|]. unfold zlen in Hi, Ho. by rewrite Hi, Ho, Hp', Hs'.
Qed.

(** * The properties *)

(** C17: as long as no wait has ended by its time limit, whatever the kernel runs when,
    and whatever the indices were at the start: the [j]-th item shown is the [j+d]-th
    that was produced, where [d] is how far the consumers' index was ahead, or for
    [0 < d] the one that lay in its slot before.  So with equal indices, as in the first
    session, the consumers together show the produced items in the order they were
    produced, each once; and at most nine are under way. *)
Theorem app501_fifo sched buffer item x y s : length buffer = 54%nat -> length item = 6%nat -> 0 <= x < 9 -> 0 <= y < 9 ->
  Forall (fun tc => tc.2 <> CTimeout) sched -> run (app501_step xlen a_addr) sched (app501 buffer item y x) = Next s ->
  let pubs := pub_lines (printed s) in let subs := sub_lines (printed s) in let d := (y - x) mod 9 in
  (length subs <= length pubs <= length subs + 9)%nat /\
  (forall j shown, znth subs j = Some shown ->
     znth pubs (j + d) = Some shown \/ (0 < d /\ znth (history buffer x (printed s)) (j + d) = Some shown)) /\
  (x = y -> subs `prefix_of` pubs).
Proof.
  intros Hb Hi Hx Hy Hc Hr pubs subs d. assert (Hinv : ring_ok x y s /\ fifo_ok buffer x y s).
  { eapply (run_invariant (app501_step xlen a_addr) (fun c => c <> CTimeout) (fun s => ring_ok x y s /\ fifo_ok buffer x y s));
      [intros t c s1 s2; apply ring_step_fifo|exact Hc| |exact Hr].
    split; [by apply app501_ok|by apply app501_fifo_ok]. }
  destruct Hinv as [_ Hfi]. pose proof (fifo_counts _ _ _ _ Hfi) as Hcount. split; [unfold subs, pubs, zlen in *; lia|].
  assert (Hshown : forall j shown, znth subs j = Some shown ->
     znth pubs (j + d) = Some shown \/ (0 < d /\ znth (history buffer x (printed s)) (j + d) = Some shown)).
  { intros j shown Hj. destruct (fi_shown _ _ _ _ Hfi j shown Hj) as (i & Hij & Hmod & Hxi).
    assert (Ed : (i - j) mod 9 = d) by (unfold d; clear -Hmod; lia).
    assert (i = j + d + 9 \/ (0 < d /\ i = j + d)) as [-> | [Hd ->]] by (clear -Ed Hij; lia); [left|by right].
    apply znth_Some_range in Hj. assert (0 <= d) by (unfold d; lia). unfold history in Hxi.
    assert (Hl : zlen (map (fun m => slot_item buffer ((x + m) mod 9)) (seqZ 0 9)) = 9) by done.
    rewrite znth_app_r, Hl in Hxi by lia. rewrite <- Hxi. f_equal. lia. }
  split; [exact Hshown|]. intros E. assert (Hd : d = 0) by (unfold d; rewrite E, Z.sub_diag; done).
  exists (drop (length subs) pubs). rewrite <- (take_drop (length subs) pubs) at 1. f_equal.
  apply list_eq_same_length with (length subs); [rewrite ?length_take; unfold subs, pubs, zlen in *; lia..|].
  intros k a b Hk Ha Hb'. destruct (Hshown (Z.of_nat k) b) as [Hs|[Hs _]]; [apply znth_Some; rewrite Nat2Z.id; split; [lia|done]| |lia].
  rewrite Hd, Z.add_0_r in Hs. apply znth_Some in Hs as [_ Hs]. rewrite Nat2Z.id in Hs. rewrite lookup_take_lt in Ha by done. congruence.
Qed.

(** An address that does not survive: the first line of its consumer reads something else. *)
Section lost.
Context (k : Z) (Hk : 0 <= k <= 2) (Hlost : load_id xlen a_addr (a_addr + 4 * k) = None).

Lemma lost_consumer n th : Z.of_nat n = k + 1 -> thread_ok n th -> t_routine th = Sub501 /\ t_arg th = a_addr + 4 * k.
Proof.
  intros E [-> -> _ _]. unfold thread_create. rewrite (proj2 (Z.ltb_ge _ 1)) by lia. cbn. split; [done|]. f_equal. lia.
Qed.
Definition waits_for_id (s : ring) : Prop := each (fun n th => Z.of_nat n = k + 1 -> t_point th = AtLoop /\ t_i th = 0) (threads s).
Lemma waits_step x y t c s s' : ring_ok x y s /\ waits_for_id s -> app501_step xlen a_addr t c s = Next s' -> ring_ok x y s' /\ waits_for_id s'.
Proof.
  intros [Hok Hw] Hs. split; [by apply (ring_step_ok x y t c s)|]. destruct t as [|n].
  - cbn in Hs. unfold app501_main in Hs. destruct (main s) as [i|i|]; [| |done].
    + injection Hs as <-. apply each_snoc; [done|]. intros _. unfold thread_create. by destruct (i <? 1).
    + destruct (znth (threads s) i) as [th|]; [|done]. cbn in Hs. destruct (t_point th); try done. by injection Hs as <-.
  - cbn [app501_step] in Hs. destruct (threads s !! n) as [th|] eqn:Et; [|done]. cbn in Hs. destruct (decide (Z.of_nat n = k + 1)) as [E|E].
    + destruct (Hw n th Et E) as [Ep Ei]. destruct (lost_consumer n th E (ok_threads _ _ _ Hok n th Et)) as [Er Ea].
      rewrite Er in Hs. cbn [run_routine] in Hs. unfold sub501 in Hs. by rewrite Ep, Ei, Ea, Hlost in Hs.
    + destruct (run_routine _ _ _ _ _ _ _) as [| |[[th' g] ls]]; [done|done|]. injection Hs as <-. by apply each_insert.
Qed.
Lemma waits_forever x y s : ring_ok x y s -> waits_for_id s -> main s <> Returned.
Proof.
  intros Hok Hw Hr. pose proof (ok_main _ _ _ Hok) as Hm. rewrite Hr in Hm. destruct Hm as [Hl He].
  destruct (znth_in_range (threads s) (k + 1)) as [th [_ Ht]%znth_Some]; [lia|]. destruct (Hw _ th Ht) as [Ep _]; [lia|].
  pose proof (He _ th Ht). congruence.
Qed.
Lemma goes_wrong buffer item x y : exists sched, run (app501_step xlen a_addr) sched (app501 buffer item y x) = Crashed.
Proof.
  assert (H4 : exists s4, run (app501_step xlen a_addr) (repeat (0%nat, CRun) 4) (app501 buffer item y x) = Next s4 /\
    threads s4 = map (thread_create a_addr) [0; 1; 2; 3]) by (eexists; split; reflexivity).
  destruct H4 as (s4 & Hrun & Hth). exists (repeat (0%nat, CRun) 4 ++ [(S (Z.to_nat (k + 1)), CRun)]).
  assert (Hlast : app501_step xlen a_addr (S (Z.to_nat (k + 1))) CRun s4 = Crashed).
  { cbn [app501_step]. rewrite Hth, list_lookup_fmap.
    assert (El : [0; 1; 2; 3] !! Z.to_nat (k + 1) = Some (k + 1)) by (assert (k = 0 \/ k = 1 \/ k = 2) as [-> | [-> | ->]] by lia; done).
    rewrite El. unfold thread_create. cbn [fmap option_fmap option_map]. rewrite (proj2 (Z.ltb_ge _ 1)) by lia.
    unfold wait. cbn [mbind outcome_bind obind t_routine run_routine]. unfold sub501. cbn [t_point t_i t_arg Z.ltb Z.compare].
    replace (a_addr + 4 * (k + 1 - 1)) with (a_addr + 4 * k) by lia. by rewrite Hlost. }
  rewrite (run_after _ _ _ _ _ Hrun). cbn [run]. by rewrite Hlast.
Qed.
End lost.

Lemma not_int_address : xlen = 32 \/ xlen = 64 -> ~ int_address -> exists k, 0 <= k <= 2 /\ load_id xlen a_addr (a_addr + 4 * k) = None.
Proof.
  intros Hx Hn. set (ok k := s32 (a_addr + 4 * k) mod 2 ^ xlen = a_addr + 4 * k).
  assert (Hk : exists k, 0 <= k <= 2 /\ ~ ok k).
  { destruct (decide (ok 0)) as [H0'|]; [|exists 0; split; [lia|done]]. destruct (decide (ok 1)) as [H1'|]; [|exists 1; split; [lia|done]].
    destruct (decide (ok 2)) as [H2'|]; [|exists 2; split; [lia|done]].
    destruct Hn. intros k Hk. assert (k = 0 \/ k = 1 \/ k = 2) as [-> | [-> | ->]] by lia; done. }
  destruct Hk as (k & Hk & Hno). exists k. split; [done|]. unfold ok in Hno. unfold load_id. clear Hn ok.
  assert (Hmod : forall m, 0 <= m <= 2 -> s32 (a_addr + 4 * k) mod 2 ^ xlen = a_addr + 4 * m -> m = k).
  { intros m Hm E. destruct Hx as [-> | ->]; unfold s32 in E; [change (2 ^ 32) with 4294967296 in E|change (2 ^ 64) with 18446744073709551616 in E]; lia. }
  assert (Hne : forall m, 0 <= m <= 2 -> (s32 (a_addr + 4 * k) mod 2 ^ xlen =? a_addr + 4 * m) = false).
  { intros m Hm. apply Z.eqb_neq. intros E. pose proof (Hmod m Hm E) as ->. done. }
  pose proof (Hne 0 ltac:(lia)) as E0. pose proof (Hne 1 ltac:(lia)) as E1. pose proof (Hne 2 ltac:(lia)) as E2.
  rewrite Z.mul_0_r, Z.add_0_r in E0. change (4 * 1) with 4 in E1. change (4 * 2) with 8 in E2. by rewrite E0, E1, E2.
Qed.

(** C19: when the addresses of the numbers survive the way through an [int], the command
    always returns: no step goes wrong, a run has at most 1205 steps and ends only when
    the command has returned, after twenty lines of the producer and sixty-six of the
    consumers; the indices it leaves differ by what was shown.  When they do not, a run
    goes wrong, and none returns. *)
Theorem app501_returns sched buffer item x y : xlen = 32 \/ xlen = 64 -> length buffer = 54%nat -> length item = 6%nat -> 0 <= x < 9 -> 0 <= y < 9 ->
  (int_address -> run (app501_step xlen a_addr) sched (app501 buffer item y x) <> Crashed /\
     forall s, run (app501_step xlen a_addr) sched (app501 buffer item y x) = Next s -> (length sched <= 1205)%nat /\
     ((exists t c s', app501_step xlen a_addr t c s = Next s') \/
      (main s = Returned /\ length (pub_lines (printed s)) = 20%nat /\ length (sub_lines (printed s)) = 66%nat /\
       in_x (sh s) = (x + 20) mod 9 /\ out_x (sh s) = (y + 66) mod 9))) /\
  (~ int_address -> (exists wrong, run (app501_step xlen a_addr) wrong (app501 buffer item y x) = Crashed) /\
     forall s, run (app501_step xlen a_addr) sched (app501 buffer item y x) = Next s -> main s <> Returned).
Proof.
  intros Hxl Hb Hi Hx Hy. pose proof (app501_ok buffer item x y Hb Hi Hx Hy) as H0'.
  assert (Hall : Forall (fun tc : nat * choice => (fun _ => True) tc.2) sched) by by apply Forall_forall.
  assert (Hstep : forall t c s s', True -> ring_ok x y s -> app501_step xlen a_addr t c s = Next s' -> ring_ok x y s').
  { intros t c s s' _. apply ring_step_ok. }
  split.
  - intros Hfit. split; [apply (run_safe _ (fun _ => True) (ring_ok x y)); [done|intros; by apply (ring_safe Hfit x y)|done|done]|].
    intros s Hr. pose proof (run_invariant _ _ _ Hstep sched _ s Hall H0' Hr) as Hok. split.
    + pose proof (run_bounded _ _ _ Hstep ring_left sched (ring_left_step x y) _ s Hall H0' Hr) as Hl. change (ring_left (app501 buffer item y x)) with 1205%nat in Hl. lia.
    + destruct (ring_moves Hfit x y s Hok) as [Hret|Hm]; [right|by left]. split; [done|]. by apply returned_counts.
  - intros (k & Hk & Hlost)%not_int_address; [|done]. split; [by eapply goes_wrong|]. intros s Hr.
    assert (Hboth : ring_ok x y s /\ waits_for_id k s); [|destruct Hboth; by eapply (waits_forever k Hk)].
    eapply (run_invariant (app501_step xlen a_addr) (fun _ => True) (fun s => ring_ok x y s /\ waits_for_id k s));
      [intros t c s1 s2 _; by apply (waits_step k Hk Hlost)|exact Hall|split; [exact H0'|by intros n th Hn]|exact Hr].
Qed.
End spec.

(** * A session *)

(** The producer and the first consumer are started, and each makes one round. *)
Definition one_round : list (nat * choice) :=
  repeat (0%nat, CRun) 2 ++ [(1%nat, CRand [1; 2; 259; 4; 5; 6])] ++ repeat (1%nat, CRun) 11 ++ repeat (2%nat, CRun) 12.
Definition state_of (o : outcome ring) : list bytes * list bytes :=
  match o with Next s => (pub_lines (printed s), sub_lines (printed s)) | _ => ([], []) end.

Definition after_round : ring :=
  Eval vm_compute in match run (app501_step 64 4096) one_round app501_first with Next s => s | _ => app501_first end.

(** The same round in the second session, with the indices that the first one leaves. *)
Definition second_round : ring :=
  Eval vm_compute in match run (app501_step 64 4096) one_round (app501 (repeat 0 54) (repeat 0 6) 3 2) with Next s => s | _ => app501_first end.

Lemma app501_fifo_witness : run (app501_step 64 4096) one_round app501_first = Next after_round /\
  sub_lines (printed after_round) = [[1; 2; 3; 4; 5; 6]] /\ sub_lines (printed after_round) `prefix_of` pub_lines (printed after_round) /\
  znth (history (repeat 0 54) 2 (printed second_round)) (0 + 1) = Some [0; 0; 0; 0; 0; 0].
Proof.
  split; [vm_compute; reflexivity|]. split; [reflexivity|]. split.
  - apply (app501_fifo 64 4096 one_round (repeat 0 54) (repeat 0 6) 0 0); [reflexivity|reflexivity|lia|lia| |vm_compute; reflexivity|reflexivity].
    repeat constructor; discriminate.
  - destruct (app501_fifo 64 4096 one_round (repeat 0 54) (repeat 0 6) 2 3 second_round) as (_ & H & _);
      [reflexivity|reflexivity|lia|lia|repeat constructor; discriminate|vm_compute; reflexivity|].
    destruct (H 0 [0; 0; 0; 0; 0; 0] eq_refl) as [E|[_ E]]; [discriminate E|exact E].
Defined.

Lemma app501_returns_witness : run (app501_step 64 4096) one_round app501_first = Next after_round /\
  (length one_round <= 1205)%nat /\ run (app501_step 64 4096) one_round app501_first <> Crashed /\
  exists wrong, run (app501_step 64 0x80001000) wrong app501_first = Crashed.
Proof.
  destruct (app501_returns 64 4096 one_round (repeat 0 54) (repeat 0 6) 0 0) as [H _]; [by right|reflexivity|reflexivity|lia|lia|].
  destruct H as [H1 H2]; [intros k Hk; assert (k = 0 \/ k = 1 \/ k = 2) as [-> | [-> | ->]] by lia; reflexivity|].
  assert (E : run (app501_step 64 4096) one_round app501_first = Next after_round) by (vm_compute; reflexivity).
  split; [exact E|]. split; [exact (proj1 (H2 after_round E))|]. split; [exact H1|].
  destruct (app501_returns 64 0x80001000 one_round (repeat 0 54) (repeat 0 6) 0 0) as [_ H]; [by right|reflexivity|reflexivity|lia|lia|].
  apply H. intros Hfit. specialize (Hfit 0 ltac:(lia)). vm_compute in Hfit. discriminate Hfit.
Defined.

(** With pointers of 32 bits every address survives; with 64, those of the first and of
    the last two gigabytes. *)
Lemma int_address_32 a : 0 <= a < 2 ^ 32 - 8 -> int_address 32 a.
Proof. intros Ha k Hk. change (2 ^ 32) with 4294967296 in *. unfold s32. lia. Qed.
Lemma int_address_64 a : 0 <= a < 2 ^ 64 - 8 -> int_address 64 a <-> a + 8 < 2 ^ 31 \/ 2 ^ 64 - 2 ^ 31 <= a.
Proof.
  unfold int_address, s32. change (2 ^ 64) with 18446744073709551616. change (2 ^ 31) with 2147483648. intros Ha. split.
  - intros Hk. pose proof (Hk 0 ltac:(lia)). pose proof (Hk 2 ltac:(lia)). lia.
  - intros Hr k Hk. lia.
Qed.

(** A consumer whose wait ends by its limit shows what nobody produced. *)
Example timeout_shows : state_of (run (app501_step 64 4096) (repeat (0%nat, CRun) 2 ++ [(2%nat, CRun); (2%nat, CTimeout)] ++ repeat (2%nat, CRun) 8) app501_first) =
  ([], [[0; 0; 0; 0; 0; 0]]).
Proof. vm_compute. reflexivity. Qed.

(** The second session, with the indices the first one left: what is shown first is not
    what was produced, without a time limit. *)
Example second_session : (0 + 20) mod 9 = 2 /\ (0 + 66) mod 9 = 3 /\
  state_of (run (app501_step 64 4096) one_round (app501 (repeat 0 54) (repeat 0 6) 3 2)) = ([[1; 2; 3; 4; 5; 6]], [[0; 0; 0; 0; 0; 0]]).
Proof. split; [|split]; vm_compute; reflexivity. Qed.

(** An array that an [int] cannot address: the first line of a consumer goes wrong. *)
Example address_cut : run (app501_step 64 0x80001000) (repeat (0%nat, CRun) 2 ++ [(2%nat, CRun)]) app501_first = Crashed.
Proof. vm_compute. reflexivity. Qed.
