(* ===== verification/App500.v ===== *)
(** app500 (src/pus/exp/app500/myapp.c): a publisher and two subscribers that share the
    file pipe0 of littlefs, with a mutex around every use of it.

    littlefs is code of another project: what it promises about a file is the interface
    here.  A step is one call of the kernel or of littlefs. *)
From S2P Require Import Prelude Threads.

(** * littlefs *)

Inductive open_flags := RDONLY | RDWR_CREAT.

Class LfsLib := {
  lfs_t : Type;
  lfs_file_t : Type;
  (** [lfs_file_open] of pipe0: 0, or an error. *)
  lfs_file_open : open_flags -> lfs_t -> Z * lfs_t * lfs_file_t;
  lfs_file_write : bytes -> lfs_t -> lfs_file_t -> Z * lfs_t * lfs_file_t;
  lfs_file_read : Z -> lfs_t -> lfs_file_t -> bytes * lfs_file_t;
  (** With [LFS_SEEK_CUR]. *)
  lfs_file_seek : Z -> lfs_t -> lfs_file_t -> Z * lfs_file_t;
  lfs_file_tell : lfs_t -> lfs_file_t -> Z;
  lfs_file_size : lfs_t -> lfs_file_t -> Z;
  lfs_file_close : lfs_t -> lfs_file_t -> Z * lfs_t }.

(** What littlefs promises when the device works: [stored] is what pipe0 holds, if it is
    there; an open file has contents and a position, and may be written or not. *)
Class LfsLibOk `{LfsLib} := {
  stored : lfs_t -> option bytes;
  contents : lfs_file_t -> bytes;
  position : lfs_file_t -> Z;
  writable : lfs_file_t -> bool;
  open_absent : forall fs st fs' f, stored fs = None -> lfs_file_open RDONLY fs = (st, fs', f) -> st <> 0 /\ stored fs' = None;
  open_present : forall fs b st fs' f, stored fs = Some b -> lfs_file_open RDONLY fs = (st, fs', f) ->
    st = 0 /\ stored fs' = Some b /\ contents f = b /\ position f = 0 /\ writable f = false;
  open_create : forall fs st fs' f, lfs_file_open RDWR_CREAT fs = (st, fs', f) ->
    st = 0 /\ stored fs' = Some (default [] (stored fs)) /\ contents f = default [] (stored fs) /\ position f = 0 /\ writable f = true;
  write_ok : forall bs fs f st fs' f', writable f = true -> 0 <= position f <= zlen (contents f) -> lfs_file_write bs fs f = (st, fs', f') ->
    stored fs' = stored fs /\ position f' = position f + zlen bs /\ writable f' = true /\
    contents f' = take (Z.to_nat (position f)) (contents f) ++ bs ++ drop (Z.to_nat (position f + zlen bs)) (contents f);
  read_ok : forall n fs f d f', 0 <= n -> lfs_file_read n fs f = (d, f') ->
    d = take (Z.to_nat n) (drop (Z.to_nat (position f)) (contents f)) /\ position f' = position f + zlen d /\
    contents f' = contents f /\ writable f' = writable f;
  seek_ok : forall n fs f r f', 0 <= position f + n -> lfs_file_seek n fs f = (r, f') ->
    position f' = position f + n /\ contents f' = contents f /\ writable f' = writable f;
  tell_ok : forall fs f, lfs_file_tell fs f = position f;
  size_ok : forall fs f, lfs_file_size fs f = zlen (contents f);
  close_ok : forall fs f st fs', lfs_file_close fs f = (st, fs') -> stored fs' = if writable f then Some (contents f) else stored fs }.

Section app500.
Context `{KernelSync} `{LfsLib}.

(** lib/littlefs/littlefs.c. *)
Definition lfs_file_available (fs : lfs_t) (f : lfs_file_t) : Z :=
  let pos := lfs_file_tell fs f in
  if pos <? 0 then 0
  else
    let size := lfs_file_size fs f in
    if size <? 0 then 0 else size - pos.

(** * Data *)

Inductive worker := Pub500 | Sub500 | Sub500_2.
(** Where a thread is: at the head of the loop (and the mutex), at the open, at the
    release after an open that failed, at the first and the second write, at the read,
    at the seek, at the test, at the close, at the release; returned, with [true] from
    the loop that was left by [break]. *)
Inductive place := ALoop | AOpen | AGiveUp | AWrite | AWriteEnd | ARead | ASeek | ATest | AClose | ARelease | AEnd (left : bool).
(** [w_data] is the array of a subscriber, the block of the publisher. *)
Record worker_t := mk_worker { w_routine : worker; w_i : Z; w_file : option lfs_file_t; w_data : bytes; w_place : place }.
Inductive pipe_line := LPub (i : Z) (data : bytes) | LSub (i : Z) (data : bytes) | LSub2 (i : Z) (data : bytes).

Inductive command_place := Start (k : Z) | Await (k : Z) | Done.
Record pipe := mk_pipe { fs : lfs_t; pipe_lock : mutex; workers : list worker_t; command : command_place; shown : list pipe_line }.

(** A step goes on; [malloc] has no memory; [rand] gives these six numbers. *)
Inductive event := Go | NoMemory | Random (rs : list Z).

Definition go_to (p : place) (w : worker_t) : worker_t := mk_worker (w_routine w) (w_i w) (w_file w) (w_data w) p.
Definition with_file (f : lfs_file_t) (p : place) (w : worker_t) : worker_t := mk_worker (w_routine w) (w_i w) (Some f) (w_data w) p.
Definition next_turn (w : worker_t) : worker_t := mk_worker (w_routine w) (w_i w + 1) (w_file w) (w_data w) ALoop.
Definition with_data (d : bytes) (w : worker_t) : worker_t := mk_worker (w_routine w) (w_i w) (w_file w) d (w_place w).
Definition turns (r : worker) : Z := match r with Pub500 => 10 | Sub500 => 12 | Sub500_2 => 11 end.

(** [gen_rdm_bytestream (6)]: a block from [malloc] that is not tested, and not freed by
    the caller. *)
Definition gen_rdm_bytestream (e : event) : outcome bytes :=
  match e with
  | NoMemory => Crashed
  | Random rs => if (length rs =? 6)%nat then Next (map u8 rs) else Blocked
  | Go => Blocked
  end.

(** * The threads *)

Definition pub500 (t : nat) (e : event) (w : worker_t) (l : lfs_t) (m : mutex) : outcome (worker_t * lfs_t * mutex * list pipe_line) :=
  match w_place w with
  | ALoop =>
      if w_i w <? 10 then m ← wait (mutex_acquire t m); Next (go_to AOpen w, l, m, [])
      else Next (go_to (AEnd false) w, l, m, [])
  | AOpen =>
      let '(st, l, f) := lfs_file_open RDWR_CREAT l in
      if negb (st =? 0) then Next (with_file f AGiveUp w, l, m, []) else Next (with_file f AWrite w, l, m, [])
  | AGiveUp => Next (go_to (AEnd false) w, l, mutex_release t m, [])
  | AWrite =>
      param ← gen_rdm_bytestream e;
      f ← access (w_file w);
      let '(_, l, f) := lfs_file_write param l f in
      Next (with_file f AWriteEnd (with_data param w), l, m, [])
  | AWriteEnd =>
      f ← access (w_file w);
      let '(_, l, f) := lfs_file_write [10] l f in
      Next (with_file f AClose w, l, m, [LPub (w_i w + 1) (w_data w)])
  | AClose => f ← access (w_file w); let '(_, l) := lfs_file_close l f in Next (go_to ARelease w, l, m, [])
  | ARelease => Next (next_turn w, l, mutex_release t m, [])
  | ARead | ASeek | ATest | AEnd _ => Blocked
  end.

(** The two subscribers have the same loop with other bounds and texts.  The array
    keeps what was in it when fewer bytes are read. *)
Definition subscriber (bound : Z) (text : Z -> bytes -> pipe_line) (t : nat) (w : worker_t) (l : lfs_t) (m : mutex) :
    outcome (worker_t * lfs_t * mutex * list pipe_line) :=
  match w_place w with
  | ALoop =>
      if w_i w <? bound then m ← wait (mutex_acquire t m); Next (go_to AOpen w, l, m, [])
      else Next (go_to (AEnd false) w, l, m, [])
  | AOpen =>
      let '(st, l, f) := lfs_file_open RDONLY l in
      if negb (st =? 0) then Next (with_file f AGiveUp w, l, m, []) else Next (with_file f ARead w, l, m, [])
  | AGiveUp => Next (go_to (AEnd false) w, l, mutex_release t m, [])
  | ARead =>
      f ← access (w_file w);
      let '(d, f) := lfs_file_read 6 l f in
      let data := d ++ drop (length d) (w_data w) in
      Next (with_file f ASeek (with_data data w), l, m, [text (w_i w + 1) data])
  | ASeek => f ← access (w_file w); let '(_, f) := lfs_file_seek 1 l f in Next (with_file f ATest w, l, m, [])
  | ATest =>
      f ← access (w_file w);
      if lfs_file_available l f =? 0 then Next (go_to (AEnd true) w, l, m, []) else Next (go_to AClose w, l, m, [])
  | AClose => f ← access (w_file w); let '(_, l) := lfs_file_close l f in Next (go_to ARelease w, l, m, [])
  | ARelease => Next (next_turn w, l, mutex_release t m, [])
  | AWrite | AWriteEnd | AEnd _ => Blocked
  end.
Definition sub500 := subscriber 12 LSub.
Definition sub500_2 := subscriber 11 LSub2.

Definition work (t : nat) (e : event) (w : worker_t) (l : lfs_t) (m : mutex) :=
  match w_routine w with Pub500 => pub500 t e w l m | Sub500 => sub500 t w l m | Sub500_2 => sub500_2 t w l m end.

(** * The command *)

(** What is in the array [data] of a thread before it is written. *)
Context (stack : bytes).

Definition worker_create (k : Z) : worker_t :=
  mk_worker (if k =? 0 then Pub500 else if k =? 1 then Sub500 else Sub500_2) 0 None stack ALoop.

Definition app500_main (s : pipe) : outcome pipe :=
  match command s with
  | Start k =>
      Next (mk_pipe (fs s) (pipe_lock s) (workers s ++ [worker_create k]) (if k <? 2 then Start (k + 1) else Await 0) (shown s))
  | Await k =>
      w ← access (znth (workers s) k);
      match w_place w with
      | AEnd _ => Next (mk_pipe (fs s) (pipe_lock s) (workers s) (if k <? 2 then Await (k + 1) else Done) (shown s))
      | _ => Blocked
      end
  | Done => Blocked
  end.

Definition app500_step (t : nat) (e : event) (s : pipe) : outcome pipe :=
  match t with
  | O => app500_main s
  | S n =>
      w ← wait (workers s !! n);
      '(w', l, m, ls) ← work t e w (fs s) (pipe_lock s);
      Next (mk_pipe l m (<[n := w']> (workers s)) (command s) (shown s ++ ls))
  end.

(** [app500], from the file system that was mounted. *)
Definition app500 (l : lfs_t) : pipe := mk_pipe l mutex_init [] (Start 0) [].
End app500.
