(* ===== verification/App500Spec.v ===== *)
(** app500: the first subscriber that gets something to read leaves its loop without
    giving the mutex back, so there is at most one line of a subscriber in a session,
    and when pipe0 is there from the start the command never returns. *)
From S2P Require Import Prelude Threads App500.

Section spec.
Context `{KernelSyncOk} `{LfsLibOk} (stack : bytes).

Definition holding (w : worker_t) : Prop := match w_place w with ALoop | AEnd false => False | _ => True end.
#[local] Instance holding_dec w : Decision (holding w).
Proof. unfold holding. destruct (w_place w) as [| | | | | | | | | |[]]; apply _. Defined.
(** Whether a subscriber has shown what it read in this turn. *)
Definition has_read (w : worker_t) : nat := match w_place w with ASeek | ATest | AEnd true => 1 | _ => 0 end.

(** What the file of an open pipe holds at each place; [old] is whether pipe0 is there. *)
Definition file_ok (w : worker_t) (l : lfs_t) : Prop :=
  match w_place w with
  | ALoop | AEnd false => True
  | AOpen | ARelease => forall b, stored l = Some b -> zlen b = 7
  | AGiveUp => stored l = None
  | AWrite => exists f b, w_file w = Some f /\ stored l = Some b /\ writable f = true /\ position f = 0 /\ (zlen (contents f) = 0 \/ zlen (contents f) = 7)
  | AWriteEnd => exists f b, w_file w = Some f /\ stored l = Some b /\ writable f = true /\ position f = 6 /\ (zlen (contents f) = 6 \/ zlen (contents f) = 7)
  | AClose => w_routine w = Pub500 /\ exists f b, w_file w = Some f /\ stored l = Some b /\ writable f = true /\ zlen (contents f) = 7
  | ARead => exists f, w_file w = Some f /\ stored l = Some (contents f) /\ writable f = false /\ position f = 0 /\ zlen (contents f) = 7
  | ASeek => exists f, w_file w = Some f /\ stored l = Some (contents f) /\ writable f = false /\ position f = 6 /\ zlen (contents f) = 7
  | ATest => exists f, w_file w = Some f /\ stored l = Some (contents f) /\ writable f = false /\ position f = 7 /\ zlen (contents f) = 7
  | AEnd true => w_routine w <> Pub500 /\ forall b, stored l = Some b -> zlen b = 7
  end.

(** The pipe while nobody holds the mutex. *)
Definition resting (l : lfs_t) : Prop := forall b, stored l = Some b -> zlen b = 7.

(** A subscriber is still in its first turn, and ends only by leaving the loop, unless
    there was no file. *)
Definition turn_ok (present : bool) (n : nat) (w : worker_t) : Prop :=
  w_routine w = w_routine (worker_create stack (Z.of_nat n)) /\
  match w_routine w with
  | Pub500 => match w_place w with ARead | ASeek | ATest | AGiveUp | AEnd true => False | _ => True end
  | _ => w_i w = 0 /\ match w_place w with AWrite | AWriteEnd | AClose | ARelease => False | AGiveUp | AEnd false => present = false | _ => True end
  end.

Definition sub_texts (ls : list pipe_line) : list bytes := omap (fun x => match x with LPub _ _ => None | LSub _ d | LSub2 _ d => Some d end) ls.

(** What a step of a thread keeps. *)
Record step_ok (present : bool) (t : nat) (w : worker_t) (l : lfs_t) (m : mutex) (w' : worker_t) (l' : lfs_t) (m' : mutex) (ls : list pipe_line) : Prop := {
  so_lock : (m' = m /\ (holding w' <-> holding w)) \/ (~ holding w /\ holding w' /\ mutex_acquire t m = Some m') \/
    (holding w /\ ~ holding w' /\ m' = mutex_release t m);
  so_same : ~ holding w -> l' = l;
  so_rest : holding w -> ~ holding w' -> resting l';
  so_present : stored l <> None -> stored l' <> None;
  so_file : file_ok w' l';
  so_turn : forall n, turn_ok present n w -> turn_ok present n w';
  so_read : has_read w' = (has_read w + length (sub_texts ls))%nat }.

Lemma available_end l f : position f = zlen (contents f) -> lfs_file_available l f = 0.
Proof.
  intros Hp. unfold lfs_file_available. rewrite tell_ok, size_ok, Hp. pose proof (zlen_nonneg (contents f)).
  rewrite (proj2 (Z.ltb_ge _ 0)) by done. lia.
Qed.

(** The first write makes six or seven bytes, the second seven. *)
Lemma written_length (p : Z) (c bs : bytes) : 0 <= p <= zlen c ->
  zlen (take (Z.to_nat p) c ++ bs ++ drop (Z.to_nat (p + zlen bs)) c) = Z.max (p + zlen bs) (zlen c).
Proof. intros Hp. unfold zlen in *. rewrite !length_app, length_take, length_drop. lia. Qed.

Lemma param_length e b : gen_rdm_bytestream e = Next b -> zlen b = 6.
Proof.
  unfold gen_rdm_bytestream. destruct e as [| |rs]; try done. destruct (length rs =? 6)%nat eqn:E; [|done]. intros [= <-].
  apply Nat.eqb_eq in E. unfold zlen. rewrite length_map. lia.
Qed.

Ltac step_parts Ew :=
  split; unfold holding, resting, file_ok, turn_ok, has_read, sub_texts; cbn [w_place w_routine w_i w_file w_data go_to with_file with_data next_turn length omap list_omap];
  rewrite ?Ew; try tauto; try done; try solve [match type of Ew with w_place ?x = _ => destruct (w_routine x); tauto end].

Lemma pub500_ok present t e w l m w' l' m' ls : w_routine w = Pub500 -> file_ok w l -> (holder m = None -> resting l) ->
  pub500 t e w l m = Next (w', l', m', ls) -> step_ok present t w l m w' l' m' ls.
Proof.
  intros Hr Hf Hm. unfold pub500. destruct (w_place w) as [| | | | | | | | | |left] eqn:Ew; unfold file_ok in Hf; rewrite Ew in Hf; try done.
  - destruct (w_i w <? 10).
    + destruct (mutex_acquire t m) as [m1|] eqn:Em; [|done]. intros [= <- <- <- <-]. step_parts Ew; rewrite ?Hr; try tauto.
      by apply Hm, (acquire_inv t m m1).
    + intros [= <- <- <- <-]. step_parts Ew; rewrite ?Hr; try tauto.
  - destruct (lfs_file_open RDWR_CREAT l) as [[st l1] f] eqn:Eo. destruct (open_create _ _ _ _ Eo) as (-> & Hst & Hc & Hp & Hw). cbn [Z.eqb negb].
    intros [= <- <- <- <-]. step_parts Ew; rewrite ?Hr; try tauto.
    + by rewrite Hst.
    + exists f, (default [] (stored l)). split; [done|]. split; [done|]. split; [done|]. split; [done|]. rewrite Hc.
      destruct (stored l) as [b|]; [right; by apply Hf|by left].
  - intros [= <- <- <- <-]. step_parts Ew; rewrite ?Hr; try tauto. intros _ _ b. by rewrite Hf.
  - destruct (gen_rdm_bytestream e) as [| |param] eqn:Eg; [done|done|]. destruct Hf as (f & b & Ef & Hst & Hw & Hp & Hc). rewrite Ef. cbn.
    destruct (lfs_file_write param l f) as [[st l1] f1] eqn:Ewr. pose proof (zlen_nonneg (contents f)).
    destruct (write_ok _ _ _ _ _ _ Hw ltac:(lia) Ewr) as (Hst1 & Hp1 & Hw1 & Hc1). pose proof (param_length _ _ Eg) as Hl.
    intros [= <- <- <- <-]. step_parts Ew; rewrite ?Hr; try tauto.
    + by rewrite Hst1.
    + exists f1, b. split; [done|]. split; [congruence|]. split; [done|]. split; [lia|]. rewrite Hc1, written_length by lia. lia.
  - destruct Hf as (f & b & Ef & Hst & Hw & Hp & Hc). rewrite Ef. cbn.
    destruct (lfs_file_write [10] l f) as [[st l1] f1] eqn:Ewr.
    destruct (write_ok _ _ _ _ _ _ Hw ltac:(lia) Ewr) as (Hst1 & Hp1 & Hw1 & Hc1).
    intros [= <- <- <- <-]. step_parts Ew; rewrite ?Hr; try tauto.
    + by rewrite Hst1.
    + split; [done|]. exists f1, b. split; [done|]. split; [congruence|]. split; [done|]. rewrite Hc1, written_length by lia.
      change (zlen [10]) with 1. lia.
  - destruct Hf as (_ & f & b & Ef & Hst & Hw & Hc). rewrite Ef. cbn. destruct (lfs_file_close l f) as [st l1] eqn:Ec.
    apply close_ok in Ec. rewrite Hw in Ec. intros [= <- <- <- <-]. step_parts Ew; rewrite ?Hr; try tauto.
    + by rewrite Ec.
    + intros b1. rewrite Ec. by intros [= <-].
  - intros [= <- <- <- <-]. step_parts Ew; rewrite ?Hr; try tauto.
Qed.

Lemma sub_ok present bound text t w l m w' l' m' ls : w_routine w <> Pub500 -> 0 < bound -> (forall i d, text i d = LSub i d \/ text i d = LSub2 i d) ->
  (exists n, turn_ok present n w) -> (present = true -> stored l <> None) ->
  file_ok w l -> (holder m = None -> resting l) ->
  subscriber bound text t w l m = Next (w', l', m', ls) -> step_ok present t w l m w' l' m' ls.
Proof.
  intros Hr Hbound Htext [n0 [_ Ht]] Hpres Hf Hm. assert (Hi : w_i w = 0) by (destruct (w_routine w); tauto).
  unfold subscriber. destruct (w_place w) as [| | | | | | | | | |left] eqn:Ew; unfold file_ok in Hf; rewrite Ew in Hf; try done.
  - rewrite Hi, (proj2 (Z.ltb_lt 0 bound)) by done. destruct (mutex_acquire t m) as [m1|] eqn:Em; [|done]. intros [= <- <- <- <-]. step_parts Ew.
    + by apply Hm, (acquire_inv t m m1).
  - destruct (lfs_file_open RDONLY l) as [[st l1] f] eqn:Eo. destruct (stored l) as [b|] eqn:Es.
    + destruct (open_present _ _ _ _ _ Es Eo) as (-> & Hst & Hc & Hp & Hw). cbn [Z.eqb negb]. intros [= <- <- <- <-]. step_parts Ew.
      * by rewrite Hst.
      * exists f. rewrite Hc. split; [done|]. split; [done|]. split; [done|]. split; [done|]. by apply Hf.
    + destruct (open_absent _ _ _ _ Es Eo) as [Hst Hs']. rewrite (proj2 (Z.eqb_neq st 0) Hst). cbn [negb]. intros [= <- <- <- <-]. step_parts Ew.
      destruct (w_routine w); [done|..]; destruct present; try tauto; by destruct (Hpres eq_refl).
  - intros [= <- <- <- <-]. step_parts Ew.
    intros _ _ b. by rewrite Hf.
  - destruct Hf as (f & Ef & Hst & Hw & Hp & Hc). rewrite Ef. cbn. destruct (lfs_file_read 6 l f) as [d f1] eqn:Er.
    destruct (read_ok 6 _ _ _ _ ltac:(lia) Er) as (-> & Hp1 & Hc1 & Hw1). intros [= <- <- <- <-]. step_parts Ew.
    + exists f1. rewrite Hc1, Hw1. split; [done|]. split; [done|]. split; [done|]. split; [|done]. rewrite Hp1, Hp. unfold zlen in *. rewrite length_take, length_drop. lia.
    + by match goal with |- context [text ?i ?d] => destruct (Htext i d) as [-> | ->] end.
  - destruct Hf as (f & Ef & Hst & Hw & Hp & Hc). rewrite Ef. cbn. destruct (lfs_file_seek 1 l f) as [r f1] eqn:Er.
    assert (Hnn : 0 <= position f + 1) by lia. destruct (seek_ok 1 l f _ _ Hnn Er) as (Hp1 & Hc1 & Hw1). intros [= <- <- <- <-]. step_parts Ew.
    + exists f1. rewrite Hc1, Hw1. split; [done|]. split; [done|]. split; [done|]. split; [lia|done].
  - destruct Hf as (f & Ef & Hst & Hw & Hp & Hc). rewrite Ef. cbn. rewrite available_end by lia. cbn [Z.eqb]. intros [= <- <- <- <-]. step_parts Ew.
    + split; [done|]. intros b. rewrite Hst. by intros [= <-].
  - by destruct Hf.
  - destruct (w_routine w); [done|..]; tauto.
Qed.
Lemma work_ok present n e w l m w' l' m' ls : turn_ok present n w -> (present = true -> stored l <> None) ->
  file_ok w l -> (holder m = None -> resting l) -> work (S n) e w l m = Next (w', l', m', ls) -> step_ok present (S n) w l m w' l' m' ls.
Proof.
  intros Ht Hp Hf Hm. unfold work. destruct (w_routine w) eqn:Er.
  - by apply pub500_ok.
  - apply sub_ok; [by rewrite Er|lia|by left|by exists n|done|done|done].
  - apply sub_ok; [by rewrite Er|lia|by right|by exists n|done|done|done].
Qed.

(** * Every state *)

Record pipe_ok (present : bool) (s : pipe) : Prop := {
  po_lock : lock_ok holding (workers s) (pipe_lock s);
  po_turn : each (turn_ok present) (workers s);
  po_file : each (fun _ w => file_ok w (fs s)) (workers s);
  po_rest : holder (pipe_lock s) = None -> resting (fs s);
  po_present : present = true -> stored (fs s) <> None;
  po_read : length (sub_texts (shown s)) = total has_read (workers s);
  po_command : match command s with
    | Start k => 0 <= k <= 2 /\ zlen (workers s) = k
    | Await k => 0 <= k <= 2 /\ zlen (workers s) = 3 /\ each (fun n w => Z.of_nat n < k -> exists left, w_place w = AEnd left) (workers s)
    | Done => zlen (workers s) = 3 /\ each (fun _ w => exists left, w_place w = AEnd left) (workers s)
    end }.

Lemma not_holding_file w l : ~ holding w -> file_ok w l.
Proof. unfold holding, file_ok. destruct (w_place w) as [| | | | | | | | | |[]]; tauto. Qed.
Lemma work_running n e w l m r : work n e w l m = Next r -> forall left, w_place w <> AEnd left.
Proof. unfold work, pub500, sub500, sub500_2, subscriber. intros Hw left E. rewrite E in Hw. by destruct (w_routine w). Qed.

Lemma main_pipe_ok present s s' : pipe_ok present s -> app500_main stack s = Next s' -> pipe_ok present s'.
Proof.
  intros [Hl Ht Hf Hr Hp Hrd Hc]. unfold app500_main. destruct (command s) as [k|k|]; [| |done].
  - intros [= <-]. destruct Hc as [Hk Hlen]. split; cbn [workers pipe_lock fs shown command]; try done.
    + apply lock_ok_snoc; [by intros []|done].
    + apply each_snoc; [done|]. split; [unfold zlen in Hlen; by rewrite Hlen|]. unfold worker_create. cbn.
      destruct (k =? 0); [done|]. by destruct (k =? 1).
    + by apply each_snoc.
    + rewrite total_app, Hrd. unfold total at 3. cbn. lia.
    + unfold zlen in *. rewrite length_app. cbn. destruct (k <? 2) eqn:E; [lia|]. split; [lia|]. split; [lia|]. intros n w _ Hn. lia.
  - destruct Hc as (Hk & Hlen & Hj). destruct (znth (workers s) k) as [w|] eqn:Ew; [|done]. cbn.
    destruct (w_place w) as [| | | | | | | | | |left] eqn:Ep; try done. intros [= <-]. apply znth_Some in Ew as [_ Ew].
    assert (Hj' : each (fun n w => Z.of_nat n < k + 1 -> exists left, w_place w = AEnd left) (workers s)).
    { intros n w1 Hn Hlt. destruct (decide (Z.of_nat n = k)) as [E|E]; [|apply (Hj n w1 Hn); lia].
      replace (Z.to_nat k) with n in Ew by lia. simplify_eq. by exists left. }
    split; cbn [workers pipe_lock fs shown command]; try done. destruct (k <? 2) eqn:E; [split; [lia|by split]|]. split; [done|].
    intros n w1 Hn. apply (Hj' n w1 Hn). apply lookup_lt_Some in Hn. unfold zlen in Hlen. lia.
Qed.

Lemma sub_texts_app ls1 ls2 : sub_texts (ls1 ++ ls2) = sub_texts ls1 ++ sub_texts ls2.
Proof. apply omap_app. Qed.

Lemma pipe_step_ok present t e s s' : pipe_ok present s -> app500_step stack t e s = Next s' -> pipe_ok present s'.
Proof.
  intros Hok Hs. destruct t as [|n]; [by apply (main_pipe_ok present s)|]. cbn [app500_step] in Hs.
  destruct (workers s !! n) as [w|] eqn:Ew; [|done]. cbn in Hs.
  destruct (work (S n) e w (fs s) (pipe_lock s)) as [| |[[[w' l] m] ls]] eqn:Es; [done|done|]. injection Hs as <-.
  pose proof Hok as [Hl Ht Hf Hr Hp Hrd Hc]. pose proof (work_running _ _ _ _ _ _ Es) as Hrun.
  destruct (work_ok present n e w (fs s) (pipe_lock s) w' l m ls (Ht n w Ew) Hp (Hf n w Ew) Hr Es) as [Sl Ss Sr Sp Sf St Srd].
  assert (Hl' : lock_ok holding (<[n := w']> (workers s)) m) by (by eapply lock_ok_step).
  split; cbn [workers pipe_lock fs shown command].
  - done.
  - apply each_insert; [done|]. by apply St, Ht.
  - intros m2 w2. rewrite list_lookup_insert_Some. intros [(<- & <- & _)|[Hne Hw2]]; [done|].
    destruct (decide (holding w)) as [Hh|Hh]; [|rewrite (Ss Hh); by apply (Hf m2 w2)].
    apply not_holding_file. intros Hh2. by destruct Hne; apply (lock_ok_unique _ _ _ _ _ _ _ Hl Ew Hw2).
  - intros Hnone. destruct (decide (holding w)) as [Hh|Hh].
    + apply Sr; [done|]. intros Hh'. assert (E : holder m = Some (S n)) by (apply (lk_holder _ _ _ Hl' n w'); [|done]; apply list_lookup_insert_eq; by eapply lookup_lt_Some). congruence.
    + rewrite (Ss Hh). destruct Sl as [[-> _]|[(_ & _ & Ha)|(Hh' & _ & _)]]; [by apply Hr|apply acquire_inv in Ha as [_ Ha]; congruence|done].
  - intros E. by apply Sp, Hp.
  - rewrite sub_texts_app, length_app, Hrd. pose proof (total_insert has_read _ _ _ w' Ew). lia.
  - unfold zlen in *. rewrite length_insert. destruct (command s) as [k|k|]; [done| |].
    + destruct Hc as (Hk & Hlen & Hj). split; [done|]. split; [done|]. apply each_insert; [done|]. intros Hlt.
      destruct (Hj n w Ew Hlt) as [left E]. by destruct (Hrun left).
    + destruct Hc as (Hlen & Hj). destruct (Hj n w Ew) as [left E]. by destruct (Hrun left).
Qed.
Lemma app500_start l present : resting l -> (present = true -> stored l <> None) -> pipe_ok present (app500 l).
Proof. intros Hr Hp. by split; cbn; [apply lock_ok_nil|..]. Qed.

(** Only one thread can be where a subscriber is after it has read. *)
Lemma one_reader present s : pipe_ok present s -> (length (sub_texts (shown s)) <= 1)%nat.
Proof.
  intros [Hl _ _ _ _ Hrd _]. rewrite Hrd. apply total_at_most_one.
  - intros w. unfold has_read. destruct (w_place w) as [| | | | | | | | | |[]]; lia.
  - intros n1 n2 w1 w2 H1' H2' R1 R2. assert (Hh : forall w, has_read w = 1%nat -> holding w).
    { intros w. unfold has_read, holding. by destruct (w_place w) as [| | | | | | | | | |[]]. }
    apply (lock_ok_unique _ _ _ _ _ _ _ Hl H1' H2'); by apply Hh.
Qed.

(** Two subscribers cannot both have left their loops. *)
Lemma never_done s : pipe_ok true s -> command s <> Done.
Proof.
  intros [Hl Ht _ _ _ _ Hc] E. rewrite E in Hc. destruct Hc as [Hlen He].
  destruct (workers s) as [|w0 [|w1 [|w2 [|]]]] eqn:Ew; unfold zlen in Hlen; cbn in Hlen; try lia.
  assert (Hh : forall n w, (1 <= n)%nat -> [w0; w1; w2] !! n = Some w -> holding w).
  { intros n w Hn Hw. destruct (He n w Hw) as [left El]. destruct (Ht n w Hw) as [Hr Hp]. rewrite El in Hp. unfold holding. rewrite El.
    destruct left; [done|]. exfalso. unfold worker_create in Hr. rewrite (proj2 (Z.eqb_neq (Z.of_nat n) 0)) in Hr by lia. cbn in Hr.
    destruct (Z.of_nat n =? 1); rewrite Hr in Hp; by destruct Hp. }
  pose proof (lock_ok_unique _ _ _ 1 2 w1 w2 Hl eq_refl eq_refl (Hh 1%nat w1 ltac:(lia) eq_refl) (Hh 2%nat w2 ltac:(lia) eq_refl)). lia.
Qed.

(** C18: the subscribers of a session show at most one item between them, and when pipe0
    is there from the start (as every session with an item leaves it) the command waits
    for them forever, whatever the kernel runs when. *)
Theorem app500_hangs sched l s : (forall b, stored l = Some b -> zlen b = 7) -> run (app500_step stack) sched (app500 l) = Next s ->
  (length (sub_texts (shown s)) <= 1)%nat /\ (stored l <> None -> command s <> Done).
Proof.
  intros Hl Hr. assert (Hok : forall present, (present = true -> stored l <> None) -> pipe_ok present s).
  { intros present Hp. eapply (run_invariant (app500_step stack) (fun _ => True) (pipe_ok present)); [|by apply Forall_forall|by apply app500_start|exact Hr].
    intros t c s1 s2 _. apply pipe_step_ok. }
  split; [apply (one_reader false), Hok; done|]. intros Hp. apply never_done, Hok. by intros _.
Qed.
End spec.

(** * A file system *)

(** The contents of pipe0; an open file is its contents, the position, and whether it
    may be written. *)
#[export] Instance plain_lfs : LfsLib := {
  lfs_t := option bytes; lfs_file_t := bytes * Z * bool;
  lfs_file_open := fun fl fs =>
    match fl, fs with
    | RDONLY, None => (-2, None, ([], 0, false))
    | RDONLY, Some b => (0, fs, (b, 0, false))
    | RDWR_CREAT, _ => (0, Some (default [] fs), (default [] fs, 0, true))
    end;
  lfs_file_write := fun bs fs '(c, p, w) => (zlen bs, fs, (take (Z.to_nat p) c ++ bs ++ drop (Z.to_nat (p + zlen bs)) c, p + zlen bs, w));
  lfs_file_read := fun n fs '(c, p, w) => let d := take (Z.to_nat n) (drop (Z.to_nat p) c) in (d, (c, p + zlen d, w));
  lfs_file_seek := fun n fs '(c, p, w) => (p + n, (c, p + n, w));
  lfs_file_tell := fun fs '(c, p, w) => p;
  lfs_file_size := fun fs '(c, p, w) => zlen c;
  lfs_file_close := fun fs '(c, p, w) => (0, if w then Some c else fs) }.
#[export] Program Instance plain_lfs_ok : LfsLibOk := {|
  stored := fun fs => fs; contents := fun '(c, p, w) => c; position := fun '(c, p, w) => p; writable := fun '(c, p, w) => w |}.
Next Obligation. intros fs st fs' f -> [= <- <- <-]. done. Qed.
Next Obligation. intros fs b st fs' f -> [= <- <- <-]. done. Qed.
Next Obligation. intros fs st fs' f [= <- <- <-]. done. Qed.
Next Obligation. intros bs fs [[c p] w] st fs' [[c' p'] w'] Hw Hp [= <- <- <- <- <-]. done. Qed.
Next Obligation. intros n fs [[c p] w] d [[c' p'] w'] Hn [= <- <- <- <-]. done. Qed.
Next Obligation. intros n fs [[c p] w] r [[c' p'] w'] Hn [= <- <- <- <-]. done. Qed.
Next Obligation. by intros fs [[c p] w]. Qed.
Next Obligation. by intros fs [[c p] w]. Qed.
Next Obligation. intros fs [[c p] w] st fs' [= <- <-]. done. Qed.

(** An earlier session left this, or nothing. *)
Definition old_file : @lfs_t plain_lfs := Some [9; 9; 9; 9; 9; 9; 10].
Definition no_file : @lfs_t plain_lfs := None.

(** The publisher's first item, then the first subscriber; pipe0 is there. *)
Definition published : list (nat * event) :=
  repeat (0%nat, Go) 3 ++ repeat (1%nat, Go) 2 ++ [(1%nat, Random [1; 2; 3; 4; 5; 6])] ++ repeat (1%nat, Go) 3 ++ repeat (2%nat, Go) 5.

Definition after_published : pipe :=
  Eval vm_compute in match run (app500_step []) published (app500 old_file) with Next s => s | _ => app500 old_file end.

Lemma app500_hangs_witness : run (app500_step []) published (app500 old_file) = Next after_published /\
  sub_texts (shown after_published) = [[1; 2; 3; 4; 5; 6]] /\ command after_published <> Done.
Proof.
  split; [vm_compute; reflexivity|]. split; [reflexivity|].
  apply (app500_hangs [] published old_file); [intros b E; injection E as <-; reflexivity|vm_compute; reflexivity|discriminate].
Defined.

(** With no file, and subscribers that come before the publisher has closed it, the
    command returns: they give up. *)
Definition turn : list (nat * event) := repeat (1%nat, Go) 2 ++ [(1%nat, Random [1; 2; 3; 4; 5; 6])] ++ repeat (1%nat, Go) 3.
Example fresh_returns : match run (app500_step []) (repeat (0%nat, Go) 3 ++ repeat (2%nat, Go) 3 ++ repeat (3%nat, Go) 3 ++
    concat (repeat turn 10) ++ [(1%nat, Go)] ++ repeat (0%nat, Go) 3) (app500 no_file) with
  | Next s => (command s, length (shown s), sub_texts (shown s)) | _ => (Start 0, 0%nat, []) end = (Done, 10%nat, []).
Proof. vm_compute. reflexivity. Qed.
