(* ===== verification/Primet.v ===== *)
(** primet (src/pus/exp/primet/primet.c): a command that starts threads which print the
    primes of their ranges.  What the test of [is_prime] takes for a prime, and what is
    printed in every order the threads may run in. *)
From Stdlib Require Import Zdivisibility.
From S2P Require Import Prelude Threads.

(** * The test *)

(** The loop from [i]: [i < n/2]. *)
Fixpoint prime_loop (fuel : nat) (n i : Z) : option Z :=
  match fuel with
  | O => None
  | S fuel' =>
      if i <? Z.quot n 2 then if Z.rem n i =? 0 then Some 0 else prime_loop fuel' n (i + 1)
      else Some 1
  end.
Definition is_prime (n : Z) : option Z := prime_loop (S (Z.to_nat n)) n 2.

(** * The threads *)

Record prime_arg := mk_prime_arg { id : Z; st : Z; fn : Z }.
(** A thread: its argument, whether it was resumed, the counter of its loop, whether it
    has returned. *)
Record prime_thread := mk_prime_thread { parg : prime_arg; resumed : bool; counter : Z; returned : bool }.
Inductive primet_place := Creating (i : Z) | Resuming (i : Z) | Joining (i : Z) | Over.
Record primet_state := mk_primet { t : list prime_thread; place : primet_place; lines : list (Z * Z) }.

Definition ia : list Z := [0; 50; 100; 150; 200; 250].

(** A turn of the loop of [primet_worker]. *)
Definition primet_worker (th : prime_thread) : outcome (prime_thread * list (Z * Z)) :=
  if negb (resumed th) || returned th then Blocked
  else if counter th <? fn (parg th) then
    p ← access (is_prime (counter th));
    Next (mk_prime_thread (parg th) true (counter th + 1) false, if negb (p =? 0) then [(id (parg th), counter th)] else [])
  else Next (mk_prime_thread (parg th) true (counter th) true, []).

(** The command, with [tnum] threads: creates them, resumes them, waits for them. *)
Definition primet_main (tnum : Z) (s : primet_state) : outcome primet_state :=
  match place s with
  | Creating i =>
      if i <? tnum then
        a ← access (znth ia i); b ← access (znth ia (i + 1));
        Next (mk_primet (t s ++ [mk_prime_thread (mk_prime_arg i a b) false a false]) (Creating (i + 1)) (lines s))
      else Next (mk_primet (t s) (Resuming 0) (lines s))
  | Resuming i =>
      if i <? tnum then
        th ← access (znth (t s) i);
        ts ← access (zupd (t s) i (mk_prime_thread (parg th) true (counter th) (returned th)));
        Next (mk_primet ts (Resuming (i + 1)) (lines s))
      else Next (mk_primet (t s) (Joining 0) (lines s))
  | Joining i =>
      if i <? tnum then
        th ← access (znth (t s) i);
        if returned th then Next (mk_primet (t s) (Joining (i + 1)) (lines s)) else Blocked
      else Next (mk_primet (t s) Over (lines s))
  | Over => Blocked
  end.

Definition primet_step (tnum : Z) (n : nat) (_ : unit) (s : primet_state) : outcome primet_state :=
  match n with
  | O => primet_main tnum s
  | S k =>
      th ← wait (t s !! k);
      '(th', ls) ← primet_worker th;
      Next (mk_primet (<[k := th']> (t s)) (place s) (lines s ++ ls))
  end.
Definition primet : primet_state := mk_primet [] (Creating 0) [].

(** * What the test says *)

(** A prime, or one of the three other numbers whose halves leave nothing to test. *)
Definition taken_for_prime (n : Z) : Prop := Z.prime n \/ n = 0 \/ n = 1 \/ n = 4.

Lemma prime_loop_spec n fuel : forall i, 2 <= i -> 0 <= n -> 1 <= Z.of_nat fuel -> n - i < Z.of_nat fuel ->
  exists r, prime_loop fuel n i = Some r /\ ((r = 0 /\ exists d, i <= d < n / 2 /\ (d | n)) \/ (r = 1 /\ forall d, i <= d < n / 2 -> ~ (d | n))).
Proof.
  induction fuel as [|fuel IH]; intros i Hi Hn H1 Hf; [lia|].
  cbn [prime_loop]. assert (Eq : Z.quot n 2 = n / 2) by (apply Z.quot_div_nonneg; lia). rewrite Eq.
    destruct (i <? n / 2) eqn:E.
    + destruct (Z.rem n i =? 0) eqn:E0.
      * eexists. split; [done|]. left. split; [done|]. exists i. split; [lia|]. apply Z.rem_divide; lia.
      * destruct (IH (i + 1) ltac:(lia) Hn ltac:(lia) ltac:(lia)) as (r & E1 & Hr). exists r. split; [done|]. destruct Hr as [(-> & d & Hd & Hdiv)|[-> Hno]].
        -- left. split; [done|]. exists d. split; [lia|done].
        -- right. split; [done|]. intros d Hd. destruct (decide (d = i)) as [->|Hne]; [|apply Hno; lia].
           intros Hdiv. apply Z.rem_divide in Hdiv; lia.
    + eexists. split; [done|]. right. split; [done|]. intros d Hd. lia.
Qed.

(** A number from five on that has a divisor has one below its half. *)
Lemma small_divisor n d : 5 <= n -> 1 < d < n -> (d | n) -> exists d', 2 <= d' < n / 2 /\ (d' | n).
Proof.
  intros Hn Hd [q Hq]. assert (2 <= q) by nia. destruct (decide (d < n / 2)) as [Hlt|Hge]; [exists d; split; [lia|by exists q]|].
  exists 2. assert (q = 2 \/ 3 <= q) as [-> | H3] by lia.
  - split; [|by exists d; lia]. lia.
  - exfalso. assert (3 * d <= n) by nia. lia.
Qed.

Lemma is_prime_ok n : 0 <= n -> exists r, is_prime n = Some r /\ (r = 0 \/ r = 1) /\ (r = 1 <-> taken_for_prime n).
Proof.
  intros Hn. unfold is_prime. destruct (prime_loop_spec n (S (Z.to_nat n)) 2 ltac:(lia) Hn ltac:(lia) ltac:(lia)) as (r & E & Hr).
  exists r. split; [done|]. unfold taken_for_prime. destruct Hr as [(-> & d & Hd & Hdiv)|[-> Hno]].
  - split; [by left|]. split; [done|]. intros [[_ Hp] | [-> | [-> | ->]]]; try (cbn in Hd; lia). exfalso. apply (Hp d); [lia|done].
  - split; [by right|]. split; [|done]. intros _. destruct (decide (n < 5)) as [Hlt|Hge].
    + assert (n = 0 \/ n = 1 \/ n = 2 \/ n = 3 \/ n = 4) as [-> | [-> | [-> | [-> | ->]]]] by lia; auto using Z.prime_2, Z.prime_3.
    + left. split; [lia|]. intros d Hd Hdiv. destruct (small_divisor n d ltac:(lia) Hd Hdiv) as (d' & Hd' & Hdiv'). by destruct (Hno d' Hd').
Qed.

#[export] Instance taken_dec n : Decision (taken_for_prime n).
Proof.
  destruct (decide (0 <= n)) as [Hn|Hn].
  - destruct (decide (is_prime n = Some 1)) as [E|E]; [left|right]; destruct (is_prime_ok n Hn) as (r & Er & _ & Ht).
    + apply Ht. congruence.
    + intros Hp%Ht. congruence.
  - right. intros [[H1 _] | [-> | [-> | ->]]]; lia.
Defined.

(** * What is printed *)

Definition expected (a b : Z) : list Z := filter taken_for_prime (seqZ a (b - a)).
Definition lines_of (k : Z) (ls : list (Z * Z)) : list Z := omap (fun l : Z * Z => if l.1 =? k then Some l.2 else None) ls.

Lemma lines_of_app k ls1 ls2 : lines_of k (ls1 ++ ls2) = lines_of k ls1 ++ lines_of k ls2.
Proof. apply omap_app. Qed.
Lemma expected_snoc a c : a <= c -> expected a (c + 1) = expected a c ++ (if decide (taken_for_prime c) then [c] else []).
Proof.
  intros Hc. unfold expected. replace (c + 1 - a) with (Z.of_nat (S (Z.to_nat (c - a)))) by lia. rewrite seqZ_S.
  replace (Z.of_nat (Z.to_nat (c - a))) with (c - a) by lia. rewrite list.filter_app. f_equal. replace (a + (c - a)) with c by lia.
  unfold filter, list_filter. by case_decide.
Qed.

(** A thread between its turns; [ls] is all that was printed. *)
Record turn_ok (ls : list (Z * Z)) (k : nat) (th : prime_thread) : Prop := {
  tu_arg : parg th = mk_prime_arg (Z.of_nat k) (50 * Z.of_nat k) (50 * Z.of_nat k + 50);
  tu_counter : 50 * Z.of_nat k <= counter th <= 50 * Z.of_nat k + 50;
  tu_returned : returned th = true -> counter th = 50 * Z.of_nat k + 50;
  tu_lines : lines_of (Z.of_nat k) ls = expected (50 * Z.of_nat k) (counter th) }.

Record primet_ok (tnum : Z) (s : primet_state) : Prop := {
  pr_threads : each (turn_ok (lines s)) (t s);
  pr_ids : Forall (fun l => 0 <= l.1 < zlen (t s)) (lines s);
  pr_place : match place s with
    | Creating i => 0 <= i <= tnum /\ zlen (t s) = i
    | Resuming i => 0 <= i <= tnum /\ zlen (t s) = tnum /\ each (fun k th => Z.of_nat k < i -> resumed th = true) (t s)
    | Joining i => 0 <= i <= tnum /\ zlen (t s) = tnum /\ each (fun _ th => resumed th = true) (t s) /\
        each (fun k th => Z.of_nat k < i -> returned th = true) (t s)
    | Over => zlen (t s) = tnum /\ each (fun _ th => returned th = true) (t s)
    end }.

Definition turns_left (th : prime_thread) : nat := if returned th then 0 else S (Z.to_nat (fn (parg th) - counter th)).
Definition primet_left (tnum : Z) (s : primet_state) : nat :=
  total turns_left (t s) +
  match place s with
  | Creating i => Z.to_nat (52 * (tnum - i) + 2 * tnum + 3) | Resuming i => Z.to_nat (2 * tnum - i + 2)
  | Joining i => Z.to_nat (tnum - i + 1) | Over => 0
  end.

(** A turn of a thread. *)
Lemma worker_turn ls k th : turn_ok ls k th -> primet_worker th <> Crashed /\
  (resumed th = true -> returned th = false -> exists r, primet_worker th = Next r) /\
  forall th' ls', primet_worker th = Next (th', ls') ->
    turn_ok (ls ++ ls') k th' /\ (turns_left th' < turns_left th)%nat /\ resumed th = true /\ returned th = false /\ resumed th' = true /\
    Forall (fun l => l.1 = Z.of_nat k) ls'.
Proof.
  intros [Ha Hc Hr Hl]. unfold primet_worker. destruct (resumed th) eqn:E1; [|done]. destruct (returned th) eqn:E2; [done|]. cbn [negb orb].
  rewrite Ha. cbn [fn id]. destruct (counter th <? 50 * Z.of_nat k + 50) eqn:E3.
  - destruct (is_prime_ok (counter th) ltac:(lia)) as (r & -> & H01 & Ht). cbn. split; [done|]. split; [by eexists|].
    intros th' ls' [= <- <-]. split; [|split; [unfold turns_left; rewrite E2, Ha; cbn; lia|]].
    + split; cbn; [done|lia|done|]. rewrite lines_of_app, Hl, expected_snoc by lia. f_equal.
      destruct H01 as [-> | ->]; cbn; [rewrite decide_False; [done|]; by intros ?%Ht|].
      rewrite Z.eqb_refl. rewrite decide_True; [done|]. by apply Ht.
    + split; [done|]. split; [done|]. split; [done|]. destruct (negb (r =? 0)); by repeat constructor.
  - split; [done|]. split; [by eexists|]. intros th' ls' [= <- <-]. rewrite app_nil_r. split; [|split; [unfold turns_left; rewrite E2; cbn; lia|done]].
    split; cbn; [done|lia|lia|done].
Qed.

(** What another thread prints is not of this one. *)
Lemma turn_ok_other ls ls' k j th : turn_ok ls k th -> Forall (fun l => l.1 = Z.of_nat j) ls' -> j <> k -> turn_ok (ls ++ ls') k th.
Proof.
  intros [Ha Hc Hr Hl] Hj Hne. split; try done. rewrite lines_of_app, Hl.
  assert (E : lines_of (Z.of_nat k) ls' = []); [|by rewrite E, app_nil_r].
  unfold lines_of. induction Hj as [|l ls' E _ IH]; [done|]. cbn. rewrite E, (proj2 (Z.eqb_neq _ _)) by lia. exact IH.
Qed.

Lemma ia_entries i : 0 <= i < 5 -> znth ia i = Some (50 * i) /\ znth ia (i + 1) = Some (50 * i + 50).
Proof. intros Hi. assert (i = 0 \/ i = 1 \/ i = 2 \/ i = 3 \/ i = 4) as [-> | [-> | [-> | [-> | ->]]]] by lia; done. Qed.

Section session.
Context (tnum : Z) (Htnum : 1 <= tnum <= 5).

(** A step of the command. *)
Lemma main_turn s : primet_ok tnum s -> primet_main tnum s <> Crashed /\
  forall s', primet_main tnum s = Next s' -> primet_ok tnum s' /\ (primet_left tnum s' < primet_left tnum s)%nat.
Proof.
  intros [Ht Hi Hp]. unfold primet_main, primet_left. destruct (place s) as [i|i|i|] eqn:Ep; [| | |done].
  - destruct Hp as [Hi0 Hl]. destruct (i <? tnum) eqn:E.
    + destruct (ia_entries i ltac:(lia)) as [-> ->]. cbn. split; [done|]. intros s' [= <-]. cbn [t place lines]. split.
      * assert (Ek : i = Z.of_nat (length (t s))) by (unfold zlen in Hl; lia).
        assert (Hl' : zlen (t s ++ [mk_prime_thread (mk_prime_arg i (50 * i) (50 * i + 50)) false (50 * i) false]) = i + 1) by (rewrite zlen_app; cbn; unfold zlen in *; cbn; lia).
        split; cbn [t place lines]; [|by rewrite Hl'; eapply Forall_impl; [|exact Hi]; cbn; intros l ?; lia|split; [lia|done]].
        apply each_snoc; [done|]. split; cbn [parg counter returned]; rewrite <- ?Ek; [done|lia|done|].
        unfold expected. rewrite Z.sub_diag. cbn. clear -Hi Hl. induction Hi as [|l ls Hl1 _ IH]; [done|]. cbn. rewrite (proj2 (Z.eqb_neq _ _)) by lia. exact IH.
      * rewrite total_app. unfold total at 2, turns_left. cbn. lia.
    + split; [done|]. intros s' [= <-]. cbn [t place lines]. split; [|lia]. split; cbn [t place lines]; [done|done|]. split; [lia|]. split; [lia|]. intros k th _ ?. lia.
  - destruct Hp as (Hi0 & Hl & Hres). destruct (i <? tnum) eqn:E.
    + destruct (znth_in_range (t s) i ltac:(lia)) as [th Eth]. rewrite Eth. cbn. rewrite zupd_in_range by lia. cbn. split; [done|].
      intros s' [= <-]. cbn [t place lines]. apply znth_Some in Eth as [_ Eth]. pose proof (Ht _ _ Eth) as [Ha Hc Hr Hls]. split.
      * split; cbn [t place lines]; [by apply each_insert|unfold zlen; by rewrite length_insert|].
        split; [lia|]. split; [unfold zlen; by rewrite length_insert|]. intros k th1. rewrite list_lookup_insert_Some.
        intros [(<- & <- & _)|[Hne Hk]] Hlt; [done|]. apply (Hres k th1 Hk). lia.
      * pose proof (total_insert turns_left _ _ _ (mk_prime_thread (parg th) true (counter th) (returned th)) Eth) as Htot.
        unfold turns_left at 2 4 in Htot. cbn [returned parg counter] in Htot. lia.
    + split; [done|]. intros s' [= <-]. cbn [t place lines]. split; [|lia]. split; cbn [t place lines]; [done|done|]. split; [lia|]. split; [lia|]. split; [|intros k th _ ?; lia].
      intros k th Hk. apply (Hres k th Hk). apply lookup_lt_Some in Hk. unfold zlen in Hl. lia.
  - destruct Hp as (Hi0 & Hl & Hres & Hret). destruct (i <? tnum) eqn:E.
    + destruct (znth_in_range (t s) i ltac:(lia)) as [th Eth]. rewrite Eth. cbn. destruct (returned th) eqn:Er; [|done]. split; [done|].
      intros s' [= <-]. cbn [t place lines]. apply znth_Some in Eth as [_ Eth]. split; [|lia]. split; cbn [t place lines]; [done|done|]. split; [lia|]. split; [done|]. split; [done|].
      intros k th1 Hk Hlt. destruct (decide (Z.of_nat k = i)) as [Ei|Ei]; [|apply (Hret k th1 Hk); lia]. replace (Z.to_nat i) with k in Eth by lia. congruence.
    + split; [done|]. intros s' [= <-]. cbn [t place lines]. split; [|lia]. split; cbn [t place lines]; [done|done|]. split; [done|].
      intros k th Hk. apply (Hret k th Hk). apply lookup_lt_Some in Hk. unfold zlen in Hl. lia.
Qed.

Lemma primet_turn n c s : primet_ok tnum s -> primet_step tnum n c s <> Crashed /\
  forall s', primet_step tnum n c s = Next s' -> primet_ok tnum s' /\ (primet_left tnum s' < primet_left tnum s)%nat.
Proof.
  intros Hok. destruct n as [|k]; [by apply main_turn|]. cbn [primet_step]. destruct (t s !! k) as [th|] eqn:Eth; [|done]. cbn.
  pose proof Hok as [Ht Hi Hp]. destruct (worker_turn (lines s) k th (Ht k th Eth)) as (Hsafe & _ & Hmove).
  destruct (primet_worker th) as [| |[th' ls]] eqn:Ew; [done|done|]. cbn. split; [done|]. intros s' [= <-].
  destruct (Hmove th' ls eq_refl) as (Hth' & Hleft & Hr1 & Hr2 & Hr3 & Hids). split.
  - split; cbn [t place lines].
    + intros j th1. rewrite list_lookup_insert_Some. intros [(<- & <- & _)|[Hne Hj]]; [done|]. by apply (turn_ok_other _ _ j k), Hne; [apply Ht|].
    + unfold zlen. rewrite length_insert. apply Forall_app. split; [done|]. eapply Forall_impl; [|exact Hids]. cbn. intros l ->.
      apply lookup_lt_Some in Eth. lia.
    + unfold zlen in *. rewrite length_insert. destruct (place s) as [i|i|i|]; [done| | |].
      * destruct Hp as (Hi0 & Hl & Hres). split; [done|]. split; [done|]. by apply each_insert.
      * destruct Hp as (Hi0 & Hl & Hres & Hret). split; [done|]. split; [done|]. split; [by apply each_insert|]. apply each_insert; [done|].
        intros Hlt. pose proof (Hret k th Eth Hlt). congruence.
      * destruct Hp as (Hl & Hret). pose proof (Hret k th Eth). congruence.
  - unfold primet_left. cbn [t place]. pose proof (total_insert turns_left _ _ _ th' Eth). lia.
Qed.

(** The command has returned, or something can still happen. *)
Lemma primet_moves s : primet_ok tnum s -> place s = Over \/ exists n c s', primet_step tnum n c s = Next s'.
Proof.
  intros Hok. destruct (place s) as [i|i|i|] eqn:Ep; [right|right|right|by left].
  1,2: exists 0%nat, tt; destruct (main_turn s Hok) as [Hsafe _]; cbn [primet_step]; unfold primet_main in *; rewrite Ep in *.
  - destruct (i <? tnum); [|by eexists]. destruct (znth ia i); [|done]. cbn in *. destruct (znth ia (i + 1)); [|done]. by eexists.
  - destruct (i <? tnum); [|by eexists]. destruct (znth (t s) i) as [th|]; [|done]. cbn in *. destruct (zupd _ _ _); [|done]. by eexists.
  - pose proof Hok as [Ht _ Hp]. rewrite Ep in Hp. destruct Hp as (Hi0 & Hl & Hres & Hret). destruct (i <? tnum) eqn:E.
    + destruct (znth_in_range (t s) i ltac:(lia)) as [th Eth]. pose proof Eth as [_ Eth']%znth_Some. destruct (returned th) eqn:Er.
      * exists 0%nat, tt. cbn [primet_step]. unfold primet_main. rewrite Ep, E, Eth. cbn. rewrite Er. by eexists.
      * destruct (worker_turn _ _ _ (Ht _ _ Eth')) as (_ & Hgo & _). destruct (Hgo (Hres _ _ Eth') Er) as [[th' ls] Ew].
        exists (S (Z.to_nat i)), tt. cbn [primet_step]. rewrite Eth'. cbn. rewrite Ew. by eexists.
    + exists 0%nat, tt. cbn [primet_step]. unfold primet_main. rewrite Ep, E. by eexists.
Qed.
End session.

(** With six threads or more: no thread is ever resumed. *)
Record creating_ok (s : primet_state) : Prop := {
  cr_threads : each (fun _ th => resumed th = false) (t s);
  cr_lines : lines s = [];
  cr_place : exists i, place s = Creating i /\ 0 <= i <= 5 }.
Lemma creating_turn tnum n c s s' : 6 <= tnum -> creating_ok s -> primet_step tnum n c s = Next s' -> creating_ok s'.
Proof.
  intros Ht [Hth Hl (i & Hp & Hi)]. destruct n as [|k]; cbn [primet_step].
  - unfold primet_main. rewrite Hp, (proj2 (Z.ltb_lt i tnum)) by lia. destruct (decide (i = 5)) as [->|Hne]; [done|].
    destruct (ia_entries i ltac:(lia)) as [-> ->]. intros [= <-]. split; [by apply each_snoc|done|]. exists (i + 1). cbn. split; [done|lia].
  - destruct (t s !! k) as [th|] eqn:Et; [|done]. cbn. unfold primet_worker. by rewrite (Hth k th Et).
Qed.
Lemma sixth_crashes tnum : 6 <= tnum -> run (primet_step tnum) (repeat (0%nat, tt) 6) primet = Crashed.
Proof.
  intros Ht. assert (Hgo : forall n i s, place s = Creating i -> 0 <= i -> i + Z.of_nat n = 5 ->
    run (primet_step tnum) (repeat (0%nat, tt) (S n)) s = Crashed).
  { induction n as [|n IH]; intros i s Hp Hi Hn; cbn [repeat run primet_step]; unfold primet_main; rewrite Hp, (proj2 (Z.ltb_lt i tnum)) by lia.
    - replace i with 5 by lia. done.
    - destruct (ia_entries i ltac:(lia)) as [-> ->]. by apply (IH (i + 1)); [|lia|lia]. }
  by apply (Hgo 5%nat 0).
Qed.

(** C20: up to five threads: no run goes wrong or is longer than its bound, and it ends
    only when the command has returned; then every thread has printed, in order, the
    numbers of its range that are prime or 0, 1 or 4, whatever the kernel runs when.
    With six threads or more the command reads behind the six limits: it goes wrong
    before any thread has printed, and never returns. *)
Theorem primet_prints tnum sched :
  (1 <= tnum <= 5 -> run (primet_step tnum) sched primet <> Crashed /\
    forall s, run (primet_step tnum) sched primet = Next s -> Z.of_nat (length sched) <= 54 * tnum + 3 /\
    ((exists n c s', primet_step tnum n c s = Next s') \/
     (place s = Over /\ Forall (fun l => 0 <= l.1 < tnum) (lines s) /\
      forall k, 0 <= k < tnum -> lines_of k (lines s) = filter taken_for_prime (seqZ (50 * k) 50)))) /\
  (6 <= tnum -> run (primet_step tnum) (repeat (0%nat, tt) 6) primet = Crashed /\
    forall s, run (primet_step tnum) sched primet = Next s -> place s <> Over /\ lines s = []).
Proof.
  assert (Hall : Forall (fun tc : nat * unit => (fun _ => True) tc.2) sched) by by apply Forall_forall.
  split; intros Htnum.
  2:{ split; [by apply sixth_crashes|]. intros s Hr.
      assert (H0 : creating_ok primet) by (split; [by intros [|n] th|done|exists 0; split; [done|lia]]).
      assert (Hok : creating_ok s) by (eapply (run_invariant (primet_step tnum) (fun _ => True) creating_ok);
        [intros n c s1 s2 _ ? ?; by eapply creating_turn|exact Hall|exact H0|exact Hr]).
      destruct Hok as [_ Hl (i & Hp & _)]. by rewrite Hp. }
  assert (H0 : primet_ok tnum primet) by (split; [done|constructor|split; [lia|done]]).
  assert (Hstep : forall n c s s', True -> primet_ok tnum s -> primet_step tnum n c s = Next s' -> primet_ok tnum s').
  { intros n c s s' _ Hok Hs. by apply (primet_turn tnum Htnum n c s Hok). }
  split; [apply (run_safe _ (fun _ => True) (primet_ok tnum) Hstep); [intros n c s Hok; by apply (primet_turn tnum Htnum n c s Hok)|done|done]|].
  intros s Hr. pose proof (run_invariant _ _ _ Hstep sched _ s Hall H0 Hr) as Hok. split.
  - assert (Hdec : forall n c s s', primet_ok tnum s -> primet_step tnum n c s = Next s' -> (primet_left tnum s' < primet_left tnum s)%nat).
    { intros n c s1 s2 Hok1 Hs. by apply (primet_turn tnum Htnum n c s1 Hok1). }
    pose proof (run_bounded _ _ _ Hstep (primet_left tnum) sched Hdec _ s Hall H0 Hr) as Hl. unfold primet_left at 2 in Hl. cbn in Hl. lia.
  - destruct (primet_moves tnum Htnum s Hok) as [Ho|Hm]; [right|by left]. split; [done|]. destruct Hok as [Ht Hi Hp]. rewrite Ho in Hp.
    destruct Hp as [Hlen Hret]. split; [by rewrite Hlen in Hi|]. intros k Hk. destruct (znth_in_range (t s) k ltac:(lia)) as [th [_ Eth]%znth_Some].
    destruct (Ht _ _ Eth) as [_ _ Hc Hls]. rewrite (Hc (Hret _ _ Eth)) in Hls. rewrite Z2Nat.id in Hls by lia. rewrite Hls.
    unfold expected. f_equal. f_equal. lia.
Qed.

Lemma primet_prints_witness : (exists s, run (primet_step 1) (repeat (0%nat, tt) 4 ++ repeat (1%nat, tt) 6) primet = Next s /\
  lines s = [(0, 0); (0, 1); (0, 2); (0, 3); (0, 4); (0, 5)] /\ Z.of_nat (length (repeat (0%nat, tt) 4 ++ repeat (1%nat, tt) 6)) <= 57) /\
  run (primet_step 6) (repeat (0%nat, tt) 6) primet = Crashed.
Proof.
  split; [|apply (primet_prints 6 []); lia].
  destruct (primet_prints 1 (repeat (0%nat, tt) 4 ++ repeat (1%nat, tt) 6)) as [Hup _]. destruct Hup as [_ H]; [lia|].
  destruct (run (primet_step 1) (repeat (0%nat, tt) 4 ++ repeat (1%nat, tt) 6) primet) as [| |s] eqn:E; [discriminate|discriminate|].
  exists s. split; [reflexivity|]. split; [injection E as <-; reflexivity|exact (proj1 (H s eq_refl))].
Defined.

(** A sixth thread takes its range from behind the array. *)
Example sixth_thread : run (primet_step 6) (repeat (0%nat, tt) 6) primet = Crashed.
Proof. vm_compute. reflexivity. Qed.
