(* ===== verification/Matrixmul.v ===== *)
(** matrixmul (src/pus/exp/matrixmul/matrixmul.c): the multiplication of two matrices of
    doubles in place, against the sums it stands for.  The arithmetic of doubles is a
    parameter; the order of the additions is the one of the loops. *)
From S2P Require Import Prelude.

Class DoubleOps := { double : Type; d_zero : double; d_plus : double -> double -> double; d_times : double -> double -> double }.

Section matrixmul.
Context `{DoubleOps}.

(** A [double **]: the rows it points to. *)
Definition matrix : Type := list (list double).
Definition get (m : matrix) (i j : Z) : option double := row ← znth m i; znth row j.
Definition set_at (m : matrix) (i j : Z) (x : double) : option matrix := row ← znth m i; row ← zupd row j x; zupd m i row.

(** [allocate_mem]: the blocks hold what was in them; [None] when [malloc] has no
    memory, which is not looked at. *)
Definition allocate_mem (blocks : Z -> option (list double)) (rows cols : Z) : option matrix :=
  mapM (fun i => row ← blocks i; if zlen row =? cols then Some row else None) (seqZ 0 rows).

(** The loops of [multMatrixp], innermost first; the bounds are the numbers of rounds. *)
Fixpoint k_loop (n : nat) (A B C : matrix) (i j k : Z) : option matrix :=
  match n with
  | O => Some C
  | S n' =>
      c ← get C i j; a ← get A i k; b ← get B k j;
      C ← set_at C i j (d_plus c (d_times a b));
      k_loop n' A B C i j (k + 1)
  end.
Fixpoint j_loop (n : nat) (co1 : Z) (A B C : matrix) (i j : Z) : option matrix :=
  match n with
  | O => Some C
  | S n' => C ← set_at C i j d_zero; C ← k_loop (Z.to_nat co1) A B C i j 0; j_loop n' co1 A B C i (j + 1)
  end.
Fixpoint i_loop (n : nat) (co1 co2 : Z) (A B C : matrix) (i : Z) : option matrix :=
  match n with
  | O => Some C
  | S n' => C ← j_loop (Z.to_nat co2) co1 A B C i 0; i_loop n' co1 co2 A B C (i + 1)
  end.
Definition multMatrixp (A B C : matrix) (ro1 co1 ro2 co2 : Z) : option matrix := i_loop (Z.to_nat ro1) co1 co2 A B C 0.

(** * The sums *)

(** [rows] rows of [cols] numbers. *)
Definition sized (m : matrix) (rows cols : Z) : Prop := zlen m = rows /\ Forall (fun r => zlen r = cols) m.

(** Row times column, added from the left. *)
Fixpoint dot (n : nat) (A B : matrix) (i j : Z) : option double :=
  match n with
  | O => Some d_zero
  | S n' => s ← dot n' A B i j; a ← get A i (Z.of_nat n'); b ← get B (Z.of_nat n') j; Some (d_plus s (d_times a b))
  end.

Lemma get_sized m rows cols i j : sized m rows cols -> 0 <= i < rows -> 0 <= j < cols -> exists x, get m i j = Some x.
Proof.
  intros [Hr Hc] Hi Hj. unfold get. destruct (znth_in_range m i ltac:(lia)) as [row E]. rewrite E. cbn.
  apply znth_Some in E as [_ E]. pose proof (Forall_lookup_1 _ _ _ _ Hc E) as Hl. cbn in Hl. apply znth_in_range. lia.
Qed.

(** Storing a number changes that number only. *)
Lemma set_at_sized m rows cols i j x : sized m rows cols -> 0 <= i < rows -> 0 <= j < cols ->
  exists m', set_at m i j x = Some m' /\ sized m' rows cols /\ get m' i j = Some x /\
    forall i' j', (i', j') <> (i, j) -> get m' i' j' = get m i' j'.
Proof.
  intros [Hr Hc] Hi Hj. unfold set_at. destruct (znth_in_range m i ltac:(lia)) as [row E]. rewrite E. cbn.
  pose proof E as [_ El]%znth_Some. pose proof (Forall_lookup_1 _ _ _ _ Hc El) as Hl. cbn in Hl.
  destruct (zupd row j x) as [row'|] eqn:Er; [|rewrite zupd_in_range in Er by lia; done]. cbn.
  destruct (zupd m i row') as [m'|] eqn:Em; [|rewrite zupd_in_range in Em by lia; done].
  exists m'. split; [done|]. split; [|split].
  - split; [by erewrite zupd_zlen|]. rewrite zupd_in_range in Em by lia. injection Em as <-. apply Forall_insert; [done|]. by erewrite zupd_zlen.
  - unfold get. rewrite (znth_zupd_eq _ _ _ _ Em). cbn. by apply (znth_zupd_eq _ _ _ _ Er).
  - intros i' j' Hne. unfold get. destruct (decide (i = i')) as [<-|Hi'].
    + rewrite (znth_zupd_eq _ _ _ _ Em), E. cbn. apply (znth_zupd_ne _ _ _ _ _ Er). congruence.
    + by rewrite (znth_zupd_ne _ _ _ _ _ Em).
Qed.

Section product.
Context (A B : matrix) (ro1 co1 co2 : Z) (HA : sized A ro1 co1) (HB : sized B co1 co2) (Hpos : 0 <= ro1 /\ 0 <= co1 /\ 0 <= co2).

Lemma dot_total n i j : Z.of_nat n <= co1 -> 0 <= i < ro1 -> 0 <= j < co2 -> exists x, dot n A B i j = Some x.
Proof.
  intros Hn Hi Hj. induction n as [|n IH]; [by eexists|]. cbn [dot]. destruct IH as [s ->]; [lia|]. cbn.
  destruct (get_sized A ro1 co1 i (Z.of_nat n) HA Hi ltac:(lia)) as [a ->]. destruct (get_sized B co1 co2 (Z.of_nat n) j HB ltac:(lia) Hj) as [b ->]. by eexists.
Qed.

(** [same C C' i j]: nothing but the number at [i], [j] differs. *)
Lemma k_loop_spec n : forall C i j k, sized C ro1 co2 -> 0 <= i < ro1 -> 0 <= j < co2 -> 0 <= k -> k + Z.of_nat n = co1 ->
  get C i j = dot (Z.to_nat k) A B i j ->
  exists C', k_loop n A B C i j k = Some C' /\ sized C' ro1 co2 /\ get C' i j = dot (Z.to_nat co1) A B i j /\
    forall i' j', (i', j') <> (i, j) -> get C' i' j' = get C i' j'.
Proof.
  induction n as [|n IH]; intros C i j k HC Hi Hj Hk Hn Hd.
  - exists C. split; [done|]. split; [done|]. split; [|done]. replace co1 with k by lia. done.
  - cbn [k_loop]. destruct (dot_total (Z.to_nat k) i j ltac:(lia) Hi Hj) as [s Es]. rewrite Hd, Es. cbn.
    destruct (get_sized A ro1 co1 i k HA Hi ltac:(lia)) as [a Ea]. destruct (get_sized B co1 co2 k j HB ltac:(lia) Hj) as [b Eb]. rewrite Ea, Eb. cbn.
    destruct (set_at_sized C ro1 co2 i j (d_plus s (d_times a b)) HC Hi Hj) as (C1 & E1 & HC1 & Hg1 & Ho1). rewrite E1. cbn.
    destruct (IH C1 i j (k + 1) HC1 Hi Hj ltac:(lia) ltac:(lia)) as (C' & E & HC' & Hg & Ho).
    { rewrite Hg1. replace (Z.to_nat (k + 1)) with (S (Z.to_nat k)) by lia. cbn [dot]. rewrite Es. cbn. rewrite Z2Nat.id by lia. by rewrite Ea, Eb. }
    exists C'. split; [done|]. split; [done|]. split; [done|]. intros i' j' Hne. by rewrite Ho, Ho1.
Qed.

Lemma j_loop_spec n : forall C i j, sized C ro1 co2 -> 0 <= i < ro1 -> 0 <= j -> j + Z.of_nat n = co2 ->
  exists C', j_loop n co1 A B C i j = Some C' /\ sized C' ro1 co2 /\
    (forall j', j <= j' < co2 -> get C' i j' = dot (Z.to_nat co1) A B i j') /\
    forall i' j', (i' <> i \/ j' < j) -> get C' i' j' = get C i' j'.
Proof.
  induction n as [|n IH]; intros C i j HC Hi Hj Hn.
  - exists C. split; [done|]. split; [done|]. split; [intros j' Hj'; lia|done].
  - cbn [j_loop]. destruct (set_at_sized C ro1 co2 i j d_zero HC Hi ltac:(lia)) as (C1 & E1 & HC1 & Hg1 & Ho1). rewrite E1. cbn.
    destruct (k_loop_spec (Z.to_nat co1) C1 i j 0 HC1 Hi ltac:(lia) ltac:(lia) ltac:(lia) Hg1) as (C2 & E2 & HC2 & Hg2 & Ho2). rewrite E2. cbn.
    destruct (IH C2 i (j + 1) HC2 Hi ltac:(lia) ltac:(lia)) as (C' & E & HC' & Hg & Ho). exists C'. split; [done|]. split; [done|]. split.
    + intros j' Hj'. destruct (decide (j' = j)) as [->|Hne]; [|apply Hg; lia]. rewrite Ho by (right; lia). done.
    + intros i' j' Hne. assert (Hp : (i', j') <> (i, j)) by (intros [= -> ->]; lia). rewrite Ho by lia. by rewrite Ho2, Ho1.
Qed.

Lemma i_loop_spec n : forall C i, sized C ro1 co2 -> 0 <= i -> i + Z.of_nat n = ro1 ->
  exists C', i_loop n co1 co2 A B C i = Some C' /\ sized C' ro1 co2 /\
    (forall i' j', i <= i' < ro1 -> 0 <= j' < co2 -> get C' i' j' = dot (Z.to_nat co1) A B i' j') /\
    forall i' j', i' < i -> get C' i' j' = get C i' j'.
Proof.
  induction n as [|n IH]; intros C i HC Hi Hn.
  - exists C. split; [done|]. split; [done|]. split; [intros i' j' Hi'; lia|done].
  - cbn [i_loop]. destruct (j_loop_spec (Z.to_nat co2) C i 0 HC ltac:(lia) ltac:(lia) ltac:(lia)) as (C1 & E1 & HC1 & Hg1 & Ho1). rewrite E1. cbn.
    destruct (IH C1 (i + 1) HC1 ltac:(lia) ltac:(lia)) as (C' & E & HC' & Hg & Ho). exists C'. split; [done|]. split; [done|]. split.
    + intros i' j' Hi' Hj'. destruct (decide (i' = i)) as [->|Hne]; [|apply Hg; lia]. rewrite Ho by lia. by apply Hg1.
    + intros i' j' Hi'. rewrite Ho by lia. apply Ho1. left. lia.
Qed.
End product.

(** C21: the loops store the product: every number of C, whatever was in it, becomes the
    sum of the products along its row and column, and no other memory is touched. *)
Theorem multMatrixp_product A B C ro1 co1 co2 : 0 <= ro1 -> 0 <= co1 -> 0 <= co2 -> sized A ro1 co1 -> sized B co1 co2 -> sized C ro1 co2 ->
  exists C', multMatrixp A B C ro1 co1 co1 co2 = Some C' /\ sized C' ro1 co2 /\
    forall i j, 0 <= i < ro1 -> 0 <= j < co2 -> exists x, get C' i j = Some x /\ dot (Z.to_nat co1) A B i j = Some x.
Proof.
  intros H1 H2 H3 HA HB HC. destruct (i_loop_spec A B ro1 co1 co2 HA HB ltac:(done) (Z.to_nat ro1) C 0 HC ltac:(lia) ltac:(lia)) as (C' & E & HC' & Hg & _).
  exists C'. split; [done|]. split; [done|]. intros i j Hi Hj. rewrite Hg by done.
  destruct (dot_total A B ro1 co1 co2 HA HB (Z.to_nat co1) i j ltac:(lia) Hi Hj) as [x E']. by exists x.
Qed.
End matrixmul.

(** * The matrices of the command *)

#[export] Instance whole_numbers : DoubleOps := { double := Z; d_zero := 0; d_plus := Z.add; d_times := Z.mul }.
Definition a_matrix : @matrix whole_numbers := [[1; 3; 5]; [2; 4; 0]].
Definition b_matrix : @matrix whole_numbers := [[6; 2; 4; 8]; [1; 7; 0; 9]; [0; 3; 5; 1]].
Definition c_matrix : @matrix whole_numbers := [[9; 9; 9; 9]; [9; 9; 9; 9]].

Lemma multMatrixp_product_witness : exists C', multMatrixp a_matrix b_matrix c_matrix 2 3 3 4 = Some C' /\ get C' 1 3 = Some 52.
Proof.
  destruct (multMatrixp_product a_matrix b_matrix c_matrix 2 3 4) as (C' & E & _ & Hg); [lia|lia|lia|by repeat constructor..|].
  exists C'. split; [exact E|]. destruct (Hg 1 3 ltac:(lia) ltac:(lia)) as (x & E1 & E2). rewrite E1. vm_compute in E2. by injection E2 as <-.
Defined.
Example matrixmul_output : multMatrixp a_matrix b_matrix c_matrix 2 3 3 4 = Some [[9; 38; 29; 40]; [16; 32; 8; 52]].
Proof. vm_compute. reflexivity. Qed.
