(* ===== verification/Netsrv.v ===== *)
(** netsrv (src/pus/app/netsrv/netsrv.c): the workers of the two TCP services.  The echo
    worker sends back what it reads, as many bytes at a time as a pointer has; the other
    one answers every read with the first bytes of a text. *)
From Stdlib Require Import Ascii String.
From S2P Require Import Prelude CText.

(** What [tcp_read] gives: an error, or bytes (none at the end of the connection). *)
Inductive tcp_read := ReadFails (err : Z) | Read (s : bytes).

Section netsrv.
(** [sizeof] of a pointer. *)
Context (pointer_size : Z).

Definition ECHO_BUFSIZE : Z := 1024.
Definition WC_BUFSIZE : Z := 512.
Definition ERR_NO_MEMORY : Z := -5.

(** The bytes go to the start of a block. *)
Definition fill (buf s : bytes) : option bytes := if zlen s <=? zlen buf then Some (s ++ drop (length s) buf) else None.

(** [echo_worker], with the block of [malloc] and the reads to come; the results of
    [tcp_write] are not looked at.  [None]: memory that is not the program's; the flag:
    whether the worker has ended. *)
Fixpoint echo_loop (buf : bytes) (rs : list tcp_read) (written : list bytes) : option (bool * list bytes) :=
  match rs with
  | [] => Some (false, written)
  | r :: rs' =>
      let s := match r with ReadFails _ => [] | Read s => take (Z.to_nat pointer_size) s end in
      buf ← fill buf s;
      if zlen s <=? 0 then Some (true, written)
      else
        out ← (if zlen s <=? zlen buf then Some (take (length s) buf) else None);
        echo_loop buf rs' (written ++ [out])
  end.
Definition echo_worker (buf : option bytes) (rs : list tcp_read) : option (Z * bool * list bytes) :=
  match buf with
  | None => Some (ERR_NO_MEMORY, true, [])
  | Some buf => '(over, written) ← echo_loop buf rs []; Some (0, over, written)
  end.

Definition resp : bytes := str_of "data is ok" ++ [10; 0].
(** [wc_worker]: the buffer is printed as a string. *)
Fixpoint wc_loop (buf : bytes) (rs : list tcp_read) (printed written : list bytes) : option (bool * list bytes * list bytes) :=
  match rs with
  | [] => Some (false, printed, written)
  | r :: rs' =>
      let s := match r with ReadFails _ => [] | Read s => take 256 s end in
      buf ← fill buf s;
      data ← c_string buf 0;
      if zlen s <=? 0 then Some (true, printed ++ [data], written)
      else
        out ← (if pointer_size <=? zlen resp then Some (take (Z.to_nat pointer_size) resp) else None);
        wc_loop buf rs' (printed ++ [data]) (written ++ [out])
  end.
Definition wc_worker (buf : option bytes) (rs : list tcp_read) : option (Z * bool * list bytes * list bytes) :=
  match buf with
  | None => Some (ERR_NO_MEMORY, true, [], [])
  | Some buf => '(over, printed, written) ← wc_loop buf rs [] []; Some (0, over, printed, written)
  end.

(** * What is sent back *)

(** The pieces up to the first read that ends the loop. *)
Fixpoint pieces (rs : list tcp_read) : list bytes :=
  match rs with
  | Read (c :: s) :: rs' => (c :: s) :: pieces rs'
  | _ => []
  end.

Lemma fill_spec buf s : zlen s <= zlen buf -> exists buf', fill buf s = Some buf' /\ zlen buf' = zlen buf /\ take (length s) buf' = s.
Proof.
  intros Hl. unfold fill. rewrite (proj2 (Z.leb_le _ _) Hl). eexists. split; [done|]. unfold zlen in *. split; [rewrite length_app, length_drop; lia|].
  by rewrite take_app_length.
Qed.

(** Reads that respect the length they are given. *)
Definition reads_ok (n : Z) (rs : list tcp_read) : Prop := Forall (fun r => match r with Read s => zlen s <= n | ReadFails _ => True end) rs.

Lemma echo_loop_spec rs : forall buf written, 0 < pointer_size <= zlen buf -> reads_ok pointer_size rs ->
  exists over, echo_loop buf rs written = Some (over, written ++ pieces rs).
Proof.
  induction rs as [|r rs IH]; intros buf written Hp Hrs; [eexists; by rewrite app_nil_r|].
  apply Forall_cons_1 in Hrs as [Hr Hrs]. cbn [echo_loop]. destruct r as [err|s].
  - destruct (fill_spec buf [] ltac:(unfold zlen; cbn; lia)) as (b & -> & _). cbn. eexists. by rewrite app_nil_r.
  - rewrite take_ge by (unfold zlen in Hr; lia). destruct (fill_spec buf s ltac:(lia)) as (b & -> & Hl & Ht). cbn [mbind option_bind].
    destruct s as [|c s]; [cbn; eexists; by rewrite app_nil_r|]. rewrite (proj2 (Z.leb_gt _ 0)) by (rewrite zlen_cons; pose proof (zlen_nonneg s); lia).
    rewrite (proj2 (Z.leb_le _ _)) by lia. rewrite Ht. cbn [mbind option_bind pieces].
    destruct (IH b (written ++ [c :: s]) ltac:(lia) Hrs) as [over E]. exists over. by rewrite E, <- app_assoc.
Qed.

(** The echo service sends back what it read, piece by piece, until a read fails or is
    empty. *)
Theorem echo_worker_echoes buf rs : zlen buf = ECHO_BUFSIZE -> 0 < pointer_size <= 8 -> reads_ok pointer_size rs ->
  exists over, echo_worker (Some buf) rs = Some (0, over, pieces rs).
Proof.
  intros Hb Hp Hrs. destruct (echo_loop_spec rs buf [] ltac:(unfold ECHO_BUFSIZE in Hb; lia) Hrs) as [over E].
  exists over. unfold echo_worker. by rewrite E.
Qed.
End netsrv.

Lemma echo_worker_echoes_witness :
  exists over, echo_worker 8 (Some (repeat 0 1024)) [Read (str_of "abcdefgh"); Read (str_of "ij"); Read []] = Some (0, over, [str_of "abcdefgh"; str_of "ij"]).
Proof. apply (echo_worker_echoes 8 (repeat 0 1024) [Read (str_of "abcdefgh"); Read (str_of "ij"); Read []]); [reflexivity|lia|repeat constructor; discriminate]. Defined.

(** The other service answers with eight of its eleven characters, and shows what an
    earlier read left behind a shorter one. *)
Example wc_answers : wc_worker 8 (Some (repeat 0 512)) [Read (str_of "hello"); Read (str_of "by"); Read []] =
  Some (0, true, [str_of "hello"; str_of "byllo"; str_of "byllo"], [str_of "data is "; str_of "data is "]).
Proof. vm_compute. reflexivity. Qed.
